(* ===== verification/_CoqProject ===== *)
-Q . S2P
Prelude.v
OsmoFsm.v
WorldRel.v
Gsm.v
VlrTypes.v
VlrSubscr.v
VlrSample.v
VlrUse.v
VlrAuthTuples.v
VlrAuthFsm.v
VlrAuthProofs.v
VlrLuSub.v
VlrLu.v
VlrArq.v
VlrSgs.v
Paging.v
SgsIface.v
VlrSystem.v
VlrDb.v
VlrDbProofs.v
VlrUseProofs.v
VlrSteps.v
VlrBalance.v
VlrSampleRun.v
VlrUseDb.v
VlrLuInv.v
VlrLuSecure.v
CLib.v
CLibProofs.v
HuaweiBer.v
CdrEnc.v
BerProofs.v
CdrEncProofs.v
Codecs.v
Csd.v
CodecProofs.v
Sdp.v
SdpProofs.v
Mncc.v
MscCdr.v
CdrProofs.v
CdrRotate.v
CdrRecord.v
CdrFiles.v
CallTypes.v
CallBase.v
CallLeg.v
CallAssign.v
CallCc.v
CallSys.v
CallInv.v
CallSafe.v
CallDispatch.v
CallAssignSafe.v
CallLevels.v
CallCcSafe.v
CallSysSafe.v
CallSample.v
CallProps.v
CMonad.v
VgcsTypes.v
Vgcs.v
VgcsSample.v
VgcsInv.v
VgcsStill.v
VgcsLinks.v
VgcsCellSafe.v
VgcsBssSafe.v
VgcsGccSafe.v
VgcsSafe.v
VgcsEvents.v
VgcsProps.v
