(* ===== verification/Prelude.v ===== *)
(** * Verification of OsmoMSC

    OsmoMSC is a mobile switching centre with its visitor location register
    (VLR).  It answers the requests of phones that come over a radio access
    network (RAN): it identifies and authenticates subscribers, keeps their
    records, pages them, switches their calls and group calls, and writes charging tickets.
    This library is a shallow embedding of that program: C functions are Rocq
    functions with the names of the source, a struct is a [Record], an enum an
    [Inductive], and what can go wrong in C (an assertion, a freed object that
    is used, a write past an array) is a value that the theorems speak about.

    ** The parts, and the files that model them

    - _Visitor location register_ (src/libvlr/).  [VlrTypes] has the record of
      a subscriber, the data of the procedures and the world in which they
      run; [VlrSubscr] and [VlrUse] the operations of vlr.c on one record;
      [VlrAuthTuples] and [VlrAuthFsm] vlr_auth_fsm.c; [VlrLuSub] and [VlrLu]
      vlr_lu_fsm.c; [VlrArq] vlr_access_req_fsm.c; [VlrSgs] vlr_sgs.c and
      vlr_sgs_fsm.c; [VlrSystem] ties the state machines together and has the
      messages of the MS and of the HLR; [VlrDb] the list of records with its
      hash tables.  [Paging] is src/libmsc/paging.c and [SgsIface] the
      callbacks of src/libmsc/sgs_iface.c, both of which the VLR calls.  Every
      procedure is a table of states and callbacks for the FSM library of
      libosmocore: [OsmoFsm] is the interface to that library, with its
      documented behaviour as the laws of a class, and one implementation of
      it on which the model runs.  [WorldRel] is the method by which an
      invariant of a handler is reduced to those of its parts.
    - _Calls_ (src/libmsc/).  [CallTypes] has the transactions, connections,
      call legs and RTP streams, and the monad (state, log of outputs, crash);
      [CallBase] the list of transactions and timers (transaction.c, parts of
      gsm_04_08_cc.c); [CallLeg] trans_free, the uses of a connection,
      call_leg.c and rtp_stream.c; [CallAssign] transaction_cc.c and the
      assignment and the state machine of msc_a.c; [CallCc] the handlers and
      tables of gsm_04_08_cc.c; [CallSys] all events as one transition system.
      [Mncc] has the messages of the interface to the call router.
    - _Codecs and bearer services_ (src/libmsc/).  [Codecs] is sdp_msg.c,
      codec_mapping.c and codec_filter.c; [Csd] csd_bs.c and csd_filter.c;
      [Sdp] the text of session descriptions.
    - _Charging_.  [MscCdr] is src/libmsc/msc_cdr.c and its commands in
      msc_vty.c; [HuaweiBer] and [CdrEnc] the encoder of
      src/osmo-msc-cdrenc/; [CLib] what they use of the C library.
    - _Voice group calls_ (src/libmsc/).  [VgcsTypes] is the group call register
      (asci_gcr.c) and the messages of TS 44.068; [Vgcs] the four state machines
      of msc_vgcs.c (a call, its BSSs, their cells, the endpoint at the media
      gateway), which send each other events, and what msc_a.c and ran_peer.c
      hand to them; [CMonad] the monad (state, fault) in which they run.

    How they interact: the MSC hands a request of a phone to the VLR, whose
    procedures call back ([outputs] of the VLR world); an accepted request
    becomes a transaction on a connection, whose state machine, call leg and
    call control call each other ([dispatch] of [CallLeg], tied in
    [CallAssign]); call control chooses codecs with the filters of [Codecs]
    and [Csd] and exchanges session descriptions ([Sdp]) with the call router;
    the end of a call issues a ticket, which the encoder turns into records.

    ** What the theorems show

    - Authentication ([VlrAuthTuples], [VlrAuthProofs]): the tuple that is
      used is the right one, a response is accepted exactly when it is the one
      that the tuple in use demands, success is reported only after an accepted
      response or a resynchronisation that led to one, and one result is
      reported.
    - Location Updating ([VlrLuInv], [VlrLuSecure]): for any sequence of
      inputs, acceptance needs authentication and ciphering where they are
      required and the consent of the HLR; the MSC gets exactly one result;
      the timer ends a procedure that hangs.
    - Records ([VlrDbProofs], [VlrUseProofs], [VlrSteps], [VlrBalance],
      [VlrUseDb]): the hash tables agree with the list for any history, an
      IMSI belongs to one record, a new TMSI is fresh, use counts follow the
      flags of the record, and a record that someone holds is not freed.
    - Calls ([CallInv] to [CallProps]): for any sequence of events the uses
      of connections are those of their transactions, no assertion fails, the
      events of a connection nest at most four deep, and a new transaction
      identifier is free.  A program logic ([wp], [keeps]) carries the proof.
    - Codecs ([CodecProofs], [SdpProofs]): the filters that work in place
      compute the intersection, lists of versions fit their arrays, session
      descriptions and bearer capabilities read back.
    - Charging ([BerProofs], [CdrEncProofs], [CdrProofs], [CdrRotate],
      [CdrRecord], [CdrFiles]): what is written reads back; rotation replaces no
      file while the clock is not set back, so that every ticket is in one file
      that is kept, whole and in order; and a reader of the encoded file finds
      one record per ticket with the values of its columns.
    - Voice group calls ([VgcsInv] to [VgcsProps]): for any sequence of events
      the lists and pointers that link calls, BSSs, cells and endpoints agree,
      no assertion fails and no freed instance is found through them (the
      pointers of a call to the cell of the talker and of a connection to its
      cell are outside, and can dangle), and events nest at most seven deep;
      the uplink is granted when it is free;
      the register finds the most specific group.

    Theorems about errors state what the code does where it differs from
    what it means to do.

    ** Bounds and fuel

    Nested events of the VLR are a chain of dispatchers of any depth: the
    invariants hold for every depth.  [msc_a_dispatch n] nests [n] events of
    connections and crashes with [TooDeep] below; it is proved that 4 are
    enough for every event in every reachable state.  Likewise [vg_dispatch n]
    of voice group calls, with [TooNested] below, and 7.  [free_all] may free as
    many transactions as there are in the list.  Loops over text have the
    length of the text as fuel, which is proved to be enough where the
    theorem says that something is read.  Integers are [Z]; where the C type
    matters the wrap-around is written out (u8, u32 and the like).

    ** Parameters

    Code that is not in this repository is a parameter: the FSM library
    ([FsmLib], [FsmLaws]), BCD conversion, address functions
    ([SockaddrLib], [CallLib], [VgcsLib]), constants of libosmocore that only
    their equality matters of ([AmrCfg], [DataRates]), the result of calls that
    can fail.  The answers of the RAN, the HLR, the media gateway and the call
    router are inputs; what the program sends them is logged in the state.
    The sample files ([VlrSample], [VlrSampleRun], [CallSample],
    [VgcsSample]) instantiate the parameters, and the theorems are applied to
    runs of them.

    ** Not modelled

    - Coding of messages: RANAP, BSSMAP, SGsAP and GSUP octets are made and
      read by libosmogsm, libosmo-ranap and libosmo-gsup-client, which
      ran_msg_a.c, ran_msg_iu.c and sgs_iface.c call field by field.
    - Mobility management as a dispatcher (gsm_04_08.c): its calls of the VLR
      are inputs of [VlrSystem], its calls of call control events of
      [CallSys].
    - Short messages (gsm_04_11.c, sms_queue.c, db.c) and supplementary
      services (gsm_09_11.c): their transactions appear as those of other
      kinds in [CallSys] ([EvOtherTrans]), and their protocols do not.
    - The RESET procedure of RAN peers (ran_peer.c): [Vgcs] has what it does to
      the connections of group calls.
    - The reset of the SGs associations of an MME (vlr_sgs_reset_mme), which
      sends a modelled event to every subscriber; the end of a silent call when
      an IMSI changes (silent_call.c).
    - CM Re-Establishment, handover and the remote roles of a subscriber
      (msc_i.c, msc_t.c, msc_ho.c, e_link.c): msc_a.c is modelled from the acceptance of the
      subscriber to the release of the connection, without handover.
    - The built-in call router (mncc_builtin.c) and the socket of the external
      one: [CallSys] has the messages that arrive and logs those that leave.
    - Input and output only: VTY and CTRL commands, the HTTP interface, SMPP
      sockets, option parsing and main loops, text for the log. *)

From stdpp Require Export base list strings gmap.
From Stdlib Require Export ZArith Lia.

Declare Scope msc_scope.
Delimit Scope msc_scope with msc.
#[global] Open Scope Z_scope.
#[global] Open Scope msc_scope.

(** ** Functional record update

    [r <| f := v |>] is the C assignment [r.f = v] on a value of a [Record].
    The updater of a field is found by instance search: the instance destructs
    the record and rebuilds it with the one field changed. *)

Class Updater {R E : Type} (proj : R -> E) : Type := field_upd : (E -> E) -> R -> R.

Definition rec_at {R : Type} (_ : R) : Type := R.

Ltac derive_updater :=
  lazymatch goal with
  | |- @Updater ?R ?E ?proj =>
      let g := fresh "g" in
      let r := fresh "r" in
      intros g r;
      change (rec_at r);
      destruct r;
      lazymatch goal with
      | |- rec_at ?t =>
          let p := eval cbn in (proj t) in
          lazymatch eval pattern p in t with
          | ?mk _ => exact (mk (g p))
          end
      end
  end.

#[export] Hint Extern 1 (@Updater _ _ _) => derive_updater : typeclass_instances.

#[warning="-postfix-notation-not-level-1"]
Notation "r <| f := v |>" := (field_upd (proj := f) (fun _ => v) r)
  (at level 12, f constr at level 1, v constr at level 99, left associativity) : msc_scope.
#[warning="-postfix-notation-not-level-1"]
Notation "r <| f ::= g |>" := (field_upd (proj := f) g r)
  (at level 12, f constr at level 1, g constr at level 99, left associativity) : msc_scope.

(** ** Machine integers *)

Definition u8 (z : Z) : Z := z mod 2 ^ 8.
Definition u16 (z : Z) : Z := z mod 2 ^ 16.
Definition u32 (z : Z) : Z := z mod 2 ^ 32.

(** ** C strings

    A [char] array of size [n] holding a NUL-terminated string is a [string];
    [strlcpy n s] is what [OSMO_STRLCPY_ARRAY] leaves in it. *)

Definition strlcpy (n : nat) (s : string) : string := String.substring 0 (n - 1) s.

Definition str_empty (s : string) : bool := String.eqb s "".
Definition str_nonempty (s : string) : bool := negb (str_empty s).

(** ** Error codes, returned as negative numbers *)

Definition EINVAL : Z := 22.
Definition ENODEV : Z := 19.
