(* ===== verification/OsmoFsm.v ===== *)
(** * The finite state machine library of libosmocore, as an interface

    Every procedure of libvlr is a [struct osmo_fsm]: a table of states with
    their event and transition masks and callbacks.  The tables and callbacks
    are code of this repository and are modelled in the component files; the
    library that drives them is not, so it is a parameter here: [FsmLib] holds
    its operations and [FsmLaws] states the documented behaviour that the
    components rely on.  [ref_lib] is one library with that behaviour, used to
    run the components on concrete inputs. *)

From S2P Require Import Prelude.

(** enum osmo_fsm_term_cause *)
Inductive term_cause : Type :=
| OSMO_FSM_TERM_PARENT
| OSMO_FSM_TERM_REQUEST
| OSMO_FSM_TERM_REGULAR
| OSMO_FSM_TERM_ERROR
| OSMO_FSM_TERM_TIMEOUT.

#[export] Instance term_cause_eq_dec : EqDecision term_cause.
Proof. solve_decision. Defined.

Definition is_parent_cause (c : term_cause) : bool :=
  match c with OSMO_FSM_TERM_PARENT => true | _ => false end.

(** struct osmo_fsm_inst, as far as the components read or write it.
    [St] is the FSM's state enum and [PE] the type of the parent's events. *)
#[projections(primitive)]
Record fsm_inst {St PE : Type} : Type := mk_fsm_inst {
  fi_state : St;
  fi_T : Z;                       (* fi->T, number of the running timer *)
  fi_terminating : bool;          (* fi->proc.terminating *)
  fi_parent : bool;               (* fi->proc.parent != NULL *)
  fi_parent_term_event : PE       (* fi->proc.parent_term_event *)
}.
Arguments fsm_inst : clear implicits.

(** struct osmo_fsm, for instances that live in a world [W]: the masks of its
    state table and its callbacks.  [D] is the type of event data (the C
    [void *data]).  The callbacks of the states (onenter, action) and timer_cb
    may themselves call the library on the same FSM; they are separate
    arguments of the operations that run them. *)
Record osmo_fsm {W St E D PE : Type} : Type := mk_osmo_fsm {
  get_fi : W -> fsm_inst St PE;
  put_fi : fsm_inst St PE -> W -> W;
  st_num : St -> Z;
  ev_num : E -> Z;
  in_event_mask : St -> Z;
  out_state_mask : St -> Z;
  cleanup : term_cause -> W -> W;
  term_children : W -> W;                    (* terminate all child instances *)
  parent_dispatch : PE -> D -> W -> W;       (* dispatch to fi->proc.parent *)
  timeout_data : Z -> D                      (* &T handed to the parent *)
}.
Arguments osmo_fsm : clear implicits.

(** The bit mask of a list of enum values: [S(a) | S(b) | ...] *)
Fixpoint mask_of {A : Type} (num : A -> Z) (l : list A) : Z :=
  match l with
  | [] => 0
  | a :: l' => Z.lor (Z.shiftl 1 (num a)) (mask_of num l')
  end.

(** onenter callbacks: new state, previous state *)
Abbreviation onenter_cb W St := (St -> St -> W -> W).
(** action callbacks of the states *)
Abbreviation action_cb W St E D := (St -> E -> D -> W -> W).

Class FsmLib : Type := {
  (** osmo_fsm_inst_state_chg(fi, state, timeout_secs, T) *)
  osmo_fsm_inst_state_chg {W St E D PE : Type} :
    osmo_fsm W St E D PE -> onenter_cb W St -> St -> Z -> Z -> W -> Z * W;
  (** osmo_tdef_fsm_inst_state_chg(fi, state, timeouts_array, tdefs, default):
      the array gives the timer number of each state *)
  osmo_tdef_fsm_inst_state_chg {W St E D PE : Type} :
    osmo_fsm W St E D PE -> onenter_cb W St -> St -> (St -> Z) -> W -> Z * W;
  osmo_fsm_inst_dispatch {W St E D PE : Type} :
    osmo_fsm W St E D PE -> action_cb W St E D -> E -> D -> W -> Z * W;
  osmo_fsm_inst_term {W St E D PE : Type} :
    osmo_fsm W St E D PE -> term_cause -> D -> W -> W;
  (** the library's timer callback of an instance whose timer has fired *)
  fsm_timer_expired {W St E D PE : Type} :
    osmo_fsm W St E D PE -> option (W -> Z * W) -> W -> W;
  (** osmo_fsm_inst_alloc_child(fsm, parent, parent_term_event), [None] for
      NULL; the first argument is the state numbered 0 *)
  osmo_fsm_inst_alloc_child {St PE : Type} :
    St -> PE -> option (fsm_inst St PE)
}.

Section derived.
Context {W St E D PE : Type} (F : osmo_fsm W St E D PE).

Definition cur_state (w : W) : St := fi_state (get_fi F w).

(** the instance exists and is not being torn down *)
Definition fsm_alive (w : W) : bool := negb (fi_terminating (get_fi F w)).

Definition chg_allowed (w : W) (s : St) : bool :=
  fsm_alive w && Z.testbit (out_state_mask F (cur_state w)) (st_num F s).

Definition ev_allowed (w : W) (e : E) : bool :=
  fsm_alive w && Z.testbit (in_event_mask F (cur_state w)) (ev_num F e).

Definition with_state (s : St) (T : Z) (w : W) : W :=
  put_fi F (get_fi F w <| fi_state := s |> <| fi_T := T |>) w.

Definition mark_terminating (w : W) : W :=
  put_fi F (get_fi F w <| fi_terminating := true |>) w.
End derived.

(** The documented behaviour of the library. *)
Class FsmLaws (L : FsmLib) : Prop := {
  (** a permitted transition sets the state and calls the new state's onenter *)
  state_chg_permitted {W St E D PE : Type} (F : osmo_fsm W St E D PE) onenter s secs T w :
    chg_allowed F w s = true ->
    osmo_fsm_inst_state_chg F onenter s secs T w
    = (0, onenter s (cur_state F w) (with_state F s T w));
  (** any other transition is refused with an error and has no effect *)
  state_chg_refused {W St E D PE : Type} (F : osmo_fsm W St E D PE) onenter s secs T w :
    chg_allowed F w s = false ->
    snd (osmo_fsm_inst_state_chg F onenter s secs T w) = w
    /\ fst (osmo_fsm_inst_state_chg F onenter s secs T w) < 0;
  tdef_state_chg {W St E D PE : Type} (F : osmo_fsm W St E D PE) onenter s tdef w :
    exists secs, osmo_tdef_fsm_inst_state_chg F onenter s tdef w
                 = osmo_fsm_inst_state_chg F onenter s secs (tdef s) w;
  (** an event of the state's mask runs the state's action *)
  dispatch_accepted {W St E D PE : Type} (F : osmo_fsm W St E D PE) action e d w :
    ev_allowed F w e = true ->
    osmo_fsm_inst_dispatch F action e d w = (0, action (cur_state F w) e d w);
  (** any other event is refused with an error and has no effect *)
  dispatch_refused {W St E D PE : Type} (F : osmo_fsm W St E D PE) action e d w :
    ev_allowed F w e = false ->
    snd (osmo_fsm_inst_dispatch F action e d w) = w
    /\ fst (osmo_fsm_inst_dispatch F action e d w) < 0;
  (** termination: children first, then the cleanup callback, then the parent
      gets its event unless it is the parent that terminates us *)
  term_alive {W St E D PE : Type} (F : osmo_fsm W St E D PE) c d w :
    fsm_alive F w = true ->
    osmo_fsm_inst_term F c d w
    = let w1 := cleanup F c (term_children F (mark_terminating F w)) in
      if is_parent_cause c then w1
      else if fi_parent (get_fi F w1)
           then parent_dispatch F (fi_parent_term_event (get_fi F w1)) d w1
           else w1;
  (** a terminating instance is not terminated again *)
  term_again {W St E D PE : Type} (F : osmo_fsm W St E D PE) c d w :
    fsm_alive F w = false -> osmo_fsm_inst_term F c d w = w;
  (** a timeout terminates the instance, unless a timer_cb keeps it *)
  timer_without_cb {W St E D PE : Type} (F : osmo_fsm W St E D PE) w :
    fsm_timer_expired F None w
    = osmo_fsm_inst_term F OSMO_FSM_TERM_TIMEOUT (timeout_data F (fi_T (get_fi F w))) w;
  timer_with_cb {W St E D PE : Type} (F : osmo_fsm W St E D PE) cb w :
    fsm_timer_expired F (Some cb) w
    = let '(rc, w1) := cb w in
      if Z.eqb rc 1
      then osmo_fsm_inst_term F OSMO_FSM_TERM_TIMEOUT
             (timeout_data F (fi_T (get_fi F w))) w1
      else w1;
  (** a new child instance starts in state 0, attached to its parent *)
  alloc_child_init {St PE : Type} (s0 : St) (pe : PE) fi :
    osmo_fsm_inst_alloc_child s0 pe = Some fi ->
    fi = mk_fsm_inst St PE s0 0 false true pe
}.

(** ** A library with the documented behaviour *)

Definition ref_chg {W St E D PE : Type} (F : osmo_fsm W St E D PE)
    (onenter : onenter_cb W St) (s : St) (T : Z) (w : W) : Z * W :=
  if chg_allowed F w s
  then (0, onenter s (cur_state F w) (with_state F s T w))
  else (-1, w).

Definition ref_dispatch {W St E D PE : Type} (F : osmo_fsm W St E D PE)
    (action : action_cb W St E D) (e : E) (d : D) (w : W) : Z * W :=
  if ev_allowed F w e then (0, action (cur_state F w) e d w) else (-1, w).

Definition ref_term {W St E D PE : Type} (F : osmo_fsm W St E D PE)
    (c : term_cause) (d : D) (w : W) : W :=
  if fsm_alive F w then
    let w1 := cleanup F c (term_children F (mark_terminating F w)) in
    if is_parent_cause c then w1
    else if fi_parent (get_fi F w1)
         then parent_dispatch F (fi_parent_term_event (get_fi F w1)) d w1
         else w1
  else w.

Definition ref_timer {W St E D PE : Type} (F : osmo_fsm W St E D PE)
    (timer_cb : option (W -> Z * W)) (w : W) : W :=
  let d := timeout_data F (fi_T (get_fi F w)) in
  match timer_cb with
  | None => ref_term F OSMO_FSM_TERM_TIMEOUT d w
  | Some cb =>
      let '(rc, w1) := cb w in
      if Z.eqb rc 1 then ref_term F OSMO_FSM_TERM_TIMEOUT d w1 else w1
  end.

Definition ref_lib : FsmLib := {|
  osmo_fsm_inst_state_chg _ _ _ _ _ F oe s _ T w := ref_chg F oe s T w;
  osmo_tdef_fsm_inst_state_chg _ _ _ _ _ F oe s tdef w := ref_chg F oe s (tdef s) w;
  osmo_fsm_inst_dispatch _ _ _ _ _ F act e d w := ref_dispatch F act e d w;
  osmo_fsm_inst_term _ _ _ _ _ F c d w := ref_term F c d w;
  fsm_timer_expired _ _ _ _ _ F cb w := ref_timer F cb w;
  osmo_fsm_inst_alloc_child _ _ s0 pe := Some (mk_fsm_inst _ _ s0 0 false true pe)
|}.

#[export] Instance ref_laws : FsmLaws ref_lib.
Proof.
  split; cbn; intros; unfold ref_chg, ref_dispatch, ref_term, ref_timer.
  - by rewrite H.
  - rewrite H; cbn; split; [done | lia].
  - by exists 0.
  - by rewrite H.
  - rewrite H; cbn; split; [done | lia].
  - by rewrite H.
  - by rewrite H.
  - done.
  - done.
  - by injection H as <-.
Qed.

(** ** Calls whose return code the caller ignores *)

Section calls.
Context {L : FsmLib} {W St E D PE : Type} (F : osmo_fsm W St E D PE).
Context (onenter : onenter_cb W St) (action : action_cb W St E D).

Definition state_chg (s : St) (secs T : Z) (w : W) : W :=
  snd (osmo_fsm_inst_state_chg F onenter s secs T w).
Definition tdef_chg (s : St) (tdef : St -> Z) (w : W) : W :=
  snd (osmo_tdef_fsm_inst_state_chg F onenter s tdef w).
Definition dispatch (e : E) (d : D) (w : W) : W :=
  snd (osmo_fsm_inst_dispatch F action e d w).

Context {LL : FsmLaws L}.

Lemma state_chg_ok s secs T w :
  chg_allowed F w s = true ->
  state_chg s secs T w = onenter s (cur_state F w) (with_state F s T w).
Proof. intros H. unfold state_chg. by rewrite state_chg_permitted. Qed.

Lemma state_chg_no s secs T w :
  chg_allowed F w s = false -> state_chg s secs T w = w.
Proof. intros H. unfold state_chg. by apply state_chg_refused. Qed.

Lemma tdef_chg_ok s tdef w :
  chg_allowed F w s = true ->
  tdef_chg s tdef w = onenter s (cur_state F w) (with_state F s (tdef s) w).
Proof.
  intros H. unfold tdef_chg.
  destruct (tdef_state_chg F onenter s tdef w) as [secs ->].
  by rewrite state_chg_permitted.
Qed.

Lemma tdef_chg_no s tdef w :
  chg_allowed F w s = false -> tdef_chg s tdef w = w.
Proof.
  intros H. unfold tdef_chg.
  destruct (tdef_state_chg F onenter s tdef w) as [secs ->].
  by apply state_chg_refused.
Qed.

Lemma dispatch_ok e d w :
  ev_allowed F w e = true ->
  dispatch e d w = action (cur_state F w) e d w.
Proof. intros H. unfold dispatch. by rewrite dispatch_accepted. Qed.

Lemma dispatch_no e d w :
  ev_allowed F w e = false -> dispatch e d w = w.
Proof. intros H. unfold dispatch. by apply dispatch_refused. Qed.
End calls.

(** ** Automation

    [fsm_rw] rewrites the library calls whose outcome the masks decide;
    [fsm_side H] proves the side condition of such a rewrite from [H]. *)
Ltac fsm_side H := first [ typeclasses eauto | exact H | reflexivity ].

Ltac fsm_rw :=
  repeat first
    [ rewrite state_chg_ok by fsm_side I
    | rewrite tdef_chg_ok by fsm_side I
    | rewrite state_chg_no by fsm_side I
    | rewrite tdef_chg_no by fsm_side I
    | rewrite dispatch_ok by fsm_side I
    | rewrite dispatch_no by fsm_side I
    | rewrite term_alive by fsm_side I
    | rewrite term_again by fsm_side I
    | rewrite timer_without_cb by fsm_side I ].
