(* ===== verification/WorldRel.v ===== *)
(** * Reasoning about handlers with a preorder on worlds

    A handler is a sequence of assignments, calls, transitions and branches.
    When a property is a preorder between the world before and the world after,
    it is enough to establish it for the parts: the lemmas here split a handler
    at its [let]s and branches, and reduce the calls of the FSM library to the
    callbacks. *)

From S2P Require Import Prelude OsmoFsm.

Section rel.
Context {W : Type} (Rel : W -> W -> Prop) `{!PreOrder Rel}.

(** [let w := a in k w] *)
Lemma rel_let w a (k : W -> W) : Rel w a -> (forall x, Rel w x -> Rel w (k x)) -> Rel w (k a).
Proof. auto. Qed.

(** the same for a value that is not a world *)
Lemma rel_let_any {A : Type} w (a : A) (k : A -> W) : (forall x, Rel w (k x)) -> Rel w (k a).
Proof. auto. Qed.

Lemma rel_let_any_snd {A B : Type} w (a : A) (k : A -> B * W) :
  (forall x, Rel w (snd (k x))) -> Rel w (snd (k a)).
Proof. auto. Qed.

(** [let '(rc, w) := a in k rc w] *)
Lemma rel_pair {A : Type} w (a : A * W) (k : A -> W -> W) :
  Rel w (snd a) -> (forall rc x, Rel w x -> Rel w (k rc x)) -> Rel w (let '(rc, x) := a in k rc x).
Proof. destruct a. auto. Qed.

(** the same for handlers that return a pair *)
Lemma rel_let_snd {A : Type} w a (k : W -> A * W) :
  Rel w a -> (forall x, Rel w x -> Rel w (snd (k x))) -> Rel w (snd (k a)).
Proof. auto. Qed.

Lemma rel_pair_snd {A B : Type} w (a : A * W) (k : A -> W -> B * W) :
  Rel w (snd a) -> (forall rc x, Rel w x -> Rel w (snd (k rc x))) ->
  Rel w (snd (let '(rc, x) := a in k rc x)).
Proof. destruct a. auto. Qed.

(** a step at the end *)
Lemma rel_step w x y : Rel x y -> Rel w x -> Rel w y.
Proof. intros H1 H2. by transitivity x. Qed.

Context {L : FsmLib} {LL : FsmLaws L} {St E D PE : Type} (F : osmo_fsm W St E D PE).
Context (Hst : forall s T w, Rel w (with_state F s T w)).
Context (Hmark : forall w, Rel w (mark_terminating F w)).

Lemma state_chg_rel onenter s secs T w :
  (forall s p x, Rel x (onenter s p x)) -> Rel w (state_chg F onenter s secs T w).
Proof.
  intros Ho. destruct (chg_allowed F w s) eqn:E1.
  - rewrite state_chg_ok by done. etransitivity; [apply Hst | apply Ho].
  - by rewrite state_chg_no.
Qed.

Lemma tdef_chg_rel onenter s tdef w :
  (forall s p x, Rel x (onenter s p x)) -> Rel w (tdef_chg F onenter s tdef w).
Proof.
  intros Ho. destruct (chg_allowed F w s) eqn:E1.
  - rewrite tdef_chg_ok by done. etransitivity; [apply Hst | apply Ho].
  - by rewrite tdef_chg_no.
Qed.

Lemma dispatch_rel action e d w :
  (forall s, Rel w (action s e d w)) -> Rel w (dispatch F action e d w).
Proof.
  intros Ha. destruct (ev_allowed F w e) eqn:E1.
  - by rewrite dispatch_ok.
  - by rewrite dispatch_no.
Qed.

Context (Hcl : forall c w, Rel w (cleanup F c w)) (Hch : forall w, Rel w (term_children F w)).
Context (Hpa : forall d w, Rel w (parent_dispatch F (fi_parent_term_event (get_fi F w)) d w)).

Lemma term_rel c d w : Rel w (osmo_fsm_inst_term F c d w).
Proof.
  destruct (fsm_alive F w) eqn:E1; [|by rewrite term_again].
  rewrite term_alive by done. cbv zeta.
  set (w1 := cleanup F c (term_children F (mark_terminating F w))).
  assert (H : Rel w w1) by (unfold w1; etransitivity; [|apply Hcl]; etransitivity; [apply Hmark|apply Hch]).
  destruct (is_parent_cause c); [done|]. destruct (fi_parent _); [|done].
  etransitivity; [exact H | apply Hpa].
Qed.

Lemma timer_rel cb w : match cb with Some f => Rel w (snd (f w)) | None => True end ->
  Rel w (fsm_timer_expired F cb w).
Proof.
  intros H. destruct cb as [f|]; [|rewrite timer_without_cb; apply term_rel].
  rewrite timer_with_cb. destruct (f w) as [rc w1]. cbn in H.
  destruct (rc =? 1); [|done]. etransitivity; [exact H | apply term_rel].
Qed.
End rel.

(** ** The walk through a handler

    [rel_walk leaf] decomposes a goal [Rel w (body)]; [leaf] proves a step
    [Rel x (f x)] of the relation. *)
Ltac rel_walk_step leaf :=
  lazymatch goal with
  | |- ?Rel ?w ?w => reflexivity
  | |- ?Rel ?w (let x := ?a in @?k x) =>
      let W := type of w in
      lazymatch type of a with
      | W => apply (rel_let Rel w a k); [|intros ? ?]
      | W -> _ => let t := eval cbv beta in (k a) in change (Rel w t)
      | _ -> W => let t := eval cbv beta in (k a) in change (Rel w t)
      | _ => apply (rel_let_any Rel w a k); intros ?
      end
  | |- ?Rel ?w (let '(rc, x) := ?a in @?k rc x) => apply (rel_pair Rel w a k); [|intros ? ? ?]
  | |- ?Rel ?w (snd (let x := ?a in @?k x)) =>
      let W := type of w in
      lazymatch type of a with
      | W => apply (rel_let_snd Rel w a k); [|intros ? ?]
      | W -> _ => let t := eval cbv beta in (k a) in change (Rel w (snd t))
      | _ -> W => let t := eval cbv beta in (k a) in change (Rel w (snd t))
      | _ => apply (rel_let_any_snd Rel w a k); intros ?
      end
  | |- ?Rel ?w (snd (let '(rc, x) := ?a in @?k rc x)) =>
      apply (rel_pair_snd Rel w a k); [|intros ? ? ?]
  | |- ?Rel ?w (snd (?a, ?x)) => change (Rel w x)
  | |- ?Rel ?w (match ?b with _ => _ end) => destruct b
  | |- ?Rel ?w (snd (match ?b with _ => _ end)) => destruct b
  | _ => first [ assumption | eapply rel_step; [typeclasses eauto|leaf|] ]
  end.

Ltac rel_walk leaf := repeat (rel_walk_step leaf).
