(* ===== verification/Gsm.v ===== *)
(** * Protocol constants

    The enum values that the components share with 3GPP TS 24.008 (reject and
    GMM causes, mobile identity types), TS 23.003 (the TMSI) and the GSUP
    protocol (message types).  The C code takes them from the libosmocore
    headers. *)

From S2P Require Import Prelude.

(** ** enum gsm48_reject_value, TS 24.008 10.5.3.6 and 10.5.5.14 *)
Definition GSM48_REJECT_IMSI_UNKNOWN_IN_HLR : Z := 2.
Definition GSM48_REJECT_ILLEGAL_MS : Z := 3.
Definition GSM48_REJECT_IMSI_UNKNOWN_IN_VLR : Z := 4.
Definition GSM48_REJECT_IMEI_NOT_ACCEPTED : Z := 5.
Definition GSM48_REJECT_ILLEGAL_ME : Z := 6.
Definition GSM48_REJECT_GPRS_NOT_ALLOWED : Z := 7.
Definition GSM48_REJECT_SERVICES_NOT_ALLOWED : Z := 8.
Definition GSM48_REJECT_MS_IDENTITY_NOT_DERVIVABLE : Z := 9.
Definition GSM48_REJECT_IMPLICITLY_DETACHED : Z := 10.
Definition GSM48_REJECT_PLMN_NOT_ALLOWED : Z := 11.
Definition GSM48_REJECT_LOC_NOT_ALLOWED : Z := 12.
Definition GSM48_REJECT_ROAMING_NOT_ALLOWED : Z := 13.
Definition GSM48_REJECT_GPRS_NOT_ALLOWED_IN_PLMN : Z := 14.
Definition GSM48_REJECT_NO_SUIT_CELL_IN_LA : Z := 15.
Definition GSM48_REJECT_MSC_TMP_NOT_REACHABLE : Z := 16.
Definition GSM48_REJECT_NETWORK_FAILURE : Z := 17.
Definition GSM48_REJECT_MAC_FAILURE : Z := 20.
Definition GSM48_REJECT_SYNCH_FAILURE : Z := 21.
Definition GSM48_REJECT_CONGESTION : Z := 22.
Definition GSM48_REJECT_GSM_AUTH_UNACCEPTABLE : Z := 23.
Definition GSM48_REJECT_NOT_AUTH_FOR_CSG : Z := 25.
Definition GSM48_REJECT_SMS_PROV_VIA_GPRS_IN_RA : Z := 28.
Definition GSM48_REJECT_SRV_OPT_TMP_OUT_OF_ORDER : Z := 34.
Definition GSM48_REJECT_CALL_CAN_NOT_BE_IDENTIFIED : Z := 38.
Definition GSM48_REJECT_NO_PDP_CONTEXT_ACTIVATED : Z := 40.
Definition GSM48_REJECT_INCORRECT_MESSAGE : Z := 95.
Definition GSM48_REJECT_INVALID_MANDANTORY_INF : Z := 96.
Definition GSM48_REJECT_MSG_TYPE_NOT_IMPLEMENTED : Z := 97.
Definition GSM48_REJECT_MSG_TYPE_NOT_COMPATIBLE : Z := 98.
Definition GSM48_REJECT_INF_ELEME_NOT_IMPLEMENTED : Z := 99.
Definition GSM48_REJECT_CONDTIONAL_IE_ERROR : Z := 100.
Definition GSM48_REJECT_MSG_NOT_COMPATIBLE : Z := 101.
Definition GSM48_REJECT_PROTOCOL_ERROR : Z := 111.

(** ** enum gsm48_gmm_cause, TS 24.008 10.5.5.14 *)
Definition GMM_CAUSE_IMSI_UNKNOWN : Z := 2.
Definition GMM_CAUSE_ILLEGAL_MS : Z := 3.
Definition GMM_CAUSE_IMEI_NOT_ACCEPTED : Z := 5.
Definition GMM_CAUSE_ILLEGAL_ME : Z := 6.
Definition GMM_CAUSE_GPRS_NOTALLOWED : Z := 7.
Definition GMM_CAUSE_GPRS_OTHER_NOTALLOWED : Z := 8.
Definition GMM_CAUSE_MS_ID_NOT_DERIVED : Z := 9.
Definition GMM_CAUSE_IMPL_DETACHED : Z := 10.
Definition GMM_CAUSE_PLMN_NOTALLOWED : Z := 11.
Definition GMM_CAUSE_LA_NOTALLOWED : Z := 12.
Definition GMM_CAUSE_ROAMING_NOTALLOWED : Z := 13.
Definition GMM_CAUSE_NO_GPRS_PLMN : Z := 14.
Definition GMM_CAUSE_NO_SUIT_CELL_IN_LA : Z := 15.
Definition GMM_CAUSE_MSC_TEMP_NOTREACH : Z := 16.
Definition GMM_CAUSE_NET_FAIL : Z := 17.
Definition GMM_CAUSE_MAC_FAIL : Z := 20.
Definition GMM_CAUSE_SYNC_FAIL : Z := 21.
Definition GMM_CAUSE_CONGESTION : Z := 22.
Definition GMM_CAUSE_GSM_AUTH_UNACCEPT : Z := 23.
Definition GMM_CAUSE_NOT_AUTH_FOR_CSG : Z := 25.
Definition GMM_CAUSE_SMS_VIA_GPRS_IN_RA : Z := 28.
Definition GMM_CAUSE_NO_PDP_ACTIVATED : Z := 40.
Definition GMM_CAUSE_SEM_INCORR_MSG : Z := 95.
Definition GMM_CAUSE_INV_MAND_INFO : Z := 96.
Definition GMM_CAUSE_MSGT_NOTEXIST_NOTIMPL : Z := 97.
Definition GMM_CAUSE_MSGT_INCOMP_P_STATE : Z := 98.
Definition GMM_CAUSE_IE_NOTEXIST_NOTIMPL : Z := 99.
Definition GMM_CAUSE_COND_IE_ERR : Z := 100.
Definition GMM_CAUSE_MSG_INCOMP_P_STATE : Z := 101.
Definition GMM_CAUSE_PROTO_ERR_UNSPEC : Z := 111.

(** ** TMSI, TS 23.003 2.4 and 2.6 *)
Definition GSM_RESERVED_TMSI : Z := 0xFFFFFFFF.
Definition GSM23003_TMSI_SGSN_MASK : Z := 0xC0000000.

(** ** Sizes of identity strings, TS 23.003 *)
Definition GSM23003_IMSI_MAX_DIGITS : nat := 15.
Definition GSM23003_MSISDN_MAX_DIGITS : nat := 15.
Definition GSM23003_IMEI_NUM_DIGITS_NO_CHK : nat := 14.
Definition GSM23003_IMEISV_NUM_DIGITS : nat := 16.

(** enum gsm48 mobile identity type, TS 24.008 10.5.1.4 *)
Inductive mi_type : Type :=
| GSM_MI_TYPE_NONE | GSM_MI_TYPE_IMSI | GSM_MI_TYPE_IMEI
| GSM_MI_TYPE_IMEISV | GSM_MI_TYPE_TMSI.

(** struct osmo_mobile_identity, a tagged union *)
Inductive osmo_mobile_identity : Type :=
| MiNone
| MiImsi (imsi : string)
| MiImei (imei : string)
| MiImeisv (imeisv : string)
| MiTmsi (tmsi : Z).

(** enum osmo_gsup_message_type *)
Inductive gsup_msgt : Type :=
| OSMO_GSUP_MSGT_UPDATE_LOCATION_REQUEST | OSMO_GSUP_MSGT_UPDATE_LOCATION_ERROR
| OSMO_GSUP_MSGT_UPDATE_LOCATION_RESULT
| OSMO_GSUP_MSGT_SEND_AUTH_INFO_REQUEST | OSMO_GSUP_MSGT_SEND_AUTH_INFO_ERROR
| OSMO_GSUP_MSGT_SEND_AUTH_INFO_RESULT
| OSMO_GSUP_MSGT_AUTH_FAIL_REPORT
| OSMO_GSUP_MSGT_PURGE_MS_REQUEST | OSMO_GSUP_MSGT_PURGE_MS_ERROR
| OSMO_GSUP_MSGT_PURGE_MS_RESULT
| OSMO_GSUP_MSGT_INSERT_DATA_REQUEST | OSMO_GSUP_MSGT_INSERT_DATA_ERROR
| OSMO_GSUP_MSGT_INSERT_DATA_RESULT
| OSMO_GSUP_MSGT_DELETE_DATA_REQUEST | OSMO_GSUP_MSGT_DELETE_DATA_ERROR
| OSMO_GSUP_MSGT_DELETE_DATA_RESULT
| OSMO_GSUP_MSGT_LOCATION_CANCEL_REQUEST | OSMO_GSUP_MSGT_LOCATION_CANCEL_ERROR
| OSMO_GSUP_MSGT_LOCATION_CANCEL_RESULT
| OSMO_GSUP_MSGT_CHECK_IMEI_REQUEST | OSMO_GSUP_MSGT_CHECK_IMEI_ERROR
| OSMO_GSUP_MSGT_CHECK_IMEI_RESULT
| OSMO_GSUP_MSGT_OTHER (t : Z).

#[export] Instance gsup_msgt_eq_dec : EqDecision gsup_msgt.
Proof. solve_decision. Defined.

Inductive cn_domain : Type := OSMO_GSUP_CN_DOMAIN_PS | OSMO_GSUP_CN_DOMAIN_CS.

#[export] Instance cn_domain_eq_dec : EqDecision cn_domain.
Proof. solve_decision. Defined.
