(* ===== verification/VlrTypes.v ===== *)
(** * Data of the Visitor Location Register

    The subscriber record of include/osmocom/vlr/vlr.h, the private data of
    the VLR procedures, the messages they send, and the world in which the
    procedures of one subscriber run. *)

From S2P Require Import Prelude OsmoFsm Gsm.

(** ** Authentication tuples *)

(** struct osmo_auth_vector of libosmogsm: byte strings as lists of octets *)
#[projections(primitive)]
Record osmo_auth_vector : Type := mk_vec {
  v_rand : list Z;
  v_autn : list Z;
  v_ck : list Z;
  v_ik : list Z;
  v_res : list Z;
  v_res_len : Z;
  v_kc : list Z;
  v_sres : list Z;
  v_auth_types : Z
}.

Definition OSMO_AUTH_TYPE_GSM : Z := 1.
Definition OSMO_AUTH_TYPE_UMTS : Z := 2.
(** sizeof(vec->sres) *)
Definition SRES_SIZE : Z := 4.

(** A vector as memset(0) leaves it *)
Definition zero_vec : osmo_auth_vector :=
  mk_vec (replicate 16 0) (replicate 16 0) (replicate 16 0) (replicate 16 0)
         (replicate 16 0) 0 (replicate 8 0) (replicate 4 0) 0.

#[projections(primitive)]
Record vlr_auth_tuple : Type := mk_tuple {
  use_count : Z;
  key_seq : Z;
  vec : osmo_auth_vector
}.

Definition VLR_KEY_SEQ_INVAL : Z := 7.
(** ARRAY_SIZE(vsub->auth_tuples) *)
Definition NUM_TUPLES : nat := 5.

Definition inval_tuple : vlr_auth_tuple := mk_tuple 0 VLR_KEY_SEQ_INVAL zero_vec.

Inductive vlr_subscr_security_context : Type :=
| VLR_SEC_CTX_NONE | VLR_SEC_CTX_GSM | VLR_SEC_CTX_UMTS.

#[export] Instance sec_ctx_eq_dec : EqDecision vlr_subscr_security_context.
Proof. solve_decision. Defined.

Inductive vlr_lu_type : Type :=
| VLR_LU_TYPE_PERIODIC | VLR_LU_TYPE_IMSI_ATTACH | VLR_LU_TYPE_REGULAR.

#[export] Instance vlr_lu_type_eq_dec : EqDecision vlr_lu_type.
Proof. solve_decision. Defined.

Inductive vlr_ciph_result_cause : Type := VLR_CIPH_REJECT | VLR_CIPH_COMPL.

(** struct osmo_location_area_id *)
#[projections(primitive)]
Record osmo_location_area_id : Type := mk_lai { lai_plmn : Z * Z; lai_lac : Z }.

(** A pointer to an FSM instance: NULL, the instance of this world, or another
    instance of the same FSM (left over from an earlier connection). *)
Inductive fsm_ptr : Type := FsmNull | FsmThis | FsmOther.

#[export] Instance fsm_ptr_eq_dec : EqDecision fsm_ptr.
Proof. solve_decision. Defined.

(** enum osmo_rat_type *)
Inductive osmo_rat_type : Type :=
| OSMO_RAT_UNKNOWN | OSMO_RAT_GERAN_A | OSMO_RAT_UTRAN_IU | OSMO_RAT_EUTRAN_SGS.

(** enum sgsap_service_ind *)
Inductive sgsap_service_ind : Type :=
| SGSAP_SERV_IND_NONE | SGSAP_SERV_IND_CS_CALL | SGSAP_SERV_IND_SMS
| SGSAP_SERV_IND_PAGING_TIMEOUT.

(** enum paging_cause *)
Inductive paging_cause : Type :=
| PAGING_CAUSE_CALL_CONVERSATIONAL | PAGING_CAUSE_CALL_STREAMING
| PAGING_CAUSE_CALL_INTERACTIVE | PAGING_CAUSE_CALL_BACKGROUND
| PAGING_CAUSE_SIGNALLING_LOW_PRIO | PAGING_CAUSE_SIGNALLING_HIGH_PRIO
| PAGING_CAUSE_UNSPECIFIED.

(** struct paging_request: [pr_cb] identifies the callback and its
    transaction, [None] when there is no callback *)
#[projections(primitive)]
Record paging_request : Type := mk_paging_request {
  pr_cause : paging_cause;
  pr_cb : option Z
}.

(** struct vlr_sgs_cfg: the two timers the VLR runs itself *)
#[projections(primitive)]
Record vlr_sgs_cfg : Type := mk_sgs_cfg { sgs_timer_ts5 : Z; sgs_timer_ts6_2 : Z }.

(** enum sgs_ue_fsm_state *)
Inductive sgs_state : Type := SGS_UE_ST_NULL | SGS_UE_ST_LA_UPD_PRES | SGS_UE_ST_ASSOCIATED.

#[export] Instance sgs_state_eq_dec : EqDecision sgs_state.
Proof. solve_decision. Defined.

Definition sgs_state_num (s : sgs_state) : Z :=
  match s with SGS_UE_ST_NULL => 0 | SGS_UE_ST_LA_UPD_PRES => 1 | SGS_UE_ST_ASSOCIATED => 2 end.

(** ** struct vlr_subscr

    [last_tuple] points into [auth_tuples]: it is an index, so that an update
    through it is an update of the array.  The linkage of the record into the
    lookup tables is the business of the subscriber database. *)
#[projections(primitive)]
Record vlr_subscr : Type := mk_vsub {
  vs_ptr : Z;                       (* the address of the record *)
  imsi : string;
  msisdn : string;
  name : string;
  hlr : list Z;
  auth_tuples : list vlr_auth_tuple;
  last_tuple : option nat;
  sec_ctx : vlr_subscr_security_context;
  tmsi : Z;
  tmsi_new : Z;
  cgi_lai : osmo_location_area_id;
  imeisv : string;
  imei : string;
  imsi_detached_flag : bool;
  conf_by_radio_contact_ind : bool;
  sub_dataconf_by_hlr_ind : bool;
  loc_conf_in_hlr_ind : bool;
  dormant_ind : bool;
  cancel_loc_rx : bool;
  ms_not_reachable_flag : bool;
  la_allowed : bool;
  lu_fsm : fsm_ptr;
  auth_fsm : fsm_ptr;
  proc_arq_fsm : fsm_ptr;
  lu_complete : bool;
  expire_lu : Z;
  msc_conn_ref : option Z;
  use_count_of : gmap string Z;     (* struct osmo_use_count use_count *)
  is_paging : bool;                 (* cs.is_paging *)
  cs_requests : list paging_request;    (* cs.requests *)
  cs_paging_response_timer : bool;  (* osmo_timer_pending(&cs.paging_response_timer) *)
  cs_lac : Z;                       (* cs.lac, uint8_t *)
  attached_via_ran : osmo_rat_type; (* cs.attached_via_ran *)
  sgs_fsm : fsm_inst sgs_state unit;   (* an instance without a parent *)
  sgs_mme_name : string;            (* sgs.mme_name *)
  sgs_lai : osmo_location_area_id;  (* sgs.lai *)
  sgs_cbs : bool;                   (* sgs.response_cb, paging_cb, mminfo_cb are set *)
  sgs_timer : vlr_sgs_cfg;          (* sgs.cfg *)
  sgs_paging_serv_ind : sgsap_service_ind;          (* sgs.paging_serv_ind *)
  sgs_Ts5_pending : bool;           (* osmo_timer_pending(&sgs.Ts5) *)
  sgs_last_eutran_plmn : option (Z * Z)
}.

(** A record as [_vlr_subscr_alloc] initialises it, before the clock is read *)
Definition new_vsub : vlr_subscr := {|
  vs_ptr := 0; imsi := ""; msisdn := ""; name := ""; hlr := [];
  auth_tuples := replicate NUM_TUPLES inval_tuple;
  last_tuple := None; sec_ctx := VLR_SEC_CTX_NONE;
  tmsi := GSM_RESERVED_TMSI; tmsi_new := GSM_RESERVED_TMSI;
  cgi_lai := mk_lai (0, 0) 0;
  imeisv := ""; imei := "";
  imsi_detached_flag := false; conf_by_radio_contact_ind := false;
  sub_dataconf_by_hlr_ind := false; loc_conf_in_hlr_ind := false;
  dormant_ind := false; cancel_loc_rx := false;
  ms_not_reachable_flag := false; la_allowed := false;
  lu_fsm := FsmNull; auth_fsm := FsmNull; proc_arq_fsm := FsmNull;
  lu_complete := false; expire_lu := 0; msc_conn_ref := None;
  use_count_of := ∅; is_paging := false; cs_requests := [];
  cs_paging_response_timer := false; cs_lac := 0; attached_via_ran := OSMO_RAT_UNKNOWN;
  sgs_fsm := mk_fsm_inst _ _ SGS_UE_ST_NULL 0 false false tt; sgs_mme_name := ""; sgs_lai := mk_lai (0, 0) 0; sgs_cbs := false;
  sgs_timer := mk_sgs_cfg 0 0; sgs_paging_serv_ind := SGSAP_SERV_IND_NONE; sgs_Ts5_pending := false;
  sgs_last_eutran_plmn := None
|}.

(** vlr_instance.cfg, with the values of the expiry timers of [vlr_tdefs]:
    T3212/T3312 and X3212, in seconds *)
#[projections(primitive)]
Record vlr_cfg : Type := mk_cfg {
  retrieve_imeisv_early : bool;
  retrieve_imeisv_ciphered : bool;
  cfg_assign_tmsi : bool;
  check_imei_rqd : bool;
  auth_tuple_max_reuse_count : Z;
  auth_reuse_old_sets_on_error : bool;
  parq_retrieve_imsi : bool;
  is_ps : bool;
  T3212_secs : Z;
  X3212_secs : Z
}.

(** ** GSUP messages (struct osmo_gsup_message), with the fields the VLR uses *)
#[projections(primitive)]
Record osmo_gsup_message : Type := mk_gsup {
  g_type : gsup_msgt;
  g_imsi : string;
  g_cause : Z;
  g_auth_vectors : list osmo_auth_vector;
  g_auts : option (list Z);
  g_rand : option (list Z);
  g_cn_domain : option cn_domain;
  g_msisdn_enc : list Z;
  g_hlr_enc : option (list Z);
  g_cancel_update : bool;            (* !cancel_type || cancel_type == UPDATE *)
  g_imei_ack : bool;                 (* imei_result == OSMO_GSUP_IMEI_RESULT_ACK *)
  g_imei_enc : list Z
}.

(** [struct osmo_gsup_message msg = {0}] with the message type set *)
Definition empty_gsup (t : gsup_msgt) : osmo_gsup_message :=
  mk_gsup t "" 0 [] None None None [] None false false [].

(** gsm48_encode_bcd_number of libosmogsm: [None] when the number cannot be
    encoded (a length below 1) *)
Class BcdCodec : Type := gsm48_encode_bcd_number : string -> option (list Z).

(** struct vlr_auth_resp_par *)
#[projections(primitive)]
Record vlr_auth_resp_par : Type := mk_auth_par {
  p_is_r99 : bool;
  p_is_utran : bool;
  p_res : option (list Z);
  p_res_len : Z;
  p_auts : option (list Z)
}.

(** ** States and events of the VLR procedures *)

Inductive auth_state : Type :=
| VLR_SUB_AS_NEEDS_AUTH
| VLR_SUB_AS_NEEDS_AUTH_WAIT_AI
| VLR_SUB_AS_WAIT_RESP
| VLR_SUB_AS_AUTHENTICATED
| VLR_SUB_AS_NEEDS_RESYNC
| VLR_SUB_AS_NEEDS_AUTH_WAIT_SAI_RESYNC
| VLR_SUB_AS_WAIT_RESP_RESYNC
| VLR_SUB_AS_WAIT_ID_IMSI
| VLR_SUB_AS_AUTH_FAILED.

Definition auth_state_num (s : auth_state) : Z :=
  match s with
  | VLR_SUB_AS_NEEDS_AUTH => 0 | VLR_SUB_AS_NEEDS_AUTH_WAIT_AI => 1
  | VLR_SUB_AS_WAIT_RESP => 2 | VLR_SUB_AS_AUTHENTICATED => 3
  | VLR_SUB_AS_NEEDS_RESYNC => 4 | VLR_SUB_AS_NEEDS_AUTH_WAIT_SAI_RESYNC => 5
  | VLR_SUB_AS_WAIT_RESP_RESYNC => 6 | VLR_SUB_AS_WAIT_ID_IMSI => 7
  | VLR_SUB_AS_AUTH_FAILED => 8
  end.

Inductive auth_event : Type :=
| VLR_AUTH_E_START | VLR_AUTH_E_HLR_SAI_ACK | VLR_AUTH_E_HLR_SAI_NACK
| VLR_AUTH_E_HLR_SAI_ABORT | VLR_AUTH_E_MS_AUTH_RESP | VLR_AUTH_E_MS_AUTH_FAIL
| VLR_AUTH_E_MS_ID_IMSI.

Definition auth_event_num (e : auth_event) : Z :=
  match e with
  | VLR_AUTH_E_START => 0 | VLR_AUTH_E_HLR_SAI_ACK => 1 | VLR_AUTH_E_HLR_SAI_NACK => 2
  | VLR_AUTH_E_HLR_SAI_ABORT => 3 | VLR_AUTH_E_MS_AUTH_RESP => 4
  | VLR_AUTH_E_MS_AUTH_FAIL => 5 | VLR_AUTH_E_MS_ID_IMSI => 6
  end.

Inductive lu_state : Type :=
| VLR_ULA_S_IDLE | VLR_ULA_S_WAIT_IMEISV | VLR_ULA_S_WAIT_PVLR | VLR_ULA_S_WAIT_AUTH
| VLR_ULA_S_WAIT_CIPH | VLR_ULA_S_WAIT_IMSI | VLR_ULA_S_WAIT_HLR_CHECK_IMEI_EARLY
| VLR_ULA_S_WAIT_HLR_UPD | VLR_ULA_S_WAIT_LU_COMPL | VLR_ULA_S_WAIT_LU_COMPL_STANDALONE
| VLR_ULA_S_DONE.

Definition lu_state_num (s : lu_state) : Z :=
  match s with
  | VLR_ULA_S_IDLE => 0 | VLR_ULA_S_WAIT_IMEISV => 1 | VLR_ULA_S_WAIT_PVLR => 2
  | VLR_ULA_S_WAIT_AUTH => 3 | VLR_ULA_S_WAIT_CIPH => 4 | VLR_ULA_S_WAIT_IMSI => 5
  | VLR_ULA_S_WAIT_HLR_CHECK_IMEI_EARLY => 6 | VLR_ULA_S_WAIT_HLR_UPD => 7
  | VLR_ULA_S_WAIT_LU_COMPL => 8 | VLR_ULA_S_WAIT_LU_COMPL_STANDALONE => 9
  | VLR_ULA_S_DONE => 10
  end.

Inductive lu_event : Type :=
| VLR_ULA_E_UPDATE_LA | VLR_ULA_E_SEND_ID_ACK | VLR_ULA_E_SEND_ID_NACK
| VLR_ULA_E_AUTH_SUCCESS | VLR_ULA_E_AUTH_NO_INFO | VLR_ULA_E_AUTH_FAILURE
| VLR_ULA_E_CIPH_RES | VLR_ULA_E_ID_IMSI | VLR_ULA_E_ID_IMEI | VLR_ULA_E_ID_IMEISV
| VLR_ULA_E_HLR_IMEI_ACK | VLR_ULA_E_HLR_IMEI_NACK | VLR_ULA_E_HLR_LU_RES
| VLR_ULA_E_UPD_HLR_COMPL | VLR_ULA_E_LU_COMPL_SUCCESS | VLR_ULA_E_LU_COMPL_FAILURE
| VLR_ULA_E_NEW_TMSI_ACK.

Definition lu_event_num (e : lu_event) : Z :=
  match e with
  | VLR_ULA_E_UPDATE_LA => 0 | VLR_ULA_E_SEND_ID_ACK => 1 | VLR_ULA_E_SEND_ID_NACK => 2
  | VLR_ULA_E_AUTH_SUCCESS => 3 | VLR_ULA_E_AUTH_NO_INFO => 4 | VLR_ULA_E_AUTH_FAILURE => 5
  | VLR_ULA_E_CIPH_RES => 6 | VLR_ULA_E_ID_IMSI => 7 | VLR_ULA_E_ID_IMEI => 8
  | VLR_ULA_E_ID_IMEISV => 9 | VLR_ULA_E_HLR_IMEI_ACK => 10 | VLR_ULA_E_HLR_IMEI_NACK => 11
  | VLR_ULA_E_HLR_LU_RES => 12 | VLR_ULA_E_UPD_HLR_COMPL => 13
  | VLR_ULA_E_LU_COMPL_SUCCESS => 14 | VLR_ULA_E_LU_COMPL_FAILURE => 15
  | VLR_ULA_E_NEW_TMSI_ACK => 16
  end.

Inductive upd_hlr_state : Type :=
| UPD_HLR_VLR_S_INIT | UPD_HLR_VLR_S_WAIT_FOR_DATA | UPD_HLR_VLR_S_DONE.

Definition upd_hlr_state_num (s : upd_hlr_state) : Z :=
  match s with
  | UPD_HLR_VLR_S_INIT => 0 | UPD_HLR_VLR_S_WAIT_FOR_DATA => 1 | UPD_HLR_VLR_S_DONE => 2
  end.

Inductive upd_hlr_event : Type :=
| UPD_HLR_VLR_E_START | UPD_HLR_VLR_E_INS_SUB_DATA | UPD_HLR_VLR_E_ACT_TRACE_MODE
| UPD_HLR_VLR_E_FW_CHECK_SS_IND | UPD_HLR_VLR_E_UPD_LOC_ACK | UPD_HLR_VLR_E_UPD_LOC_NACK.

Definition upd_hlr_event_num (e : upd_hlr_event) : Z :=
  match e with
  | UPD_HLR_VLR_E_START => 0 | UPD_HLR_VLR_E_INS_SUB_DATA => 1
  | UPD_HLR_VLR_E_ACT_TRACE_MODE => 2 | UPD_HLR_VLR_E_FW_CHECK_SS_IND => 3
  | UPD_HLR_VLR_E_UPD_LOC_ACK => 4 | UPD_HLR_VLR_E_UPD_LOC_NACK => 5
  end.

Inductive sub_pres_state : Type :=
| SUB_PRES_VLR_S_INIT | SUB_PRES_VLR_S_WAIT_FOR_HLR | SUB_PRES_VLR_S_DONE.

Definition sub_pres_state_num (s : sub_pres_state) : Z :=
  match s with
  | SUB_PRES_VLR_S_INIT => 0 | SUB_PRES_VLR_S_WAIT_FOR_HLR => 1 | SUB_PRES_VLR_S_DONE => 2
  end.

Inductive sub_pres_event : Type :=
| SUB_PRES_VLR_E_START | SUB_PRES_VLR_E_READY_SM_CNF | SUB_PRES_VLR_E_READY_SM_ERR.

Definition sub_pres_event_num (e : sub_pres_event) : Z :=
  match e with
  | SUB_PRES_VLR_E_START => 0 | SUB_PRES_VLR_E_READY_SM_CNF => 1
  | SUB_PRES_VLR_E_READY_SM_ERR => 2
  end.

Inductive lu_compl_state : Type :=
| LU_COMPL_VLR_S_INIT | LU_COMPL_VLR_S_WAIT_SUB_PRES | LU_COMPL_VLR_S_WAIT_IMEI
| LU_COMPL_VLR_S_WAIT_IMEI_TMSI | LU_COMPL_VLR_S_WAIT_TMSI_CNF | LU_COMPL_VLR_S_DONE.

#[export] Instance lu_compl_state_eq_dec : EqDecision lu_compl_state.
Proof. solve_decision. Defined.

Definition lu_compl_state_num (s : lu_compl_state) : Z :=
  match s with
  | LU_COMPL_VLR_S_INIT => 0 | LU_COMPL_VLR_S_WAIT_SUB_PRES => 1
  | LU_COMPL_VLR_S_WAIT_IMEI => 2 | LU_COMPL_VLR_S_WAIT_IMEI_TMSI => 3
  | LU_COMPL_VLR_S_WAIT_TMSI_CNF => 4 | LU_COMPL_VLR_S_DONE => 5
  end.

Inductive lu_compl_event : Type :=
| LU_COMPL_VLR_E_START | LU_COMPL_VLR_E_SUB_PRES_COMPL | LU_COMPL_VLR_E_IMEI_CHECK_ACK
| LU_COMPL_VLR_E_IMEI_CHECK_NACK | LU_COMPL_VLR_E_NEW_TMSI_ACK.

Definition lu_compl_event_num (e : lu_compl_event) : Z :=
  match e with
  | LU_COMPL_VLR_E_START => 0 | LU_COMPL_VLR_E_SUB_PRES_COMPL => 1
  | LU_COMPL_VLR_E_IMEI_CHECK_ACK => 2 | LU_COMPL_VLR_E_IMEI_CHECK_NACK => 3
  | LU_COMPL_VLR_E_NEW_TMSI_ACK => 4
  end.

Inductive arq_state : Type :=
| PR_ARQ_S_INIT | PR_ARQ_S_WAIT_OBTAIN_IMSI | PR_ARQ_S_WAIT_AUTH | PR_ARQ_S_WAIT_CIPH
| PR_ARQ_S_WAIT_UPD_LOC_CHILD | PR_ARQ_S_WAIT_SUB_PRES | PR_ARQ_S_WAIT_TRACE_SUB
| PR_ARQ_S_WAIT_CHECK_IMEI | PR_ARQ_S_WAIT_TMSI_ACK | PR_ARQ_S_WAIT_CECK_CONF
| PR_ARQ_S_DONE.

Definition arq_state_num (s : arq_state) : Z :=
  match s with
  | PR_ARQ_S_INIT => 0 | PR_ARQ_S_WAIT_OBTAIN_IMSI => 1 | PR_ARQ_S_WAIT_AUTH => 2
  | PR_ARQ_S_WAIT_CIPH => 3 | PR_ARQ_S_WAIT_UPD_LOC_CHILD => 4
  | PR_ARQ_S_WAIT_SUB_PRES => 5 | PR_ARQ_S_WAIT_TRACE_SUB => 6
  | PR_ARQ_S_WAIT_CHECK_IMEI => 7 | PR_ARQ_S_WAIT_TMSI_ACK => 8
  | PR_ARQ_S_WAIT_CECK_CONF => 9 | PR_ARQ_S_DONE => 10
  end.

Inductive arq_event : Type :=
| PR_ARQ_E_START | PR_ARQ_E_ID_IMSI | PR_ARQ_E_AUTH_RES | PR_ARQ_E_AUTH_NO_INFO
| PR_ARQ_E_AUTH_FAILURE | PR_ARQ_E_CIPH_RES | PR_ARQ_E_UPD_LOC_RES | PR_ARQ_E_TRACE_RES
| PR_ARQ_E_IMEI_RES | PR_ARQ_E_PRES_RES | PR_ARQ_E_TMSI_ACK.

Definition arq_event_num (e : arq_event) : Z :=
  match e with
  | PR_ARQ_E_START => 0 | PR_ARQ_E_ID_IMSI => 1 | PR_ARQ_E_AUTH_RES => 2
  | PR_ARQ_E_AUTH_NO_INFO => 3 | PR_ARQ_E_AUTH_FAILURE => 4 | PR_ARQ_E_CIPH_RES => 5
  | PR_ARQ_E_UPD_LOC_RES => 6 | PR_ARQ_E_TRACE_RES => 7 | PR_ARQ_E_IMEI_RES => 8
  | PR_ARQ_E_PRES_RES => 9 | PR_ARQ_E_TMSI_ACK => 10
  end.

(** enum sgs_ue_fsm_event *)
Inductive sgs_event : Type :=
| SGS_UE_E_VLR_FAILURE | SGS_UE_E_RX_RESET_FROM_MME | SGS_UE_E_RX_DETACH_IND_FROM_MME
| SGS_UE_E_RX_DETACH_IND_FROM_UE | SGS_UE_E_RX_LU_FROM_A_IU_GS | SGS_UE_E_RX_PAGING_FAILURE
| SGS_UE_E_RX_ALERT_FAILURE | SGS_UE_E_RX_LU_FROM_MME | SGS_UE_E_TX_LU_REJECT
| SGS_UE_E_TX_LU_ACCEPT | SGS_UE_E_TX_PAGING | SGS_UE_E_RX_SGSAP_UE_UNREACHABLE
| SGS_UE_E_RX_TMSI_REALLOC | SGS_UE_E_RX_SERVICE_REQ.

Definition sgs_event_num (e : sgs_event) : Z :=
  match e with
  | SGS_UE_E_VLR_FAILURE => 0 | SGS_UE_E_RX_RESET_FROM_MME => 1
  | SGS_UE_E_RX_DETACH_IND_FROM_MME => 2 | SGS_UE_E_RX_DETACH_IND_FROM_UE => 3
  | SGS_UE_E_RX_LU_FROM_A_IU_GS => 4 | SGS_UE_E_RX_PAGING_FAILURE => 5
  | SGS_UE_E_RX_ALERT_FAILURE => 6 | SGS_UE_E_RX_LU_FROM_MME => 7
  | SGS_UE_E_TX_LU_REJECT => 8 | SGS_UE_E_TX_LU_ACCEPT => 9 | SGS_UE_E_TX_PAGING => 10
  | SGS_UE_E_RX_SGSAP_UE_UNREACHABLE => 11 | SGS_UE_E_RX_TMSI_REALLOC => 12
  | SGS_UE_E_RX_SERVICE_REQ => 13
  end.

(** struct sgs_lu_response, without the subscriber *)
#[projections(primitive)]
Record sgs_lu_response : Type := mk_sgs_resp {
  resp_accepted : bool;
  resp_error : bool;
  resp_cause : Z
}.

(** ** Event data and parent events *)

(** What a [void *data] event argument points to.  [DCause] is a pointer to an
    integer: a reject cause, or the number of the timer that expired. *)
Inductive vdata : Type :=
| DNull
| DCause (c : Z)
| DGsup (g : osmo_gsup_message)
| DImsi (s : string)
| DAuthPar (p : vlr_auth_resp_par)
| DCiph (r : vlr_ciph_result_cause)
| DSgsCause (c : Z).

(** Events that a procedure sends to its parent: another VLR procedure, or the
    msc_a of the connection (a number chosen by the MSC). *)
Inductive vlr_pe : Type :=
| PeLu (e : lu_event)
| PeArq (e : arq_event)
| PeCompl (e : lu_compl_event)
| PeMsc (e : Z).

(** ** Private data of the procedures *)

(** struct auth_fsm_priv *)
#[projections(primitive)]
Record auth_fsm_priv : Type := mk_afp {
  afp_by_imsi : bool;
  afp_is_r99 : bool;
  afp_is_utran : bool;
  afp_auth_requested : bool;
  afp_max_reuse_count : Z;
  afp_event_success : vlr_pe;
  afp_event_no_auth_info : vlr_pe;
  afp_event_failure : vlr_pe
}.

Inductive vlr_parq_type : Type :=
| VLR_PR_ARQ_T_INVALID | VLR_PR_ARQ_T_CM_SERV_REQ | VLR_PR_ARQ_T_PAGING_RESP
| VLR_PR_ARQ_T_CM_RE_ESTABLISH_REQ.

#[export] Instance vlr_parq_type_eq_dec : EqDecision vlr_parq_type.
Proof. solve_decision. Defined.

(** enum osmo_cm_service_type, TS 24.008 10.5.3.3 *)
Inductive cm_service : Type :=
| GSM48_CMSERV_MO_CALL_PACKET | GSM48_CMSERV_EMERGENCY | GSM48_CMSERV_SMS
| GSM48_CMSERV_SUP_SERV | GSM48_CMSERV_VGCS | GSM48_CMSERV_VBS | GSM48_CMSERV_LOC_SERV.

#[export] Instance cm_service_eq_dec : EqDecision cm_service.
Proof. solve_decision. Defined.

(** struct proc_arq_priv; [par_vsub] is [par->vsub != NULL] *)
#[projections(primitive)]
Record proc_arq_priv : Type := mk_par {
  par_vsub : bool;
  par_msc_conn_ref : Z;
  par_ul_child_fsm : fsm_ptr;
  par_sub_pres_vlr_fsm : fsm_ptr;
  par_event_success : Z;
  par_event_failure : Z;
  par_type : vlr_parq_type;
  par_cm_service_type : cm_service;
  par_result : Z;
  par_by_tmsi : bool;
  par_imsi : string;
  par_tmsi : Z;
  par_lai : osmo_location_area_id;
  par_authentication_required : bool;
  par_is_ciphering_to_be_attempted : bool;
  par_is_ciphering_required : bool;
  par_key_seq : Z;
  par_is_r99 : bool;
  par_is_utran : bool;
  par_implicitly_accepted : bool
}.

Inductive vlr_fsm_result : Type :=
| VLR_FSM_RESULT_NONE | VLR_FSM_RESULT_SUCCESS | VLR_FSM_RESULT_FAILURE.

#[export] Instance vlr_fsm_result_eq_dec : EqDecision vlr_fsm_result.
Proof. solve_decision. Defined.

(** struct lu_compl_vlr_priv *)
#[projections(primitive)]
Record lu_compl_vlr_priv : Type := mk_lcvp {
  lcvp_msc_conn_ref : Z;
  lcvp_sub_pres_vlr_fsm : fsm_ptr;
  lcvp_event_success : vlr_pe;
  lcvp_event_failure : vlr_pe;
  lcvp_result : vlr_fsm_result;
  lcvp_cause : Z;
  lcvp_assign_tmsi : bool;
  lcvp_lu_type : vlr_lu_type;
  lcvp_N : Z
}.

(** struct lu_fsm_priv; [lfp_vsub] is [lfp->vsub != NULL] *)
#[projections(primitive)]
Record lu_fsm_priv : Type := mk_lfp {
  lfp_vsub : bool;
  lfp_msc_conn_ref : Z;
  lfp_upd_hlr_vlr_fsm : fsm_ptr;
  lfp_lu_compl_vlr_fsm : fsm_ptr;
  lfp_event_success : Z;
  lfp_event_failure : Z;
  lfp_result : vlr_fsm_result;
  lfp_rej_cause : Z;
  lfp_lu_type : vlr_lu_type;
  lfp_lu_by_tmsi : bool;
  lfp_imsi : string;
  lfp_tmsi : Z;
  lfp_old_lai : osmo_location_area_id;
  lfp_new_lai : osmo_location_area_id;
  lfp_authentication_required : bool;
  lfp_is_ciphering_to_be_attempted : bool;
  lfp_is_ciphering_required : bool;
  lfp_key_seq : Z;
  lfp_is_r99 : bool;
  lfp_is_utran : bool;
  lfp_assign_tmsi : bool;
  lfp_N : Z
}.

(** ** What the procedures do to the outside

    Calls of the [vlr_ops] callbacks, GSUP messages, statistics, use counts,
    events for the parent and for other state machines. *)
Inductive vlr_ctr : Type :=
| VLR_CTR_GSUP_RX_UNKNOWN_IMSI | VLR_CTR_GSUP_RX_PURGE_NO_SUBSCR
| VLR_CTR_GSUP_RX_UL_RES | VLR_CTR_GSUP_RX_UL_ERR | VLR_CTR_GSUP_RX_SAI_RES
| VLR_CTR_GSUP_RX_SAI_ERR | VLR_CTR_GSUP_RX_ISD_REQ | VLR_CTR_GSUP_RX_CANCEL_REQ
| VLR_CTR_GSUP_RX_CHECK_IMEI_RES | VLR_CTR_GSUP_RX_CHECK_IMEI_ERR
| VLR_CTR_GSUP_RX_PURGE_MS_RES | VLR_CTR_GSUP_RX_PURGE_MS_ERR
| VLR_CTR_GSUP_RX_DELETE_DATA_REQ | VLR_CTR_GSUP_RX_UNKNOWN
| VLR_CTR_GSUP_TX_UL_REQ | VLR_CTR_GSUP_TX_SAI_REQ | VLR_CTR_GSUP_TX_CHECK_IMEI_REQ
| VLR_CTR_GSUP_TX_AUTH_FAIL_REP | VLR_CTR_GSUP_TX_PURGE_MS_REQ | VLR_CTR_GSUP_TX_ISD_RES
| VLR_CTR_GSUP_TX_CANCEL_RES | VLR_CTR_GSUP_RX_TUPLES
| VLR_CTR_DETACH_BY_REQ | VLR_CTR_DETACH_BY_CANCEL | VLR_CTR_DETACH_BY_T3212.

Inductive vlr_out : Type :=
| TxAuthReq (at_ : vlr_auth_tuple) (send_autn : bool)
| TxIdReq (t : mi_type)
| TxLuAcc (send_tmsi : Z) (t : vlr_lu_type)
| TxLuRej (cause : Z) (t : vlr_lu_type)
| TxCmServAcc (s : cm_service)
| TxCmServRej (s : cm_service) (cause : Z)
| SetCiphMode (umts_aka retrieve_imeisv : bool)
| TxCommonId
| TxMmInfo
| SubscrUpdate
| SubscrAssoc (conn : Z)
| GsupTx (g : osmo_gsup_message)
| RateCtr (c : vlr_ctr) (n : Z)
| SubscrFree (ptr : Z)
| ToMsc (e : Z)
| ToParent (pe : vlr_pe) (d : vdata)
| FsmEvent (pe : vlr_pe) (d : vdata)   (* libosmocore logs the events it dispatches *)
| OtherLuCancel (cause : Z)
| OtherArqDone (cause : Z)
| SgsUpdateId
| SgsAssocPersist
| SgsAssocForget (i : string)
| TimerSchedule (T : Z)
| SgsTxLuAck (new_tmsi : option Z)
| SgsTxLuRej (cause : Z)
| SgsTxMmInfo
| SgsTxPagingReq (serv_ind : sgsap_service_ind) (lai : option osmo_location_area_id)
| SgsTxServAbort
| RanPaging (r : osmo_rat_type) (c : paging_cause)
| PagingCb (cb : Z) (success : bool)
| PagingSignal (success : bool)
| MscAPutPagingResponse
| GsupErrorReply (g : osmo_gsup_message) (cause : Z)
| OsmoPanic.                  (* OSMO_ASSERT failed *)

(** Return codes of the calls above whose result the code looks at; a result
    may depend on everything sent before (newest first). *)
Class VlrRc : Type := call_rc : list vlr_out -> vlr_out -> Z.

(** ** The subscriber database, as the procedures use it *)
Class VlrDb (DB : Type) : Type := {
  (** vlr->subscribers *)
  db_subscribers : DB -> list vlr_subscr;
  (** the procedures work on a copy of the record; this stores it back *)
  db_commit : vlr_subscr -> DB -> DB;
  (** vlr_subscr_find_by_imsi, vlr_subscr_find_by_tmsi *)
  db_find_by_imsi : DB -> string -> option vlr_subscr;
  db_find_by_tmsi : DB -> Z -> option vlr_subscr;
  (** vlr_subscr_find_or_create_by_imsi, vlr_subscr_find_or_create_by_tmsi *)
  db_find_or_create_by_imsi : DB -> string -> option (vlr_subscr * DB);
  db_find_or_create_by_tmsi : DB -> Z -> option (vlr_subscr * DB);
  (** vlr_subscr_set_imsi: the subscriber with its IMSI set, after an older
      record of the same IMSI was merged into it *)
  db_set_imsi : vlr_subscr -> string -> DB -> vlr_subscr * DB;
  (** vlr_subscr_alloc_tmsi: return code, subscriber, database *)
  db_alloc_tmsi : vlr_subscr -> DB -> Z * vlr_subscr * DB;
  (** vlr_subscr_rehash_tmsi *)
  db_rehash_tmsi : vlr_subscr -> DB -> DB;
  (** the llist_del and hash_del calls of vlr_subscr_free *)
  db_unlink : vlr_subscr -> DB -> DB
}.

(** ** The world of one subscriber and its procedures *)
#[projections(primitive)]
Record world {DB : Type} : Type := mk_world {
  db : DB;
  cfg : vlr_cfg;
  vsub : vlr_subscr;
  w_auth : fsm_inst auth_state vlr_pe;
  afp : auth_fsm_priv;
  w_arq : fsm_inst arq_state vlr_pe;
  par : proc_arq_priv;
  w_lu : fsm_inst lu_state vlr_pe;
  lfp : lu_fsm_priv;
  w_upd : fsm_inst upd_hlr_state vlr_pe;
  w_pres : fsm_inst sub_pres_state vlr_pe;
  w_compl : fsm_inst lu_compl_state vlr_pe;
  lcvp : lu_compl_vlr_priv;
  now : option Z;                   (* osmo_clock_gettime(CLOCK_MONOTONIC), or failure *)
  subscr_lu_complete : Z;           (* vlr->subscr_lu_complete *)
  pag_inflight : Z;                 (* s_sgs_pag_inflight *)
  out : list vlr_out;               (* newest first *)
  out_of_fuel : bool                (* nested dispatching was cut off *)
}.
Arguments world : clear implicits.

Definition emit {DB : Type} (o : vlr_out) (w : world DB) : world DB := w <| out ::= cons o |>.

(** OSMO_ASSERT(false) *)
Definition osmo_panic {DB : Type} (w : world DB) : world DB := emit OsmoPanic w.

(** a call whose return code is looked at *)
Definition call {DB : Type} {R : VlrRc} (o : vlr_out) (w : world DB) : Z * world DB :=
  (call_rc (out w) o, emit o w).

(** The dispatchers of the procedures' instances, for calls between them, and
    the callbacks that the SGs interface registers with the subscriber *)
Record vlr_env {DB : Type} : Type := mk_env {
  lu_dispatch : lu_event -> vdata -> world DB -> world DB;
  arq_dispatch : arq_event -> vdata -> world DB -> world DB;
  compl_dispatch : lu_compl_event -> vdata -> world DB -> world DB;
  upd_dispatch : upd_hlr_event -> vdata -> world DB -> world DB;
  pres_dispatch : sub_pres_event -> vdata -> world DB -> world DB;
  auth_dispatch : auth_event -> vdata -> world DB -> world DB;
  sgs_dispatch : sgs_event -> vdata -> world DB -> world DB;
  (** vsub->sgs.response_cb, paging_cb and mminfo_cb *)
  sgs_response_cb : sgs_lu_response -> world DB -> world DB;
  sgs_paging_cb : sgsap_service_ind -> world DB -> world DB;
  sgs_mminfo_cb : world DB -> world DB
}.
Arguments vlr_env : clear implicits.

(** osmo_fsm_inst_dispatch(fi->proc.parent, ...) *)
Definition parent_event {DB : Type} (e : vlr_env DB) (pe : vlr_pe) (d : vdata) (w : world DB)
  : world DB :=
  match pe with
  | PeLu ev => lu_dispatch e ev d w
  | PeArq ev => arq_dispatch e ev d w
  | PeCompl ev => compl_dispatch e ev d w
  | PeMsc ev => emit (ToMsc ev) w
  end.
