(* ===== verification/VlrSubscr.v ===== *)
(** * Operations of the VLR on one subscriber (src/libvlr/vlr.c)

    Translation of GMM causes to reject causes, identities, requests to the
    HLR, and the start of ciphering. *)

From S2P Require Import Prelude OsmoFsm Gsm VlrTypes.

(** ** GMM cause to reject cause *)

Definition vlr_gmm_cause_to_reject_cause (gmm_cause : Z) : Z :=
  if gmm_cause =? GMM_CAUSE_IMSI_UNKNOWN then GSM48_REJECT_IMSI_UNKNOWN_IN_HLR
  else if gmm_cause =? GMM_CAUSE_ILLEGAL_MS then GSM48_REJECT_ILLEGAL_MS
  else if gmm_cause =? GMM_CAUSE_IMEI_NOT_ACCEPTED then GSM48_REJECT_IMEI_NOT_ACCEPTED
  else if gmm_cause =? GMM_CAUSE_ILLEGAL_ME then GSM48_REJECT_ILLEGAL_ME
  else if gmm_cause =? GMM_CAUSE_GPRS_NOTALLOWED then GSM48_REJECT_GPRS_NOT_ALLOWED
  else if gmm_cause =? GMM_CAUSE_GPRS_OTHER_NOTALLOWED then GSM48_REJECT_SERVICES_NOT_ALLOWED
  else if gmm_cause =? GMM_CAUSE_MS_ID_NOT_DERIVED
    then GSM48_REJECT_MS_IDENTITY_NOT_DERVIVABLE
  else if gmm_cause =? GMM_CAUSE_IMPL_DETACHED then GSM48_REJECT_IMPLICITLY_DETACHED
  else if gmm_cause =? GMM_CAUSE_PLMN_NOTALLOWED then GSM48_REJECT_PLMN_NOT_ALLOWED
  else if gmm_cause =? GMM_CAUSE_LA_NOTALLOWED then GSM48_REJECT_LOC_NOT_ALLOWED
  else if gmm_cause =? GMM_CAUSE_ROAMING_NOTALLOWED then GSM48_REJECT_ROAMING_NOT_ALLOWED
  else if gmm_cause =? GMM_CAUSE_NO_GPRS_PLMN then GSM48_REJECT_GPRS_NOT_ALLOWED_IN_PLMN
  else if gmm_cause =? GMM_CAUSE_MSC_TEMP_NOTREACH then GSM48_REJECT_MSC_TMP_NOT_REACHABLE
  else if gmm_cause =? GMM_CAUSE_SYNC_FAIL then GSM48_REJECT_SYNCH_FAILURE
  else if gmm_cause =? GMM_CAUSE_CONGESTION then GSM48_REJECT_CONGESTION
  else if gmm_cause =? GMM_CAUSE_SEM_INCORR_MSG then GSM48_REJECT_INCORRECT_MESSAGE
  else if gmm_cause =? GMM_CAUSE_INV_MAND_INFO then GSM48_REJECT_INVALID_MANDANTORY_INF
  else if gmm_cause =? GMM_CAUSE_MSGT_NOTEXIST_NOTIMPL
    then GSM48_REJECT_MSG_TYPE_NOT_IMPLEMENTED
  else if gmm_cause =? GMM_CAUSE_MSGT_INCOMP_P_STATE then GSM48_REJECT_MSG_TYPE_NOT_COMPATIBLE
  else if gmm_cause =? GMM_CAUSE_IE_NOTEXIST_NOTIMPL
    then GSM48_REJECT_INF_ELEME_NOT_IMPLEMENTED
  else if gmm_cause =? GMM_CAUSE_COND_IE_ERR then GSM48_REJECT_CONDTIONAL_IE_ERROR
  else if gmm_cause =? GMM_CAUSE_MSG_INCOMP_P_STATE then GSM48_REJECT_MSG_NOT_COMPATIBLE
  else if gmm_cause =? GMM_CAUSE_PROTO_ERR_UNSPEC then GSM48_REJECT_PROTOCOL_ERROR
  else if gmm_cause =? GMM_CAUSE_NO_SUIT_CELL_IN_LA then GSM48_REJECT_NO_SUIT_CELL_IN_LA
  else if gmm_cause =? GMM_CAUSE_MAC_FAIL then GSM48_REJECT_MAC_FAILURE
  else if gmm_cause =? GMM_CAUSE_GSM_AUTH_UNACCEPT then GSM48_REJECT_GSM_AUTH_UNACCEPTABLE
  else if gmm_cause =? GMM_CAUSE_NOT_AUTH_FOR_CSG then GSM48_REJECT_NOT_AUTH_FOR_CSG
  else if gmm_cause =? GMM_CAUSE_SMS_VIA_GPRS_IN_RA then GSM48_REJECT_SMS_PROV_VIA_GPRS_IN_RA
  else if gmm_cause =? GMM_CAUSE_NO_PDP_ACTIVATED then GSM48_REJECT_NO_PDP_CONTEXT_ACTIVATED
  else if gmm_cause =? GMM_CAUSE_NET_FAIL then GSM48_REJECT_NETWORK_FAILURE
  else GSM48_REJECT_NETWORK_FAILURE.

Definition vlr_reject_causes_ps (reject_cause : Z) : Z :=
  if reject_cause =? GSM48_REJECT_CALL_CAN_NOT_BE_IDENTIFIED
  then GSM48_REJECT_NETWORK_FAILURE
  else reject_cause.

Definition vlr_reject_causes_cs (reject_cause : Z) : Z :=
  if (reject_cause =? GSM48_REJECT_NO_SUIT_CELL_IN_LA)
     || (reject_cause =? GSM48_REJECT_MAC_FAILURE)
     || (reject_cause =? GSM48_REJECT_GSM_AUTH_UNACCEPTABLE)
     || (reject_cause =? GSM48_REJECT_NOT_AUTH_FOR_CSG)
     || (reject_cause =? GSM48_REJECT_SMS_PROV_VIA_GPRS_IN_RA)
     || (reject_cause =? GSM48_REJECT_NO_PDP_CONTEXT_ACTIVATED)
  then GSM48_REJECT_NETWORK_FAILURE
  else reject_cause.

Definition vlr_gmm_cause_to_reject_cause_domain (gmm_cause : Z) (is_cs : bool) : Z :=
  let reject_cause := vlr_gmm_cause_to_reject_cause gmm_cause in
  if is_cs then vlr_reject_causes_cs reject_cause else vlr_reject_causes_ps reject_cause.

(** ** Identities *)

Definition vlr_subscr_matches_imsi (v : vlr_subscr) (i : string) : bool :=
  str_nonempty (imsi v) && String.eqb (imsi v) i.

Definition vlr_subscr_matches_tmsi (v : vlr_subscr) (t : Z) : bool :=
  negb (t =? GSM_RESERVED_TMSI) && ((tmsi v =? t) || (tmsi_new v =? t)).

Definition vlr_subscr_matches_msisdn (v : vlr_subscr) (m : string) : bool :=
  str_nonempty (msisdn v) && String.eqb (msisdn v) m.

Definition vlr_subscr_matches_imei (v : vlr_subscr) (i : string) : bool :=
  str_nonempty (imei v) && String.eqb (imei v) i.

Definition vlr_subscr_set_imei (i : string) (v : vlr_subscr) : vlr_subscr :=
  v <| imei := strlcpy (GSM23003_IMEI_NUM_DIGITS_NO_CHK + 1) i |>.

Definition vlr_subscr_set_imeisv (i : string) (v : vlr_subscr) : vlr_subscr :=
  let v := v <| imeisv := strlcpy (GSM23003_IMEISV_NUM_DIGITS + 1) i |> in
  (* Copy IMEISV to IMEI (additional SV digits get cut off) *)
  vlr_subscr_set_imei i v.

(** Decide whether UMTS AKA should be used. *)
Definition vlr_use_umts_aka (v : osmo_auth_vector) (is_r99 : bool) : bool :=
  if negb is_r99 then false
  else if Z.land (v_auth_types v) OSMO_AUTH_TYPE_UMTS =? 0 then false
  else true.

(** ** Requests to the HLR and to the MSC *)

Section requests.
Context {DB : Type} {R : VlrRc} {BC : BcdCodec}.
Implicit Type w : world DB.

Definition domain_of (c : vlr_cfg) : cn_domain :=
  if is_ps c then OSMO_GSUP_CN_DOMAIN_PS else OSMO_GSUP_CN_DOMAIN_CS.

Definition vlr_subscr_tx_gsup_message (g : osmo_gsup_message) (w : world DB) : Z * world DB :=
  let g := if str_empty (g_imsi g)
           then g <| g_imsi := strlcpy (GSM23003_IMSI_MAX_DIGITS + 1) (imsi (vsub w)) |>
           else g in
  call (GsupTx g) w.

Definition vlr_subscr_req_lu (w : world DB) : Z * world DB :=
  let w := emit (RateCtr VLR_CTR_GSUP_TX_UL_REQ 1) w in
  vlr_subscr_tx_gsup_message
    (empty_gsup OSMO_GSUP_MSGT_UPDATE_LOCATION_REQUEST
       <| g_cn_domain := Some (domain_of (cfg w)) |>) w.

Definition vlr_subscr_req_sai (auts auts_rand : option (list Z)) (w : world DB)
  : Z * world DB :=
  let w := emit (RateCtr VLR_CTR_GSUP_TX_SAI_REQ 1) w in
  vlr_subscr_tx_gsup_message
    (empty_gsup OSMO_GSUP_MSGT_SEND_AUTH_INFO_REQUEST
       <| g_auts := auts |> <| g_rand := auts_rand |>
       <| g_cn_domain := Some (domain_of (cfg w)) |>) w.

Definition ENOSPC : Z := 28.

Definition vlr_subscr_tx_req_check_imei (w : world DB) : Z * world DB :=
  match gsm48_encode_bcd_number (imei (vsub w)) with
  | None => (- ENOSPC, w)
  | Some enc =>
      let w := emit (RateCtr VLR_CTR_GSUP_TX_CHECK_IMEI_REQ 1) w in
      call (GsupTx (empty_gsup OSMO_GSUP_MSGT_CHECK_IMEI_REQUEST
                      <| g_imei_enc := enc |>
                      <| g_imsi := strlcpy (GSM23003_IMSI_MAX_DIGITS + 1)
                                           (imsi (vsub w)) |>)) w
  end.

Definition vlr_subscr_tx_auth_fail_rep (w : world DB) : Z * world DB :=
  let w := emit (RateCtr VLR_CTR_GSUP_TX_AUTH_FAIL_REP 1) w in
  call (GsupTx (empty_gsup OSMO_GSUP_MSGT_AUTH_FAIL_REPORT
                  <| g_cn_domain := Some (domain_of (cfg w)) |>
                  <| g_imsi := strlcpy (GSM23003_IMSI_MAX_DIGITS + 1)
                                       (imsi (vsub w)) |>)) w.

Definition vlr_subscr_purge (w : world DB) : Z * world DB :=
  let w := emit (RateCtr VLR_CTR_GSUP_TX_PURGE_MS_REQ 1) w in
  let g := empty_gsup OSMO_GSUP_MSGT_PURGE_MS_REQUEST in
  let g := match hlr (vsub w) with [] => g | h => g <| g_hlr_enc := Some h |> end in
  vlr_subscr_tx_gsup_message (g <| g_cn_domain := Some (domain_of (cfg w)) |>) w.

(** Internal evaluation of requested ciphering mode *)
Definition vlr_set_ciph_mode (sec_ctx : vlr_subscr_security_context)
    (retrieve_imeisv : bool) (w : world DB) : Z * world DB :=
  match sec_ctx with
  | VLR_SEC_CTX_GSM => call (SetCiphMode false retrieve_imeisv) w
  | VLR_SEC_CTX_UMTS => call (SetCiphMode true retrieve_imeisv) w
  | VLR_SEC_CTX_NONE => (0, w)
  end.
End requests.
