(* ===== verification/VlrSample.v ===== *)
(** * A concrete subscriber

    A world with one subscriber and no running procedure, on which the
    theorems about the procedures are instantiated and the definitions run. *)

From S2P Require Import Prelude OsmoFsm Gsm VlrTypes.

Definition idle_inst {St : Type} (s : St) : fsm_inst St vlr_pe :=
  mk_fsm_inst St vlr_pe s 0 true false (PeMsc 0).

Definition sample_cfg : vlr_cfg := {|
  retrieve_imeisv_early := false; retrieve_imeisv_ciphered := false;
  cfg_assign_tmsi := true; check_imei_rqd := false;
  auth_tuple_max_reuse_count := 2; auth_reuse_old_sets_on_error := true;
  parq_retrieve_imsi := false; is_ps := false; T3212_secs := 3600; X3212_secs := 0 |}.

(** a UMTS vector with an 8 octet RES *)
Definition sample_vec : osmo_auth_vector :=
  mk_vec (replicate 16 1) (replicate 16 2) (replicate 16 3) (replicate 16 4)
         (replicate 8 5 ++ replicate 8 0) 8 (replicate 8 6) (replicate 4 7) 3.

Definition sample_vsub : vlr_subscr :=
  new_vsub <| imsi := "262420000000001" |>
           <| auth_tuples := mk_tuple 0 0 sample_vec :: replicate 4 inval_tuple |>.

Definition sample_world {DB : Type} (d : DB) : world DB := {|
  db := d; cfg := sample_cfg; vsub := sample_vsub;
  w_auth := idle_inst VLR_SUB_AS_NEEDS_AUTH;
  afp := mk_afp true true false false 0 (PeMsc 0) (PeMsc 0) (PeMsc 0);
  w_arq := idle_inst PR_ARQ_S_INIT;
  par := {|
    par_vsub := false; par_msc_conn_ref := 0; par_ul_child_fsm := FsmNull;
    par_sub_pres_vlr_fsm := FsmNull; par_event_success := 0; par_event_failure := 0;
    par_type := VLR_PR_ARQ_T_INVALID; par_cm_service_type := GSM48_CMSERV_SMS;
    par_result := 0; par_by_tmsi := false; par_imsi := ""; par_tmsi := GSM_RESERVED_TMSI;
    par_lai := mk_lai (1, 1) 1; par_authentication_required := false;
    par_is_ciphering_to_be_attempted := false; par_is_ciphering_required := false;
    par_key_seq := 7; par_is_r99 := true; par_is_utran := false;
    par_implicitly_accepted := false |};
  w_lu := idle_inst VLR_ULA_S_IDLE;
  lfp := {|
    lfp_vsub := false; lfp_msc_conn_ref := 0; lfp_upd_hlr_vlr_fsm := FsmNull;
    lfp_lu_compl_vlr_fsm := FsmNull; lfp_event_success := 0; lfp_event_failure := 0;
    lfp_result := VLR_FSM_RESULT_NONE; lfp_rej_cause := 0;
    lfp_lu_type := VLR_LU_TYPE_REGULAR; lfp_lu_by_tmsi := false; lfp_imsi := "";
    lfp_tmsi := GSM_RESERVED_TMSI; lfp_old_lai := mk_lai (1, 1) 1;
    lfp_new_lai := mk_lai (1, 1) 2; lfp_authentication_required := false;
    lfp_is_ciphering_to_be_attempted := false; lfp_is_ciphering_required := false;
    lfp_key_seq := 7; lfp_is_r99 := true; lfp_is_utran := false;
    lfp_assign_tmsi := true; lfp_N := 0 |};
  w_upd := idle_inst UPD_HLR_VLR_S_INIT;
  w_pres := idle_inst SUB_PRES_VLR_S_INIT;
  w_compl := idle_inst LU_COMPL_VLR_S_INIT;
  lcvp := {|
    lcvp_msc_conn_ref := 0; lcvp_sub_pres_vlr_fsm := FsmNull; lcvp_event_success := PeMsc 0;
    lcvp_event_failure := PeMsc 0; lcvp_result := VLR_FSM_RESULT_NONE; lcvp_cause := 0;
    lcvp_assign_tmsi := false; lcvp_lu_type := VLR_LU_TYPE_REGULAR; lcvp_N := 0 |};
  now := Some 1000; subscr_lu_complete := 0; pag_inflight := 0;
  out := []; out_of_fuel := false
|}.

(** all calls succeed *)
Definition sample_rc : VlrRc := fun _ _ => 0.
