(* ===== verification/VlrUse.v ===== *)
(** * Lifetime of a subscriber record (src/libvlr/vlr.c, vlr_sgs.c)

    Use counts by token, the release of the record when nobody uses it, the
    "attached" use that goes with a completed Location Updating, the use that
    goes with a running SGs paging, and the expiry time of the record. *)

From S2P Require Import Prelude OsmoFsm Gsm VlrTypes VlrSubscr.

Definition VSUB_USE_ATTACHED : string := "attached".
Definition VSUB_USE_SGS_LU : string := "SGs-lu".
Definition VSUB_USE_SGS_PAGING_REQ : string := "SGs-paging-req".

Definition VLR_SUBSCRIBER_NO_EXPIRATION : Z := 0.
Definition VLR_INCOMPLETE_LU_SECS : Z := 600.

(** ** osmo_use_count *)

Definition vsub_use_count (token : string) (v : vlr_subscr) : Z :=
  default 0 (use_count_of v !! token).

Definition vsub_use_total (v : vlr_subscr) : Z :=
  map_fold (fun _ c total => c + total) 0 (use_count_of v).

Definition vsub_use_add (token : string) (change : Z) (v : vlr_subscr) : vlr_subscr :=
  v <| use_count_of ::= fun m => <[token := vsub_use_count token v + change]> m |>.

(** ** The state table of the SGs-UE FSM (vlr_sgs_fsm.c) *)

Definition sgs_allstate_event_mask : Z :=
  mask_of sgs_event_num
    [SGS_UE_E_RX_RESET_FROM_MME; SGS_UE_E_VLR_FAILURE; SGS_UE_E_RX_DETACH_IND_FROM_MME;
     SGS_UE_E_RX_DETACH_IND_FROM_UE; SGS_UE_E_RX_LU_FROM_A_IU_GS].

Definition sgs_state_event_mask (s : sgs_state) : Z :=
  mask_of sgs_event_num
    match s with
    | SGS_UE_ST_NULL =>
        [SGS_UE_E_RX_LU_FROM_MME; SGS_UE_E_TX_PAGING; SGS_UE_E_RX_PAGING_FAILURE;
         SGS_UE_E_RX_TMSI_REALLOC; SGS_UE_E_RX_SERVICE_REQ]
    | SGS_UE_ST_LA_UPD_PRES =>
        [SGS_UE_E_TX_LU_ACCEPT; SGS_UE_E_TX_LU_REJECT; SGS_UE_E_TX_PAGING;
         SGS_UE_E_RX_PAGING_FAILURE; SGS_UE_E_RX_ALERT_FAILURE; SGS_UE_E_RX_TMSI_REALLOC;
         SGS_UE_E_RX_SERVICE_REQ]
    | SGS_UE_ST_ASSOCIATED =>
        [SGS_UE_E_TX_PAGING; SGS_UE_E_RX_TMSI_REALLOC; SGS_UE_E_RX_SGSAP_UE_UNREACHABLE;
         SGS_UE_E_RX_PAGING_FAILURE; SGS_UE_E_RX_ALERT_FAILURE; SGS_UE_E_RX_LU_FROM_MME;
         SGS_UE_E_RX_SERVICE_REQ]
    end.

Definition sgs_out_state_mask (_ : sgs_state) : Z :=
  mask_of sgs_state_num [SGS_UE_ST_NULL; SGS_UE_ST_LA_UPD_PRES; SGS_UE_ST_ASSOCIATED].

(** struct osmo_fsm sgs_ue_fsm; an event of the allstate mask is accepted in
    every state (and handled by [allstate_action], see [sgs_action]) *)
Definition sgs_ue_fsm {DB : Type} : osmo_fsm (world DB) sgs_state sgs_event vdata unit := {|
  get_fi w := sgs_fsm (vsub w);
  put_fi fi w := w <| vsub ::= fun v => v <| sgs_fsm := fi |> |>;
  st_num := sgs_state_num;
  ev_num := sgs_event_num;
  in_event_mask s := Z.lor sgs_allstate_event_mask (sgs_state_event_mask s);
  out_state_mask := sgs_out_state_mask;
  cleanup _ w := w;
  term_children w := w;
  parent_dispatch _ _ w := w;
  timeout_data := DCause
|}.

Section lifetime.
Context {L : FsmLib} {DB : Type} {VDB : VlrDb DB}.
Implicit Type w : world DB.

(** no state of the SGs-UE FSM has an onenter callback *)
Definition sgs_state_chg (s : sgs_state) (secs T : Z) w : world DB :=
  state_chg sgs_ue_fsm (fun _ _ w => w) s secs T w.

Definition vlr_sgs_fsm_remove w : world DB :=
  osmo_fsm_inst_term sgs_ue_fsm OSMO_FSM_TERM_REGULAR DNull (sgs_state_chg SGS_UE_ST_NULL 0 0 w).

Definition vlr_subscr_set_lu_complete (complete : bool) w : world DB :=
  if Bool.eqb (lu_complete (vsub w)) complete then w
  else
    let w := w <| vsub ::= fun v => v <| lu_complete := complete |> |> in
    if complete then w <| subscr_lu_complete ::= fun n => u32 (n + 1) |>
    else if subscr_lu_complete w =? 0 then w
    else w <| subscr_lu_complete ::= fun n => n - 1 |>.

(** Completely drop the entry from the VLR *)
Definition vlr_subscr_free w : world DB :=
  let w := w <| db ::= db_unlink (vsub w) |> in
  let w := w <| vsub ::= fun v => v <| sgs_Ts5_pending := false |>
                                    <| cs_paging_response_timer := false |> |> in
  let w := vlr_sgs_fsm_remove w in
  let w := if lu_complete (vsub w) then vlr_subscr_set_lu_complete false w else w in
  emit (SubscrFree (vs_ptr (vsub w))) w.

(** the callback of every change of a use count *)
Definition vlr_subscr_use_cb (token : string) w : world DB :=
  if vsub_use_count token (vsub w) <? 0 then w
  else if vsub_use_total (vsub w) <=? 0 then vlr_subscr_free w
  else w.

Definition vlr_subscr_get (token : string) w : world DB :=
  vlr_subscr_use_cb token (w <| vsub ::= vsub_use_add token 1 |>).

Definition vlr_subscr_put (token : string) w : world DB :=
  vlr_subscr_use_cb token (w <| vsub ::= vsub_use_add token (-1) |>).

(** [vlr_subscr_get(vsub, token); ... vlr_subscr_put(vsub, token);] *)
Definition hold (token : string) (f : world DB -> world DB) w : world DB :=
  vlr_subscr_put token (f (vlr_subscr_get token w)).

Definition hold_rc {A : Type} (token : string) (f : world DB -> A * world DB) w : A * world DB :=
  let '(rc, w) := f (vlr_subscr_get token w) in (rc, vlr_subscr_put token w).

(** ** Copies of the record

    A lookup sees what the procedures have done to their subscriber. *)
Definition sync w : world DB := w <| db ::= db_commit (vsub w) |>.

(** [f] on the record [v] found by a lookup, which may be another one than the
    subscriber of the connection *)
Definition on_subscr (v : vlr_subscr) (f : world DB -> world DB) w : world DB :=
  if vs_ptr v =? vs_ptr (vsub w) then f w
  else sync (f (w <| vsub := v |>)) <| vsub := vsub w |>.

Definition vlr_subscr_set_msisdn (m : string) w : world DB :=
  w <| vsub ::= fun v => v <| msisdn := strlcpy (GSM23003_MSISDN_MAX_DIGITS + 1) m |> |>.

Definition vlr_subscr_set_last_used_eutran_plmn_id (p : option (Z * Z)) w : world DB :=
  w <| vsub ::= fun v => v <| sgs_last_eutran_plmn := p |> |>.

(** vlr_subscr_rehash_tmsi(vsub) *)
Definition rehash_tmsi w : world DB := w <| db ::= db_rehash_tmsi (vsub w) |>.

(** ** Attached *)

(** the end of a successful Location Updating, on the RAN and on SGs;
    balanced by [vlr_subscr_expire] *)
Definition attach_use w : world DB :=
  if negb (lu_complete (vsub w)) then
    let w := vlr_subscr_set_lu_complete true w in
    vlr_subscr_get VSUB_USE_ATTACHED w
  else w.

Definition vlr_subscr_expire w : bool * world DB :=
  if lu_complete (vsub w) then
    let w := if str_nonempty (imsi (vsub w)) then emit (SgsAssocForget (imsi (vsub w))) w else w in
    let w := vlr_subscr_set_lu_complete false w in
    (true, vlr_subscr_put VSUB_USE_ATTACHED w)
  else (false, w).

Definition vlr_subscr_enable_expire_lu w : world DB :=
  match now w with
  | Some t => w <| vsub ::= fun v => v <| expire_lu := t + T3212_secs (cfg w) |> |>
  | None => w <| vsub ::= fun v => v <| expire_lu := VLR_SUBSCRIBER_NO_EXPIRATION |> |>
  end.

(** Incomplete rows must not get expire_lu=never *)
Definition vlr_subscr_keep_incomplete_expiry w : world DB :=
  if lu_complete (vsub w) then w
  else
    match now w with
    | Some t => w <| vsub ::= fun v => v <| expire_lu := t + VLR_INCOMPLETE_LU_SECS |> |>
    | None => w
    end.

(** ** SGs uses *)

Definition vlr_sgs_lu_release w : world DB :=
  match use_count_of (vsub w) !! VSUB_USE_SGS_LU with
  | Some c => if 0 <? c then vlr_subscr_put VSUB_USE_SGS_LU w else w
  | None => w
  end.

Definition sgs_pag_inflight_inc w : world DB := w <| pag_inflight ::= fun n => u32 (n + 1) |>.
Definition sgs_pag_inflight_dec w : world DB :=
  if pag_inflight w =? 0 then w else w <| pag_inflight ::= fun n => n - 1 |>.

(** Stop ongoing SGs paging *)
Definition vlr_sgs_pag_stop w : world DB :=
  if negb (sgs_Ts5_pending (vsub w)) then w
  else
    let w := w <| vsub ::= fun v => v <| sgs_Ts5_pending := false |> |> in
    let w := vlr_subscr_put VSUB_USE_SGS_PAGING_REQ w in
    sgs_pag_inflight_dec w.

Definition vlr_sgs_pag_pend w : bool := sgs_Ts5_pending (vsub w).
End lifetime.
