(* ===== verification/VlrAuthTuples.v ===== *)
(** * Authentication tuples and the check of the MS response

    The selection of an authentication tuple and the verification of
    (S)RES in src/libvlr/vlr_auth_fsm.c, and the storage of new tuples in
    src/libvlr/vlr.c. *)

From S2P Require Import Prelude OsmoFsm Gsm VlrTypes VlrSubscr VlrSample.

(** ** Selecting a tuple *)

Definition tuple_valid (t : vlr_auth_tuple) : bool := negb (key_seq t =? VLR_KEY_SEQ_INVAL).

(** vsub->auth_tuples[idx] *)
Definition tuple_at (v : vlr_subscr) (idx : nat) : vlr_auth_tuple :=
  nth idx (auth_tuples v) inval_tuple.

(** The loop of [_vlr_subscr_next_auth_tuple]: [count] more slots to look at,
    [idx] the slot looked at last, [at_] the best tuple so far. *)
Fixpoint next_tuple_loop (v : vlr_subscr) (count : nat) (idx : Z) (at_ : option nat)
  : option nat :=
  match count with
  | O => at_
  | S count' =>
      let idx := (idx + 1) mod Z.of_nat NUM_TUPLES in
      let i := Z.to_nat idx in
      let at_ :=
        if key_seq (tuple_at v i) =? VLR_KEY_SEQ_INVAL then at_
        else match at_ with
             | None => Some i
             | Some a => if use_count (tuple_at v i) <? use_count (tuple_at v a)
                         then Some i else at_
             end in
      next_tuple_loop v count' idx at_
  end.

Definition last_key_seq (v : vlr_subscr) : Z :=
  match last_tuple v with
  | Some i => key_seq (tuple_at v i)
  | None => VLR_KEY_SEQ_INVAL
  end.

(** the slot before the first one the loop looks at *)
Definition next_tuple_start (v : vlr_subscr) : Z :=
  if last_key_seq v =? VLR_KEY_SEQ_INVAL then Z.of_nat NUM_TUPLES - 1 else last_key_seq v.

Definition vlr_subscr_next_auth_tuple (v : vlr_subscr) (max_reuse_count : Z) : option nat :=
  match next_tuple_loop v NUM_TUPLES (next_tuple_start v) None with
  | None => None
  | Some a =>
      if (0 <=? max_reuse_count) && (max_reuse_count <? use_count (tuple_at v a))
      then None else Some a
  end.

(** at->use_count++ *)
Definition tuple_use (i : nat) (v : vlr_subscr) : vlr_subscr :=
  v <| auth_tuples ::= alter (fun t => t <| use_count ::= Z.add 1 |>) i |>.

Definition vlr_subscr_get_auth_tuple (v : vlr_subscr) (max_reuse_count : Z)
  : option (nat * vlr_subscr) :=
  match vlr_subscr_next_auth_tuple v max_reuse_count with
  | None => None
  | Some a => Some (a, tuple_use a v)
  end.

Definition vlr_subscr_has_auth_tuple (v : vlr_subscr) (max_reuse_count : Z) : bool :=
  match vlr_subscr_next_auth_tuple v max_reuse_count with None => false | Some _ => true end.

Definition auth_try_reuse_tuple (c : vlr_cfg) (ks : Z) (v : vlr_subscr) : bool * vlr_subscr :=
  let max_reuse_count := auth_tuple_max_reuse_count c in
  match last_tuple v with
  | None => (false, v)
  | Some a =>
      if (0 <=? max_reuse_count) && (max_reuse_count <? use_count (tuple_at v a))
      then (false, v)
      else if negb (key_seq (tuple_at v a) =? ks) then (false, v)
      else (true, tuple_use a v)
  end.

(** ** Storing the tuples received from the HLR *)

(** The copy loop of [vlr_subscr_update_tuples]; vectors beyond the array are
    skipped.  [i] is the index of the first vector of the list. *)
Fixpoint store_vectors (vecs : list osmo_auth_vector) (i : nat) (ts : list vlr_auth_tuple)
  : list vlr_auth_tuple :=
  match vecs with
  | [] => ts
  | x :: vecs' =>
      let ts := if Nat.leb NUM_TUPLES i then ts
                else alter (fun t => t <| vec := x |> <| key_seq := Z.of_nat i |>) i ts in
      store_vectors vecs' (S i) ts
  end.

Definition vlr_subscr_update_tuples (g : osmo_gsup_message) (v : vlr_subscr) : vlr_subscr :=
  let v := match g_auth_vectors g with
           | [] => v
           | _ => v <| auth_tuples := replicate NUM_TUPLES inval_tuple |>
           end in
  let v := v <| auth_tuples ::= store_vectors (g_auth_vectors g) 0 |> in
  v <| last_tuple := None |>.

(** the number added to VLR_CTR_GSUP_RX_TUPLES *)
Definition got_tuples (g : osmo_gsup_message) : Z :=
  Z.of_nat (Nat.min NUM_TUPLES (length (g_auth_vectors g))).

(** ** Checking the response of the MS *)

(** memcmp(a, b, n) == 0 *)
Definition mem_eq (n : Z) (a b : list Z) : bool :=
  bool_decide (take (Z.to_nat n) a = take (Z.to_nat n) b).

Definition vec_has_umts (x : osmo_auth_vector) : bool :=
  negb (Z.land (v_auth_types x) OSMO_AUTH_TYPE_UMTS =? 0).

(** [check_auth_resp]: whether the response is right, and the subscriber with
    the security context that results; [None]: there is no tuple in use, which
    the code asserts *)
Definition check_auth_resp (v : vlr_subscr) (is_r99 is_utran : bool)
    (res : option (list Z)) (res_len : Z) : option (bool * vlr_subscr) :=
  match last_tuple v with
  | None => None
  | Some at_ =>
      let x := vec (tuple_at v at_) in
      let out_false := (false, v <| sec_ctx := VLR_SEC_CTX_NONE |>) in
      Some
        match res with
        | None => out_false
        | Some r =>
            if res_len =? 0 then out_false
            else
              match (if res_len =? v_res_len x then Some true
                     else if res_len =? SRES_SIZE then Some false else None) with
              | None => out_false
              | Some res_is_umts_aka =>
                  let check_umts := is_r99 && vec_has_umts x && res_is_umts_aka in
                  if is_utran && negb check_umts then out_false
                  else if check_umts then
                    if negb (res_len =? v_res_len x) || negb (mem_eq res_len r (v_res x))
                    then out_false
                    else (true, v <| sec_ctx := VLR_SEC_CTX_UMTS |>)
                  else
                    if negb (res_len =? SRES_SIZE) || negb (mem_eq SRES_SIZE r (v_sres x))
                    then out_false
                    else (true, v <| sec_ctx := VLR_SEC_CTX_GSM |>)
              end
        end
  end.

(** ** Lemmas on the selection loop *)

(** The slot that the loop looks at after [k] others, when it starts behind
    slot [idx] *)
Definition slot (idx : Z) (k : nat) : nat :=
  Z.to_nat ((idx + 1 + Z.of_nat k) mod Z.of_nat NUM_TUPLES).

Definition valid_at (v : vlr_subscr) (i : nat) : Prop := key_seq (tuple_at v i) <> VLR_KEY_SEQ_INVAL.
Definition uses_at (v : vlr_subscr) (i : nat) : Z := use_count (tuple_at v i).

Lemma slot_step idx k : slot ((idx + 1) mod Z.of_nat NUM_TUPLES) k = slot idx (S k).
Proof.
  unfold slot. f_equal. unfold NUM_TUPLES.
  rewrite <-(Z.add_assoc ((idx + 1) mod _)), Z.add_mod_idemp_l by lia.
  f_equal. lia.
Qed.

Lemma slot_0 idx : Z.to_nat ((idx + 1) mod Z.of_nat NUM_TUPLES) = slot idx 0.
Proof. unfold slot. do 2 f_equal. lia. Qed.

Lemma slot_bound idx k : (slot idx k < NUM_TUPLES)%nat.
Proof.
  unfold slot. pose proof (Z.mod_pos_bound (idx + 1 + Z.of_nat k) (Z.of_nat NUM_TUPLES)).
  unfold NUM_TUPLES in *. lia.
Qed.

(** Every slot is looked at within one round. *)
Lemma slot_covers idx i :
  (i < NUM_TUPLES)%nat -> exists k, (k < NUM_TUPLES)%nat /\ slot idx k = i.
Proof.
  intros Hi. unfold NUM_TUPLES in *.
  exists (Z.to_nat ((Z.of_nat i - (idx + 1)) mod 5)).
  pose proof (Z.mod_pos_bound (Z.of_nat i - (idx + 1)) 5 ltac:(lia)) as Hb.
  split; [lia|]. unfold slot. rewrite Z2Nat.id by lia.
  change (Z.of_nat NUM_TUPLES) with 5.
  rewrite Z.add_mod_idemp_r by lia.
  replace (idx + 1 + (Z.of_nat i - (idx + 1))) with (Z.of_nat i) by lia.
  rewrite Z.mod_small by lia. lia.
Qed.

(** [a] is the first of the least used valid tuples among the slots
    [slot idx 0], ..., [slot idx (count - 1)]. *)
Definition first_least_used (v : vlr_subscr) (idx : Z) (count a : nat) : Prop :=
  exists k, (k < count)%nat /\ a = slot idx k /\ valid_at v a
    /\ (forall j, (j < count)%nat -> valid_at v (slot idx j) ->
          uses_at v a <= uses_at v (slot idx j))
    /\ (forall j, (j < k)%nat -> valid_at v (slot idx j) ->
          uses_at v a < uses_at v (slot idx j)).

Definition loop_post (v : vlr_subscr) (count : nat) (idx : Z) (at_ r : option nat) : Prop :=
  match r with
  | None => at_ = None /\ forall k, (k < count)%nat -> ~ valid_at v (slot idx k)
  | Some a =>
      (at_ = Some a /\ forall k, (k < count)%nat -> valid_at v (slot idx k) ->
         uses_at v a <= uses_at v (slot idx k))
      \/ (first_least_used v idx count a
          /\ forall a0, at_ = Some a0 -> uses_at v a < uses_at v a0)
  end.

(** Case analysis on the slot number in a round that has one more slot *)
Ltac slot_cases :=
  let j := fresh "j" in
  let Hj := fresh "Hj" in
  intros [|j] Hj; [ | rewrite <-slot_step; match goal with
    | H : forall _, _ -> _ |- _ => apply H; lia end ].

Lemma first_least_used_S v idx count a :
  (valid_at v (slot idx 0) -> uses_at v a < uses_at v (slot idx 0)) ->
  first_least_used v ((idx + 1) mod Z.of_nat NUM_TUPLES) count a ->
  first_least_used v idx (S count) a.
Proof.
  intros H0 (k & Hk & -> & Hv & Hmin & Hfst).
  exists (S k). rewrite slot_step in *. split_and!; [lia|done|done|slot_cases|slot_cases].
  - intros Hv0. specialize (H0 Hv0). lia.
  - done.
Qed.

(** The slot of the step replaces the candidate *)
Lemma loop_post_take v count idx at_ r :
  valid_at v (slot idx 0) ->
  (forall a0, at_ = Some a0 -> uses_at v (slot idx 0) < uses_at v a0) ->
  loop_post v count ((idx + 1) mod Z.of_nat NUM_TUPLES) (Some (slot idx 0)) r ->
  loop_post v (S count) idx at_ r.
Proof.
  intros Hv0 Hlt Hp. destruct r as [a|]; [|by destruct Hp].
  right. destruct Hp as [[[= <-] Hk]|[Hf Hold]].
  - split; [|done]. exists 0%nat. split_and!; [lia|done|done|slot_cases|].
    + lia.
    + intros j Hj. lia.
  - specialize (Hold _ eq_refl). split; [by apply first_least_used_S|].
    intros a0 Ha0. specialize (Hlt a0 Ha0). lia.
Qed.

(** The slot of the step is passed over *)
Lemma loop_post_skip v count idx at_ r :
  (valid_at v (slot idx 0) ->
     exists a0, at_ = Some a0 /\ uses_at v a0 <= uses_at v (slot idx 0)) ->
  loop_post v count ((idx + 1) mod Z.of_nat NUM_TUPLES) at_ r ->
  loop_post v (S count) idx at_ r.
Proof.
  intros Hskip Hp. destruct r as [a|].
  - destruct Hp as [[-> Hk]|[Hf Hold]]; [left|right]; (split; [try done|]); try done.
    + slot_cases. intros Hv0. destruct (Hskip Hv0) as (? & [= <-] & ?). done.
    + apply first_least_used_S; [|done]. intros Hv0.
      destruct (Hskip Hv0) as (a0 & Ha0 & ?). specialize (Hold a0 Ha0). lia.
  - destruct Hp as [-> Hk]. split; [done|]. slot_cases.
    intros Hv0. destruct (Hskip Hv0) as (? & ? & ?). done.
Qed.

Lemma next_tuple_loop_spec v count idx at_ :
  loop_post v count idx at_ (next_tuple_loop v count idx at_).
Proof.
  revert idx at_. induction count as [|count IH]; intros idx at_.
  - cbn. destruct at_ as [a|]; [left|]; split; try done; intros; lia.
  - cbn [next_tuple_loop]. rewrite slot_0.
    destruct (Z.eqb_spec (key_seq (tuple_at v (slot idx 0))) VLR_KEY_SEQ_INVAL) as [Hi|Hv].
    { apply loop_post_skip; [intros Hc; by destruct (Hc Hi) | apply IH]. }
    destruct at_ as [a0|]; [|apply loop_post_take; [done|done|apply IH]].
    destruct (Z.ltb_spec (use_count (tuple_at v (slot idx 0))) (use_count (tuple_at v a0))).
    + apply loop_post_take; [done| |apply IH]. intros ? [= <-]. done.
    + apply loop_post_skip; [|apply IH]. intros _. by exists a0.
Qed.

(** ** Correctness of the selection *)

Definition next_tuple_post (v : vlr_subscr) (m : Z) (r : option nat) : Prop :=
  match r with
  | Some a =>
      first_least_used v (next_tuple_start v) NUM_TUPLES a
      /\ (a < NUM_TUPLES)%nat /\ valid_at v a
      /\ (forall i, (i < NUM_TUPLES)%nat -> valid_at v i -> uses_at v a <= uses_at v i)
      /\ (0 <= m -> uses_at v a <= m)
  | None =>
      forall i, (i < NUM_TUPLES)%nat -> valid_at v i -> 0 <= m < uses_at v i
  end.

Lemma next_tuple_spec v m : next_tuple_post v m (vlr_subscr_next_auth_tuple v m).
Proof.
  unfold vlr_subscr_next_auth_tuple, next_tuple_post.
  pose proof (next_tuple_loop_spec v NUM_TUPLES (next_tuple_start v) None) as Hp.
  destruct (next_tuple_loop _ _ _ _) as [a|].
  - destruct Hp as [[[=] _]|[Hf _]].
    assert (Hmin : forall i, (i < NUM_TUPLES)%nat -> valid_at v i -> uses_at v a <= uses_at v i).
    { intros i Hi. destruct (slot_covers (next_tuple_start v) i Hi) as (k & Hk & <-).
      destruct Hf as (? & _ & _ & _ & Hm & _). by apply Hm. }
    destruct ((0 <=? m) && (m <? use_count (tuple_at v a))) eqn:Hlim.
    + intros i Hi Hv. specialize (Hmin i Hi Hv). unfold uses_at in *. lia.
    + split_and!; [done| | |done|].
      * destruct Hf as (k & _ & -> & _). apply slot_bound.
      * by destruct Hf as (k & _ & -> & ? & _).
      * intros Hm. unfold uses_at. lia.
  - destruct Hp as [_ Hk]. intros i Hi Hv.
    destruct (slot_covers (next_tuple_start v) i Hi) as (k & Hk' & <-). by destruct (Hk k Hk').
Qed.

(** C34: [_vlr_subscr_next_auth_tuple] returns a valid tuple of lowest use count
    and, among those, the first one after the tuple used last (round robin);
    with [max_reuse_count >= 0] its use count is at most that.  It returns NULL
    only when every valid tuple has been used more often than allowed. *)
Theorem next_auth_tuple_correct v m :
  match vlr_subscr_next_auth_tuple v m with
  | Some a =>
      first_least_used v (next_tuple_start v) NUM_TUPLES a
      /\ (a < NUM_TUPLES)%nat /\ valid_at v a
      /\ (forall i, (i < NUM_TUPLES)%nat -> valid_at v i -> uses_at v a <= uses_at v i)
      /\ (0 <= m -> uses_at v a <= m)
  | None =>
      forall i, (i < NUM_TUPLES)%nat -> valid_at v i -> 0 <= m < uses_at v i
  end.
Proof. exact (next_tuple_spec v m). Qed.

Lemma has_auth_tuple_iff v m :
  vlr_subscr_has_auth_tuple v m = true
  <-> exists i, (i < NUM_TUPLES)%nat /\ valid_at v i /\ (0 <= m -> uses_at v i <= m).
Proof.
  unfold vlr_subscr_has_auth_tuple. pose proof (next_tuple_spec v m) as H.
  destruct (vlr_subscr_next_auth_tuple v m) as [a|]; split; try done.
  - intros _. destruct H as (_ & ? & ? & _ & ?). by exists a.
  - intros (i & Hi & Hv & Hm). specialize (H i Hi Hv). lia.
Qed.

(** The selection looks at the tuples and the last one only. *)
Lemma next_tuple_loop_ext v v' count idx at_ :
  auth_tuples v = auth_tuples v' ->
  next_tuple_loop v count idx at_ = next_tuple_loop v' count idx at_.
Proof.
  intros Ht. revert idx at_. induction count as [|count IH]; intros idx at_; [done|].
  cbn [next_tuple_loop]. unfold tuple_at. by rewrite Ht, IH.
Qed.

Lemma has_auth_tuple_ext v v' m :
  auth_tuples v = auth_tuples v' -> last_tuple v = last_tuple v' ->
  vlr_subscr_has_auth_tuple v m = vlr_subscr_has_auth_tuple v' m.
Proof.
  intros Ht Hl. unfold vlr_subscr_has_auth_tuple, vlr_subscr_next_auth_tuple.
  rewrite (next_tuple_loop_ext v v') by done.
  unfold next_tuple_start, last_key_seq, tuple_at. by rewrite Ht, Hl.
Qed.

(** ** Storing new tuples *)

(** Slot [j] after the copy loop has run over [vecs] from index [i] *)
Lemma store_vectors_lookup vecs : forall i ts j,
  length ts = NUM_TUPLES ->
  store_vectors vecs i ts !! j
  = (if Nat.leb i j then
       match vecs !! (j - i)%nat with
       | Some x => (fun t => t <| vec := x |> <| key_seq := Z.of_nat j |>) <$> ts !! j
       | None => ts !! j
       end
     else ts !! j).
Proof.
  induction vecs as [|x vecs IH]; intros i ts j Hlen; cbn [store_vectors].
  { rewrite lookup_nil. by destruct (Nat.leb i j). }
  rewrite IH by (destruct (Nat.leb NUM_TUPLES i); rewrite ?length_alter; done).
  assert (Hts : forall k, k <> i ->
    (if Nat.leb NUM_TUPLES i then ts
     else alter (fun t => t <| vec := x |> <| key_seq := Z.of_nat i |>) i ts) !! k = ts !! k).
  { intros k Hk. destruct (Nat.leb NUM_TUPLES i); [done|]. by apply list_lookup_alter_ne. }
  destruct (Nat.leb_spec (S i) j) as [Hlt|Hge].
  - rewrite (proj2 (Nat.leb_le i j)) by lia.
    replace (j - i)%nat with (S (j - S i)) by lia. cbn. by rewrite Hts by lia.
  - destruct (Nat.leb_spec i j) as [Hle|Hlt]; [|by rewrite Hts by lia].
    assert (j = i) as -> by lia. rewrite Nat.sub_diag. cbn [lookup list_lookup].
    destruct (Nat.leb_spec NUM_TUPLES i).
    + by rewrite (proj2 (lookup_ge_None ts i)) by lia.
    + by rewrite list_lookup_alter_eq.
Qed.

Lemma store_vectors_length vecs i ts : length (store_vectors vecs i ts) = length ts.
Proof.
  revert i ts. induction vecs as [|x vecs IH]; intros i ts; cbn [store_vectors]; [done|].
  rewrite IH. destruct (Nat.leb NUM_TUPLES i); rewrite ?length_alter; done.
Qed.

Lemma update_tuples_array g v :
  auth_tuples (vlr_subscr_update_tuples g v)
  = store_vectors (g_auth_vectors g) 0
      (match g_auth_vectors g with
       | [] => auth_tuples v
       | _ => replicate NUM_TUPLES inval_tuple
       end).
Proof. destruct v. unfold vlr_subscr_update_tuples. by destruct (g_auth_vectors g). Qed.

(** What a non-empty Send Auth Info result leaves in the array *)
Lemma update_tuples_at g v i :
  g_auth_vectors g <> [] -> (i < NUM_TUPLES)%nat ->
  tuple_at (vlr_subscr_update_tuples g v) i
  = match g_auth_vectors g !! i with
    | Some x => mk_tuple 0 (Z.of_nat i) x
    | None => inval_tuple
    end.
Proof.
  intros Hne Hi. unfold tuple_at. rewrite nth_lookup, update_tuples_array.
  destruct (g_auth_vectors g) as [|x vecs] eqn:Hvecs; [done|].
  rewrite store_vectors_lookup by done. rewrite (proj2 (Nat.leb_le 0 i)), Nat.sub_0_r by lia.
  rewrite lookup_replicate_2 by done. by destruct ((x :: vecs) !! i).
Qed.

Lemma update_tuples_length g v :
  length (auth_tuples v) = NUM_TUPLES ->
  length (auth_tuples (vlr_subscr_update_tuples g v)) = NUM_TUPLES.
Proof.
  intros Hl. rewrite update_tuples_array, store_vectors_length.
  destruct (g_auth_vectors g); [done|]. by rewrite length_replicate.
Qed.

(** After a non-empty result a tuple is available whatever the reuse limit. *)
Lemma update_tuples_available g v m :
  g_auth_vectors g <> [] ->
  vlr_subscr_has_auth_tuple (vlr_subscr_update_tuples g v) m = true.
Proof.
  intros Hne. apply has_auth_tuple_iff. exists 0%nat. unfold valid_at, uses_at.
  rewrite update_tuples_at by (done || (unfold NUM_TUPLES; lia)).
  destruct (g_auth_vectors g) as [|x vecs]; [done|]. cbn. unfold NUM_TUPLES, VLR_KEY_SEQ_INVAL.
  split_and!; lia.
Qed.

Lemma update_tuples_last g v : last_tuple (vlr_subscr_update_tuples g v) = None.
Proof. destruct v. unfold vlr_subscr_update_tuples. by destruct (g_auth_vectors g). Qed.

(** C35: [vlr_subscr_update_tuples] with at least one vector makes slot [i] the
    [i]-th received vector, with key sequence number [i] and unused, and all
    further slots invalid; the tuple used last is forgotten, and a tuple can be
    had at once whatever the configured reuse limit. *)
Theorem update_tuples_correct g v m :
  g_auth_vectors g <> [] ->
  let v' := vlr_subscr_update_tuples g v in
  (forall i, (i < NUM_TUPLES)%nat ->
     tuple_at v' i = match g_auth_vectors g !! i with
                     | Some x => mk_tuple 0 (Z.of_nat i) x
                     | None => inval_tuple
                     end)
  /\ length (auth_tuples v') = NUM_TUPLES
  /\ last_tuple v' = None
  /\ vlr_subscr_has_auth_tuple v' m = true.
Proof.
  intros Hne v'. split_and!.
  - intros i. by apply update_tuples_at.
  - subst v'. rewrite update_tuples_array, store_vectors_length.
    destruct (g_auth_vectors g); [done|]. by rewrite length_replicate.
  - apply update_tuples_last.
  - by apply update_tuples_available.
Qed.

Lemma update_tuples_correct_witness :
  tuple_at (vlr_subscr_update_tuples
              (empty_gsup OSMO_GSUP_MSGT_SEND_AUTH_INFO_RESULT
                 <| g_auth_vectors := [zero_vec; sample_vec] |>) sample_vsub) 1
  = mk_tuple 0 1 sample_vec.
Proof.
  refine (proj1 (update_tuples_correct
           (empty_gsup OSMO_GSUP_MSGT_SEND_AUTH_INFO_RESULT
              <| g_auth_vectors := [zero_vec; sample_vec] |>) sample_vsub 0 _) 1%nat _);
    [discriminate | unfold NUM_TUPLES; lia].
Defined.

(** ** The check of the response *)

Definition used_vec (v : vlr_subscr) : osmo_auth_vector :=
  vec (tuple_at v (default 0%nat (last_tuple v))).

(** The response is the RES of the vector and UMTS AKA is allowed. *)
Definition umts_resp_ok (v : vlr_subscr) (is_r99 : bool) (res : option (list Z)) (res_len : Z)
  : Prop :=
  exists r, res = Some r /\ res_len <> 0 /\ is_r99 = true /\ vec_has_umts (used_vec v) = true
    /\ res_len = v_res_len (used_vec v)
    /\ take (Z.to_nat res_len) r = take (Z.to_nat res_len) (v_res (used_vec v)).

(** The response is the SRES of the vector, on GERAN, and it could not have
    been taken for an UMTS response. *)
Definition gsm_resp_ok (v : vlr_subscr) (is_r99 is_utran : bool) (res : option (list Z))
    (res_len : Z) : Prop :=
  exists r, res = Some r /\ is_utran = false /\ res_len = SRES_SIZE
    /\ ~ (is_r99 = true /\ vec_has_umts (used_vec v) = true
          /\ v_res_len (used_vec v) = SRES_SIZE)
    /\ take (Z.to_nat SRES_SIZE) r = take (Z.to_nat SRES_SIZE) (v_sres (used_vec v)).

Lemma mem_eq_true n a b :
  mem_eq n a b = true <-> take (Z.to_nat n) a = take (Z.to_nat n) b.
Proof. unfold mem_eq. by rewrite bool_decide_eq_true. Qed.

(** Closes a leaf of the case analysis: the verdict is computed, and the
    response is the one or cannot be. *)
Ltac resp_leaf :=
  split; [reflexivity|];
  repeat match goal with H : mem_eq _ _ _ = true |- _ => apply mem_eq_true in H end;
  first
    [ eexists; split_and!; [reflexivity|..]; (done || lia || (intros (?&?&?); lia || done))
    | split; intros (? & [= <-] & ?); destruct_and?; try lia;
      first [ congruence
            | match goal with Hm : mem_eq _ _ _ = false, He : take _ _ = _ |- _ =>
                apply (mem_eq_true _ _ _) in He; congruence end
            | match goal with Hn : ~ _ |- _ => apply Hn; split_and!; (done || lia) end ] ].

Lemma check_auth_resp_cases v is_r99 is_utran res res_len :
  is_Some (last_tuple v) ->
  check_auth_resp v is_r99 is_utran res res_len = Some (true, v <| sec_ctx := VLR_SEC_CTX_UMTS |>)
    /\ umts_resp_ok v is_r99 res res_len
  \/ check_auth_resp v is_r99 is_utran res res_len = Some (true, v <| sec_ctx := VLR_SEC_CTX_GSM |>)
    /\ gsm_resp_ok v is_r99 is_utran res res_len
  \/ check_auth_resp v is_r99 is_utran res res_len = Some (false, v <| sec_ctx := VLR_SEC_CTX_NONE |>)
    /\ ~ umts_resp_ok v is_r99 res res_len /\ ~ gsm_resp_ok v is_r99 is_utran res res_len.
Proof.
  intros [at_ Hat]. assert (Ex : vec (tuple_at v at_) = used_vec v) by (unfold used_vec; by rewrite Hat).
  unfold check_auth_resp, umts_resp_ok, gsm_resp_ok, SRES_SIZE. rewrite Hat, Ex.
  set (x := used_vec v). destruct res as [r|]; [|right; right; resp_leaf].
  destruct (Z.eqb_spec res_len 0) as [->|Hnz]; [right; right; resp_leaf|].
  destruct (Z.eqb_spec res_len (v_res_len x)) as [Hlen|Hlen];
    destruct (Z.eqb_spec res_len 4) as [->|Hn4];
    destruct is_r99, (vec_has_umts x) eqn:Hu, is_utran; cbn -[mem_eq]; unfold SRES_SIZE;
    rewrite ?Z.eqb_refl; cbn -[mem_eq];
    try (destruct (mem_eq _ _ _) eqn:Hm);
    first [ left; resp_leaf | right; left; resp_leaf | right; right; resp_leaf ].
Qed.

Lemma resp_ok_exclusive v is_r99 is_utran res res_len :
  umts_resp_ok v is_r99 res res_len -> gsm_resp_ok v is_r99 is_utran res res_len -> False.
Proof.
  intros (r & -> & _ & H99 & Hu & Hlen & _) (r' & _ & _ & H4 & Hn & _).
  apply Hn. split_and!; [done..|]. lia.
Qed.

(** C33: [check_auth_resp] establishes a UMTS security context exactly when an
    R99 MS answered with the RES of a UMTS vector, a GSM context exactly when
    on GERAN it answered with the SRES (and the length does not make the
    response a UMTS one); in every other case the response is refused and no
    security context remains.  On UTRAN an accepted response is always UMTS
    AKA.  Nothing else of the subscriber changes.  The assertion that a tuple
    is in use fails exactly when none is.  The RES has the length that the
    vector gives it, also when that is below the 32 bit that a comment
    demands. *)
Theorem check_auth_resp_correct v is_r99 is_utran res res_len :
  match check_auth_resp v is_r99 is_utran res res_len with
  | None => last_tuple v = None
  | Some (ok, v') =>
      is_Some (last_tuple v)
      /\ (sec_ctx v' = VLR_SEC_CTX_UMTS <-> umts_resp_ok v is_r99 res res_len)
      /\ (sec_ctx v' = VLR_SEC_CTX_GSM <-> gsm_resp_ok v is_r99 is_utran res res_len)
      /\ (ok = true <-> sec_ctx v' <> VLR_SEC_CTX_NONE)
      /\ (is_utran = true -> ok = true -> sec_ctx v' = VLR_SEC_CTX_UMTS)
      /\ v' = v <| sec_ctx := sec_ctx v' |>
  end.
Proof.
  pose proof (resp_ok_exclusive v is_r99 is_utran res res_len) as Hx.
  destruct (last_tuple v) as [at_|] eqn:Hat; [|unfold check_auth_resp; by rewrite Hat].
  destruct (check_auth_resp_cases v is_r99 is_utran res res_len)
    as [[-> Hok]|[[-> Hok]|(-> & Hnu & Hng)]]; [by rewrite Hat|..];
    (split; [eauto|]); destruct v; cbn in *; split_and!;
    first [ done
          | split; intros; (done || (exfalso; tauto))
          | intros -> _; by destruct Hok as (? & _ & [=] & _) ].
Qed.
