(* ===== verification/VlrAuthFsm.v ===== *)
(** * The authentication procedure (src/libvlr/vlr_auth_fsm.c)

    Authenticate_VLR: obtain tuples from the HLR when none may be reused, send
    the challenge, check the response, resynchronise, ask for the IMSI, and
    report the result to the parent procedure. *)

From S2P Require Import Prelude OsmoFsm Gsm VlrTypes VlrSubscr VlrAuthTuples.

Inductive auth_fsm_result : Type :=
| AUTH_FSM_PASSED | AUTH_FSM_NO_AUTH_INFO | AUTH_FSM_FAILURE.

(** GSM_29002_TIMER_M *)
Definition GSM_29002_TIMER_M : Z := 30.

(** [msc_auth_tdef_states] and [sgsn_auth_tdef_states] *)
Definition auth_fsm_state_tdef (ps : bool) (s : auth_state) : Z :=
  match s with
  | VLR_SUB_AS_WAIT_RESP => if ps then 3360 else 3260
  | VLR_SUB_AS_WAIT_RESP_RESYNC => if ps then 3360 else 3260
  | VLR_SUB_AS_WAIT_ID_IMSI => if ps then 3370 else 3270
  | _ => 0
  end.

(** [.in_event_mask] and [.out_state_mask] of [auth_fsm_states] *)
Definition auth_in_event_mask (s : auth_state) : Z :=
  mask_of auth_event_num
    match s with
    | VLR_SUB_AS_NEEDS_AUTH => [VLR_AUTH_E_START]
    | VLR_SUB_AS_NEEDS_AUTH_WAIT_AI => [VLR_AUTH_E_HLR_SAI_ACK; VLR_AUTH_E_HLR_SAI_NACK]
    | VLR_SUB_AS_WAIT_RESP => [VLR_AUTH_E_MS_AUTH_RESP; VLR_AUTH_E_MS_AUTH_FAIL]
    | VLR_SUB_AS_NEEDS_AUTH_WAIT_SAI_RESYNC =>
        [VLR_AUTH_E_HLR_SAI_ACK; VLR_AUTH_E_HLR_SAI_NACK]
    | VLR_SUB_AS_WAIT_RESP_RESYNC => [VLR_AUTH_E_MS_AUTH_RESP; VLR_AUTH_E_MS_AUTH_FAIL]
    | VLR_SUB_AS_WAIT_ID_IMSI => [VLR_AUTH_E_MS_ID_IMSI]
    | _ => []
    end.

Definition auth_out_state_mask (s : auth_state) : Z :=
  mask_of auth_state_num
    match s with
    | VLR_SUB_AS_NEEDS_AUTH => [VLR_SUB_AS_NEEDS_AUTH_WAIT_AI; VLR_SUB_AS_WAIT_RESP]
    | VLR_SUB_AS_NEEDS_AUTH_WAIT_AI => [VLR_SUB_AS_AUTH_FAILED; VLR_SUB_AS_WAIT_RESP]
    | VLR_SUB_AS_WAIT_RESP =>
        [VLR_SUB_AS_WAIT_ID_IMSI; VLR_SUB_AS_AUTH_FAILED; VLR_SUB_AS_AUTHENTICATED;
         VLR_SUB_AS_NEEDS_AUTH_WAIT_SAI_RESYNC]
    | VLR_SUB_AS_NEEDS_AUTH_WAIT_SAI_RESYNC =>
        [VLR_SUB_AS_AUTH_FAILED; VLR_SUB_AS_WAIT_RESP_RESYNC]
    | VLR_SUB_AS_WAIT_RESP_RESYNC => [VLR_SUB_AS_AUTH_FAILED; VLR_SUB_AS_AUTHENTICATED]
    | VLR_SUB_AS_WAIT_ID_IMSI => [VLR_SUB_AS_NEEDS_AUTH]
    | _ => []
    end.

Section auth.
Context {L : FsmLib} {DB : Type} {R : VlrRc} {BC : BcdCodec}.
Context (env : vlr_env DB).
Implicit Type w : world DB.

(** vsub->auth_fsm = NULL *)
Definition auth_fsm_cleanup (_ : term_cause) w : world DB :=
  w <| vsub ::= fun v => v <| auth_fsm := FsmNull |> |>.

(** struct osmo_fsm vlr_auth_fsm *)
Definition vlr_auth_fsm : osmo_fsm (world DB) auth_state auth_event vdata vlr_pe := {|
  get_fi w := w_auth w;
  put_fi fi w := w <| w_auth := fi |>;
  st_num := auth_state_num;
  ev_num := auth_event_num;
  in_event_mask := auth_in_event_mask;
  out_state_mask := auth_out_state_mask;
  cleanup := auth_fsm_cleanup;
  term_children w := w;
  parent_dispatch := parent_event env;
  timeout_data := DCause
|}.

Definition auth_fsm_onenter_failed (prev_state : auth_state) w : world DB :=
  if afp_auth_requested (afp w)
  then snd (vlr_subscr_tx_auth_fail_rep w)
  else w.

Definition auth_onenter (s prev : auth_state) w : world DB :=
  match s with
  | VLR_SUB_AS_AUTH_FAILED => auth_fsm_onenter_failed prev w
  | _ => w
  end.

Definition auth_state_chg (s : auth_state) (secs T : Z) w : world DB :=
  state_chg vlr_auth_fsm auth_onenter s secs T w.
Definition auth_tdef_chg (s : auth_state) w : world DB :=
  tdef_chg vlr_auth_fsm auth_onenter s (auth_fsm_state_tdef (is_ps (cfg w))) w.

Definition set_auth_term_event (pe : vlr_pe) w : world DB :=
  w <| w_auth ::= fun fi => fi <| fi_parent_term_event := pe |> |>.

(** Terminate the Auth FSM Instance and notify parent *)
Definition auth_fsm_term (result : auth_fsm_result) (cause : Z) w : world DB :=
  let w :=
    match result with
    | AUTH_FSM_PASSED =>
        let w := auth_state_chg VLR_SUB_AS_AUTHENTICATED 0 0 w in
        set_auth_term_event (afp_event_success (afp w)) w
    | AUTH_FSM_NO_AUTH_INFO =>
        let w := auth_state_chg VLR_SUB_AS_AUTH_FAILED 0 0 w in
        set_auth_term_event (afp_event_no_auth_info (afp w)) w
    | AUTH_FSM_FAILURE =>
        let w := auth_state_chg VLR_SUB_AS_AUTH_FAILED 0 0 w in
        set_auth_term_event (afp_event_failure (afp w)) w
    end in
  osmo_fsm_inst_term vlr_auth_fsm OSMO_FSM_TERM_REGULAR (DCause cause) w.

(** back-end function transmitting authentication *)
Definition _vlr_subscr_authenticate w : world DB :=
  match vlr_subscr_get_auth_tuple (vsub w) (afp_max_reuse_count (afp w)) with
  | None => auth_fsm_term AUTH_FSM_FAILURE GSM48_REJECT_NETWORK_FAILURE w
  | Some (a, v) =>
      let at_ := tuple_at v a in
      let use_umts_aka := vlr_use_umts_aka (vec at_) (afp_is_r99 (afp w)) in
      let w := w <| afp ::= fun p => p <| afp_auth_requested := true |> |> in
      let w := w <| vsub := v <| last_tuple := Some a |> |> in
      emit (TxAuthReq at_ use_umts_aka) w
  end.

(** Initial State of TS 23.018 AUT_VLR *)
Definition auth_fsm_needs_auth (event : auth_event) (data : vdata) w : world DB :=
  let w := w <| afp ::= fun p =>
                  p <| afp_max_reuse_count := auth_tuple_max_reuse_count (cfg w) |> |> in
  if negb (vlr_subscr_has_auth_tuple (vsub w) (afp_max_reuse_count (afp w))) then
    let '(_, w) := vlr_subscr_req_sai None None w in
    auth_state_chg VLR_SUB_AS_NEEDS_AUTH_WAIT_AI GSM_29002_TIMER_M 0 w
  else
    let w := auth_tdef_chg VLR_SUB_AS_WAIT_RESP w in
    _vlr_subscr_authenticate w.

Definition data_gsup (data : vdata) : osmo_gsup_message :=
  match data with DGsup g => g | _ => empty_gsup (OSMO_GSUP_MSGT_OTHER 0) end.

Definition is_event (a b : auth_event) : bool := auth_event_num a =? auth_event_num b.

(** The condition that the HLR gave no usable answer, shared by
    [auth_fsm_wait_ai] and [auth_fsm_wait_ai_resync] *)
Definition sai_procedure_error (event : auth_event) (g : osmo_gsup_message) : bool :=
  (is_event event VLR_AUTH_E_HLR_SAI_ACK && Nat.eqb (length (g_auth_vectors g)) 0)
  || (is_event event VLR_AUTH_E_HLR_SAI_NACK && negb (g_cause g =? GMM_CAUSE_IMSI_UNKNOWN))
  || is_event event VLR_AUTH_E_HLR_SAI_ABORT.

(** vlr_subscr_update_tuples(vsub, gsup) *)
Definition update_tuples (g : osmo_gsup_message) w : world DB :=
  let w := w <| vsub ::= vlr_subscr_update_tuples g |> in
  emit (RateCtr VLR_CTR_GSUP_RX_TUPLES (got_tuples g)) w.

(** the label [pass:] of [auth_fsm_wait_ai] *)
Definition auth_wait_ai_pass w : world DB :=
  _vlr_subscr_authenticate (auth_tdef_chg VLR_SUB_AS_WAIT_RESP w).

(** Waiting for Authentication Info from HLR *)
Definition auth_fsm_wait_ai (event : auth_event) (data : vdata) w : world DB :=
  let gsup := data_gsup data in
  if sai_procedure_error event gsup
     && auth_reuse_old_sets_on_error (cfg w) && vlr_subscr_has_auth_tuple (vsub w) (-1)
  then auth_wait_ai_pass (w <| afp ::= fun p => p <| afp_max_reuse_count := -1 |> |>)
  else
    match event with
    | VLR_AUTH_E_HLR_SAI_ACK =>
        if Nat.eqb (length (g_auth_vectors gsup)) 0
        then auth_fsm_term AUTH_FSM_FAILURE GSM48_REJECT_NETWORK_FAILURE w
        else auth_wait_ai_pass (update_tuples gsup w)
    | VLR_AUTH_E_HLR_SAI_NACK =>
        auth_fsm_term AUTH_FSM_NO_AUTH_INFO
          (vlr_gmm_cause_to_reject_cause_domain (g_cause gsup) true) w
    | VLR_AUTH_E_HLR_SAI_ABORT =>
        auth_fsm_term AUTH_FSM_FAILURE
          (vlr_gmm_cause_to_reject_cause_domain (g_cause gsup) true) w
    | _ => w
    end.

Definition data_par (data : vdata) : vlr_auth_resp_par :=
  match data with DAuthPar p => p | _ => mk_auth_par false false None 0 None end.

(** check_auth_resp(vsub, par->is_r99, par->is_utran, par->res, par->res_len);
    the length is an [uint8_t] parameter *)
Definition check_resp (p : vlr_auth_resp_par) w : option (bool * world DB) :=
  match check_auth_resp (vsub w) (p_is_r99 p) (p_is_utran p) (p_res p) (u8 (p_res_len p)) with
  | Some (ok, v) => Some (ok, w <| vsub := v |>)
  | None => None
  end.

(** Waiting for Authentication Response from MS *)
Definition auth_fsm_wait_auth_resp (event : auth_event) (data : vdata) w : world DB :=
  let p := data_par data in
  match event with
  | VLR_AUTH_E_MS_AUTH_RESP =>
      match check_resp p w with
      | None => osmo_panic w
      | Some (rc, w) =>
          if rc then auth_fsm_term AUTH_FSM_PASSED 0 w
          else if negb (afp_by_imsi (afp w)) then
            let w := emit (TxIdReq GSM_MI_TYPE_IMSI) w in
            auth_tdef_chg VLR_SUB_AS_WAIT_ID_IMSI w
          else auth_fsm_term AUTH_FSM_FAILURE GSM48_REJECT_ILLEGAL_MS w
      end
  | VLR_AUTH_E_MS_AUTH_FAIL =>
      match p_auts p with
      | Some auts =>
          (* First failure, start re-sync attempt *)
          let '(_, w) := vlr_subscr_req_sai (Some auts)
                           (Some (v_rand (used_vec (vsub w)))) w in
          auth_state_chg VLR_SUB_AS_NEEDS_AUTH_WAIT_SAI_RESYNC GSM_29002_TIMER_M 0 w
      | None => auth_fsm_term AUTH_FSM_FAILURE GSM48_REJECT_ILLEGAL_MS w
      end
  | _ => w
  end.

(** Waiting for Authentication Info from HLR (resync case).  There is no
    return after the first termination: the switch runs all the same. *)
Definition auth_fsm_wait_ai_resync (event : auth_event) (data : vdata) w : world DB :=
  let gsup := data_gsup data in
  let w := if sai_procedure_error event gsup
           then auth_fsm_term AUTH_FSM_FAILURE GSM48_REJECT_NETWORK_FAILURE w else w in
  match event with
  | VLR_AUTH_E_HLR_SAI_ACK =>
      let w := update_tuples gsup w in
      let w := auth_tdef_chg VLR_SUB_AS_WAIT_RESP_RESYNC w in
      _vlr_subscr_authenticate w
  | VLR_AUTH_E_HLR_SAI_NACK =>
      auth_fsm_term AUTH_FSM_FAILURE
        (if g_cause gsup =? GMM_CAUSE_IMSI_UNKNOWN
         then GSM48_REJECT_IMSI_UNKNOWN_IN_HLR else GSM48_REJECT_NETWORK_FAILURE) w
  | _ => w
  end.

(** Waiting for AUTH RESP from MS (re-sync case) *)
Definition auth_fsm_wait_auth_resp_resync (event : auth_event) (data : vdata) w : world DB :=
  let p := data_par data in
  match event with
  | VLR_AUTH_E_MS_AUTH_RESP =>
      match check_resp p w with
      | None => osmo_panic w
      | Some (rc, w) =>
          if rc then auth_fsm_term AUTH_FSM_PASSED 0 w
          else if negb (afp_by_imsi (afp w)) then
            let w := emit (TxIdReq GSM_MI_TYPE_IMSI) w in
            auth_tdef_chg VLR_SUB_AS_WAIT_ID_IMSI w
          else auth_fsm_term AUTH_FSM_FAILURE GSM48_REJECT_SYNCH_FAILURE w
      end
  | VLR_AUTH_E_MS_AUTH_FAIL =>
      (* Second failure: Result = Fail *)
      auth_fsm_term AUTH_FSM_FAILURE GSM48_REJECT_SYNCH_FAILURE w
  | _ => w
  end.

(** AUT_VLR waiting for Obtain_IMSI_VLR result *)
Definition auth_fsm_wait_imsi (event : auth_event) (data : vdata) w : world DB :=
  match event, data with
  | VLR_AUTH_E_MS_ID_IMSI, DImsi mi_string =>
      let w :=
        if str_nonempty (imsi (vsub w))
           && negb (vlr_subscr_matches_imsi (vsub w) mi_string)
        then w
        else w <| vsub ::= fun v =>
                    v <| imsi := strlcpy (GSM23003_IMSI_MAX_DIGITS + 1) mi_string |> |> in
      (* retry with identity=IMSI *)
      let w := w <| afp ::= fun p => p <| afp_by_imsi := true |> |> in
      let w := auth_state_chg VLR_SUB_AS_NEEDS_AUTH 0 0 w in
      auth_dispatch env VLR_AUTH_E_START DNull w
  | _, _ => w
  end.

(** [.action] of [auth_fsm_states] *)
Definition auth_action (s : auth_state) (event : auth_event) (data : vdata) w : world DB :=
  match s with
  | VLR_SUB_AS_NEEDS_AUTH => auth_fsm_needs_auth event data w
  | VLR_SUB_AS_NEEDS_AUTH_WAIT_AI => auth_fsm_wait_ai event data w
  | VLR_SUB_AS_WAIT_RESP => auth_fsm_wait_auth_resp event data w
  | VLR_SUB_AS_NEEDS_AUTH_WAIT_SAI_RESYNC => auth_fsm_wait_ai_resync event data w
  | VLR_SUB_AS_WAIT_RESP_RESYNC => auth_fsm_wait_auth_resp_resync event data w
  | VLR_SUB_AS_WAIT_ID_IMSI => auth_fsm_wait_imsi event data w
  | _ => w
  end.

(** osmo_fsm_inst_dispatch(vsub->auth_fsm, ...) *)
Definition auth_fsm_dispatch (event : auth_event) (data : vdata) w : world DB :=
  dispatch vlr_auth_fsm auth_action event data w.

(** The timer of the instance has run out; there is no timer_cb. *)
Definition auth_fsm_timeout w : world DB := fsm_timer_expired vlr_auth_fsm None w.

(** MSC->VLR: Start Procedure Authenticate_VLR (TS 23.012 Ch. 4.1.2.2) *)
Definition auth_fsm_start (ev_success ev_no_auth_info ev_failure : vlr_pe)
    (is_r99 is_utran : bool) w : fsm_ptr * world DB :=
  match osmo_fsm_inst_alloc_child VLR_SUB_AS_NEEDS_AUTH ev_failure with
  | None => (FsmNull, parent_event env ev_failure DNull w)
  | Some fi =>
      let w := w <| w_auth := fi |> in
      let w := w <| afp := {|
        afp_by_imsi := str_nonempty (imsi (vsub w));
        afp_is_r99 := is_r99;
        afp_is_utran := is_utran;
        afp_auth_requested := false;
        afp_max_reuse_count := 0;
        afp_event_success := ev_success;
        afp_event_no_auth_info := ev_no_auth_info;
        afp_event_failure := ev_failure |} |> in
      let w := w <| vsub ::= fun v => v <| auth_fsm := FsmThis |> |> in
      (FsmThis, auth_dispatch env VLR_AUTH_E_START DNull w)
  end.
End auth.

(** ** The procedure on its own

    [lone_env n] is the environment in which events for the parent procedure
    are recorded, and the instance may dispatch to itself [n] levels deep. *)

Definition lone_env {L : FsmLib} {DB : Type} {R : VlrRc} : nat -> vlr_env DB :=
  fix go (n : nat) : vlr_env DB := {|
    lu_dispatch e d := emit (ToParent (PeLu e) d);
    arq_dispatch e d := emit (ToParent (PeArq e) d);
    compl_dispatch e d := emit (ToParent (PeCompl e) d);
    upd_dispatch _ _ w := w;
    pres_dispatch _ _ w := w;
    sgs_dispatch _ _ w := w;
    sgs_response_cb _ w := w;
    sgs_paging_cb _ w := w;
    sgs_mminfo_cb w := w;
    auth_dispatch e d w :=
      match n with
      | O => w <| out_of_fuel := true |>
      | S m => auth_fsm_dispatch (go m) e d w
      end
  |}.

(** One level is enough: the instance dispatches VLR_AUTH_E_START to itself
    (on start, and after an Identity Response), which dispatches no more. *)
Definition auth_env {L : FsmLib} {DB : Type} {R : VlrRc} : vlr_env DB := lone_env 1.

(** What can happen to a running instance *)
Inductive auth_input : Type :=
| AuthEvent (e : auth_event) (d : vdata)
| AuthTimeout.

Section lone.
Context {L : FsmLib} {DB : Type} {R : VlrRc}.

Definition auth_step (i : auth_input) (w : world DB) : world DB :=
  match i with
  | AuthEvent e d => auth_fsm_dispatch auth_env e d w
  | AuthTimeout => auth_fsm_timeout auth_env w
  end.

Definition auth_run (is_ : list auth_input) (w : world DB) : world DB :=
  fold_left (fun w i => auth_step i w) is_ w.
End lone.

(** Events for the parent among the outputs *)
Fixpoint parent_events (l : list vlr_out) : list (vlr_pe * vdata) :=
  match l with
  | [] => []
  | ToParent pe d :: l' => (pe, d) :: parent_events l'
  | _ :: l' => parent_events l'
  end.
