(* ===== verification/VlrAuthProofs.v ===== *)
(** * Correctness of the authentication procedure *)

From S2P Require Import Prelude OsmoFsm Gsm VlrTypes VlrSubscr VlrAuthTuples VlrAuthFsm VlrSample.

Definition vlr_parent (pe : vlr_pe) : bool := match pe with PeMsc _ => false | _ => true end.

Section auth_proofs.
Context {L : FsmLib} {LL : FsmLaws L} {DB : Type} {R : VlrRc}.
Implicit Type w : world DB.

Lemma lone_parent_event n pe d w :
  vlr_parent pe = true -> parent_event (lone_env n) pe d w = emit (ToParent pe d) w.
Proof. by destruct pe, n. Qed.

(** *** Sending a challenge *)

Lemma get_auth_tuple_some v m :
  vlr_subscr_has_auth_tuple v m = true ->
  exists a, vlr_subscr_get_auth_tuple v m = Some (a, tuple_use a v)
            /\ vlr_subscr_next_auth_tuple v m = Some a.
Proof.
  unfold vlr_subscr_has_auth_tuple, vlr_subscr_get_auth_tuple.
  destruct (vlr_subscr_next_auth_tuple v m) as [a|]; [|done]. intros _. by exists a.
Qed.

(** With a tuple available the challenge goes out and the tuple is noted. *)
Definition challenged (a : nat) w : world DB :=
  let v := tuple_use a (vsub w) in
  let at_ := tuple_at v a in
  emit (TxAuthReq at_ (vlr_use_umts_aka (vec at_) (afp_is_r99 (afp w))))
    (w <| afp ::= fun p => p <| afp_auth_requested := true |> |>
       <| vsub := v <| last_tuple := Some a |> |>).

Lemma authenticate_available env w :
  vlr_subscr_has_auth_tuple (vsub w) (afp_max_reuse_count (afp w)) = true ->
  exists a, _vlr_subscr_authenticate env w = challenged a w
            /\ vlr_subscr_next_auth_tuple (vsub w) (afp_max_reuse_count (afp w)) = Some a.
Proof.
  intros H. destruct (get_auth_tuple_some _ _ H) as (a & Hg & Hn). exists a.
  unfold _vlr_subscr_authenticate. by rewrite Hg.
Qed.

(** *** Termination *)

(** What [auth_fsm_term] leaves: the instance is terminating in its final
    state, the subscriber forgets it, the parent has the event. *)
Definition auth_terminated (s : auth_state) (pe : vlr_pe) (d : vdata) w : world DB :=
  emit (ToParent pe d)
    (w <| w_auth ::= fun fi => fi <| fi_state := s |> <| fi_T := 0 |>
            <| fi_parent_term_event := pe |> <| fi_terminating := true |> |>
       <| vsub ::= fun v => v <| auth_fsm := FsmNull |> |>).

(** the Auth Failure Report sent on entering VLR_SUB_AS_AUTH_FAILED *)
Definition reported w : world DB :=
  if afp_auth_requested (afp w) then snd (vlr_subscr_tx_auth_fail_rep w) else w.

Definition result_event (r : auth_fsm_result) w : vlr_pe :=
  match r with
  | AUTH_FSM_PASSED => afp_event_success (afp w)
  | AUTH_FSM_NO_AUTH_INFO => afp_event_no_auth_info (afp w)
  | AUTH_FSM_FAILURE => afp_event_failure (afp w)
  end.

Definition result_state (r : auth_fsm_result) : auth_state :=
  match r with AUTH_FSM_PASSED => VLR_SUB_AS_AUTHENTICATED | _ => VLR_SUB_AS_AUTH_FAILED end.

Definition result_report (r : auth_fsm_result) w : world DB :=
  match r with AUTH_FSM_PASSED => w | _ => reported w end.

Lemma auth_fsm_term_alive n r c w :
  fi_terminating (w_auth w) = false ->
  fi_parent (w_auth w) = true ->
  vlr_parent (result_event r w) = true ->
  Z.testbit (auth_out_state_mask (fi_state (w_auth w))) (auth_state_num (result_state r)) = true ->
  auth_fsm_term (lone_env n) r c w
  = auth_terminated (result_state r) (result_event r w) (DCause c) (result_report r w).
Proof.
  destruct w as [? ? v fi p]. destruct fi as [s T tm pa pe], p, v. cbn.
  intros -> -> Hpe Hout. unfold auth_fsm_term, auth_state_chg.
  destruct r; cbn in Hpe, Hout |- *;
    (rewrite state_chg_ok by fsm_side Hout);
    cbn; unfold auth_fsm_onenter_failed, reported; cbn;
    try destruct afp_auth_requested;
    fsm_rw; cbn;
    by rewrite lone_parent_event.
Qed.

(** *** Transitions without side effects *)

Definition moved (s : auth_state) (T : Z) w : world DB :=
  w <| w_auth ::= fun fi => fi <| fi_state := s |> <| fi_T := T |> |>.

Definition may_move w (s : auth_state) : bool :=
  Z.testbit (auth_out_state_mask (fi_state (w_auth w))) (auth_state_num s).

Lemma may_move_from s w s' b :
  fi_state (w_auth w) = s ->
  Z.testbit (auth_out_state_mask s) (auth_state_num s') = b -> may_move w s' = b.
Proof. unfold may_move. by intros ->. Qed.

Lemma auth_chg_allowed env w s :
  fi_terminating (w_auth w) = false -> chg_allowed (vlr_auth_fsm env) w s = may_move w s.
Proof. intros Ha. unfold chg_allowed, fsm_alive. cbn. by rewrite Ha. Qed.

Lemma auth_ev_at env s w e b :
  fi_terminating (w_auth w) = false -> fi_state (w_auth w) = s ->
  Z.testbit (auth_in_event_mask s) (auth_event_num e) = b ->
  ev_allowed (vlr_auth_fsm env) w e = b.
Proof. intros Ha <- <-. unfold ev_allowed, fsm_alive, cur_state. cbn. by rewrite Ha. Qed.

(** an event that the state accepts *)
Lemma auth_dispatch_at env s e d w :
  fi_terminating (w_auth w) = false -> fi_state (w_auth w) = s ->
  Z.testbit (auth_in_event_mask s) (auth_event_num e) = true ->
  auth_fsm_dispatch env e d w = auth_action env s e d w.
Proof.
  intros Ha Hs Hm. unfold auth_fsm_dispatch.
  rewrite dispatch_ok by (done || by eapply auth_ev_at). unfold cur_state. cbn. by rewrite Hs.
Qed.

Lemma auth_chg_moved env s secs T w :
  fi_terminating (w_auth w) = false -> may_move w s = true -> s <> VLR_SUB_AS_AUTH_FAILED ->
  auth_state_chg env s secs T w = moved s T w.
Proof.
  intros Ha Hm Hs. unfold auth_state_chg.
  rewrite state_chg_ok by (done || by rewrite auth_chg_allowed).
  destruct w; by destruct s.
Qed.

Lemma auth_tdef_moved env s w :
  fi_terminating (w_auth w) = false -> may_move w s = true -> s <> VLR_SUB_AS_AUTH_FAILED ->
  auth_tdef_chg env s w = moved s (auth_fsm_state_tdef (is_ps (cfg w)) s) w.
Proof.
  intros Ha Hm Hs. unfold auth_tdef_chg.
  rewrite tdef_chg_ok by (done || by rewrite auth_chg_allowed).
  destruct w; by destruct s.
Qed.

Lemma auth_tdef_stays env s w :
  chg_allowed (vlr_auth_fsm env) w s = false -> auth_tdef_chg env s w = w.
Proof. intros Ha. unfold auth_tdef_chg. by rewrite tdef_chg_no. Qed.

Lemma auth_chg_stays env s secs T w :
  chg_allowed (vlr_auth_fsm env) w s = false -> auth_state_chg env s secs T w = w.
Proof. intros Ha. unfold auth_state_chg. by rewrite state_chg_no. Qed.

(** A terminating instance reacts to nothing. *)
Lemma auth_fsm_term_dead env r c w :
  fi_terminating (w_auth w) = true ->
  auth_fsm_term env r c w = set_auth_term_event (result_event r w) w.
Proof.
  destruct w as [? ? v fi p]. destruct fi. cbn. intros ->.
  unfold auth_fsm_term, auth_state_chg. by destruct r; fsm_rw.
Qed.

Lemma auth_dispatch_dead env e d w :
  fi_terminating (w_auth w) = true -> auth_fsm_dispatch env e d w = w.
Proof.
  intros Hd. unfold auth_fsm_dispatch. apply dispatch_no; [done|].
  unfold ev_allowed, fsm_alive. cbn. by rewrite Hd.
Qed.

Lemma auth_timeout_dead env w :
  fi_terminating (w_auth w) = true -> auth_fsm_timeout env w = w.
Proof.
  intros Hd. unfold auth_fsm_timeout. rewrite timer_without_cb. apply term_again.
  unfold fsm_alive. cbn. by rewrite Hd.
Qed.

(** *** The invariant of a procedure that has been started *)

Definition live_state (s : auth_state) : bool :=
  match s with
  | VLR_SUB_AS_NEEDS_AUTH_WAIT_AI | VLR_SUB_AS_WAIT_RESP
  | VLR_SUB_AS_NEEDS_AUTH_WAIT_SAI_RESYNC | VLR_SUB_AS_WAIT_RESP_RESYNC
  | VLR_SUB_AS_WAIT_ID_IMSI => true
  | _ => false
  end.

(** states in which the code dereferences vsub->last_tuple *)
Definition needs_last_tuple (s : auth_state) : bool :=
  match s with VLR_SUB_AS_WAIT_RESP | VLR_SUB_AS_WAIT_RESP_RESYNC => true | _ => false end.

(** the tuple of the latest Authentication Request *)
Fixpoint last_auth_req (l : list vlr_out) : option vlr_auth_tuple :=
  match l with
  | [] => None
  | TxAuthReq at_ _ :: _ => Some at_
  | _ :: l' => last_auth_req l'
  end.

(** The parent events a procedure is started with: they go to a procedure
    of the VLR, and success can be told from the other two. *)
Record auth_events_ok w : Prop := {
  ev_parent : fi_parent (w_auth w) = true;
  ev_vlr : forall r, vlr_parent (result_event r w) = true;
  ev_not_failure : afp_event_success (afp w) <> afp_event_failure (afp w);
  ev_not_noinfo : afp_event_success (afp w) <> afp_event_no_auth_info (afp w)
}.

(** running: nothing reported yet, and a termination from outside or by
    timeout would report failure *)
Record auth_running w : Prop := {
  run_events : auth_events_ok w;
  run_alive : fi_terminating (w_auth w) = false;
  run_quiet : parent_events (out w) = [];
  run_ptr : auth_fsm (vsub w) = FsmThis;
  run_term : fi_parent_term_event (w_auth w) = afp_event_failure (afp w);
  run_fuel : out_of_fuel w = false
}.

(** resting between two inputs *)
Record auth_waiting w : Prop := {
  wait_running : auth_running w;
  wait_state : live_state (fi_state (w_auth w)) = true;
  wait_tuple : needs_last_tuple (fi_state (w_auth w)) = true ->
    exists a, last_tuple (vsub w) = Some a
              /\ last_auth_req (out w) = Some (tuple_at (vsub w) a)
}.

(** finished: exactly one event was reported, success if and only if the
    instance ended in VLR_SUB_AS_AUTHENTICATED, and then a security context
    is established *)
Record auth_done w : Prop := {
  done_events : auth_events_ok w;
  done_dead : fi_terminating (w_auth w) = true;
  done_ptr : auth_fsm (vsub w) = FsmNull;
  done_once : exists pe d, parent_events (out w) = [(pe, d)]
    /\ (pe = afp_event_success (afp w) <-> fi_state (w_auth w) = VLR_SUB_AS_AUTHENTICATED)
    /\ (pe = afp_event_success (afp w) -> sec_ctx (vsub w) <> VLR_SEC_CTX_NONE);
  done_fuel : out_of_fuel w = false
}.

Definition auth_inv w : Prop := auth_waiting w \/ auth_done w.

(** Changes of a world that neither group of facts looks at. *)
Definition same_report w w' : Prop :=
  w_auth w' = w_auth w
  /\ (forall r, result_event r w' = result_event r w)
  /\ out_of_fuel w' = out_of_fuel w
  /\ parent_events (out w') = parent_events (out w)
  /\ auth_fsm (vsub w') = auth_fsm (vsub w)
  /\ sec_ctx (vsub w') = sec_ctx (vsub w).

Lemma events_ok_same w w' : same_report w w' -> auth_events_ok w -> auth_events_ok w'.
Proof.
  intros (Hfi & Hev & _) [Hp Hv Hf Hn].
  pose proof (Hev AUTH_FSM_PASSED) as E1; pose proof (Hev AUTH_FSM_NO_AUTH_INFO) as E2;
    pose proof (Hev AUTH_FSM_FAILURE) as E3; cbn in E1, E2, E3.
  split; [by rewrite Hfi | intros r; by rewrite Hev | congruence | congruence].
Qed.

Lemma running_same w w' : same_report w w' -> auth_running w -> auth_running w'.
Proof.
  intros Hs [He Ha Hq Hp Ht Hf]. pose proof (events_ok_same _ _ Hs He) as He'.
  destruct Hs as (Hfi & Hev & Hfu & Hpe & Hau & _).
  specialize (Hev AUTH_FSM_FAILURE); cbn in Hev. split; congruence.
Qed.

Lemma done_same w w' : same_report w w' -> auth_done w -> auth_done w'.
Proof.
  intros Hs [He Hd Hp Ho Hf]. pose proof (events_ok_same _ _ Hs He) as He'.
  destruct Hs as (Hfi & Hev & Hfu & Hpe & Hau & Hsec).
  specialize (Hev AUTH_FSM_PASSED); cbn in Hev. split; try congruence.
  by rewrite Hpe, Hev, Hfi, Hsec.
Qed.

(** Running instances that move to a state in which they wait *)
Lemma waiting_moved s T w :
  auth_running w -> live_state s = true -> needs_last_tuple s = false ->
  auth_waiting (moved s T w).
Proof.
  intros [[Hp Hv Hf Hn] Ha Hq Hptr Ht Hfu] Hs Hl.
  destruct w as [? ? v fi p]. destruct fi. cbn in *.
  split; cbn; [|done|by rewrite Hl].
  by split.
Qed.

Lemma waiting_challenged s T a w :
  auth_running w -> live_state s = true -> auth_waiting (challenged a (moved s T w)).
Proof.
  intros [[Hp Hv Hf Hn] Ha Hq Hptr Ht Hfu] Hs.
  destruct w as [? ? v fi p]. destruct fi, v, p. cbn in *.
  split; cbn; [by split|done|]. intros _. by exists a.
Qed.

(** Running instances that terminate *)
Lemma done_terminated r c w :
  auth_running w ->
  (r = AUTH_FSM_PASSED -> sec_ctx (vsub w) <> VLR_SEC_CTX_NONE) ->
  auth_done (auth_terminated (result_state r) (result_event r w) (DCause c)
                             (result_report r w)).
Proof.
  intros [[Hp Hv Hf Hn] Ha Hq Hptr Ht Hfu] Hsec.
  destruct w as [? ? v fi p]. destruct fi, v, p. cbn in *.
  destruct r; cbn in *; unfold reported; cbn; try destruct afp_auth_requested; cbn;
    (split; [by split | done | done | | done]);
    eexists _, _; cbn; rewrite Hq;
    (split; [done|]); (split; [split; [congruence | done] | naive_solver]).
Qed.

(** *** Success *)

Definition success_reported w : Prop :=
  exists d, (afp_event_success (afp w), d) ∈ parent_events (out w).

Lemma waiting_no_success w : auth_waiting w -> ~ success_reported w.
Proof. intros [[? ? Hq] _ _] [d Hd]. rewrite Hq in Hd. by apply elem_of_nil in Hd. Qed.

Lemma done_success w :
  auth_done w -> success_reported w -> fi_state (w_auth w) = VLR_SUB_AS_AUTHENTICATED.
Proof.
  intros [_ _ _ (pe & d & Hq & Hiff & _) _] [d' Hd]. rewrite Hq in Hd.
  apply list_elem_of_singleton in Hd. apply Hiff. by injection Hd.
Qed.

Lemma success_same w w' : same_report w w' -> success_reported w' -> success_reported w.
Proof.
  intros (_ & Hev & _ & Hpe & _) [d Hd]. exists d. specialize (Hev AUTH_FSM_PASSED).
  cbn in Hev. by rewrite <- Hev, <- Hpe.
Qed.

(** finished without success *)
Definition auth_failed w : Prop := auth_done w /\ ~ success_reported w.

Lemma failed_same w w' : same_report w w' -> auth_failed w -> auth_failed w'.
Proof.
  intros Hs [Hd Hn]. split; [by eapply done_same|]. intros H. by apply Hn, (success_same w w').
Qed.

Lemma done_fsm_term n r c w :
  auth_running w -> may_move w (result_state r) = true ->
  (r = AUTH_FSM_PASSED -> sec_ctx (vsub w) <> VLR_SEC_CTX_NONE) ->
  auth_done (auth_fsm_term (lone_env n) r c w).
Proof.
  intros Hr Hm Hsec. pose proof Hr as [[Hp Hv _ _] Ha _ _ _ _].
  rewrite auth_fsm_term_alive by auto. by apply done_terminated.
Qed.

Lemma failed_fsm_term n r c w :
  auth_running w -> may_move w (result_state r) = true -> r <> AUTH_FSM_PASSED ->
  auth_failed (auth_fsm_term (lone_env n) r c w).
Proof.
  intros Hr Hm Hnp.
  assert (Hd : auth_done (auth_fsm_term (lone_env n) r c w)) by by apply done_fsm_term.
  split; [done|]. intros Hs.
  apply (done_success _ Hd) in Hs. destruct Hr as [[Hp Hv _ _] Ha _ _ _ _].
  rewrite auth_fsm_term_alive in Hs by done. by destruct r.
Qed.

(** *** What the single steps leave alone *)

Lemma same_req_sai auts rand w : same_report w (snd (vlr_subscr_req_sai auts rand w)).
Proof. destruct w; by repeat split. Qed.

Lemma same_max_reuse m w :
  same_report w (w <| afp ::= fun p => p <| afp_max_reuse_count := m |> |>).
Proof. destruct w as [? ? ? ? p]; destruct p. repeat split; by intros []. Qed.

Lemma same_update_tuples g w : same_report w (update_tuples g w).
Proof.
  destruct w as [? ? v]; destruct v; unfold update_tuples, vlr_subscr_update_tuples.
  destruct (g_auth_vectors g); by repeat split.
Qed.

Lemma same_challenged a w : same_report w (challenged a w).
Proof. destruct w as [? ? v ? p]; destruct v, p. repeat split; by intros []. Qed.

(** The response answers the vector in use. *)
Definition resp_ok (p : vlr_auth_resp_par) w : Prop :=
  umts_resp_ok (vsub w) (p_is_r99 p) (p_res p) (u8 (p_res_len p))
  \/ gsm_resp_ok (vsub w) (p_is_r99 p) (p_is_utran p) (p_res p) (u8 (p_res_len p)).

(** while a challenge is outstanding there is a tuple in use *)
Lemma waiting_tuple w :
  auth_waiting w -> needs_last_tuple (fi_state (w_auth w)) = true -> is_Some (last_tuple (vsub w)).
Proof. intros Hw Hn. destruct (wait_tuple _ Hw Hn) as (a & -> & _). eauto. Qed.

(** [check_resp] changes nothing but the security context, and passes only
    a good response, with a context *)
Lemma check_resp_running p w :
  auth_running w -> is_Some (last_tuple (vsub w)) ->
  exists ok sc, check_resp p w = Some (ok, w <| vsub ::= fun v => v <| sec_ctx := sc |> |>)
    /\ (ok = true <-> resp_ok p w) /\ (ok = true -> sc <> VLR_SEC_CTX_NONE)
    /\ auth_running (w <| vsub ::= fun v => v <| sec_ctx := sc |> |>).
Proof.
  intros [He Ha Hq Hp Ht Hf] Hlast. unfold check_resp, resp_ok.
  destruct (check_auth_resp_cases (vsub w) (p_is_r99 p) (p_is_utran p) (p_res p)
              (u8 (p_res_len p)) Hlast) as [[-> Hok]|[[-> Hok]|(-> & Hn1 & Hn2)]];
    [exists true, VLR_SEC_CTX_UMTS | exists true, VLR_SEC_CTX_GSM | exists false, VLR_SEC_CTX_NONE];
    (split; [reflexivity|]); (split; [|split; [done|]]);
    [tauto | by destruct He | tauto | by destruct He | split; [done|tauto] | by destruct He].
Qed.

Lemma may_move_same w w' s : same_report w w' -> may_move w' s = may_move w s.
Proof. intros (Hfi & _). unfold may_move. by rewrite Hfi. Qed.

(** *** Going on *)

Lemma goto_waiting env s secs T w :
  auth_running w -> may_move w s = true -> live_state s = true ->
  needs_last_tuple s = false -> auth_waiting (auth_state_chg env s secs T w).
Proof.
  intros Hr Hm Hl Hn. rewrite auth_chg_moved; [|by apply Hr|done|by destruct s].
  by apply waiting_moved.
Qed.

Lemma goto_waiting_tdef env s w :
  auth_running w -> may_move w s = true -> live_state s = true ->
  needs_last_tuple s = false -> auth_waiting (auth_tdef_chg env s w).
Proof.
  intros Hr Hm Hl Hn. rewrite auth_tdef_moved; [|by apply Hr|done|by destruct s].
  by apply waiting_moved.
Qed.

Lemma goto_challenge env s w :
  auth_running w -> may_move w s = true -> live_state s = true ->
  vlr_subscr_has_auth_tuple (vsub w) (afp_max_reuse_count (afp w)) = true ->
  exists a, _vlr_subscr_authenticate env (auth_tdef_chg env s w)
            = challenged a (moved s (auth_fsm_state_tdef (is_ps (cfg w)) s) w)
         /\ vlr_subscr_next_auth_tuple (vsub w) (afp_max_reuse_count (afp w)) = Some a
         /\ auth_waiting (challenged a (moved s (auth_fsm_state_tdef (is_ps (cfg w)) s) w)).
Proof.
  intros Hr Hm Hl Hav. rewrite auth_tdef_moved; [|by apply Hr|done|by destruct s].
  destruct (authenticate_available env
              (moved s (auth_fsm_state_tdef (is_ps (cfg w)) s) w) Hav) as (a & -> & Hn).
  exists a. split_and!; [done..|]. by apply waiting_challenged.
Qed.

(** *** The handlers *)

Lemma needs_auth_waiting env e d w :
  auth_running w -> fi_state (w_auth w) = VLR_SUB_AS_NEEDS_AUTH ->
  auth_waiting (auth_fsm_needs_auth env e d w).
Proof.
  intros Hr Hs. unfold auth_fsm_needs_auth.
  pose proof (same_max_reuse (auth_tuple_max_reuse_count (cfg w)) w) as Hsame.
  pose proof (running_same _ _ Hsame Hr) as Hr1.
  pose proof (fun s => may_move_same _ _ s Hsame) as Hm.
  set (w1 := w <| afp ::= _ |>) in *. clearbody w1.
  destruct (vlr_subscr_has_auth_tuple _ _) eqn:Hav; cbn [negb].
  - destruct (goto_challenge env VLR_SUB_AS_WAIT_RESP w1) as (a & -> & _ & Hw); try done.
    rewrite Hm. by apply (may_move_from _ _ _ _ Hs).
  - rewrite (surjective_pairing (vlr_subscr_req_sai None None w1)).
    apply goto_waiting; [|rewrite (may_move_same _ _ _ (same_req_sai _ _ _)), Hm|done..].
    + by eapply running_same; [apply same_req_sai|].
    + by apply (may_move_from _ _ _ _ Hs).
Qed.

Lemma wait_ai_pass_waiting n w :
  auth_running w -> fi_state (w_auth w) = VLR_SUB_AS_NEEDS_AUTH_WAIT_AI ->
  vlr_subscr_has_auth_tuple (vsub w) (afp_max_reuse_count (afp w)) = true ->
  auth_waiting (auth_wait_ai_pass (lone_env n) w).
Proof.
  intros Hr Hs Hav. unfold auth_wait_ai_pass.
  destruct (goto_challenge (lone_env n) VLR_SUB_AS_WAIT_RESP w) as (a & -> & _ & Hw); try done.
  by apply (may_move_from _ _ _ _ Hs).
Qed.

Lemma wait_ai_inv n e d w :
  auth_waiting w -> fi_state (w_auth w) = VLR_SUB_AS_NEEDS_AUTH_WAIT_AI ->
  auth_waiting (auth_fsm_wait_ai (lone_env n) e d w)
  \/ auth_failed (auth_fsm_wait_ai (lone_env n) e d w).
Proof.
  intros Hw Hs. pose proof (wait_running _ Hw) as Hr. unfold auth_fsm_wait_ai.
  assert (Hterm : forall r c, r <> AUTH_FSM_PASSED -> auth_failed (auth_fsm_term (lone_env n) r c w))
    by (intros r c Hnp; apply failed_fsm_term; [done | apply (may_move_from _ _ _ _ Hs); by destruct r | done]).
  destruct (_ && vlr_subscr_has_auth_tuple (vsub w) (-1)) eqn:Hre.
  - left. apply andb_prop in Hre as [_ Hav]. apply wait_ai_pass_waiting; [|done..].
    eapply running_same; [apply same_max_reuse | done].
  - destruct e; try (by left); try (right; by apply Hterm).
    destruct (g_auth_vectors (data_gsup d)) eqn:Hv; cbn [length Nat.eqb];
      [right; by apply Hterm | left]. apply wait_ai_pass_waiting; [|done|].
    + eapply running_same; [apply same_update_tuples | done].
    + apply update_tuples_available. by rewrite Hv.
Qed.

(** A response with no effect but on the security context leaves the
    instance where it was. *)
Lemma checked_response n w sc s :
  auth_running (w <| vsub ::= fun v => v <| sec_ctx := sc |> |>) ->
  fi_state (w_auth w) = s -> needs_last_tuple s = true ->
  let w1 := w <| vsub ::= fun v => v <| sec_ctx := sc |> |> in
  (sc <> VLR_SEC_CTX_NONE -> auth_done (auth_fsm_term (lone_env n) AUTH_FSM_PASSED 0 w1))
  /\ forall c, auth_failed (auth_fsm_term (lone_env n) AUTH_FSM_FAILURE c w1).
Proof.
  intros Hr Hs Hn w1. split; [intros Hsc; apply done_fsm_term | intros c; apply failed_fsm_term];
    try done; apply (may_move_from _ _ _ _ Hs); by destruct s.
Qed.

Lemma wait_auth_resp_inv n e d w :
  auth_waiting w -> fi_state (w_auth w) = VLR_SUB_AS_WAIT_RESP ->
  auth_waiting (auth_fsm_wait_auth_resp (lone_env n) e d w)
  \/ auth_failed (auth_fsm_wait_auth_resp (lone_env n) e d w)
  \/ auth_done (auth_fsm_wait_auth_resp (lone_env n) e d w)
     /\ e = VLR_AUTH_E_MS_AUTH_RESP /\ resp_ok (data_par d) w.
Proof.
  intros Hw Hs. pose proof (wait_running _ Hw) as Hr. unfold auth_fsm_wait_auth_resp.
  destruct e; try (by left).
  - destruct (check_resp_running (data_par d) w Hr (waiting_tuple w Hw ltac:(by rewrite ?Hs))) as (ok & sc & -> & Hok & Hsc & Hr1).
    destruct (checked_response n w sc _ Hr1 Hs eq_refl) as [Hpass Hfail].
    destruct ok; [right; right; split; [by apply Hpass, Hsc | split; [done | by apply Hok]]|].
    destruct (afp_by_imsi _); cbn [negb]; [right; left; by apply Hfail|].
    left. apply goto_waiting_tdef; [|by apply (may_move_from _ _ _ _ Hs)|done..].
    eapply running_same; [|exact Hr1]. by repeat split.
  - destruct (p_auts (data_par d)) as [auts|].
    + left. rewrite (surjective_pairing (vlr_subscr_req_sai _ _ w)).
      apply goto_waiting; [|by apply (may_move_from _ _ _ _ Hs)|done..].
      by eapply running_same; [apply same_req_sai|].
    + right; left. apply failed_fsm_term; [done | by apply (may_move_from _ _ _ _ Hs) | done].
Qed.

Lemma failed_set_term_event pe w : auth_failed w -> auth_failed (set_auth_term_event pe w).
Proof. intros [[[Hp Hv Hf Hn] Hd Hptr Ho Hfu] Hns]. by repeat split. Qed.

(** Once finished, the rest of a handler can no longer change the result. *)
Lemma failed_authenticate n s w :
  auth_failed w ->
  auth_failed (_vlr_subscr_authenticate (lone_env n) (auth_tdef_chg (lone_env n) s w)).
Proof.
  intros Hd. rewrite auth_tdef_stays
    by (unfold chg_allowed, fsm_alive; cbn; by rewrite (done_dead _ (proj1 Hd))).
  unfold _vlr_subscr_authenticate.
  destruct (vlr_subscr_get_auth_tuple _ _) as [[a v]|] eqn:Hg.
  - unfold vlr_subscr_get_auth_tuple in Hg. destruct (vlr_subscr_next_auth_tuple _ _); [|done].
    injection Hg as -> <-. exact (failed_same _ _ (same_challenged a w) Hd).
  - rewrite auth_fsm_term_dead by apply Hd. by apply failed_set_term_event.
Qed.

Lemma wait_ai_resync_inv n e d w :
  auth_waiting w -> fi_state (w_auth w) = VLR_SUB_AS_NEEDS_AUTH_WAIT_SAI_RESYNC ->
  auth_waiting (auth_fsm_wait_ai_resync (lone_env n) e d w)
  \/ auth_failed (auth_fsm_wait_ai_resync (lone_env n) e d w).
Proof.
  intros Hw Hs. pose proof (wait_running _ Hw) as Hr. unfold auth_fsm_wait_ai_resync.
  assert (Hterm : forall c, auth_failed (auth_fsm_term (lone_env n) AUTH_FSM_FAILURE c w))
    by (intros c; apply failed_fsm_term; [done | by apply (may_move_from _ _ _ _ Hs) | done]).
  destruct (sai_procedure_error e (data_gsup d)) eqn:Herr.
  - right. pose proof (Hterm GSM48_REJECT_NETWORK_FAILURE) as Hd.
    destruct e; try done.
    + apply failed_authenticate. by eapply failed_same; [apply same_update_tuples|].
    + rewrite auth_fsm_term_dead by apply Hd. by apply failed_set_term_event.
  - destruct e; try (by left); [left | right; by apply Hterm].
    unfold sai_procedure_error in Herr. cbn in Herr. rewrite !orb_false_r in Herr.
    pose proof (running_same _ _ (same_update_tuples (data_gsup d) w) Hr) as Hr1.
    destruct (goto_challenge (lone_env n) VLR_SUB_AS_WAIT_RESP_RESYNC
                (update_tuples (data_gsup d) w)) as (a & -> & _ & H); try done.
    + by apply (may_move_from _ _ _ _ Hs).
    + apply update_tuples_available. by destruct (g_auth_vectors _).
Qed.

Lemma wait_auth_resp_resync_inv n e d w :
  auth_waiting w -> fi_state (w_auth w) = VLR_SUB_AS_WAIT_RESP_RESYNC ->
  auth_waiting (auth_fsm_wait_auth_resp_resync (lone_env n) e d w)
  \/ auth_failed (auth_fsm_wait_auth_resp_resync (lone_env n) e d w)
  \/ auth_done (auth_fsm_wait_auth_resp_resync (lone_env n) e d w)
     /\ e = VLR_AUTH_E_MS_AUTH_RESP /\ resp_ok (data_par d) w.
Proof.
  intros Hw Hs. pose proof (wait_running _ Hw) as Hr. unfold auth_fsm_wait_auth_resp_resync.
  destruct e; try (by left).
  - destruct (check_resp_running (data_par d) w Hr (waiting_tuple w Hw ltac:(by rewrite ?Hs))) as (ok & sc & -> & Hok & Hsc & Hr1).
    destruct (checked_response n w sc _ Hr1 Hs eq_refl) as [Hpass Hfail].
    destruct ok; [right; right; split; [by apply Hpass, Hsc | split; [done | by apply Hok]]|].
    destruct (afp_by_imsi _); cbn [negb]; [right; left; by apply Hfail|].
    left. rewrite auth_tdef_stays
      by (rewrite auth_chg_allowed by apply Hr; by apply (may_move_from _ _ _ _ Hs)).
    split; [|apply Hw|apply Hw]. eapply running_same; [|exact Hr1]. by repeat split.
  - right; left. apply failed_fsm_term; [done | by apply (may_move_from _ _ _ _ Hs) | done].
Qed.

Lemma start_waiting n d w :
  auth_running w -> fi_state (w_auth w) = VLR_SUB_AS_NEEDS_AUTH ->
  auth_fsm_dispatch (lone_env n) VLR_AUTH_E_START d w
    = auth_fsm_needs_auth (lone_env n) VLR_AUTH_E_START d w
  /\ auth_waiting (auth_fsm_dispatch (lone_env n) VLR_AUTH_E_START d w).
Proof.
  intros Hr Hs.
  assert (Heq : auth_fsm_dispatch (lone_env n) VLR_AUTH_E_START d w
                = auth_fsm_needs_auth (lone_env n) VLR_AUTH_E_START d w).
  { by rewrite (auth_dispatch_at _ _ _ _ _ (run_alive _ Hr) Hs). }
  split; [done|]. rewrite Heq. by apply needs_auth_waiting.
Qed.

Lemma wait_imsi_waiting n e d w :
  auth_waiting w -> fi_state (w_auth w) = VLR_SUB_AS_WAIT_ID_IMSI ->
  auth_waiting (auth_fsm_wait_imsi (lone_env (S n)) e d w).
Proof.
  intros Hw Hs. pose proof (wait_running _ Hw) as Hr.
  destruct e, d; try done. unfold auth_fsm_wait_imsi.
  match goal with |- context [auth_state_chg _ _ _ _ ?w'] => set (w1 := w') end.
  assert (Hr1 : auth_running w1).
  { eapply running_same; [|exact Hr]. unfold w1.
    destruct (_ && _); repeat split; by intros []. }
  assert (Hs1 : fi_state (w_auth w1) = VLR_SUB_AS_WAIT_ID_IMSI)
    by (unfold w1; by destruct (_ && _)).
  rewrite auth_chg_moved; [|by apply Hr1|by apply (may_move_from _ _ _ _ Hs1)|done].
  apply start_waiting; [|done]. destruct Hr1 as [[Hp Hv Hf Hn] ? ? ? ? ?]. by split.
Qed.

(** *** One input *)

Lemma timeout_failed n w : auth_waiting w -> auth_failed (auth_fsm_timeout (lone_env n) w).
Proof.
  intros [[[Hp Hv Hf Hn] Ha Hq Hptr Ht Hfu] Hl _].
  destruct w as [? ? v fi p]. destruct fi as [s]. cbn in *. subst.
  specialize (Hv AUTH_FSM_FAILURE) as Hvf. cbn in Hvf.
  unfold auth_fsm_timeout. fsm_rw. cbn. rewrite lone_parent_event by done.
  split; [split; cbn; try done|].
  - eexists _, _. split_and!; [cbn; by rewrite Hq | | done].
    split; [congruence|]. by intros ->.
  - intros [d Hd]. cbn in Hd. rewrite Hq in Hd. apply list_elem_of_singleton in Hd. congruence.
Qed.

(** An input leaves a waiting instance waiting, makes it fail, or is a good
    response to the latest challenge and makes it succeed. *)
Lemma dispatch_cases n e d w :
  auth_waiting w ->
  let w' := auth_fsm_dispatch (lone_env (S n)) e d w in
  auth_waiting w' \/ auth_failed w'
  \/ auth_done w' /\ e = VLR_AUTH_E_MS_AUTH_RESP
     /\ needs_last_tuple (fi_state (w_auth w)) = true /\ resp_ok (data_par d) w.
Proof.
  intros Hw w'. subst w'. unfold auth_fsm_dispatch.
  destruct (ev_allowed (vlr_auth_fsm (lone_env (S n))) w e) eqn:Hev.
  - rewrite dispatch_ok by done. unfold cur_state. cbn [get_fi vlr_auth_fsm].
    destruct (fi_state (w_auth w)) eqn:Hs; try (by left); cbn [auth_action].
    + destruct Hw as [_ Hl _]. by rewrite Hs in Hl.
    + destruct (wait_ai_inv (S n) e d w Hw Hs); [by left | by right; left].
    + destruct (wait_auth_resp_inv (S n) e d w Hw Hs) as [|[|(? & ? & ?)]];
        [by left | by right; left | by right; right].
    + destruct (wait_ai_resync_inv (S n) e d w Hw Hs); [by left | by right; left].
    + destruct (wait_auth_resp_resync_inv (S n) e d w Hw Hs) as [|[|(? & ? & ?)]];
        [by left | by right; left | by right; right].
    + left. by apply wait_imsi_waiting.
  - rewrite dispatch_no by done. by left.
Qed.

Lemma auth_step_inv i w : auth_inv w -> auth_inv (auth_step i w).
Proof.
  intros [Hw|Hd]; destruct i as [e d|]; cbn [auth_step].
  - destruct (dispatch_cases 0 e d w Hw) as [|[[]|[]]]; by (left + right).
  - right. by apply timeout_failed.
  - right. by rewrite auth_dispatch_dead by apply Hd.
  - right. by rewrite auth_timeout_dead by apply Hd.
Qed.

Lemma auth_run_inv is_ w : auth_inv w -> auth_inv (auth_run is_ w).
Proof. revert w. induction is_ as [|i is_ IH]; intros w Hw; [done|]. by apply IH, auth_step_inv. Qed.

(** *** Start *)

(** A parent that starts the procedure: the three events are its own, success
    can be told from the others, and nothing was reported before. *)
Record start_ok (ev_success ev_no_auth_info ev_failure : vlr_pe) w : Prop := {
  st_success : vlr_parent ev_success = true;
  st_no_info : vlr_parent ev_no_auth_info = true;
  st_failure : vlr_parent ev_failure = true;
  st_distinct : ev_success <> ev_failure /\ ev_success <> ev_no_auth_info;
  st_quiet : parent_events (out w) = [];
  st_fuel : out_of_fuel w = false
}.

Lemma auth_start_waiting es en ef r99 utran w :
  start_ok es en ef w ->
  (fst (auth_fsm_start auth_env es en ef r99 utran w) = FsmThis
   /\ auth_waiting (snd (auth_fsm_start auth_env es en ef r99 utran w)))
  \/ auth_fsm_start auth_env es en ef r99 utran w = (FsmNull, emit (ToParent ef DNull) w).
Proof.
  intros [Hs Hn Hf [Hd1 Hd2] Hq Hfu]. unfold auth_fsm_start.
  destruct (osmo_fsm_inst_alloc_child VLR_SUB_AS_NEEDS_AUTH ef) as [fi|] eqn:Hal.
  - left. apply alloc_child_init in Hal as ->. split; [done|].
    apply start_waiting; [|done]. split; try done. split; try done. by intros [].
  - right. unfold auth_env. by rewrite lone_parent_event.
Qed.

Lemma auth_run_app is1 is2 w : auth_run (is1 ++ is2) w = auth_run is2 (auth_run is1 w).
Proof. apply fold_left_app. Qed.

Lemma run_done is_ w : auth_done w -> auth_run is_ w = w.
Proof.
  intros Hd. induction is_ as [|i is_ IH]; [done|]. cbn.
  destruct i as [e d|]; cbn [auth_step];
    by rewrite ?auth_dispatch_dead, ?auth_timeout_dead by apply Hd.
Qed.

(** Success is due to one good response, given while waiting for it. *)
Lemma run_success is_ w :
  auth_waiting w -> success_reported (auth_run is_ w) ->
  exists is1 d is2, is_ = is1 ++ AuthEvent VLR_AUTH_E_MS_AUTH_RESP d :: is2
    /\ auth_waiting (auth_run is1 w)
    /\ needs_last_tuple (fi_state (w_auth (auth_run is1 w))) = true
    /\ resp_ok (data_par d) (auth_run is1 w).
Proof.
  revert w. induction is_ as [|i is_ IH]; intros w Hw Hs.
  - by destruct (waiting_no_success w).
  - change (auth_run (i :: is_) w) with (auth_run is_ (auth_step i w)) in Hs.
    assert (Hgo : auth_waiting (auth_step i w) -> exists is1 d is2,
              i :: is_ = is1 ++ AuthEvent VLR_AUTH_E_MS_AUTH_RESP d :: is2
              /\ auth_waiting (auth_run is1 w)
              /\ needs_last_tuple (fi_state (w_auth (auth_run is1 w))) = true
              /\ resp_ok (data_par d) (auth_run is1 w)).
    { intros Hw'. destruct (IH _ Hw' Hs) as (is1 & d & is2 & -> & H). by exists (i :: is1), d, is2. }
    destruct i as [e d|].
    + destruct (dispatch_cases 0 e d w Hw) as [Hw'|[[Hd Hn]|(Hd & -> & Hl & Hok)]].
      * by apply Hgo.
      * cbn in Hs. by rewrite run_done in Hs.
      * by exists [], d, is_.
    + destruct (timeout_failed 1 w Hw) as [Hd Hn]. cbn in Hs. by rewrite run_done in Hs.
Qed.

(** ** The theorems *)

(** C31: started with a working allocator, the authentication procedure is
    after any sequence of events and timeouts either waiting (nothing
    reported to the parent yet, the subscriber points to it, the tuple of the
    outstanding challenge is remembered) or finished: then exactly one event
    was sent to the parent, it is the success event if and only if the
    instance ended in VLR_SUB_AS_AUTHENTICATED with a security context, and
    the subscriber has forgotten the instance.  The dispatch nesting bound is
    never hit.  If the instance cannot be allocated the parent gets the
    failure event at once. *)
Theorem auth_reports_exactly_once es en ef r99 utran is_ w :
  start_ok es en ef w ->
  let '(fi, w1) := auth_fsm_start auth_env es en ef r99 utran w in
  match fi with
  | FsmThis => auth_inv (auth_run is_ w1)
  | _ => w1 = emit (ToParent ef DNull) w
  end.
Proof.
  intros Hst. destruct (auth_start_waiting _ _ _ r99 utran _ Hst) as [[Hf Hw]| ->]; [|done].
  destruct (auth_fsm_start auth_env es en ef r99 utran w) as [fi w1]. cbn in Hf, Hw. subst fi.
  apply auth_run_inv. by left.
Qed.

(** C30: the procedure reports success only after an Authentication Response
    that matches (RES of a UMTS vector for an R99 MS, or SRES on GERAN) the
    vector of the latest Authentication Request that was sent. *)
Theorem auth_success_only_by_good_response es en ef r99 utran is_ w :
  start_ok es en ef w ->
  let '(fi, w1) := auth_fsm_start auth_env es en ef r99 utran w in
  fi = FsmThis -> success_reported (auth_run is_ w1) ->
  exists is1 d is2 at_, is_ = is1 ++ AuthEvent VLR_AUTH_E_MS_AUTH_RESP d :: is2
    /\ let w2 := auth_run is1 w1 in
       last_auth_req (out w2) = Some at_ /\ used_vec (vsub w2) = vec at_
       /\ resp_ok (data_par d) w2.
Proof.
  intros Hst. destruct (auth_start_waiting _ _ _ r99 utran _ Hst) as [[Hf Hw]| ->]; [|done].
  destruct (auth_fsm_start auth_env es en ef r99 utran w) as [fi w1]. cbn in Hf, Hw.
  intros _ Hs. destruct (run_success _ _ Hw Hs) as (is1 & d & is2 & -> & Hw2 & Hn & Hok).
  destruct (wait_tuple _ Hw2 Hn) as (a & Hlast & Hreq).
  exists is1, d, is2, (tuple_at (vsub (auth_run is1 w1)) a). split_and!; try done.
  unfold used_vec. by rewrite Hlast.
Qed.

Lemma term_passed_success n c w :
  auth_running w -> may_move w VLR_SUB_AS_AUTHENTICATED = true ->
  success_reported (auth_fsm_term (lone_env n) AUTH_FSM_PASSED c w).
Proof.
  intros [[Hp Hv _ _] Ha _ _ _ _] Hm. rewrite auth_fsm_term_alive by (done || exact (Hv AUTH_FSM_PASSED)).
  exists (DCause c). cbn. by left.
Qed.

(** C32: while a challenge is outstanding, an Authentication Response makes
    the procedure report success at once if and only if it is correct. *)
Theorem auth_response_decides d w :
  auth_waiting w -> needs_last_tuple (fi_state (w_auth w)) = true ->
  success_reported (auth_step (AuthEvent VLR_AUTH_E_MS_AUTH_RESP d) w)
  <-> resp_ok (data_par d) w.
Proof.
  intros Hw Hn. split.
  - intros Hs. destruct (dispatch_cases 0 VLR_AUTH_E_MS_AUTH_RESP d w Hw)
      as [Hw'|[[_ Hns]|(_ & _ & _ & Hok)]]; [|by destruct Hns|done].
    by destruct (waiting_no_success _ Hw').
  - intros Hok. pose proof (wait_running _ Hw) as Hr. cbn [auth_step].
    rewrite (auth_dispatch_at _ _ _ _ _ (run_alive _ Hr) eq_refl)
      by by destruct (fi_state (w_auth w)).
    destruct (check_resp_running (data_par d) w Hr (waiting_tuple w Hw ltac:(by rewrite ?Hs))) as (ok & sc & Hc & Hiff & _ & Hr1).
    apply Hiff in Hok as ->.
    destruct (fi_state (w_auth w)) eqn:Hs; try done; cbn [auth_action];
      unfold auth_fsm_wait_auth_resp, auth_fsm_wait_auth_resp_resync; rewrite Hc;
      (apply term_passed_success; [done | by apply (may_move_from _ _ _ _ Hs)]).
Qed.

(** C36: VLR_AUTH_E_START either asks the HLR for vectors and waits for them,
    when no stored tuple may be (re)used, or sends the challenge of the
    usable tuple used least and waits for the response. *)
Theorem auth_start_outcome d w :
  auth_running w -> fi_state (w_auth w) = VLR_SUB_AS_NEEDS_AUTH ->
  let m := auth_tuple_max_reuse_count (cfg w) in
  let w' := auth_fsm_dispatch auth_env VLR_AUTH_E_START d w in
  auth_waiting w' /\
  match vlr_subscr_next_auth_tuple (vsub w) m with
  | None => fi_state (w_auth w') = VLR_SUB_AS_NEEDS_AUTH_WAIT_AI
            /\ exists g, out w' = GsupTx g :: RateCtr VLR_CTR_GSUP_TX_SAI_REQ 1 :: out w
                 /\ g_type g = OSMO_GSUP_MSGT_SEND_AUTH_INFO_REQUEST
  | Some a => fi_state (w_auth w') = VLR_SUB_AS_WAIT_RESP
              /\ last_tuple (vsub w') = Some a
              /\ exists aka, out w' = TxAuthReq (tuple_at (vsub w') a) aka :: out w
  end.
Proof.
  intros Hr Hs m w'. destruct (start_waiting 1 d w Hr Hs) as [Heq Hw].
  split; [exact Hw|]. unfold w', auth_env. rewrite Heq. unfold auth_fsm_needs_auth.
  pose proof (same_max_reuse m w) as Hsame. pose proof (running_same _ _ Hsame Hr) as Hr1.
  fold m. set (w1 := w <| afp ::= _ |>) in *.
  destruct (vlr_subscr_has_auth_tuple (vsub w1) (afp_max_reuse_count (afp w1))) eqn:Hav; cbn [negb].
  - destruct (goto_challenge (lone_env 1) VLR_SUB_AS_WAIT_RESP w1) as (a & -> & Hnx & _); try done;
      [by apply (may_move_from _ _ _ _ Hs)|].
    change (vsub w1) with (vsub w) in Hnx. cbn in Hnx. rewrite Hnx.
    cbn. split_and!; [done..|]. by eexists.
  - unfold vlr_subscr_has_auth_tuple in Hav.
    change (vsub w1) with (vsub w) in Hav. cbn in Hav.
    destruct (vlr_subscr_next_auth_tuple (vsub w) m); [done|].
    rewrite (surjective_pairing (vlr_subscr_req_sai None None w1)).
    rewrite auth_chg_moved; [|apply Hr|by apply (may_move_from _ _ _ _ Hs)|done].
    split; [done|]. by eexists.
Qed.

(** when the HLR answers the request for resynchronisation vectors with
    an empty result, the procedure has already reported the failure to its
    parent and terminated, but goes on and sends an Authentication Request
    from an old tuple that may still be reused. *)
Theorem auth_resync_sends_after_termination g w :
  auth_waiting w ->
  fi_state (w_auth w) = VLR_SUB_AS_NEEDS_AUTH_WAIT_SAI_RESYNC ->
  g_auth_vectors g = [] ->
  vlr_subscr_has_auth_tuple (vsub w <| last_tuple := None |>) (afp_max_reuse_count (afp w)) = true ->
  let w' := auth_step (AuthEvent VLR_AUTH_E_HLR_SAI_ACK (DGsup g)) w in
  fi_terminating (w_auth w') = true
  /\ exists at_ aka, out w' = TxAuthReq at_ aka :: RateCtr VLR_CTR_GSUP_RX_TUPLES 0
       :: ToParent (afp_event_failure (afp w)) (DCause GSM48_REJECT_NETWORK_FAILURE)
       :: out (reported w).
Proof.
  intros Hw Hs Hg Hav w'. pose proof (wait_running _ Hw) as Hr.
  unfold w'. cbn [auth_step]. rewrite (auth_dispatch_at _ _ _ _ _ (run_alive _ Hr) Hs) by done.
  cbn [auth_action].
  unfold auth_fsm_wait_ai_resync, sai_procedure_error. cbn [data_gsup]. rewrite Hg.
  cbn [is_event auth_event_num Z.eqb Pos.eqb length Nat.eqb andb orb].
  unfold auth_env. rewrite auth_fsm_term_alive; [|apply Hr|apply Hr|..].
  2:{ apply Hr. }
  2:{ by apply (may_move_from _ _ _ _ Hs). }
  rewrite auth_tdef_stays by done.
  edestruct authenticate_available as (a & -> & _).
  2:{ split; [done|]. eexists _, _. unfold challenged, update_tuples, got_tuples. rewrite Hg.
      reflexivity. }
  unfold update_tuples, vlr_subscr_update_tuples. rewrite Hg.
  unfold auth_terminated, result_report, reported. transitivity (vlr_subscr_has_auth_tuple (vsub w <| last_tuple := None |>)
    (afp_max_reuse_count (afp w))); [|exact Hav].
  destruct (afp_auth_requested (afp w)); by apply has_auth_tuple_ext.
Qed.

(** after a wrong response in the resynchronisation case the IMSI is
    requested, but the transition to VLR_SUB_AS_WAIT_ID_IMSI is not
    permitted: the instance stays where it is and ignores the Identity
    Response that answers the request. *)
Theorem auth_resync_ignores_identity d i w :
  auth_waiting w -> fi_state (w_auth w) = VLR_SUB_AS_WAIT_RESP_RESYNC ->
  afp_by_imsi (afp w) = false -> ~ resp_ok (data_par d) w ->
  let w' := auth_step (AuthEvent VLR_AUTH_E_MS_AUTH_RESP d) w in
  out w' = TxIdReq GSM_MI_TYPE_IMSI :: out w
  /\ fi_state (w_auth w') = VLR_SUB_AS_WAIT_RESP_RESYNC
  /\ auth_step (AuthEvent VLR_AUTH_E_MS_ID_IMSI (DImsi i)) w' = w'.
Proof.
  intros Hw Hs Hby Hbad w'. pose proof (wait_running _ Hw) as Hr.
  destruct (check_resp_running (data_par d) w Hr (waiting_tuple w Hw ltac:(by rewrite ?Hs))) as (ok & sc & Hc & Hiff & _ & _).
  destruct ok; [by destruct Hbad; apply Hiff|].
  assert (Heq : w' = emit (TxIdReq GSM_MI_TYPE_IMSI) (w <| vsub ::= fun v => v <| sec_ctx := sc |> |>)).
  { unfold w'. cbn [auth_step]. rewrite (auth_dispatch_at _ _ _ _ _ (run_alive _ Hr) Hs) by done.
    cbn [auth_action].
    unfold auth_fsm_wait_auth_resp_resync. rewrite Hc.
    change (afp (w <| vsub ::= _ |>)) with (afp w). rewrite Hby. cbn [negb].
    apply auth_tdef_stays. rewrite auth_chg_allowed by apply Hr.
    by apply (may_move_from _ _ _ _ Hs). }
  rewrite Heq. split_and!; [done|done|]. cbn [auth_step]. unfold auth_fsm_dispatch.
  apply dispatch_no; [done|]. by apply (auth_ev_at _ _ _ _ _ (run_alive _ Hr) Hs).
Qed.
End auth_proofs.

(** ** The theorems on a concrete run *)

#[local] Existing Instances ref_lib sample_rc.

Definition sample_start : fsm_ptr * world unit :=
  auth_fsm_start auth_env (PeLu VLR_ULA_E_AUTH_SUCCESS) (PeLu VLR_ULA_E_AUTH_NO_INFO)
    (PeLu VLR_ULA_E_AUTH_FAILURE) true false (sample_world tt).

(** the right response to the challenge of [sample_vec] *)
Definition sample_resp : vdata := DAuthPar (mk_auth_par true false (Some (replicate 8 5)) 8 None).
(** a wrong one, and a resynchronisation request *)
Definition sample_bad_resp : vdata := DAuthPar (mk_auth_par true false (Some (replicate 8 4)) 8 None).
Definition sample_auts : vdata := DAuthPar (mk_auth_par true false None 0 (Some (replicate 14 9))).

Lemma sample_start_ok :
  start_ok (PeLu VLR_ULA_E_AUTH_SUCCESS) (PeLu VLR_ULA_E_AUTH_NO_INFO)
    (PeLu VLR_ULA_E_AUTH_FAILURE) (sample_world tt).
Proof. by split. Qed.

Lemma sample_waiting is_ :
  fi_terminating (w_auth (auth_run is_ (snd sample_start))) = false ->
  auth_waiting (auth_run is_ (snd sample_start)).
Proof.
  intros Ha. assert (auth_inv (auth_run is_ (snd sample_start))) as [|[_ Hd _ _]]; [|done|congruence].
  apply auth_run_inv. left.
  by destruct (auth_start_waiting _ _ _ true false _ sample_start_ok) as [[_ ?]|?].
Qed.

Lemma auth_reports_exactly_once_witness :
  fst sample_start = FsmThis
  /\ auth_inv (auth_run [AuthEvent VLR_AUTH_E_MS_AUTH_RESP sample_resp] (snd sample_start)).
Proof.
  split; [reflexivity|].
  exact (auth_reports_exactly_once _ _ _ true false
           [AuthEvent VLR_AUTH_E_MS_AUTH_RESP sample_resp] _ sample_start_ok).
Defined.

Definition sample_sai (vecs : list osmo_auth_vector) : vdata :=
  DGsup (empty_gsup OSMO_GSUP_MSGT_SEND_AUTH_INFO_RESULT <| g_auth_vectors := vecs |>).

(** a resynchronisation, then the right response *)
Definition sample_resync_run : list auth_input :=
  [AuthEvent VLR_AUTH_E_MS_AUTH_FAIL sample_auts;
   AuthEvent VLR_AUTH_E_HLR_SAI_ACK (sample_sai [sample_vec]);
   AuthEvent VLR_AUTH_E_MS_AUTH_RESP sample_resp].

Lemma auth_success_only_by_good_response_witness :
  exists is1 d is2 at_,
    sample_resync_run = is1 ++ AuthEvent VLR_AUTH_E_MS_AUTH_RESP d :: is2
    /\ let w2 := auth_run is1 (snd sample_start) in
       last_auth_req (out w2) = Some at_ /\ used_vec (vsub w2) = vec at_
       /\ resp_ok (data_par d) w2.
Proof.
  assert (Hs : success_reported (auth_run sample_resync_run (snd sample_start)))
    by (exists (DCause 0); vm_compute; by left).
  exact (auth_success_only_by_good_response _ _ _ true false sample_resync_run _ sample_start_ok
           eq_refl Hs).
Defined.

Lemma auth_response_decides_witness :
  ~ success_reported (auth_step (AuthEvent VLR_AUTH_E_MS_AUTH_RESP sample_bad_resp)
      (snd sample_start)).
Proof.
  intros Hs. apply (auth_response_decides sample_bad_resp (snd sample_start)) in Hs.
  - destruct Hs as [(r & Hr & _ & _ & _ & _ & Heq)|(r & _ & _ & Hl & _)];
      [injection Hr as <-; vm_compute in Heq; discriminate Heq | vm_compute in Hl; discriminate Hl].
  - exact (sample_waiting [] eq_refl).
  - reflexivity.
Defined.

(** just created, before VLR_AUTH_E_START *)
Definition sample_created : world unit :=
  let w := sample_world tt in
  w <| w_auth := mk_fsm_inst _ _ VLR_SUB_AS_NEEDS_AUTH 0 false true (PeLu VLR_ULA_E_AUTH_FAILURE) |>
    <| vsub ::= fun v => v <| auth_fsm := FsmThis |> |>
    <| afp := mk_afp true true false false 0 (PeLu VLR_ULA_E_AUTH_SUCCESS)
                (PeLu VLR_ULA_E_AUTH_NO_INFO) (PeLu VLR_ULA_E_AUTH_FAILURE) |>.

Lemma auth_start_outcome_witness :
  exists aka, out (auth_fsm_dispatch auth_env VLR_AUTH_E_START DNull sample_created)
              = [TxAuthReq (mk_tuple 1 0 sample_vec) aka].
Proof.
  assert (Hr : auth_running sample_created)
    by (split; try reflexivity; split; [reflexivity | intros []; reflexivity | discriminate..]).
  destruct (auth_start_outcome DNull sample_created Hr eq_refl) as (_ & _ & _ & aka & Heq).
  exists aka. exact Heq.
Defined.

Lemma auth_resync_sends_after_termination_witness :
  fi_terminating (w_auth (auth_step (AuthEvent VLR_AUTH_E_HLR_SAI_ACK (sample_sai []))
    (auth_step (AuthEvent VLR_AUTH_E_MS_AUTH_FAIL sample_auts) (snd sample_start)))) = true.
Proof.
  apply (auth_resync_sends_after_termination _
           (auth_step (AuthEvent VLR_AUTH_E_MS_AUTH_FAIL sample_auts) (snd sample_start))).
  - exact (sample_waiting [AuthEvent VLR_AUTH_E_MS_AUTH_FAIL sample_auts] eq_refl).
  - reflexivity.
  - reflexivity.
  - reflexivity.
Defined.

(** the same subscriber, known by TMSI only, in the resynchronisation case *)
Definition sample_tmsi_resync : world unit :=
  auth_run [AuthEvent VLR_AUTH_E_MS_AUTH_FAIL sample_auts;
            AuthEvent VLR_AUTH_E_HLR_SAI_ACK (sample_sai [sample_vec])]
    (snd sample_start) <| afp ::= fun p => p <| afp_by_imsi := false |> |>.

Lemma sample_tmsi_resync_waiting : auth_waiting sample_tmsi_resync.
Proof.
  destruct (sample_waiting [AuthEvent VLR_AUTH_E_MS_AUTH_FAIL sample_auts;
            AuthEvent VLR_AUTH_E_HLR_SAI_ACK (sample_sai [sample_vec])] eq_refl) as [Hr Hl Ht].
  split; [|exact Hl|exact Ht].
  eapply running_same; [|exact Hr]. repeat split; by intros [].
Qed.

Lemma auth_resync_ignores_identity_witness :
  out (auth_step (AuthEvent VLR_AUTH_E_MS_AUTH_RESP sample_bad_resp) sample_tmsi_resync)
  = TxIdReq GSM_MI_TYPE_IMSI :: out sample_tmsi_resync.
Proof.
  apply (auth_resync_ignores_identity sample_bad_resp "262420000000001").
  - exact sample_tmsi_resync_waiting.
  - reflexivity.
  - reflexivity.
  - intros [(r & Hr & _ & _ & _ & _ & Heq)|(r & _ & _ & Hl & _)];
      [injection Hr as <-; vm_compute in Heq; discriminate Heq | vm_compute in Hl; discriminate Hl].
Defined.
