(* ===== verification/VlrLuSub.v ===== *)
(** * Sub-procedures of Location Updating (src/libvlr/vlr_lu_fsm.c)

    Update_HLR_VLR, Subscriber_Present_VLR and Location_Update_Completion_VLR,
    each a state machine of its own. *)

From S2P Require Import Prelude OsmoFsm Gsm VlrTypes VlrSubscr VlrUse.

Definition LU_TIMEOUT_LONG : Z := 30.

(** which procedure a parent event belongs to *)
Definition pe_of_lu (pe : vlr_pe) : bool := match pe with PeLu _ => true | _ => false end.
Definition pe_of_arq (pe : vlr_pe) : bool := match pe with PeArq _ => true | _ => false end.
Definition pe_of_compl (pe : vlr_pe) : bool := match pe with PeCompl _ => true | _ => false end.

(** an existing instance whose parent is the procedure [mine] *)
Definition child_of {St : Type} (mine : vlr_pe -> bool) (fi : fsm_inst St vlr_pe) : bool :=
  negb (fi_terminating fi) && mine (fi_parent_term_event fi).

(** ** Update_HLR_VLR, TS 23.012 Chapter 4.1.2.4 *)

Definition upd_hlr_in_event_mask (s : upd_hlr_state) : Z :=
  mask_of upd_hlr_event_num
    match s with
    | UPD_HLR_VLR_S_INIT => [UPD_HLR_VLR_E_START]
    | UPD_HLR_VLR_S_WAIT_FOR_DATA =>
        [UPD_HLR_VLR_E_INS_SUB_DATA; UPD_HLR_VLR_E_ACT_TRACE_MODE;
         UPD_HLR_VLR_E_FW_CHECK_SS_IND; UPD_HLR_VLR_E_UPD_LOC_ACK;
         UPD_HLR_VLR_E_UPD_LOC_NACK]
    | UPD_HLR_VLR_S_DONE => []
    end.

Definition upd_hlr_out_state_mask (s : upd_hlr_state) : Z :=
  mask_of upd_hlr_state_num
    match s with
    | UPD_HLR_VLR_S_INIT => [UPD_HLR_VLR_S_WAIT_FOR_DATA]
    | UPD_HLR_VLR_S_WAIT_FOR_DATA => [UPD_HLR_VLR_S_DONE]
    | UPD_HLR_VLR_S_DONE => []
    end.

Section upd_hlr.
Context {L : FsmLib} {DB : Type} {R : VlrRc}.
Context (env : vlr_env DB).
Implicit Type w : world DB.

Definition upd_hlr_vlr_fsm : osmo_fsm (world DB) upd_hlr_state upd_hlr_event vdata vlr_pe := {|
  get_fi w := w_upd w;
  put_fi fi w := w <| w_upd := fi |>;
  st_num := upd_hlr_state_num;
  ev_num := upd_hlr_event_num;
  in_event_mask := upd_hlr_in_event_mask;
  out_state_mask := upd_hlr_out_state_mask;
  cleanup _ w := w;
  term_children w := w;
  parent_dispatch := parent_event env;
  timeout_data := DCause
|}.

Definition upd_hlr_state_chg (s : upd_hlr_state) (secs T : Z) w : world DB :=
  state_chg upd_hlr_vlr_fsm (fun _ _ w => w) s secs T w.
Definition upd_hlr_term (c : term_cause) (d : vdata) w : world DB :=
  osmo_fsm_inst_term upd_hlr_vlr_fsm c d w.

Definition upd_hlr_vlr_fsm_init (event : upd_hlr_event) (data : vdata) w : world DB :=
  match event with
  | UPD_HLR_VLR_E_START =>
      (* Send UpdateLocation to HLR; a failure is only logged *)
      let '(_, w) := vlr_subscr_req_lu w in
      upd_hlr_state_chg UPD_HLR_VLR_S_WAIT_FOR_DATA LU_TIMEOUT_LONG 0 w
  | _ => osmo_panic w
  end.

Definition upd_hlr_vlr_fsm_wait_data (event : upd_hlr_event) (data : vdata) w : world DB :=
  match event with
  | UPD_HLR_VLR_E_UPD_LOC_ACK =>
      let w := w <| vsub ::= fun v => v <| sub_dataconf_by_hlr_ind := true |>
                                        <| loc_conf_in_hlr_ind := true |> |> in
      let w := upd_hlr_state_chg UPD_HLR_VLR_S_DONE 0 0 w in
      upd_hlr_term OSMO_FSM_TERM_REGULAR DNull w
  | UPD_HLR_VLR_E_UPD_LOC_NACK =>
      let w := w <| vsub ::= fun v => v <| sub_dataconf_by_hlr_ind := false |>
                                        <| loc_conf_in_hlr_ind := false |> |> in
      let w := upd_hlr_state_chg UPD_HLR_VLR_S_DONE 0 0 w in
      upd_hlr_term OSMO_FSM_TERM_REGULAR data w
  | _ => w
  end.

Definition upd_hlr_action (s : upd_hlr_state) (event : upd_hlr_event) (data : vdata) w
  : world DB :=
  match s with
  | UPD_HLR_VLR_S_INIT => upd_hlr_vlr_fsm_init event data w
  | UPD_HLR_VLR_S_WAIT_FOR_DATA => upd_hlr_vlr_fsm_wait_data event data w
  | UPD_HLR_VLR_S_DONE => w
  end.

Definition upd_hlr_fsm_dispatch (event : upd_hlr_event) (data : vdata) w : world DB :=
  dispatch upd_hlr_vlr_fsm upd_hlr_action event data w.

Definition upd_hlr_fsm_timeout w : world DB := fsm_timer_expired upd_hlr_vlr_fsm None w.

Definition upd_hlr_vlr_proc_start (parent_ev : vlr_pe) w : fsm_ptr * world DB :=
  match osmo_fsm_inst_alloc_child UPD_HLR_VLR_S_INIT parent_ev with
  | None => (FsmNull, w)
  | Some fi => (FsmThis, upd_dispatch env UPD_HLR_VLR_E_START DNull (w <| w_upd := fi |>))
  end.
End upd_hlr.

(** ** Subscriber_Present_VLR, TS 29.002 Chapter 25.10.1 *)

Definition sub_pres_in_event_mask (s : sub_pres_state) : Z :=
  mask_of sub_pres_event_num
    match s with
    | SUB_PRES_VLR_S_INIT => [SUB_PRES_VLR_E_START]
    | SUB_PRES_VLR_S_WAIT_FOR_HLR => [SUB_PRES_VLR_E_READY_SM_CNF; SUB_PRES_VLR_E_READY_SM_ERR]
    | SUB_PRES_VLR_S_DONE => []
    end.

Definition sub_pres_out_state_mask (s : sub_pres_state) : Z :=
  mask_of sub_pres_state_num
    match s with
    | SUB_PRES_VLR_S_INIT => [SUB_PRES_VLR_S_WAIT_FOR_HLR; SUB_PRES_VLR_S_DONE]
    | SUB_PRES_VLR_S_WAIT_FOR_HLR => [SUB_PRES_VLR_S_DONE]
    | SUB_PRES_VLR_S_DONE => []
    end.

Section sub_pres.
Context {L : FsmLib} {DB : Type}.
Context (env : vlr_env DB).
Implicit Type w : world DB.

Definition sub_pres_vlr_fsm
  : osmo_fsm (world DB) sub_pres_state sub_pres_event vdata vlr_pe := {|
  get_fi w := w_pres w;
  put_fi fi w := w <| w_pres := fi |>;
  st_num := sub_pres_state_num;
  ev_num := sub_pres_event_num;
  in_event_mask := sub_pres_in_event_mask;
  out_state_mask := sub_pres_out_state_mask;
  cleanup _ w := w;
  term_children w := w;
  parent_dispatch := parent_event env;
  timeout_data := DCause
|}.

Definition sub_pres_state_chg (s : sub_pres_state) (secs T : Z) w : world DB :=
  state_chg sub_pres_vlr_fsm (fun _ _ w => w) s secs T w.
Definition sub_pres_term (c : term_cause) (d : vdata) w : world DB :=
  osmo_fsm_inst_term sub_pres_vlr_fsm c d w.

Definition sub_pres_vlr_fsm_init (event : sub_pres_event) (data : vdata) w : world DB :=
  match event with
  | SUB_PRES_VLR_E_START =>
      if negb (ms_not_reachable_flag (vsub w)) then
        let w := sub_pres_state_chg SUB_PRES_VLR_S_DONE 0 0 w in
        sub_pres_term OSMO_FSM_TERM_REGULAR DNull w
      else sub_pres_state_chg SUB_PRES_VLR_S_WAIT_FOR_HLR LU_TIMEOUT_LONG 0 w
  | _ => osmo_panic w
  end.

Definition sub_pres_vlr_fsm_wait_hlr (event : sub_pres_event) (data : vdata) w : world DB :=
  let w := match event with
           | SUB_PRES_VLR_E_READY_SM_CNF =>
               w <| vsub ::= fun v => v <| ms_not_reachable_flag := false |> |>
           | _ => w
           end in
  let w := sub_pres_state_chg SUB_PRES_VLR_S_DONE 0 0 w in
  sub_pres_term OSMO_FSM_TERM_REGULAR DNull w.

Definition sub_pres_action (s : sub_pres_state) (event : sub_pres_event) (data : vdata) w
  : world DB :=
  match s with
  | SUB_PRES_VLR_S_INIT => sub_pres_vlr_fsm_init event data w
  | SUB_PRES_VLR_S_WAIT_FOR_HLR => sub_pres_vlr_fsm_wait_hlr event data w
  | SUB_PRES_VLR_S_DONE => w
  end.

Definition sub_pres_fsm_dispatch (event : sub_pres_event) (data : vdata) w : world DB :=
  dispatch sub_pres_vlr_fsm sub_pres_action event data w.

Definition sub_pres_fsm_timeout w : world DB := fsm_timer_expired sub_pres_vlr_fsm None w.

(** [set_fi_p] is the assignment [*fi_p = fi], done before the start event *)
Definition sub_pres_vlr_fsm_start (set_fi_p : fsm_ptr -> world DB -> world DB)
    (term_event : vlr_pe) w : world DB :=
  match osmo_fsm_inst_alloc_child SUB_PRES_VLR_S_INIT term_event with
  | None => set_fi_p FsmNull w
  | Some fi =>
      let w := set_fi_p FsmThis (w <| w_pres := fi |>) in
      pres_dispatch env SUB_PRES_VLR_E_START DNull w
  end.
End sub_pres.

(** ** Location_Update_Completion_VLR, TS 23.012 Chapter 4.1.2.3 *)

Definition lu_compl_fsm_state_tdef (ps : bool) (s : lu_compl_state) : Z :=
  match s with
  | LU_COMPL_VLR_S_WAIT_IMEI | LU_COMPL_VLR_S_WAIT_IMEI_TMSI => if ps then 3370 else 3270
  | LU_COMPL_VLR_S_WAIT_TMSI_CNF => if ps then 3350 else 3250
  | _ => 0
  end.

Definition lu_compl_in_event_mask (s : lu_compl_state) : Z :=
  mask_of lu_compl_event_num
    match s with
    | LU_COMPL_VLR_S_INIT => [LU_COMPL_VLR_E_START]
    | LU_COMPL_VLR_S_WAIT_SUB_PRES => [LU_COMPL_VLR_E_SUB_PRES_COMPL]
    | LU_COMPL_VLR_S_WAIT_IMEI | LU_COMPL_VLR_S_WAIT_IMEI_TMSI =>
        [LU_COMPL_VLR_E_IMEI_CHECK_ACK; LU_COMPL_VLR_E_IMEI_CHECK_NACK]
    | LU_COMPL_VLR_S_WAIT_TMSI_CNF => [LU_COMPL_VLR_E_NEW_TMSI_ACK]
    | LU_COMPL_VLR_S_DONE => []
    end.

Definition lu_compl_out_state_mask (s : lu_compl_state) : Z :=
  mask_of lu_compl_state_num
    match s with
    | LU_COMPL_VLR_S_INIT => [LU_COMPL_VLR_S_DONE; LU_COMPL_VLR_S_WAIT_SUB_PRES]
    | LU_COMPL_VLR_S_WAIT_SUB_PRES =>
        [LU_COMPL_VLR_S_WAIT_IMEI; LU_COMPL_VLR_S_WAIT_IMEI_TMSI;
         LU_COMPL_VLR_S_WAIT_TMSI_CNF; LU_COMPL_VLR_S_DONE]
    | LU_COMPL_VLR_S_WAIT_IMEI => [LU_COMPL_VLR_S_DONE]
    | LU_COMPL_VLR_S_WAIT_IMEI_TMSI => [LU_COMPL_VLR_S_DONE; LU_COMPL_VLR_S_WAIT_TMSI_CNF]
    | LU_COMPL_VLR_S_WAIT_TMSI_CNF => [LU_COMPL_VLR_S_DONE]
    | LU_COMPL_VLR_S_DONE => []
    end.

Section lu_compl.
Context {L : FsmLib} {DB : Type} {R : VlrRc} {VDB : VlrDb DB}.
Context (env : vlr_env DB).
Implicit Type w : world DB.

(** the only kind of child is Subscriber_Present_VLR *)
Definition lu_compl_term_children w : world DB :=
  if child_of pe_of_compl (w_pres w) then sub_pres_term env OSMO_FSM_TERM_PARENT DNull w else w.

Definition lu_compl_vlr_fsm
  : osmo_fsm (world DB) lu_compl_state lu_compl_event vdata vlr_pe := {|
  get_fi w := w_compl w;
  put_fi fi w := w <| w_compl := fi |>;
  st_num := lu_compl_state_num;
  ev_num := lu_compl_event_num;
  in_event_mask := lu_compl_in_event_mask;
  out_state_mask := lu_compl_out_state_mask;
  cleanup _ w := w;
  term_children := lu_compl_term_children;
  parent_dispatch := parent_event env;
  timeout_data := DCause
|}.

(** onenter of LU_COMPL_VLR_S_DONE *)
Definition vlr_lu_compl_fsm_dispatch_result (prev_state : lu_compl_state) w : world DB :=
  if negb (fi_parent (w_compl w)) then w
  else
    parent_event env
      (match lcvp_result (lcvp w) with
       | VLR_FSM_RESULT_SUCCESS => lcvp_event_success (lcvp w)
       | _ => lcvp_event_failure (lcvp w)
       end) (DCause (lcvp_cause (lcvp w))) w.

Definition vlr_lu_compl_fsm_reset_n (prev_state : lu_compl_state) w : world DB :=
  w <| lcvp ::= fun p => p <| lcvp_N := 0 |> |>.

Definition lu_compl_onenter (s prev : lu_compl_state) w : world DB :=
  match s with
  | LU_COMPL_VLR_S_WAIT_IMEI | LU_COMPL_VLR_S_WAIT_IMEI_TMSI | LU_COMPL_VLR_S_WAIT_TMSI_CNF =>
      vlr_lu_compl_fsm_reset_n prev w
  | LU_COMPL_VLR_S_DONE => vlr_lu_compl_fsm_dispatch_result prev w
  | _ => w
  end.

Definition lu_compl_state_chg (s : lu_compl_state) (secs T : Z) w : world DB :=
  state_chg lu_compl_vlr_fsm lu_compl_onenter s secs T w.
Definition lu_compl_tdef_chg (s : lu_compl_state) w : world DB :=
  tdef_chg lu_compl_vlr_fsm lu_compl_onenter s (lu_compl_fsm_state_tdef (is_ps (cfg w))) w.
Definition lu_compl_term (c : term_cause) (d : vdata) w : world DB :=
  osmo_fsm_inst_term lu_compl_vlr_fsm c d w.

(** the cause is an [uint8_t] *)
Definition _vlr_lu_compl_fsm_done (result : vlr_fsm_result) (cause : Z) w : world DB :=
  let w := w <| lcvp ::= fun p => p <| lcvp_result := result |>
                                    <| lcvp_cause := u8 cause |> |> in
  lu_compl_state_chg LU_COMPL_VLR_S_DONE 0 0 w.

Definition vlr_lu_compl_fsm_success w : world DB :=
  let w := attach_use w in
  let w := _vlr_lu_compl_fsm_done VLR_FSM_RESULT_SUCCESS 0 w in
  emit SgsUpdateId w.

Definition lu_compl_vlr_init (event : lu_compl_event) (data : vdata) w : world DB :=
  match event with
  | LU_COMPL_VLR_E_START =>
      let w := w <| lcvp ::= fun p => p <| lcvp_N := 0 |> |> in
      let w := w <| vsub ::= fun v => v <| la_allowed := true |>
                                        <| imsi_detached_flag := false |> |> in
      let w := lu_compl_state_chg LU_COMPL_VLR_S_WAIT_SUB_PRES LU_TIMEOUT_LONG 0 w in
      if ms_not_reachable_flag (vsub w) then
        sub_pres_vlr_fsm_start env
          (fun p w => w <| lcvp ::= fun q => q <| lcvp_sub_pres_vlr_fsm := p |> |>)
          (PeCompl LU_COMPL_VLR_E_SUB_PRES_COMPL) w
      else compl_dispatch env LU_COMPL_VLR_E_SUB_PRES_COMPL DNull w
  | _ => osmo_panic w
  end.

(** vlr_subscr_alloc_tmsi(vsub); on success the MSC is told *)
Definition vlr_subscr_alloc_tmsi_call w : Z * world DB :=
  let '(rc, v, d) := db_alloc_tmsi (vsub w) (db w) in
  let w := w <| vsub := v |> <| db := d |> in
  if rc =? 0 then (0, emit SubscrUpdate w) else (rc, w).

Definition lu_compl_vlr_new_tmsi w : world DB :=
  let '(rc, w) := vlr_subscr_alloc_tmsi_call w in
  if negb (rc =? 0) then
    _vlr_lu_compl_fsm_done VLR_FSM_RESULT_FAILURE GSM48_REJECT_SRV_OPT_TMP_OUT_OF_ORDER w
  else
    let w := lu_compl_tdef_chg LU_COMPL_VLR_S_WAIT_TMSI_CNF w in
    emit (TxLuAcc (tmsi_new (vsub w)) (lcvp_lu_type (lcvp w))) w.

(** the common end of [lu_compl_vlr_wait_subscr_pres] and
    [lu_compl_vlr_wait_imei]: no TMSI is assigned *)
Definition lu_compl_accept_without_tmsi w : world DB :=
  let w := w <| vsub ::= fun v => v <| tmsi := GSM_RESERVED_TMSI |> |> in
  let w := rehash_tmsi w in
  let w := emit (TxLuAcc GSM_RESERVED_TMSI (lcvp_lu_type (lcvp w))) w in
  vlr_lu_compl_fsm_success w.

(** After completion of Subscriber_Present_VLR *)
Definition lu_compl_vlr_wait_subscr_pres (event : lu_compl_event) (data : vdata) w : world DB :=
  match event with
  | LU_COMPL_VLR_E_SUB_PRES_COMPL =>
      let w := w <| lcvp ::= fun p => p <| lcvp_sub_pres_vlr_fsm := FsmNull |> |> in
      if check_imei_rqd (cfg w) && negb (retrieve_imeisv_early (cfg w)) then
        (* Check IMEI VLR *)
        let w := lu_compl_tdef_chg (if lcvp_assign_tmsi (lcvp w)
                                    then LU_COMPL_VLR_S_WAIT_IMEI_TMSI
                                    else LU_COMPL_VLR_S_WAIT_IMEI) w in
        emit (TxIdReq GSM_MI_TYPE_IMEI) w
      else if lcvp_assign_tmsi (lcvp w) then lu_compl_vlr_new_tmsi w
      else lu_compl_accept_without_tmsi w
  | _ => osmo_panic w
  end.

(** Waiting for completion of CHECK_IMEI_VLR *)
Definition lu_compl_vlr_wait_imei (event : lu_compl_event) (data : vdata) w : world DB :=
  let pass w := if lcvp_assign_tmsi (lcvp w) then lu_compl_vlr_new_tmsi w
                else lu_compl_accept_without_tmsi w in
  match event with
  | LU_COMPL_VLR_E_IMEI_CHECK_ACK =>
      if str_empty (imei (vsub w))
      then _vlr_lu_compl_fsm_done VLR_FSM_RESULT_FAILURE GSM48_REJECT_PROTOCOL_ERROR w
      else pass w
  | LU_COMPL_VLR_E_IMEI_CHECK_NACK =>
      _vlr_lu_compl_fsm_done VLR_FSM_RESULT_FAILURE GSM48_REJECT_ILLEGAL_ME w
  | _ => pass w
  end.

(** Waiting for TMSI confirmation *)
Definition lu_compl_vlr_wait_tmsi (event : lu_compl_event) (data : vdata) w : world DB :=
  match event with
  | LU_COMPL_VLR_E_NEW_TMSI_ACK =>
      if tmsi_new (vsub w) =? GSM_RESERVED_TMSI
      then _vlr_lu_compl_fsm_done VLR_FSM_RESULT_FAILURE GSM48_REJECT_NETWORK_FAILURE w
      else
        let w := w <| vsub ::= fun v => v <| tmsi := tmsi_new v |>
                                          <| tmsi_new := GSM_RESERVED_TMSI |> |> in
        let w := rehash_tmsi w in
        let w := emit SubscrUpdate w in
        vlr_lu_compl_fsm_success w
  | _ => osmo_panic w
  end.

Definition lu_compl_action (s : lu_compl_state) (event : lu_compl_event) (data : vdata) w
  : world DB :=
  match s with
  | LU_COMPL_VLR_S_INIT => lu_compl_vlr_init event data w
  | LU_COMPL_VLR_S_WAIT_SUB_PRES => lu_compl_vlr_wait_subscr_pres event data w
  | LU_COMPL_VLR_S_WAIT_IMEI | LU_COMPL_VLR_S_WAIT_IMEI_TMSI =>
      lu_compl_vlr_wait_imei event data w
  | LU_COMPL_VLR_S_WAIT_TMSI_CNF => lu_compl_vlr_wait_tmsi event data w
  | LU_COMPL_VLR_S_DONE => w
  end.

Definition lu_compl_fsm_dispatch (event : lu_compl_event) (data : vdata) w : world DB :=
  dispatch lu_compl_vlr_fsm lu_compl_action event data w.

(** timer_cb *)
Definition lu_compl_vlr_timeout w : Z * world DB :=
  if negb (is_ps (cfg w)) then (1, w)
  else
    let w := w <| lcvp ::= fun p => p <| lcvp_N := lcvp_N p + 1 |> |> in
    if 5 <=? lcvp_N (lcvp w) then (1, w)
    else
      let w :=
        match fi_state (w_compl w) with
        | LU_COMPL_VLR_S_WAIT_IMEI | LU_COMPL_VLR_S_WAIT_IMEI_TMSI =>
            emit (TxIdReq GSM_MI_TYPE_IMEI) w
        | LU_COMPL_VLR_S_WAIT_TMSI_CNF =>
            emit (TxLuAcc (tmsi_new (vsub w)) (lcvp_lu_type (lcvp w))) w
        | _ => osmo_panic w
        end in
      (0, emit (TimerSchedule (fi_T (w_compl w))) w).

Definition lu_compl_fsm_timeout w : world DB :=
  fsm_timer_expired lu_compl_vlr_fsm (Some lu_compl_vlr_timeout) w.

Definition lu_compl_vlr_proc_alloc (conn : Z) (ev_success ev_failure : vlr_pe)
    (assign : bool) (t : vlr_lu_type) w : fsm_ptr * world DB :=
  match osmo_fsm_inst_alloc_child LU_COMPL_VLR_S_INIT ev_failure with
  | None => (FsmNull, w)
  | Some fi =>
      let w := w <| w_compl := fi |> in
      (FsmThis, w <| lcvp := {|
        lcvp_msc_conn_ref := conn; lcvp_sub_pres_vlr_fsm := FsmNull;
        lcvp_event_success := ev_success; lcvp_event_failure := ev_failure;
        lcvp_result := VLR_FSM_RESULT_NONE; lcvp_cause := 0;
        lcvp_assign_tmsi := assign; lcvp_lu_type := t; lcvp_N := 0 |} |>)
  end.
End lu_compl.
