(* ===== verification/VlrLu.v ===== *)
(** * Location Updating (src/libvlr/vlr_lu_fsm.c)

    Update_Location_Area_VLR, TS 23.012 Chapter 4.1.2.1: the procedure that
    identifies, authenticates and ciphers, informs the HLR and accepts or
    rejects the MS. *)

From S2P Require Import Prelude OsmoFsm Gsm VlrTypes VlrSubscr VlrUse VlrAuthTuples VlrAuthFsm.
From S2P Require Import VlrLuSub.

(** [msc_lu_tdef_states] and [sgsn_lu_tdef_states] *)
Definition lu_fsm_state_tdef (ps : bool) (s : lu_state) : Z :=
  match s with
  | VLR_ULA_S_WAIT_IMEISV | VLR_ULA_S_WAIT_HLR_CHECK_IMEI_EARLY | VLR_ULA_S_WAIT_IMSI =>
      if ps then 3370 else 3270
  | _ => 0
  end.

Definition lu_in_event_mask (s : lu_state) : Z :=
  mask_of lu_event_num
    match s with
    | VLR_ULA_S_IDLE => [VLR_ULA_E_UPDATE_LA]
    | VLR_ULA_S_WAIT_IMEISV => [VLR_ULA_E_ID_IMEISV]
    | VLR_ULA_S_WAIT_PVLR => [VLR_ULA_E_SEND_ID_ACK; VLR_ULA_E_SEND_ID_NACK]
    | VLR_ULA_S_WAIT_AUTH =>
        [VLR_ULA_E_AUTH_SUCCESS; VLR_ULA_E_AUTH_NO_INFO; VLR_ULA_E_AUTH_FAILURE]
    | VLR_ULA_S_WAIT_CIPH => [VLR_ULA_E_CIPH_RES]
    | VLR_ULA_S_WAIT_IMSI => [VLR_ULA_E_ID_IMSI]
    | VLR_ULA_S_WAIT_HLR_CHECK_IMEI_EARLY => [VLR_ULA_E_HLR_IMEI_ACK; VLR_ULA_E_HLR_IMEI_NACK]
    | VLR_ULA_S_WAIT_HLR_UPD =>
        [VLR_ULA_E_HLR_LU_RES; VLR_ULA_E_UPD_HLR_COMPL; VLR_ULA_E_ID_IMEI; VLR_ULA_E_ID_IMEISV]
    | VLR_ULA_S_WAIT_LU_COMPL =>
        [VLR_ULA_E_LU_COMPL_SUCCESS; VLR_ULA_E_LU_COMPL_FAILURE; VLR_ULA_E_NEW_TMSI_ACK;
         VLR_ULA_E_ID_IMEI; VLR_ULA_E_ID_IMEISV; VLR_ULA_E_HLR_IMEI_ACK; VLR_ULA_E_HLR_IMEI_NACK]
    | VLR_ULA_S_WAIT_LU_COMPL_STANDALONE =>
        [VLR_ULA_E_LU_COMPL_SUCCESS; VLR_ULA_E_LU_COMPL_FAILURE; VLR_ULA_E_NEW_TMSI_ACK]
    | VLR_ULA_S_DONE => []
    end.

Definition lu_out_state_mask (s : lu_state) : Z :=
  mask_of lu_state_num
    match s with
    | VLR_ULA_S_IDLE =>
        [VLR_ULA_S_WAIT_IMEISV; VLR_ULA_S_WAIT_PVLR; VLR_ULA_S_WAIT_IMSI; VLR_ULA_S_WAIT_AUTH;
         VLR_ULA_S_WAIT_CIPH; VLR_ULA_S_WAIT_HLR_CHECK_IMEI_EARLY; VLR_ULA_S_WAIT_HLR_UPD;
         VLR_ULA_S_DONE]
    | VLR_ULA_S_WAIT_IMEISV =>
        [VLR_ULA_S_WAIT_PVLR; VLR_ULA_S_WAIT_IMSI; VLR_ULA_S_WAIT_AUTH; VLR_ULA_S_WAIT_CIPH;
         VLR_ULA_S_WAIT_HLR_CHECK_IMEI_EARLY; VLR_ULA_S_WAIT_HLR_UPD; VLR_ULA_S_DONE]
    | VLR_ULA_S_WAIT_PVLR =>
        [VLR_ULA_S_WAIT_IMSI; VLR_ULA_S_WAIT_AUTH; VLR_ULA_S_WAIT_CIPH;
         VLR_ULA_S_WAIT_HLR_CHECK_IMEI_EARLY; VLR_ULA_S_DONE]
    | VLR_ULA_S_WAIT_AUTH =>
        [VLR_ULA_S_WAIT_CIPH; VLR_ULA_S_WAIT_LU_COMPL; VLR_ULA_S_WAIT_HLR_UPD; VLR_ULA_S_DONE]
    | VLR_ULA_S_WAIT_CIPH => [VLR_ULA_S_WAIT_LU_COMPL; VLR_ULA_S_WAIT_HLR_UPD; VLR_ULA_S_DONE]
    | VLR_ULA_S_WAIT_IMSI =>
        [VLR_ULA_S_WAIT_AUTH; VLR_ULA_S_WAIT_CIPH; VLR_ULA_S_WAIT_HLR_CHECK_IMEI_EARLY;
         VLR_ULA_S_WAIT_HLR_UPD; VLR_ULA_S_DONE]
    | VLR_ULA_S_WAIT_HLR_CHECK_IMEI_EARLY =>
        [VLR_ULA_S_WAIT_AUTH; VLR_ULA_S_WAIT_CIPH; VLR_ULA_S_WAIT_HLR_UPD;
         VLR_ULA_S_WAIT_LU_COMPL; VLR_ULA_S_DONE]
    | VLR_ULA_S_WAIT_HLR_UPD =>
        [VLR_ULA_S_WAIT_LU_COMPL; VLR_ULA_S_WAIT_LU_COMPL_STANDALONE; VLR_ULA_S_DONE]
    | VLR_ULA_S_WAIT_LU_COMPL => [VLR_ULA_S_DONE]
    | VLR_ULA_S_WAIT_LU_COMPL_STANDALONE => [VLR_ULA_S_DONE]
    | VLR_ULA_S_DONE => []
    end.

(** *data as a pointer to a reject cause, or NULL *)
Definition data_cause (d : vdata) : option Z :=
  match d with DCause c => Some c | _ => None end.

Section lu.
Context {L : FsmLib} {DB : Type} {R : VlrRc} {BC : BcdCodec} {VDB : VlrDb DB}.
Context (env : vlr_env DB).
Implicit Type w : world DB.

(** ** The instance *)

Definition fsm_lu_cleanup (_ : term_cause) w : world DB :=
  if lfp_vsub (lfp w) && bool_decide (lu_fsm (vsub w) = FsmThis)
  then w <| vsub ::= fun v => v <| lu_fsm := FsmNull |> |> else w.

(** children: Authenticate_VLR, Update_HLR_VLR, Location_Update_Completion_VLR *)
Definition lu_term_children w : world DB :=
  let w := if child_of pe_of_lu (w_auth w)
           then osmo_fsm_inst_term (vlr_auth_fsm env) OSMO_FSM_TERM_PARENT DNull w else w in
  let w := if child_of pe_of_lu (w_upd w)
           then upd_hlr_term env OSMO_FSM_TERM_PARENT DNull w else w in
  if child_of pe_of_lu (w_compl w) then lu_compl_term env OSMO_FSM_TERM_PARENT DNull w else w.

Definition vlr_lu_fsm : osmo_fsm (world DB) lu_state lu_event vdata vlr_pe := {|
  get_fi w := w_lu w;
  put_fi fi w := w <| w_lu := fi |>;
  st_num := lu_state_num;
  ev_num := lu_event_num;
  in_event_mask := lu_in_event_mask;
  out_state_mask := lu_out_state_mask;
  cleanup := fsm_lu_cleanup;
  term_children := lu_term_children;
  parent_dispatch := parent_event env;
  timeout_data := DCause
|}.

(** onenter of VLR_ULA_S_DONE *)
Definition lu_fsm_dispatch_result (prev_state : lu_state) w : world DB :=
  if negb (fi_parent (w_lu w)) then w
  else
    let pe := match lfp_result (lfp w) with
              | VLR_FSM_RESULT_SUCCESS => lfp_event_success (lfp w)
              | _ => lfp_event_failure (lfp w)
              end in
    let w := w <| w_lu ::= fun fi => fi <| fi_parent_term_event := PeMsc pe |> |> in
    osmo_fsm_inst_term vlr_lu_fsm OSMO_FSM_TERM_REGULAR DNull w.

Definition lu_fsm_wait_imsi_onenter (prev_state : lu_state) w : world DB :=
  w <| lfp ::= fun p => p <| lfp_N := 0 |> |>.

Definition lu_onenter (s prev : lu_state) w : world DB :=
  match s with
  | VLR_ULA_S_WAIT_IMSI => lu_fsm_wait_imsi_onenter prev w
  | VLR_ULA_S_DONE => lu_fsm_dispatch_result prev w
  | _ => w
  end.

Definition lu_state_chg (s : lu_state) (secs T : Z) w : world DB :=
  state_chg vlr_lu_fsm lu_onenter s secs T w.
Definition lu_tdef_chg (s : lu_state) w : world DB :=
  tdef_chg vlr_lu_fsm lu_onenter s (lu_fsm_state_tdef (is_ps (cfg w))) w.

(** ** Results *)

Definition _lu_fsm_done (result : vlr_fsm_result) w : world DB :=
  let w := w <| lfp ::= fun p => p <| lfp_result := result |> |> in
  lu_state_chg VLR_ULA_S_DONE 0 0 w.

Definition lu_fsm_success w : world DB := _lu_fsm_done VLR_FSM_RESULT_SUCCESS w.

Definition lu_fsm_failure (rej_cause : Z) w : world DB :=
  let c := if rej_cause =? 0 then GSM48_REJECT_NETWORK_FAILURE else rej_cause in
  let w := emit (TxLuRej c (lfp_lu_type (lfp w))) w in
  _lu_fsm_done VLR_FSM_RESULT_FAILURE w.

(** ** Decisions *)

Definition lai_in_this_vlr (lai : osmo_location_area_id) : bool := true.

(** Return true when authentication should be attempted; a reusable tuple is
    selected on the way. *)
Definition try_auth w : bool * world DB :=
  if lfp_authentication_required (lfp w) then (true, w)
  else if negb (lfp_is_ciphering_to_be_attempted (lfp w)) then (false, w)
  else
    let '(reused, v) := auth_try_reuse_tuple (cfg w) (lfp_key_seq (lfp w)) (vsub w) in
    (negb reused, w <| vsub := v |>).

Definition is_cmc_smc_to_be_attempted (p : lu_fsm_priv) : bool :=
  lfp_is_utran p || lfp_is_ciphering_to_be_attempted p.

Definition hlr_update_needed (v : vlr_subscr) : bool := true.

(** ** Sub-procedures *)

Definition vlr_loc_upd_start_lu_compl_fsm w : world DB :=
  let '(p, w) := lu_compl_vlr_proc_alloc (lfp_msc_conn_ref (lfp w))
                   (PeLu VLR_ULA_E_LU_COMPL_SUCCESS) (PeLu VLR_ULA_E_LU_COMPL_FAILURE)
                   (lfp_assign_tmsi (lfp w)) (lfp_lu_type (lfp w)) w in
  let w := w <| lfp ::= fun q => q <| lfp_lu_compl_vlr_fsm := p |> |> in
  match p with
  | FsmThis => compl_dispatch env LU_COMPL_VLR_E_START DNull w
  | _ => w
  end.

Definition lu_fsm_discard_lu_compl_fsm w : world DB :=
  match lfp_lu_compl_vlr_fsm (lfp w) with
  | FsmThis => lu_compl_term env OSMO_FSM_TERM_PARENT DNull w
  | _ => w
  end.

(** 4.1.2.1 Node 4; the HLR is always known *)
Definition vlr_loc_upd_node_4 w : world DB :=
  let w := lu_state_chg VLR_ULA_S_WAIT_HLR_UPD LU_TIMEOUT_LONG 0 w in
  let '(p, w) := upd_hlr_vlr_proc_start env (PeLu VLR_ULA_E_UPD_HLR_COMPL) w in
  w <| lfp ::= fun q => q <| lfp_upd_hlr_vlr_fsm := p |> |>.

(** 4.1.2.1 Node B *)
Definition vlr_loc_upd_node_b w : world DB :=
  let w := lu_state_chg VLR_ULA_S_WAIT_LU_COMPL LU_TIMEOUT_LONG 0 w in
  vlr_loc_upd_start_lu_compl_fsm w.

(** after Ciphering Mode Complete (or no ciph required) *)
Definition vlr_loc_upd_post_ciph w : world DB :=
  if negb (lfp_vsub (lfp w)) then osmo_panic w
  else
    let w := emit TxCommonId w in
    let w := w <| vsub ::= fun v => v <| conf_by_radio_contact_ind := true |>
                                      <| cgi_lai := lfp_new_lai (lfp w) |>
                                      <| dormant_ind := false |>
                                      <| cancel_loc_rx := false |> |> in
    if hlr_update_needed (vsub w) then vlr_loc_upd_node_4 w else vlr_loc_upd_node_b w.

(** 4.1.2.1 after Authentication successful (or no auth rqd) *)
Definition vlr_loc_upd_post_auth w : world DB :=
  if negb (lfp_vsub (lfp w)) then osmo_panic w
  else if negb (is_cmc_smc_to_be_attempted (lfp w))
          || (bool_decide (sec_ctx (vsub w) = VLR_SEC_CTX_NONE)
              && negb (lfp_is_ciphering_required (lfp w)))
  then vlr_loc_upd_post_ciph w
  else
    match last_tuple (vsub w), sec_ctx (vsub w) with
    | None, _ => lu_fsm_failure GSM48_REJECT_NETWORK_FAILURE w
    | _, VLR_SEC_CTX_NONE => lu_fsm_failure GSM48_REJECT_NETWORK_FAILURE w
    | _, _ =>
        let '(rc, w) := vlr_set_ciph_mode (sec_ctx (vsub w)) (retrieve_imeisv_ciphered (cfg w)) w in
        if negb (rc =? 0) then lu_fsm_failure GSM48_REJECT_NETWORK_FAILURE w
        else lu_state_chg VLR_ULA_S_WAIT_CIPH LU_TIMEOUT_LONG 0 w
    end.

Definition vlr_loc_upd_node1 w : world DB :=
  if negb (lfp_vsub (lfp w)) then osmo_panic w
  else
    let '(auth, w) := try_auth w in
    if auth then
      (* Authenticate_VLR *)
      let w := lu_state_chg VLR_ULA_S_WAIT_AUTH LU_TIMEOUT_LONG 0 w in
      let '(p, w) := auth_fsm_start env (PeLu VLR_ULA_E_AUTH_SUCCESS)
                       (PeLu VLR_ULA_E_AUTH_NO_INFO) (PeLu VLR_ULA_E_AUTH_FAILURE)
                       (lfp_is_r99 (lfp w)) (lfp_is_utran (lfp w)) w in
      w <| vsub ::= fun v => v <| auth_fsm := p |> |>
    else vlr_loc_upd_post_auth w.

Definition vlr_loc_upd_node1_pre w : world DB :=
  if check_imei_rqd (cfg w) && retrieve_imeisv_early (cfg w) then
    let w := lu_tdef_chg VLR_ULA_S_WAIT_HLR_CHECK_IMEI_EARLY w in
    snd (vlr_subscr_tx_req_check_imei w)
  else vlr_loc_upd_node1 w.

Definition vlr_loc_upd_want_imsi w : world DB :=
  if negb (lfp_vsub (lfp w)) then osmo_panic w
  else
    let w := lu_tdef_chg VLR_ULA_S_WAIT_IMSI w in
    emit (TxIdReq GSM_MI_TYPE_IMSI) w.

(** ** Finding the subscriber *)

(** [None] for success; an error code when the FSM was terminated.  [v] is the
    subscriber that was found; another Location Updating of it is cancelled. *)
Definition assoc_lfp_with_sub (v : vlr_subscr) w : Z * world DB :=
  let w := w <| vsub := v |> in
  let w := match lu_fsm v with
           | FsmOther => emit (OtherLuCancel GSM48_REJECT_CONGESTION) w
           | _ => w
           end in
  let w := w <| vsub ::= fun v => v <| lu_fsm := FsmThis |>
                 <| cgi_lai ::= fun l => l <| lai_lac := lai_lac (lfp_new_lai (lfp w)) |> |> |> in
  let w := w <| lfp ::= fun p => p <| lfp_vsub := true |> |> in
  let '(rc, w) := call (SubscrAssoc (lfp_msc_conn_ref (lfp w))) w in
  if negb (rc =? 0) then
    let w := w <| vsub ::= fun v => v <| lu_fsm := FsmNull |> |> in
    let w := w <| lfp ::= fun p => p <| lfp_vsub := false |> |> in
    (- EINVAL, lu_fsm_failure GSM48_REJECT_NETWORK_FAILURE w)
  else
    (0, w <| vsub ::= fun v => v <| msc_conn_ref := Some (lfp_msc_conn_ref (lfp w)) |> |>).

(** the use of the subscriber held while the procedure is associated with it *)
Definition LU_USE : string := "_lu_fsm_associate_vsub".

Definition lu_found (v : vlr_subscr) w : Z * world DB :=
  let v := v <| sub_dataconf_by_hlr_ind := false |> in
  let '(rc, w) := assoc_lfp_with_sub v w in
  (if rc =? 0 then 0 else -1, vlr_subscr_put LU_USE w).

(** vlr_subscr_put(NULL, ...) in the branch for an IMSI fails an assertion *)
Definition _lu_fsm_associate_vsub w : Z * world DB :=
  let w := sync w in
  if str_empty (lfp_imsi (lfp w)) then
    (* TMSI was used *)
    let w := w <| lfp ::= fun p => p <| lfp_lu_by_tmsi := true |> |> in
    match db_find_or_create_by_tmsi (db w) (lfp_tmsi (lfp w)) with
    | None => (-1, lu_fsm_failure GSM48_REJECT_SRV_OPT_TMP_OUT_OF_ORDER w)
    | Some (v, d) => lu_found (vsub_use_add LU_USE 1 v) (w <| db := d |>)
    end
  else
    (* IMSI was used *)
    match db_find_or_create_by_imsi (db w) (lfp_imsi (lfp w)) with
    | None => (-1, osmo_panic (lu_fsm_failure GSM48_REJECT_SRV_OPT_TMP_OUT_OF_ORDER w))
    | Some (v, d) => lu_found (vsub_use_add LU_USE 1 v) (w <| db := d |>)
    end.

(** 4.1.2.1: Subscriber (via MSC/SGSN) requests location update *)
Definition _start_lu_main w : world DB :=
  if str_empty (imsi (vsub w)) then vlr_loc_upd_want_imsi w else vlr_loc_upd_node1_pre w.

(** ** Handlers of the states *)

Definition lu_fsm_idle (event : lu_event) (data : vdata) w : world DB :=
  match event with
  | VLR_ULA_E_UPDATE_LA =>
      let '(rc, w) := _lu_fsm_associate_vsub w in
      if negb (rc =? 0) then w
      else
        let w := sgs_dispatch env SGS_UE_E_RX_LU_FROM_A_IU_GS DNull w in
        (* See 3GPP TS 23.012, procedure Retrieve_IMEISV_If_Required *)
        if negb (retrieve_imeisv_early (cfg w))
           || (bool_decide (lfp_lu_type (lfp w) = VLR_LU_TYPE_PERIODIC)
               && str_nonempty (imeisv (vsub w)))
        then _start_lu_main w
        else
          let w := emit (TxIdReq GSM_MI_TYPE_IMEISV) w in
          lu_tdef_chg VLR_ULA_S_WAIT_IMEISV w
  | _ => osmo_panic w
  end.

Definition lu_fsm_wait_imeisv (event : lu_event) (data : vdata) w : world DB :=
  match event with
  | VLR_ULA_E_ID_IMEISV => _start_lu_main w
  | _ => osmo_panic w
  end.

(** Wait for response from Send_Identification to PVLR *)
Definition lu_fsm_wait_pvlr (event : lu_event) (data : vdata) w : world DB :=
  match event with
  | VLR_ULA_E_SEND_ID_ACK => vlr_loc_upd_node1_pre w
  | VLR_ULA_E_SEND_ID_NACK => vlr_loc_upd_want_imsi w
  | _ => osmo_panic w
  end.

(** Wait for result of Authenticate_VLR procedure *)
Definition lu_fsm_wait_auth (event : lu_event) (data : vdata) w : world DB :=
  let w := w <| lfp ::= fun p => p <| lfp_upd_hlr_vlr_fsm := FsmNull |> |> in
  let cause := default GSM48_REJECT_NETWORK_FAILURE (data_cause data) in
  match event with
  | VLR_ULA_E_AUTH_SUCCESS => vlr_loc_upd_post_auth w
  | VLR_ULA_E_AUTH_FAILURE => lu_fsm_failure cause w
  | VLR_ULA_E_AUTH_NO_INFO =>
      (* Continue only if authentication is optional. *)
      if lfp_authentication_required (lfp w) || lfp_is_ciphering_required (lfp w)
      then lu_fsm_failure cause w
      else vlr_loc_upd_post_auth w
  | _ => osmo_panic w
  end.

Definition lu_fsm_wait_ciph (event : lu_event) (data : vdata) w : world DB :=
  match event with
  | VLR_ULA_E_CIPH_RES =>
      match data with
      | DCiph VLR_CIPH_COMPL => vlr_loc_upd_post_ciph w
      | _ => lu_fsm_failure GSM48_REJECT_INVALID_MANDANTORY_INF w
      end
  | _ => osmo_panic w
  end.

(** vlr_subscr_set_imsi(vsub, imsi) *)
Definition set_imsi_call (i : string) w : world DB :=
  let '(v, d) := db_set_imsi (vsub w) i (db w) in w <| vsub := v |> <| db := d |>.

Definition lu_fsm_wait_imsi (event : lu_event) (data : vdata) w : world DB :=
  match event, data with
  | VLR_ULA_E_ID_IMSI, DImsi mi_string => vlr_loc_upd_node1_pre (set_imsi_call mi_string w)
  | _, _ => osmo_panic w
  end.

(** End of Check_IMEI Procedure, executed early *)
Definition lu_fsm_wait_hlr_check_imei_early (event : lu_event) (data : vdata) w : world DB :=
  match event with
  | VLR_ULA_E_HLR_IMEI_ACK => vlr_loc_upd_node1 w
  | VLR_ULA_E_HLR_IMEI_NACK => lu_fsm_failure GSM48_REJECT_ILLEGAL_ME w
  | _ => osmo_panic w
  end.

(** dispatch to one of the sub-procedures, by the pointer kept in lfp *)
Definition upd_via (p : fsm_ptr) (e : upd_hlr_event) (d : vdata) w : world DB :=
  match p with FsmThis => upd_dispatch env e d w | _ => w end.
Definition compl_via (p : fsm_ptr) (e : lu_compl_event) (d : vdata) w : world DB :=
  match p with FsmThis => compl_dispatch env e d w | _ => w end.

(** At the end of Update_HLR_VLR *)
Definition lu_fsm_wait_hlr_ul_res (event : lu_event) (data : vdata) w : world DB :=
  match event with
  | VLR_ULA_E_HLR_LU_RES =>
      (* pass-through this event to Update_HLR_VLR *)
      match data with
      | DNull => upd_via (lfp_upd_hlr_vlr_fsm (lfp w)) UPD_HLR_VLR_E_UPD_LOC_ACK DNull w
      | _ => upd_via (lfp_upd_hlr_vlr_fsm (lfp w)) UPD_HLR_VLR_E_UPD_LOC_NACK data w
      end
  | VLR_ULA_E_UPD_HLR_COMPL =>
      match data_cause data with
      | None =>
          let w := lu_state_chg VLR_ULA_S_WAIT_LU_COMPL LU_TIMEOUT_LONG 0 w in
          vlr_loc_upd_start_lu_compl_fsm w
      | Some cause => lu_fsm_failure cause w
      end
  | VLR_ULA_E_ID_IMEI | VLR_ULA_E_ID_IMEISV => w
  | _ => osmo_panic w
  end.

(** Wait for end of Location_Update_Completion_VLR.  The failure event's data
    is read as an [uint8_t]. *)
Definition lu_fsm_wait_lu_compl (event : lu_event) (data : vdata) w : world DB :=
  let compl e := compl_via (lfp_lu_compl_vlr_fsm (lfp w)) e DNull w in
  match event with
  | VLR_ULA_E_NEW_TMSI_ACK => compl LU_COMPL_VLR_E_NEW_TMSI_ACK
  | VLR_ULA_E_ID_IMEI | VLR_ULA_E_ID_IMEISV => snd (vlr_subscr_tx_req_check_imei w)
  | VLR_ULA_E_HLR_IMEI_ACK => compl LU_COMPL_VLR_E_IMEI_CHECK_ACK
  | VLR_ULA_E_HLR_IMEI_NACK => compl LU_COMPL_VLR_E_IMEI_CHECK_NACK
  | VLR_ULA_E_LU_COMPL_SUCCESS =>
      let w := lu_fsm_discard_lu_compl_fsm w in
      let w := match lfp_lu_type (lfp w) with
               | VLR_LU_TYPE_IMSI_ATTACH => emit TxMmInfo w
               | _ => w
               end in
      lu_fsm_success w
  | VLR_ULA_E_LU_COMPL_FAILURE =>
      let cause := u8 (default GSM48_REJECT_NETWORK_FAILURE (data_cause data)) in
      let w := lu_fsm_discard_lu_compl_fsm w in
      lu_fsm_failure cause w
  | _ => osmo_panic w
  end.

(** the standalone case *)
Definition lu_fsm_wait_lu_compl_standalone (event : lu_event) (data : vdata) w : world DB :=
  match event with
  | VLR_ULA_E_NEW_TMSI_ACK =>
      compl_via (lfp_lu_compl_vlr_fsm (lfp w)) LU_COMPL_VLR_E_NEW_TMSI_ACK DNull w
  | VLR_ULA_E_LU_COMPL_SUCCESS =>
      let w := lu_fsm_discard_lu_compl_fsm w in
      let w := w <| vsub ::= fun v => v <| sub_dataconf_by_hlr_ind := false |> |> in
      lu_fsm_success w
  | VLR_ULA_E_LU_COMPL_FAILURE =>
      let w := w <| vsub ::= fun v => v <| sub_dataconf_by_hlr_ind := false |> |> in
      let cause := u8 (default GSM48_REJECT_NETWORK_FAILURE (data_cause data)) in
      let w := lu_fsm_discard_lu_compl_fsm w in
      lu_fsm_failure cause w
  | _ => osmo_panic w
  end.

Definition lu_action (s : lu_state) (event : lu_event) (data : vdata) w : world DB :=
  match s with
  | VLR_ULA_S_IDLE => lu_fsm_idle event data w
  | VLR_ULA_S_WAIT_IMEISV => lu_fsm_wait_imeisv event data w
  | VLR_ULA_S_WAIT_PVLR => lu_fsm_wait_pvlr event data w
  | VLR_ULA_S_WAIT_AUTH => lu_fsm_wait_auth event data w
  | VLR_ULA_S_WAIT_CIPH => lu_fsm_wait_ciph event data w
  | VLR_ULA_S_WAIT_IMSI => lu_fsm_wait_imsi event data w
  | VLR_ULA_S_WAIT_HLR_CHECK_IMEI_EARLY => lu_fsm_wait_hlr_check_imei_early event data w
  | VLR_ULA_S_WAIT_HLR_UPD => lu_fsm_wait_hlr_ul_res event data w
  | VLR_ULA_S_WAIT_LU_COMPL => lu_fsm_wait_lu_compl event data w
  | VLR_ULA_S_WAIT_LU_COMPL_STANDALONE => lu_fsm_wait_lu_compl_standalone event data w
  | VLR_ULA_S_DONE => w
  end.

Definition lu_fsm_dispatch (event : lu_event) (data : vdata) w : world DB :=
  dispatch vlr_lu_fsm lu_action event data w.

(** ** Timer *)

Definition fsm_lu_timer_cb w : Z * world DB :=
  if negb (is_ps (cfg w)) then (1, w)
  else
    let w := w <| lfp ::= fun p => p <| lfp_N := lfp_N p + 1 |> |> in
    if 5 <=? lfp_N (lfp w) then
      (* LU reject and terminate FSM *)
      let cause := match fi_state (w_lu w) with
                   | VLR_ULA_S_WAIT_IMSI | VLR_ULA_S_WAIT_CIPH =>
                       GSM48_REJECT_MS_IDENTITY_NOT_DERVIVABLE
                   | _ => GSM48_REJECT_NETWORK_FAILURE
                   end in
      (1, emit (TxLuRej cause (lfp_lu_type (lfp w))) w)
    else
      let resched w := (0, emit (TimerSchedule (fi_T (w_lu w))) w) in
      match fi_state (w_lu w) with
      | VLR_ULA_S_WAIT_CIPH =>
          let '(rc, w) := vlr_set_ciph_mode (sec_ctx (vsub w)) (retrieve_imeisv_ciphered (cfg w)) w in
          if negb (rc =? 0) then (0, lu_fsm_failure GSM48_REJECT_NETWORK_FAILURE w)
          else resched w
      | VLR_ULA_S_WAIT_IMSI => resched (emit (TxIdReq GSM_MI_TYPE_IMSI) w)
      | _ => resched w
      end.

Definition lu_fsm_timeout w : world DB :=
  fsm_timer_expired vlr_lu_fsm (Some fsm_lu_timer_cb) w.

(** ** Start and cancel *)

(** the parameters of a request *)
Record lu_request : Type := mk_lu_request {
  rq_conn : Z; rq_event_success : Z; rq_event_failure : Z;
  rq_type : vlr_lu_type; rq_tmsi : Z; rq_imsi : option string;
  rq_old_lai : osmo_location_area_id; rq_new_lai : osmo_location_area_id;
  rq_authentication_required : bool; rq_is_ciphering_to_be_attempted : bool;
  rq_is_ciphering_required : bool; rq_key_seq : Z; rq_is_r99 : bool; rq_is_utran : bool;
  rq_assign_tmsi : bool
}.

Definition _vlr_loc_update (q : lu_request) w : fsm_ptr * world DB :=
  let w := if rq_is_ciphering_required q && negb (rq_is_ciphering_to_be_attempted q)
           then osmo_panic w else w in
  match osmo_fsm_inst_alloc_child VLR_ULA_S_IDLE (PeMsc (rq_event_failure q)) with
  | None => (FsmNull, w)
  | Some fi =>
      let w := w <| w_lu := fi |> in
      (FsmThis, w <| lfp := {|
        lfp_vsub := false; lfp_msc_conn_ref := rq_conn q; lfp_upd_hlr_vlr_fsm := FsmNull;
        lfp_lu_compl_vlr_fsm := FsmNull; lfp_event_success := rq_event_success q;
        lfp_event_failure := rq_event_failure q; lfp_result := VLR_FSM_RESULT_NONE;
        lfp_rej_cause := 0; lfp_lu_type := rq_type q;
        lfp_lu_by_tmsi := match rq_imsi q with Some _ => false | None => true end;
        lfp_imsi := match rq_imsi q with
                    | Some i => strlcpy (GSM23003_IMSI_MAX_DIGITS + 1) i
                    | None => ""
                    end;
        lfp_tmsi := rq_tmsi q; lfp_old_lai := rq_old_lai q; lfp_new_lai := rq_new_lai q;
        lfp_authentication_required := rq_authentication_required q;
        lfp_is_ciphering_to_be_attempted := rq_is_ciphering_to_be_attempted q;
        lfp_is_ciphering_required := rq_is_ciphering_required q;
        lfp_key_seq := rq_key_seq q; lfp_is_r99 := rq_is_r99 q; lfp_is_utran := rq_is_utran q;
        lfp_assign_tmsi := rq_assign_tmsi q; lfp_N := 0 |} |>)
  end.

(** also [vlr_ra_update], which in addition stores the routing areas *)
Definition vlr_loc_update (q : lu_request) w : fsm_ptr * world DB :=
  let '(p, w) := _vlr_loc_update q w in
  match p with
  | FsmThis => (p, lu_dispatch env VLR_ULA_E_UPDATE_LA DNull w)
  | _ => (FsmNull, w)
  end.

Definition vlr_loc_update_cancel (gsm48_cause : Z) w : world DB :=
  let w := w <| lfp ::= fun p => p <| lfp_rej_cause := u8 gsm48_cause |> |> in
  match fi_state (w_lu w) with
  | VLR_ULA_S_DONE => w
  | _ => lu_fsm_failure (u8 gsm48_cause) w
  end.
End lu.
