(* ===== verification/VlrArq.v ===== *)
(** * Access requests (src/libvlr/vlr_access_req_fsm.c)

    Process_Access_Request_VLR, TS 29.002 Chapter 25.4.2: CM Service Requests
    and paging responses. *)

From S2P Require Import Prelude OsmoFsm Gsm VlrTypes VlrSubscr VlrUse VlrAuthTuples VlrAuthFsm.
From S2P Require Import VlrLuSub VlrLu.

(** [msc_parq_tdef_states] and [sgsn_parq_tdef_states] *)
Definition parq_fsm_state_tdef (ps : bool) (s : arq_state) : Z :=
  match s with
  | PR_ARQ_S_WAIT_CHECK_IMEI | PR_ARQ_S_WAIT_OBTAIN_IMSI => if ps then 3370 else 3270
  | _ => 0
  end.

Definition arq_in_event_mask (s : arq_state) : Z :=
  mask_of arq_event_num
    match s with
    | PR_ARQ_S_INIT => [PR_ARQ_E_START]
    | PR_ARQ_S_WAIT_OBTAIN_IMSI => [PR_ARQ_E_ID_IMSI]
    | PR_ARQ_S_WAIT_AUTH => [PR_ARQ_E_AUTH_RES; PR_ARQ_E_AUTH_NO_INFO; PR_ARQ_E_AUTH_FAILURE]
    | PR_ARQ_S_WAIT_CIPH => [PR_ARQ_E_CIPH_RES]
    | PR_ARQ_S_WAIT_UPD_LOC_CHILD => [PR_ARQ_E_UPD_LOC_RES]
    | PR_ARQ_S_WAIT_SUB_PRES => [PR_ARQ_E_PRES_RES]
    | PR_ARQ_S_WAIT_TRACE_SUB => [PR_ARQ_E_TRACE_RES]
    | PR_ARQ_S_WAIT_CHECK_IMEI => [PR_ARQ_E_IMEI_RES]
    | PR_ARQ_S_WAIT_TMSI_ACK => [PR_ARQ_E_TMSI_ACK]
    | PR_ARQ_S_WAIT_CECK_CONF | PR_ARQ_S_DONE => []
    end.

Definition arq_out_state_mask (s : arq_state) : Z :=
  mask_of arq_state_num
    match s with
    | PR_ARQ_S_INIT =>
        [PR_ARQ_S_DONE; PR_ARQ_S_WAIT_OBTAIN_IMSI; PR_ARQ_S_WAIT_AUTH; PR_ARQ_S_WAIT_CIPH;
         PR_ARQ_S_WAIT_UPD_LOC_CHILD; PR_ARQ_S_WAIT_SUB_PRES; PR_ARQ_S_WAIT_TRACE_SUB;
         PR_ARQ_S_WAIT_CHECK_IMEI; PR_ARQ_S_WAIT_TMSI_ACK]
    | PR_ARQ_S_WAIT_OBTAIN_IMSI =>
        [PR_ARQ_S_DONE; PR_ARQ_S_WAIT_AUTH; PR_ARQ_S_WAIT_CIPH; PR_ARQ_S_WAIT_UPD_LOC_CHILD;
         PR_ARQ_S_WAIT_SUB_PRES; PR_ARQ_S_WAIT_TRACE_SUB; PR_ARQ_S_WAIT_CHECK_IMEI;
         PR_ARQ_S_WAIT_TMSI_ACK]
    | PR_ARQ_S_WAIT_AUTH =>
        [PR_ARQ_S_DONE; PR_ARQ_S_WAIT_CIPH; PR_ARQ_S_WAIT_UPD_LOC_CHILD; PR_ARQ_S_WAIT_SUB_PRES;
         PR_ARQ_S_WAIT_TRACE_SUB; PR_ARQ_S_WAIT_CHECK_IMEI; PR_ARQ_S_WAIT_TMSI_ACK]
    | PR_ARQ_S_WAIT_CIPH =>
        [PR_ARQ_S_DONE; PR_ARQ_S_WAIT_UPD_LOC_CHILD; PR_ARQ_S_WAIT_SUB_PRES;
         PR_ARQ_S_WAIT_TRACE_SUB; PR_ARQ_S_WAIT_CHECK_IMEI; PR_ARQ_S_WAIT_TMSI_ACK]
    | PR_ARQ_S_WAIT_UPD_LOC_CHILD =>
        [PR_ARQ_S_DONE; PR_ARQ_S_WAIT_SUB_PRES; PR_ARQ_S_WAIT_TRACE_SUB;
         PR_ARQ_S_WAIT_CHECK_IMEI; PR_ARQ_S_WAIT_TMSI_ACK]
    | PR_ARQ_S_WAIT_SUB_PRES =>
        [PR_ARQ_S_DONE; PR_ARQ_S_WAIT_TRACE_SUB; PR_ARQ_S_WAIT_CHECK_IMEI; PR_ARQ_S_WAIT_TMSI_ACK]
    | PR_ARQ_S_WAIT_TRACE_SUB => [PR_ARQ_S_DONE; PR_ARQ_S_WAIT_CHECK_IMEI; PR_ARQ_S_WAIT_TMSI_ACK]
    | PR_ARQ_S_WAIT_CHECK_IMEI => [PR_ARQ_S_DONE; PR_ARQ_S_WAIT_TMSI_ACK]
    | PR_ARQ_S_WAIT_TMSI_ACK => [PR_ARQ_S_DONE]
    | PR_ARQ_S_WAIT_CECK_CONF | PR_ARQ_S_DONE => []
    end.

Section arq.
Context {L : FsmLib} {DB : Type} {R : VlrRc} {VDB : VlrDb DB}.
Context (env : vlr_env DB).
Implicit Type w : world DB.

Definition proc_arq_vlr_cleanup (_ : term_cause) w : world DB :=
  if par_vsub (par w) && bool_decide (proc_arq_fsm (vsub w) = FsmThis)
  then w <| vsub ::= fun v => v <| proc_arq_fsm := FsmNull |> |> else w.

(** children: Authenticate_VLR, Update_HLR_VLR, Subscriber_Present_VLR *)
Definition arq_term_children w : world DB :=
  let w := if child_of pe_of_arq (w_auth w)
           then osmo_fsm_inst_term (vlr_auth_fsm env) OSMO_FSM_TERM_PARENT DNull w else w in
  let w := if child_of pe_of_arq (w_upd w)
           then upd_hlr_term env OSMO_FSM_TERM_PARENT DNull w else w in
  if child_of pe_of_arq (w_pres w) then sub_pres_term env OSMO_FSM_TERM_PARENT DNull w else w.

Definition proc_arq_vlr_fsm : osmo_fsm (world DB) arq_state arq_event vdata vlr_pe := {|
  get_fi w := w_arq w;
  put_fi fi w := w <| w_arq := fi |>;
  st_num := arq_state_num;
  ev_num := arq_event_num;
  in_event_mask := arq_in_event_mask;
  out_state_mask := arq_out_state_mask;
  cleanup := proc_arq_vlr_cleanup;
  term_children := arq_term_children;
  parent_dispatch := parent_event env;
  timeout_data := DCause
|}.

(** onenter of PR_ARQ_S_DONE: CM Service Accept or Reject first, then the event
    to the parent *)
Definition proc_arq_vlr_dispatch_result (prev_state : arq_state) w : world DB :=
  let success := par_result (par w) =? 0 in
  let '(success, w) :=
    match par_type (par w) with
    | VLR_PR_ARQ_T_CM_SERV_REQ =>
        let '(success, w) :=
          if success && negb (par_implicitly_accepted (par w)) then
            let '(rc, w) := call (TxCmServAcc (par_cm_service_type (par w))) w in
            (rc =? 0, w)
          else (success, w) in
        if negb success
        then (success, emit (TxCmServRej (par_cm_service_type (par w)) (par_result (par w))) w)
        else (success, w)
    | _ => (success, w)
    end in
  if negb (fi_parent (w_arq w)) then w
  else parent_event env (PeMsc (if success then par_event_success (par w)
                                else par_event_failure (par w))) DNull w.

Definition arq_onenter (s prev : arq_state) w : world DB :=
  match s with PR_ARQ_S_DONE => proc_arq_vlr_dispatch_result prev w | _ => w end.

Definition arq_state_chg (s : arq_state) (secs T : Z) w : world DB :=
  state_chg proc_arq_vlr_fsm arq_onenter s secs T w.
Definition arq_tdef_chg (s : arq_state) w : world DB :=
  tdef_chg proc_arq_vlr_fsm arq_onenter s (parq_fsm_state_tdef (is_ps (cfg w))) w.

Definition proc_arq_fsm_done (gsm48_rej : Z) w : world DB :=
  let w := w <| par ::= fun p => p <| par_result := gsm48_rej |> |> in
  arq_state_chg PR_ARQ_S_DONE 0 0 w.

Definition assoc_par_with_subscr (v : vlr_subscr) w : Z * world DB :=
  let w := w <| vsub := v <| msc_conn_ref := Some (par_msc_conn_ref (par w)) |> |> in
  let w := w <| par ::= fun p => p <| par_vsub := true |> |> in
  call (SubscrAssoc (par_msc_conn_ref (par w))) w.

(** ** Nodes of the procedure *)

(** no TMSI reallocation at access *)
Definition _proc_arq_vlr_post_imei w : world DB := proc_arq_fsm_done 0 w.

(** no IMEI check at access *)
Definition _proc_arq_vlr_post_trace w : world DB := _proc_arq_vlr_post_imei w.

(** After Subscriber_Present_VLR; no tracing *)
Definition _proc_arq_vlr_post_pres w : world DB := _proc_arq_vlr_post_trace w.

(** After Update_Location_Child_VLR *)
Definition _proc_arq_vlr_node2_post_vlr w : world DB :=
  if negb (sub_dataconf_by_hlr_ind (vsub w))
  then proc_arq_fsm_done GSM48_REJECT_IMSI_UNKNOWN_IN_HLR w
  else
    let w := w <| vsub ::= fun v => v <| imsi_detached_flag := false |> |> in
    if ms_not_reachable_flag (vsub w) then
      (* Start Subscriber_Present_VLR *)
      let w := arq_state_chg PR_ARQ_S_WAIT_SUB_PRES 0 0 w in
      sub_pres_vlr_fsm_start env
        (fun p w => w <| par ::= fun q => q <| par_sub_pres_vlr_fsm := p |> |>)
        (PeArq PR_ARQ_E_PRES_RES) w
    else _proc_arq_vlr_post_pres w.

Definition _proc_arq_vlr_node2_post_ciph w : world DB :=
  let w := emit TxCommonId w in
  let w := w <| vsub ::= fun v => v <| conf_by_radio_contact_ind := true |> |> in
  if negb (loc_conf_in_hlr_ind (vsub w)) then
    let '(p, w) := upd_hlr_vlr_proc_start env (PeArq PR_ARQ_E_UPD_LOC_RES) w in
    let w := w <| par ::= fun q => q <| par_ul_child_fsm := p |> |> in
    arq_state_chg PR_ARQ_S_WAIT_UPD_LOC_CHILD 0 0 w
  else _proc_arq_vlr_node2_post_vlr w.

Definition is_cmc_smc_to_be_attempted (p : proc_arq_priv) : bool :=
  par_is_utran p || par_is_ciphering_to_be_attempted p.

Definition asci_service (s : cm_service) : bool :=
  match s with GSM48_CMSERV_VGCS | GSM48_CMSERV_VBS => true | _ => false end.

Definition _proc_arq_vlr_node2 w : world DB :=
  if negb (is_cmc_smc_to_be_attempted (par w))
     || (bool_decide (sec_ctx (vsub w) = VLR_SEC_CTX_NONE)
         && negb (par_is_ciphering_required (par w)))
     || asci_service (par_cm_service_type (par w))
  then _proc_arq_vlr_node2_post_ciph w
  else
    match sec_ctx (vsub w) with
    | VLR_SEC_CTX_NONE => proc_arq_fsm_done GSM48_REJECT_NETWORK_FAILURE w
    | _ =>
        let '(rc, w) := vlr_set_ciph_mode (sec_ctx (vsub w)) (retrieve_imeisv_ciphered (cfg w)) w in
        if negb (rc =? 0) then proc_arq_fsm_done GSM48_REJECT_NETWORK_FAILURE w
        else
          let w := w <| par ::= fun p => p <| par_implicitly_accepted := true |> |> in
          arq_state_chg PR_ARQ_S_WAIT_CIPH 0 0 w
    end.

Definition is_auth_to_be_attempted w : bool * world DB :=
  if par_authentication_required (par w) then (true, w)
  else if negb (par_is_ciphering_to_be_attempted (par w)) then (false, w)
  else
    let '(reused, v) := auth_try_reuse_tuple (cfg w) (par_key_seq (par w)) (vsub w) in
    (negb reused, w <| vsub := v |>).

(** after the IMSI is known *)
Definition proc_arq_vlr_fn_post_imsi w : world DB :=
  if negb (par_vsub (par w)) then osmo_panic w
  else
    let '(auth, w) := is_auth_to_be_attempted w in
    if auth then
      let w := arq_state_chg PR_ARQ_S_WAIT_AUTH 0 0 w in
      let '(p, w) := auth_fsm_start env (PeArq PR_ARQ_E_AUTH_RES) (PeArq PR_ARQ_E_AUTH_NO_INFO)
                       (PeArq PR_ARQ_E_AUTH_FAILURE) (par_is_r99 (par w)) (par_is_utran (par w)) w in
      w <| vsub ::= fun v => v <| auth_fsm := p |> |>
    else _proc_arq_vlr_node2 w.

(** ** Handlers of the states *)

(** the uses of the subscriber held during the lookup *)
Definition ARQ_USE_INIT : string := "proc_arq_vlr_fn_init".
Definition ARQ_USE_OBT_IMSI : string := "proc_arq_vlr_fn_w_obt_imsi".

Definition proc_arq_vlr_fn_init (event : arq_event) (data : vdata) w : world DB :=
  match event with
  | PR_ARQ_E_START =>
      let w := sync w in
      let found := if negb (par_by_tmsi (par w)) then db_find_by_imsi (db w) (par_imsi (par w))
                   else db_find_by_tmsi (db w) (par_tmsi (par w)) in
      match found with
      | Some v =>
          let v := vsub_use_add ARQ_USE_INIT 1 v in
          (* terminating the other FSM *)
          let w := match proc_arq_fsm v with
                   | FsmOther => emit (OtherArqDone GSM48_REJECT_NETWORK_FAILURE) w
                   | _ => w
                   end in
          let v := v <| proc_arq_fsm := FsmThis |> in
          let '(rc, w) := assoc_par_with_subscr v w in
          let w := if negb (rc =? 0) then proc_arq_fsm_done GSM48_REJECT_NETWORK_FAILURE w
                   else proc_arq_vlr_fn_post_imsi w in
          vlr_subscr_put ARQ_USE_INIT w
      | None =>
          if negb (par_by_tmsi (par w)) then proc_arq_fsm_done GSM48_REJECT_IMSI_UNKNOWN_IN_VLR w
          else if parq_retrieve_imsi (cfg w) then arq_tdef_chg PR_ARQ_S_WAIT_OBTAIN_IMSI w
          else proc_arq_fsm_done GSM48_REJECT_IMSI_UNKNOWN_IN_VLR w
      end
  | _ => osmo_panic w
  end.

(** ID REQ(IMSI) has returned *)
Definition proc_arq_vlr_fn_w_obt_imsi (event : arq_event) (data : vdata) w : world DB :=
  match event with
  | PR_ARQ_E_ID_IMSI =>
      let w := sync w in
      match db_find_by_imsi (db w) (par_imsi (par w)) with
      | None => proc_arq_fsm_done GSM48_REJECT_IMSI_UNKNOWN_IN_VLR w
      | Some v =>
          let v := vsub_use_add ARQ_USE_OBT_IMSI 1 v in
          let '(rc, w) := assoc_par_with_subscr v w in
          let w := if negb (rc =? 0) then proc_arq_fsm_done GSM48_REJECT_NETWORK_FAILURE w
                   else proc_arq_vlr_fn_post_imsi w in
          vlr_subscr_put ARQ_USE_OBT_IMSI w
      end
  | _ => osmo_panic w
  end.

(** Authenticate_VLR has completed *)
Definition proc_arq_vlr_fn_w_auth (event : arq_event) (data : vdata) w : world DB :=
  let cause := default GSM48_REJECT_NETWORK_FAILURE (data_cause data) in
  match event with
  | PR_ARQ_E_AUTH_RES => _proc_arq_vlr_node2 w
  | PR_ARQ_E_AUTH_FAILURE => proc_arq_fsm_done cause w
  | PR_ARQ_E_AUTH_NO_INFO =>
      (* Continue only if authentication is optional. *)
      if par_authentication_required (par w) then proc_arq_fsm_done cause w
      else _proc_arq_vlr_node2 w
  | _ => osmo_panic w
  end.

Definition proc_arq_vlr_fn_w_ciph (event : arq_event) (data : vdata) w : world DB :=
  match event with
  | PR_ARQ_E_CIPH_RES =>
      match data with
      | DCiph VLR_CIPH_COMPL => _proc_arq_vlr_node2_post_ciph w
      | _ => proc_arq_fsm_done GSM48_REJECT_ILLEGAL_MS w
      end
  | _ => osmo_panic w
  end.

Definition proc_arq_vlr_fn_w_upd_loc (event : arq_event) (data : vdata) w : world DB :=
  match event with
  | PR_ARQ_E_UPD_LOC_RES => _proc_arq_vlr_node2_post_vlr w | _ => osmo_panic w
  end.
Definition proc_arq_vlr_fn_w_pres (event : arq_event) (data : vdata) w : world DB :=
  match event with
  | PR_ARQ_E_PRES_RES => _proc_arq_vlr_post_pres w | _ => osmo_panic w
  end.
Definition proc_arq_vlr_fn_w_trace (event : arq_event) (data : vdata) w : world DB :=
  match event with
  | PR_ARQ_E_TRACE_RES => _proc_arq_vlr_post_trace w | _ => osmo_panic w
  end.
Definition proc_arq_vlr_fn_w_imei (event : arq_event) (data : vdata) w : world DB :=
  match event with
  | PR_ARQ_E_IMEI_RES => _proc_arq_vlr_post_imei w | _ => osmo_panic w
  end.
Definition proc_arq_vlr_fn_w_tmsi (event : arq_event) (data : vdata) w : world DB :=
  match event with
  | PR_ARQ_E_TMSI_ACK => proc_arq_fsm_done 0 w | _ => osmo_panic w
  end.

Definition arq_action (s : arq_state) (event : arq_event) (data : vdata) w : world DB :=
  match s with
  | PR_ARQ_S_INIT => proc_arq_vlr_fn_init event data w
  | PR_ARQ_S_WAIT_OBTAIN_IMSI => proc_arq_vlr_fn_w_obt_imsi event data w
  | PR_ARQ_S_WAIT_AUTH => proc_arq_vlr_fn_w_auth event data w
  | PR_ARQ_S_WAIT_CIPH => proc_arq_vlr_fn_w_ciph event data w
  | PR_ARQ_S_WAIT_UPD_LOC_CHILD => proc_arq_vlr_fn_w_upd_loc event data w
  | PR_ARQ_S_WAIT_SUB_PRES => proc_arq_vlr_fn_w_pres event data w
  | PR_ARQ_S_WAIT_TRACE_SUB => proc_arq_vlr_fn_w_trace event data w
  | PR_ARQ_S_WAIT_CHECK_IMEI => proc_arq_vlr_fn_w_imei event data w
  | PR_ARQ_S_WAIT_TMSI_ACK => proc_arq_vlr_fn_w_tmsi event data w
  | PR_ARQ_S_WAIT_CECK_CONF | PR_ARQ_S_DONE => w
  end.

Definition arq_fsm_dispatch (event : arq_event) (data : vdata) w : world DB :=
  dispatch proc_arq_vlr_fsm arq_action event data w.

Definition arq_fsm_timeout w : world DB := fsm_timer_expired proc_arq_vlr_fsm None w.

(** ** Start and cancel *)

Record arq_request : Type := mk_arq_request {
  aq_event_success : Z; aq_event_failure : Z; aq_conn : Z;
  aq_type : vlr_parq_type; aq_cm_service_type : cm_service; aq_mi : osmo_mobile_identity;
  aq_lai : osmo_location_area_id;
  aq_authentication_required : bool; aq_is_ciphering_to_be_attempted : bool;
  aq_is_ciphering_required : bool; aq_key_seq : Z; aq_is_r99 : bool; aq_is_utran : bool
}.

Definition vlr_proc_acc_req (q : arq_request) w : world DB :=
  let w := if aq_is_ciphering_required q && negb (aq_is_ciphering_to_be_attempted q)
           then osmo_panic w else w in
  match osmo_fsm_inst_alloc_child PR_ARQ_S_INIT (PeMsc (aq_event_failure q)) with
  | None => w
  | Some fi =>
      let w := w <| w_arq := fi |> in
      let w := w <| par := {|
        par_vsub := false; par_msc_conn_ref := aq_conn q; par_ul_child_fsm := FsmNull;
        par_sub_pres_vlr_fsm := FsmNull; par_event_success := aq_event_success q;
        par_event_failure := aq_event_failure q; par_type := aq_type q;
        par_cm_service_type := aq_cm_service_type q; par_result := 0; par_by_tmsi := false;
        par_imsi := ""; par_tmsi := 0; par_lai := aq_lai q;
        par_authentication_required := aq_authentication_required q;
        par_is_ciphering_to_be_attempted := aq_is_ciphering_to_be_attempted q;
        par_is_ciphering_required := aq_is_ciphering_required q;
        par_key_seq := aq_key_seq q; par_is_r99 := aq_is_r99 q; par_is_utran := aq_is_utran q;
        par_implicitly_accepted := false |} |> in
      match aq_mi q with
      | MiImsi i =>
          let w := w <| par ::= fun p =>
                     p <| par_imsi := strlcpy (GSM23003_IMSI_MAX_DIGITS + 1) i |>
                       <| par_by_tmsi := false |> |> in
          arq_dispatch env PR_ARQ_E_START DNull w
      | MiTmsi t =>
          let w := w <| par ::= fun p => p <| par_by_tmsi := true |>
                                           <| par_tmsi := t |> |> in
          arq_dispatch env PR_ARQ_E_START DNull w
      | _ => proc_arq_fsm_done GSM48_REJECT_INVALID_MANDANTORY_INF w
      end
  end.

Definition vlr_parq_cancel (gsm48_cause : Z) w : world DB :=
  match fi_state (w_arq w) with
  | PR_ARQ_S_DONE => w
  | _ => proc_arq_fsm_done gsm48_cause w
  end.
End arq.
