(* ===== verification/VlrSgs.v ===== *)
(** * The SGs association of a subscriber (src/libvlr/vlr_sgs_fsm.c, vlr_sgs.c)

    The SGs-UE state machine of 3GPP TS 29.118 4.2.2 and the operations that
    the SGs interface calls: location update, detach, paging with timer Ts5,
    TMSI reallocation. *)

From S2P Require Import Prelude OsmoFsm Gsm VlrTypes VlrSubscr VlrUse VlrAuthTuples VlrAuthFsm.
From S2P Require Import VlrLuSub VlrLu.

(** enum vlr_sgs_state_tmr *)
Definition SGS_STATE_TS5 : Z := 0.
Definition SGS_STATE_TS6_2 : Z := 1.

(** enum sgsap_sgs_cause, TS 29.118 9.4.18 *)
Definition SGSAP_SGS_CAUSE_MT_CSFB_REJ_USER : Z := 13.

Definition SGS_MME_NAME_LEN : nat := 55.

Inductive sgsap_imsi_det_noneps_type : Type :=
| SGSAP_ID_NONEPS_T_EXPLICIT_UE_NONEPS | SGSAP_ID_NONEPS_T_COMBINED_UE_EPS_NONEPS
| SGSAP_ID_NONEPS_T_IMPLICIT_UE_EPS_NONEPS | SGSAP_ID_NONEPS_OTHER (z : Z).

Inductive sgsap_imsi_det_eps_type : Type :=
| SGSAP_ID_EPS_T_NETWORK_INITIATED | SGSAP_ID_EPS_T_UE_INITIATED
| SGSAP_ID_EPS_T_EPS_NOT_ALLOWED | SGSAP_ID_EPS_OTHER (z : Z).

Section sgs.
Context {L : FsmLib} {DB : Type} {R : VlrRc} {VDB : VlrDb DB}.
Context (env : vlr_env DB).
Implicit Type w : world DB.

(** ** vlr_sgs_fsm.c *)

(** Send the SGs Association to NULL state immediately *)
Definition to_null w : world DB :=
  let w := sgs_state_chg SGS_UE_ST_NULL 0 0 w in
  let w := w <| vsub ::= fun v => v <| conf_by_radio_contact_ind := false |>
                                    <| tmsi_new := GSM_RESERVED_TMSI |> |> in
  let w := rehash_tmsi w in
  let w := vlr_subscr_set_last_used_eutran_plmn_id None w in
  hold "to_null"
    (fun w =>
       let w := if is_paging (vsub w) && sgs_cbs (vsub w)
                then sgs_paging_cb env SGSAP_SERV_IND_PAGING_TIMEOUT w else w in
       vlr_sgs_pag_stop w) w.

(** Initiate location update and change to SGS_UE_ST_LA_UPD_PRES state *)
Definition perform_lu w : world DB :=
  let error w :=
    let w := to_null w in
    sgs_response_cb env (mk_sgs_resp false false GSM48_REJECT_NETWORK_FAILURE) w in
  let '(rc, w) := if tmsi (vsub w) =? GSM_RESERVED_TMSI
                  then vlr_subscr_alloc_tmsi_call w else (0, w) in
  if negb (rc =? 0) then error w
  else
    let '(rc, w) := vlr_subscr_req_lu w in
    if negb (rc =? 0) then error w
    else
      let w := sgs_state_chg SGS_UE_ST_LA_UPD_PRES 0 0 w in
      w <| vsub ::= fun v => v <| ms_not_reachable_flag := false |> |>.

(** Respawn a pending paging *)
Definition respawn_paging w : world DB :=
  if vlr_sgs_pag_pend w then
    let w := vlr_sgs_pag_stop w in
    sgs_paging_cb env (sgs_paging_serv_ind (vsub w)) w
  else w.

(** Figure 4.2.2.1 SGs-NULL *)
Definition sgs_ue_fsm_null (event : sgs_event) (data : vdata) w : world DB :=
  match event with
  | SGS_UE_E_RX_LU_FROM_MME => perform_lu w
  | SGS_UE_E_TX_PAGING | SGS_UE_E_RX_PAGING_FAILURE | SGS_UE_E_RX_TMSI_REALLOC => w
  | SGS_UE_E_RX_SERVICE_REQ =>
      let w := w <| vsub ::= fun v => v <| conf_by_radio_contact_ind := true |> |> in
      sgs_state_chg SGS_UE_ST_ASSOCIATED 0 0 w
  | _ => osmo_panic w
  end.

(** the paging was rejected by the user: nothing changes *)
Definition rej_by_user (data : vdata) : bool :=
  match data with DSgsCause c => c =? SGSAP_SGS_CAUSE_MT_CSFB_REJ_USER | _ => false end.

(** Figure 4.2.2.1 SGs-LA-UPDATE-PRESENT *)
Definition sgs_ue_fsm_lau_present (event : sgs_event) (data : vdata) w : world DB :=
  match event with
  | SGS_UE_E_TX_LU_ACCEPT =>
      let w := w <| vsub ::= fun v => v <| conf_by_radio_contact_ind := true |>
                 <| sub_dataconf_by_hlr_ind := true |> <| loc_conf_in_hlr_ind := true |>
                 <| la_allowed := true |> <| imsi_detached_flag := false |> |> in
      let w := attach_use w in
      let w := emit SgsUpdateId w in
      let w := w <| vsub ::= fun v => v <| attached_via_ran := OSMO_RAT_EUTRAN_SGS |> |> in
      if negb (tmsi_new (vsub w) =? GSM_RESERVED_TMSI) then
        sgs_state_chg SGS_UE_ST_ASSOCIATED (sgs_timer_ts6_2 (sgs_timer (vsub w))) SGS_STATE_TS6_2 w
      else
        let w := sgs_mminfo_cb env w in
        let w := if vlr_sgs_pag_pend w then respawn_paging w else w in
        sgs_state_chg SGS_UE_ST_ASSOCIATED 0 0 w
  | SGS_UE_E_RX_PAGING_FAILURE => if rej_by_user data then w else to_null w
  | SGS_UE_E_TX_LU_REJECT | SGS_UE_E_RX_ALERT_FAILURE => to_null w
  | SGS_UE_E_TX_PAGING | SGS_UE_E_RX_TMSI_REALLOC | SGS_UE_E_RX_SERVICE_REQ => w
  | _ => osmo_panic w
  end.

(** Figure 4.2.2.1 SGs-ASSOCIATED *)
Definition sgs_ue_fsm_associated (event : sgs_event) (data : vdata) w : world DB :=
  match event with
  | SGS_UE_E_RX_TMSI_REALLOC =>
      if tmsi_new (vsub w) =? GSM_RESERVED_TMSI
      then sgs_state_chg SGS_UE_ST_ASSOCIATED 0 0 w
      else
        let w := w <| vsub ::= fun v => v <| tmsi := tmsi_new v |>
                                          <| tmsi_new := GSM_RESERVED_TMSI |> |> in
        let w := rehash_tmsi w in
        let w := sgs_mminfo_cb env w in
        let w := if vlr_sgs_pag_pend w then respawn_paging w else w in
        sgs_state_chg SGS_UE_ST_ASSOCIATED 0 0 w
  | SGS_UE_E_TX_PAGING | SGS_UE_E_RX_SGSAP_UE_UNREACHABLE | SGS_UE_E_RX_SERVICE_REQ => w
  | SGS_UE_E_RX_PAGING_FAILURE => if rej_by_user data then w else to_null w
  | SGS_UE_E_RX_ALERT_FAILURE => to_null w
  | SGS_UE_E_RX_LU_FROM_MME => perform_lu w
  | _ => osmo_panic w
  end.

(** Figure 4.2.2.1 From any of the three states (at the VLR) *)
Definition sgs_ue_fsm_allstate (event : sgs_event) (data : vdata) w : world DB :=
  match event with
  | SGS_UE_E_RX_DETACH_IND_FROM_MME | SGS_UE_E_RX_DETACH_IND_FROM_UE =>
      let w := w <| vsub ::= fun v => v <| imsi_detached_flag := true |> |> in
      let w := if lu_complete (vsub w)
               then w <| vsub ::= fun v => v <| expire_lu := VLR_SUBSCRIBER_NO_EXPIRATION |> |>
               else vlr_subscr_keep_incomplete_expiry w in
      to_null w
  | SGS_UE_E_RX_RESET_FROM_MME =>
      to_null (w <| vsub ::= fun v => v <| conf_by_radio_contact_ind := false |> |>)
  | SGS_UE_E_VLR_FAILURE | SGS_UE_E_RX_LU_FROM_A_IU_GS => to_null w
  | _ => osmo_panic w
  end.

(** libosmocore looks at the allstate mask first *)
Definition sgs_action (s : sgs_state) (event : sgs_event) (data : vdata) w : world DB :=
  if Z.testbit sgs_allstate_event_mask (sgs_event_num event)
  then sgs_ue_fsm_allstate event data w
  else
    match s with
    | SGS_UE_ST_NULL => sgs_ue_fsm_null event data w
    | SGS_UE_ST_LA_UPD_PRES => sgs_ue_fsm_lau_present event data w
    | SGS_UE_ST_ASSOCIATED => sgs_ue_fsm_associated event data w
    end.

Definition sgs_fsm_dispatch (event : sgs_event) (data : vdata) w : world DB :=
  dispatch sgs_ue_fsm sgs_action event data w.

Definition sgs_ue_fsm_timer_cb w : Z * world DB :=
  if fi_T (sgs_fsm (vsub w)) =? SGS_STATE_TS6_2 then
    (* Failed TMSI reallocation procedure *)
    let w := w <| vsub ::= fun v => v <| tmsi_new := GSM_RESERVED_TMSI |>
                                      <| tmsi := GSM_RESERVED_TMSI |> |> in
    (0, rehash_tmsi w)
  else (0, osmo_panic w).

Definition sgs_fsm_timeout w : world DB :=
  fsm_timer_expired sgs_ue_fsm (Some sgs_ue_fsm_timer_cb) w.
End sgs.

(** ** vlr_sgs.c *)

Section sgs_ops.
Context {L : FsmLib} {DB : Type} {R : VlrRc} {VDB : VlrDb DB}.
Context (env : vlr_env DB).
Implicit Type w : world DB.

Definition vlr_sgs_rx_service_req w : world DB :=
  sgs_dispatch env SGS_UE_E_RX_SERVICE_REQ DNull w.

Definition plmn_eqb (a b : Z * Z) : bool := bool_decide (a = b).

(** paging response on A/Iu from a Location Area different from the stored one *)
Definition vlr_sgs_paging_resp_from_a_iu (lai : osmo_location_area_id) w : world DB :=
  match fi_state (sgs_fsm (vsub w)) with
  | SGS_UE_ST_NULL => w
  | _ =>
      if lai_lac lai =? 0 then w
      else if plmn_eqb (lai_plmn (sgs_lai (vsub w))) (lai_plmn lai)
              && (lai_lac (sgs_lai (vsub w)) =? lai_lac lai) then w
      else sgs_dispatch env SGS_UE_E_RX_LU_FROM_A_IU_GS DNull w
  end.

(** The subscriber with an IMSI, held in use by [token] while [f] runs *)
Definition with_imsi (token : string) (i : string) (f : world DB -> world DB) w : world DB :=
  let w := sync w in
  match db_find_by_imsi (db w) i with
  | None => w
  | Some v => on_subscr v (hold token f) w
  end.

(** expiry of a subscriber after vlr_sgs_loc_update *)
Definition sgs_lu_expiry w : world DB :=
  match now w with
  | None => w
  | Some t =>
      if negb (X3212_secs (cfg w) =? 0)
      then w <| vsub ::= fun v => v <| expire_lu := t + X3212_secs (cfg w) |> |>
      else if negb (lu_complete (vsub w)) then
        let deadline := t + VLR_INCOMPLETE_LU_SECS in
        (* Do not refresh on every LU retry *)
        if (expire_lu (vsub w) =? VLR_SUBSCRIBER_NO_EXPIRATION) || (deadline <? expire_lu (vsub w))
        then w <| vsub ::= fun v => v <| expire_lu := deadline |> |>
        else w
      else w
  end.

(** The part of [vlr_sgs_loc_update] before the FSM has handled the request *)
Definition sgs_lu_request (c : vlr_sgs_cfg) (mme_name : string) (i : string)
    (last_eutran_plmn : option (Z * Z)) w : world DB :=
  let w := w <| vsub ::= fun v => v <| sgs_timer := c |> <| sgs_cbs := true |> |> in
  let w := set_imsi_call i w in
  let w := vlr_subscr_set_last_used_eutran_plmn_id last_eutran_plmn w in
  let w := w <| vsub ::= fun v =>
               v <| sgs_mme_name := strlcpy (SGS_MME_NAME_LEN + 1) mme_name |> |> in
  sgs_dispatch env SGS_UE_E_RX_LU_FROM_MME DNull w.

(** The part after: the location, in the record of the subscriber *)
Definition sgs_lu_store (new_lai : osmo_location_area_id) w : world DB :=
  let w := w <| vsub ::= fun v => v <| sgs_lai := new_lai |> <| cgi_lai := new_lai |>
                                    <| cs_lac := u8 (lai_lac new_lai) |> |> in
  sgs_lu_expiry w.

(** Perform an SGs location update. *)
Definition vlr_sgs_loc_update (c : vlr_sgs_cfg) (mme_name : string) (i : string)
    (new_lai : osmo_location_area_id) (last_eutran_plmn : option (Z * Z)) w : Z * world DB :=
  let w := sync w in
  match db_find_or_create_by_imsi (db w) i with
  | None => (- EINVAL, w)
  | Some (v, d) =>
      (0, on_subscr v
            (fun w =>
               let w := vlr_subscr_get VSUB_USE_SGS_LU w in
               match fi_state (sgs_fsm (vsub w)) with
               | SGS_UE_ST_LA_UPD_PRES => vlr_subscr_put VSUB_USE_SGS_LU w
               | _ => sgs_lu_store new_lai (sgs_lu_request c mme_name i last_eutran_plmn w)
               end) (w <| db := d |>))
  end.

(** the LOCATION UPDATE ACCEPT has been sent to the MME *)
Definition vlr_sgs_loc_update_acc_sent w : world DB :=
  let w := sgs_dispatch env SGS_UE_E_TX_LU_ACCEPT DNull w in
  let w :=
    if negb (X3212_secs (cfg w) =? 0) then
      match now w with
      | Some t => w <| vsub ::= fun v => v <| expire_lu := t + X3212_secs (cfg w) |> |>
      | None => w
      end
    else if T3212_secs (cfg w) =? 0
    then w <| vsub ::= fun v => v <| expire_lu := VLR_SUBSCRIBER_NO_EXPIRATION |> |>
    else vlr_subscr_enable_expire_lu w in
  let w := emit SgsAssocPersist w in
  vlr_sgs_lu_release w.

(** the LOCATION UPDATE REJECT has been sent to the MME *)
Definition vlr_sgs_loc_update_rej_sent w : world DB :=
  vlr_sgs_lu_release (sgs_dispatch env SGS_UE_E_TX_LU_REJECT DNull w).

(** Perform an SGs IMSI detach. *)
Definition vlr_sgs_imsi_detach (i : string) (type : sgsap_imsi_det_noneps_type) w : world DB :=
  with_imsi "vlr_sgs_imsi_detach" i
    (fun w =>
       let go evt := snd (vlr_subscr_expire (sgs_dispatch env evt DNull w)) in
       match fi_state (sgs_fsm (vsub w)), type with
       | SGS_UE_ST_NULL, SGSAP_ID_NONEPS_T_IMPLICIT_UE_EPS_NONEPS => w
       | _, SGSAP_ID_NONEPS_T_EXPLICIT_UE_NONEPS => go SGS_UE_E_RX_DETACH_IND_FROM_UE
       | _, _ => go SGS_UE_E_RX_DETACH_IND_FROM_MME
       end) w.

(** Perform an SGs EPS detach. *)
Definition vlr_sgs_eps_detach (i : string) (type : sgsap_imsi_det_eps_type) w : world DB :=
  with_imsi "vlr_sgs_eps_detach" i
    (fun w =>
       let evt := match type with
                  | SGSAP_ID_EPS_T_UE_INITIATED => SGS_UE_E_RX_DETACH_IND_FROM_UE
                  | _ => SGS_UE_E_RX_DETACH_IND_FROM_MME
                  end in
       let w := sgs_dispatch env evt DNull w in
       let w := if expire_lu (vsub w) =? VLR_SUBSCRIBER_NO_EXPIRATION
                then vlr_subscr_enable_expire_lu w else w in
       emit (SgsAssocForget i) w) w.

Definition vlr_sgs_tmsi_reall_compl (i : string) w : world DB :=
  with_imsi "vlr_sgs_tmsi_reall_compl" i (sgs_dispatch env SGS_UE_E_RX_TMSI_REALLOC DNull) w.

Definition vlr_sgs_pag_rej (i : string) (cause : Z) w : world DB :=
  with_imsi "vlr_sgs_pag_rej" i
    (fun w => vlr_sgs_pag_stop (sgs_dispatch env SGS_UE_E_RX_PAGING_FAILURE (DSgsCause cause) w)) w.

Definition vlr_sgs_pag_ack (i : string) w : world DB :=
  with_imsi "vlr_sgs_pag_ack" i vlr_sgs_pag_stop w.

Definition vlr_sgs_ue_unr (i : string) (cause : Z) w : world DB :=
  with_imsi "vlr_sgs_ue_unr" i
    (fun w => vlr_sgs_pag_stop
                (sgs_dispatch env SGS_UE_E_RX_SGSAP_UE_UNREACHABLE (DSgsCause cause) w)) w.

(** an SGs paging request has timed out; the timer is no longer pending *)
Definition Ts5_timeout_cb w : world DB :=
  let w := w <| vsub ::= fun v => v <| sgs_Ts5_pending := false |> |> in
  hold "Ts5_timeout_cb"
    (fun w =>
       let w := if is_paging (vsub w) && sgs_cbs (vsub w)
                then sgs_paging_cb env SGSAP_SERV_IND_PAGING_TIMEOUT w else w in
       let w := vlr_subscr_put VSUB_USE_SGS_PAGING_REQ w in
       sgs_pag_inflight_dec w) w.

(** a paging message has been sent and a paging is now in progress *)
Definition vlr_sgs_pag (serv_ind : sgsap_service_ind) w : world DB :=
  let already_paging := sgs_Ts5_pending (vsub w) in
  let w := w <| vsub ::= fun v => v <| sgs_Ts5_pending := true |> |> in
  let w := sgs_dispatch env SGS_UE_E_TX_PAGING DNull w in
  let w := w <| vsub ::= fun v => v <| sgs_paging_serv_ind := serv_ind |> |> in
  if negb already_paging then
    let w := vlr_subscr_get VSUB_USE_SGS_PAGING_REQ w in
    sgs_pag_inflight_inc w
  else w.
End sgs_ops.
