(* ===== verification/Paging.v ===== *)
(** * Paging (src/libmsc/paging.c)

    Paging requests of a subscriber: the first one pages on the RAN the
    subscriber is attached to and holds the subscriber in use, later ones wait
    for the same response, and the response or the expiry serves them all. *)

From S2P Require Import Prelude OsmoFsm Gsm VlrTypes VlrSubscr VlrUse.

Definition VSUB_USE_PAGING : string := "Paging".

(** sgs_serv_ind_from_paging_cause (src/libmsc/sgs_iface.c) *)
Definition sgs_serv_ind_from_paging_cause (c : paging_cause) : sgsap_service_ind :=
  match c with
  | PAGING_CAUSE_CALL_CONVERSATIONAL | PAGING_CAUSE_CALL_STREAMING
  | PAGING_CAUSE_CALL_INTERACTIVE | PAGING_CAUSE_CALL_BACKGROUND => SGSAP_SERV_IND_CS_CALL
  | PAGING_CAUSE_UNSPECIFIED | PAGING_CAUSE_SIGNALLING_LOW_PRIO
  | PAGING_CAUSE_SIGNALLING_HIGH_PRIO => SGSAP_SERV_IND_SMS
  end.

Section paging.
Context {L : FsmLib} {DB : Type} {R : VlrRc} {VDB : VlrDb DB}.
Implicit Type w : world DB.

(** ** End of a paging *)

(** one pass of the loop over the requests: the request is removed, then its
    callback runs *)
Definition paging_conclude_one (success : bool) w (pr : paging_request) : world DB :=
  let w := w <| vsub ::= fun v => v <| cs_requests ::= tail |> |> in
  match pr_cb pr with
  | Some cb => emit (PagingCb cb success) w
  | None => w
  end.

(** [success] is [msc_a != NULL] *)
Definition paging_concludes (success : bool) w : world DB :=
  let w := w <| vsub ::= fun v => v <| cs_paging_response_timer := false |> |> in
  let w := fold_left (paging_conclude_one success) (cs_requests (vsub w)) w in
  (* Inform parts of the system we don't know *)
  let w := emit (PagingSignal success) w in
  (* balanced with the moment we start paging *)
  let w := if is_paging (vsub w) then
             let w := w <| vsub ::= fun v => v <| is_paging := false |> |> in
             vlr_subscr_put VSUB_USE_PAGING w
           else w in
  if success then emit MscAPutPagingResponse w else w.

Definition paging_response w : world DB := paging_concludes true w.
Definition paging_expired w : world DB := paging_concludes false w.

(** a request that its owner gives up, before there is a response *)
Definition paging_request_remove (n : nat) w : world DB :=
  w <| vsub ::= fun v => v <| cs_requests ::= fun l => take n l ++ drop (S n) l |> |>.

(** ** Start of a paging *)

(** sgs_iface_paging_cb and sgs_iface_tx_serv_abrt, the SGs side *)
Context (sgs_iface_paging_cb : sgsap_service_ind -> world DB -> Z * world DB).
Context (sgs_iface_tx_serv_abrt : world DB -> world DB).

Definition paging_response_timer_cb w : world DB :=
  let w := w <| vsub ::= fun v => v <| cs_paging_response_timer := false |> |> in
  hold "paging_response_timer_cb"
    (fun w =>
       let w := match attached_via_ran (vsub w) with
                | OSMO_RAT_EUTRAN_SGS => sgs_iface_tx_serv_abrt w
                | _ => w
                end in
       paging_expired w) w.

(** Returns the number of delivered paging requests or a negative error *)
Definition msc_paging_request (pr : paging_request) w : Z * world DB :=
  match attached_via_ran (vsub w) with
  | OSMO_RAT_GERAN_A => call (RanPaging OSMO_RAT_GERAN_A (pr_cause pr)) w
  | OSMO_RAT_UTRAN_IU => call (RanPaging OSMO_RAT_UTRAN_IU (pr_cause pr)) w
  | OSMO_RAT_EUTRAN_SGS =>
      sgs_iface_paging_cb (sgs_serv_ind_from_paging_cause (pr_cause pr)) w
  | OSMO_RAT_UNKNOWN => (- EINVAL, w)
  end.

(** whether a request was queued *)
Definition paging_request_start (cause : paging_cause) (cb : option Z) w : bool * world DB :=
  let pr := mk_paging_request cause cb in
  let queue w := w <| vsub ::= fun v => v <| cs_requests ::= fun l => l ++ [pr] |> |> in
  if is_paging (vsub w) then (true, queue w)
  else
    let '(rc, w) := msc_paging_request pr w in
    if rc <=? 0 then (false, w)
    else
      (* reduced on the first paging callback *)
      let w := vlr_subscr_get VSUB_USE_PAGING w in
      let w := w <| vsub ::= fun v => v <| is_paging := true |>
                                        <| cs_paging_response_timer := true |> |> in
      (true, queue w).
End paging.
