(* ===== verification/SgsIface.v ===== *)
(** * The callbacks of the SGs interface (src/libmsc/sgs_iface.c)

    What the VLR calls on the SGs interface: the response to a location
    update, MM information, and paging.  The table of MME connections is a
    parameter. *)

From S2P Require Import Prelude OsmoFsm Gsm VlrTypes VlrSubscr VlrUse VlrSgs Paging.

Definition SGS_MAX_UNCONFIRMED_PAGES : Z := 64.

(** The MME connections and the network's configuration:
    [mme_by_fqdn n] is [None] when no MME of that name is known, and otherwise
    tells whether it has a connection *)
Class SgsState : Type := {
  mme_by_fqdn : string -> option bool;
  send_mm_info : bool
}.

Section sgs_iface.
Context {L : FsmLib} {DB : Type} {VDB : VlrDb DB} {S : SgsState}.
Context (env : vlr_env DB).
Implicit Type w : world DB.

(** mme && mme->conn *)
Definition mme_conn w : bool := default false (mme_by_fqdn (sgs_mme_name (vsub w))).

(** sgs_mme_ctx_by_vsub: an MME with a connection; a connected MME always has
    its SGs state *)
Definition sgs_mme_ctx_by_vsub w : bool :=
  match mme_by_fqdn (sgs_mme_name (vsub w)) with
  | None => false
  | Some conn => conn
  end.

(** the Reject Cause IE, an [uint8_t] *)
Definition sgs_lu_rej_cause (r : sgs_lu_response) : Z :=
  if negb (resp_cause r =? 0) then u8 (resp_cause r) else GSM48_REJECT_NETWORK_FAILURE.

(** transmits the location update response or reject *)
Definition sgs_tx_loc_upd_resp_cb (r : sgs_lu_response) w : world DB :=
  let tx o w := if mme_conn w then emit o w else w in
  if resp_error r
  then vlr_sgs_loc_update_rej_sent env (tx (SgsTxLuRej (sgs_lu_rej_cause r)) w)
  else if resp_accepted r then
    let new_id := if negb (tmsi_new (vsub w) =? GSM_RESERVED_TMSI)
                  then Some (tmsi_new (vsub w)) else None in
    vlr_sgs_loc_update_acc_sent env (tx (SgsTxLuAck new_id) w)
  else vlr_sgs_loc_update_rej_sent env (tx (SgsTxLuRej (sgs_lu_rej_cause r)) w).

(** transmits MM information to the UE *)
Definition sgs_tx_mm_info_cb w : world DB :=
  if negb send_mm_info then w
  else if sgs_mme_ctx_by_vsub w then emit SgsTxMmInfo w
  else w.

Definition is_cs_call (s : sgsap_service_ind) : bool :=
  match s with SGSAP_SERV_IND_CS_CALL => true | _ => false end.

(** Page UE through SGs interface or inform about an expired paging *)
Definition sgs_iface_paging_cb (serv_ind : sgsap_service_ind) w : Z * world DB :=
  match serv_ind with
  | SGSAP_SERV_IND_PAGING_TIMEOUT => (0, paging_expired w)
  | _ =>
      if imsi_detached_flag (vsub w) then (- EINVAL, w)
      else if negb (is_cs_call serv_ind) && negb (conf_by_radio_contact_ind (vsub w))
              && negb (vlr_sgs_pag_pend w) && (SGS_MAX_UNCONFIRMED_PAGES <=? pag_inflight w)
      then (0, w)
      else if bool_decide (fi_state (sgs_fsm (vsub w)) = SGS_UE_ST_NULL)
              && conf_by_radio_contact_ind (vsub w)
      then (- EINVAL, w)
      else if negb (sgs_mme_ctx_by_vsub w) then (- EINVAL, w)
      else if vlr_sgs_pag_pend w then (0, w)
      else
        let lai := if conf_by_radio_contact_ind (vsub w) then Some (sgs_lai (vsub w)) else None in
        let w := emit (SgsTxPagingReq serv_ind lai) w in
        (1, vlr_sgs_pag env serv_ind w)
  end.

(** the service abort procedure is only defined for MT calls *)
Definition sgs_iface_tx_serv_abrt w : world DB :=
  if negb (is_cs_call (sgs_paging_serv_ind (vsub w))) then w
  else if sgs_mme_ctx_by_vsub w then emit SgsTxServAbort w
  else w.
End sgs_iface.
