(* ===== verification/VlrSystem.v ===== *)
(** * The VLR as a whole (src/libvlr/vlr.c)

    The procedures dispatch events to each other: the knot is tied here.  Then
    the operations through which the MSC and the HLR drive them: responses of
    the MS, GSUP messages, detach, expiry and loss of the connection. *)

From S2P Require Import Prelude OsmoFsm Gsm VlrTypes VlrSubscr VlrUse VlrAuthTuples VlrAuthFsm.
From S2P Require Import VlrLuSub VlrLu VlrArq VlrSgs Paging SgsIface.

(** ** Tying the knot

    Events go through at most [n] nested levels; a deeper one is dropped and
    [out_of_fuel] is set. *)
Definition vlr_system {L : FsmLib} {DB : Type} {R : VlrRc} {BC : BcdCodec} {VDB : VlrDb DB}
    {S : SgsState} : nat -> vlr_env DB :=
  fix go (n : nat) : vlr_env DB :=
    match n with
    | O =>
        let cut (w : world DB) := w <| out_of_fuel := true |> in
        {| lu_dispatch _ _ := cut; arq_dispatch _ _ := cut; compl_dispatch _ _ := cut;
           upd_dispatch _ _ := cut; pres_dispatch _ _ := cut; auth_dispatch _ _ := cut;
           sgs_dispatch _ _ := cut; sgs_response_cb _ := cut; sgs_paging_cb _ := cut;
           sgs_mminfo_cb := cut |}
    | S m =>
        {| lu_dispatch e d w := lu_fsm_dispatch (go m) e d (emit (FsmEvent (PeLu e) d) w);
           arq_dispatch e d w := arq_fsm_dispatch (go m) e d (emit (FsmEvent (PeArq e) d) w);
           compl_dispatch e d w :=
             lu_compl_fsm_dispatch (go m) e d (emit (FsmEvent (PeCompl e) d) w);
           upd_dispatch := upd_hlr_fsm_dispatch (go m);
           pres_dispatch := sub_pres_fsm_dispatch (go m);
           auth_dispatch := auth_fsm_dispatch (go m);
           sgs_dispatch := sgs_fsm_dispatch (go m);
           sgs_response_cb := sgs_tx_loc_upd_resp_cb (go m);
           sgs_paging_cb s w := snd (sgs_iface_paging_cb (go m) s w);
           sgs_mminfo_cb := sgs_tx_mm_info_cb |}
    end.

(** gsm48_decode_bcd_number2 of libosmogsm, into a buffer of the given size *)
Class BcdDecoder : Type := gsm48_decode_bcd_number2 : nat -> list Z -> string.

(** sizeof(vsub->hlr.buf) *)
Definition HLR_BUF_SIZE : nat := 16.

(** OSMO_GSUP_IS_MSGT_REQUEST of osmocom/gsm/gsup.h *)
Definition gsup_is_request (t : gsup_msgt) : bool :=
  match t with
  | OSMO_GSUP_MSGT_UPDATE_LOCATION_REQUEST | OSMO_GSUP_MSGT_SEND_AUTH_INFO_REQUEST
  | OSMO_GSUP_MSGT_AUTH_FAIL_REPORT | OSMO_GSUP_MSGT_PURGE_MS_REQUEST
  | OSMO_GSUP_MSGT_INSERT_DATA_REQUEST | OSMO_GSUP_MSGT_DELETE_DATA_REQUEST
  | OSMO_GSUP_MSGT_LOCATION_CANCEL_REQUEST | OSMO_GSUP_MSGT_CHECK_IMEI_REQUEST => true
  | OSMO_GSUP_MSGT_OTHER t => Z.land t 3 =? 0
  | _ => false
  end.

Section vlr.
Context {L : FsmLib} {DB : Type} {R : VlrRc} {BC : BcdCodec} {BD : BcdDecoder} {VDB : VlrDb DB}.
Context (env : vlr_env DB).
Implicit Type w : world DB.

(** ** Events for the procedures of a subscriber, by the pointers of the record *)

Definition auth_via (e : auth_event) (d : vdata) w : world DB :=
  match auth_fsm (vsub w) with FsmThis => auth_dispatch env e d w | _ => w end.
Definition lu_via (e : lu_event) (d : vdata) w : world DB :=
  match lu_fsm (vsub w) with FsmThis => lu_dispatch env e d w | _ => w end.
Definition arq_via (e : arq_event) (d : vdata) w : world DB :=
  match proc_arq_fsm (vsub w) with FsmThis => arq_dispatch env e d w | _ => w end.

Definition has_fsm (p : fsm_ptr) : bool := match p with FsmNull => false | _ => true end.

(** ** Cancelling *)

Definition vlr_subscr_cancel_attach_fsm (fsm_cause : term_cause) (gsm48_cause : Z) w : world DB :=
  hold "vlr_subscr_cancel_attach_fsm"
    (fun w =>
       let w := match lu_fsm (vsub w) with
                | FsmThis => vlr_loc_update_cancel env gsm48_cause w
                | FsmOther => emit (OtherLuCancel gsm48_cause) w
                | FsmNull => w
                end in
       let w := match proc_arq_fsm (vsub w) with
                | FsmThis => vlr_parq_cancel env gsm48_cause w
                | FsmOther => emit (OtherArqDone gsm48_cause) w
                | FsmNull => w
                end in
       match auth_fsm (vsub w) with
       | FsmThis => osmo_fsm_inst_term (vlr_auth_fsm env) fsm_cause DNull w
       | _ => w
       end) w.

Definition vlr_ran_conn_timeout w : world DB :=
  vlr_subscr_cancel_attach_fsm OSMO_FSM_TERM_TIMEOUT GSM48_REJECT_CONGESTION w.

(** MSC->VLR: Subscriber has disconnected *)
Definition vlr_subscr_disconnected w : world DB :=
  let w := match lu_fsm (vsub w) with
           | FsmThis => osmo_fsm_inst_term (vlr_lu_fsm env) OSMO_FSM_TERM_REQUEST DNull w
           | _ => w
           end in
  let w := match auth_fsm (vsub w) with
           | FsmThis => osmo_fsm_inst_term (vlr_auth_fsm env) OSMO_FSM_TERM_REQUEST DNull w
           | _ => w
           end in
  w <| vsub ::= fun v => v <| msc_conn_ref := None |> |>.

(** ** Detach and expiry *)

Definition vlr_subscr_discard_incomplete w : world DB :=
  hold "vlr_subscr_discard_incomplete"
    (fun w =>
       let w := vlr_subscr_cancel_attach_fsm OSMO_FSM_TERM_ERROR GSM48_REJECT_CONGESTION w in
       let w := vlr_sgs_lu_release w in
       let w := vlr_sgs_pag_stop w in
       let w := w <| vsub ::= fun v => v <| imsi_detached_flag := true |> |> in
       if 1 <? vsub_use_total (vsub w) then vlr_subscr_keep_incomplete_expiry w else w) w.

Definition vlr_subscr_detach w : Z * world DB :=
  hold_rc "vlr_subscr_detach"
    (fun w =>
       let w := vlr_subscr_cancel_attach_fsm OSMO_FSM_TERM_ERROR GSM48_REJECT_CONGESTION w in
       let w := vlr_sgs_lu_release w in
       let '(rc, w) := if negb (imsi_detached_flag (vsub w)) then vlr_subscr_purge w else (0, w) in
       let w := w <| vsub ::= fun v => v <| imsi_detached_flag := true |> |> in
       let w := sgs_dispatch env SGS_UE_E_RX_DETACH_IND_FROM_UE DNull w in
       let '(_, w) := vlr_subscr_expire w in
       (rc, vlr_subscr_keep_incomplete_expiry w)) w.

Definition vlr_subscr_rx_imsi_detach w : Z * world DB :=
  vlr_subscr_detach (emit (RateCtr VLR_CTR_DETACH_BY_REQ 1) w).

Definition VLR_EXPIRE_MAX_PER_TICK : nat := 4096.

(** the loop body of [vlr_subscr_expire_lu] for one subscriber: whether it was
    removed, and the world *)
Definition expire_one (t : Z) w : bool * world DB :=
  let v := vsub w in
  let due := negb (expire_lu v =? VLR_SUBSCRIBER_NO_EXPIRATION) && (expire_lu v <=? t) in
  let stray := negb (lu_complete v) && (expire_lu v =? VLR_SUBSCRIBER_NO_EXPIRATION) in
  if negb due && negb stray then (false, w)
  else
    let w := emit (RateCtr VLR_CTR_DETACH_BY_T3212 1) w in
    (true, if lu_complete v then snd (vlr_subscr_detach w) else vlr_subscr_discard_incomplete w).

(** [n] more records may be removed in this tick *)
Fixpoint expire_lu_loop (n : nat) (l : list vlr_subscr) (t : Z) w : world DB :=
  match l with
  | [] => w
  | v :: l' =>
      match n with
      | O => expire_lu_loop n l' t w
      | S m =>
          let removed := fst (expire_one t (w <| vsub := v |>)) in
          expire_lu_loop (if removed then m else n) l' t
            (on_subscr v (fun w => snd (expire_one t w)) w)
      end
  end.

Definition vlr_subscr_expire_lu w : world DB :=
  let w := sync w in
  match now w with
  | None => w
  | Some t => expire_lu_loop VLR_EXPIRE_MAX_PER_TICK (db_subscribers (db w)) t w
  end.

(** ** Messages of the MS *)

Definition vlr_subscr_rx_auth_fail (auts : option (list Z)) w : world DB :=
  auth_via VLR_AUTH_E_MS_AUTH_FAIL (DAuthPar (mk_auth_par false false None 0 auts)) w.

Definition vlr_subscr_rx_auth_resp (is_r99 is_utran : bool) (res : option (list Z)) (res_len : Z)
    w : world DB :=
  auth_via VLR_AUTH_E_MS_AUTH_RESP (DAuthPar (mk_auth_par is_r99 is_utran res res_len None)) w.

Definition vlr_subscr_rx_ciph_res (result : vlr_ciph_result_cause) w : world DB :=
  let w := match lu_fsm (vsub w), fi_state (w_lu w) with
           | FsmThis, VLR_ULA_S_WAIT_CIPH => lu_dispatch env VLR_ULA_E_CIPH_RES (DCiph result) w
           | _, _ => w
           end in
  match proc_arq_fsm (vsub w), fi_state (w_arq w) with
  | FsmThis, PR_ARQ_S_WAIT_CIPH => arq_dispatch env PR_ARQ_E_CIPH_RES (DCiph result) w
  | _, _ => w
  end.

(** MSC->VLR: Subscriber has provided IDENTITY RESPONSE; the result tells
    whether the identity was of a known type *)
Definition vlr_subscr_rx_id_resp (mi : osmo_mobile_identity) w : world DB :=
  match mi with
  | MiImsi i =>
      let w := if str_nonempty (imsi (vsub w)) && negb (vlr_subscr_matches_imsi (vsub w) i)
               then w else set_imsi_call i w in
      if has_fsm (auth_fsm (vsub w)) then auth_via VLR_AUTH_E_MS_ID_IMSI (DImsi i) w
      else lu_via VLR_ULA_E_ID_IMSI (DImsi i) w
  | MiImei i =>
      lu_via VLR_ULA_E_ID_IMEI (DImsi i) (w <| vsub ::= vlr_subscr_set_imei i |>)
  | MiImeisv i =>
      lu_via VLR_ULA_E_ID_IMEISV (DImsi i) (w <| vsub ::= vlr_subscr_set_imeisv i |>)
  | _ => w
  end.

Definition vlr_subscr_rx_tmsi_reall_compl w : world DB :=
  if has_fsm (lu_fsm (vsub w)) then lu_via VLR_ULA_E_NEW_TMSI_ACK DNull w
  else arq_via PR_ARQ_E_TMSI_ACK DNull w.

Definition vlr_subscr_rx_rau_complete w : world DB := lu_via VLR_ULA_E_NEW_TMSI_ACK DNull w.

(** ** Messages of the HLR *)

Definition vlr_subscr_handle_sai_res (g : osmo_gsup_message) w : Z * world DB :=
  if negb (has_fsm (auth_fsm (vsub w))) then (-1, w)
  else
    match g_type g with
    | OSMO_GSUP_MSGT_SEND_AUTH_INFO_RESULT => (0, auth_via VLR_AUTH_E_HLR_SAI_ACK (DGsup g) w)
    | OSMO_GSUP_MSGT_SEND_AUTH_INFO_ERROR => (0, auth_via VLR_AUTH_E_HLR_SAI_NACK (DGsup g) w)
    | _ => (-1, w)
    end.

(** the circuit switched part of the subscriber data *)
Definition vlr_subscr_gsup_insert_data (g : osmo_gsup_message) (v : vlr_subscr) : vlr_subscr :=
  let v := match g_msisdn_enc g with
           | [] => v
           | enc => v <| msisdn := gsm48_decode_bcd_number2 (GSM23003_MSISDN_MAX_DIGITS + 1) enc |>
           end in
  match g_hlr_enc g with
  | None => v
  | Some h => if Nat.ltb HLR_BUF_SIZE (length h) then v <| hlr := [] |> else v <| hlr := h |>
  end.

Definition vlr_subscr_handle_isd_req (g : osmo_gsup_message) w : Z * world DB :=
  let w := emit (RateCtr VLR_CTR_GSUP_TX_ISD_RES 1) w in
  let w := w <| vsub ::= vlr_subscr_gsup_insert_data g |> in
  let w := emit SubscrUpdate w in
  vlr_subscr_tx_gsup_message (empty_gsup OSMO_GSUP_MSGT_INSERT_DATA_RESULT) w.

Definition sgs_lu_in_progress w : bool :=
  bool_decide (fi_state (sgs_fsm (vsub w)) = SGS_UE_ST_LA_UPD_PRES).

Definition vlr_subscr_handle_lu_res (g : osmo_gsup_message) w : Z * world DB :=
  if negb (has_fsm (lu_fsm (vsub w))) && negb (sgs_lu_in_progress w) then (- ENODEV, w)
  else
    let sgs := sgs_lu_in_progress w in
    let w := w <| vsub ::= vlr_subscr_gsup_insert_data g |> in
    (0, if sgs then sgs_response_cb env (mk_sgs_resp true false 0) w
        else lu_via VLR_ULA_E_HLR_LU_RES DNull w).

(** the GMM cause is passed on as it is, except to the SGs interface *)
Definition vlr_subscr_handle_lu_err (g : osmo_gsup_message) w : Z * world DB :=
  if negb (has_fsm (lu_fsm (vsub w))) && negb (sgs_lu_in_progress w) then (- ENODEV, w)
  else
    (0, if sgs_lu_in_progress w
        then sgs_response_cb env
               (mk_sgs_resp false false (vlr_gmm_cause_to_reject_cause_domain (g_cause g) true)) w
        else lu_via VLR_ULA_E_HLR_LU_RES (DCause (g_cause g)) w).

(** Handle LOCATION CANCEL request from HLR *)
Definition vlr_subscr_handle_cancel_req (g : osmo_gsup_message) w : Z * world DB :=
  let w := emit (RateCtr VLR_CTR_GSUP_TX_CANCEL_RES 1) w in
  let '(rc, w) := vlr_subscr_tx_gsup_message
                    (empty_gsup OSMO_GSUP_MSGT_LOCATION_CANCEL_RESULT
                       <| g_cn_domain := Some (domain_of (cfg w)) |>) w in
  let w := vlr_subscr_cancel_attach_fsm OSMO_FSM_TERM_ERROR
             (vlr_gmm_cause_to_reject_cause_domain (g_cause g) true) w in
  let w := emit (RateCtr VLR_CTR_DETACH_BY_CANCEL 1) w in
  let '(_, w) := vlr_subscr_detach w in
  (rc, w).

Definition vlr_subscr_handle_check_imei (g : osmo_gsup_message) w : Z * world DB :=
  if negb (has_fsm (lu_fsm (vsub w))) then (- ENODEV, w)
  else
    match g_type g with
    | OSMO_GSUP_MSGT_CHECK_IMEI_RESULT =>
        (0, lu_via (if g_imei_ack g then VLR_ULA_E_HLR_IMEI_ACK else VLR_ULA_E_HLR_IMEI_NACK)
              DNull w)
    | _ => (0, lu_via VLR_ULA_E_HLR_IMEI_NACK DNull w)
    end.

Definition vlr_rx_gsup_unknown_imsi (g : osmo_gsup_message) w : Z * world DB :=
  (- GMM_CAUSE_IMSI_UNKNOWN,
   if gsup_is_request (g_type g) then emit (GsupErrorReply g GMM_CAUSE_IMSI_UNKNOWN) w else w).

Definition vlr_rx_gsup_purge_no_subscr (g : osmo_gsup_message) : Z :=
  match g_type g with
  | OSMO_GSUP_MSGT_PURGE_MS_ERROR => - g_cause g
  | _ => 0
  end.

Definition VLR_GSUP_RX : string := "vlr_gsup_rx".

(** a message for a known subscriber, between the get and the put *)
Definition vlr_gsup_rx_known (g : osmo_gsup_message) w : Z * world DB :=
  let ctr c := emit (RateCtr c 1) w in
  match g_type g with
  | OSMO_GSUP_MSGT_SEND_AUTH_INFO_RESULT =>
      vlr_subscr_handle_sai_res g (ctr VLR_CTR_GSUP_RX_SAI_RES)
  | OSMO_GSUP_MSGT_SEND_AUTH_INFO_ERROR =>
      vlr_subscr_handle_sai_res g (ctr VLR_CTR_GSUP_RX_SAI_ERR)
  | OSMO_GSUP_MSGT_INSERT_DATA_REQUEST =>
      vlr_subscr_handle_isd_req g (ctr VLR_CTR_GSUP_RX_ISD_REQ)
  | OSMO_GSUP_MSGT_LOCATION_CANCEL_REQUEST =>
      vlr_subscr_handle_cancel_req g (ctr VLR_CTR_GSUP_RX_CANCEL_REQ)
  | OSMO_GSUP_MSGT_UPDATE_LOCATION_RESULT =>
      vlr_subscr_handle_lu_res g (ctr VLR_CTR_GSUP_RX_UL_RES)
  | OSMO_GSUP_MSGT_UPDATE_LOCATION_ERROR =>
      vlr_subscr_handle_lu_err g (ctr VLR_CTR_GSUP_RX_UL_ERR)
  | OSMO_GSUP_MSGT_PURGE_MS_ERROR =>
      (- GMM_CAUSE_MSGT_NOTEXIST_NOTIMPL, ctr VLR_CTR_GSUP_RX_PURGE_MS_ERR)
  | OSMO_GSUP_MSGT_PURGE_MS_RESULT =>
      (- GMM_CAUSE_MSGT_NOTEXIST_NOTIMPL, ctr VLR_CTR_GSUP_RX_PURGE_MS_RES)
  | OSMO_GSUP_MSGT_DELETE_DATA_REQUEST =>
      (- GMM_CAUSE_MSGT_NOTEXIST_NOTIMPL, ctr VLR_CTR_GSUP_RX_DELETE_DATA_REQ)
  | OSMO_GSUP_MSGT_CHECK_IMEI_ERROR =>
      vlr_subscr_handle_check_imei g (ctr VLR_CTR_GSUP_RX_CHECK_IMEI_ERR)
  | OSMO_GSUP_MSGT_CHECK_IMEI_RESULT =>
      vlr_subscr_handle_check_imei g (ctr VLR_CTR_GSUP_RX_CHECK_IMEI_RES)
  | _ => (- EINVAL, ctr VLR_CTR_GSUP_RX_UNKNOWN)
  end.

(** Incoming handler for GSUP from HLR.  The return code only goes to the log. *)
Definition vlr_gsup_rx (g : osmo_gsup_message) w : world DB :=
  let w := sync w in
  let known v w :=
    on_subscr v (hold VLR_GSUP_RX (fun w => snd (vlr_gsup_rx_known g w))) w in
  let unknown_imsi :=
    snd (vlr_rx_gsup_unknown_imsi g (emit (RateCtr VLR_CTR_GSUP_RX_UNKNOWN_IMSI 1) w)) in
  match db_find_by_imsi (db w) (g_imsi g) with
  | Some v => known v w
  | None =>
      match g_type g with
      | OSMO_GSUP_MSGT_PURGE_MS_RESULT | OSMO_GSUP_MSGT_PURGE_MS_ERROR =>
          emit (RateCtr VLR_CTR_GSUP_RX_PURGE_NO_SUBSCR 1) w
      | OSMO_GSUP_MSGT_INSERT_DATA_REQUEST =>
          if str_empty (g_imsi g) then unknown_imsi
          else
            match db_find_or_create_by_imsi (db w) (g_imsi g) with
            | None => unknown_imsi
            | Some (v, d) => known v (w <| db := d |>)
            end
      | _ => unknown_imsi
      end
  end.

(** ** Loss of the link to the HLR *)

Definition VLR_GSUP_FAIL_MAX_PER_TICK : nat := 256.

Definition gsup_waits (v : vlr_subscr) : bool :=
  (bool_decide (fi_state (sgs_fsm v) = SGS_UE_ST_LA_UPD_PRES) && sgs_cbs v)
  || has_fsm (lu_fsm v).

(** the loop body of [vlr_gsup_fail_pending_cb] for one waiting subscriber *)
Definition gsup_fail_one w : world DB :=
  let sgs_wait := sgs_lu_in_progress w && sgs_cbs (vsub w) in
  hold "vlr_gsup_fail_pending_cb"
    (fun w =>
       let w := if sgs_wait
                then sgs_response_cb env (mk_sgs_resp false false GSM48_REJECT_NETWORK_FAILURE) w
                else w in
       let w := if has_fsm (lu_fsm (vsub w))
                then vlr_subscr_cancel_attach_fsm OSMO_FSM_TERM_ERROR GSM48_REJECT_NETWORK_FAILURE w
                else w in
       vlr_subscr_keep_incomplete_expiry w) w.

(** [n] more may be failed in this tick; the result tells whether some are left *)
Fixpoint gsup_fail_loop (n : nat) (l : list vlr_subscr) w : bool * world DB :=
  match l with
  | [] => (false, w)
  | v :: l' =>
      if negb (gsup_waits v) then gsup_fail_loop n l' w
      else
        match n with
        | O => (true, w)
        | S m => gsup_fail_loop m l' (on_subscr v gsup_fail_one w)
        end
  end.

(** [up] is vlr_gsup_is_up(vlr) *)
Definition vlr_gsup_fail_pending_cb (up : bool) w : bool * world DB :=
  if up then (false, w)
  else
    let w := sync w in
    gsup_fail_loop VLR_GSUP_FAIL_MAX_PER_TICK (db_subscribers (db w)) w.
End vlr.

(** ** Inputs

    Everything that can happen to the VLR from outside: requests of the MSC,
    messages of the MS, of the HLR and of the MME, expired timers. *)
Inductive vlr_input : Type :=
| InLocUpdate (q : lu_request)
| InAccReq (q : arq_request)
| InAuthFail (auts : option (list Z))
| InAuthResp (is_r99 is_utran : bool) (res : option (list Z)) (res_len : Z)
| InCiphRes (r : vlr_ciph_result_cause)
| InIdResp (mi : osmo_mobile_identity)
| InTmsiReallCompl
| InRauComplete
| InImsiDetach
| InDisconnected
| InCancelAttach (fsm_cause : term_cause) (gsm48_cause : Z)
| InConnTimeout
| InGsup (g : osmo_gsup_message)
| InExpireLu
| InGsupFailPending (up : bool)
| InLuTimer | InArqTimer | InAuthTimer | InComplTimer | InUpdTimer | InPresTimer | InSgsTimer
| InTs5Timer
| InPagingTimer
| InPagingStart (cause : paging_cause) (cb : option Z)
| InPagingResponse
| InPagingRemove (n : nat)
| InSgsLocUpdate (c : vlr_sgs_cfg) (mme_name i : string) (new_lai : osmo_location_area_id)
    (last_eutran_plmn : option (Z * Z))
| InSgsImsiDetach (i : string) (type : sgsap_imsi_det_noneps_type)
| InSgsEpsDetach (i : string) (type : sgsap_imsi_det_eps_type)
| InSgsTmsiReallCompl (i : string)
| InSgsPagRej (i : string) (cause : Z)
| InSgsPagAck (i : string)
| InSgsUeUnr (i : string) (cause : Z)
| InSgsServiceReq
| InSgsPagingRespFromAIu (lai : osmo_location_area_id).

(** An instance that was terminated has no timer *)
Definition if_alive {DB St : Type} (fi : fsm_inst St vlr_pe) (f : world DB -> world DB) (w : world DB)
  : world DB := if fi_terminating fi then w else f w.

(** An osmo_timer calls its callback only while it is pending. *)
Definition vlr_handle {L : FsmLib} {DB : Type} {R : VlrRc} {BC : BcdCodec} {BD : BcdDecoder}
    {VDB : VlrDb DB} {S : SgsState} (env : vlr_env DB) (i : vlr_input) (w : world DB) : world DB :=
  match i with
  | InLocUpdate q => snd (vlr_loc_update env q w)
  | InAccReq q => vlr_proc_acc_req env q w
  | InAuthFail a => vlr_subscr_rx_auth_fail env a w
  | InAuthResp r u res n => vlr_subscr_rx_auth_resp env r u res n w
  | InCiphRes r => vlr_subscr_rx_ciph_res env r w
  | InIdResp mi => vlr_subscr_rx_id_resp env mi w
  | InTmsiReallCompl => vlr_subscr_rx_tmsi_reall_compl env w
  | InRauComplete => vlr_subscr_rx_rau_complete env w
  | InImsiDetach => snd (vlr_subscr_rx_imsi_detach env w)
  | InDisconnected => vlr_subscr_disconnected env w
  | InCancelAttach c g => vlr_subscr_cancel_attach_fsm env c g w
  | InConnTimeout => vlr_ran_conn_timeout env w
  | InGsup g => vlr_gsup_rx env g w
  | InExpireLu => vlr_subscr_expire_lu env w
  | InGsupFailPending up => snd (vlr_gsup_fail_pending_cb env up w)
  | InLuTimer => if_alive (w_lu w) (lu_fsm_timeout env) w
  | InArqTimer => if_alive (w_arq w) (arq_fsm_timeout env) w
  | InAuthTimer => if_alive (w_auth w) (auth_fsm_timeout env) w
  | InComplTimer => if_alive (w_compl w) (lu_compl_fsm_timeout env) w
  | InUpdTimer => if_alive (w_upd w) (upd_hlr_fsm_timeout env) w
  | InPresTimer => if_alive (w_pres w) (sub_pres_fsm_timeout env) w
  | InSgsTimer => sgs_fsm_timeout w
  | InTs5Timer => if sgs_Ts5_pending (vsub w) then Ts5_timeout_cb env w else w
  | InPagingTimer =>
      if cs_paging_response_timer (vsub w)
      then paging_response_timer_cb sgs_iface_tx_serv_abrt w else w
  | InPagingStart c cb => snd (paging_request_start (sgs_iface_paging_cb env) c cb w)
  | InPagingResponse => paging_response w
  | InPagingRemove n => paging_request_remove n w
  | InSgsLocUpdate c m i l p => snd (vlr_sgs_loc_update env c m i l p w)
  | InSgsImsiDetach i t => vlr_sgs_imsi_detach env i t w
  | InSgsEpsDetach i t => vlr_sgs_eps_detach env i t w
  | InSgsTmsiReallCompl i => vlr_sgs_tmsi_reall_compl env i w
  | InSgsPagRej i c => vlr_sgs_pag_rej env i c w
  | InSgsPagAck i => vlr_sgs_pag_ack i w
  | InSgsUeUnr i c => vlr_sgs_ue_unr env i c w
  | InSgsServiceReq => vlr_sgs_rx_service_req env w
  | InSgsPagingRespFromAIu l => vlr_sgs_paging_resp_from_a_iu env l w
  end.

(** a sequence of inputs, each handled with at most [n] nested dispatches *)
Definition vlr_run {L : FsmLib} {DB : Type} {R : VlrRc} {BC : BcdCodec} {BD : BcdDecoder}
    {VDB : VlrDb DB} {S : SgsState} (n : nat) (l : list vlr_input) (w : world DB) : world DB :=
  fold_left (fun w i => vlr_handle (vlr_system n) i w) l w.
