(* ===== verification/VlrDb.v ===== *)
(** * The subscriber database (src/libvlr/vlr.c)

    The list of subscriber records with its three hash tables, lookup and
    creation of records, allocation of TMSIs, and the merging of two records
    that turn out to be the same subscriber.  A record is identified by its
    address; the tables hold addresses. *)

From S2P Require Import Prelude OsmoFsm Gsm VlrTypes VlrSubscr VlrUse Paging.

(** ** Libraries

    [imsi_bucket] and [tmsi_bucket] are the bucket numbers that the hash table
    of libosmocore computes from osmo_jhash of an IMSI and from a TMSI;
    [rand_id n] is the return code and the result of the n-th call of
    osmo_get_rand_id; [nri_limit] is osmo_tmsi_nri_v_limit_by_ranges when NRI
    ranges are configured. *)
Class DbLib : Type := {
  imsi_bucket : string -> Z;
  tmsi_bucket : Z -> Z;
  rand_id : nat -> Z * Z;
  nri_limit : option (Z -> Z);
  vlr_is_ps : bool
}.

(** a hash table: the chain of each bucket, newest first *)
Abbreviation hash_table := (gmap Z (list Z)).

(** what the database reports to other parts of the system *)
Inductive db_event : Type :=
| SubscrInval (ptr : Z)                   (* ops.subscr_inval(..., DUPLICATE_SUBSCR) *)
| CancelAttachFsm (ptr : Z) (cause : Z)   (* vlr_subscr_cancel_attach_fsm of a record *)
| SubscrFreed (ptr : Z).                  (* talloc_free of a record *)

#[projections(primitive)]
Record vlr_db : Type := mk_db {
  subscribers : list vlr_subscr;
  subscr_by_imsi : hash_table;
  subscr_by_tmsi : hash_table;
  subscr_by_tmsi_new : hash_table;
  next_ptr : Z;                           (* an address not yet allocated *)
  rand_pos : nat;                         (* calls of osmo_get_rand_id so far *)
  db_clock : option Z;                    (* osmo_clock_gettime *)
  db_log : list db_event
}.

(** ** Hash tables *)

Definition chain (t : hash_table) (b : Z) : list Z := default [] (t !! b).
Definition hash_del (p : Z) (t : hash_table) : hash_table := filter (fun q => q <> p) <$> t.
Definition hash_add (b p : Z) (t : hash_table) : hash_table := <[b := p :: chain t b]> t.

(** ** Records *)

Definition at_ptr (p : Z) (v : vlr_subscr) : bool := vs_ptr v =? p.

Definition db_lookup (d : vlr_db) (p : Z) : option vlr_subscr :=
  List.find (at_ptr p) (subscribers d).

(** store a changed record *)
Definition commit (v : vlr_subscr) (d : vlr_db) : vlr_db :=
  d <| subscribers ::= map (fun x => if at_ptr (vs_ptr v) x then v else x) |>.

Section db.
Context {DL : DbLib}.

Definition rehash_imsi (v : vlr_subscr) (t : hash_table) : hash_table :=
  let t := hash_del (vs_ptr v) t in
  if str_nonempty (imsi v) then hash_add (imsi_bucket (imsi v)) (vs_ptr v) t else t.

Definition vlr_subscr_rehash_imsi (v : vlr_subscr) (d : vlr_db) : vlr_db :=
  commit v d <| subscr_by_imsi ::= rehash_imsi v |>.

(** one of the two TMSI tables *)
Definition rehash_by (t : Z) (v : vlr_subscr) (h : hash_table) : hash_table :=
  let h := hash_del (vs_ptr v) h in
  if negb (t =? GSM_RESERVED_TMSI) then hash_add (tmsi_bucket t) (vs_ptr v) h else h.

Definition vlr_subscr_rehash_tmsi (v : vlr_subscr) (d : vlr_db) : vlr_db :=
  commit v d <| subscr_by_tmsi ::= rehash_by (tmsi v) v |>
             <| subscr_by_tmsi_new ::= rehash_by (tmsi_new v) v |>.

(** ** Lookup *)

(** hash_for_each_possible: the first record of a chain that matches *)
Fixpoint find_in_chain (d : vlr_db) (c : list Z) (matches : vlr_subscr -> bool)
  : option vlr_subscr :=
  match c with
  | [] => None
  | p :: c' =>
      match db_lookup d p with
      | Some v => if matches v then Some v else find_in_chain d c' matches
      | None => find_in_chain d c' matches
      end
  end.

Definition _vlr_subscr_find_by_imsi (d : vlr_db) (i : string) : option vlr_subscr :=
  if str_empty i then None
  else find_in_chain d (chain (subscr_by_imsi d) (imsi_bucket i))
         (fun v => vlr_subscr_matches_imsi v i).

Definition _vlr_subscr_find_by_tmsi (d : vlr_db) (t : Z) : option vlr_subscr :=
  if t =? GSM_RESERVED_TMSI then None
  else
    match find_in_chain d (chain (subscr_by_tmsi d) (tmsi_bucket t)) (fun v => tmsi v =? t) with
    | Some v => Some v
    | None =>
        find_in_chain d (chain (subscr_by_tmsi_new d) (tmsi_bucket t)) (fun v => tmsi_new v =? t)
    end.

Definition _vlr_subscr_find_by_msisdn (d : vlr_db) (m : string) : option vlr_subscr :=
  if str_empty m then None
  else List.find (fun v => str_nonempty (imsi v) && vlr_subscr_matches_msisdn v m) (subscribers d).

Definition _vlr_subscr_find_by_mi (d : vlr_db) (mi : osmo_mobile_identity) : option vlr_subscr :=
  match mi with
  | MiImsi i => _vlr_subscr_find_by_imsi d i
  | MiTmsi t => _vlr_subscr_find_by_tmsi d t
  | _ => None
  end.

(** ** Allocation *)

Definition _vlr_subscr_alloc (d : vlr_db) : vlr_subscr * vlr_db :=
  let v := new_vsub <| vs_ptr := next_ptr d |>
             <| expire_lu := match db_clock d with
                             | Some t => t + VLR_INCOMPLETE_LU_SECS
                             | None => VLR_SUBSCRIBER_NO_EXPIRATION
                             end |> in
  (v, d <| subscribers ::= fun l => l ++ [v] |> <| next_ptr ::= Z.succ |>).

(** llist_del and the hash_del calls of vlr_subscr_free *)
Definition unlink (v : vlr_subscr) (d : vlr_db) : vlr_db :=
  d <| subscribers ::= filter (fun x => vs_ptr x <> vs_ptr v) |>
    <| subscr_by_imsi ::= hash_del (vs_ptr v) |>
    <| subscr_by_tmsi ::= hash_del (vs_ptr v) |>
    <| subscr_by_tmsi_new ::= hash_del (vs_ptr v) |>.

(** one round of the loop of [vlr_subscr_alloc_tmsi]: the TMSI that is drawn,
    [None] when the dice is thrown again *)
Definition draw_tmsi (raw : Z) (d : vlr_db) : option Z :=
  let t := match nri_limit with Some f => f raw | None => raw end in
  if t =? GSM_RESERVED_TMSI then None
  else
    (* Section 2.4 of 23.003: MSC has two MSB 00/01/10, SGSN 11 *)
    let t := if vlr_is_ps then Z.lor t GSM23003_TMSI_SGSN_MASK
             else if Z.land t GSM23003_TMSI_SGSN_MASK =? GSM23003_TMSI_SGSN_MASK
                  then Z.land t (u32 (Z.lnot GSM23003_TMSI_SGSN_MASK))
                  else t in
    (* If this TMSI is already in use, try another one. *)
    match _vlr_subscr_find_by_tmsi d t with
    | Some _ => None
    | None => Some t
    end.

Fixpoint alloc_tmsi_loop (tries : nat) (v : vlr_subscr) (d : vlr_db) : Z * vlr_subscr * vlr_db :=
  match tries with
  | O => (-1, v, d)
  | S n =>
      let '(rc, raw) := rand_id (rand_pos d) in
      let d := d <| rand_pos ::= S |> in
      if rc <? 0 then (rc, v, d)
      else
        match draw_tmsi raw d with
        | None => alloc_tmsi_loop n v d
        | Some t =>
            let v := v <| tmsi_new := t |> in
            (0, v, vlr_subscr_rehash_tmsi v d)
        end
  end.

Definition vlr_subscr_alloc_tmsi (v : vlr_subscr) (d : vlr_db) : Z * vlr_subscr * vlr_db :=
  alloc_tmsi_loop 100 v (commit v d).

(** ** Merging *)

(** the two nested loops of [dedup_vsub]: a valid tuple of the old record goes
    to every free place of the new one *)
Definition dedup_tuples (old new : list vlr_auth_tuple) : list vlr_auth_tuple :=
  fold_left
    (fun acc o =>
       if key_seq o =? VLR_KEY_SEQ_INVAL then acc
       else map (fun n => if negb (key_seq n =? VLR_KEY_SEQ_INVAL) then n else o) acc)
    old new.

(** a use of a record other than the caller's is dropped: without any use the
    record is freed *)
Definition put_record (token : string) (v : vlr_subscr) (d : vlr_db) : vlr_subscr * vlr_db :=
  let v := vsub_use_add token (-1) v in
  if vsub_use_count token v <? 0 then (v, commit v d)
  else if vsub_use_total v <=? 0
       then (v, unlink v d <| db_log ::= cons (SubscrFreed (vs_ptr v)) |>)
  else (v, commit v d).

(** transfer any pending Paging requests to the record that will survive
    (src/libmsc/paging.c) *)
Definition paging_request_join_vsub (keep discarding : vlr_subscr) (d : vlr_db)
  : vlr_subscr * vlr_subscr * vlr_db :=
  if negb (is_paging discarding) then (keep, discarding, d)
  else
    (* transfer all Paging Response callbacks *)
    let keep := keep <| cs_requests ::= fun l => l ++ cs_requests discarding |> in
    let discarding := discarding <| cs_requests := [] |> in
    (* make sure a Paging use count is present on keep_vsub, if needed *)
    let keep := if negb (is_paging keep) && negb (Nat.eqb (length (cs_requests keep)) 0)
                then vsub_use_add VSUB_USE_PAGING 1 keep <| is_paging := true |>
                else keep in
    let discarding := discarding <| is_paging := false |>
                                 <| cs_paging_response_timer := false |> in
    let '(discarding, d) := put_record VSUB_USE_PAGING discarding d in
    (keep, discarding, d).

Definition VSUB_USE_DEDUP : string := "dedup".

(** the end of [dedup_vsub]: the attach token of the old record, and the use
    held during the merge *)
Definition dedup_release (exists_ : vlr_subscr) (d : vlr_db) : vlr_db :=
  let '(exists_, d) := if lu_complete exists_
                       then put_record VSUB_USE_ATTACHED (exists_ <| lu_complete := false |>) d
                       else (exists_, d) in
  snd (put_record VSUB_USE_DEDUP exists_ d).

Definition dedup_vsub (exists_ : vlr_subscr) (v : vlr_subscr) (d : vlr_db) : vlr_subscr * vlr_db :=
  (* Take over some state from the previous vsub *)
  let '(v, exists_, d) := paging_request_join_vsub v exists_ d in
  let v := if str_empty (msisdn v) then v <| msisdn := msisdn exists_ |> else v in
  let v := if str_empty (name v) then v <| name := name exists_ |> else v in
  let v := v <| auth_tuples ::= dedup_tuples (auth_tuples exists_) |> in
  (* Hold a ref so cancel/inval cannot free exists under us. *)
  let exists_ := vsub_use_add VSUB_USE_DEDUP 1 exists_ in
  let d := d <| db_log ::= cons (SubscrInval (vs_ptr exists_)) |> in
  (* Drop identity so the new vsub can own IMSI/TMSI. *)
  let exists_ := exists_ <| msc_conn_ref := None |> <| imsi := "" |> <| msisdn := "" |>
                         <| tmsi := GSM_RESERVED_TMSI |> <| tmsi_new := GSM_RESERVED_TMSI |> in
  let d := vlr_subscr_rehash_imsi exists_ d in
  let d := vlr_subscr_rehash_tmsi exists_ d in
  let d := d <| db_log ::= cons (CancelAttachFsm (vs_ptr exists_) GSM48_REJECT_CONGESTION) |> in
  let exists_ := exists_ <| lu_fsm := FsmNull |> <| auth_fsm := FsmNull |> in
  (v, dedup_release exists_ d).

(** An ongoing silent call of the record that has the IMSI, which is stopped
    before the merge, is a transaction and not part of the database: the record
    is as gsm_silent_call_stop leaves it. *)
Definition vlr_subscr_set_imsi (v : vlr_subscr) (i : string) (d : vlr_db) : vlr_subscr * vlr_db :=
  let d := commit v d in
  if String.eqb (imsi v) i then (v, d)
  else
    let '(v, d) := match _vlr_subscr_find_by_imsi d i with
                   | Some e => dedup_vsub e v d
                   | None => (v, d)
                   end in
    let v := v <| imsi := strlcpy (GSM23003_IMSI_MAX_DIGITS + 1) i |> in
    (v, vlr_subscr_rehash_imsi v d).

(** ** Creation *)

Definition _vlr_subscr_find_or_create_by_imsi (d : vlr_db) (i : string)
  : option (vlr_subscr * vlr_db) :=
  match _vlr_subscr_find_by_imsi d i with
  | Some v => Some (v, d)
  | None =>
      let '(v, d) := _vlr_subscr_alloc d in
      Some (vlr_subscr_set_imsi v i d)
  end.

Definition _vlr_subscr_find_or_create_by_tmsi (d : vlr_db) (t : Z)
  : option (vlr_subscr * vlr_db) :=
  match _vlr_subscr_find_by_tmsi d t with
  | Some v => Some (v, d)
  | None =>
      let '(v, d) := _vlr_subscr_alloc d in
      let v := v <| tmsi := t |> in
      Some (v, vlr_subscr_rehash_tmsi v d)
  end.

(** ** The database as the procedures use it *)
#[export] Instance vlr_db_ops : VlrDb vlr_db := {|
  db_subscribers := subscribers;
  db_commit := commit;
  db_find_by_imsi := _vlr_subscr_find_by_imsi;
  db_find_by_tmsi := _vlr_subscr_find_by_tmsi;
  db_find_or_create_by_imsi := _vlr_subscr_find_or_create_by_imsi;
  db_find_or_create_by_tmsi := _vlr_subscr_find_or_create_by_tmsi;
  db_set_imsi := vlr_subscr_set_imsi;
  db_alloc_tmsi := vlr_subscr_alloc_tmsi;
  db_rehash_tmsi := vlr_subscr_rehash_tmsi;
  db_unlink := unlink
|}.
End db.
