(* ===== verification/VlrDbProofs.v ===== *)
(** * Correctness of the subscriber database

    The hash tables agree with the list of subscribers, an IMSI and a TMSI
    belong to at most one record, the operations keep it so, and a lookup finds
    what a search of the list would find. *)

From S2P Require Import Prelude OsmoFsm Gsm VlrTypes VlrSubscr VlrUse Paging VlrDb.

(** ** Generic facts about chains and addresses *)

Lemma chain_del p q (t : hash_table) b : q ∈ chain (hash_del p t) b <-> q ∈ chain t b /\ q <> p.
Proof.
  unfold chain, hash_del. rewrite lookup_fmap.
  destruct (t !! b) as [l|]; cbn; [rewrite list_elem_of_filter; tauto | set_solver].
Qed.

Lemma chain_add p q (t : hash_table) b c :
  q ∈ chain (hash_add b p t) c <-> (q = p /\ c = b) \/ q ∈ chain t c.
Proof.
  unfold hash_add. unfold chain at 1. destruct (decide (c = b)) as [->|Hne].
  - rewrite lookup_insert_eq. cbn. rewrite elem_of_cons. tauto.
  - rewrite lookup_insert_ne by done. fold (chain t c). naive_solver.
Qed.

(** the list with the record of the same address replaced by [v] *)
Definition replace (v : vlr_subscr) (l : list vlr_subscr) : list vlr_subscr :=
  map (fun x => if at_ptr (vs_ptr v) x then v else x) l.

Definition ptrs (l : list vlr_subscr) : list Z := vs_ptr <$> l.

Lemma replace_ptrs v l : ptrs (replace v l) = ptrs l.
Proof.
  induction l as [|x l IH]; [done|]. cbn. f_equal; [|exact IH].
  unfold at_ptr. by destruct (Z.eqb_spec (vs_ptr x) (vs_ptr v)).
Qed.

Lemma elem_of_replace v l u :
  u ∈ replace v l <->
  (u = v /\ vs_ptr v ∈ ptrs l) \/ (u ∈ l /\ vs_ptr u <> vs_ptr v).
Proof.
  unfold replace. rewrite list_elem_of_In, in_map_iff. split.
  - intros (x & Hx & Hin%list_elem_of_In). unfold at_ptr in Hx.
    destruct (Z.eqb_spec (vs_ptr x) (vs_ptr v)) as [E|E]; subst.
    + left. split; [done|]. rewrite <- E. by apply list_elem_of_fmap_2.
    + by right.
  - intros [(-> & (x & E & Hin)%list_elem_of_fmap)|(Hin & Hne)].
    + exists x. unfold at_ptr. rewrite (proj2 (Z.eqb_eq _ _)) by done.
      split; [done | by apply list_elem_of_In].
    + exists u. unfold at_ptr. rewrite (proj2 (Z.eqb_neq _ _)) by done.
      split; [done | by apply list_elem_of_In].
Qed.

Lemma ptr_inj l u v : NoDup (ptrs l) -> u ∈ l -> v ∈ l -> vs_ptr u = vs_ptr v -> u = v.
Proof.
  induction l as [|x l IH]; cbn; [set_solver|].
  intros [Hx Hl]%NoDup_cons Hu Hv E.
  assert (Hp : forall y, y ∈ l -> vs_ptr y ∈ ptrs l) by (intros; by apply list_elem_of_fmap_2).
  apply elem_of_cons in Hu as [->|Hu]; apply elem_of_cons in Hv as [->|Hv]; [done| | |by apply IH].
  - exfalso. exact (Hx (eq_ind_r (fun p => p ∈ ptrs l) (Hp _ Hv) E)).
  - exfalso. exact (Hx (eq_ind (vs_ptr u) (fun p => p ∈ ptrs l) (Hp _ Hu) _ E)).
Qed.

Lemma lookup_elem d p v : db_lookup d p = Some v -> v ∈ subscribers d /\ vs_ptr v = p.
Proof.
  intros H%List.find_some. destruct H as [H1 H2]. split; [by apply list_elem_of_In|].
  by apply Z.eqb_eq.
Qed.

Lemma elem_lookup d v :
  NoDup (ptrs (subscribers d)) -> v ∈ subscribers d -> db_lookup d (vs_ptr v) = Some v.
Proof.
  intros Hnd Hv. unfold db_lookup. destruct (List.find _ _) as [u|] eqn:E.
  - apply lookup_elem in E as [Hu Hp]. f_equal. by apply (ptr_inj (subscribers d)).
  - eapply List.find_none in E; [|by apply list_elem_of_In].
    unfold at_ptr in E. by rewrite Z.eqb_refl in E.
Qed.

(** ** Tables indexed by a key of the records *)

Definition indexed (key : vlr_subscr -> option Z) (l : list vlr_subscr) (t : hash_table) : Prop :=
  forall p b, p ∈ chain t b <-> exists v, v ∈ l /\ vs_ptr v = p /\ key v = Some b.

Definition rehash (key : vlr_subscr -> option Z) (v : vlr_subscr) (t : hash_table) : hash_table :=
  match key v with
  | Some b => hash_add b (vs_ptr v) (hash_del (vs_ptr v) t)
  | None => hash_del (vs_ptr v) t
  end.

Lemma indexed_rehash key l t v :
  indexed key l t -> vs_ptr v ∈ ptrs l \/ key v = None -> indexed key (replace v l) (rehash key v t).
Proof.
  intros Hi Hs p b. unfold rehash.
  assert (Hold : p ∈ chain (hash_del (vs_ptr v) t) b <->
                 exists u, (u ∈ l /\ vs_ptr u <> vs_ptr v) /\ vs_ptr u = p /\ key u = Some b).
  { rewrite chain_del, (Hi p b). naive_solver. }
  transitivity ((p = vs_ptr v /\ key v = Some b)
                \/ exists u, (u ∈ l /\ vs_ptr u <> vs_ptr v) /\ vs_ptr u = p /\ key u = Some b).
  - destruct (key v) as [c|]; [rewrite chain_add|]; rewrite Hold; naive_solver.
  - setoid_rewrite elem_of_replace. split.
    + intros [(-> & Hk)|(u & Hu & Hp & Hk)]; [|by eauto 10].
      exists v. split_and!; [|done..]. left. split; [done|]. destruct Hs; [done|congruence].
    + naive_solver.
Qed.

Lemma indexed_replace key l t v v0 :
  indexed key l t -> NoDup (ptrs l) -> v0 ∈ l -> vs_ptr v0 = vs_ptr v -> key v0 = key v ->
  indexed key (replace v l) t.
Proof.
  intros Hi Hnd H0 Hp Hk p b. rewrite (Hi p b). setoid_rewrite elem_of_replace.
  assert (Hin : vs_ptr v ∈ ptrs l) by (rewrite <- Hp; by apply list_elem_of_fmap_2).
  split.
  - intros (u & Hu & E & Ek). destruct (decide (vs_ptr u = vs_ptr v)) as [Ep|Ep].
    + assert (u = v0) as -> by (apply (ptr_inj l); congruence).
      exists v. split_and!; [by left | congruence | congruence].
    + exists u. by eauto.
  - intros (u & [(-> & _)|(Hu & _)] & E & Ek); [|by eauto].
    exists v0. split_and!; congruence.
Qed.

Lemma replace_absent v l : vs_ptr v ∉ ptrs l -> replace v l = l.
Proof.
  induction l as [|x l IH]; [done|]. cbn. intros [Hx Hl]%not_elem_of_cons.
  unfold at_ptr. rewrite (proj2 (Z.eqb_neq _ _)) by done. f_equal. by apply IH.
Qed.

Lemma indexed_del key l t p :
  indexed key l t -> indexed key (filter (fun x => vs_ptr x <> p) l) (hash_del p t).
Proof. intros Hi q b. rewrite chain_del, (Hi q b). setoid_rewrite list_elem_of_filter. naive_solver. Qed.

Lemma indexed_snoc key l t v : indexed key l t -> key v = None -> indexed key (l ++ [v]) t.
Proof. intros Hi Hk p b. rewrite (Hi p b). setoid_rewrite elem_of_app. set_solver. Qed.

(** ** The invariant *)

Definition has_tmsi (v : vlr_subscr) (t : Z) : Prop := tmsi v = t \/ tmsi_new v = t.

(** two records share no identity *)
Definition apart (u v : vlr_subscr) : Prop :=
  (imsi u <> "" -> imsi u <> imsi v)
  /\ (forall t, t <> GSM_RESERVED_TMSI -> has_tmsi u t -> has_tmsi v t -> False).

Definition same_ids (u v : vlr_subscr) : Prop :=
  vs_ptr u = vs_ptr v /\ imsi u = imsi v /\ tmsi u = tmsi v /\ tmsi_new u = tmsi_new v.

Section proofs.
Context {DL : DbLib}.

Definition key_imsi (v : vlr_subscr) : option Z :=
  if str_nonempty (imsi v) then Some (imsi_bucket (imsi v)) else None.
Definition key_of (t : Z) : option Z :=
  if negb (t =? GSM_RESERVED_TMSI) then Some (tmsi_bucket t) else None.
Definition key_tmsi (v : vlr_subscr) : option Z := key_of (tmsi v).
Definition key_tmsi_new (v : vlr_subscr) : option Z := key_of (tmsi_new v).

Record db_wf (d : vlr_db) : Prop := mk_db_wf {
  wf_nodup : NoDup (ptrs (subscribers d));
  wf_fresh : forall p, p ∈ ptrs (subscribers d) -> p < next_ptr d;
  wf_imsi : indexed key_imsi (subscribers d) (subscr_by_imsi d);
  wf_tmsi : indexed key_tmsi (subscribers d) (subscr_by_tmsi d);
  wf_tmsi_new : indexed key_tmsi_new (subscribers d) (subscr_by_tmsi_new d);
  wf_apart : forall u v, u ∈ subscribers d -> v ∈ subscribers d ->
               vs_ptr u <> vs_ptr v -> apart u v
}.

(** a copy of a record of the database with the identities it is stored under *)
Definition checked_out (v : vlr_subscr) (d : vlr_db) : Prop :=
  exists v0, v0 ∈ subscribers d /\ same_ids v0 v.

Lemma checked_out_ptr v d : checked_out v d -> vs_ptr v ∈ ptrs (subscribers d).
Proof. intros (v0 & H & Hp & _). rewrite <- Hp. by apply list_elem_of_fmap_2. Qed.

Lemma str_nonempty_ne s : str_nonempty s = true <-> s <> "".
Proof. unfold str_nonempty, str_empty. destruct (String.eqb_spec s ""); naive_solver. Qed.

Lemma rehash_imsi_eq v t : rehash_imsi v t = rehash key_imsi v t.
Proof. unfold rehash_imsi, rehash, key_imsi. by destruct (str_nonempty (imsi v)). Qed.

Lemma rehash_by_eq t v h :
  rehash_by t v h = match key_of t with
                    | Some b => hash_add b (vs_ptr v) (hash_del (vs_ptr v) h)
                    | None => hash_del (vs_ptr v) h
                    end.
Proof. unfold rehash_by, key_of. by destruct (negb (t =? GSM_RESERVED_TMSI)). Qed.

(** ** Lookup *)

Lemma find_in_chain_some d c f v :
  find_in_chain d c f = Some v -> v ∈ subscribers d /\ f v = true /\ vs_ptr v ∈ c.
Proof.
  induction c as [|p c IH]; [done|]. cbn.
  destruct (db_lookup d p) as [u|] eqn:E.
  - destruct (f u) eqn:Ef; [|naive_solver set_solver].
    intros [= <-]. apply lookup_elem in E as [? <-]. set_solver.
  - naive_solver set_solver.
Qed.

Lemma find_in_chain_none d c f v :
  NoDup (ptrs (subscribers d)) -> find_in_chain d c f = None ->
  v ∈ subscribers d -> vs_ptr v ∈ c -> f v = false.
Proof.
  intros Hnd Hf Hv. induction c as [|p c IH]; [set_solver|]. cbn in Hf.
  intros [<-|Hc]%elem_of_cons.
  - rewrite elem_lookup in Hf by done. by destruct (f v).
  - destruct (db_lookup d p) as [u|]; [destruct (f u); [done|]|]; by apply IH.
Qed.

(** A table lookup finds what a search of the list finds, when at most one
    record of the list matches and matching records are in the chain. *)
Lemma find_in_chain_list d c f :
  NoDup (ptrs (subscribers d)) ->
  (forall v, v ∈ subscribers d -> f v = true -> vs_ptr v ∈ c) ->
  (forall u v, u ∈ subscribers d -> v ∈ subscribers d -> f u = true -> f v = true -> u = v) ->
  find_in_chain d c f = List.find f (subscribers d).
Proof.
  intros Hnd Hc Hu. destruct (find_in_chain d c f) as [v|] eqn:E.
  - apply find_in_chain_some in E as (Hv & Hf & _).
    destruct (List.find f (subscribers d)) as [u|] eqn:E2.
    + apply List.find_some in E2 as [Hin Hfu]. f_equal. apply Hu; try done.
      by apply list_elem_of_In.
    + eapply List.find_none in E2; [|by apply list_elem_of_In]. congruence.
  - destruct (List.find f (subscribers d)) as [u|] eqn:E2; [|done].
    apply List.find_some in E2 as [Hin%list_elem_of_In Hfu].
    eapply find_in_chain_none in E; [|done..|by apply Hc]. congruence.
Qed.

Lemma matches_imsi_iff v i : vlr_subscr_matches_imsi v i = true <-> imsi v = i /\ i <> "".
Proof.
  unfold vlr_subscr_matches_imsi. rewrite andb_true_iff, str_nonempty_ne, String.eqb_eq. naive_solver.
Qed.

Lemma matches_tmsi_iff v t :
  vlr_subscr_matches_tmsi v t = true <-> t <> GSM_RESERVED_TMSI /\ has_tmsi v t.
Proof.
  unfold vlr_subscr_matches_tmsi, has_tmsi.
  rewrite andb_true_iff, negb_true_iff, Z.eqb_neq, orb_true_iff, !Z.eqb_eq. tauto.
Qed.

Lemma unique_imsi d u v i : db_wf d -> u ∈ subscribers d -> v ∈ subscribers d ->
  imsi u = i -> imsi v = i -> i <> "" -> u = v.
Proof.
  intros Hd Hu Hv Eu Ev Hi. destruct (decide (vs_ptr u = vs_ptr v)) as [E|E].
  - by apply (ptr_inj (subscribers d)); [apply wf_nodup|..].
  - destruct (wf_apart d Hd u v Hu Hv E) as [H _]. exfalso. apply H; congruence.
Qed.

Lemma unique_tmsi d u v t : db_wf d -> u ∈ subscribers d -> v ∈ subscribers d ->
  has_tmsi u t -> has_tmsi v t -> t <> GSM_RESERVED_TMSI -> u = v.
Proof.
  intros Hd Hu Hv Eu Ev Hi. destruct (decide (vs_ptr u = vs_ptr v)) as [E|E].
  - by apply (ptr_inj (subscribers d)); [apply wf_nodup|..].
  - destruct (wf_apart d Hd u v Hu Hv E) as [_ H]. by destruct (H t).
Qed.

Lemma find_imsi_list d i : db_wf d ->
  _vlr_subscr_find_by_imsi d i = List.find (fun v => vlr_subscr_matches_imsi v i) (subscribers d).
Proof.
  intros Hd. unfold _vlr_subscr_find_by_imsi, str_empty.
  destruct (String.eqb_spec i "") as [->|Hi].
  - destruct (List.find _ _) as [u|] eqn:E; [|done].
    apply List.find_some in E as [_ H%matches_imsi_iff]. naive_solver.
  - apply find_in_chain_list; [by apply wf_nodup|..].
    + intros v Hv [Ei _]%matches_imsi_iff. apply (wf_imsi d Hd). exists v.
      split_and!; [done..|]. unfold key_imsi. rewrite Ei. by rewrite (proj2 (str_nonempty_ne i)).
    + intros u v Hu Hv [? _]%matches_imsi_iff [? _]%matches_imsi_iff. by eapply unique_imsi.
Qed.

Lemma key_of_some t : t <> GSM_RESERVED_TMSI -> key_of t = Some (tmsi_bucket t).
Proof. intros H. unfold key_of. by rewrite (proj2 (Z.eqb_neq _ _) H). Qed.

Lemma find_tmsi_list d t : db_wf d ->
  _vlr_subscr_find_by_tmsi d t = List.find (fun v => vlr_subscr_matches_tmsi v t) (subscribers d).
Proof.
  intros Hd. unfold _vlr_subscr_find_by_tmsi. destruct (Z.eqb_spec t GSM_RESERVED_TMSI) as [->|Ht].
  { destruct (List.find _ _) as [u|] eqn:E; [|done].
    apply List.find_some in E as [_ H%matches_tmsi_iff]. naive_solver. }
  assert (Hex : forall u, List.find (fun v => vlr_subscr_matches_tmsi v t) (subscribers d) = Some u
                          <-> u ∈ subscribers d /\ has_tmsi u t).
  { intros u. split.
    - intros [H1%list_elem_of_In [_ H2]%matches_tmsi_iff]%List.find_some. done.
    - intros [H1 H2]. destruct (List.find _ _) as [x|] eqn:E.
      + apply List.find_some in E as [Hx%list_elem_of_In [_ Hm]%matches_tmsi_iff].
        f_equal. by eapply unique_tmsi.
      + eapply List.find_none in E; [|by apply list_elem_of_In].
        apply not_true_iff_false in E. destruct E. by apply matches_tmsi_iff. }
  destruct (find_in_chain d (chain (subscr_by_tmsi d) _) _) as [u|] eqn:E1.
  { apply find_in_chain_some in E1 as (Hu & H%Z.eqb_eq & _). symmetry. apply Hex.
    split; [done | by left]. }
  destruct (find_in_chain d (chain (subscr_by_tmsi_new d) _) _) as [u|] eqn:E2.
  { apply find_in_chain_some in E2 as (Hu & H%Z.eqb_eq & _). symmetry. apply Hex.
    split; [done | by right]. }
  destruct (List.find _ _) as [u|] eqn:E; [|done]. destruct (proj1 (Hex u) eq_refl) as [Hu [H|H]]; exfalso.
  - eapply find_in_chain_none in E1; [by rewrite (proj2 (Z.eqb_eq _ _) H) in E1|by apply wf_nodup|done|].
    apply (wf_tmsi d Hd). exists u. split_and!; [done..|]. unfold key_tmsi. rewrite H. by apply key_of_some.
  - eapply find_in_chain_none in E2; [by rewrite (proj2 (Z.eqb_eq _ _) H) in E2|by apply wf_nodup|done|].
    apply (wf_tmsi_new d Hd). exists u. split_and!; [done..|]. unfold key_tmsi_new. rewrite H.
    by apply key_of_some.
Qed.

(** ** Operations keep the invariant *)

Lemma commit_subscribers v d : subscribers (commit v d) = replace v (subscribers d).
Proof. done. Qed.

(** the general step: a record is replaced and the tables are brought up to date *)
Lemma replace_wf v d t1 t2 t3 :
  db_wf d ->
  indexed key_imsi (replace v (subscribers d)) t1 ->
  indexed key_tmsi (replace v (subscribers d)) t2 ->
  indexed key_tmsi_new (replace v (subscribers d)) t3 ->
  (forall u, u ∈ subscribers d -> vs_ptr u <> vs_ptr v -> apart u v /\ apart v u) ->
  db_wf (commit v d <| subscr_by_imsi := t1 |> <| subscr_by_tmsi := t2 |>
                    <| subscr_by_tmsi_new := t3 |>).
Proof.
  intros Hd H1 H2 H3 Ha. set (d' := commit v d <| subscr_by_imsi := t1 |>
    <| subscr_by_tmsi := t2 |> <| subscr_by_tmsi_new := t3 |>).
  assert (Es : subscribers d' = replace v (subscribers d)) by done.
  split; rewrite ?Es, ?replace_ptrs; [by apply wf_nodup|by apply (wf_fresh d)|done..|].
  intros u u'. rewrite !elem_of_replace.
  intros [(-> & _)|[Hu Hn]] [(-> & _)|[Hu' Hn']] Hp; [done|by apply Ha|by apply Ha|].
  by apply (wf_apart d Hd).
Qed.

Lemma apart_same u v v' :
  imsi v' = imsi v -> tmsi v' = tmsi v -> tmsi_new v' = tmsi_new v ->
  apart u v /\ apart v u -> apart u v' /\ apart v' u.
Proof. unfold apart, has_tmsi. intros -> -> ->. done. Qed.

Lemma apart_stored v d u : db_wf d -> checked_out v d -> u ∈ subscribers d ->
  vs_ptr u <> vs_ptr v -> apart u v /\ apart v u.
Proof.
  intros Hd (v0 & H0 & Hp & Hi & Ht & Hn) Hu Hne.
  eapply apart_same; [done..|]. split; apply (wf_apart d Hd); congruence.
Qed.

Lemma key_same_ids u v : same_ids u v ->
  key_imsi u = key_imsi v /\ key_tmsi u = key_tmsi v /\ key_tmsi_new u = key_tmsi_new v.
Proof. unfold key_imsi, key_tmsi, key_tmsi_new. intros (_ & -> & -> & ->). done. Qed.

Lemma commit_wf v d : db_wf d -> checked_out v d -> db_wf (commit v d).
Proof.
  intros Hd Hc. pose proof Hc as (v0 & H0 & Hs). destruct (key_same_ids _ _ Hs) as (K1 & K2 & K3).
  apply (replace_wf v d (subscr_by_imsi d) (subscr_by_tmsi d) (subscr_by_tmsi_new d) Hd);
    [| | |by intros; eapply apart_stored];
    (eapply indexed_replace; [apply Hd|by apply wf_nodup|exact H0|apply Hs|done]).
Qed.

(** writing a record that is not in the database has no effect *)
Lemma commit_absent v d : vs_ptr v ∉ ptrs (subscribers d) -> commit v d = d.
Proof.
  intros H. change (commit v d) with (d <| subscribers := replace v (subscribers d) |>).
  by rewrite replace_absent.
Qed.

(** the identities of [v] are free for it *)
Definition ids_free (v : vlr_subscr) (d : vlr_db) : Prop :=
  forall u, u ∈ subscribers d -> vs_ptr u <> vs_ptr v -> apart u v /\ apart v u.

(** the record is in the database, or it has no such identity *)
Lemma rehash_tmsi_wf v v0 d :
  db_wf d -> v0 ∈ subscribers d -> vs_ptr v0 = vs_ptr v -> imsi v0 = imsi v -> ids_free v d ->
  db_wf (vlr_subscr_rehash_tmsi v d).
Proof.
  intros Hd H0 Hp Hi Hf.
  assert (Hin : vs_ptr v ∈ ptrs (subscribers d)) by (rewrite <- Hp; by apply list_elem_of_fmap_2).
  apply (replace_wf v d (subscr_by_imsi d) (rehash_by (tmsi v) v (subscr_by_tmsi d))
           (rehash_by (tmsi_new v) v (subscr_by_tmsi_new d)) Hd); [| | |exact Hf].
  - eapply indexed_replace; [apply Hd|by apply wf_nodup|exact H0|done|].
    unfold key_imsi. by rewrite Hi.
  - rewrite rehash_by_eq. apply (indexed_rehash key_tmsi); [apply Hd | by left].
  - rewrite rehash_by_eq. apply (indexed_rehash key_tmsi_new); [apply Hd | by left].
Qed.

Lemma rehash_imsi_wf v v0 d :
  db_wf d -> v0 ∈ subscribers d -> vs_ptr v0 = vs_ptr v -> tmsi v0 = tmsi v ->
  tmsi_new v0 = tmsi_new v -> ids_free v d -> db_wf (vlr_subscr_rehash_imsi v d).
Proof.
  intros Hd H0 Hp Ht Hn Hf.
  assert (Hin : vs_ptr v ∈ ptrs (subscribers d)) by (rewrite <- Hp; by apply list_elem_of_fmap_2).
  apply (replace_wf v d (rehash_imsi v (subscr_by_imsi d)) (subscr_by_tmsi d)
           (subscr_by_tmsi_new d) Hd); [| | |exact Hf].
  - rewrite rehash_imsi_eq. apply indexed_rehash; [apply Hd | by left].
  - eapply indexed_replace; [apply Hd|by apply wf_nodup|exact H0|done|].
    unfold key_tmsi. by rewrite Ht.
  - eapply indexed_replace; [apply Hd|by apply wf_nodup|exact H0|done|].
    unfold key_tmsi_new. by rewrite Hn.
Qed.

Lemma unlink_wf v d : db_wf d -> db_wf (unlink v d).
Proof.
  intros Hd. set (l := filter (fun x => vs_ptr x <> vs_ptr v) (subscribers d)).
  assert (Es : subscribers (unlink v d) = l) by done.
  assert (Hsub : forall u, u ∈ l -> u ∈ subscribers d) by (intros u [_ H]%list_elem_of_filter; done).
  split; rewrite ?Es; [| |by apply indexed_del, Hd..|].
  - assert (Hs : sublist (ptrs l) (ptrs (subscribers d))).
    { clear. unfold l, ptrs. induction (subscribers d) as [|x r IH]; [done|].
      rewrite filter_cons. destruct (decide _);
        [apply sublist_skip; exact IH | apply sublist_cons; exact IH]. }
    eapply sublist_NoDup; [by apply wf_nodup | exact Hs].
  - intros p (u & -> & Hu)%list_elem_of_fmap. apply (wf_fresh d Hd). by apply list_elem_of_fmap_2, Hsub.
  - intros u u' Hu Hu'. apply (wf_apart d Hd); by apply Hsub.
Qed.

(** ** Allocation of TMSIs *)

Lemma draw_tmsi_some raw d t :
  draw_tmsi raw d = Some t -> _vlr_subscr_find_by_tmsi d t = None.
Proof. unfold draw_tmsi. repeat case_match; naive_solver. Qed.

Lemma rand_pos_wf d n : db_wf d -> db_wf (d <| rand_pos := n |>).
Proof. intros []. by split. Qed.

Lemma find_tmsi_none d t u : db_wf d -> t <> GSM_RESERVED_TMSI ->
  _vlr_subscr_find_by_tmsi d t = None -> u ∈ subscribers d -> ~ has_tmsi u t.
Proof.
  intros Hd Ht Hf Hu Hh. rewrite find_tmsi_list in Hf by done.
  eapply List.find_none in Hf; [|by apply list_elem_of_In].
  apply not_true_iff_false in Hf. apply Hf. by apply matches_tmsi_iff.
Qed.

Lemma new_tmsi_free v d t : db_wf d -> checked_out v d -> _vlr_subscr_find_by_tmsi d t = None ->
  ids_free (v <| tmsi_new := t |>) d.
Proof.
  intros Hd Hc Hf u Hu Hp. destruct (apart_stored v d u Hd Hc Hu Hp) as [[A1 A2] [B1 B2]].
  assert (Hno : forall t', t' <> GSM_RESERVED_TMSI -> has_tmsi (v <| tmsi_new := t |>) t' ->
                has_tmsi u t' -> False).
  { intros t' Ht' [H|H] Hu'; [by eapply (A2 t'); [..|left]|].
    cbn in H. subst t'. by eapply find_tmsi_none. }
  split; split; [done| |done|]; intros; by eapply Hno.
Qed.

(** the outcome of the loop: failure without any change, or a new TMSI *)
Definition alloc_result (v : vlr_subscr) (d0 : vlr_db) (r : Z * vlr_subscr * vlr_db) : Prop :=
  let '(rc, v', d') := r in
  db_wf d' /\ checked_out v' d' /\
  ((rc <> 0 /\ v' = v /\ subscribers d' = subscribers d0)
   \/ (rc = 0 /\ exists k dd, subscribers dd = subscribers d0 /\ db_wf dd /\
        draw_tmsi (snd (rand_id k)) dd = Some (tmsi_new v') /\ v' = v <| tmsi_new := tmsi_new v' |>
        /\ subscribers d' = replace v' (subscribers d0))).

Lemma alloc_loop_result n v d :
  db_wf d -> checked_out v d -> alloc_result v d (alloc_tmsi_loop n v d).
Proof.
  revert d. induction n as [|n IH]; intros d Hd Hc; cbn.
  { split_and!; [done..|]. by left. }
  destruct (rand_id (rand_pos d)) as [rc raw] eqn:E.
  set (d1 := d <| rand_pos ::= S |>).
  assert (Hd1 : db_wf d1) by by apply rand_pos_wf.
  destruct (rc <? 0) eqn:Erc.
  { split_and!; [done..|]. left. split_and!; [|done..]. intros ->. done. }
  destruct (draw_tmsi raw d1) as [t|] eqn:Ed; [|by apply (IH d1 Hd1)].
  pose proof (draw_tmsi_some _ _ _ Ed) as Hn. pose proof Hc as (v0 & H0 & Hp & Hi & _).
  assert (Hw : db_wf (vlr_subscr_rehash_tmsi (v <| tmsi_new := t |>) d1)).
  { eapply (rehash_tmsi_wf _ v0); [done..|]. by apply new_tmsi_free. }
  split_and!; [exact Hw| |].
  - exists (v <| tmsi_new := t |>). split; [|done]. apply elem_of_replace. left.
    split; [done|]. by apply (checked_out_ptr v d).
  - right. split; [done|]. exists (rand_pos d), d1. by rewrite E.
Qed.

(** ** Merging *)

(** a copy of a record that may have been freed *)
Definition held_or_freed (e : vlr_subscr) (d : vlr_db) : Prop :=
  checked_out e d \/ vs_ptr e ∉ ptrs (subscribers d).

(** [d'] is a consistent database that differs from [d] in the record at [p] only *)
Definition only_at (p : Z) (d d' : vlr_db) : Prop :=
  db_wf d' /\ forall u, vs_ptr u <> p -> (u ∈ subscribers d' <-> u ∈ subscribers d).

Lemma only_at_trans p d1 d2 d3 : only_at p d1 d2 -> only_at p d2 d3 -> only_at p d1 d3.
Proof. intros [_ H1] [H2 H3]. split; [done|]. intros u Hu. rewrite H3 by done. by apply H1. Qed.

Lemma commit_only_at e d : db_wf d -> held_or_freed e d ->
  only_at (vs_ptr e) d (commit e d) /\ held_or_freed e (commit e d).
Proof.
  intros Hd [Hc|Ha].
  - split; [split|left].
    + by apply commit_wf.
    + intros u Hu. rewrite commit_subscribers, elem_of_replace. naive_solver.
    + exists e. split; [|done]. rewrite commit_subscribers, elem_of_replace. left.
      split; [done | by apply checked_out_ptr].
  - rewrite commit_absent by done. split; [done | by right].
Qed.

Lemma log_wf d f : db_wf d -> db_wf (d <| db_log ::= f |>).
Proof. intros []. by split. Qed.

Lemma put_record_only_at tok e d : db_wf d -> held_or_freed e d ->
  let '(e', d') := put_record tok e d in
  only_at (vs_ptr e) d d' /\ held_or_freed e' d' /\ same_ids e e'.
Proof.
  intros Hd Hh. unfold put_record. set (e' := vsub_use_add tok (-1) e).
  assert (Hh' : held_or_freed e' d) by exact Hh.
  destruct (commit_only_at e' d Hd Hh') as [Hc1 Hc2].
  destruct (_ <? 0); [by split_and!|]. destruct (_ <=? 0); [|by split_and!].
  split_and!; [split| |done].
  - apply log_wf. by apply unlink_wf.
  - intros u Hu. cbn. rewrite list_elem_of_filter. naive_solver.
  - right. cbn. intros (u & E & Hu)%list_elem_of_fmap. apply list_elem_of_filter in Hu.
    destruct Hu as [Hu _]. by apply Hu.
Qed.

Lemma replace_idem v l : replace v (replace v l) = replace v l.
Proof.
  unfold replace. rewrite map_map. apply map_ext. intros x. unfold at_ptr.
  destruct (Z.eqb_spec (vs_ptr x) (vs_ptr v)); [by rewrite Z.eqb_refl|].
  by rewrite (proj2 (Z.eqb_neq _ _)).
Qed.

Definition no_ids (e : vlr_subscr) : Prop :=
  imsi e = "" /\ tmsi e = GSM_RESERVED_TMSI /\ tmsi_new e = GSM_RESERVED_TMSI.

Lemma clear_ids_only_at e d : db_wf d -> no_ids e ->
  only_at (vs_ptr e) d (vlr_subscr_rehash_tmsi e (vlr_subscr_rehash_imsi e d))
  /\ held_or_freed e (vlr_subscr_rehash_tmsi e (vlr_subscr_rehash_imsi e d)).
Proof.
  intros Hd (Ei & Et & En). set (d' := vlr_subscr_rehash_tmsi e (vlr_subscr_rehash_imsi e d)).
  assert (Es : subscribers d' = replace e (subscribers d)) by apply replace_idem.
  assert (Ed : d' = commit e d <| subscr_by_imsi := rehash_imsi e (subscr_by_imsi d) |>
                 <| subscr_by_tmsi := rehash_by (tmsi e) e (subscr_by_tmsi d) |>
                 <| subscr_by_tmsi_new := rehash_by (tmsi_new e) e (subscr_by_tmsi_new d) |>).
  { unfold d'. transitivity (d' <| subscribers := replace e (replace e (subscribers d)) |>); [done|].
    by rewrite replace_idem. }
  split; [split|].
  - rewrite Ed. apply replace_wf; [done|..].
    + rewrite rehash_imsi_eq. apply indexed_rehash; [apply Hd|right]. unfold key_imsi. by rewrite Ei.
    + rewrite rehash_by_eq. apply (indexed_rehash key_tmsi); [apply Hd|right].
      unfold key_tmsi. by rewrite Et.
    + rewrite rehash_by_eq. apply (indexed_rehash key_tmsi_new); [apply Hd|right].
      unfold key_tmsi_new. by rewrite En.
    + intros u Hu Hp. unfold apart, has_tmsi. rewrite Ei, Et, En. naive_solver.
  - intros u Hu. rewrite Es, elem_of_replace. naive_solver.
  - destruct (decide (vs_ptr e ∈ ptrs (subscribers d))) as [H|H].
    + left. exists e. split; [|done]. rewrite Es, elem_of_replace. by left.
    + right. by rewrite Es, replace_ptrs.
Qed.

Lemma held_step p d d' v : only_at p d d' -> vs_ptr v <> p -> checked_out v d -> checked_out v d'.
Proof.
  intros [_ H] Hp (v0 & H0 & Hs). exists v0. split; [|done]. apply H; [|done].
  intros E. apply Hp. by rewrite <- E, (proj1 Hs).
Qed.

(** joining changes no identity *)
Lemma join_spec v e d : db_wf d -> held_or_freed e d ->
  let '(v', e', d') := paging_request_join_vsub v e d in
  only_at (vs_ptr e) d d' /\ held_or_freed e' d' /\ same_ids e e' /\ same_ids v v'.
Proof.
  intros Hd Hh. unfold paging_request_join_vsub.
  destruct (is_paging e); cbn [negb]; [|by split_and!].
  lazymatch goal with |- context [put_record ?t ?x d] =>
    pose proof (put_record_only_at t x d Hd Hh) as Hp; destruct (put_record t x d) as [e' d'] end.
  destruct Hp as (H1 & H2 & H3). split_and!; [done|done|exact H3|].
  by destruct (negb (is_paging _) && negb _).
Qed.

Lemma held_no_ids e d u : db_wf d -> held_or_freed e d -> no_ids e ->
  u ∈ subscribers d -> vs_ptr u = vs_ptr e -> no_ids u.
Proof.
  intros Hd [(e0 & H0 & Hp & Hi & Ht & Hn)|Ha] (Ni & Nt & Nn) Hu E.
  - assert (u = e0) as -> by (apply (ptr_inj (subscribers d)); [by apply wf_nodup|done..|congruence]).
    unfold no_ids. split_and!; congruence.
  - destruct Ha. rewrite <- E. by apply list_elem_of_fmap_2.
Qed.

Lemma dedup_release_spec e d : db_wf d -> held_or_freed e d -> no_ids e ->
  only_at (vs_ptr e) d (dedup_release e d)
  /\ (forall u, u ∈ subscribers (dedup_release e d) -> vs_ptr u = vs_ptr e -> no_ids u).
Proof.
  intros Hd Hh Hn. unfold dedup_release.
  assert (H1 : let '(e', d') := if lu_complete e
                   then put_record VSUB_USE_ATTACHED (e <| lu_complete := false |>) d
                   else (e, d) in
               only_at (vs_ptr e) d d' /\ held_or_freed e' d' /\ same_ids e e').
  { destruct (lu_complete e); [|by split_and!].
    set (e1 := e <| lu_complete := false |>). exact (put_record_only_at VSUB_USE_ATTACHED e1 d Hd Hh). }
  destruct (if lu_complete e then _ else _) as [e' d']. destruct H1 as (A1 & B1 & C1).
  pose proof (put_record_only_at VSUB_USE_DEDUP e' d' (proj1 A1) B1) as H2.
  destruct (put_record VSUB_USE_DEDUP e' d') as [e'' d'']. destruct H2 as (A2 & B2 & C2). cbn.
  destruct C1 as (Cp & Ci & Ct & Cn). destruct C2 as (Cp' & Ci' & Ct' & Cn').
  destruct Hn as (Ni & Nt & Nn). split.
  - eapply only_at_trans; [exact A1|]. by rewrite Cp.
  - intros u Hu E. apply (held_no_ids e'' d''); [apply A2|done| |done|congruence].
    unfold no_ids. split_and!; congruence.
Qed.

Lemma dedup_spec e v d : db_wf d -> e ∈ subscribers d ->
  let '(v', d') := dedup_vsub e v d in
  only_at (vs_ptr e) d d' /\ same_ids v v'
  /\ (forall u, u ∈ subscribers d' -> vs_ptr u = vs_ptr e -> no_ids u).
Proof.
  intros Hd He. unfold dedup_vsub.
  assert (Hh : held_or_freed e d) by (left; by exists e).
  pose proof (join_spec v e d Hd Hh) as Hj.
  destruct (paging_request_join_vsub v e d) as [[v1 e1] d1]. destruct Hj as (A1 & B1 & C1 & D1).
  set (v2 := if str_empty (msisdn v1) then _ else _).
  set (v3 := if str_empty (name v2) then _ else _).
  assert (D3 : same_ids v v3).
  { unfold v3, v2. by destruct (str_empty (msisdn v1)); destruct (str_empty (name _)). }
  set (e2 := vsub_use_add VSUB_USE_DEDUP 1 e1 <| msc_conn_ref := None |> <| imsi := "" |>
     <| msisdn := "" |> <| tmsi := GSM_RESERVED_TMSI |> <| tmsi_new := GSM_RESERVED_TMSI |>).
  set (d2 := d1 <| db_log ::= cons (SubscrInval (vs_ptr (vsub_use_add VSUB_USE_DEDUP 1 e1))) |>).
  assert (Hd2 : db_wf d2) by (apply log_wf; apply A1).
  destruct (clear_ids_only_at e2 d2 Hd2) as [A2 B2]; [done|].
  set (d3 := vlr_subscr_rehash_tmsi e2 (vlr_subscr_rehash_imsi e2 d2)) in *.
  set (d4 := d3 <| db_log ::= cons (CancelAttachFsm (vs_ptr e2) GSM48_REJECT_CONGESTION) |>).
  set (e3 := e2 <| lu_fsm := FsmNull |> <| auth_fsm := FsmNull |>).
  destruct (dedup_release_spec e3 d4 (log_wf _ _ (proj1 A2)) B2) as [A3 N3]; [done|].
  assert (Ep : vs_ptr e = vs_ptr e1) by apply C1.
  split_and!; [|exact D3|].
  - eapply only_at_trans; [exact A1|]. rewrite Ep. eapply only_at_trans; [exact A2|exact A3].
  - intros u Hu E. apply N3; [done|]. by rewrite E, Ep.
Qed.

(** ** Setting the IMSI *)

Lemma strlcpy_imsi i : (String.length i <= 15)%nat -> strlcpy (GSM23003_IMSI_MAX_DIGITS + 1) i = i.
Proof.
  unfold strlcpy. cbn [GSM23003_IMSI_MAX_DIGITS Nat.add Nat.sub]. generalize 15%nat as n.
  intros n. revert i. induction n as [|n IH]; intros [|a i]; cbn; try done; [lia|].
  intros H. f_equal. apply IH. lia.
Qed.

Lemma imsi_of_stored v d u : db_wf d -> checked_out v d -> u ∈ subscribers d ->
  vs_ptr u = vs_ptr v -> imsi u = imsi v.
Proof.
  intros Hd (v0 & H0 & Hp & Hi & _) Hu E. rewrite <- Hi. f_equal.
  apply (ptr_inj (subscribers d)); [by apply wf_nodup|done..|congruence].
Qed.

Lemma set_imsi_step v i d : db_wf d -> checked_out v d -> i <> "" ->
  (String.length i <= 15)%nat ->
  (forall u, u ∈ subscribers d -> vs_ptr u <> vs_ptr v -> imsi u <> i) ->
  let v' := v <| imsi := strlcpy (GSM23003_IMSI_MAX_DIGITS + 1) i |> in
  db_wf (vlr_subscr_rehash_imsi v' d) /\ v' ∈ subscribers (vlr_subscr_rehash_imsi v' d).
Proof.
  intros Hd Hc Hi Hl Hu v'. assert (Ei : imsi v' = i) by by apply strlcpy_imsi.
  pose proof Hc as (v0 & H0 & Hp & _ & Ht & Hn). split.
  - eapply (rehash_imsi_wf v' v0); [done..|]. intros u Hin Hne.
    destruct (apart_stored v d u Hd Hc Hin Hne) as [[A1 A2] [B1 B2]].
    split; (split; [rewrite Ei|done]); [by intros; apply Hu|].
    intros _ E. by apply (Hu u Hin Hne).
  - apply elem_of_replace. left. split; [done | by apply (checked_out_ptr v d)].
Qed.

Lemma set_imsi_spec v i d : db_wf d -> checked_out v d -> i <> "" ->
  (String.length i <= 15)%nat ->
  let '(v', d') := vlr_subscr_set_imsi v i d in
  db_wf d' /\ v' ∈ subscribers d' /\ imsi v' = i /\ vs_ptr v' = vs_ptr v
  /\ tmsi v' = tmsi v /\ tmsi_new v' = tmsi_new v.
Proof.
  intros Hd Hc Hi Hl. unfold vlr_subscr_set_imsi.
  destruct (commit_only_at v d Hd (or_introl Hc)) as [[Hd1 _] Hc1].
  assert (Hv1 : v ∈ subscribers (commit v d)).
  { rewrite commit_subscribers, elem_of_replace. left. split; [done | by apply checked_out_ptr]. }
  set (d1 := commit v d) in *. assert (Hc2 : checked_out v d1) by by exists v.
  destruct (String.eqb_spec (imsi v) i) as [E|E]; [by split_and!|].
  destruct (_vlr_subscr_find_by_imsi d1 i) as [e|] eqn:Ef.
  - rewrite find_imsi_list in Ef by done.
    apply List.find_some in Ef as [He%list_elem_of_In [Ei _]%matches_imsi_iff].
    assert (Hne : vs_ptr v <> vs_ptr e).
    { intros Ep. apply E. rewrite <- Ei. symmetry. by apply (imsi_of_stored v d1). }
    pose proof (dedup_spec e v d1 Hd1 He) as Hs.
    destruct (dedup_vsub e v d1) as [v2 d2]. destruct Hs as (A & (Sp & Si & St & Sn) & N).
    assert (Hc3 : checked_out v2 d2).
    { destruct (held_step _ _ _ v A Hne Hc2) as (v0 & H0 & T1 & T2 & T3 & T4). exists v0.
      split; [done|]. unfold same_ids. split_and!; congruence. }
    edestruct (set_imsi_step v2 i d2 (proj1 A) Hc3 Hi Hl) as [W I].
    { intros u Hu Hp Eu. destruct (decide (vs_ptr u = vs_ptr e)) as [Epe|Epe].
      - destruct (N u Hu Epe) as [Nu _]. congruence.
      - apply (proj2 A u Epe) in Hu. apply Epe. f_equal. by eapply (unique_imsi d1). }
    split_and!; [done|done|by apply strlcpy_imsi|done|done|done].
  - rewrite find_imsi_list in Ef by done.
    edestruct (set_imsi_step v i d1 Hd1 Hc2 Hi Hl) as [W I].
    { intros u Hu _ Eu. eapply List.find_none in Ef; [|by apply list_elem_of_In].
      apply not_true_iff_false in Ef. apply Ef. by apply matches_imsi_iff. }
    split_and!; [done|done|by apply strlcpy_imsi|done..].
Qed.

(** ** Creation *)

Lemma alloc_wf d : db_wf d ->
  let '(v, d') := _vlr_subscr_alloc d in db_wf d' /\ v ∈ subscribers d' /\ no_ids v.
Proof.
  intros Hd. unfold _vlr_subscr_alloc. set (v := new_vsub <| vs_ptr := next_ptr d |> <| expire_lu := _ |>).
  set (d' := d <| subscribers ::= _ |> <| next_ptr ::= Z.succ |>).
  assert (Es : subscribers d' = subscribers d ++ [v]) by done.
  assert (Hv : v ∈ subscribers d') by (rewrite Es; set_solver).
  split_and!; [|done..]. split; rewrite ?Es.
  - unfold ptrs. rewrite fmap_app. apply NoDup_app. split_and!; [by apply wf_nodup| |apply NoDup_singleton].
    intros p Hp ->%list_elem_of_singleton. apply (wf_fresh d Hd) in Hp. cbn in Hp. lia.
  - intros p. unfold ptrs. rewrite fmap_app, elem_of_app. change (next_ptr d') with (Z.succ (next_ptr d)).
    intros [Hp| ->%list_elem_of_singleton]; [apply (wf_fresh d Hd) in Hp; lia | cbn; lia].
  - by apply indexed_snoc; [apply Hd|].
  - by apply indexed_snoc; [apply Hd|].
  - by apply indexed_snoc; [apply Hd|].
  - intros u u'. rewrite !elem_of_app, !list_elem_of_singleton.
    intros [Hu| ->] [Hu'| ->] Hp; [by apply (wf_apart d Hd)| | |done];
      (split; [done|]); unfold has_tmsi, v; cbn; naive_solver.
Qed.

Lemma create_by_imsi_spec d i : db_wf d -> i <> "" -> (String.length i <= 15)%nat ->
  exists v d', _vlr_subscr_find_or_create_by_imsi d i = Some (v, d') /\ db_wf d'
               /\ v ∈ subscribers d' /\ imsi v = i.
Proof.
  intros Hd Hi Hl. unfold _vlr_subscr_find_or_create_by_imsi.
  destruct (_vlr_subscr_find_by_imsi d i) as [v|] eqn:E.
  - rewrite find_imsi_list in E by done.
    apply List.find_some in E as [H1%list_elem_of_In [H2 _]%matches_imsi_iff]. by exists v, d.
  - pose proof (alloc_wf d Hd) as Ha. destruct (_vlr_subscr_alloc d) as [v1 d1].
    destruct Ha as (Hd1 & Hv1 & _).
    pose proof (set_imsi_spec v1 i d1 Hd1 (ex_intro _ v1 (conj Hv1 (conj eq_refl (conj eq_refl (conj eq_refl eq_refl))))) Hi Hl) as Hs.
    destruct (vlr_subscr_set_imsi v1 i d1) as [v2 d2]. destruct Hs as (? & ? & ? & _).
    by exists v2, d2.
Qed.

Lemma create_by_tmsi_spec d t : db_wf d ->
  exists v d', _vlr_subscr_find_or_create_by_tmsi d t = Some (v, d') /\ db_wf d'
               /\ v ∈ subscribers d' /\ has_tmsi v t.
Proof.
  intros Hd. unfold _vlr_subscr_find_or_create_by_tmsi.
  destruct (_vlr_subscr_find_by_tmsi d t) as [v|] eqn:E.
  - rewrite find_tmsi_list in E by done.
    apply List.find_some in E as [H1%list_elem_of_In [_ H2]%matches_tmsi_iff]. by exists v, d.
  - pose proof (alloc_wf d Hd) as Ha. assert (Hold : forall u, u ∈ subscribers (snd (_vlr_subscr_alloc d)) ->
      vs_ptr u <> vs_ptr (fst (_vlr_subscr_alloc d)) -> u ∈ subscribers d).
    { intros u. cbn. rewrite elem_of_app, list_elem_of_singleton. naive_solver. }
    destruct (_vlr_subscr_alloc d) as [v1 d1]. cbn in Hold.
    destruct Ha as (Hd1 & Hv1 & Ni & Nt & Nn).
    exists (v1 <| tmsi := t |>), (vlr_subscr_rehash_tmsi (v1 <| tmsi := t |>) d1).
    split_and!; [done| | |by left].
    + eapply (rehash_tmsi_wf _ v1); [done..|]. intros u Hu Hp.
      assert (Hno : forall t', t' <> GSM_RESERVED_TMSI -> has_tmsi (v1 <| tmsi := t |>) t' ->
                has_tmsi u t' -> False).
      { intros t' Ht' [H|H] Hut; cbn in H; [|congruence]. subst t'.
        eapply (find_tmsi_none d t u Hd Ht' E); [by apply Hold|done]. }
      split; split; [intros H E'; apply H; exact (eq_trans E' Ni)|by intros; eapply Hno
        |intros H; by destruct H|by intros; eapply Hno].
    + apply elem_of_replace. left. split; [done|].
      exact (list_elem_of_fmap_2 vs_ptr _ _ Hv1).
Qed.

(** ** Changes of a TMSI by the procedures *)

(** the MS has confirmed the new TMSI, or the TMSI is given up *)
Lemma drop_tmsi_wf v v' d : db_wf d -> checked_out v d -> vs_ptr v' = vs_ptr v -> imsi v' = imsi v ->
  (forall t, t <> GSM_RESERVED_TMSI -> has_tmsi v' t -> has_tmsi v t) ->
  db_wf (vlr_subscr_rehash_tmsi v' d).
Proof.
  intros Hd Hc Hp Hi Ht. pose proof Hc as (v0 & H0 & Hp0 & Hi0 & _).
  eapply (rehash_tmsi_wf v' v0); [done..|congruence|congruence|].
  intros u Hu Hne. destruct (apart_stored v d u Hd Hc Hu) as [[A1 A2] [B1 B2]]; [congruence|].
  split; (split; [by rewrite Hi|]); intros t Hr; [intros ? ?; by eapply (A2 t); [..|apply Ht]|].
  intros ? ?. by eapply (B2 t); [..|apply Ht|].
Qed.

(** a TMSI that no other record has, as sgs_restore_one sets it *)
Lemma set_tmsi_wf v t d : db_wf d -> checked_out v d ->
  (forall u, u ∈ subscribers d -> vs_ptr u <> vs_ptr v -> ~ has_tmsi u t) ->
  db_wf (vlr_subscr_rehash_tmsi (v <| tmsi := t |>) d).
Proof.
  intros Hd Hc Hno. pose proof Hc as (v0 & H0 & Hp0 & Hi0 & _).
  eapply (rehash_tmsi_wf _ v0); [done..|]. intros u Hu Hne.
  change (vs_ptr u <> vs_ptr v) in Hne. destruct (apart_stored v d u Hd Hc Hu Hne) as [[A1 A2] [B1 B2]].
  assert (Hnot : forall t', t' <> GSM_RESERVED_TMSI -> has_tmsi (v <| tmsi := t |>) t' -> has_tmsi u t' -> False).
  { intros t' Hr [<-|Hn] Hut; [by apply (Hno u)|]. apply (A2 t' Hr Hut). by right. }
  split; (split; [done|]); intros t' Hr; [intros Hu' Hv'; by apply (Hnot t')|intros Hv' Hu'; by apply (Hnot t')].
Qed.

(** ** Reachable databases

    A database is reached by the operations of vlr.c for IMSIs of at most 15
    characters; by what the procedures do to the TMSIs of their subscriber; and
    by sgs_restore_one of sgs_iface.c, which gives a record the TMSI of a stored
    association, provided that no other record has it. *)

Definition empty_db (clock : option Z) : vlr_db := mk_db [] ∅ ∅ ∅ 1 0 clock [].

(** what the procedures do to the TMSIs of their subscriber before they rehash *)
Inductive tmsi_change (v : vlr_subscr) : vlr_subscr -> Prop :=
| TmsiConfirmed : tmsi_change v (v <| tmsi := tmsi_new v |> <| tmsi_new := GSM_RESERVED_TMSI |>)
| TmsiNewDropped : tmsi_change v (v <| tmsi_new := GSM_RESERVED_TMSI |>)
| TmsiDropped : tmsi_change v (v <| tmsi := GSM_RESERVED_TMSI |>)
| TmsiBothDropped :
    tmsi_change v (v <| tmsi_new := GSM_RESERVED_TMSI |> <| tmsi := GSM_RESERVED_TMSI |>).

Definition valid_imsi (i : string) : Prop := i <> "" /\ (String.length i <= 15)%nat.

Inductive db_reachable : vlr_db -> Prop :=
| ReachEmpty c : db_reachable (empty_db c)
| ReachByImsi d i v d' : db_reachable d -> valid_imsi i ->
    _vlr_subscr_find_or_create_by_imsi d i = Some (v, d') -> db_reachable d'
| ReachByTmsi d t v d' : db_reachable d ->
    _vlr_subscr_find_or_create_by_tmsi d t = Some (v, d') -> db_reachable d'
| ReachSetImsi d v i : db_reachable d -> checked_out v d -> valid_imsi i ->
    db_reachable (snd (vlr_subscr_set_imsi v i d))
| ReachAllocTmsi d v : db_reachable d -> checked_out v d ->
    db_reachable (snd (vlr_subscr_alloc_tmsi v d))
| ReachTmsi d v v' : db_reachable d -> checked_out v d -> tmsi_change v v' ->
    db_reachable (vlr_subscr_rehash_tmsi v' d)
| ReachRestored d v t : db_reachable d -> checked_out v d ->
    (forall u, u ∈ subscribers d -> vs_ptr u <> vs_ptr v -> ~ has_tmsi u t) ->
    db_reachable (vlr_subscr_rehash_tmsi (v <| tmsi := t |>) d)
| ReachCommit d v : db_reachable d -> checked_out v d -> db_reachable (commit v d)
| ReachFree d v : db_reachable d -> db_reachable (unlink v d).

Lemma empty_wf c : db_wf (empty_db c).
Proof.
  assert (Hi : forall key, indexed key [] ∅).
  { intros key p b. unfold chain. rewrite lookup_empty. cbn. set_solver. }
  split; cbn; [constructor|set_solver|apply Hi..|set_solver].
Qed.

Lemma tmsi_change_ids v v' : tmsi_change v v' ->
  vs_ptr v' = vs_ptr v /\ imsi v' = imsi v
  /\ forall t, t <> GSM_RESERVED_TMSI -> has_tmsi v' t -> has_tmsi v t.
Proof. destruct 1; (split_and!; [done..|]); unfold has_tmsi; cbn; intros t Ht; naive_solver. Qed.

Lemma alloc_tmsi_result v d : db_wf d -> checked_out v d ->
  alloc_result v (commit v d) (vlr_subscr_alloc_tmsi v d).
Proof.
  intros Hd Hc. apply alloc_loop_result; [by apply commit_wf|].
  exists v. split; [|done]. rewrite commit_subscribers, elem_of_replace.
  left. split; [done | by apply checked_out_ptr].
Qed.

Lemma reachable_wf d : db_reachable d -> db_wf d.
Proof.
  induction 1 as [c|d i v d' _ IH [Hi Hl] E|d t v d' _ IH E|d v i _ IH Hc [Hi Hl]|d v _ IH Hc
                 |d v v' _ IH Hc Ht|d v t _ IH Hc Ht|d v _ IH Hc|d v _ IH].
  - apply empty_wf.
  - destruct (create_by_imsi_spec d i IH Hi Hl) as (v1 & d1 & E1 & Hd1 & _). congruence.
  - destruct (create_by_tmsi_spec d t IH) as (v1 & d1 & E1 & Hd1 & _). congruence.
  - pose proof (set_imsi_spec v i d IH Hc Hi Hl) as Hs.
    destruct (vlr_subscr_set_imsi v i d). by apply Hs.
  - pose proof (alloc_tmsi_result v d IH Hc) as Ha.
    destruct (vlr_subscr_alloc_tmsi v d) as [[rc v'] d']. by apply Ha.
  - destruct (tmsi_change_ids v v' Ht) as (Hp & Hi & Hh). by eapply drop_tmsi_wf.
  - by apply set_tmsi_wf.
  - by apply commit_wf.
  - by apply unlink_wf.
Qed.

(** C10: In every database that the operations can reach, the hash table lookups
    by IMSI, by TMSI and by mobile identity return exactly the record that a
    search of the whole subscriber list returns, and no two records share an
    IMSI or a TMSI. IMSIs have at most 15 characters, and a TMSI that is restored
    with an SGs association is one that no other record has. *)
Theorem lookups_agree_with_list d : db_reachable d ->
  (forall i, _vlr_subscr_find_by_imsi d i
             = List.find (fun v => vlr_subscr_matches_imsi v i) (subscribers d))
  /\ (forall t, _vlr_subscr_find_by_tmsi d t
               = List.find (fun v => vlr_subscr_matches_tmsi v t) (subscribers d))
  /\ (forall mi, _vlr_subscr_find_by_mi d mi
                = List.find (fun v => match mi with
                                      | MiImsi i => vlr_subscr_matches_imsi v i
                                      | MiTmsi t => vlr_subscr_matches_tmsi v t
                                      | _ => false
                                      end) (subscribers d))
  /\ (forall u v, u ∈ subscribers d -> v ∈ subscribers d -> u <> v ->
       (imsi u <> "" -> imsi u <> imsi v)
       /\ forall t, t <> GSM_RESERVED_TMSI -> has_tmsi u t -> ~ has_tmsi v t).
Proof.
  intros Hd%reachable_wf. split_and!.
  - intros i. by apply find_imsi_list.
  - intros t. by apply find_tmsi_list.
  - assert (Hno : forall l : list vlr_subscr, List.find (fun _ => false) l = None) by (by induction l).
    intros [|i|i|i|t]; cbn [_vlr_subscr_find_by_mi]; first [by apply find_imsi_list|by apply find_tmsi_list|by rewrite Hno].
  - intros u v Hu Hv Hne. destruct (wf_apart d Hd u v Hu Hv) as [A1 A2].
    + intros E. apply Hne. by apply (ptr_inj (subscribers d)); [apply wf_nodup|..].
    + split; [done|]. intros t Ht H1 H2. by apply (A2 t).
Qed.

(** C11: vlr_subscr_set_imsi leaves exactly one record with the IMSI: the given
    subscriber, under the same address and TMSIs, and a lookup finds it; a
    record that had the IMSI before has lost all its identities or is gone. *)
Theorem set_imsi_unique d v i : db_reachable d -> checked_out v d -> valid_imsi i ->
  let '(v', d') := vlr_subscr_set_imsi v i d in
  imsi v' = i /\ vs_ptr v' = vs_ptr v /\ tmsi v' = tmsi v /\ tmsi_new v' = tmsi_new v
  /\ _vlr_subscr_find_by_imsi d' i = Some v'
  /\ (forall u, u ∈ subscribers d' -> imsi u = i -> u = v').
Proof.
  intros Hd%reachable_wf Hc [Hi Hl]. pose proof (set_imsi_spec v i d Hd Hc Hi Hl) as Hs.
  destruct (vlr_subscr_set_imsi v i d) as [v' d']. destruct Hs as (Hw & Hv & Ei & Hp & Ht & Hn).
  split_and!; [done..| |].
  - rewrite find_imsi_list by done. destruct (List.find _ _) as [u|] eqn:E.
    + apply List.find_some in E as [Hu%list_elem_of_In [Eu _]%matches_imsi_iff].
      f_equal. by eapply unique_imsi.
    + eapply List.find_none in E; [|by apply list_elem_of_In]. apply not_true_iff_false in E.
      destruct E. by apply matches_imsi_iff.
  - intros u Hu Eu. by eapply unique_imsi.
Qed.
End proofs.

(** ** TMSI values *)

(** the C types: uint32_t results *)
Class DbLibLaws (DL : DbLib) : Prop := {
  rand_u32 n : 0 <= snd (rand_id n) < 2 ^ 32;
  nri_u32 f t : nri_limit = Some f -> 0 <= t < 2 ^ 32 -> 0 <= f t < 2 ^ 32
}.

(** TS 23.003 2.4: the two most significant bits of an MSC's TMSI are not 11 *)
Definition msc_tmsi (t : Z) : Prop :=
  0 <= t < 2 ^ 32 /\ Z.land t GSM23003_TMSI_SGSN_MASK <> GSM23003_TMSI_SGSN_MASK.

Lemma msc_tmsi_not_reserved t : msc_tmsi t -> t <> GSM_RESERVED_TMSI.
Proof. intros [_ H] ->. by apply H. Qed.

Lemma land_u30 t : 0 <= t < 2 ^ 32 -> 0 <= Z.land t 0x3FFFFFFF < 2 ^ 32.
Proof.
  intros H. change 0x3FFFFFFF with (Z.ones 30). rewrite Z.land_ones by lia.
  assert (0 <= t mod 2 ^ 30 < 2 ^ 30) by (apply Z.mod_pos_bound; lia). lia.
Qed.

Lemma draw_tmsi_msc {DL : DbLib} {DLL : DbLibLaws DL} n d t :
  vlr_is_ps = false -> draw_tmsi (snd (rand_id n)) d = Some t -> msc_tmsi t.
Proof.
  intros Hps. unfold draw_tmsi. set (r := match nri_limit with Some f => _ | None => _ end).
  assert (Hr : 0 <= r < 2 ^ 32).
  { unfold r. destruct nri_limit as [f|] eqn:E; [apply nri_u32; [done|]|]; apply rand_u32. }
  destruct (r =? GSM_RESERVED_TMSI); [done|]. rewrite Hps.
  destruct (Z.eqb_spec (Z.land r GSM23003_TMSI_SGSN_MASK) GSM23003_TMSI_SGSN_MASK) as [E|E].
  - destruct (_vlr_subscr_find_by_tmsi _ _); [done|]. intros [= <-]. split; [by apply land_u30|].
    rewrite <- Z.land_assoc. change (Z.land _ GSM23003_TMSI_SGSN_MASK) with 0. by rewrite Z.land_0_r.
  - destruct (_vlr_subscr_find_by_tmsi _ _); [done|]. intros [= <-]. by split.
Qed.

Lemma find_in_chain_rand d n c f : find_in_chain (d <| rand_pos := n |>) c f = find_in_chain d c f.
Proof. induction c as [|p c IH]; [done|]. cbn. by rewrite IH. Qed.

Lemma draw_tmsi_rand {DL : DbLib} raw d n : draw_tmsi raw (d <| rand_pos := n |>) = draw_tmsi raw d.
Proof. unfold draw_tmsi, _vlr_subscr_find_by_tmsi. by rewrite !find_in_chain_rand. Qed.

(** The loop fails only when the random source fails or no draw is usable. *)
Lemma alloc_loop_complete {DL : DbLib} n v d k :
  (forall j, 0 <= fst (rand_id j)) -> (k < n)%nat ->
  draw_tmsi (snd (rand_id (rand_pos d + k))) d <> None ->
  fst (fst (alloc_tmsi_loop n v d)) = 0.
Proof.
  intros Hr. revert d k. induction n as [|n IH]; intros d k Hk Hd; [lia|]. cbn.
  destruct (rand_id (rand_pos d)) as [rc raw] eqn:E.
  pose proof (Hr (rand_pos d)) as Hrc. rewrite E in Hrc. cbn in Hrc.
  rewrite (proj2 (Z.ltb_ge _ _) Hrc). destruct (draw_tmsi raw _) as [t|] eqn:Ed; [done|].
  destruct k as [|k].
  - rewrite Nat.add_0_r, E in Hd. destruct Hd.
    by rewrite <- (draw_tmsi_rand raw d (S (rand_pos d))).
  - apply (IH _ k); [lia|]. rewrite Nat.add_succ_r in Hd.
    rewrite <- (draw_tmsi_rand _ d (S (rand_pos d))) in Hd. exact Hd.
Qed.

(** C16: vlr_subscr_alloc_tmsi of an MSC gives the subscriber a new TMSI that is
    a 32 bit number with the two top bits other than 11, so never the reserved
    TMSI; no record had it, and a lookup by it now finds the subscriber.  On an
    error the subscriber is unchanged.  It succeeds whenever one of the first
    100 random numbers is usable. *)
Theorem alloc_tmsi_correct {DL : DbLib} {DLL : DbLibLaws DL} d v :
  vlr_is_ps = false -> db_reachable d -> checked_out v d ->
  let '(rc, v', d') := vlr_subscr_alloc_tmsi v d in
  (rc = 0 -> msc_tmsi (tmsi_new v') /\ v' = v <| tmsi_new := tmsi_new v' |>
             /\ (forall u, u ∈ subscribers (commit v d) -> ~ has_tmsi u (tmsi_new v'))
             /\ _vlr_subscr_find_by_tmsi d' (tmsi_new v') = Some v')
  /\ (rc <> 0 -> v' = v /\ subscribers d' = subscribers (commit v d))
  /\ ((forall j, 0 <= fst (rand_id j)) ->
      (exists k, (k < 100)%nat /\ draw_tmsi (snd (rand_id (rand_pos d + k))) (commit v d) <> None) ->
      rc = 0).
Proof.
  intros Hps Hd%reachable_wf Hc. pose proof (alloc_tmsi_result v d Hd Hc) as Ha.
  pose proof (alloc_loop_complete 100 v (commit v d)) as Hcpl.
  change (alloc_tmsi_loop 100 v (commit v d)) with (vlr_subscr_alloc_tmsi v d) in Hcpl.
  destruct (vlr_subscr_alloc_tmsi v d) as [[rc v'] d']. cbn in Hcpl.
  destruct Ha as (Hd' & Hc' & Ho). split_and!.
  - intros Hrc. destruct Ho as [[? _]|(_ & k & dd & Es & Hw & Ed & Ev & Es')]; [done|].
    pose proof (draw_tmsi_msc k dd _ Hps Ed) as Hm. pose proof (msc_tmsi_not_reserved _ Hm) as Hr.
    split_and!; [done|done| |].
    + intros u Hu. rewrite <- Es in Hu. eapply find_tmsi_none; [done..| |done]. by eapply draw_tmsi_some.
    + assert (Hv' : v' ∈ subscribers d').
      { rewrite Es', elem_of_replace. left. split; [done|]. rewrite Ev.
        rewrite commit_subscribers, replace_ptrs. by apply (checked_out_ptr v d). }
      rewrite find_tmsi_list by done. destruct (List.find _ _) as [u|] eqn:E.
      * apply List.find_some in E as [Hu%list_elem_of_In [_ Hh]%matches_tmsi_iff].
        f_equal. apply (unique_tmsi d' u v' (tmsi_new v')); [done..|by right|done].
      * eapply List.find_none in E; [|by apply list_elem_of_In]. apply not_true_iff_false in E.
        destruct E. apply matches_tmsi_iff. split; [done | by right].
  - intros Hrc. by destruct Ho as [(_ & ? & ?)|[? _]].
  - intros Hj (k & Hk & Hd0). by apply (Hcpl k).
Qed.

(** ** Behaviours that other parts of the code do not expect *)

(** C37: For an SGSN the reserved value is only excluded before the two top bits
    are set: the draw 0x3FFFFFFF is accepted and the reserved TMSI 0xFFFFFFFF is
    allocated. *)
Theorem alloc_tmsi_reserved_ps {DL : DbLib} d v :
  vlr_is_ps = true -> nri_limit = None -> rand_id (rand_pos d) = (0, 0x3FFFFFFF) ->
  let '(rc, v', _) := vlr_subscr_alloc_tmsi v d in
  rc = 0 /\ tmsi_new v' = GSM_RESERVED_TMSI.
Proof.
  intros Hps Hn Hr. unfold vlr_subscr_alloc_tmsi. cbn [alloc_tmsi_loop].
  change (rand_pos (commit v d)) with (rand_pos d). rewrite Hr. unfold draw_tmsi. rewrite Hn, Hps.
  done.
Qed.

(** C38: Merging copies the first valid tuple of the old record into every free
    place of the new one; the other tuples of the old record are lost. *)
Theorem dedup_copies_one_tuple o old new :
  key_seq o <> VLR_KEY_SEQ_INVAL ->
  dedup_tuples (o :: old) new
  = map (fun n => if key_seq n =? VLR_KEY_SEQ_INVAL then o else n) new.
Proof.
  intros Ho. unfold dedup_tuples. cbn [fold_left]. rewrite (proj2 (Z.eqb_neq _ _) Ho).
  set (l := map _ new). assert (Hl : Forall (fun n => key_seq n <> VLR_KEY_SEQ_INVAL) l).
  { apply Forall_forall. intros n (x & <- & _)%list_elem_of_In%in_map_iff.
    by destruct (Z.eqb_spec (key_seq x) VLR_KEY_SEQ_INVAL). }
  transitivity l; [|apply map_ext; intros n; by destruct (key_seq n =? _)].
  clear Ho. generalize dependent l. intros l Hl. induction old as [|x old IH]; [done|]. cbn [fold_left].
  destruct (key_seq x =? VLR_KEY_SEQ_INVAL); [done|].
  etransitivity; [apply (f_equal (fold_left _ old)), (map_ext_in _ id)|by rewrite map_id].
  intros n Hn%list_elem_of_In. rewrite Forall_forall in Hl. by rewrite (proj2 (Z.eqb_neq _ _) (Hl n Hn)).
Qed.

(** When the record that is given up is being paged, the surviving record
    takes over its requests and counts as being paged, but the timer of the
    paging response does not run for it: nothing ends the paging if the MS does
    not respond. *)
Theorem join_leaves_paging_without_timer v e d :
  is_paging e = true -> cs_requests e <> [] -> is_paging v = false ->
  cs_paging_response_timer v = false ->
  let '(v', _, _) := paging_request_join_vsub v e d in
  is_paging v' = true /\ cs_requests v' = cs_requests v ++ cs_requests e
  /\ cs_paging_response_timer v' = false.
Proof.
  intros He Hr Hv Ht. unfold paging_request_join_vsub. rewrite He. cbn [negb].
  destruct (put_record _ _ _) as [e' d'].
  change (is_paging (v <| cs_requests ::= _ |>)) with (is_paging v). rewrite Hv.
  change (cs_requests (v <| cs_requests ::= _ |>)) with (cs_requests v ++ cs_requests e).
  rewrite length_app. destruct (cs_requests e) as [|r rs] eqn:E; [done|].
  rewrite (proj2 (Nat.eqb_neq _ _)) by (cbn; lia). done.
Qed.

(** C39: When the record that is given up is in use by the paging only, the merge
    drops that use first and so frees the record, goes on using it, and frees it
    a second time at the end. *)
Theorem dedup_frees_twice {DL : DbLib} e v d :
  is_paging e = true -> lu_complete e = false -> use_count_of e = {[VSUB_USE_PAGING := 1]} ->
  db_log (snd (dedup_vsub e v d))
  = SubscrFreed (vs_ptr e) :: CancelAttachFsm (vs_ptr e) GSM48_REJECT_CONGESTION
    :: SubscrInval (vs_ptr e) :: SubscrFreed (vs_ptr e) :: db_log d.
Proof.
  intros Hp Hl Hu.
  assert (Hjoin : exists v' e' d', paging_request_join_vsub v e d = (v', e', d')
            /\ vs_ptr e' = vs_ptr e /\ lu_complete e' = false
            /\ use_count_of e' = <[VSUB_USE_PAGING := 0]> {[VSUB_USE_PAGING := 1]}
            /\ db_log d' = SubscrFreed (vs_ptr e) :: db_log d).
  { unfold paging_request_join_vsub, put_record. rewrite Hp. cbn [negb].
    set (e1 := vsub_use_add _ _ _).
    assert (Hu1 : use_count_of e1 = <[VSUB_USE_PAGING := 0]> {[VSUB_USE_PAGING := 1]}).
    { transitivity (<[VSUB_USE_PAGING := default 0 (use_count_of e !! VSUB_USE_PAGING) + -1]>
        (use_count_of e)); [done|]. by rewrite Hu. }
    replace (vsub_use_count VSUB_USE_PAGING e1 <? 0) with false
      by (unfold vsub_use_count; rewrite Hu1; reflexivity).
    replace (vsub_use_total e1 <=? 0) with true by (unfold vsub_use_total; rewrite Hu1; reflexivity).
    eexists _, _, _. split; [done|]. by split_and!. }
  destruct Hjoin as (v' & e' & d' & E & Ep & El & Eu & Elog). unfold dedup_vsub. rewrite E.
  set (e2 := vsub_use_add _ _ e' <| msc_conn_ref := _ |> <| imsi := _ |> <| msisdn := _ |>
               <| tmsi := _ |> <| tmsi_new := _ |> <| lu_fsm := _ |> <| auth_fsm := _ |>).
  cbn [snd]. unfold dedup_release. change (lu_complete e2) with (lu_complete e'). rewrite El.
  unfold put_record. set (e3 := vsub_use_add VSUB_USE_DEDUP (-1) e2).
  assert (Hu3 : use_count_of e3
     = <[VSUB_USE_DEDUP := 0]> (<[VSUB_USE_DEDUP := 1]> (<[VSUB_USE_PAGING := 0]> {[VSUB_USE_PAGING := 1]}))).
  { set (m := <[VSUB_USE_DEDUP := default 0 (use_count_of e' !! VSUB_USE_DEDUP) + 1]> (use_count_of e')).
    transitivity (<[VSUB_USE_DEDUP := default 0 (m !! VSUB_USE_DEDUP) + -1]> m); [done|].
    unfold m. rewrite Eu. reflexivity. }
  replace (vsub_use_count VSUB_USE_DEDUP e3 <? 0) with false
    by (unfold vsub_use_count; rewrite Hu3; reflexivity).
  replace (vsub_use_total e3 <=? 0) with true by (unfold vsub_use_total; rewrite Hu3; reflexivity).
  transitivity (SubscrFreed (vs_ptr e') :: CancelAttachFsm (vs_ptr e') GSM48_REJECT_CONGESTION
    :: SubscrInval (vs_ptr e') :: db_log d'); [done|]. by rewrite Ep, Elog.
Qed.

(** ** The theorems on concrete databases *)

(** colliding buckets, and draws 1, 8, 15, ... *)
Definition sample_dblib (ps : bool) (raw : nat -> Z) : DbLib := {|
  imsi_bucket := fun i => Z.of_nat (String.length i);
  tmsi_bucket := fun t => t mod 4;
  rand_id := fun n => (0, raw n);
  nri_limit := None;
  vlr_is_ps := ps
|}.

Definition msc_dblib : DbLib := sample_dblib false (fun n => (7 * Z.of_nat n + 1) mod 2 ^ 32).

Lemma msc_dblib_laws : DbLibLaws msc_dblib.
Proof. split; [intros n; apply Z.mod_pos_bound; lia | done]. Qed.

Definition sample_imsi : string := "262420000000001".

(** a record known by its IMSI *)
Definition sample_db1 : vlr_db :=
  match @_vlr_subscr_find_or_create_by_imsi msc_dblib (empty_db (Some 1000)) sample_imsi with
  | Some (_, d) => d
  | None => empty_db None
  end.

(** and another one known by a TMSI *)
Definition sample_db : vlr_db :=
  match @_vlr_subscr_find_or_create_by_tmsi msc_dblib sample_db1 5 with
  | Some (_, d) => d
  | None => empty_db None
  end.

Definition sample_v0 : vlr_subscr := nth 0 (subscribers sample_db) new_vsub.
Definition sample_v : vlr_subscr := nth 1 (subscribers sample_db) new_vsub.

Lemma sample_db_reachable : @db_reachable msc_dblib sample_db.
Proof.
  apply (@ReachByTmsi msc_dblib sample_db1 5 sample_v); [|vm_compute; reflexivity].
  apply (@ReachByImsi msc_dblib (empty_db (Some 1000)) sample_imsi sample_v0).
  - apply ReachEmpty.
  - split; [done | cbn; lia].
  - vm_compute. reflexivity.
Qed.

Lemma sample_v_out : checked_out sample_v sample_db.
Proof. exists sample_v. split; [|done]. vm_compute. right. left. Qed.

Lemma lookups_agree_with_list_witness :
  @_vlr_subscr_find_by_mi msc_dblib sample_db (MiTmsi 5) = Some sample_v.
Proof.
  destruct (@lookups_agree_with_list msc_dblib sample_db sample_db_reachable) as (_ & _ & H & _).
  rewrite (H (MiTmsi 5)). vm_compute. reflexivity.
Defined.

(** the second record turns out to be the same subscriber *)
Lemma set_imsi_unique_witness :
  let '(v', d') := @vlr_subscr_set_imsi msc_dblib sample_v sample_imsi sample_db in
  @_vlr_subscr_find_by_imsi msc_dblib d' sample_imsi = Some v' /\ tmsi v' = 5.
Proof.
  assert (Hi : valid_imsi sample_imsi) by (split; [done | cbn; lia]).
  pose proof (@set_imsi_unique msc_dblib sample_db sample_v sample_imsi sample_db_reachable
                sample_v_out Hi) as H.
  destruct (@vlr_subscr_set_imsi msc_dblib sample_v sample_imsi sample_db) as [v' d'].
  destruct H as (_ & _ & H1 & _ & H2 & _). split; [exact H2 | rewrite H1; vm_compute; reflexivity].
Defined.

Lemma alloc_tmsi_correct_witness :
  let '(rc, v', d') := @vlr_subscr_alloc_tmsi msc_dblib sample_v sample_db in
  rc = 0 /\ msc_tmsi (tmsi_new v').
Proof.
  pose proof (@alloc_tmsi_correct msc_dblib msc_dblib_laws sample_db sample_v eq_refl
                sample_db_reachable sample_v_out) as H.
  destruct (@vlr_subscr_alloc_tmsi msc_dblib sample_v sample_db) as [[rc v'] d'].
  destruct H as (H1 & _ & H3).
  assert (Hrc : rc = 0).
  { apply H3; [intros; cbn; lia|]. exists 1%nat. split; [lia | vm_compute; discriminate]. }
  split; [exact Hrc | apply (H1 Hrc)].
Defined.

Lemma alloc_tmsi_reserved_ps_witness :
  tmsi_new (snd (fst (@vlr_subscr_alloc_tmsi (sample_dblib true (fun _ => 0x3FFFFFFF))
                        sample_v sample_db))) = GSM_RESERVED_TMSI.
Proof.
  pose proof (@alloc_tmsi_reserved_ps (sample_dblib true (fun _ => 0x3FFFFFFF)) sample_db sample_v
                eq_refl eq_refl eq_refl) as H.
  destruct (@vlr_subscr_alloc_tmsi _ sample_v sample_db) as [[rc v'] d']. exact (proj2 H).
Defined.

Lemma dedup_copies_one_tuple_witness :
  dedup_tuples [mk_tuple 0 0 zero_vec; mk_tuple 0 1 zero_vec] [inval_tuple; inval_tuple]
  = [mk_tuple 0 0 zero_vec; mk_tuple 0 0 zero_vec].
Proof. rewrite (dedup_copies_one_tuple (mk_tuple 0 0 zero_vec)); [reflexivity | discriminate]. Defined.

(** an old record in use by a paging only *)
Definition paged_v : vlr_subscr :=
  new_vsub <| vs_ptr := 7 |> <| imsi := sample_imsi |> <| is_paging := true |>
           <| cs_requests := [mk_paging_request PAGING_CAUSE_UNSPECIFIED (Some 1)] |>
           <| cs_paging_response_timer := true |> <| use_count_of := {[VSUB_USE_PAGING := 1]} |>.

Lemma join_leaves_paging_without_timer_witness :
  let '(v', _, _) := paging_request_join_vsub sample_v paged_v sample_db in
  is_paging v' = true /\ cs_paging_response_timer v' = false.
Proof.
  pose proof (join_leaves_paging_without_timer sample_v paged_v sample_db eq_refl) as H.
  destruct (paging_request_join_vsub sample_v paged_v sample_db) as [[v' e'] d'].
  destruct H as (H1 & _ & H2); [discriminate|reflexivity..|]. split; [exact H1 | exact H2].
Defined.

Lemma dedup_frees_twice_witness :
  db_log (snd (@dedup_vsub msc_dblib paged_v sample_v sample_db))
  = [SubscrFreed 7; CancelAttachFsm 7 22; SubscrInval 7; SubscrFreed 7].
Proof. rewrite (@dedup_frees_twice msc_dblib); reflexivity. Defined.
