(* ===== verification/VlrUseProofs.v ===== *)
(** * Use counts are balanced

    Every operation of the VLR leaves the use counts of its subscriber as it
    found them, except for the uses that stand for a lasting relation: attached,
    paging, SGs paging and SGs location update, each tied to a flag of the
    record.  A record that someone else holds is therefore never freed. *)

From S2P Require Import Prelude OsmoFsm WorldRel Gsm VlrTypes VlrSubscr VlrUse VlrAuthTuples.
From S2P Require Import VlrAuthFsm VlrLuSub VlrLu VlrArq VlrSgs Paging SgsIface VlrSystem.

(** ** Sums of counts *)

Section sums.
Implicit Type m : gmap string Z.

Definition sum_of m : Z := map_fold (fun _ c total => c + total) 0 m.

Lemma sum_insert m k x : m !! k = None -> sum_of (<[k := x]> m) = x + sum_of m.
Proof. intros H. unfold sum_of. rewrite map_fold_insert_L; [done| |done]. intros; lia. Qed.

Lemma sum_nonneg m : (forall k x, m !! k = Some x -> 0 <= x) -> 0 <= sum_of m.
Proof.
  induction m as [|k x m Hk IH] using map_ind; intros H; [done|].
  rewrite sum_insert by done. assert (0 <= x) by (apply (H k); apply lookup_insert_eq).
  assert (0 <= sum_of m); [|lia]. apply IH. intros j y Hj. apply (H j).
  rewrite lookup_insert_ne; [done|]. intros ->. congruence.
Qed.

Lemma sum_pos m k x :
  (forall k x, m !! k = Some x -> 0 <= x) -> m !! k = Some x -> 0 < x -> 0 < sum_of m.
Proof.
  intros H Hk Hx. rewrite <- (insert_delete_id m k x) by done.
  rewrite sum_insert by apply lookup_delete_eq.
  assert (0 <= sum_of (delete k m)); [|lia]. apply sum_nonneg.
  intros j y [_ Hj]%lookup_delete_Some. by apply (H j).
Qed.
End sums.

(** ** The invariant of a record *)

Definition managed (tok : string) : Prop :=
  tok = VSUB_USE_ATTACHED \/ tok = VSUB_USE_SGS_PAGING_REQ \/ tok = VSUB_USE_PAGING
  \/ tok = VSUB_USE_SGS_LU.

Definition b2z (b : bool) : Z := if b then 1 else 0.

Record uses_ok (v : vlr_subscr) : Prop := mk_uses_ok {
  uses_nonneg : forall tok, 0 <= vsub_use_count tok v;
  uses_attached : vsub_use_count VSUB_USE_ATTACHED v = b2z (lu_complete v);
  uses_sgs_paging : vsub_use_count VSUB_USE_SGS_PAGING_REQ v = b2z (sgs_Ts5_pending v);
  uses_paging : vsub_use_count VSUB_USE_PAGING v = b2z (is_paging v)
}.

(** somebody outside the managed relations holds the record *)
Definition held (v : vlr_subscr) : Prop := exists tok, ~ managed tok /\ 0 < vsub_use_count tok v.

Lemma total_pos v tok :
  (forall tok, 0 <= vsub_use_count tok v) -> 0 < vsub_use_count tok v -> 0 < vsub_use_total v.
Proof.
  intros H Hp. unfold vsub_use_count in Hp.
  destruct (use_count_of v !! tok) as [x|] eqn:E; [|done].
  eapply (sum_pos _ tok x); [|done..]. intros k y Hk. specialize (H k).
  unfold vsub_use_count in H. by rewrite Hk in H.
Qed.

Lemma total_zero v tok :
  (forall tok, 0 <= vsub_use_count tok v) -> vsub_use_total v <= 0 -> vsub_use_count tok v = 0.
Proof.
  intros H Ht. specialize (H tok) as Hk. destruct (decide (0 < vsub_use_count tok v)) as [Hp|]; [|lia].
  pose proof (total_pos v tok H Hp). lia.
Qed.

Lemma count_add_eq tok n v : vsub_use_count tok (vsub_use_add tok n v) = vsub_use_count tok v + n.
Proof. unfold vsub_use_count at 1. cbn. by rewrite lookup_insert_eq. Qed.

Lemma count_add_ne tok tok' n v :
  tok <> tok' -> vsub_use_count tok' (vsub_use_add tok n v) = vsub_use_count tok' v.
Proof. intros H. unfold vsub_use_count at 1. cbn. by rewrite lookup_insert_ne. Qed.

(** ** Parent events

    The events that a procedure may be asked to report; those that make a
    procedure look up its subscriber are not among them. *)
Definition pe_ok (pe : vlr_pe) : Prop :=
  pe <> PeLu VLR_ULA_E_UPDATE_LA /\ pe <> PeArq PR_ARQ_E_START /\ pe <> PeArq PR_ARQ_E_ID_IMSI.

Section worlds.
Context {DB : Type} {VDB : VlrDb DB}.
Implicit Type w : world DB.

Definition parent_pes w : list vlr_pe :=
  [afp_event_success (afp w); afp_event_no_auth_info (afp w); afp_event_failure (afp w);
   lcvp_event_success (lcvp w); lcvp_event_failure (lcvp w);
   fi_parent_term_event (w_auth w); fi_parent_term_event (w_upd w);
   fi_parent_term_event (w_pres w); fi_parent_term_event (w_compl w);
   fi_parent_term_event (w_lu w); fi_parent_term_event (w_arq w)].

Definition good w : Prop :=
  uses_ok (vsub w) /\ Forall uses_ok (db_subscribers (db w)) /\ Forall pe_ok (parent_pes w).

Definition is_free (o : vlr_out) : bool := match o with SubscrFree _ => true | _ => false end.
Definition freed (p : Z) w : Prop := SubscrFree p ∈ out w.

(** what an operation does to the uses of its subscriber; it frees no other
    record, and this one only when nobody holds it *)
Definition bal w w' : Prop :=
  good w ->
  good w' /\ vs_ptr (vsub w') = vs_ptr (vsub w)
  /\ (forall tok, ~ managed tok -> vsub_use_count tok (vsub w') = vsub_use_count tok (vsub w))
  /\ (forall p, freed p w' -> freed p w \/ (p = vs_ptr (vsub w) /\ ~ held (vsub w))).

Lemma held_counts v v' :
  (forall tok, ~ managed tok -> vsub_use_count tok v' = vsub_use_count tok v) ->
  held v -> held v'.
Proof. intros H (tok & Ht & Hp). exists tok. by rewrite H. Qed.

#[export] Instance bal_preorder : PreOrder bal.
Proof.
  split.
  - intros w H. split_and!; [done..|]. intros p Hp. by left.
  - intros w1 w2 w3 H12 H23 H1. destruct (H12 H1) as (H2 & P2 & C2 & F2).
    destruct (H23 H2) as (H3 & P3 & C3 & F3). split_and!; [done|congruence| |].
    + intros tok Ht. by rewrite C3, C2.
    + intros p [Hp|[Hp Hh]]%F3; [by apply F2|]. right. split; [congruence|].
      intros H. by apply Hh, (held_counts (vsub w1)).
Qed.

Lemma bal_if_good w w' : (good w -> bal w w') -> bal w w'.
Proof. intros H Hg. by apply H. Qed.

(** the parts of the world that the invariant looks at *)
Record view : Type := mk_view {
  uv_ptr : Z; uv_counts : gmap string Z; uv_lu : bool; uv_Ts5 : bool; uv_paging : bool;
  uv_db : DB; uv_pes : list vlr_pe; uv_free : list vlr_out
}.

Definition use_view w : view :=
  mk_view (vs_ptr (vsub w)) (use_count_of (vsub w)) (lu_complete (vsub w))
    (sgs_Ts5_pending (vsub w)) (is_paging (vsub w)) (db w) (parent_pes w)
    (List.filter is_free (out w)).

Lemma freed_view p w : freed p w <-> SubscrFree p ∈ List.filter is_free (out w).
Proof. unfold freed. rewrite !list_elem_of_In, filter_In. naive_solver. Qed.

(** a step that touches none of them *)
Lemma bal_frame w w' : use_view w' = use_view w -> bal w w'.
Proof.
  intros E. pose proof (f_equal uv_ptr E) as Ep. pose proof (f_equal uv_counts E) as Eu.
  pose proof (f_equal uv_lu E) as El. pose proof (f_equal uv_Ts5 E) as Et.
  pose proof (f_equal uv_paging E) as Ei. pose proof (f_equal uv_db E) as Ed.
  pose proof (f_equal uv_pes E) as Epe. pose proof (f_equal uv_free E) as Eo. clear E.
  cbn [use_view uv_ptr uv_counts uv_lu uv_Ts5 uv_paging uv_db uv_pes uv_free] in *.
  assert (Hc : forall tok, vsub_use_count tok (vsub w') = vsub_use_count tok (vsub w)).
  { intros tok. unfold vsub_use_count. f_equal. by apply (f_equal (lookup tok)). }
  intros (H1 & H2 & H3). split_and!.
  - split_and!.
    + split; [intros tok; rewrite Hc; apply H1|rewrite Hc|rewrite Hc|rewrite Hc].
      * etransitivity; [apply H1|]. by f_equal.
      * etransitivity; [apply H1|]. by f_equal.
      * etransitivity; [apply H1|]. by f_equal.
    + by apply (eq_ind_r (fun d => Forall uses_ok (db_subscribers d)) H2 Ed).
    + by rewrite Epe.
  - done.
  - intros tok _. apply Hc.
  - intros p. rewrite !freed_view, Eo. by left.
Qed.
End worlds.

(** a step that only changes which events are to be reported *)
Lemma bal_pes {DB : Type} {VDB : VlrDb DB} (w w' : world DB) :
  vsub w' = vsub w -> db w' = db w -> out w' = out w ->
  (Forall pe_ok (parent_pes w) -> Forall pe_ok (parent_pes w')) -> bal w w'.
Proof.
  intros Ev Ed Eo Hp (H1 & H2 & H3). unfold good, freed. rewrite Ev, Ed, Eo.
  split_and!; [done|done|by apply Hp|done|done|by left].
Qed.

(** the same uses and flags *)
Definition same_uses (v v' : vlr_subscr) : Prop :=
  vs_ptr v' = vs_ptr v /\ use_count_of v' = use_count_of v /\ lu_complete v' = lu_complete v
  /\ sgs_Ts5_pending v' = sgs_Ts5_pending v /\ is_paging v' = is_paging v.

Lemma bal_vsub {DB : Type} {VDB : VlrDb DB} (w : world DB) v :
  same_uses (vsub w) v -> bal w (w <| vsub := v |>).
Proof.
  intros (E1 & E2 & E3 & E4 & E5). apply bal_frame. unfold use_view. cbn.
  by rewrite E1, E2, E3, E4, E5.
Qed.

(** What the database promises about uses *)
Class VlrDbUses (DB : Type) {VDB : VlrDb DB} : Prop := {
  commit_uses v d : uses_ok v -> Forall uses_ok (db_subscribers d) ->
    Forall uses_ok (db_subscribers (db_commit v d));
  rehash_uses v d : uses_ok v -> Forall uses_ok (db_subscribers d) ->
    Forall uses_ok (db_subscribers (db_rehash_tmsi v d));
  unlink_uses v d : Forall uses_ok (db_subscribers d) ->
    Forall uses_ok (db_subscribers (db_unlink v d));
  find_imsi_uses d i v : Forall uses_ok (db_subscribers d) -> db_find_by_imsi d i = Some v ->
    uses_ok v;
  find_tmsi_uses d t v : Forall uses_ok (db_subscribers d) -> db_find_by_tmsi d t = Some v ->
    uses_ok v;
  create_imsi_uses d i v d' : Forall uses_ok (db_subscribers d) ->
    db_find_or_create_by_imsi d i = Some (v, d') ->
    uses_ok v /\ Forall uses_ok (db_subscribers d');
  create_tmsi_uses d t v d' : Forall uses_ok (db_subscribers d) ->
    db_find_or_create_by_tmsi d t = Some (v, d') ->
    uses_ok v /\ Forall uses_ok (db_subscribers d');
  alloc_tmsi_uses v d : uses_ok v -> Forall uses_ok (db_subscribers d) ->
    let '(_, v', d') := db_alloc_tmsi v d in
    same_uses v v' /\ Forall uses_ok (db_subscribers d');
  set_imsi_uses v i d : uses_ok v -> Forall uses_ok (db_subscribers d) ->
    let '(v', d') := db_set_imsi v i d in
    uses_ok v' /\ vs_ptr v' = vs_ptr v
    /\ (forall tok, ~ managed tok -> vsub_use_count tok v' = vsub_use_count tok v)
    /\ Forall uses_ok (db_subscribers d')
}.

Lemma count_same tok v v' : same_uses v v' -> vsub_use_count tok v' = vsub_use_count tok v.
Proof. intros (_ & E & _). unfold vsub_use_count. by rewrite E. Qed.

Lemma uses_same v v' : same_uses v v' -> uses_ok v -> uses_ok v'.
Proof.
  intros Hs [H1 H2 H3 H4]. pose proof Hs as (_ & _ & El & Et & Ei).
  split; intros; rewrite (count_same _ v v' Hs); [done|by rewrite El|by rewrite Et|by rewrite Ei].
Qed.

Section ops.
Context {L : FsmLib} {LL : FsmLaws L} {DB : Type} {VDB : VlrDb DB} {VU : VlrDbUses DB}.
Implicit Type w : world DB.

(** ** Get, put and free *)

Definition same_view w w' : Prop := use_view w' = use_view w.

#[export] Instance same_view_preorder : PreOrder same_view.
Proof. split; [intros w; done|]. intros w1 w2 w3 H1 H2. unfold same_view in *. congruence. Qed.

Lemma sgs_fsm_remove_view w : same_view w (vlr_sgs_fsm_remove w).
Proof.
  unfold vlr_sgs_fsm_remove. etransitivity;
    [apply (state_chg_rel same_view sgs_ue_fsm) | apply (term_rel same_view sgs_ue_fsm)]; done.
Qed.

Definition adj (tok : string) (n : Z) w : world DB := w <| vsub ::= vsub_use_add tok n |>.

Lemma get_eq tok w : (forall t, 0 <= vsub_use_count t (vsub w)) ->
  vlr_subscr_get tok w = adj tok 1 w.
Proof.
  intros H. unfold vlr_subscr_get, vlr_subscr_use_cb. fold (adj tok 1 w).
  set (w1 := adj tok 1 w). assert (Hn : forall t, 0 <= vsub_use_count t (vsub w1)).
  { intros t. change (vsub w1) with (vsub_use_add tok 1 (vsub w)). pose proof (H t).
    destruct (decide (tok = t)) as [<-|]; [rewrite count_add_eq|rewrite count_add_ne by done]; lia. }
  assert (Hp : 0 < vsub_use_count tok (vsub w1)).
  { change (vsub w1) with (vsub_use_add tok 1 (vsub w)). rewrite count_add_eq.
    pose proof (H tok). lia. }
  pose proof (total_pos (vsub w1) tok Hn Hp) as Ht.
  rewrite (proj2 (Z.ltb_ge _ _) (Hn tok)). by rewrite (proj2 (Z.leb_gt _ _) Ht).
Qed.

(** freeing a record without uses *)
Lemma free_good w : good w -> (forall tok, vsub_use_count tok (vsub w) = 0) ->
  let w' := vlr_subscr_free w in
  good w' /\ vs_ptr (vsub w') = vs_ptr (vsub w) /\ use_count_of (vsub w') = use_count_of (vsub w)
  /\ (forall p, freed p w' -> freed p w \/ p = vs_ptr (vsub w)).
Proof.
  intros (H1 & H2 & H3) Hz. unfold vlr_subscr_free.
  set (w1 := w <| db ::= _ |>). set (w2 := w1 <| vsub ::= _ |>).
  pose proof (sgs_fsm_remove_view w2) as Hv. set (w3 := vlr_sgs_fsm_remove w2) in *.
  assert (Hl : lu_complete (vsub w3) = false).
  { pose proof (f_equal uv_lu Hv) as El. change (lu_complete (vsub w3) = lu_complete (vsub w)) in El.
    rewrite El. pose proof (uses_attached _ H1) as Ha. rewrite Hz in Ha. by destruct (lu_complete (vsub w)). }
  rewrite Hl. cbv zeta.
  assert (Hw2 : good w2).
  { split_and!; [|by apply unlink_uses|exact H3]. split.
    - exact (uses_nonneg _ H1).
    - exact (uses_attached _ H1).
    - exact (Hz _).
    - exact (uses_paging _ H1). }
  destruct (bal_frame w2 w3 Hv Hw2) as (Hg & Hp & _). split_and!.
  - exact Hg.
  - exact Hp.
  - exact (f_equal uv_counts Hv).
  - intros p Hf. apply elem_of_cons in Hf as [[= ->]|Hf]; [right; exact Hp|left].
    apply freed_view. apply (proj1 (freed_view p w3)) in Hf.
    exact (eq_ind _ (fun l => _ ∈ l) Hf _ (f_equal uv_free Hv)).
Qed.

Lemma put_good tok w : good (adj tok (-1) w) ->
  let w' := vlr_subscr_put tok w in
  good w' /\ vs_ptr (vsub w') = vs_ptr (vsub w)
  /\ use_count_of (vsub w') = use_count_of (vsub (adj tok (-1) w))
  /\ (forall p, freed p w' -> freed p w \/ (p = vs_ptr (vsub w) /\ ~ held (vsub (adj tok (-1) w)))).
Proof.
  intros Hg. unfold vlr_subscr_put, vlr_subscr_use_cb. fold (adj tok (-1) w).
  pose proof (uses_nonneg _ (proj1 Hg)) as Hn. set (w1 := adj tok (-1) w) in *.
  rewrite (proj2 (Z.ltb_ge _ _) (Hn tok)).
  destruct (Z.leb_spec (vsub_use_total (vsub w1)) 0) as [Ht|Ht]; [|by split_and!; [..|left]].
  destruct (free_good w1 Hg (fun t => total_zero _ t Hn Ht)) as (G & P & C & F).
  split_and!; [done|done|done|]. intros p [Hf| ->]%F; [by left|right]. split; [done|].
  intros (t & _ & Hp). pose proof (total_zero _ t Hn Ht). lia.
Qed.

(** the counts after a change of one of them *)
Lemma count_adj tok n w t :
  vsub_use_count t (vsub (adj tok n w))
  = if decide (tok = t) then vsub_use_count t (vsub w) + n else vsub_use_count t (vsub w).
Proof.
  change (vsub (adj tok n w)) with (vsub_use_add tok n (vsub w)).
  destruct (decide (tok = t)) as [<-|Hne]; [apply count_add_eq | by apply count_add_ne].
Qed.

(** a use that is not tied to a flag *)
Lemma adj_good tok n w :
  tok <> VSUB_USE_ATTACHED -> tok <> VSUB_USE_SGS_PAGING_REQ -> tok <> VSUB_USE_PAGING ->
  good w -> 0 <= vsub_use_count tok (vsub w) + n -> good (adj tok n w).
Proof.
  intros N1 N2 N3 ([G1 G2 G3 G4] & G5 & G6) Hn. split_and!; [split|done|done].
  - intros t. rewrite count_adj. destruct (decide (tok = t)) as [<-|]; [done|apply G1].
  - rewrite count_adj, decide_False by done. exact G2.
  - rewrite count_adj, decide_False by done. exact G3.
  - rewrite count_adj, decide_False by done. exact G4.
Qed.

(** an operation bracketed by a use of its own *)
Lemma bracket_bal tok w w2 : ~ managed tok -> bal (adj tok 1 w) w2 -> bal w (vlr_subscr_put tok w2).
Proof.
  intros Hm Hf Hg. pose proof (uses_nonneg _ (proj1 Hg)) as Hn.
  assert (Hg1 : good (adj tok 1 w)).
  { specialize (Hn tok). apply adj_good; [unfold managed in Hm; tauto..|done|lia]. }
  destruct (Hf Hg1) as (Hg2 & P2 & C2 & F2).
  assert (Hc : forall t, ~ managed t ->
    vsub_use_count t (vsub (adj tok (-1) w2)) = vsub_use_count t (vsub w)).
  { intros t Ht. rewrite count_adj, (C2 t Ht), count_adj. destruct (decide (tok = t)); lia. }
  assert (Hg3 : good (adj tok (-1) w2)).
  { apply adj_good; [unfold managed in Hm; tauto..|done|].
    specialize (Hn tok). rewrite (C2 tok Hm), count_adj, decide_True by done. lia. }
  destruct (put_good tok w2 Hg3) as (G & P & C & F). split_and!.
  - done.
  - exact (eq_trans P P2).
  - intros t Ht. rewrite <- (Hc t Ht). unfold vsub_use_count. by rewrite C.
  - intros p [[Hp|[_ Hh]]%F2|[Hp Hh]]%F; [by left| |].
    + exfalso. apply Hh. exists tok. split; [done|]. rewrite count_adj, decide_True by done.
      specialize (Hn tok). lia.
    + right. split; [exact (eq_trans Hp P2)|]. intros H. apply Hh.
      by apply (held_counts (vsub w)).
Qed.

Lemma hold_bal tok f w : ~ managed tok -> (forall x, bal x (f x)) -> bal w (hold tok f w).
Proof.
  intros Hm Hf Hg. unfold hold. rewrite get_eq by apply (proj1 Hg). by apply bracket_bal.
Qed.

(** ** Uses tied to a flag

    [w1] is the world after the flag was written, with the counts unchanged. *)

Lemma put_managed tok w w1 : managed tok ->
  vs_ptr (vsub w1) = vs_ptr (vsub w) -> use_count_of (vsub w1) = use_count_of (vsub w) ->
  (forall p, freed p w1 -> freed p w) -> (good w -> good (adj tok (-1) w1)) ->
  bal w (vlr_subscr_put tok w1).
Proof.
  intros Hm Ep Ec Ef Hg0 Hg. destruct (put_good tok w1 (Hg0 Hg)) as (G & P & C & F).
  assert (Hc : forall t, ~ managed t ->
    vsub_use_count t (vsub (adj tok (-1) w1)) = vsub_use_count t (vsub w)).
  { intros t Ht. rewrite count_adj, decide_False by (intros ->; done).
    unfold vsub_use_count. by rewrite Ec. }
  split_and!; [done|exact (eq_trans P Ep)| |].
  - intros t Ht. rewrite <- (Hc t Ht). unfold vsub_use_count. by rewrite C.
  - intros p [Hp|[Hp Hh]]%F; [left; by apply Ef|right].
    split; [exact (eq_trans Hp Ep)|]. intros H. by apply Hh, (held_counts (vsub w)).
Qed.

Lemma get_managed tok w w1 : managed tok ->
  vs_ptr (vsub w1) = vs_ptr (vsub w) -> use_count_of (vsub w1) = use_count_of (vsub w) ->
  (forall p, freed p w1 -> freed p w) -> (good w -> good (adj tok 1 w1)) ->
  bal w (vlr_subscr_get tok w1).
Proof.
  intros Hm Ep Ec Ef Hg0 Hg. rewrite get_eq.
  - split_and!; [by apply Hg0|done| |left; by apply Ef].
    intros t Ht. rewrite count_adj, decide_False by (intros ->; done).
    unfold vsub_use_count. by rewrite Ec.
  - intros t. unfold vsub_use_count. rewrite Ec. apply (uses_nonneg _ (proj1 Hg)).
Qed.

(** the record after the flag was written and the count changed *)
Lemma flag_good tok n w w1 :
  use_count_of (vsub w1) = use_count_of (vsub w) -> db w1 = db w -> parent_pes w1 = parent_pes w ->
  (uses_ok (vsub w) ->
   let c t := if decide (tok = t) then vsub_use_count t (vsub w) + n else vsub_use_count t (vsub w) in
   0 <= c tok /\ c VSUB_USE_ATTACHED = b2z (lu_complete (vsub w1))
   /\ c VSUB_USE_SGS_PAGING_REQ = b2z (sgs_Ts5_pending (vsub w1))
   /\ c VSUB_USE_PAGING = b2z (is_paging (vsub w1))) ->
  good w -> good (adj tok n w1).
Proof.
  intros Ec Ed Ep Hf (G1 & G2 & G3). destruct (Hf G1) as (H0 & H1 & H2 & H3).
  assert (Hc : forall t, vsub_use_count t (vsub w1) = vsub_use_count t (vsub w))
    by (intros t; unfold vsub_use_count; by rewrite Ec).
  split_and!; [split|by rewrite <- Ed in G2|by rewrite <- Ep in G3].
  - intros t. rewrite count_adj, Hc. specialize (uses_nonneg _ G1 t). rewrite decide_True in H0 by done.
    by destruct (decide (tok = t)) as [<-|].
  - by rewrite count_adj, Hc.
  - by rewrite count_adj, Hc.
  - by rewrite count_adj, Hc.
Qed.

Lemma set_lu_complete_eq b w :
  vsub (vlr_subscr_set_lu_complete b w) = vsub w <| lu_complete := b |>
  /\ out (vlr_subscr_set_lu_complete b w) = out w /\ db (vlr_subscr_set_lu_complete b w) = db w
  /\ parent_pes (vlr_subscr_set_lu_complete b w) = parent_pes w.
Proof.
  unfold vlr_subscr_set_lu_complete. destruct (Bool.eqb (lu_complete (vsub w)) b) eqn:E.
  - apply Bool.eqb_prop in E as <-. done.
  - destruct b; [done|]. by destruct (subscr_lu_complete _ =? 0).
Qed.

Lemma expire_bal w : bal w (snd (vlr_subscr_expire w)).
Proof.
  unfold vlr_subscr_expire. destruct (lu_complete (vsub w)) eqn:El; [|reflexivity].
  set (w0 := if str_nonempty _ then _ else _).
  assert (H0 : bal w w0) by (unfold w0; destruct (str_nonempty _); [by apply bal_frame|reflexivity]).
  transitivity w0; [exact H0|]. cbn [snd].
  assert (El0 : lu_complete (vsub w0) = true) by (unfold w0; by destruct (str_nonempty _)).
  destruct (set_lu_complete_eq false w0) as (Ev & Eo & Ed & Ep).
  set (w1 := vlr_subscr_set_lu_complete false w0) in *.
  apply put_managed; [by left|by rewrite Ev|by rewrite Ev|unfold freed; by rewrite Eo|].
  apply flag_good; [by rewrite Ev|done|done|]. rewrite Ev. intros [G1 G2 G3 G4].
  split_and!; [by rewrite decide_True, G2, El0|by rewrite decide_True, G2, El0|
               by rewrite decide_False, G3|by rewrite decide_False, G4].
Qed.

(** the subscriber becomes attached *)
Lemma attach_bal w : bal w (attach_use w).
Proof.
  unfold attach_use. destruct (lu_complete (vsub w)) eqn:El; [reflexivity|]. cbn [negb].
  destruct (set_lu_complete_eq true w) as (Ev & Eo & Ed & Ep).
  set (w1 := vlr_subscr_set_lu_complete true w) in *.
  apply get_managed; [by left|by rewrite Ev|by rewrite Ev|unfold freed; by rewrite Eo|].
  apply flag_good; [by rewrite Ev|done|done|]. rewrite Ev. intros [G1 G2 G3 G4].
  split_and!; [by rewrite decide_True, G2, El|by rewrite decide_True, G2, El|
               by rewrite decide_False, G3|by rewrite decide_False, G4].
Qed.

Lemma pag_stop_bal w : bal w (vlr_sgs_pag_stop w).
Proof.
  unfold vlr_sgs_pag_stop. destruct (sgs_Ts5_pending (vsub w)) eqn:Et; [|reflexivity]. cbn [negb].
  set (w1 := w <| vsub ::= _ |>). transitivity (vlr_subscr_put VSUB_USE_SGS_PAGING_REQ w1).
  - apply put_managed; [by right; left|done..|]. apply flag_good; [done..|]. intros [G1 G2 G3 G4].
    split_and!; [by rewrite decide_True, G3, Et|by rewrite decide_False, G2|
                 by rewrite decide_True, G3, Et|by rewrite decide_False, G4].
  - apply bal_frame. unfold sgs_pag_inflight_dec. by destruct (pag_inflight _ =? 0).
Qed.

Lemma lu_release_bal w : bal w (vlr_sgs_lu_release w).
Proof.
  unfold vlr_sgs_lu_release. destruct (_ !! _) as [c|] eqn:E; [|reflexivity].
  destruct (Z.ltb_spec 0 c) as [Hc|]; [|reflexivity].
  apply put_managed; [by right; right; right|done..|]. intros Hg. apply adj_good; [done..|].
  unfold vsub_use_count. rewrite E. cbn. lia.
Qed.

Lemma conclude_loop_view success l w :
  same_view w (fold_left (paging_conclude_one success) l w).
Proof.
  revert w. induction l as [|pr l IH]; intros w; [reflexivity|]. cbn [fold_left].
  etransitivity; [|apply IH]. unfold paging_conclude_one. by destruct (pr_cb pr).
Qed.

Lemma paging_concludes_bal success w : bal w (paging_concludes success w).
Proof.
  unfold paging_concludes. set (w1 := w <| vsub ::= _ |>).
  set (w2 := emit (PagingSignal success) _).
  assert (H2 : bal w w2).
  { transitivity w1; [by apply bal_frame|]. apply bal_frame.
    transitivity (use_view (fold_left (paging_conclude_one success) (cs_requests (vsub w1)) w1)); [done|].
    apply conclude_loop_view. }
  set (w3 := if is_paging (vsub w2) then _ else _). cbv zeta. transitivity w3.
  - transitivity w2; [exact H2|]. unfold w3. destruct (is_paging (vsub w2)) eqn:Ei; [|reflexivity].
    apply put_managed; [by right; right; left|done..|]. apply flag_good; [done..|]. intros [G1 G2 G3 G4].
    split_and!; [by rewrite decide_True, G4, Ei|by rewrite decide_False, G2|
                 by rewrite decide_False, G3|by rewrite decide_True, G4, Ei].
  - destruct success; [by apply bal_frame|reflexivity].
Qed.

(** ** The database *)

Lemma sync_bal w : bal w (sync w).
Proof.
  intros (G1 & G2 & G3). split_and!; [|done..|by left]. split_and!; [done| |done]. by apply commit_uses.
Qed.

Lemma rehash_tmsi_bal w : bal w (rehash_tmsi w).
Proof.
  intros (G1 & G2 & G3). split_and!; [|done..|by left]. split_and!; [done| |done]. by apply rehash_uses.
Qed.

Lemma set_imsi_bal i w : bal w (set_imsi_call i w).
Proof.
  intros (G1 & G2 & G3). unfold set_imsi_call. pose proof (set_imsi_uses (vsub w) i (db w) G1 G2) as H.
  destruct (db_set_imsi (vsub w) i (db w)) as [v d]. destruct H as (H1 & H2 & H3 & H4).
  set (w1 := w <| vsub := v |> <| db := d |>).
  split_and!; [by split_and!|done|done|by left].
Qed.

Lemma alloc_tmsi_bal w : bal w (snd (vlr_subscr_alloc_tmsi_call w)).
Proof.
  intros (G1 & G2 & G3). unfold vlr_subscr_alloc_tmsi_call.
  pose proof (alloc_tmsi_uses (vsub w) (db w) G1 G2) as H.
  destruct (db_alloc_tmsi (vsub w) (db w)) as [[rc v] d]. destruct H as (H1 & H2).
  set (w1 := w <| vsub := v |> <| db := d |>).
  assert (Hb : bal w w1).
  { intros _. split_and!; [split_and!; [by eapply uses_same|done|done]|apply H1| |].
    - intros tok _. by apply count_same.
    - by left. }
  destruct (rc =? 0); [|by apply Hb].
  assert (Hb' : bal w (emit SubscrUpdate w1)) by (transitivity w1; [exact Hb|by apply bal_frame]).
  by apply Hb'.
Qed.
End ops.
