(* ===== verification/VlrSteps.v ===== *)
(** * From the steps of the procedures to the inputs of the VLR

    An invariant of the VLR is a preorder between the world before and after a
    step.  [steps] lists what such a preorder has to be closed under: the
    outputs, the uses of the record, the dispatchers, and the entry points of
    the procedures it looks into.  Authenticate_VLR, Subscriber_Present_VLR,
    the SGs association, paging and the operations of vlr.c are walked through
    here once, for all of them. *)

From S2P Require Import Prelude OsmoFsm WorldRel Gsm VlrTypes VlrSubscr VlrUse VlrAuthTuples.
From S2P Require Import VlrAuthFsm VlrLuSub VlrLu VlrArq VlrSgs Paging SgsIface VlrSystem.
From S2P Require Import VlrUseProofs.

(** outputs that no invariant restricts *)
Definition plain (o : vlr_out) : bool :=
  match o with
  | SubscrFree _ | TxLuAcc _ _ | TxCmServAcc _ | ToMsc _ | FsmEvent _ _ => false
  | _ => true
  end.

Definition auth_pes_of (fi : fsm_inst auth_state vlr_pe) (p : auth_fsm_priv) : list vlr_pe :=
  [fi_parent_term_event fi; afp_event_success p; afp_event_no_auth_info p; afp_event_failure p].

(** the events that vlr.c sends to the procedures *)
Definition lu_ext (e : lu_event) (d : vdata) : Prop :=
  match e, d with
  | VLR_ULA_E_ID_IMSI, DImsi _ | VLR_ULA_E_ID_IMEI, DImsi _ | VLR_ULA_E_ID_IMEISV, DImsi _
  | VLR_ULA_E_NEW_TMSI_ACK, DNull | VLR_ULA_E_CIPH_RES, DCiph _
  | VLR_ULA_E_HLR_LU_RES, DNull | VLR_ULA_E_HLR_LU_RES, DCause _
  | VLR_ULA_E_HLR_IMEI_ACK, DNull | VLR_ULA_E_HLR_IMEI_NACK, DNull => True
  | _, _ => False
  end.
Definition arq_ext (e : arq_event) (d : vdata) : Prop :=
  match e, d with
  | PR_ARQ_E_CIPH_RES, DCiph _ | PR_ARQ_E_TMSI_ACK, DNull => True
  | _, _ => False
  end.

(** the inputs that make the connection find its subscriber *)
Definition associates (i : vlr_input) : bool :=
  match i with InLocUpdate _ | InAccReq _ => true | _ => false end.

Record steps {L : FsmLib} {DB : Type} {R : VlrRc} {BC : BcdCodec} {VDB : VlrDb DB} {SS : SgsState}
    (env : vlr_env DB) (Rel : relation (world DB)) (pe_safe : vlr_pe -> Prop) : Prop := mk_steps {
  st_rel : PreOrder Rel;
  (* outputs, the record and the counters *)
  st_emit o w : plain o = true -> Rel w (emit o w);
  st_vsub v w : same_uses (vsub w) v -> Rel w (w <| vsub := v |>);
  st_inflight n w : Rel w (w <| pag_inflight := n |>);
  (* the instances that are walked through here *)
  st_auth fi p w :
    (Forall pe_safe (auth_pes_of (w_auth w) (afp w)) -> Forall pe_safe (auth_pes_of fi p)) ->
    Rel w (w <| w_auth := fi |> <| afp := p |>);
  st_pres fi w : (pe_safe (fi_parent_term_event (w_pres w)) -> pe_safe (fi_parent_term_event fi)) ->
    Rel w (w <| w_pres := fi |>);
  st_pe pe d w : pe_safe pe -> Rel w (parent_event env pe d w);
  st_auth_pe f d w : (forall x, f x ∈ auth_pes_of (w_auth x) (afp x)) ->
    Rel w (parent_event env (f w) d w);
  st_auth_set f w : (forall x, f x ∈ auth_pes_of (w_auth x) (afp x)) ->
    Rel w (set_auth_term_event (f w) w);
  st_pres_pe d w : Rel w (parent_event env (fi_parent_term_event (w_pres w)) d w);
  (* uses *)
  st_hold tok f w : ~ managed tok -> (forall x, Rel x (f x)) -> Rel w (hold tok f w);
  st_expire w : Rel w (snd (vlr_subscr_expire w));
  st_attach w : Rel w (attach_use w);
  st_pag_stop w : Rel w (vlr_sgs_pag_stop w);
  st_lu_release w : Rel w (vlr_sgs_lu_release w);
  st_concludes b w : Rel w (paging_concludes b w);
  st_sgs_pag s w : Rel w (vlr_sgs_pag env s w);
  st_sgs_lu_get w : Rel w (vlr_subscr_get VSUB_USE_SGS_LU w);
  st_sgs_lu_get_put w : Rel w (vlr_subscr_put VSUB_USE_SGS_LU (vlr_subscr_get VSUB_USE_SGS_LU w));
  (* the database *)
  st_sync w : Rel w (sync w);
  st_rehash w : Rel w (rehash_tmsi w);
  st_set_imsi i w : Rel w (set_imsi_call i w);
  st_alloc_tmsi w : Rel w (snd (vlr_subscr_alloc_tmsi_call w));
  (* the dispatchers *)
  st_auth_ev e d w : Rel w (auth_dispatch env e d w);
  st_pres_ev e d w : Rel w (pres_dispatch env e d w);
  st_sgs_ev e d w : Rel w (sgs_dispatch env e d w);
  st_resp r w : Rel w (sgs_response_cb env r w);
  st_paging_cb s w : Rel w (sgs_paging_cb env s w);
  st_mminfo w : Rel w (sgs_mminfo_cb env w)
}.

(** the other procedures, where vlr.c enters them, and records that are looked
    up: [Top] is what remains when an operation may have been on another record *)
Record entries {L : FsmLib} {DB : Type} {R : VlrRc} {BC : BcdCodec} {VDB : VlrDb DB} {SS : SgsState}
    (env : vlr_env DB) (Rel Top : relation (world DB)) (rec_ok : vlr_subscr -> Prop) : Prop := mk_entries {
  st_top : PreOrder Top;
  st_lu_ev e d w : lu_ext e d -> Rel w (lu_dispatch env e d w);
  st_arq_ev e d w : arq_ext e d -> Rel w (arq_dispatch env e d w);
  st_lu_term w : Rel w (osmo_fsm_inst_term (vlr_lu_fsm env) OSMO_FSM_TERM_REQUEST DNull w);
  st_lu_cancel g w : Rel w (vlr_loc_update_cancel env g w);
  st_arq_cancel g w : Rel w (vlr_parq_cancel env g w);
  st_lu_timeout w : fi_terminating (w_lu w) = false -> Rel w (lu_fsm_timeout env w);
  st_arq_timeout w : fi_terminating (w_arq w) = false -> Rel w (arq_fsm_timeout env w);
  st_compl_timeout w : fi_terminating (w_compl w) = false -> Rel w (lu_compl_fsm_timeout env w);
  st_upd_timeout w : fi_terminating (w_upd w) = false -> Rel w (upd_hlr_fsm_timeout env w);
  st_paging_start c cb w : Rel w (snd (paging_request_start (sgs_iface_paging_cb env) c cb w));
  st_incl w w' : Rel w w' -> Top w w';
  st_on_subscr v f w : rec_ok v -> (forall x, Rel x (f x)) -> Top w (on_subscr v f w);
  st_found w w' : (Forall rec_ok (db_subscribers (db w)) -> Top w w') -> Top w w';
  st_find w i v : Forall rec_ok (db_subscribers (db w)) -> db_find_by_imsi (db w) i = Some v -> rec_ok v;
  st_create w i v d w' : db_find_or_create_by_imsi (db w) i = Some (v, d) ->
    (rec_ok v -> Top (w <| db := d |>) w') -> Top w w'
}.

Create HintDb rel discriminated.
#[export] Hint Constants Opaque : rel.

Section walk.
Context {L : FsmLib} {LL : FsmLaws L} {DB : Type} {R : VlrRc} {BC : BcdCodec} {BD : BcdDecoder}
        {VDB : VlrDb DB} {SS : SgsState}.
Context (env : vlr_env DB) (Rel : relation (world DB)) (pe_safe : vlr_pe -> Prop)
        (HS : steps env Rel pe_safe).
Implicit Type w : world DB.

#[local] Instance rel_preorder : PreOrder Rel.
Proof. apply (st_rel _ _ _ HS). Qed.

(** ** The steps, as hints *)

Lemma emit_rel o w : plain o = true -> Rel w (emit o w).
Proof. apply (st_emit _ _ _ HS). Qed.
Lemma vsub_rel v w : same_uses (vsub w) v -> Rel w (w <| vsub := v |>).
Proof. apply (st_vsub _ _ _ HS). Qed.
Lemma vsub_upd_rel f w : same_uses (vsub w) (f (vsub w)) -> Rel w (w <| vsub ::= f |>).
Proof. apply (vsub_rel (f (vsub w))). Qed.
Lemma afp_rel f w : auth_pes_of (w_auth w) (f (afp w)) = auth_pes_of (w_auth w) (afp w) ->
  Rel w (w <| afp ::= f |>).
Proof. intros E. apply (st_auth _ _ _ HS (w_auth w) (f (afp w)) w). by rewrite E. Qed.
Lemma w_auth_rel fi w : fi_parent_term_event fi = fi_parent_term_event (w_auth w) ->
  Rel w (w <| w_auth := fi |>).
Proof.
  intros E. apply (st_auth _ _ _ HS fi (afp w) w). unfold auth_pes_of. by rewrite E.
Qed.
Lemma w_pres_rel fi w : fi_parent_term_event fi = fi_parent_term_event (w_pres w) ->
  Rel w (w <| w_pres := fi |>).
Proof. intros E. apply (st_pres _ _ _ HS). by rewrite E. Qed.
Lemma hold_rel tok f w : ~ managed tok -> (forall x, Rel x (f x)) -> Rel w (hold tok f w).
Proof. apply (st_hold _ _ _ HS). Qed.
Lemma hold_rc_rel {A : Type} tok (f : world DB -> A * world DB) w :
  ~ managed tok -> (forall x, Rel x (snd (f x))) -> Rel w (snd (hold_rc tok f w)).
Proof.
  intros Hm Hf. unfold hold_rc. pose proof (hold_rel tok (fun x => snd (f x)) w Hm Hf) as H.
  unfold hold in H. by destruct (f (vlr_subscr_get tok w)).
Qed.
Lemma expire_rel w : Rel w (snd (vlr_subscr_expire w)).
Proof. apply (st_expire _ _ _ HS). Qed.
Lemma attach_rel w : Rel w (attach_use w).
Proof. apply (st_attach _ _ _ HS). Qed.
Lemma pag_stop_rel w : Rel w (vlr_sgs_pag_stop w).
Proof. apply (st_pag_stop _ _ _ HS). Qed.
Lemma lu_release_rel w : Rel w (vlr_sgs_lu_release w).
Proof. apply (st_lu_release _ _ _ HS). Qed.
Lemma concludes_rel b w : Rel w (paging_concludes b w).
Proof. apply (st_concludes _ _ _ HS). Qed.
Lemma sgs_pag_rel s w : Rel w (vlr_sgs_pag env s w).
Proof. apply (st_sgs_pag _ _ _ HS). Qed.
Lemma sgs_lu_get_rel w : Rel w (vlr_subscr_get VSUB_USE_SGS_LU w).
Proof. apply (st_sgs_lu_get _ _ _ HS). Qed.
Lemma sync_rel w : Rel w (sync w).
Proof. apply (st_sync _ _ _ HS). Qed.
Lemma rehash_rel w : Rel w (rehash_tmsi w).
Proof. apply (st_rehash _ _ _ HS). Qed.
Lemma set_imsi_rel i w : Rel w (set_imsi_call i w).
Proof. apply (st_set_imsi _ _ _ HS). Qed.
Lemma alloc_tmsi_rel w : Rel w (snd (vlr_subscr_alloc_tmsi_call w)).
Proof. apply (st_alloc_tmsi _ _ _ HS). Qed.
Lemma auth_ev_rel e d w : Rel w (auth_dispatch env e d w).
Proof. apply (st_auth_ev _ _ _ HS). Qed.
Lemma pres_ev_rel e d w : Rel w (pres_dispatch env e d w).
Proof. apply (st_pres_ev _ _ _ HS). Qed.
Lemma sgs_ev_rel e d w : Rel w (sgs_dispatch env e d w).
Proof. apply (st_sgs_ev _ _ _ HS). Qed.
Lemma resp_cb_rel r w : Rel w (sgs_response_cb env r w).
Proof. apply (st_resp _ _ _ HS). Qed.
Lemma paging_cb_call_rel s w : Rel w (sgs_paging_cb env s w).
Proof. apply (st_paging_cb _ _ _ HS). Qed.
Lemma mminfo_cb_rel w : Rel w (sgs_mminfo_cb env w).
Proof. apply (st_mminfo _ _ _ HS). Qed.
#[local] Hint Resolve expire_rel attach_rel pag_stop_rel lu_release_rel concludes_rel sgs_pag_rel
  sgs_lu_get_rel sync_rel rehash_rel set_imsi_rel alloc_tmsi_rel auth_ev_rel pres_ev_rel sgs_ev_rel
  resp_cb_rel paging_cb_call_rel mminfo_cb_rel : rel.

Ltac same_uses_refl := exact (conj eq_refl (conj eq_refl (conj eq_refl (conj eq_refl eq_refl)))).

Ltac step_leaf :=
  idtac; lazymatch goal with
  | |- _ _ (emit _ _) => apply emit_rel; reflexivity
  | |- _ _ (osmo_panic _) => apply (emit_rel OsmoPanic); reflexivity
  | |- _ _ (snd (call ?o _)) => apply (emit_rel o); reflexivity
  | |- _ _ (@field_upd _ vlr_subscr _ _ _ ?a) => apply vsub_upd_rel; generalize a; intros; same_uses_refl
  | |- _ _ (@field_upd _ auth_fsm_priv _ _ _ _) => apply afp_rel; reflexivity
  | |- _ _ (@field_upd _ Z _ _ _ ?a) => exact (st_inflight _ _ _ HS _ a)
  | |- _ => solve [eauto 3 with rel nocore]
  end.
Ltac step_walk := rel_walk step_leaf.
#[local] Hint Extern 1 (Rel _ (hold _ _ _)) =>
  (apply hold_rel; [by intros [?|[?|[?|?]]]|]; intros ?; cbv beta; step_walk) : rel.
#[local] Hint Extern 1 (Rel _ (snd (hold_rc _ _ _))) =>
  (apply hold_rc_rel; [by intros [?|[?|[?|?]]]|]; intros ?; cbv beta; step_walk) : rel.

(** ** Messages to the HLR and the expiry time *)

Lemma tx_gsup_rel g w : Rel w (snd (vlr_subscr_tx_gsup_message g w)).
Proof. unfold vlr_subscr_tx_gsup_message. step_walk. Qed.
#[local] Hint Resolve tx_gsup_rel : rel.
Lemma req_lu_rel w : Rel w (snd (vlr_subscr_req_lu w)).
Proof. unfold vlr_subscr_req_lu. step_walk. Qed.
Lemma req_sai_rel a r w : Rel w (snd (vlr_subscr_req_sai a r w)).
Proof. unfold vlr_subscr_req_sai. step_walk. Qed.
Lemma purge_rel w : Rel w (snd (vlr_subscr_purge w)).
Proof. unfold vlr_subscr_purge. step_walk. Qed.
Lemma auth_fail_rep_rel w : Rel w (snd (vlr_subscr_tx_auth_fail_rep w)).
Proof. unfold vlr_subscr_tx_auth_fail_rep. step_walk. Qed.
Lemma check_imei_rel w : Rel w (snd (vlr_subscr_tx_req_check_imei w)).
Proof. unfold vlr_subscr_tx_req_check_imei. step_walk. Qed.
Lemma set_ciph_rel s r w : Rel w (snd (vlr_set_ciph_mode s r w)).
Proof. unfold vlr_set_ciph_mode. step_walk. Qed.
Lemma keep_expiry_rel w : Rel w (vlr_subscr_keep_incomplete_expiry w).
Proof. unfold vlr_subscr_keep_incomplete_expiry. step_walk. Qed.
Lemma enable_expire_rel w : Rel w (vlr_subscr_enable_expire_lu w).
Proof. unfold vlr_subscr_enable_expire_lu. step_walk. Qed.
Lemma eutran_rel p w : Rel w (vlr_subscr_set_last_used_eutran_plmn_id p w).
Proof. unfold vlr_subscr_set_last_used_eutran_plmn_id. step_walk. Qed.
#[local] Hint Resolve req_lu_rel req_sai_rel purge_rel auth_fail_rep_rel check_imei_rel set_ciph_rel
  keep_expiry_rel enable_expire_rel eutran_rel : rel.

(** ** Authenticate_VLR *)

Lemma auth_onenter_rel s p w : Rel w (auth_onenter s p w).
Proof. destruct s; cbn; try reflexivity. unfold auth_fsm_onenter_failed. step_walk. Qed.
Lemma auth_chg_rel s secs T w : Rel w (auth_state_chg env s secs T w).
Proof.
  apply (state_chg_rel Rel (vlr_auth_fsm env)); [intros; by apply w_auth_rel|apply auth_onenter_rel].
Qed.
Lemma auth_tdef_rel s w : Rel w (auth_tdef_chg env s w).
Proof.
  apply (tdef_chg_rel Rel (vlr_auth_fsm env)); [intros; by apply w_auth_rel|apply auth_onenter_rel].
Qed.
Lemma auth_term_rel c d w : Rel w (osmo_fsm_inst_term (vlr_auth_fsm env) c d w).
Proof.
  apply (term_rel Rel (vlr_auth_fsm env)).
  - intros; by apply w_auth_rel.
  - intros c' x. cbn. unfold auth_fsm_cleanup. step_walk.
  - intros x. reflexivity.
  - intros d' x. apply (st_auth_pe _ _ _ HS (fun x => fi_parent_term_event (w_auth x))).
    intros y. left.
Qed.
#[local] Hint Resolve auth_chg_rel auth_tdef_rel auth_term_rel : rel.
Lemma auth_set_rel f w : (forall x, f x ∈ auth_pes_of (w_auth x) (afp x)) ->
  Rel w (set_auth_term_event (f w) w).
Proof. apply (st_auth_set _ _ _ HS). Qed.
Lemma auth_fsm_term_rel r c w : Rel w (auth_fsm_term env r c w).
Proof.
  unfold auth_fsm_term. eapply rel_step; [typeclasses eauto|apply auth_term_rel|].
  destruct r; cbv zeta; (etransitivity; [apply auth_chg_rel|]).
  - apply (auth_set_rel (fun x => afp_event_success (afp x))). intros; right; left.
  - apply (auth_set_rel (fun x => afp_event_no_auth_info (afp x))). intros; right; right; left.
  - apply (auth_set_rel (fun x => afp_event_failure (afp x))). intros; right; right; right; left.
Qed.
#[local] Hint Resolve auth_fsm_term_rel : rel.

(** the tuple functions do not touch the uses *)
Lemma get_tuple_uses v m n v' : vlr_subscr_get_auth_tuple v m = Some (n, v') -> same_uses v v'.
Proof.
  unfold vlr_subscr_get_auth_tuple. destruct (vlr_subscr_next_auth_tuple v m); [|done].
  by intros [= <- <-].
Qed.
Lemma reuse_uses c k v : same_uses v (snd (auth_try_reuse_tuple c k v)).
Proof. unfold auth_try_reuse_tuple. by repeat case_match. Qed.
Lemma check_uses v a b r l ok v' : check_auth_resp v a b r l = Some (ok, v') -> same_uses v v'.
Proof. unfold check_auth_resp. intros H. by repeat case_match; simplify_eq. Qed.
Lemma tuples_uses g v : same_uses v (vlr_subscr_update_tuples g v).
Proof. unfold vlr_subscr_update_tuples. by destruct (g_auth_vectors g). Qed.

Lemma reuse_rel c k w : Rel w (w <| vsub := snd (auth_try_reuse_tuple c k (vsub w)) |>).
Proof. apply vsub_rel, reuse_uses. Qed.
Lemma check_resp_rel p w ok w' : check_resp p w = Some (ok, w') -> Rel w w'.
Proof.
  unfold check_resp. destruct (check_auth_resp _ _ _ _ _) as [[ok' v]|] eqn:E; [|done]. intros [= <- <-].
  by apply vsub_rel, (check_uses _ _ _ _ _ _ _ E).
Qed.
Lemma update_tuples_rel g w : Rel w (update_tuples g w).
Proof.
  unfold update_tuples. cbv zeta. eapply rel_step; [typeclasses eauto|step_leaf|].
  apply vsub_upd_rel, tuples_uses.
Qed.
Lemma authenticate_rel w : Rel w (_vlr_subscr_authenticate env w).
Proof.
  unfold _vlr_subscr_authenticate.
  destruct (vlr_subscr_get_auth_tuple _ _) as [[a v]|] eqn:E; [|step_walk].
  apply get_tuple_uses in E. cbv zeta. eapply rel_step; [typeclasses eauto|step_leaf|].
  set (w1 := w <| afp ::= _ |>). transitivity w1; [by apply afp_rel|].
  by apply (vsub_rel (v <| last_tuple := Some a |>) w1).
Qed.
#[local] Hint Resolve update_tuples_rel authenticate_rel : rel.
Lemma needs_auth_rel e d w : Rel w (auth_fsm_needs_auth env e d w).
Proof. unfold auth_fsm_needs_auth. step_walk. Qed.
Lemma wait_ai_pass_rel w : Rel w (auth_wait_ai_pass env w).
Proof. unfold auth_wait_ai_pass. step_walk. Qed.
#[local] Hint Resolve wait_ai_pass_rel : rel.
Lemma wait_ai_rel e d w : Rel w (auth_fsm_wait_ai env e d w).
Proof. unfold auth_fsm_wait_ai. step_walk. Qed.
Lemma wait_resp_rel e d w : Rel w (auth_fsm_wait_auth_resp env e d w).
Proof.
  unfold auth_fsm_wait_auth_resp. destruct e; try solve [step_walk]. cbv zeta.
  destruct (check_resp (data_par d) w) as [[ok w']|] eqn:E; [|step_walk].
  transitivity w'; [by eapply check_resp_rel|step_walk].
Qed.
Lemma wait_ai_resync_rel e d w : Rel w (auth_fsm_wait_ai_resync env e d w).
Proof. unfold auth_fsm_wait_ai_resync. step_walk. Qed.
Lemma wait_resp_resync_rel e d w : Rel w (auth_fsm_wait_auth_resp_resync env e d w).
Proof.
  unfold auth_fsm_wait_auth_resp_resync. destruct e; try solve [step_walk]. cbv zeta.
  destruct (check_resp (data_par d) w) as [[ok w']|] eqn:E; [|step_walk].
  transitivity w'; [by eapply check_resp_rel|step_walk].
Qed.
Lemma auth_wait_imsi_rel e d w : Rel w (auth_fsm_wait_imsi env e d w).
Proof. unfold auth_fsm_wait_imsi. step_walk. Qed.
#[local] Hint Resolve needs_auth_rel wait_ai_rel wait_resp_rel wait_ai_resync_rel
  wait_resp_resync_rel auth_wait_imsi_rel : rel.
Lemma auth_dispatch_rel e d w : Rel w (auth_fsm_dispatch env e d w).
Proof. apply (dispatch_rel Rel (vlr_auth_fsm env)). intros s. destruct s; cbn; step_walk. Qed.
Lemma auth_timeout_rel w : Rel w (auth_fsm_timeout env w).
Proof. unfold auth_fsm_timeout. rewrite timer_without_cb. apply auth_term_rel. Qed.

(** a new instance, with events that are in order *)
Lemma auth_start_rel s n f a b w : pe_safe s -> pe_safe n -> pe_safe f ->
  Rel w (snd (auth_fsm_start env s n f a b w)).
Proof.
  intros Hs Hn Hf. unfold auth_fsm_start.
  destruct (osmo_fsm_inst_alloc_child VLR_SUB_AS_NEEDS_AUTH f) as [fi|] eqn:E;
    [|by apply (st_pe _ _ _ HS)].
  apply alloc_child_init in E as ->. cbn [snd].
  eapply rel_step; [typeclasses eauto|apply auth_ev_rel|].
  eapply rel_step; [typeclasses eauto|step_leaf|].
  apply (st_auth _ _ _ HS). intros _. by repeat constructor.
Qed.

(** ** Subscriber_Present_VLR *)

Lemma pres_chg_rel s secs T w : Rel w (sub_pres_state_chg env s secs T w).
Proof. apply (state_chg_rel Rel (sub_pres_vlr_fsm env)); [intros; by apply w_pres_rel|reflexivity]. Qed.
Lemma pres_term_rel c d w : Rel w (sub_pres_term env c d w).
Proof.
  apply (term_rel Rel (sub_pres_vlr_fsm env)); try (by intros).
  - intros; by apply w_pres_rel.
  - intros d' x. apply (st_pres_pe _ _ _ HS).
Qed.
#[local] Hint Resolve pres_chg_rel pres_term_rel : rel.
Lemma pres_dispatch_rel e d w : Rel w (sub_pres_fsm_dispatch env e d w).
Proof.
  apply (dispatch_rel Rel (sub_pres_vlr_fsm env)). intros s.
  destruct s; cbn; unfold sub_pres_vlr_fsm_init, sub_pres_vlr_fsm_wait_hlr; step_walk.
Qed.
Lemma pres_timeout_rel w : Rel w (sub_pres_fsm_timeout env w).
Proof. unfold sub_pres_fsm_timeout. rewrite timer_without_cb. apply pres_term_rel. Qed.
Lemma pres_start_rel set pe w : pe_safe pe -> (forall p x, Rel x (set p x)) ->
  Rel w (sub_pres_vlr_fsm_start env set pe w).
Proof.
  intros Hpe Hset. unfold sub_pres_vlr_fsm_start.
  destruct (osmo_fsm_inst_alloc_child _ pe) as [fi|] eqn:E; [|apply Hset].
  apply alloc_child_init in E as ->. cbv zeta.
  eapply rel_step; [typeclasses eauto|apply pres_ev_rel|].
  eapply rel_step; [typeclasses eauto|apply Hset|]. by apply (st_pres _ _ _ HS).
Qed.

(** ** The SGs association *)

Lemma sgs_chg_rel s secs T w : Rel w (sgs_state_chg s secs T w).
Proof. apply (state_chg_rel Rel sgs_ue_fsm); [intros; by apply vsub_upd_rel|reflexivity]. Qed.
#[local] Hint Resolve sgs_chg_rel : rel.
Lemma to_null_rel w : Rel w (to_null env w).
Proof. unfold to_null. step_walk. Qed.
#[local] Hint Resolve to_null_rel : rel.
Lemma perform_lu_rel w : Rel w (perform_lu env w).
Proof. unfold perform_lu. step_walk. Qed.
Lemma respawn_rel w : Rel w (respawn_paging env w).
Proof. unfold respawn_paging. step_walk. Qed.
#[local] Hint Resolve perform_lu_rel respawn_rel : rel.
Lemma sgs_null_rel e d w : Rel w (sgs_ue_fsm_null env e d w).
Proof. unfold sgs_ue_fsm_null. step_walk. Qed.
Lemma sgs_present_rel e d w : Rel w (sgs_ue_fsm_lau_present env e d w).
Proof. unfold sgs_ue_fsm_lau_present. step_walk. Qed.
Lemma sgs_associated_rel e d w : Rel w (sgs_ue_fsm_associated env e d w).
Proof. unfold sgs_ue_fsm_associated. step_walk. Qed.
Lemma sgs_allstate_rel e d w : Rel w (sgs_ue_fsm_allstate env e d w).
Proof. unfold sgs_ue_fsm_allstate. step_walk. Qed.
#[local] Hint Resolve sgs_null_rel sgs_present_rel sgs_associated_rel sgs_allstate_rel : rel.
Lemma sgs_dispatch_rel e d w : Rel w (sgs_fsm_dispatch env e d w).
Proof. apply (dispatch_rel Rel sgs_ue_fsm). intros s. unfold sgs_action. step_walk. Qed.
Lemma sgs_timeout_rel w : Rel w (sgs_fsm_timeout w).
Proof.
  apply (timer_rel Rel sgs_ue_fsm); try (by intros).
  - intros; by apply vsub_upd_rel.
  - unfold sgs_ue_fsm_timer_cb. step_walk.
Qed.

(** ** The SGs interface and paging *)

Lemma acc_sent_rel w : Rel w (vlr_sgs_loc_update_acc_sent env w).
Proof. unfold vlr_sgs_loc_update_acc_sent. step_walk. Qed.
Lemma rej_sent_rel w : Rel w (vlr_sgs_loc_update_rej_sent env w).
Proof. unfold vlr_sgs_loc_update_rej_sent. step_walk. Qed.
#[local] Hint Resolve acc_sent_rel rej_sent_rel : rel.
Lemma tx_resp_rel r w : Rel w (sgs_tx_loc_upd_resp_cb env r w).
Proof. unfold sgs_tx_loc_upd_resp_cb. step_walk. Qed.
Lemma tx_mm_info_rel w : Rel w (sgs_tx_mm_info_cb w).
Proof. unfold sgs_tx_mm_info_cb. step_walk. Qed.
Lemma serv_abrt_rel w : Rel w (sgs_iface_tx_serv_abrt w).
Proof. unfold sgs_iface_tx_serv_abrt. step_walk. Qed.
Lemma paging_cb_rel s w : Rel w (snd (sgs_iface_paging_cb env s w)).
Proof. unfold sgs_iface_paging_cb, paging_expired. step_walk. Qed.
#[local] Hint Resolve serv_abrt_rel : rel.
Lemma paging_timer_rel w : Rel w (paging_response_timer_cb sgs_iface_tx_serv_abrt w).
Proof. unfold paging_response_timer_cb, paging_expired. step_walk. Qed.
Lemma paging_response_rel w : Rel w (paging_response w).
Proof. unfold paging_response. step_walk. Qed.
Lemma paging_remove_rel n w : Rel w (paging_request_remove n w).
Proof. unfold paging_request_remove. step_walk. Qed.
Lemma sgs_service_req_rel w : Rel w (vlr_sgs_rx_service_req env w).
Proof. unfold vlr_sgs_rx_service_req. step_walk. Qed.
Lemma sgs_paging_resp_rel l w : Rel w (vlr_sgs_paging_resp_from_a_iu env l w).
Proof. unfold vlr_sgs_paging_resp_from_a_iu. step_walk. Qed.

(** ** Operations on the subscriber of the connection *)

Context (Top : relation (world DB)) (rec_ok : vlr_subscr -> Prop) (HE : entries env Rel Top rec_ok).
#[local] Instance top_preorder : PreOrder Top.
Proof. apply (st_top _ _ _ _ HE). Qed.

Lemma lu_ev_rel e d w : lu_ext e d -> Rel w (lu_dispatch env e d w).
Proof. apply (st_lu_ev _ _ _ _ HE). Qed.
Lemma arq_ev_rel e d w : arq_ext e d -> Rel w (arq_dispatch env e d w).
Proof. apply (st_arq_ev _ _ _ _ HE). Qed.
Lemma lu_term_rel w : Rel w (osmo_fsm_inst_term (vlr_lu_fsm env) OSMO_FSM_TERM_REQUEST DNull w).
Proof. apply (st_lu_term _ _ _ _ HE). Qed.
Lemma lu_cancel_rel g w : Rel w (vlr_loc_update_cancel env g w).
Proof. apply (st_lu_cancel _ _ _ _ HE). Qed.
Lemma arq_cancel_rel g w : Rel w (vlr_parq_cancel env g w).
Proof. apply (st_arq_cancel _ _ _ _ HE). Qed.

#[local] Hint Resolve lu_term_rel lu_cancel_rel arq_cancel_rel : rel.
#[local] Hint Extern 1 (Rel _ (lu_dispatch _ _ _ _)) => (apply lu_ev_rel; exact I) : rel.
#[local] Hint Extern 1 (Rel _ (arq_dispatch _ _ _ _)) => (apply arq_ev_rel; exact I) : rel.

Lemma cancel_attach_rel c g w : Rel w (vlr_subscr_cancel_attach_fsm env c g w).
Proof. unfold vlr_subscr_cancel_attach_fsm. step_walk. Qed.
Lemma disconnected_rel w : Rel w (vlr_subscr_disconnected env w).
Proof. unfold vlr_subscr_disconnected. step_walk. Qed.
#[local] Hint Resolve cancel_attach_rel : rel.
Lemma ran_conn_timeout_rel w : Rel w (vlr_ran_conn_timeout env w).
Proof. unfold vlr_ran_conn_timeout. step_walk. Qed.
Lemma discard_rel w : Rel w (vlr_subscr_discard_incomplete env w).
Proof. cbv beta delta [vlr_subscr_discard_incomplete]. step_walk. Qed.
Lemma detach_rel w : Rel w (snd (vlr_subscr_detach env w)).
Proof. unfold vlr_subscr_detach. step_walk. Qed.
#[local] Hint Resolve discard_rel detach_rel : rel.
Lemma imsi_detach_rel w : Rel w (snd (vlr_subscr_rx_imsi_detach env w)).
Proof. unfold vlr_subscr_rx_imsi_detach. step_walk. Qed.
Lemma expire_one_rel t w : Rel w (snd (expire_one env t w)).
Proof. unfold expire_one. step_walk. Qed.
Lemma auth_via_rel e d w : Rel w (auth_via env e d w).
Proof. unfold auth_via. step_walk. Qed.
Lemma lu_via_rel e d w : lu_ext e d -> Rel w (lu_via env e d w).
Proof. intros He. unfold lu_via. destruct (lu_fsm _); [reflexivity| |reflexivity]. by apply lu_ev_rel. Qed.
Lemma arq_via_rel e d w : arq_ext e d -> Rel w (arq_via env e d w).
Proof. intros He. unfold arq_via. destruct (proc_arq_fsm _); [reflexivity| |reflexivity]. by apply arq_ev_rel. Qed.
#[local] Hint Resolve auth_via_rel : rel.
#[local] Hint Extern 1 (Rel _ (lu_via _ _ _ _)) => (apply lu_via_rel; exact I) : rel.
#[local] Hint Extern 1 (Rel _ (arq_via _ _ _ _)) => (apply arq_via_rel; exact I) : rel.
Lemma rx_auth_fail_rel a w : Rel w (vlr_subscr_rx_auth_fail env a w).
Proof. unfold vlr_subscr_rx_auth_fail. step_walk. Qed.
Lemma rx_auth_resp_rel a b c d w : Rel w (vlr_subscr_rx_auth_resp env a b c d w).
Proof. unfold vlr_subscr_rx_auth_resp. step_walk. Qed.
Lemma rx_ciph_res_rel r w : Rel w (vlr_subscr_rx_ciph_res env r w).
Proof. unfold vlr_subscr_rx_ciph_res. step_walk. Qed.
Lemma rx_id_resp_rel m w : Rel w (vlr_subscr_rx_id_resp env m w).
Proof. unfold vlr_subscr_rx_id_resp. step_walk. Qed.
Lemma rx_tmsi_compl_rel w : Rel w (vlr_subscr_rx_tmsi_reall_compl env w).
Proof. unfold vlr_subscr_rx_tmsi_reall_compl. step_walk. Qed.
Lemma rx_rau_compl_rel w : Rel w (vlr_subscr_rx_rau_complete env w).
Proof. unfold vlr_subscr_rx_rau_complete. step_walk. Qed.

(** ** Messages of the HLR *)

Lemma insert_data_uses g v : same_uses v (vlr_subscr_gsup_insert_data g v).
Proof. unfold vlr_subscr_gsup_insert_data. by repeat case_match. Qed.
Lemma insert_data_rel g w : Rel w (w <| vsub ::= vlr_subscr_gsup_insert_data g |>).
Proof. apply vsub_upd_rel, insert_data_uses. Qed.
Lemma sai_res_rel g w : Rel w (snd (vlr_subscr_handle_sai_res env g w)).
Proof. unfold vlr_subscr_handle_sai_res. step_walk. Qed.
Lemma isd_req_rel g w : Rel w (snd (vlr_subscr_handle_isd_req g w)).
Proof.
  unfold vlr_subscr_handle_isd_req. cbv zeta. eapply rel_step; [typeclasses eauto|apply tx_gsup_rel|].
  eapply rel_step; [typeclasses eauto|step_leaf|].
  eapply rel_step; [typeclasses eauto|apply insert_data_rel|]. step_leaf.
Qed.
Lemma lu_res_rel g w : Rel w (snd (vlr_subscr_handle_lu_res env g w)).
Proof.
  unfold vlr_subscr_handle_lu_res. destruct (_ && _); [reflexivity|]. cbv zeta. cbn [snd].
  pose proof (insert_data_rel g w) as H. set (w1 := w <| vsub ::= _ |>) in *. clearbody w1.
  step_walk.
Qed.
Lemma lu_err_rel g w : Rel w (snd (vlr_subscr_handle_lu_err env g w)).
Proof. unfold vlr_subscr_handle_lu_err. step_walk. Qed.
Lemma cancel_req_rel g w : Rel w (snd (vlr_subscr_handle_cancel_req env g w)).
Proof. unfold vlr_subscr_handle_cancel_req. step_walk. Qed.
Lemma handle_imei_rel g w : Rel w (snd (vlr_subscr_handle_check_imei env g w)).
Proof.
  unfold vlr_subscr_handle_check_imei. step_walk. apply lu_via_rel. by destruct (g_imei_ack g).
Qed.
#[local] Hint Resolve sai_res_rel isd_req_rel lu_res_rel lu_err_rel cancel_req_rel handle_imei_rel : rel.
Lemma gsup_known_rel g w : Rel w (snd (vlr_gsup_rx_known env g w)).
Proof. unfold vlr_gsup_rx_known. cbv zeta. destruct (g_type g); step_walk. Qed.
Lemma gsup_fail_one_rel w : Rel w (gsup_fail_one env w).
Proof. unfold gsup_fail_one. step_walk. Qed.
#[local] Hint Resolve gsup_known_rel : rel.

(** ** Operations on a record that is looked up *)

Lemma with_imsi_top tok i f w : ~ managed tok -> (forall x, Rel x (f x)) ->
  Top w (with_imsi tok i f w).
Proof.
  intros Hm Hf. unfold with_imsi. transitivity (sync w); [apply (st_incl _ _ _ _ HE), sync_rel|].
  set (w1 := sync w). apply (st_found _ _ _ _ HE). intros Hr.
  destruct (db_find_by_imsi _ _) as [v|] eqn:E; [|reflexivity].
  apply (st_find _ _ _ _ HE) in E; [|done]. apply (st_on_subscr _ _ _ _ HE); [done|].
  intros x. by apply hold_rel.
Qed.

Ltac by_imsi := apply with_imsi_top; [by intros [?|[?|[?|?]]]|]; intros ?; cbv beta; cbv zeta.
Lemma sgs_imsi_detach_top i t w : Top w (vlr_sgs_imsi_detach env i t w).
Proof. by_imsi. step_walk. Qed.
Lemma sgs_eps_detach_top i t w : Top w (vlr_sgs_eps_detach env i t w).
Proof. by_imsi. step_walk. Qed.
Lemma sgs_tmsi_compl_top i w : Top w (vlr_sgs_tmsi_reall_compl env i w).
Proof. by_imsi. step_walk. Qed.
Lemma sgs_pag_rej_top i c w : Top w (vlr_sgs_pag_rej env i c w).
Proof. by_imsi. step_walk. Qed.
Lemma sgs_pag_ack_top i w : Top w (vlr_sgs_pag_ack i w).
Proof. by_imsi. step_walk. Qed.
Lemma sgs_ue_unr_top i c w : Top w (vlr_sgs_ue_unr env i c w).
Proof. by_imsi. step_walk. Qed.

Lemma sgs_lu_expiry_rel w : Rel w (sgs_lu_expiry w).
Proof. unfold sgs_lu_expiry. step_walk. Qed.
#[local] Hint Resolve sgs_lu_expiry_rel : rel.
Lemma sgs_lu_store_rel l w : Rel w (sgs_lu_store l w).
Proof. unfold sgs_lu_store. step_walk. Qed.
Lemma sgs_lu_request_rel c m i p w : Rel w (sgs_lu_request env c m i p w).
Proof. unfold sgs_lu_request. step_walk. Qed.
#[local] Hint Resolve sgs_lu_store_rel sgs_lu_request_rel : rel.
Lemma sgs_loc_update_top c m i l p w : Top w (snd (vlr_sgs_loc_update env c m i l p w)).
Proof.
  unfold vlr_sgs_loc_update. transitivity (sync w); [apply (st_incl _ _ _ _ HE), sync_rel|].
  set (w1 := sync w). destruct (db_find_or_create_by_imsi _ _) as [[v d]|] eqn:E; [|reflexivity].
  apply (st_create _ _ _ _ HE _ _ _ _ _ E). intros Hv. cbn [snd].
  apply (st_on_subscr _ _ _ _ HE); [done|]. intros x. cbv beta. cbv zeta.
  destruct (fi_state _); [step_walk|apply (st_sgs_lu_get_put _ _ _ HS)|step_walk].
Qed.

Lemma gsup_rx_top g w : Top w (vlr_gsup_rx env g w).
Proof.
  unfold vlr_gsup_rx. transitivity (sync w); [apply (st_incl _ _ _ _ HE), sync_rel|].
  set (w1 := sync w).
  assert (Hk : forall v x, rec_ok v ->
    Top x (on_subscr v (hold VLR_GSUP_RX (fun w => snd (vlr_gsup_rx_known env g w))) x)).
  { intros v x Hv. apply (st_on_subscr _ _ _ _ HE); [done|]. intros y. step_walk. }
  assert (Hu : Top w1 (snd (vlr_rx_gsup_unknown_imsi g (emit (RateCtr VLR_CTR_GSUP_RX_UNKNOWN_IMSI 1) w1)))).
  { apply (st_incl _ _ _ _ HE). unfold vlr_rx_gsup_unknown_imsi. step_walk. }
  apply (st_found _ _ _ _ HE). intros Hr. destruct (db_find_by_imsi _ _) as [v|] eqn:E.
  - apply (st_find _ _ _ _ HE) in E; [|done]. by apply Hk.
  - destruct (g_type g); try exact Hu; try (apply (st_incl _ _ _ _ HE); solve [step_walk]).
    destruct (str_empty _); [exact Hu|].
    destruct (db_find_or_create_by_imsi _ _) as [[v d]|] eqn:E2; [|exact Hu].
    apply (st_create _ _ _ _ HE _ _ _ _ _ E2). intros Hv. by apply Hk.
Qed.

Lemma expire_loop_top n l t w : Forall rec_ok l -> Top w (expire_lu_loop env n l t w).
Proof.
  intros Hl. revert n w. induction Hl as [|v l Hv Hl IH]; intros n w; [reflexivity|].
  cbn [expire_lu_loop]. destruct n as [|n]; [apply IH|]. cbv zeta.
  etransitivity; [|apply IH]. apply (st_on_subscr _ _ _ _ HE); [done|]. intros x. apply expire_one_rel.
Qed.
Lemma expire_lu_top w : Top w (vlr_subscr_expire_lu env w).
Proof.
  unfold vlr_subscr_expire_lu. transitivity (sync w); [apply (st_incl _ _ _ _ HE), sync_rel|].
  set (w1 := sync w). destruct (now w1) as [t|]; [|reflexivity].
  apply (st_found _ _ _ _ HE). intros Hr. by apply expire_loop_top.
Qed.
Lemma fail_loop_top n l w : Forall rec_ok l -> Top w (snd (gsup_fail_loop env n l w)).
Proof.
  intros Hl. revert n w. induction Hl as [|v l Hv Hl IH]; intros n w; [reflexivity|].
  cbn [gsup_fail_loop]. destruct (negb _); [apply IH|]. destruct n as [|n]; [reflexivity|].
  etransitivity; [|apply IH]. apply (st_on_subscr _ _ _ _ HE); [done|apply gsup_fail_one_rel].
Qed.
Lemma fail_pending_top up w : Top w (snd (vlr_gsup_fail_pending_cb env up w)).
Proof.
  unfold vlr_gsup_fail_pending_cb. destruct up; [reflexivity|].
  transitivity (sync w); [apply (st_incl _ _ _ _ HE), sync_rel|]. set (w1 := sync w).
  apply (st_found _ _ _ _ HE). intros Hr. by apply fail_loop_top.
Qed.

(** ** Any input *)

Context (HT : forall w, sgs_Ts5_pending (vsub w) = true -> Rel w (Ts5_timeout_cb env w)).

#[local] Hint Resolve rx_auth_fail_rel rx_auth_resp_rel rx_ciph_res_rel rx_id_resp_rel rx_tmsi_compl_rel
  rx_rau_compl_rel imsi_detach_rel disconnected_rel ran_conn_timeout_rel auth_timeout_rel
  pres_timeout_rel sgs_timeout_rel paging_response_rel paging_remove_rel sgs_service_req_rel
  sgs_paging_resp_rel : rel.
#[local] Hint Resolve gsup_rx_top expire_lu_top fail_pending_top sgs_loc_update_top
  sgs_imsi_detach_top sgs_eps_detach_top sgs_tmsi_compl_top sgs_pag_rej_top sgs_pag_ack_top
  sgs_ue_unr_top : rel.

Lemma if_alive_rel {St : Type} (fi : fsm_inst St vlr_pe) f w :
  (fi_terminating fi = false -> Rel w (f w)) -> Rel w (if_alive fi f w).
Proof. intros H. unfold if_alive. destruct (fi_terminating fi); [reflexivity|by apply H]. Qed.

Lemma handle_top i w : associates i = false -> Top w (vlr_handle env i w).
Proof.
  intros Ha. destruct i; try done; cbn [vlr_handle]; clear Ha;
    first [solve [eauto 2 with rel nocore]
          | apply (st_incl _ _ _ _ HE); first [solve [eauto 2 with rel nocore] | idtac]].
  - apply if_alive_rel, (st_lu_timeout _ _ _ _ HE).
  - apply if_alive_rel, (st_arq_timeout _ _ _ _ HE).
  - apply if_alive_rel. intros _. apply auth_timeout_rel.
  - apply if_alive_rel, (st_compl_timeout _ _ _ _ HE).
  - apply if_alive_rel, (st_upd_timeout _ _ _ _ HE).
  - apply if_alive_rel. intros _. apply pres_timeout_rel.
  - destruct (sgs_Ts5_pending (vsub w)) eqn:E; [by apply HT|reflexivity].
  - destruct (cs_paging_response_timer _); [apply paging_timer_rel|reflexivity].
  - apply (st_paging_start _ _ _ _ HE).
Qed.
End walk.
