(* ===== verification/VlrBalance.v ===== *)
(** * Every handler keeps the use counts balanced

    The invariant of VlrUseProofs, handler by handler, up to the system: for
    any number of nested dispatches. *)

From S2P Require Import Prelude OsmoFsm WorldRel Gsm VlrTypes VlrSubscr VlrUse VlrAuthTuples.
From S2P Require Import VlrAuthFsm VlrLuSub VlrLu VlrArq VlrSgs Paging SgsIface VlrSystem.
From S2P Require Import VlrUseProofs VlrSteps.

Create HintDb bal discriminated.
#[export] Hint Constants Opaque : bal.

(** events that do not make a procedure look up its subscriber *)
Definition lu_ev_ok (e : lu_event) : Prop := e <> VLR_ULA_E_UPDATE_LA.
Definition arq_ev_ok (e : arq_event) : Prop := e <> PR_ARQ_E_START /\ e <> PR_ARQ_E_ID_IMSI.

(** What a dispatcher promises to the handlers that call it *)
Record env_bal {L : FsmLib} {DB : Type} {VDB : VlrDb DB} (env : vlr_env DB) : Prop := mk_env_bal {
  eb_lu e d w : lu_ev_ok e -> bal w (lu_dispatch env e d w);
  eb_arq e d w : arq_ev_ok e -> bal w (arq_dispatch env e d w);
  eb_lu_good e d w : good w -> good (lu_dispatch env e d w);
  eb_arq_good e d w : good w -> good (arq_dispatch env e d w);
  eb_compl e d w : bal w (compl_dispatch env e d w);
  eb_upd e d w : bal w (upd_dispatch env e d w);
  eb_pres e d w : bal w (pres_dispatch env e d w);
  eb_auth e d w : bal w (auth_dispatch env e d w);
  eb_sgs e d w : bal w (sgs_dispatch env e d w);
  eb_resp r w : bal w (sgs_response_cb env r w);
  eb_paging s w : bal w (sgs_paging_cb env s w);
  eb_mminfo w : bal w (sgs_mminfo_cb env w);
  eb_tx_paging d w : same_view w (sgs_dispatch env SGS_UE_E_TX_PAGING d w);
  eb_timeout :
    (forall w, sgs_paging_cb env SGSAP_SERV_IND_PAGING_TIMEOUT w = paging_expired w)
    \/ (forall w, sgs_paging_cb env SGSAP_SERV_IND_PAGING_TIMEOUT w = w <| out_of_fuel := true |>)
}.

(** one step of a handler *)
Ltac bal_leaf :=
  idtac; lazymatch goal with
  | |- bal _ (emit ?o ?a) => exact ((fun x => bal_frame x (emit o x) eq_refl) a)
  | |- bal _ (osmo_panic ?a) => exact ((fun x => bal_frame x (osmo_panic x) eq_refl) a)
  | |- bal _ (@field_upd ?A ?B ?C ?D ?f ?a) =>
      exact ((fun x => bal_frame x (@field_upd A B C D f x) eq_refl) a)
  | |- bal _ (snd (call ?o ?a)) => exact ((fun x => bal_frame x (snd (call o x)) eq_refl) a)
  | |- _ => solve [eauto 3 with bal nocore]
  end.

Ltac bal_walk := rel_walk bal_leaf.

#[export] Hint Resolve expire_bal attach_bal pag_stop_bal lu_release_bal paging_concludes_bal sync_bal
  rehash_tmsi_bal set_imsi_bal alloc_tmsi_bal : bal.
#[export] Hint Resolve eb_compl eb_upd eb_pres eb_auth eb_sgs eb_resp eb_paging eb_mminfo : bal.

(** side conditions of the FSM lemmas *)
Ltac fsm_frames := try done; try (intros; by apply bal_frame).

(** ** Parent events *)
Section parents.
Context {L : FsmLib} {LL : FsmLaws L} {DB : Type} {VDB : VlrDb DB} {VU : VlrDbUses DB}
        {R : VlrRc} {BC : BcdCodec} {SS : SgsState}.
Context (env : vlr_env DB) (HE : env_bal env).
Implicit Type w : world DB.

Lemma parent_event_bal pe d w : pe_ok pe -> bal w (parent_event env pe d w).
Proof.
  intros (H1 & H2 & H3). destruct pe as [e|e|e|e]; cbn.
  - apply (eb_lu env HE). intros ->. done.
  - apply (eb_arq env HE). split; intros ->; done.
  - apply (eb_compl env HE).
  - by apply bal_frame.
Qed.

(** an event that is stored in the world *)
Lemma stored_event_bal (f : world DB -> vlr_pe) d w :
  (forall x, f x ∈ parent_pes x) -> bal w (parent_event env (f w) d w).
Proof.
  intros Hf Hg. assert (Hok : pe_ok (f w)).
  { destruct Hg as (_ & _ & H). rewrite Forall_forall in H. apply H, Hf. }
  by apply parent_event_bal.
Qed.

Ltac in_pes := intros; unfold parent_pes; repeat (apply elem_of_cons; first [left; reflexivity | right]).

(** *** The steps that are shared with other invariants *)

Lemma sgs_pag_bal s w : bal w (vlr_sgs_pag env s w).
Proof.
  unfold vlr_sgs_pag. cbv zeta. set (w1 := w <| vsub ::= _ |>).
  pose proof (eb_tx_paging env HE DNull w1) as Hv. set (w2 := sgs_dispatch env _ _ w1) in *.
  set (w3 := w2 <| vsub ::= _ |>).
  assert (Hv3 : use_view w3 = use_view w1) by exact Hv. clearbody w3. clear Hv w2.
  assert (Ht : sgs_Ts5_pending (vsub w3) = true) by exact (f_equal uv_Ts5 Hv3).
  assert (Hl : lu_complete (vsub w3) = lu_complete (vsub w)) by exact (f_equal uv_lu Hv3).
  assert (Hi : is_paging (vsub w3) = is_paging (vsub w)) by exact (f_equal uv_paging Hv3).
  destruct (sgs_Ts5_pending (vsub w)) eqn:Et; cbn [negb].
  - apply bal_frame. rewrite Hv3. unfold use_view. cbn. by rewrite Et.
  - transitivity (vlr_subscr_get VSUB_USE_SGS_PAGING_REQ w3); [|by apply bal_frame].
    apply get_managed; [by right; left|exact (f_equal uv_ptr Hv3)|exact (f_equal uv_counts Hv3)| |].
    { intros p. rewrite !freed_view. by rewrite (f_equal uv_free Hv3 : List.filter is_free (out w3) = _). }
    apply flag_good; [exact (f_equal uv_counts Hv3)|exact (f_equal uv_db Hv3)|exact (f_equal uv_pes Hv3)|].
    intros [G1 G2 G3 G4]. rewrite Ht, Hl, Hi.
    split_and!; [by rewrite decide_True, G3, Et|by rewrite decide_False, G2|
                 by rewrite decide_True, G3, Et|by rewrite decide_False, G4].
Qed.
(** the use for the time of the location update *)
Lemma sgs_lu_get_bal w : bal w (vlr_subscr_get VSUB_USE_SGS_LU w).
Proof.
  apply get_managed; [by right; right; right|done..|]. intros Hg. apply adj_good; [done..|].
  pose proof (uses_nonneg _ (proj1 Hg) VSUB_USE_SGS_LU). lia.
Qed.
Lemma sgs_lu_get_put_bal w : bal w (vlr_subscr_put VSUB_USE_SGS_LU (vlr_subscr_get VSUB_USE_SGS_LU w)).
Proof.
  apply bal_if_good. intros Hg. pose proof (uses_nonneg _ (proj1 Hg)) as Hn. rewrite get_eq by exact Hn.
  set (w1 := adj VSUB_USE_SGS_LU 1 w).
  assert (Hc : forall t, vsub_use_count t (vsub (adj VSUB_USE_SGS_LU (-1) w1)) = vsub_use_count t (vsub w)).
  { intros t. unfold w1. rewrite !count_adj. destruct (decide _); lia. }
  assert (Hg1 : good (adj VSUB_USE_SGS_LU (-1) w1)).
  { destruct Hg as ([G1 G2 G3 G4] & G5 & G6). split_and!; [split; [intros t|..]; by rewrite Hc|done|done]. }
  destruct (put_good _ w1 Hg1) as (G & P & C & F). intros _. split_and!; [done|done| |].
  - intros t Ht. rewrite <- Hc. unfold vsub_use_count. by rewrite C.
  - intros p [Hp|[Hp Hh]]%F; [by left|right]. split; [done|]. intros H. apply Hh.
    apply (held_counts (vsub w)); [|done]. intros t _. apply Hc.
Qed.

(** an event of Authenticate_VLR is put in place of another one *)
Lemma auth_bal fi p w :
  (Forall pe_ok (auth_pes_of (w_auth w) (afp w)) -> Forall pe_ok (auth_pes_of fi p)) ->
  bal w (w <| w_auth := fi |> <| afp := p |>).
Proof.
  intros H. apply bal_pes; [done..|]. unfold parent_pes, auth_pes_of in *. cbn in *.
  repeat rewrite Forall_cons in *. tauto.
Qed.
Lemma auth_pe_stored f w : (forall x : world DB, f x ∈ auth_pes_of (w_auth x) (afp x)) ->
  Forall pe_ok (parent_pes w) -> pe_ok (f w).
Proof.
  intros Hf H. assert (Ha : Forall pe_ok (auth_pes_of (w_auth w) (afp w))).
  { unfold parent_pes, auth_pes_of in *. repeat rewrite Forall_cons in *. tauto. }
  rewrite Forall_forall in Ha. by apply Ha.
Qed.

Lemma bal_steps : steps env bal pe_ok.
Proof.
  split; try (intros; solve [eauto 2 with bal nocore]).
  - apply bal_preorder.
  - intros o w Ho. apply bal_frame. unfold use_view. cbn. by destruct o.
  - intros v w. apply bal_vsub.
  - intros n w. by apply bal_frame.
  - apply auth_bal.
  - intros fi w H. apply bal_pes; [done..|]. unfold parent_pes. cbn. repeat rewrite Forall_cons. tauto.
  - intros pe d w. apply parent_event_bal.
  - intros f d w Hf Hg. apply parent_event_bal; [|done]. apply (auth_pe_stored f w Hf), Hg.
  - intros f w Hf. apply bal_if_good. intros Hg. apply bal_pes; [done..|]. intros Hp.
    pose proof (auth_pe_stored f w Hf Hp) as Ho. unfold parent_pes, set_auth_term_event in *. cbn in *.
    repeat rewrite Forall_cons in *. tauto.
  - intros d w. apply (stored_event_bal (fun x => fi_parent_term_event (w_pres x))). in_pes.
  - intros tok f w. apply hold_bal.
  - apply sgs_pag_bal.
  - apply sgs_lu_get_bal.
  - apply sgs_lu_get_put_bal.
Qed.

(** their consequences for the sub-procedures *)
Let req_lu_bal := req_lu_rel env bal pe_ok bal_steps.
Let check_imei_bal := check_imei_rel env bal pe_ok bal_steps.
Let set_ciph_bal := set_ciph_rel env bal pe_ok bal_steps.
Let auth_term_bal := auth_term_rel env bal pe_ok bal_steps.
Let auth_start_bal := auth_start_rel env bal pe_ok bal_steps.
Let pres_term_bal := pres_term_rel env bal pe_ok bal_steps.
Let pres_start_bal := pres_start_rel env bal pe_ok bal_steps.
Let auth_dispatch_bal := auth_dispatch_rel env bal pe_ok bal_steps.
Let pres_dispatch_bal := pres_dispatch_rel env bal pe_ok bal_steps.
Let sgs_dispatch_bal := sgs_dispatch_rel env bal pe_ok bal_steps.
Let tx_resp_bal := tx_resp_rel env bal pe_ok bal_steps.
Let tx_mm_info_bal := tx_mm_info_rel env bal pe_ok bal_steps.
Let paging_cb_bal := paging_cb_rel env bal pe_ok bal_steps.
#[local] Hint Resolve req_lu_bal check_imei_bal set_ciph_bal auth_term_bal pres_term_bal paging_cb_bal : bal.
#[local] Hint Extern 1 (bal _ (hold _ _ _)) =>
  (apply hold_bal; [by intros [?|[?|[?|?]]]|]; intros ?; cbv beta; bal_walk) : bal.

(** *** Update_HLR_VLR *)

Lemma upd_chg_bal s secs T w : bal w (upd_hlr_state_chg env s secs T w).
Proof. apply (state_chg_rel bal (upd_hlr_vlr_fsm env)); [intros; by apply bal_frame|reflexivity]. Qed.
Lemma upd_term_bal c d w : bal w (upd_hlr_term env c d w).
Proof.
  apply (term_rel bal (upd_hlr_vlr_fsm env)); fsm_frames.
  intros d' x. apply (stored_event_bal (fun x => fi_parent_term_event (w_upd x))). in_pes.
Qed.
#[local] Hint Resolve upd_chg_bal upd_term_bal : bal.
Lemma upd_dispatch_bal e d w : bal w (upd_hlr_fsm_dispatch env e d w).
Proof.
  apply (dispatch_rel bal (upd_hlr_vlr_fsm env)). intros s.
  destruct s; cbn; unfold upd_hlr_vlr_fsm_init, upd_hlr_vlr_fsm_wait_data; bal_walk.
Qed.
Lemma upd_timeout_bal w : bal w (upd_hlr_fsm_timeout env w).
Proof. unfold upd_hlr_fsm_timeout. rewrite timer_without_cb. apply upd_term_bal. Qed.
Lemma upd_start_bal pe w : pe_ok pe -> bal w (snd (upd_hlr_vlr_proc_start env pe w)).
Proof.
  intros Hpe. unfold upd_hlr_vlr_proc_start.
  destruct (osmo_fsm_inst_alloc_child _ pe) as [fi|] eqn:E; [|reflexivity].
  apply alloc_child_init in E as ->. cbn [snd].
  eapply rel_step; [typeclasses eauto|apply (eb_upd env HE)|].
  apply bal_pes; [done..|]. unfold parent_pes. cbn. repeat rewrite Forall_cons. tauto.
Qed.

(** *** Location_Update_Completion_VLR *)

Lemma compl_children_bal w : bal w (lu_compl_term_children env w).
Proof. unfold lu_compl_term_children. bal_walk. Qed.
Lemma compl_result_bal p w : bal w (vlr_lu_compl_fsm_dispatch_result env p w).
Proof.
  unfold vlr_lu_compl_fsm_dispatch_result. destruct (fi_parent _); [|reflexivity]. cbn [negb].
  destruct (lcvp_result (lcvp w)).
  - apply (stored_event_bal (fun x => lcvp_event_failure (lcvp x))). in_pes.
  - apply (stored_event_bal (fun x => lcvp_event_success (lcvp x))). in_pes.
  - apply (stored_event_bal (fun x => lcvp_event_failure (lcvp x))). in_pes.
Qed.
Lemma compl_onenter_bal s p w : bal w (lu_compl_onenter env s p w).
Proof. destruct s; cbn; try reflexivity; try (by apply bal_frame). apply compl_result_bal. Qed.
Lemma compl_chg_bal s secs T w : bal w (lu_compl_state_chg env s secs T w).
Proof. apply (state_chg_rel bal (lu_compl_vlr_fsm env)); [intros; by apply bal_frame|apply compl_onenter_bal]. Qed.
Lemma compl_tdef_bal s w : bal w (lu_compl_tdef_chg env s w).
Proof. apply (tdef_chg_rel bal (lu_compl_vlr_fsm env)); [intros; by apply bal_frame|apply compl_onenter_bal]. Qed.
Lemma compl_term_bal c d w : bal w (lu_compl_term env c d w).
Proof.
  apply (term_rel bal (lu_compl_vlr_fsm env)); fsm_frames; [apply compl_children_bal|].
  intros d' x. apply (stored_event_bal (fun x => fi_parent_term_event (w_compl x))). in_pes.
Qed.
#[local] Hint Resolve compl_chg_bal compl_tdef_bal compl_term_bal : bal.
Lemma compl_done_bal r c w : bal w (_vlr_lu_compl_fsm_done env r c w).
Proof. unfold _vlr_lu_compl_fsm_done. bal_walk. Qed.
#[local] Hint Resolve compl_done_bal : bal.
Lemma compl_success_bal w : bal w (vlr_lu_compl_fsm_success env w).
Proof. unfold vlr_lu_compl_fsm_success. bal_walk. Qed.
#[local] Hint Resolve compl_success_bal : bal.
Lemma compl_new_tmsi_bal w : bal w (lu_compl_vlr_new_tmsi env w).
Proof. unfold lu_compl_vlr_new_tmsi. bal_walk. Qed.
Lemma compl_accept_bal w : bal w (lu_compl_accept_without_tmsi env w).
Proof. unfold lu_compl_accept_without_tmsi. bal_walk. Qed.
#[local] Hint Resolve compl_new_tmsi_bal compl_accept_bal : bal.
Lemma compl_init_bal e d w : bal w (lu_compl_vlr_init env e d w).
Proof.
  unfold lu_compl_vlr_init. bal_walk.
  eapply rel_step; [typeclasses eauto|apply pres_start_bal; [done|]; intros; by apply bal_frame|].
  bal_walk.
Qed.
Lemma compl_pres_bal e d w : bal w (lu_compl_vlr_wait_subscr_pres env e d w).
Proof. unfold lu_compl_vlr_wait_subscr_pres. bal_walk. Qed.
Lemma compl_imei_bal e d w : bal w (lu_compl_vlr_wait_imei env e d w).
Proof. unfold lu_compl_vlr_wait_imei. bal_walk. Qed.
Lemma compl_tmsi_bal e d w : bal w (lu_compl_vlr_wait_tmsi env e d w).
Proof. unfold lu_compl_vlr_wait_tmsi. bal_walk. Qed.
#[local] Hint Resolve compl_init_bal compl_pres_bal compl_imei_bal compl_tmsi_bal : bal.
Lemma compl_dispatch_bal e d w : bal w (lu_compl_fsm_dispatch env e d w).
Proof. apply (dispatch_rel bal (lu_compl_vlr_fsm env)). intros s. destruct s; cbn; bal_walk. Qed.
Lemma compl_timeout_bal w : bal w (lu_compl_fsm_timeout env w).
Proof.
  apply (timer_rel bal (lu_compl_vlr_fsm env)); fsm_frames; [apply compl_children_bal| |].
  - intros d' x. apply (stored_event_bal (fun x => fi_parent_term_event (w_compl x))). in_pes.
  - unfold lu_compl_vlr_timeout. bal_walk.
Qed.
Lemma compl_alloc_bal c s f a t w : pe_ok s -> pe_ok f ->
  bal w (snd (lu_compl_vlr_proc_alloc c s f a t w)).
Proof.
  intros Hs Hf. unfold lu_compl_vlr_proc_alloc.
  destruct (osmo_fsm_inst_alloc_child _ f) as [fi|] eqn:E; [|reflexivity].
  apply alloc_child_init in E as ->. cbn [snd].
  apply bal_pes; [done..|]. unfold parent_pes. cbn. repeat rewrite Forall_cons. tauto.
Qed.

(** *** Update_Location_Area_VLR *)

Lemma lu_cleanup_bal c w : bal w (fsm_lu_cleanup c w).
Proof. unfold fsm_lu_cleanup. bal_walk. Qed.
Lemma lu_children_bal w : bal w (lu_term_children env w).
Proof. unfold lu_term_children. bal_walk. Qed.
Lemma lu_term_bal c d w : bal w (osmo_fsm_inst_term (vlr_lu_fsm env) c d w).
Proof.
  apply (term_rel bal (vlr_lu_fsm env)); fsm_frames; [apply lu_cleanup_bal|apply lu_children_bal|].
  intros d' x. apply (stored_event_bal (fun x => fi_parent_term_event (w_lu x))). in_pes.
Qed.
Lemma lu_result_bal p w : bal w (lu_fsm_dispatch_result env p w).
Proof.
  unfold lu_fsm_dispatch_result. destruct (fi_parent _); [|reflexivity]. cbn [negb]. cbv zeta.
  eapply rel_step; [typeclasses eauto|apply lu_term_bal|].
  apply bal_pes; [done..|]. unfold parent_pes. cbn. repeat rewrite Forall_cons. intuition done.
Qed.
Lemma lu_onenter_bal s p w : bal w (lu_onenter env s p w).
Proof. destruct s; cbn; try reflexivity; try (by apply bal_frame). apply lu_result_bal. Qed.
Lemma lu_chg_bal s secs T w : bal w (lu_state_chg env s secs T w).
Proof. apply (state_chg_rel bal (vlr_lu_fsm env)); [intros; by apply bal_frame|apply lu_onenter_bal]. Qed.
Lemma lu_tdef_bal s w : bal w (lu_tdef_chg env s w).
Proof. apply (tdef_chg_rel bal (vlr_lu_fsm env)); [intros; by apply bal_frame|apply lu_onenter_bal]. Qed.
#[local] Hint Resolve lu_term_bal lu_chg_bal lu_tdef_bal : bal.
Lemma lu_done_bal r w : bal w (_lu_fsm_done env r w).
Proof. unfold _lu_fsm_done. bal_walk. Qed.
#[local] Hint Resolve lu_done_bal : bal.
Lemma lu_success_bal w : bal w (lu_fsm_success env w).
Proof. unfold lu_fsm_success. bal_walk. Qed.
Lemma lu_failure_bal c w : bal w (lu_fsm_failure env c w).
Proof. unfold lu_fsm_failure. bal_walk. Qed.
Lemma try_auth_bal w : bal w (snd (try_auth w)).
Proof.
  unfold try_auth. destruct (lfp_authentication_required _); [reflexivity|].
  destruct (lfp_is_ciphering_to_be_attempted _); [|reflexivity]. cbn [negb].
  pose proof (reuse_uses (cfg w) (lfp_key_seq (lfp w)) (vsub w)) as H.
  destruct (auth_try_reuse_tuple _ _ _) as [ok v]. by apply bal_vsub.
Qed.
#[local] Hint Resolve lu_success_bal lu_failure_bal try_auth_bal : bal.
#[local] Hint Extern 1 (bal _ (snd (lu_compl_vlr_proc_alloc _ _ _ _ _ _))) => by apply compl_alloc_bal : bal.
#[local] Hint Extern 1 (bal _ (snd (upd_hlr_vlr_proc_start _ _ _))) => by apply upd_start_bal : bal.
#[local] Hint Extern 1 (bal _ (snd (auth_fsm_start _ _ _ _ _ _ _))) => by apply auth_start_bal : bal.
Lemma start_compl_bal w : bal w (vlr_loc_upd_start_lu_compl_fsm env w).
Proof. unfold vlr_loc_upd_start_lu_compl_fsm. bal_walk. Qed.
Lemma discard_compl_bal w : bal w (lu_fsm_discard_lu_compl_fsm env w).
Proof. unfold lu_fsm_discard_lu_compl_fsm. bal_walk. Qed.
#[local] Hint Resolve start_compl_bal discard_compl_bal : bal.
Lemma node_4_bal w : bal w (vlr_loc_upd_node_4 env w).
Proof. unfold vlr_loc_upd_node_4. bal_walk. Qed.
Lemma node_b_bal w : bal w (vlr_loc_upd_node_b env w).
Proof. unfold vlr_loc_upd_node_b. bal_walk. Qed.
#[local] Hint Resolve node_4_bal node_b_bal : bal.
Lemma post_ciph_bal w : bal w (vlr_loc_upd_post_ciph env w).
Proof. unfold vlr_loc_upd_post_ciph. bal_walk. Qed.
#[local] Hint Resolve post_ciph_bal : bal.
Lemma post_auth_bal w : bal w (vlr_loc_upd_post_auth env w).
Proof. unfold vlr_loc_upd_post_auth. bal_walk. Qed.
#[local] Hint Resolve post_auth_bal : bal.
Lemma node1_bal w : bal w (vlr_loc_upd_node1 env w).
Proof. unfold vlr_loc_upd_node1. bal_walk. Qed.
#[local] Hint Resolve node1_bal : bal.
Lemma node1_pre_bal w : bal w (vlr_loc_upd_node1_pre env w).
Proof. unfold vlr_loc_upd_node1_pre. bal_walk. Qed.
Lemma want_imsi_bal w : bal w (vlr_loc_upd_want_imsi env w).
Proof. unfold vlr_loc_upd_want_imsi. bal_walk. Qed.
#[local] Hint Resolve node1_pre_bal want_imsi_bal : bal.
Lemma start_main_bal w : bal w (_start_lu_main env w).
Proof. unfold _start_lu_main. bal_walk. Qed.
#[local] Hint Resolve start_main_bal : bal.

Lemma compl_via_bal p e d w : bal w (compl_via env p e d w).
Proof. unfold compl_via. bal_walk. Qed.
Lemma upd_via_bal p e d w : bal w (upd_via env p e d w).
Proof. unfold upd_via. bal_walk. Qed.
#[local] Hint Resolve compl_via_bal upd_via_bal : bal.

Lemma lu_action_bal s e d w : s <> VLR_ULA_S_IDLE \/ lu_ev_ok e -> bal w (lu_action env s e d w).
Proof.
  intros He. destruct s; cbn.
  - destruct He as [|He]; [done|]. unfold lu_fsm_idle. destruct e; [done|bal_walk..].
  - unfold lu_fsm_wait_imeisv. bal_walk.
  - unfold lu_fsm_wait_pvlr. bal_walk.
  - unfold lu_fsm_wait_auth. bal_walk.
  - unfold lu_fsm_wait_ciph. bal_walk.
  - unfold lu_fsm_wait_imsi. bal_walk.
  - unfold lu_fsm_wait_hlr_check_imei_early. bal_walk.
  - unfold lu_fsm_wait_hlr_ul_res. bal_walk.
  - unfold lu_fsm_wait_lu_compl. bal_walk.
  - unfold lu_fsm_wait_lu_compl_standalone. bal_walk.
  - reflexivity.
Qed.
Lemma lu_dispatch_bal e d w : lu_ev_ok e -> bal w (lu_fsm_dispatch env e d w).
Proof. intros He. apply (dispatch_rel bal (vlr_lu_fsm env)). intros s. apply lu_action_bal. by right. Qed.
Lemma lu_timeout_bal w : bal w (lu_fsm_timeout env w).
Proof.
  apply (timer_rel bal (vlr_lu_fsm env)); fsm_frames; [apply lu_cleanup_bal|apply lu_children_bal| |].
  - intros d' x. apply (stored_event_bal (fun x => fi_parent_term_event (w_lu x))). in_pes.
  - unfold fsm_lu_timer_cb. bal_walk.
Qed.
Lemma lu_cancel_bal c w : bal w (vlr_loc_update_cancel env c w).
Proof. unfold vlr_loc_update_cancel. bal_walk. Qed.

(** *** Process_Access_Request_VLR *)

#[local] Hint Extern 1 (bal _ (parent_event _ (PeMsc _) _ _)) => by apply parent_event_bal : bal.
#[local] Hint Extern 1 (bal _ (sub_pres_vlr_fsm_start _ _ _ _)) =>
  (apply pres_start_bal; [done|]; intros; by apply bal_frame) : bal.
Lemma arq_cleanup_bal c w : bal w (proc_arq_vlr_cleanup c w).
Proof. unfold proc_arq_vlr_cleanup. bal_walk. Qed.
Lemma arq_children_bal w : bal w (arq_term_children env w).
Proof. unfold arq_term_children. bal_walk. Qed.
Lemma arq_result_bal p w : bal w (proc_arq_vlr_dispatch_result env p w).
Proof. unfold proc_arq_vlr_dispatch_result. bal_walk. Qed.
Lemma arq_onenter_bal s p w : bal w (arq_onenter env s p w).
Proof. destruct s; cbn; try reflexivity. apply arq_result_bal. Qed.
Lemma arq_chg_bal s secs T w : bal w (arq_state_chg env s secs T w).
Proof. apply (state_chg_rel bal (proc_arq_vlr_fsm env)); [intros; by apply bal_frame|apply arq_onenter_bal]. Qed.
Lemma arq_tdef_bal s w : bal w (arq_tdef_chg env s w).
Proof. apply (tdef_chg_rel bal (proc_arq_vlr_fsm env)); [intros; by apply bal_frame|apply arq_onenter_bal]. Qed.
#[local] Hint Resolve arq_chg_bal arq_tdef_bal : bal.
Lemma arq_done_bal c w : bal w (proc_arq_fsm_done env c w).
Proof. unfold proc_arq_fsm_done. bal_walk. Qed.
#[local] Hint Resolve arq_done_bal : bal.
Lemma arq_post_vlr_bal w : bal w (_proc_arq_vlr_node2_post_vlr env w).
Proof.
  unfold _proc_arq_vlr_node2_post_vlr, _proc_arq_vlr_post_pres, _proc_arq_vlr_post_trace,
    _proc_arq_vlr_post_imei. bal_walk.
Qed.
#[local] Hint Resolve arq_post_vlr_bal : bal.
Lemma arq_post_ciph_bal w : bal w (_proc_arq_vlr_node2_post_ciph env w).
Proof. unfold _proc_arq_vlr_node2_post_ciph. bal_walk. Qed.
#[local] Hint Resolve arq_post_ciph_bal : bal.
Lemma arq_node2_bal w : bal w (_proc_arq_vlr_node2 env w).
Proof. unfold _proc_arq_vlr_node2. bal_walk. Qed.
#[local] Hint Resolve arq_node2_bal : bal.
Lemma arq_attempt_auth_bal w : bal w (snd (is_auth_to_be_attempted w)).
Proof.
  unfold is_auth_to_be_attempted. destruct (par_authentication_required _); [reflexivity|].
  destruct (par_is_ciphering_to_be_attempted _); [|reflexivity]. cbn [negb].
  pose proof (reuse_uses (cfg w) (par_key_seq (par w)) (vsub w)) as H.
  destruct (auth_try_reuse_tuple _ _ _) as [ok v]. by apply bal_vsub.
Qed.
#[local] Hint Resolve arq_attempt_auth_bal : bal.
Lemma arq_post_imsi_bal w : bal w (proc_arq_vlr_fn_post_imsi env w).
Proof. unfold proc_arq_vlr_fn_post_imsi. bal_walk. Qed.
#[local] Hint Resolve arq_post_imsi_bal : bal.

Lemma arq_action_bal s e d w : (s <> PR_ARQ_S_INIT /\ s <> PR_ARQ_S_WAIT_OBTAIN_IMSI) \/ arq_ev_ok e ->
  bal w (arq_action env s e d w).
Proof.
  intros He. destruct s; cbn.
  - destruct He as [[]|[He _]]; [done|]. unfold proc_arq_vlr_fn_init. destruct e; [done|bal_walk..].
  - destruct He as [[]|[_ He]]; [done|].
    unfold proc_arq_vlr_fn_w_obt_imsi. destruct e; try done; bal_walk.
  - unfold proc_arq_vlr_fn_w_auth. bal_walk.
  - unfold proc_arq_vlr_fn_w_ciph. bal_walk.
  - unfold proc_arq_vlr_fn_w_upd_loc. bal_walk.
  - unfold proc_arq_vlr_fn_w_pres, _proc_arq_vlr_post_pres, _proc_arq_vlr_post_trace,
      _proc_arq_vlr_post_imei. bal_walk.
  - unfold proc_arq_vlr_fn_w_trace, _proc_arq_vlr_post_trace, _proc_arq_vlr_post_imei. bal_walk.
  - unfold proc_arq_vlr_fn_w_imei, _proc_arq_vlr_post_imei. bal_walk.
  - unfold proc_arq_vlr_fn_w_tmsi. bal_walk.
  - reflexivity.
  - reflexivity.
Qed.
Lemma arq_dispatch_bal e d w : arq_ev_ok e -> bal w (arq_fsm_dispatch env e d w).
Proof. intros He. apply (dispatch_rel bal (proc_arq_vlr_fsm env)). intros s. apply arq_action_bal. by right. Qed.
Lemma arq_timeout_bal w : bal w (arq_fsm_timeout env w).
Proof.
  apply (timer_rel bal (proc_arq_vlr_fsm env)); fsm_frames; [apply arq_cleanup_bal|apply arq_children_bal|].
  intros d' x. apply (stored_event_bal (fun x => fi_parent_term_event (w_arq x))). in_pes.
Qed.
Lemma arq_cancel_bal c w : bal w (vlr_parq_cancel env c w).
Proof. unfold vlr_parq_cancel. bal_walk. Qed.

(** sending a paging request does not make the FSM do anything *)
Lemma sgs_tx_paging_view d w : same_view w (sgs_fsm_dispatch env SGS_UE_E_TX_PAGING d w).
Proof. apply (dispatch_rel same_view sgs_ue_fsm). intros s. by destruct s. Qed.

(** *** Association with a subscriber *)

(** the rest of an operation on a record that a lookup has returned *)
Lemma found_good tok v d w w2 : ~ managed tok -> good w -> uses_ok v ->
  Forall uses_ok (db_subscribers d) ->
  bal (adj tok 1 (w <| db := d |> <| vsub := v |>)) w2 -> good (vlr_subscr_put tok w2).
Proof.
  intros Hm (_ & _ & H3) H1 H2 Hb. eapply bracket_bal; [done|exact Hb|]. by split_and!.
Qed.

Lemma assoc_lfp_bal v w w0 : bal w0 (w <| vsub := v |>) -> bal w0 (snd (assoc_lfp_with_sub env v w)).
Proof. intros H. unfold assoc_lfp_with_sub. bal_walk. Qed.
Lemma lu_found_good v d w : good w -> uses_ok v -> Forall uses_ok (db_subscribers d) ->
  good (snd (lu_found env (vsub_use_add LU_USE 1 v) (w <| db := d |>))).
Proof.
  intros Hg Hv Hd. unfold lu_found. set (v1 := _ <| sub_dataconf_by_hlr_ind := false |>).
  assert (Hb : bal (adj LU_USE 1 (w <| db := d |> <| vsub := v |>))
                 (snd (assoc_lfp_with_sub env v1 (w <| db := d |>)))).
  { apply assoc_lfp_bal. by apply bal_frame. }
  destruct (assoc_lfp_with_sub _ _ _) as [rc w2]. eapply found_good; [|done..].
  by intros [?|[?|[?|?]]].
Qed.
Lemma associate_good w : good w -> good (snd (_lu_fsm_associate_vsub env w)).
Proof.
  intros Hg. unfold _lu_fsm_associate_vsub. assert (Hs : good (sync w)) by by apply sync_bal.
  set (w1 := sync w) in *. cbv zeta. destruct (str_empty _).
  - set (w2 := w1 <| lfp ::= _ |>). assert (Hb : bal w1 w2) by by apply bal_frame.
    destruct (db_find_or_create_by_tmsi _ _) as [[v d]|] eqn:E.
    + apply create_tmsi_uses in E as [Hv Hd]; [|apply Hs]. apply lu_found_good; [by apply Hb|done..].
    + apply (lu_failure_bal _ w2). by apply Hb.
  - destruct (db_find_or_create_by_imsi _ _) as [[v d]|] eqn:E.
    + apply create_imsi_uses in E as [Hv Hd]; [|apply Hs]. by apply lu_found_good.
    + assert (H : bal w1 (osmo_panic (lu_fsm_failure env GSM48_REJECT_SRV_OPT_TMP_OUT_OF_ORDER w1)))
        by bal_walk. by apply H.
Qed.
Lemma lu_idle_good e d w : good w -> good (lu_fsm_idle env e d w).
Proof.
  intros Hg. unfold lu_fsm_idle. destruct e; try (by apply (bal_frame w)).
  pose proof (associate_good w Hg) as Ha. destruct (_lu_fsm_associate_vsub _ _) as [rc w1]. cbn [snd] in Ha.
  refine (proj1 ((_ : bal w1 _) Ha)). bal_walk.
Qed.
Definition stays_good w w' : Prop := good w -> good w'.
#[local] Instance stays_good_preorder : PreOrder stays_good.
Proof. split; [by intros ? ?|]. intros w1 w2 w3 H1 H2 H. by apply H2, H1. Qed.

Lemma lu_dispatch_good e d w : good w -> good (lu_fsm_dispatch env e d w).
Proof.
  apply (dispatch_rel stays_good (vlr_lu_fsm env)). intros s Hg.
  destruct s; try (by apply lu_action_bal; [left|]). by apply lu_idle_good.
Qed.

(** the end of the two handlers that look up the subscriber *)
Lemma arq_found_good tok v v1 w w1 : ~ managed tok -> good w -> uses_ok v ->
  same_uses (vsub_use_add tok 1 v) v1 -> use_view w1 = use_view w ->
  good (let '(rc, w) := assoc_par_with_subscr v1 w1 in
        let w := if negb (rc =? 0) then proc_arq_fsm_done env GSM48_REJECT_NETWORK_FAILURE w
                 else proc_arq_vlr_fn_post_imsi env w in
        vlr_subscr_put tok w).
Proof.
  intros Hm Hg Hv Hs Hw. assert (Hg1 : good w1) by by apply (bal_frame w w1 Hw).
  set (x := adj tok 1 (w1 <| db := db w1 |> <| vsub := v |>)).
  assert (Hb : bal x (snd (assoc_par_with_subscr v1 w1))).
  { transitivity (x <| vsub := v1 |>); [by apply bal_vsub|by apply bal_frame]. }
  destruct (assoc_par_with_subscr _ _) as [rc w2]. cbn [snd] in Hb.
  eapply found_good; [done|exact Hg1|exact Hv|apply Hg1|]. fold x.
  transitivity w2; [done|]. bal_walk.
Qed.

Lemma arq_init_good e d w : good w -> good (proc_arq_vlr_fn_init env e d w).
Proof.
  intros Hg. unfold proc_arq_vlr_fn_init. destruct e; try (by apply (bal_frame w)).
  assert (Hs : good (sync w)) by by apply sync_bal. set (w1 := sync w) in *. cbv zeta.
  set (found := if negb (par_by_tmsi (par w1)) then _ else _).
  assert (Hf : forall v, found = Some v -> uses_ok v).
  { intros v. unfold found. destruct (negb _); [apply find_imsi_uses | apply find_tmsi_uses]; apply Hs. }
  destruct found as [v|].
  - apply (arq_found_good _ v _ w1); [by intros [?|[?|[?|?]]]|done|by apply Hf|done|].
    by destruct (proc_arq_fsm _).
  - refine (proj1 ((_ : bal w1 _) Hs)). bal_walk.
Qed.
Lemma arq_obt_imsi_good e d w : good w -> good (proc_arq_vlr_fn_w_obt_imsi env e d w).
Proof.
  intros Hg. unfold proc_arq_vlr_fn_w_obt_imsi. destruct e; try (by apply (bal_frame w)).
  assert (Hs : good (sync w)) by by apply sync_bal. set (w1 := sync w) in *. cbv zeta.
  destruct (db_find_by_imsi _ _) as [v|] eqn:E.
  - apply (arq_found_good _ v _ w1); [by intros [?|[?|[?|?]]]|done| |done|done].
    apply find_imsi_uses in E; [done|apply Hs].
  - by apply arq_done_bal.
Qed.
Lemma arq_dispatch_good e d w : good w -> good (arq_fsm_dispatch env e d w).
Proof.
  apply (dispatch_rel stays_good (proc_arq_vlr_fsm env)). intros s Hg.
  destruct s; try (by apply arq_action_bal; [left|]);
    [by apply arq_init_good|by apply arq_obt_imsi_good].
Qed.

(** *** Paging *)

Lemma msc_paging_bal pr w : bal w (snd (msc_paging_request (sgs_iface_paging_cb env) pr w)).
Proof. unfold msc_paging_request. bal_walk. Qed.
#[local] Hint Resolve msc_paging_bal : bal.

(** the paging flag is set by the caller *)
Lemma sgs_pag_flag s w : good w -> is_paging (vsub (vlr_sgs_pag env s w)) = is_paging (vsub w).
Proof.
  intros Hg. unfold vlr_sgs_pag. cbv zeta. set (w1 := w <| vsub ::= _ |>).
  pose proof (eb_tx_paging env HE DNull w1) as Hv. set (w2 := sgs_dispatch env _ _ w1) in *.
  set (w3 := w2 <| vsub ::= _ |>).
  assert (Hv3 : use_view w3 = use_view w1) by exact Hv. clearbody w3. clear Hv w2.
  assert (Hi : is_paging (vsub w3) = is_paging (vsub w)) by exact (f_equal uv_paging Hv3).
  destruct (negb _); [|done]. rewrite get_eq; [exact Hi|].
  assert (Hc : use_count_of (vsub w3) = use_count_of (vsub w)) by exact (f_equal uv_counts Hv3).
  intros t. unfold vsub_use_count. rewrite Hc. apply (uses_nonneg _ (proj1 Hg)).
Qed.
Lemma msc_paging_flag pr w : good w ->
  is_paging (vsub (snd (msc_paging_request (sgs_iface_paging_cb env) pr w))) = is_paging (vsub w).
Proof.
  intros Hg. unfold msc_paging_request. destruct (attached_via_ran _); try done.
  assert (Hs : sgs_serv_ind_from_paging_cause (pr_cause pr) <> SGSAP_SERV_IND_PAGING_TIMEOUT)
    by by destruct (pr_cause pr).
  destruct (sgs_serv_ind_from_paging_cause _); [| | |done]; unfold sgs_iface_paging_cb;
    repeat (case_match; [done|]); by apply (sgs_pag_flag _ (emit _ w)).
Qed.

Lemma paging_start_bal c cb w :
  bal w (snd (paging_request_start (sgs_iface_paging_cb env) c cb w)).
Proof.
  apply bal_if_good. intros Hg.
  unfold paging_request_start. destruct (is_paging (vsub w)) eqn:Ei; [by apply bal_frame|].
  set (pr := mk_paging_request c cb).
  pose proof (msc_paging_bal pr w) as Hb. pose proof (msc_paging_flag pr w Hg) as Hf.
  destruct (msc_paging_request _ _ _) as [rc w1]. cbn [snd] in Hb, Hf. rewrite Ei in Hf.
  destruct (rc <=? 0); [exact Hb|]. transitivity w1; [exact Hb|]. cbn [snd].
  set (w2 := w1 <| vsub ::= fun v => v <| is_paging := true |> <| cs_paging_response_timer := true |> |>).
  assert (H : bal w1 (vlr_subscr_get VSUB_USE_PAGING w2)).
  { apply get_managed; [by right; right; left|done..|]. apply flag_good; [done..|].
    intros [G1 G2 G3 G4].
    split_and!; [by rewrite decide_True, G4, Hf|by rewrite decide_False, G2|
                 by rewrite decide_False, G3|by rewrite decide_True, G4, Hf]. }
  apply bal_if_good. intros Hg1. pose proof (uses_nonneg _ (proj1 Hg1)) as Hn.
  rewrite (get_eq _ w1) by exact Hn. rewrite get_eq in H by exact Hn.
  transitivity (adj VSUB_USE_PAGING 1 w2); [exact H|]. by apply bal_frame.
Qed.

(** *** Timer Ts5

    The timer is no longer pending when its callback runs, while the use that
    goes with it is only dropped at the end: the same as stopping the paging. *)

Definition ts5_off w : world DB := w <| vsub ::= fun v => v <| sgs_Ts5_pending := false |> |>.

Lemma put_eq tok tok' w : (forall t, 0 <= vsub_use_count t (vsub (adj tok (-1) w))) ->
  0 < vsub_use_count tok' (vsub (adj tok (-1) w)) -> vlr_subscr_put tok w = adj tok (-1) w.
Proof.
  intros Hn Hp. unfold vlr_subscr_put, vlr_subscr_use_cb. fold (adj tok (-1) w).
  set (w1 := adj tok (-1) w) in *. pose proof (total_pos (vsub w1) tok' Hn Hp) as Ht.
  rewrite (proj2 (Z.ltb_ge _ _) (Hn tok)). by rewrite (proj2 (Z.leb_gt _ _) Ht).
Qed.

Lemma conclude_loop_ts5 b l w :
  fold_left (paging_conclude_one b) l (ts5_off w) = ts5_off (fold_left (paging_conclude_one b) l w).
Proof.
  revert w. induction l as [|pr l IH]; intros w; [done|]. cbn [fold_left]. rewrite <- IH. f_equal.
  unfold paging_conclude_one. by destruct (pr_cb pr).
Qed.

Lemma paging_expired_ts5 w : good w -> held (vsub w) ->
  paging_expired (ts5_off w) = ts5_off (paging_expired w)
  /\ sgs_Ts5_pending (vsub (paging_expired w)) = sgs_Ts5_pending (vsub w).
Proof.
  intros Hg (tok & Hm & Hp). unfold paging_expired, paging_concludes.
  set (w1 := w <| vsub ::= _ |>).
  change (ts5_off w <| vsub ::= _ |>) with (ts5_off w1).
  change (cs_requests (vsub (ts5_off w1))) with (cs_requests (vsub w1)).
  rewrite conclude_loop_ts5. set (y := fold_left _ _ w1).
  assert (Hy : use_view y = use_view w1) by apply conclude_loop_view. clearbody y. cbv zeta.
  change (is_paging (vsub (emit _ (ts5_off y)))) with (is_paging (vsub y)).
  change (is_paging (vsub (emit _ y))) with (is_paging (vsub y)).
  destruct (is_paging (vsub y)) eqn:Ei; [|split; [done|exact (f_equal uv_Ts5 Hy)]].
  assert (Hc : use_count_of (vsub y) = use_count_of (vsub w)) by exact (f_equal uv_counts Hy).
  assert (Hi : is_paging (vsub w) = true) by exact (eq_trans (eq_sym (f_equal uv_paging Hy)) Ei).
  set (z := emit _ y <| vsub ::= _ |>).
  assert (Hz : forall t, vsub_use_count t (vsub z) = vsub_use_count t (vsub w))
    by (intros t; unfold vsub_use_count; by rewrite <- Hc).
  change (emit _ (ts5_off y) <| vsub ::= _ |>) with (ts5_off z).
  assert (Hn : forall t, 0 <= vsub_use_count t (vsub (adj VSUB_USE_PAGING (-1) z))).
  { intros t. rewrite count_adj, Hz. pose proof (uses_nonneg _ (proj1 Hg) t).
    destruct (decide _) as [<-|]; [|done]. by rewrite (uses_paging _ (proj1 Hg)), Hi. }
  assert (Hp' : 0 < vsub_use_count tok (vsub (adj VSUB_USE_PAGING (-1) z))).
  { rewrite count_adj, Hz, decide_False; [done|]. intros <-. apply Hm. by right; right; left. }
  rewrite (put_eq _ tok z) by done. rewrite (put_eq _ tok (ts5_off z)) by done.
  split; [done|exact (f_equal uv_Ts5 Hy)].
Qed.

Definition TS5_USE : string := "Ts5_timeout_cb".

Lemma ts5_eq w : good w -> sgs_Ts5_pending (vsub w) = true ->
  Ts5_timeout_cb env w
  = hold TS5_USE
      (fun w => vlr_sgs_pag_stop (if is_paging (vsub w) && sgs_cbs (vsub w)
                 then sgs_paging_cb env SGSAP_SERV_IND_PAGING_TIMEOUT w else w)) w.
Proof.
  intros Hg Ht. unfold Ts5_timeout_cb, hold. fold (ts5_off w).
  pose proof (uses_nonneg _ (proj1 Hg)) as Hn. fold TS5_USE.
  rewrite (get_eq _ w) by exact Hn. rewrite (get_eq _ (ts5_off w)) by exact Hn.
  change (adj TS5_USE 1 (ts5_off w)) with (ts5_off (adj TS5_USE 1 w)).
  assert (Hx : good (adj TS5_USE 1 w)).
  { apply adj_good; [done..|]. specialize (Hn TS5_USE). lia. }
  assert (Hh : held (vsub (adj TS5_USE 1 w))).
  { exists TS5_USE. split; [by intros [?|[?|[?|?]]]|]. rewrite count_adj, decide_True by done.
    specialize (Hn TS5_USE). lia. }
  assert (Hxt : sgs_Ts5_pending (vsub (adj TS5_USE 1 w)) = true) by exact Ht.
  set (x := adj TS5_USE 1 w) in *. clearbody x. cbv zeta. f_equal.
  change (is_paging (vsub (ts5_off x)) && sgs_cbs (vsub (ts5_off x)))
    with (is_paging (vsub x) && sgs_cbs (vsub x)).
  assert (Hs : forall y, sgs_Ts5_pending (vsub y) = true ->
    sgs_pag_inflight_dec (vlr_subscr_put VSUB_USE_SGS_PAGING_REQ (ts5_off y)) = vlr_sgs_pag_stop y)
    by (intros y Hy; unfold vlr_sgs_pag_stop; by rewrite Hy).
  destruct (is_paging (vsub x) && sgs_cbs (vsub x)); [|by apply Hs].
  destruct (eb_timeout env HE) as [He|He]; rewrite !He.
  - destruct (paging_expired_ts5 x Hx Hh) as [Hp1 Hp2]. rewrite Hp1. apply Hs. by rewrite Hp2.
  - by rewrite <- Hs.
Qed.

Lemma ts5_bal w : sgs_Ts5_pending (vsub w) = true -> bal w (Ts5_timeout_cb env w).
Proof.
  intros Ht. apply bal_if_good. intros Hg. rewrite ts5_eq by done. bal_walk.
Qed.

(** *** Operations on a record that is looked up *)

(** what holds for the subscriber of the connection when the operation may
    have been on another one *)
Definition keeps w w' : Prop :=
  good w ->
  good w' /\ vs_ptr (vsub w') = vs_ptr (vsub w)
  /\ (forall tok, ~ managed tok -> vsub_use_count tok (vsub w') = vsub_use_count tok (vsub w))
  /\ (held (vsub w) -> freed (vs_ptr (vsub w)) w' -> freed (vs_ptr (vsub w)) w).

#[export] Instance keeps_preorder : PreOrder keeps.
Proof.
  split; [intros w; done|]. intros w1 w2 w3 H12 H23 H1. destruct (H12 H1) as (H2 & P2 & C2 & F2).
  destruct (H23 H2) as (H3 & P3 & C3 & F3). split_and!; [done|congruence| |].
  - intros tok Ht. by rewrite C3, C2.
  - intros Hh Hf. apply F2; [done|]. rewrite P2 in F3. apply F3; [|done]. by apply (held_counts (vsub w1)).
Qed.

Lemma bal_keeps w w' : bal w w' -> keeps w w'.
Proof.
  intros H Hg. destruct (H Hg) as (H2 & P2 & C2 & F2). split_and!; [done..|].
  intros Hh [Hf|[_ Hn]]%F2; done.
Qed.

Lemma on_subscr_keeps v f w : uses_ok v -> (forall x, bal x (f x)) -> keeps w (on_subscr v f w).
Proof.
  intros Hv Hf. unfold on_subscr. destruct (Z.eqb_spec (vs_ptr v) (vs_ptr (vsub w))) as [|Hne];
    [by apply bal_keeps|].
  intros (G1 & G2 & G3). set (x := w <| vsub := v |>).
  assert (Hx : good x) by by split_and!. destruct (Hf x Hx) as ((S1 & S2 & S3) & P2 & C2 & F2).
  split_and!; [split_and!; [done| |done]|done|done|].
  - by apply commit_uses.
  - intros Hh [H|[H _]]%F2; [done|]. exfalso. by apply Hne.
Qed.

Lemma bal_entries : entries env bal keeps uses_ok.
Proof.
  split.
  - apply keeps_preorder.
  - intros e d w He. apply (eb_lu env HE). by destruct e, d.
  - intros e d w He. apply (eb_arq env HE). by destruct e, d.
  - intros w. apply lu_term_bal.
  - apply lu_cancel_bal.
  - apply arq_cancel_bal.
  - intros w _. apply lu_timeout_bal.
  - intros w _. apply arq_timeout_bal.
  - intros w _. apply compl_timeout_bal.
  - intros w _. apply upd_timeout_bal.
  - apply paging_start_bal.
  - apply bal_keeps.
  - apply on_subscr_keeps.
  - intros w w' H Hg. apply H; [|done]. apply Hg.
  - intros w i v. apply find_imsi_uses.
  - intros w i v d w' E H Hg. apply create_imsi_uses in E as [Hv Hd]; [|apply Hg].
    assert (Hk : keeps w (w <| db := d |>)) by (intros (G1 & G2 & G3); by split_and!).
    revert Hg. change (keeps w w'). transitivity (w <| db := d |>); [done|]. by apply H.
Qed.
(** *** Start of a procedure *)

Lemma loc_update_good q w : good w -> good (snd (vlr_loc_update env q w)).
Proof.
  intros Hg. unfold vlr_loc_update, _vlr_loc_update.
  set (w1 := if _ && _ then _ else w).
  assert (Hg1 : good w1) by (unfold w1; destruct (_ && _); [by apply (bal_frame w)|done]). clearbody w1.
  destruct (osmo_fsm_inst_alloc_child _ _) as [fi|] eqn:E; [|done].
  apply alloc_child_init in E as ->. cbn [snd]. apply (eb_lu_good env HE).
  match goal with |- good ?x => assert (Hb : bal w1 x); [|by apply Hb] end.
  apply bal_pes; [done..|]. unfold parent_pes. cbn. repeat rewrite Forall_cons. intuition done.
Qed.
Lemma acc_req_good q w : good w -> good (vlr_proc_acc_req env q w).
Proof.
  intros Hg. unfold vlr_proc_acc_req.
  set (w1 := if _ && _ then _ else w).
  assert (Hg1 : good w1) by (unfold w1; destruct (_ && _); [by apply (bal_frame w)|done]). clearbody w1.
  destruct (osmo_fsm_inst_alloc_child _ _) as [fi|] eqn:E; [|done].
  apply alloc_child_init in E as ->. cbv zeta. set (w2 := w1 <| w_arq := _ |> <| par := _ |>).
  assert (Hb : bal w1 w2).
  { apply bal_pes; [done..|]. unfold parent_pes. cbn. repeat rewrite Forall_cons. intuition done. }
  assert (Hg2 : good w2) by by apply Hb. clearbody w2.
  destruct (aq_mi q); try (by apply arq_done_bal); apply (eb_arq_good env HE); by apply (bal_frame w2).
Qed.

(** *** Any input *)

Context {BD : BcdDecoder}.
Lemma handle_keeps i w : associates i = false -> keeps w (vlr_handle env i w).
Proof. apply (handle_top env bal pe_ok bal_steps keeps uses_ok bal_entries ts5_bal). Qed.
Lemma handle_good i w : good w -> good (vlr_handle env i w).
Proof.
  destruct (associates i) eqn:E.
  - destruct i; try done; [apply loc_update_good|apply acc_req_good].
  - intros Hg. by apply handle_keeps.
Qed.
End parents.

(** ** The system *)

Section system.
Context {L : FsmLib} {LL : FsmLaws L} {DB : Type} {VDB : VlrDb DB} {VU : VlrDbUses DB}
        {R : VlrRc} {BC : BcdCodec} {BD : BcdDecoder} {SS : SgsState}.
Implicit Type w : world DB.

Lemma fuel_bal w : bal w (w <| out_of_fuel := true |>).
Proof. by apply bal_frame. Qed.

Lemma logged_bal (f : world DB -> world DB) o w : is_free o = false ->
  (forall x, bal x (f x)) -> bal w (f (emit o w)).
Proof.
  intros Ho Hf. transitivity (emit o w); [|apply Hf]. apply bal_frame. unfold use_view. cbn. by rewrite Ho.
Qed.

Lemma system_bal n : env_bal (vlr_system n).
Proof.
  induction n as [|n IH].
  - split; intros; cbn; try apply fuel_bal; try (by right; intros); try done; by apply fuel_bal.
  - split; intros; cbn.
    + apply (logged_bal (lu_fsm_dispatch _ e d)); [done|]. intros x. by apply lu_dispatch_bal.
    + apply (logged_bal (arq_fsm_dispatch _ e d)); [done|]. intros x. by apply arq_dispatch_bal.
    + apply lu_dispatch_good; [done|]. by apply (bal_frame w).
    + apply arq_dispatch_good; [done|]. by apply (bal_frame w).
    + apply (logged_bal (lu_compl_fsm_dispatch _ e d)); [done|]. intros x. by apply compl_dispatch_bal.
    + by apply upd_dispatch_bal.
    + by apply (pres_dispatch_rel _ bal pe_ok (bal_steps _ IH)).
    + by apply (auth_dispatch_rel _ bal pe_ok (bal_steps _ IH)).
    + by apply (sgs_dispatch_rel _ bal pe_ok (bal_steps _ IH)).
    + by apply (tx_resp_rel _ bal pe_ok (bal_steps _ IH)).
    + by apply (paging_cb_rel _ bal pe_ok (bal_steps _ IH)).
    + by apply (tx_mm_info_rel _ bal pe_ok (bal_steps _ IH)).
    + apply sgs_tx_paging_view.
    + by left.
Qed.

(** the invariant along a sequence of inputs *)
Lemma run_good n l w : good w -> good (vlr_run n l w).
Proof.
  revert w. induction l as [|i l IH]; intros w Hg; [done|]. apply IH.
  by apply (handle_good (vlr_system n) (system_bal n)).
Qed.
Lemma run_keeps n l w : Forall (fun i => associates i = false) l -> keeps w (vlr_run n l w).
Proof.
  intros Hl. revert w. induction Hl as [|i l Hi Hl IH]; intros w; [reflexivity|].
  etransitivity; [|apply IH]. by apply handle_keeps; [apply system_bal|].
Qed.
End system.
