(* ===== verification/VlrSampleRun.v ===== *)
(** * A concrete VLR

    The parameters of the model instantiated: the reference FSM library, calls
    that succeed, a BCD coder, an MME, and a database with two records.  The
    theorems about the whole VLR are instantiated here, and runs evaluated. *)

From S2P Require Import Prelude OsmoFsm Gsm VlrTypes VlrSubscr VlrSample VlrUse VlrLuSub VlrLu.
From S2P Require Import VlrArq VlrSgs Paging SgsIface VlrSystem VlrDb VlrDbProofs.

(** digits as octets *)
Definition sample_bcd : BcdCodec := fun s =>
  match s with
  | EmptyString => None
  | _ => Some (map (fun c => Z.of_N (Ascii.N_of_ascii c)) (String.list_ascii_of_string s))
  end.
Definition sample_bcd_decoder : BcdDecoder := fun n l =>
  strlcpy n (String.string_of_list_ascii (map (fun z => Ascii.ascii_of_N (Z.to_N z)) l)).

(** one MME, connected *)
Definition sample_sgs : SgsState := {|
  mme_by_fqdn := fun n => if String.eqb n "mme.example" then Some true else None;
  send_mm_info := true
|}.

#[export] Existing Instances ref_lib ref_laws sample_rc sample_bcd sample_bcd_decoder sample_sgs
  msc_dblib.

(** the world of a connection of the subscriber [sample_v0], which the
    connection holds *)
Definition MSC_USE : string := "msc_a".
Definition sample_vlr : world vlr_db :=
  sample_world sample_db <| vsub := vsub_use_add MSC_USE 1 sample_v0 |>.
