(* ===== verification/VlrUseDb.v ===== *)
(** * Use counts in the database, and for any history

    The records of the database keep their uses in order when they are merged
    or stored, so that the invariant holds for any sequence of inputs. *)

From S2P Require Import Prelude OsmoFsm WorldRel Gsm VlrTypes VlrSubscr VlrSample VlrUse.
From S2P Require Import VlrAuthTuples VlrAuthFsm VlrLuSub VlrLu VlrArq VlrSgs Paging SgsIface.
From S2P Require Import VlrSystem VlrDb VlrDbProofs VlrUseProofs VlrSteps VlrBalance VlrSampleRun.

(** ** One record *)

(** the record after a use was added or dropped and a flag was written *)
Lemma record_uses tok n v v' : uses_ok v -> use_count_of v' = use_count_of (vsub_use_add tok n v) ->
  let c t := if decide (tok = t) then vsub_use_count t v + n else vsub_use_count t v in
  0 <= c tok -> c VSUB_USE_ATTACHED = b2z (lu_complete v') ->
  c VSUB_USE_SGS_PAGING_REQ = b2z (sgs_Ts5_pending v') -> c VSUB_USE_PAGING = b2z (is_paging v') ->
  uses_ok v'.
Proof.
  intros Hv Ec c H0 H1 H2 H3.
  assert (Hc : forall t, vsub_use_count t v' = c t).
  { intros t. transitivity (vsub_use_count t (vsub_use_add tok n v)).
    - unfold vsub_use_count. by rewrite Ec.
    - unfold c. destruct (decide (tok = t)) as [<-|]; [apply count_add_eq|by apply count_add_ne]. }
  split; [intros t|..]; rewrite Hc; try done. unfold c in *.
  destruct (decide (tok = t)) as [<-|]; [by rewrite decide_True in H0|apply (uses_nonneg _ Hv)].
Qed.

Section db_uses.
Context {DL : DbLib}.
Implicit Type d : vlr_db.

Definition all_ok d : Prop := Forall uses_ok (subscribers d).

Lemma replace_ok v l : uses_ok v -> Forall uses_ok l ->
  Forall uses_ok (map (fun x => if at_ptr (vs_ptr v) x then v else x) l).
Proof.
  intros Hv Hl. induction Hl as [|x l Hx Hl IH]; cbn; constructor; [by destruct (at_ptr _ x)|done].
Qed.
Lemma commit_ok v d : uses_ok v -> all_ok d -> all_ok (commit v d).
Proof. intros Hv Hd. by apply (replace_ok v (subscribers d)).
Qed.

Lemma find_chain_ok d c f v : all_ok d -> find_in_chain d c f = Some v -> uses_ok v.
Proof.
  intros Hd. induction c as [|p c IH]; cbn; [done|].
  destruct (db_lookup d p) as [u|] eqn:E; [|done]. destruct (f u); [|done]. intros [= <-].
  unfold db_lookup in E. apply List.find_some in E as [E _]. unfold all_ok in Hd.
  rewrite Forall_forall in Hd. apply Hd. by apply list_elem_of_In.
Qed.

Lemma find_imsi_ok d i v : all_ok d -> _vlr_subscr_find_by_imsi d i = Some v -> uses_ok v.
Proof. unfold _vlr_subscr_find_by_imsi. destruct (str_empty i); [done|]. apply find_chain_ok. Qed.

Lemma find_tmsi_ok d t v : all_ok d -> _vlr_subscr_find_by_tmsi d t = Some v -> uses_ok v.
Proof.
  intros Hd. unfold _vlr_subscr_find_by_tmsi. destruct (t =? _); [done|].
  destruct (find_in_chain d _ _) as [u|] eqn:E; [|by apply find_chain_ok].
  intros [= <-]. by apply (find_chain_ok d _ _ _ Hd E).
Qed.

Lemma alloc_ok d : all_ok d -> uses_ok (fst (_vlr_subscr_alloc d)) /\ all_ok (snd (_vlr_subscr_alloc d)).
Proof.
  intros Hd. assert (Hv : uses_ok (fst (_vlr_subscr_alloc d))) by by split.
  split; [done|]. unfold all_ok. cbn. apply Forall_app. split; [exact Hd|]. by constructor.
Qed.

Lemma alloc_tmsi_loop_ok n v d : uses_ok v -> all_ok d ->
  let '(_, v', d') := alloc_tmsi_loop n v d in same_uses v v' /\ all_ok d'.
Proof.
  intros Hv. revert d. induction n as [|n IH]; intros d Hd; cbn [alloc_tmsi_loop]; [done|].
  destruct (rand_id _) as [rc raw]. destruct (rc <? 0); [done|].
  destruct (draw_tmsi _ _) as [t|]; [|by apply IH]. split; [done|].
  apply (commit_ok (v <| tmsi_new := t |>) (d <| rand_pos ::= S |>)); [|done]. by apply (uses_same v).
Qed.

(** ** Merging *)

Lemma unlink_ok v d : all_ok d -> all_ok (unlink v d).
Proof.
  unfold all_ok. cbn. rewrite !Forall_forall. intros H x [_ Hx]%list_elem_of_filter. by apply H.
Qed.

Lemma put_record_ok tok v d : uses_ok (vsub_use_add tok (-1) v) -> all_ok d ->
  fst (put_record tok v d) = vsub_use_add tok (-1) v /\ all_ok (snd (put_record tok v d)).
Proof.
  intros Hv Hd. unfold put_record. cbv zeta. destruct (_ <? 0); [by split; [|apply commit_ok]|].
  destruct (_ <=? 0); [|by split; [|apply commit_ok]]. split; [done|].
  by apply (unlink_ok (vsub_use_add tok (-1) v)).
Qed.

Lemma dedup_add_ok n v : uses_ok v -> 0 <= vsub_use_count VSUB_USE_DEDUP v + n ->
  uses_ok (vsub_use_add VSUB_USE_DEDUP n v).
Proof.
  intros Hv Hn. apply (record_uses VSUB_USE_DEDUP n v); [done|done|by rewrite decide_True|..];
    rewrite decide_False by done; apply Hv.
Qed.

Lemma join_ok keep discard d : uses_ok keep -> uses_ok discard -> all_ok d ->
  let '(keep', discard', d') := paging_request_join_vsub keep discard d in
  uses_ok keep' /\ vs_ptr keep' = vs_ptr keep
  /\ (forall tok, ~ managed tok -> vsub_use_count tok keep' = vsub_use_count tok keep)
  /\ uses_ok discard' /\ all_ok d'.
Proof.
  intros Hk Hd Ha. unfold paging_request_join_vsub.
  destruct (is_paging discard) eqn:Ei; [|done]. cbn [negb].
  set (k1 := keep <| cs_requests ::= _ |>). assert (Hk1 : uses_ok k1) by by apply (uses_same keep).
  set (k2 := if _ && _ then _ else k1).
  assert (Hk2 : uses_ok k2 /\ vs_ptr k2 = vs_ptr k1
    /\ (forall tok, ~ managed tok -> vsub_use_count tok k2 = vsub_use_count tok k1)).
  { unfold k2. destruct (is_paging k1) eqn:Ek; [done|]. destruct (Nat.eqb _ _); [done|]. cbn [negb andb].
    split_and!; [|done|].
    - apply (record_uses VSUB_USE_PAGING 1 k1); [done|done|by rewrite decide_True, (uses_paging _ Hk1), Ek|..].
      + rewrite decide_False by done. apply Hk1.
      + rewrite decide_False by done. apply Hk1.
      + by rewrite decide_True, (uses_paging _ Hk1), Ek.
    - intros tok Ht. apply (count_add_ne VSUB_USE_PAGING tok 1 k1). intros <-. apply Ht.
      by right; right; left. }
  destruct Hk2 as (Hk2 & Hp2 & Hc2).
  set (e1 := discard <| cs_requests := [] |> <| is_paging := false |> <| cs_paging_response_timer := false |>).
  assert (He : uses_ok (vsub_use_add VSUB_USE_PAGING (-1) e1)).
  { apply (record_uses VSUB_USE_PAGING (-1) discard); [done|done|..].
    - by rewrite decide_True, (uses_paging _ Hd), Ei.
    - rewrite decide_False by done. apply Hd.
    - rewrite decide_False by done. apply Hd.
    - by rewrite decide_True, (uses_paging _ Hd), Ei. }
  destruct (put_record_ok _ _ d He Ha) as [Hf Hs]. cbv zeta. fold k1. fold k2. fold e1.
  destruct (put_record _ e1 d) as [e2 d2]. cbn [fst snd] in *. subst e2. by split_and!.
Qed.

Lemma dedup_release_ok e d : uses_ok e -> 0 < vsub_use_count VSUB_USE_DEDUP e -> all_ok d ->
  all_ok (dedup_release e d).
Proof.
  intros He Hc Hd. unfold dedup_release. destruct (lu_complete e) eqn:El.
  - assert (Ha : uses_ok (vsub_use_add VSUB_USE_ATTACHED (-1) (e <| lu_complete := false |>))).
    { apply (record_uses VSUB_USE_ATTACHED (-1) e); [done|done|..].
      - by rewrite decide_True, (uses_attached _ He), El.
      - by rewrite decide_True, (uses_attached _ He), El.
      - rewrite decide_False by done. apply He.
      - rewrite decide_False by done. apply He. }
    destruct (put_record_ok _ _ d Ha Hd) as [Hf Hs]. destruct (put_record _ _ d) as [e2 d2].
    cbn [fst snd] in *. subst e2. apply put_record_ok; [|done]. apply dedup_add_ok; [done|].
    rewrite count_add_ne by done. change (0 <= vsub_use_count VSUB_USE_DEDUP e + -1). lia.
  - apply put_record_ok; [|done]. apply dedup_add_ok; [done|]. lia.
Qed.

Lemma dedup_ok e v d : uses_ok e -> uses_ok v -> all_ok d ->
  let '(v', d') := dedup_vsub e v d in
  uses_ok v' /\ vs_ptr v' = vs_ptr v
  /\ (forall tok, ~ managed tok -> vsub_use_count tok v' = vsub_use_count tok v) /\ all_ok d'.
Proof.
  intros He Hv Hd. unfold dedup_vsub. pose proof (join_ok v e d Hv He Hd) as Hj.
  destruct (paging_request_join_vsub v e d) as [[v1 e1] d1]. destruct Hj as (J1 & J2 & J3 & J4 & J5).
  set (v2 := if str_empty (msisdn v1) then _ else v1).
  assert (H2 : same_uses v1 v2) by (unfold v2; by destruct (str_empty _)).
  cbv zeta. clearbody v2.
  set (v3 := if str_empty (name v2) then _ else v2).
  assert (H3 : same_uses v2 v3) by (unfold v3; by destruct (str_empty _)).
  set (v4 := v3 <| auth_tuples ::= _ |>). clearbody v3.
  assert (Hn : 0 <= vsub_use_count VSUB_USE_DEDUP e1) by apply J4.
  assert (H4 : uses_ok (vsub_use_add VSUB_USE_DEDUP 1 e1)) by (apply dedup_add_ok; [done|lia]).
  set (e2 := vsub_use_add VSUB_USE_DEDUP 1 e1) in *.
  assert (Hc : 0 < vsub_use_count VSUB_USE_DEDUP e2) by (unfold e2; rewrite count_add_eq; lia).
  clearbody e2. split_and!.
  - apply (uses_same v3 v4); [done|]. apply (uses_same v2 v3); [done|]. by apply (uses_same v1 v2).
  - change (vs_ptr v3 = vs_ptr v). rewrite (proj1 H3), (proj1 H2). done.
  - intros tok Ht. change (vsub_use_count tok v3 = vsub_use_count tok v).
    rewrite (count_same tok _ _ H3), (count_same tok _ _ H2). by apply J3.
  - apply dedup_release_ok; [by apply (uses_same e2)|done|].
    set (e3 := e2 <| msc_conn_ref := None |> <| imsi := "" |> <| msisdn := "" |>
                  <| tmsi := GSM_RESERVED_TMSI |> <| tmsi_new := GSM_RESERVED_TMSI |>).
    assert (H5 : uses_ok e3) by by apply (uses_same e2).
    apply (commit_ok e3); [done|]. by apply (commit_ok e3).
Qed.

Lemma set_imsi_ok v i d : uses_ok v -> all_ok d ->
  let '(v', d') := vlr_subscr_set_imsi v i d in
  uses_ok v' /\ vs_ptr v' = vs_ptr v
  /\ (forall tok, ~ managed tok -> vsub_use_count tok v' = vsub_use_count tok v) /\ all_ok d'.
Proof.
  intros Hv Hd. unfold vlr_subscr_set_imsi. pose proof (commit_ok v d Hv Hd) as Hc.
  set (d1 := commit v d) in *. cbv zeta. destruct (String.eqb _ _); [done|].
  assert (Hs : forall v' d', uses_ok v' -> all_ok d' ->
    let v2 := v' <| imsi := strlcpy (GSM23003_IMSI_MAX_DIGITS + 1) i |> in
    uses_ok v2 /\ all_ok (vlr_subscr_rehash_imsi v2 d')).
  { intros v' d' Hv' Hd' v2. assert (H2 : uses_ok v2) by by apply (uses_same v').
    split; [done|]. by apply (commit_ok v2 d'). }
  destruct (_vlr_subscr_find_by_imsi d1 i) as [e|] eqn:E.
  - apply find_imsi_ok in E; [|done]. pose proof (dedup_ok e v d1 E Hv Hc) as H.
    destruct (dedup_vsub e v d1) as [v2 d2]. destruct H as (H1 & H2 & H3 & H4).
    destruct (Hs v2 d2 H1 H4). by split_and!.
  - destruct (Hs v d1 Hv Hc). by split_and!.
Qed.

#[export] Instance vlr_db_uses : VlrDbUses vlr_db.
Proof.
  split; cbn [db_subscribers db_commit db_rehash_tmsi db_unlink db_find_by_imsi db_find_by_tmsi
              db_find_or_create_by_imsi db_find_or_create_by_tmsi db_alloc_tmsi db_set_imsi vlr_db_ops].
  - intros v d. apply commit_ok.
  - intros v d. apply commit_ok.
  - intros v d. apply unlink_ok.
  - intros d i v. apply find_imsi_ok.
  - intros d t v. apply find_tmsi_ok.
  - intros d i v d' Hd. unfold _vlr_subscr_find_or_create_by_imsi.
    destruct (_vlr_subscr_find_by_imsi d i) as [u|] eqn:E.
    + intros [= <- <-]. by split; [apply (find_imsi_ok d i)|].
    + destruct (alloc_ok d Hd) as [H1 H2]. destruct (_vlr_subscr_alloc d) as [v0 d0].
      pose proof (set_imsi_ok v0 i d0 H1 H2) as H. destruct (vlr_subscr_set_imsi _ _ _).
      intros [= <- <-]. split; apply H.
  - intros d t v d' Hd. unfold _vlr_subscr_find_or_create_by_tmsi.
    destruct (_vlr_subscr_find_by_tmsi d t) as [u|] eqn:E.
    + intros [= <- <-]. by split; [apply (find_tmsi_ok d t)|].
    + destruct (alloc_ok d Hd) as [H1 H2]. destruct (_vlr_subscr_alloc d) as [v0 d0]. cbn [fst snd] in *.
      intros [= <- <-]. assert (H3 : uses_ok (v0 <| tmsi := t |>)) by by apply (uses_same v0).
      split; [done|]. by apply (commit_ok (v0 <| tmsi := t |>)).
  - intros v d Hv Hd. apply alloc_tmsi_loop_ok; [done|]. by apply commit_ok.
  - intros v i d. apply set_imsi_ok.
Qed.
End db_uses.

(** ** Any history *)

Section claims.
Context {L : FsmLib} {LL : FsmLaws L} {DL : DbLib} {R : VlrRc} {BC : BcdCodec} {BD : BcdDecoder}
        {SS : SgsState}.
Implicit Type w : world vlr_db.

(** C7: The lasting uses of a record follow its flags through any sequence of
    inputs, for any depth of nested dispatches: a record is used as "attached"
    once when a Location Updating has completed and not at all otherwise, as
    "Paging" once while it is being paged, as "SGs-paging-req" once while
    timer Ts5 runs, and no use count is ever negative.  This holds for the
    subscriber of the connection and for every record of the VLR. *)
Theorem uses_follow_flags n l w v : good w ->
  let w' := vlr_run n l w in v = vsub w' \/ v ∈ subscribers (db w') ->
  (forall tok, 0 <= vsub_use_count tok v)
  /\ vsub_use_count VSUB_USE_ATTACHED v = (if lu_complete v then 1 else 0)
  /\ vsub_use_count VSUB_USE_PAGING v = (if is_paging v then 1 else 0)
  /\ vsub_use_count VSUB_USE_SGS_PAGING_REQ v = (if sgs_Ts5_pending v then 1 else 0).
Proof.
  intros Hg w' Hv. destruct (run_good n l w Hg) as (H1 & H2 & _). fold w' in H1, H2.
  assert (Hu : uses_ok v). { destruct Hv as [->|Hv]; [done|]. rewrite Forall_forall in H2. by apply H2. }
  destruct Hu. by split_and!.
Qed.

End claims.

(** ** The theorems on a concrete VLR *)

Lemma sample_vlr_good : good sample_vlr.
Proof.
  assert (H0 : uses_ok sample_v0) by by split. assert (H1 : uses_ok sample_v) by by split.
  split_and!; [|repeat apply Forall_cons_2; try done; apply Forall_nil_2|by repeat constructor].
  apply (record_uses MSC_USE 1 sample_v0); done.
Qed.

(** the subscriber attaches with the HLR's consent, is paged and detaches *)
Definition sample_inputs : list vlr_input :=
  [InSgsLocUpdate (mk_sgs_cfg 10 10) "mme.example" sample_imsi (mk_lai (262, 42) 7) None;
   InGsup (empty_gsup OSMO_GSUP_MSGT_UPDATE_LOCATION_RESULT <| g_imsi := sample_imsi |>);
   InPagingStart PAGING_CAUSE_CALL_CONVERSATIONAL (Some 1); InTs5Timer;
   InSgsImsiDetach sample_imsi SGSAP_ID_NONEPS_T_EXPLICIT_UE_NONEPS; InExpireLu].

Lemma uses_follow_flags_witness :
  vsub_use_count VSUB_USE_PAGING (vsub (vlr_run 9 sample_inputs sample_vlr))
  = (if is_paging (vsub (vlr_run 9 sample_inputs sample_vlr)) then 1 else 0).
Proof.
  exact (proj1 (proj2 (proj2 (uses_follow_flags 9 sample_inputs sample_vlr
    (vsub (vlr_run 9 sample_inputs sample_vlr)) sample_vlr_good (or_introl eq_refl))))).
Defined.


(** the run is not cut short, and the record is attached and paged on the way *)
Lemma sample_run_effects :
  let w := vlr_run 9 (take 3 sample_inputs) sample_vlr in
  out_of_fuel w = false /\ lu_complete (vsub w) = true /\ is_paging (vsub w) = true
  /\ sgs_Ts5_pending (vsub w) = true.
Proof. vm_compute. done. Qed.
