(* ===== verification/VlrLuInv.v ===== *)
(** * What a running Location Updating has established

    The invariant behind the security of Update_Location_Area_VLR: which
    events must have been received before the procedure may be in a state,
    accept the request, or report success. *)

From S2P Require Import Prelude OsmoFsm WorldRel Gsm VlrTypes VlrSubscr VlrUse VlrAuthTuples.
From S2P Require Import VlrAuthFsm VlrLuSub VlrLu VlrArq VlrSgs Paging SgsIface VlrSystem.
From S2P Require Import VlrUseProofs VlrSteps.

(** ** The events that justify an acceptance

    [l] is the log of the outputs and dispatched events, newest first. *)

Definition lu_authenticated (p : lu_fsm_priv) (l : list vlr_out) : Prop :=
  lfp_authentication_required p = true ->
  exists d, FsmEvent (PeLu VLR_ULA_E_AUTH_SUCCESS) d ∈ l.
Definition lu_ciphered (p : lu_fsm_priv) (l : list vlr_out) : Prop :=
  lfp_is_ciphering_required p = true ->
  FsmEvent (PeLu VLR_ULA_E_CIPH_RES) (DCiph VLR_CIPH_COMPL) ∈ l.
Definition lu_hlr_agreed (l : list vlr_out) : Prop :=
  FsmEvent (PeLu VLR_ULA_E_HLR_LU_RES) DNull ∈ l.
Definition lu_justified (p : lu_fsm_priv) (l : list vlr_out) : Prop :=
  lu_authenticated p l /\ lu_ciphered p l /\ lu_hlr_agreed l.

(** a Location Updating Accept, or the report of success *)
Definition lu_accepts (p : lu_fsm_priv) (o : vlr_out) : Prop :=
  match o with
  | TxLuAcc _ _ => True
  | ToMsc e => e = lfp_event_success p
  | _ => False
  end.

Definition is_to_msc (o : vlr_out) : bool := match o with ToMsc _ => true | _ => false end.
Definition reports (l : list vlr_out) : nat := length (List.filter is_to_msc l).

(** what the procedure must have established in a state *)
Definition lu_state_req (s : lu_state) (p : lu_fsm_priv) (l : list vlr_out) : Prop :=
  match s with
  | VLR_ULA_S_WAIT_CIPH => lu_authenticated p l
  | VLR_ULA_S_WAIT_HLR_UPD => lu_authenticated p l /\ lu_ciphered p l
  | VLR_ULA_S_WAIT_LU_COMPL | VLR_ULA_S_WAIT_LU_COMPL_STANDALONE => lu_justified p l
  | _ => True
  end.

(** events that a sub-procedure may report at any time *)
Definition lu_safe (pe : vlr_pe) : Prop :=
  match pe with
  | PeMsc _ | PeLu VLR_ULA_E_UPD_HLR_COMPL | PeLu VLR_ULA_E_HLR_LU_RES => False
  | _ => True
  end.
(** the event of Update_HLR_VLR *)
Definition lu_upd_safe (pe : vlr_pe) : Prop :=
  match pe with
  | PeMsc _ | PeLu VLR_ULA_E_HLR_LU_RES => False
  | _ => True
  end.

(** ** The invariant *)

(** the part of the world it looks at *)
#[projections(primitive)]
Record lu_view : Type := mk_lu_view {
  v_lu : fsm_inst lu_state vlr_pe; v_lfp : lu_fsm_priv;
  v_compl : fsm_inst lu_compl_state vlr_pe; v_lcvp : lu_compl_vlr_priv;
  v_arq : fsm_inst arq_state vlr_pe;
  v_auth : fsm_inst auth_state vlr_pe; v_afp : auth_fsm_priv;
  v_pres : fsm_inst sub_pres_state vlr_pe; v_upd : fsm_inst upd_hlr_state vlr_pe;
  v_out : list vlr_out
}.

Definition lu_view_of {DB : Type} (w : world DB) : lu_view :=
  mk_lu_view (w_lu w) (lfp w) (w_compl w) (lcvp w) (w_arq w) (w_auth w) (afp w) (w_pres w)
    (w_upd w) (out w).

Definition view_pes (v : lu_view) : list vlr_pe :=
  auth_pes_of (v_auth v) (v_afp v)
  ++ [fi_parent_term_event (v_pres v); fi_parent_term_event (v_compl v);
      lcvp_event_success (v_lcvp v); lcvp_event_failure (v_lcvp v)].

Definition out_justified (p : lu_fsm_priv) (l : list vlr_out) : Prop :=
  forall l1 o l2, l = l1 ++ o :: l2 -> lu_accepts p o -> lu_justified p l2.

Record lu_inv (v : lu_view) : Prop := mk_lu_inv {
  li_state : lu_state_req (fi_state (v_lu v)) (v_lfp v) (v_out v);
  li_result : lfp_result (v_lfp v) = VLR_FSM_RESULT_SUCCESS -> lu_justified (v_lfp v) (v_out v);
  li_compl : fi_terminating (v_compl v) = false -> lu_justified (v_lfp v) (v_out v);
  li_out : out_justified (v_lfp v) (v_out v);
  li_safe : Forall lu_safe (view_pes v);
  li_upd : lu_upd_safe (fi_parent_term_event (v_upd v));
  li_report : exists e, fi_parent_term_event (v_lu v) = PeMsc e
    /\ (e = lfp_event_success (v_lfp v) -> lu_justified (v_lfp v) (v_out v));
  li_parent : fi_parent (v_lu v) = true;
  li_arq : fi_terminating (v_arq v) = true;
  li_ciph : lfp_is_ciphering_required (v_lfp v) = true ->
    lfp_is_ciphering_to_be_attempted (v_lfp v) = true;
  li_events : lfp_event_failure (v_lfp v) <> lfp_event_success (v_lfp v);
  li_once : reports (v_out v) = if fi_terminating (v_lu v) then 1%nat else 0%nat
}.

(** ** Growing logs *)

(** the parameters of the request do not change *)
Definition same_request (p q : lu_fsm_priv) : Prop :=
  lfp_authentication_required q = lfp_authentication_required p
  /\ lfp_is_ciphering_required q = lfp_is_ciphering_required p
  /\ lfp_is_ciphering_to_be_attempted q = lfp_is_ciphering_to_be_attempted p
  /\ lfp_event_success q = lfp_event_success p /\ lfp_event_failure q = lfp_event_failure p.

Section grow.
Context (p q : lu_fsm_priv) (l m : list vlr_out).
Hypothesis Hr : same_request p q.
Hypothesis Hs : l `suffix_of` m.

Lemma elem_of_grow o : o ∈ l -> o ∈ m.
Proof. destruct Hs as [k ->]. intros H. apply elem_of_app. by right. Qed.
Lemma authenticated_grow : lu_authenticated p l -> lu_authenticated q m.
Proof.
  destruct Hr as (E & _). unfold lu_authenticated. rewrite E. intros H Ha.
  destruct (H Ha) as [d Hd]. exists d. by apply elem_of_grow.
Qed.
Lemma ciphered_grow : lu_ciphered p l -> lu_ciphered q m.
Proof.
  destruct Hr as (_ & E & _). unfold lu_ciphered. rewrite E. intros H Ha. by apply elem_of_grow, H.
Qed.
Lemma hlr_grow : lu_hlr_agreed l -> lu_hlr_agreed m.
Proof. apply elem_of_grow. Qed.
Lemma justified_grow : lu_justified p l -> lu_justified q m.
Proof.
  intros (H1 & H2 & H3). split_and!; [by apply authenticated_grow|by apply ciphered_grow|by apply hlr_grow].
Qed.
Lemma state_req_grow s : lu_state_req s p l -> lu_state_req s q m.
Proof.
  destruct s; try done; cbn; [apply authenticated_grow| |apply justified_grow|apply justified_grow].
  intros [H1 H2]. split; [by apply authenticated_grow|by apply ciphered_grow].
Qed.
End grow.

Lemma same_request_refl p : same_request p p.
Proof. done. Qed.
Lemma accepts_same p q o : same_request p q -> lu_accepts q o -> lu_accepts p o.
Proof. intros (_ & _ & _ & E & _). destruct o; try done. cbn. by rewrite E. Qed.

Lemma out_justified_same p q l : same_request p q -> out_justified p l -> out_justified q l.
Proof.
  intros Hr H l1 o l2 E Ha. apply (justified_grow p q l2 l2 Hr); [done|].
  apply (H l1 o l2 E). by apply (accepts_same p q).
Qed.
Lemma out_justified_cons p o l : (lu_accepts p o -> lu_justified p l) -> out_justified p l ->
  out_justified p (o :: l).
Proof.
  intros Ho H [|o' l1] o2 l2 E Ha; simplify_eq/=; [by apply Ho|]. by apply (H l1 o2 l2).
Qed.

(** an output, justified where it has to be *)
Lemma lu_inv_emit o v :
  (lu_accepts (v_lfp v) o -> lu_justified (v_lfp v) (v_out v)) -> is_to_msc o = false ->
  lu_inv v -> lu_inv (v <| v_out ::= cons o |>).
Proof.
  intros Ho Hm [I1 I2 I3 I4 I5 I6 (e & I7 & I7') I8 I9 I10 I11 I12].
  assert (Hg : v_out v `suffix_of` o :: v_out v) by by exists [o].
  assert (Hj : lu_justified (v_lfp v) (v_out v) -> lu_justified (v_lfp v) (o :: v_out v))
    by by apply justified_grow.
  split; try done; cbn.
  - by apply (state_req_grow (v_lfp v) _ (v_out v)).
  - intros H. by apply Hj, I2.
  - intros H. by apply Hj, I3.
  - by apply out_justified_cons.
  - exists e. split; [done|]. intros H. by apply Hj, I7'.
  - unfold reports. cbn. by rewrite Hm.
Qed.
