(* ===== verification/VlrLuSecure.v ===== *)
(** * A Location Updating is accepted only when it may be

    The invariant of VlrLuInv is kept by every handler, and therefore by the
    whole VLR: acceptance and success need authentication and ciphering where
    they are required, and the consent of the HLR; and the MSC gets one result. *)

From S2P Require Import Prelude OsmoFsm WorldRel Gsm VlrTypes VlrSubscr VlrUse VlrAuthTuples.
From S2P Require Import VlrAuthFsm VlrLuSub VlrLu VlrArq VlrSgs Paging SgsIface VlrSystem.
From S2P Require Import VlrUseProofs VlrSteps VlrLuInv VlrSample VlrDb VlrDbProofs VlrSampleRun.

Create HintDb lusec discriminated.
#[export] Hint Constants Opaque : lusec.

(** ** The steps of the invariant *)
Section rel.
Context {DB : Type}.
Implicit Type w : world DB.

Definition lu_rel w w' : Prop :=
  lu_inv (lu_view_of w) ->
  lu_inv (lu_view_of w') /\ same_request (lfp w) (lfp w') /\ out w `suffix_of` out w'.

#[export] Instance lu_rel_preorder : PreOrder lu_rel.
Proof.
  split; [intros w H; by split_and!|]. intros w1 w2 w3 H12 H23 H1.
  destruct (H12 H1) as (I2 & R2 & S2). destruct (H23 I2) as (I3 & R3 & S3).
  split_and!; [done| |by transitivity (out w2)]. unfold same_request in *. intuition congruence.
Qed.

Lemma lu_rel_if w w' : (lu_inv (lu_view_of w) -> lu_rel w w') -> lu_rel w w'.
Proof. intros H I. by apply H. Qed.

Lemma lu_frame w w' : lu_view_of w' = lu_view_of w -> lu_rel w w'.
Proof.
  intros E I. rewrite E. split; [done|]. pose proof (f_equal v_lfp E) as E1.
  pose proof (f_equal v_out E) as E2. cbn in E1, E2. by rewrite E1, E2.
Qed.

Lemma lu_emit o w : plain o = true \/ is_free o = true -> lu_rel w (emit o w).
Proof.
  intros Ho I. split_and!; [|done|by exists [o]].
  apply (lu_inv_emit o (lu_view_of w)); [|by destruct o, Ho|done]. by destruct o, Ho.
Qed.
(** an event that is dispatched *)
Lemma lu_log pe d w : lu_rel w (emit (FsmEvent pe d) w).
Proof.
  intros I. split_and!; [|done|by eexists [_]]. by apply (lu_inv_emit (FsmEvent pe d) (lu_view_of w)).
Qed.
(** an acceptance *)
Lemma lu_emit_acc t ty w : lu_justified (lfp w) (out w) -> lu_rel w (emit (TxLuAcc t ty) w).
Proof.
  intros J I. split_and!; [|done|by eexists [_]]. by apply (lu_inv_emit (TxLuAcc t ty) (lu_view_of w)).
Qed.

(** the private data of the procedure, except for its result *)
Lemma lu_lfp f w : same_request (lfp w) (f (lfp w)) ->
  (lfp_result (f (lfp w)) = VLR_FSM_RESULT_SUCCESS ->
   lfp_result (lfp w) = VLR_FSM_RESULT_SUCCESS \/ lu_justified (lfp w) (out w)) ->
  lu_rel w (w <| lfp ::= f |>).
Proof.
  intros Hr Hf [I1 I2 I3 I4 I5 I6 (e & I7 & I7') I8 I9 I10 I11 I12]. split_and!; [|done|done].
  assert (Hj : lu_justified (lfp w) (out w) -> lu_justified (f (lfp w)) (out w)) by by apply justified_grow.
  destruct Hr as (R1 & R2 & R3 & R4 & R5).
  split; try done; cbn in *.
  - by apply (state_req_grow (lfp w) _ (out w)).
  - intros H. apply Hj. destruct (Hf H); [by apply I2|done].
  - intros H. by apply Hj, I3.
  - by apply (out_justified_same (lfp w)).
  - exists e. split; [done|]. intros H. apply Hj, I7'. congruence.
  - intros H. transitivity (lfp_is_ciphering_to_be_attempted (lfp w)); [done|]. apply I10. by rewrite <- R2.
  - intros H. apply I11. by rewrite <- R4, <- R5.
Qed.

(** *** Instances of the sub-procedures *)

Lemma lu_safe_rel w w' :
  w_lu w' = w_lu w -> lfp w' = lfp w -> out w' = out w -> w_arq w' = w_arq w -> w_upd w' = w_upd w ->
  (fi_terminating (w_compl w') = false -> fi_terminating (w_compl w) = false \/ lu_justified (lfp w) (out w)) ->
  (Forall lu_safe (view_pes (lu_view_of w)) -> Forall lu_safe (view_pes (lu_view_of w'))) ->
  lu_rel w w'.
Proof.
  intros E1 E2 E3 E4 E5 Hc Hs [I1 I2 I3 I4 I5 I6 I7 I8 I9 I10 I11 I12]. cbn in *.
  unfold lu_view_of at 1. rewrite E1, E2, E3, E4, E5. split_and!; [|done|done].
  split; try done; cbn.
  - intros H. destruct (Hc H); [by apply I3|done].
  - by apply Hs.
Qed.

Lemma lu_auth fi p w :
  (Forall lu_safe (auth_pes_of (w_auth w) (afp w)) -> Forall lu_safe (auth_pes_of fi p)) ->
  lu_rel w (w <| w_auth := fi |> <| afp := p |>).
Proof.
  intros H. apply lu_safe_rel; try done; [by left|]. unfold view_pes. rewrite !Forall_app.
  intros [H1 H2]. split; [by apply H|exact H2].
Qed.
Lemma lu_pres fi w :
  (lu_safe (fi_parent_term_event (w_pres w)) -> lu_safe (fi_parent_term_event fi)) ->
  lu_rel w (w <| w_pres := fi |>).
Proof.
  intros H. apply lu_safe_rel; try done; [by left|]. unfold view_pes. rewrite !Forall_app, !Forall_cons.
  cbn. tauto.
Qed.
Lemma lu_compl fi p w :
  (fi_terminating fi = false -> fi_terminating (w_compl w) = false \/ lu_justified (lfp w) (out w)) ->
  (Forall lu_safe [fi_parent_term_event (w_compl w); lcvp_event_success (lcvp w); lcvp_event_failure (lcvp w)]
   -> Forall lu_safe [fi_parent_term_event fi; lcvp_event_success p; lcvp_event_failure p]) ->
  lu_rel w (w <| w_compl := fi |> <| lcvp := p |>).
Proof.
  intros Hc H. apply lu_safe_rel; try done. unfold view_pes. rewrite !Forall_app, !Forall_cons in *.
  cbn in *. tauto.
Qed.
Lemma lu_upd fi w :
  (lu_upd_safe (fi_parent_term_event (w_upd w)) -> lu_upd_safe (fi_parent_term_event fi)) ->
  lu_rel w (w <| w_upd := fi |>).
Proof.
  intros H [I1 I2 I3 I4 I5 I6 I7 I8 I9 I10 I11 I12]. split_and!; [|done|done]. split; try done. by apply H.
Qed.
Lemma lu_lcvp f w :
  lcvp_event_success (f (lcvp w)) = lcvp_event_success (lcvp w) ->
  lcvp_event_failure (f (lcvp w)) = lcvp_event_failure (lcvp w) -> lu_rel w (w <| lcvp ::= f |>).
Proof. intros E1 E2. apply (lu_compl (w_compl w) (f (lcvp w))); [by left|]. by rewrite E1, E2. Qed.

(** *** Steps that need something of the log *)

Definition given (P : lu_fsm_priv -> list vlr_out -> Prop) w w' : Prop :=
  P (lfp w) (out w) -> lu_rel w w'.

Class Grows (P : lu_fsm_priv -> list vlr_out -> Prop) : Prop :=
  grows p q l m : same_request p q -> l `suffix_of` m -> P p l -> P q m.
#[export] Instance authenticated_grows : Grows lu_authenticated.
Proof. intros p q l m Hr Hs. by apply authenticated_grow. Qed.
#[export] Instance justified_grows : Grows lu_justified.
Proof. intros p q l m Hr Hs. by apply justified_grow. Qed.
#[export] Instance ciphered_grows : Grows (fun p l => lu_authenticated p l /\ lu_ciphered p l).
Proof. intros p q l m Hr Hs [H1 H2]. split; [by eapply authenticated_grow|by eapply ciphered_grow]. Qed.

#[export] Instance given_preorder P : Grows P -> PreOrder (given P).
Proof.
  intros HP. split; [by intros w _|]. intros w1 w2 w3 H12 H23 H1 I1.
  destruct (H12 H1 I1) as (I2 & R2 & S2). assert (H2 : P (lfp w2) (out w2)) by by eapply grows.
  revert I1. change (lu_rel w1 w3). transitivity w2; [by apply H12|by apply H23].
Qed.
Lemma given_of P w w' : lu_rel w w' -> given P w w'.
Proof. by intros H _. Qed.
Lemma given_acc t ty w : given lu_justified w (emit (TxLuAcc t ty) w).
Proof. intros H. by apply lu_emit_acc. Qed.
End rel.

(** one step of a handler *)
Ltac lu_step :=
  idtac; lazymatch goal with
  | |- lu_rel _ (emit _ _) => apply lu_emit; left; reflexivity
  | |- lu_rel _ (osmo_panic _) => apply (lu_emit OsmoPanic); left; reflexivity
  | |- lu_rel _ (snd (call ?o _)) => apply (lu_emit o); left; reflexivity
  | |- lu_rel _ (@field_upd _ lu_fsm_priv _ _ _ _) => apply lu_lfp; [done|intros ?; by left]
  | |- lu_rel _ (@field_upd _ lu_compl_vlr_priv _ _ _ _) => apply lu_lcvp; reflexivity
  | |- lu_rel _ (@field_upd ?A ?B ?C ?D ?f ?a) =>
      exact ((fun x => lu_frame x (@field_upd A B C D f x) eq_refl) a)
  | |- _ => solve [eauto 3 with lusec nocore]
  end.
Ltac lu_leaf :=
  idtac; lazymatch goal with
  | |- given _ _ _ => first [solve [eauto 3 with lusec nocore] | apply given_of; lu_step]
  | |- _ => lu_step
  end.
Ltac lu_walk := rel_walk lu_leaf.
#[export] Hint Resolve given_acc : lusec.

(** ** Uses of the record, the database, paging *)
Section uses.
Context {L : FsmLib} {LL : FsmLaws L} {DB : Type} {VDB : VlrDb DB} {R : VlrRc}.
Implicit Type w : world DB.

Lemma free_lu p w : lu_rel w (emit (SubscrFree p) w).
Proof. apply lu_emit. by right. Qed.
Lemma sgs_chg_lu s secs T w : lu_rel w (sgs_state_chg s secs T w).
Proof. apply (state_chg_rel lu_rel sgs_ue_fsm); [intros; by apply lu_frame|reflexivity]. Qed.
Lemma sgs_remove_lu w : lu_rel w (vlr_sgs_fsm_remove w).
Proof.
  unfold vlr_sgs_fsm_remove. transitivity (sgs_state_chg SGS_UE_ST_NULL 0 0 w); [apply sgs_chg_lu|].
  apply (term_rel lu_rel sgs_ue_fsm); intros; (reflexivity || by apply lu_frame).
Qed.
#[local] Hint Resolve sgs_remove_lu : lusec.
Lemma set_lu_complete_lu b w : lu_rel w (vlr_subscr_set_lu_complete b w).
Proof. unfold vlr_subscr_set_lu_complete. lu_walk. Qed.
#[local] Hint Resolve set_lu_complete_lu : lusec.
Lemma subscr_free_lu w : lu_rel w (vlr_subscr_free w).
Proof.
  unfold vlr_subscr_free. cbv zeta. etransitivity; [|apply free_lu]. lu_walk.
Qed.
#[local] Hint Resolve subscr_free_lu : lusec.
Lemma use_cb_lu tok w : lu_rel w (vlr_subscr_use_cb tok w).
Proof. unfold vlr_subscr_use_cb. lu_walk. Qed.
#[local] Hint Resolve use_cb_lu : lusec.
Lemma get_lu tok w : lu_rel w (vlr_subscr_get tok w).
Proof. unfold vlr_subscr_get. lu_walk. Qed.
Lemma put_lu tok w : lu_rel w (vlr_subscr_put tok w).
Proof. unfold vlr_subscr_put. lu_walk. Qed.
#[local] Hint Resolve get_lu put_lu : lusec.
Lemma hold_lu tok f w : (forall x, lu_rel x (f x)) -> lu_rel w (hold tok f w).
Proof. intros Hf. unfold hold. etransitivity; [|apply put_lu]. etransitivity; [apply get_lu|apply Hf]. Qed.
Lemma expire_lu w : lu_rel w (snd (vlr_subscr_expire w)).
Proof. unfold vlr_subscr_expire. lu_walk. Qed.
Lemma attach_lu w : lu_rel w (attach_use w).
Proof. unfold attach_use. lu_walk. Qed.
Lemma inflight_dec_lu w : lu_rel w (sgs_pag_inflight_dec w).
Proof. unfold sgs_pag_inflight_dec. lu_walk. Qed.
#[local] Hint Resolve inflight_dec_lu : lusec.
Lemma pag_stop_lu w : lu_rel w (vlr_sgs_pag_stop w).
Proof. unfold vlr_sgs_pag_stop. lu_walk. Qed.
Lemma lu_release_lu w : lu_rel w (vlr_sgs_lu_release w).
Proof. unfold vlr_sgs_lu_release. lu_walk. Qed.
Lemma conclude_loop_lu b l w : lu_rel w (fold_left (paging_conclude_one b) l w).
Proof.
  revert w. induction l as [|pr l IH]; intros w; [reflexivity|]. cbn [fold_left].
  etransitivity; [|apply IH]. unfold paging_conclude_one. lu_walk.
Qed.
#[local] Hint Resolve conclude_loop_lu : lusec.
Lemma concludes_lu b w : lu_rel w (paging_concludes b w).
Proof. unfold paging_concludes. lu_walk. Qed.
Lemma sync_lu w : lu_rel w (sync w).
Proof. by apply lu_frame. Qed.
Lemma rehash_lu w : lu_rel w (rehash_tmsi w).
Proof. by apply lu_frame. Qed.
Lemma set_imsi_lu i w : lu_rel w (set_imsi_call i w).
Proof. unfold set_imsi_call. destruct (db_set_imsi _ _ _). by apply lu_frame. Qed.
Lemma alloc_tmsi_lu w : lu_rel w (snd (vlr_subscr_alloc_tmsi_call w)).
Proof.
  unfold vlr_subscr_alloc_tmsi_call. destruct (db_alloc_tmsi _ _) as [[rc v] d]. cbv zeta.
  destruct (rc =? 0); [|by apply lu_frame]. cbn [snd].
  transitivity (w <| vsub := v |> <| db := d |>); [by apply lu_frame|]. apply lu_emit. by left.
Qed.
End uses.
#[export] Hint Resolve get_lu put_lu expire_lu attach_lu inflight_dec_lu pag_stop_lu lu_release_lu
  concludes_lu sync_lu rehash_lu set_imsi_lu alloc_tmsi_lu : lusec.

(** ** The handlers *)

(** what an event needs when it comes from a sub-procedure or from the HLR *)
Definition lu_pre (e : lu_event) (d : vdata) (l : list vlr_out) : Prop :=
  match e with
  | VLR_ULA_E_UPD_HLR_COMPL => data_cause d = None -> lu_hlr_agreed l
  | VLR_ULA_E_HLR_LU_RES => d = DNull \/ exists c, d = DCause c
  | _ => True
  end.
Definition upd_pre (e : upd_hlr_event) (d : vdata) (l : list vlr_out) : Prop :=
  match e with
  | UPD_HLR_VLR_E_UPD_LOC_ACK => lu_hlr_agreed l
  | UPD_HLR_VLR_E_UPD_LOC_NACK => exists c, d = DCause c
  | _ => True
  end.

(** What a dispatcher promises to the handlers that call it *)
Record env_lu {DB : Type} (env : vlr_env DB) : Prop := mk_env_lu {
  el_lu e d w : lu_pre e d (out w) -> lu_rel w (lu_dispatch env e d w);
  el_arq e d w : lu_rel w (arq_dispatch env e d w);
  el_compl e d w : lu_rel w (compl_dispatch env e d w);
  el_upd e d w : upd_pre e d (out w) -> lu_rel w (upd_dispatch env e d w);
  el_pres e d w : lu_rel w (pres_dispatch env e d w);
  el_auth e d w : lu_rel w (auth_dispatch env e d w);
  el_sgs e d w : lu_rel w (sgs_dispatch env e d w);
  el_resp r w : lu_rel w (sgs_response_cb env r w);
  el_paging s w : lu_rel w (sgs_paging_cb env s w);
  el_mminfo w : lu_rel w (sgs_mminfo_cb env w)
}.
#[export] Hint Resolve el_arq el_compl el_pres el_auth el_sgs el_resp el_paging el_mminfo : lusec.

Section handlers.
Context {L : FsmLib} {LL : FsmLaws L} {DB : Type} {VDB : VlrDb DB} {R : VlrRc} {BC : BcdCodec}
        {SS : SgsState}.
Context (env : vlr_env DB) (HE : env_lu env).
Implicit Type w : world DB.

Lemma safe_event_lu pe d w : lu_safe pe -> lu_rel w (parent_event env pe d w).
Proof.
  destruct pe as [e|e|e|e]; intros H; cbn.
  - apply (el_lu env HE). by destruct e.
  - apply (el_arq env HE).
  - apply (el_compl env HE).
  - done.
Qed.
Lemma auth_stored_safe f w : (forall x : world DB, f x ∈ auth_pes_of (w_auth x) (afp x)) ->
  lu_inv (lu_view_of w) -> lu_safe (f w).
Proof.
  intros Hf I. pose proof (li_safe _ I) as H. unfold view_pes in H. rewrite Forall_app in H.
  destruct H as [H _]. rewrite Forall_forall in H. apply H, Hf.
Qed.
(** an event that is stored in one of the other instances *)
Lemma stored_safe pe w : pe ∈ view_pes (lu_view_of w) -> lu_inv (lu_view_of w) -> lu_safe pe.
Proof. intros Hf I. pose proof (li_safe _ I) as H. rewrite Forall_forall in H. by apply H. Qed.
Ltac in_view := unfold view_pes, auth_pes_of; cbn [app];
  repeat (apply elem_of_cons; first [left; reflexivity | right]).

Lemma sgs_pag_lu s w : lu_rel w (vlr_sgs_pag env s w).
Proof. unfold vlr_sgs_pag, sgs_pag_inflight_inc. lu_walk. Qed.

Lemma lu_steps : steps env lu_rel lu_safe.
Proof.
  split; try (intros; solve [eauto 2 with lusec nocore]).
  - apply lu_rel_preorder.
  - intros o w Ho. apply lu_emit. by left.
  - intros v w _. by apply lu_frame.
  - intros n w. by apply lu_frame.
  - apply lu_auth.
  - apply lu_pres.
  - apply safe_event_lu.
  - intros f d w Hf. apply lu_rel_if. intros I. apply safe_event_lu. by apply auth_stored_safe.
  - intros f w Hf. apply lu_rel_if. intros I. pose proof (auth_stored_safe f w Hf I) as Hs.
    apply (lu_auth (w_auth w <| fi_parent_term_event := f w |>) (afp w) w).
    unfold auth_pes_of. rewrite !Forall_cons. tauto.
  - intros d w. apply lu_rel_if. intros I. apply safe_event_lu, (stored_safe _ w); [|done]. in_view.
  - intros tok f w _. apply hold_lu.
  - apply sgs_pag_lu.
  - intros w. transitivity (vlr_subscr_get VSUB_USE_SGS_LU w); [apply get_lu|apply put_lu].
Qed.

(** their consequences for the sub-procedures *)
Let req_lu_lu := req_lu_rel env lu_rel lu_safe lu_steps.
Let check_imei_lu := check_imei_rel env lu_rel lu_safe lu_steps.
Let set_ciph_lu := set_ciph_rel env lu_rel lu_safe lu_steps.
Let auth_start_lu := auth_start_rel env lu_rel lu_safe lu_steps.
Let pres_term_lu := pres_term_rel env lu_rel lu_safe lu_steps.
Let pres_start_lu := pres_start_rel env lu_rel lu_safe lu_steps.
Let paging_cb_lu := paging_cb_rel env lu_rel lu_safe lu_steps.
#[local] Hint Resolve req_lu_lu check_imei_lu set_ciph_lu pres_term_lu paging_cb_lu : lusec.

(** *** Update_HLR_VLR *)

Lemma upd_chg_lu s secs T w : lu_rel w (upd_hlr_state_chg env s secs T w).
Proof. apply (state_chg_rel lu_rel (upd_hlr_vlr_fsm env)); [intros; by apply lu_upd|reflexivity]. Qed.
#[local] Hint Resolve upd_chg_lu : lusec.
Lemma upd_event_lu pe d w : lu_upd_safe pe -> (data_cause d = None -> lu_hlr_agreed (out w)) ->
  lu_rel w (parent_event env pe d w).
Proof.
  intros Hs Hd. destruct pe as [e|e|e|e]; cbn.
  - apply (el_lu env HE). by destruct e.
  - apply (el_arq env HE).
  - apply (el_compl env HE).
  - done.
Qed.
Lemma upd_term_lu c d w : is_parent_cause c = true \/ (data_cause d = None -> lu_hlr_agreed (out w)) ->
  lu_rel w (upd_hlr_term env c d w).
Proof.
  intros Hd. unfold upd_hlr_term. destruct (fsm_alive (upd_hlr_vlr_fsm env) w) eqn:E;
    [|by rewrite term_again]. rewrite term_alive by done. cbv zeta.
  change (cleanup _ _ _) with (mark_terminating (upd_hlr_vlr_fsm env) w).
  set (w1 := mark_terminating _ w). assert (H1 : lu_rel w w1) by by apply lu_upd.
  destruct (is_parent_cause c); [done|]. destruct Hd as [|Hd]; [done|].
  destruct (fi_parent _); [|done]. transitivity w1; [done|].
  apply lu_rel_if. intros I. apply upd_event_lu; [apply (li_upd _ I)|exact Hd].
Qed.
Lemma upd_dispatch_lu e d w : upd_pre e d (out w) -> lu_rel w (upd_hlr_fsm_dispatch env e d w).
Proof.
  intros Hp. apply (dispatch_rel lu_rel (upd_hlr_vlr_fsm env)). intros s. apply lu_rel_if. intros I.
  destruct s; cbn; [unfold upd_hlr_vlr_fsm_init; lu_walk| |reflexivity].
  unfold upd_hlr_vlr_fsm_wait_data. destruct e; try reflexivity; cbv zeta.
  - set (w1 := upd_hlr_state_chg _ _ _ _ _). assert (H : lu_rel w w1) by lu_walk. clearbody w1.
    transitivity w1; [done|]. apply upd_term_lu. right. intros _.
    destruct (H I) as (_ & _ & Hs). by apply (hlr_grow (out w)).
  - set (w1 := upd_hlr_state_chg _ _ _ _ _). assert (H : lu_rel w w1) by lu_walk. clearbody w1.
    transitivity w1; [done|]. apply upd_term_lu. right. by destruct Hp as [c ->].
Qed.
Lemma upd_timeout_lu w : lu_rel w (upd_hlr_fsm_timeout env w).
Proof. unfold upd_hlr_fsm_timeout. rewrite timer_without_cb. apply upd_term_lu. by right. Qed.
Lemma upd_start_lu pe w : lu_upd_safe pe -> lu_rel w (snd (upd_hlr_vlr_proc_start env pe w)).
Proof.
  intros Hpe. unfold upd_hlr_vlr_proc_start.
  destruct (osmo_fsm_inst_alloc_child _ pe) as [fi|] eqn:E; [|reflexivity].
  apply alloc_child_init in E as ->. cbn [snd].
  eapply rel_step; [typeclasses eauto|by apply (el_upd env HE)|]. by apply lu_upd.
Qed.

(** *** Location_Update_Completion_VLR *)

Lemma compl_fi_lu fi w : fi_parent_term_event fi = fi_parent_term_event (w_compl w) ->
  (fi_terminating fi = false -> fi_terminating (w_compl w) = false) -> lu_rel w (w <| w_compl := fi |>).
Proof. intros E H. apply (lu_compl fi (lcvp w)); [intros ?; left; by apply H|by rewrite E]. Qed.
Lemma compl_children_lu w : lu_rel w (lu_compl_term_children env w).
Proof. unfold lu_compl_term_children. lu_walk. Qed.
Lemma compl_result_lu p w : lu_rel w (vlr_lu_compl_fsm_dispatch_result env p w).
Proof.
  unfold vlr_lu_compl_fsm_dispatch_result. destruct (negb _); [reflexivity|].
  apply lu_rel_if. intros I. apply safe_event_lu, (stored_safe _ w); [|done].
  destruct (lcvp_result (lcvp w)); in_view.
Qed.
Lemma compl_onenter_lu s p w : lu_rel w (lu_compl_onenter env s p w).
Proof. destruct s; cbn; try reflexivity; try (by apply lu_lcvp). apply compl_result_lu. Qed.
Lemma compl_chg_lu s secs T w : lu_rel w (lu_compl_state_chg env s secs T w).
Proof. apply (state_chg_rel lu_rel (lu_compl_vlr_fsm env)); [intros; by apply compl_fi_lu|apply compl_onenter_lu]. Qed.
Lemma compl_tdef_lu s w : lu_rel w (lu_compl_tdef_chg env s w).
Proof. apply (tdef_chg_rel lu_rel (lu_compl_vlr_fsm env)); [intros; by apply compl_fi_lu|apply compl_onenter_lu]. Qed.
Lemma compl_term_lu c d w : lu_rel w (lu_compl_term env c d w).
Proof.
  apply (term_rel lu_rel (lu_compl_vlr_fsm env)); [intros; by apply compl_fi_lu|reflexivity| |].
  - apply compl_children_lu.
  - intros d' x. apply lu_rel_if. intros I. apply safe_event_lu, (stored_safe _ x); [|done]. in_view.
Qed.
#[local] Hint Resolve compl_chg_lu compl_tdef_lu compl_term_lu : lusec.
Lemma compl_done_lu r c w : lu_rel w (_vlr_lu_compl_fsm_done env r c w).
Proof. unfold _vlr_lu_compl_fsm_done. lu_walk. Qed.
#[local] Hint Resolve compl_done_lu : lusec.
Lemma compl_success_lu w : lu_rel w (vlr_lu_compl_fsm_success env w).
Proof. unfold vlr_lu_compl_fsm_success. lu_walk. Qed.
#[local] Hint Resolve compl_success_lu : lusec.
Lemma compl_new_tmsi_lu w : given lu_justified w (lu_compl_vlr_new_tmsi env w).
Proof. unfold lu_compl_vlr_new_tmsi. lu_walk. Qed.
Lemma compl_accept_lu w : given lu_justified w (lu_compl_accept_without_tmsi env w).
Proof. unfold lu_compl_accept_without_tmsi. lu_walk. Qed.
#[local] Hint Resolve compl_new_tmsi_lu compl_accept_lu : lusec.
Lemma compl_init_lu e d w : lu_rel w (lu_compl_vlr_init env e d w).
Proof.
  unfold lu_compl_vlr_init. lu_walk.
  eapply rel_step; [typeclasses eauto|apply pres_start_lu; [done|]; intros; by apply lu_lcvp|].
  lu_walk.
Qed.
#[local] Hint Resolve compl_init_lu : lusec.
Lemma compl_action_lu s e d w : given lu_justified w (lu_compl_action env s e d w).
Proof.
  destruct s; cbn; [lu_walk| | | | |reflexivity].
  - unfold lu_compl_vlr_wait_subscr_pres. lu_walk.
  - unfold lu_compl_vlr_wait_imei. lu_walk.
  - unfold lu_compl_vlr_wait_imei. lu_walk.
  - unfold lu_compl_vlr_wait_tmsi. lu_walk.
Qed.
Lemma compl_dispatch_lu e d w : lu_rel w (lu_compl_fsm_dispatch env e d w).
Proof.
  apply lu_rel_if. intros I. unfold lu_compl_fsm_dispatch.
  destruct (ev_allowed (lu_compl_vlr_fsm env) w e) eqn:E; [|by rewrite dispatch_no].
  rewrite dispatch_ok by done. apply compl_action_lu, (li_compl _ I).
  apply andb_true_iff in E as [E _]. by apply negb_true_iff in E.
Qed.
Lemma compl_timeout_lu w : fi_terminating (w_compl w) = false -> lu_rel w (lu_compl_fsm_timeout env w).
Proof.
  intros Ha. apply lu_rel_if. intros I.
  apply (timer_rel (given lu_justified) (lu_compl_vlr_fsm env)); [..|by apply (li_compl _ I)].
  - intros x _. by apply compl_fi_lu.
  - intros c x. reflexivity.
  - intros x. apply given_of, compl_children_lu.
  - intros d' x. apply given_of, lu_rel_if. intros J. apply safe_event_lu, (stored_safe _ x); [|done]. in_view.
  - unfold lu_compl_vlr_timeout. lu_walk.
Qed.
Lemma compl_alloc_lu c s f a t w : lu_safe s -> lu_safe f ->
  given lu_justified w (snd (lu_compl_vlr_proc_alloc c s f a t w)).
Proof.
  intros Hs Hf. unfold lu_compl_vlr_proc_alloc.
  destruct (osmo_fsm_inst_alloc_child _ f) as [fi|] eqn:E; [|reflexivity].
  apply alloc_child_init in E as ->. cbn [snd]. intros J. apply lu_compl; [by right|].
  intros _. by repeat constructor.
Qed.

(** *** The end of the procedure *)

(** the children that the procedure terminates do not report to it *)
Record quiet w w' : Prop := mk_quiet {
  qu_lu : w_lu w' = w_lu w;
  qu_lfp : lfp w' = lfp w;
  qu_out : out w' = out w;
  qu_arq : w_arq w' = w_arq w;
  qu_compl : fi_terminating (w_compl w') = false -> fi_terminating (w_compl w) = false;
  qu_pes : view_pes (lu_view_of w') = view_pes (lu_view_of w);
  qu_upd : fi_parent_term_event (w_upd w') = fi_parent_term_event (w_upd w)
}.
#[export] Instance quiet_preorder : PreOrder quiet.
Proof.
  split; [done|]. intros w1 w2 w3 [A1 A2 A3 A4 A5 A6 A7] [B1 B2 B3 B4 B5 B6 B7].
  split; [congruence..|by auto|congruence|congruence].
Qed.

Section quiet_term.
Context {St E D PE : Type} (F : osmo_fsm (world DB) St E D PE).
Context (Hmark : forall w, quiet w (mark_terminating F w)).
Context (Hcl : forall c w, quiet w (cleanup F c w)) (Hch : forall w, quiet w (term_children F w)).
Lemma quiet_term d w : quiet w (osmo_fsm_inst_term F OSMO_FSM_TERM_PARENT d w).
Proof.
  destruct (fsm_alive F w) eqn:E1; [|by rewrite term_again]. rewrite term_alive by done. cbn.
  etransitivity; [apply Hmark|]. etransitivity; [apply Hch|apply Hcl].
Qed.
End quiet_term.

Lemma pres_term_quiet d w : quiet w (sub_pres_term env OSMO_FSM_TERM_PARENT d w).
Proof. by apply quiet_term. Qed.
Lemma compl_term_quiet d w : quiet w (lu_compl_term env OSMO_FSM_TERM_PARENT d w).
Proof.
  apply quiet_term; [done|done|]. intros x. cbn. unfold lu_compl_term_children.
  destruct (child_of _ _); [apply pres_term_quiet|reflexivity].
Qed.
Lemma lu_children_quiet w : quiet w (lu_term_children env w).
Proof.
  unfold lu_term_children. cbv zeta.
  set (w1 := if child_of _ (w_auth w) then _ else w). assert (H1 : quiet w w1).
  { unfold w1. destruct (child_of _ _); [by apply quiet_term|reflexivity]. }
  clearbody w1. set (w2 := if child_of _ (w_upd w1) then _ else w1). assert (H2 : quiet w1 w2).
  { unfold w2. destruct (child_of _ _); [by apply quiet_term|reflexivity]. }
  clearbody w2. transitivity w1; [done|]. transitivity w2; [done|].
  destruct (child_of _ _); [apply compl_term_quiet|reflexivity].
Qed.
Lemma lu_cleanup_quiet c w : quiet w (fsm_lu_cleanup c w).
Proof. unfold fsm_lu_cleanup. by destruct (_ && _). Qed.

(** the one report *)
Lemma lu_report_lu e d w w1 : fi_terminating (w_lu w) = false -> fi_parent_term_event (w_lu w) = PeMsc e ->
  quiet (w <| w_lu ::= fun fi => fi <| fi_terminating := true |> |>) w1 ->
  lu_rel w (parent_event env (PeMsc e) d w1).
Proof.
  intros Ha He [Q1 Q2 Q3 Q4 Q5 Q6 Q7] [I1 I2 I3 I4 I5 I6 (e' & I7 & I7') I8 I9 I10 I11 I12].
  assert (e' = e) as -> by (cbn in I7; congruence).
  assert (Hg : out w `suffix_of` ToMsc e :: out w) by by exists [ToMsc e].
  assert (Hj : lu_justified (lfp w) (out w) -> lu_justified (lfp w) (ToMsc e :: out w)) by by apply justified_grow.
  set (w2 := parent_event _ _ _ _).
  assert (E1 : w_lu w2 = w_lu w <| fi_terminating := true |>) by exact Q1.
  assert (E2 : lfp w2 = lfp w) by exact Q2.
  assert (E3 : out w2 = ToMsc e :: out w) by exact (f_equal (cons (ToMsc e)) Q3).
  assert (E4 : w_arq w2 = w_arq w) by exact Q4.
  assert (E5 : fi_terminating (w_compl w2) = false -> fi_terminating (w_compl w) = false) by exact Q5.
  assert (E6 : view_pes (lu_view_of w2) = view_pes (lu_view_of w)) by exact Q6.
  assert (E7 : fi_parent_term_event (w_upd w2) = fi_parent_term_event (w_upd w)) by exact Q7.
  clearbody w2. clear Q1 Q2 Q3 Q4 Q5 Q6 Q7. split_and!; [|by rewrite E2|by rewrite E3].
  unfold lu_view_of in E6 |- *. rewrite E1, E2, E3, E4 in *. split; cbn; try done.
  - by apply (state_req_grow (lfp w) _ (out w)).
  - intros H. by apply Hj, I2.
  - intros H. by apply Hj, I3, E5.
  - apply out_justified_cons; [exact I7'|done].
  - exact (eq_ind_r (Forall lu_safe) I5 E6).
  - by rewrite E7.
  - exists e. split; [done|]. intros H. by apply Hj, I7'.
  - cbn in I12. rewrite Ha in I12. unfold reports in *. cbn. by rewrite I12.
Qed.

Lemma lu_term_lu c d w : is_parent_cause c = false ->
  lu_rel w (osmo_fsm_inst_term (vlr_lu_fsm env) c d w).
Proof.
  intros Hc. destruct (fsm_alive (vlr_lu_fsm env) w) eqn:E; [|by rewrite term_again].
  rewrite term_alive by done. cbv zeta. rewrite Hc. apply negb_true_iff in E.
  set (w0 := mark_terminating _ w).
  set (w1 := cleanup _ _ _).
  assert (Hq : quiet w0 w1) by (etransitivity; [apply lu_children_quiet|apply lu_cleanup_quiet]).
  clearbody w1. apply lu_rel_if. intros I. destruct (li_report _ I) as (e & He & _).
  change (get_fi _ w1) with (w_lu w1). rewrite (qu_lu _ _ Hq).
  change (fi_parent (w_lu w0)) with (fi_parent (w_lu w)).
  change (fi_parent_term_event (w_lu w0)) with (fi_parent_term_event (w_lu w)).
  pose proof (li_parent _ I) as Hp. cbn in Hp, He. rewrite Hp, He. by apply lu_report_lu.
Qed.

(** *** Update_Location_Area_VLR *)

Lemma w_lu_lu fi w :
  lu_state_req (fi_state fi) (lfp w) (out w) ->
  (exists e, fi_parent_term_event fi = PeMsc e
     /\ (e = lfp_event_success (lfp w) -> fi_parent_term_event fi = fi_parent_term_event (w_lu w)
         \/ lu_justified (lfp w) (out w))) ->
  fi_parent fi = fi_parent (w_lu w) -> fi_terminating fi = fi_terminating (w_lu w) ->
  lu_rel w (w <| w_lu := fi |>).
Proof.
  intros Hs (e & He & Hj) Hp Ht [I1 I2 I3 I4 I5 I6 (e' & I7 & I7') I8 I9 I10 I11 I12].
  split_and!; [|done|done]. split; try done; cbn in *.
  - exists e. split; [done|]. intros H. destruct (Hj H) as [E|]; [|done]. apply I7'. congruence.
  - by rewrite Hp.
  - by rewrite Ht.
Qed.
Lemma lu_result_lu p w : lu_rel w (lu_fsm_dispatch_result env p w).
Proof.
  unfold lu_fsm_dispatch_result. destruct (negb _); [reflexivity|]. cbv zeta.
  eapply rel_step; [typeclasses eauto|by apply lu_term_lu|].
  match goal with |- context [PeMsc ?e] => set (pe := e) end.
  apply lu_rel_if. intros I. apply w_lu_lu; [apply (li_state _ I)| |done|done].
  exists pe. split; [done|]. intros He. right. apply (li_result _ I). cbn.
  unfold pe in He. destruct (lfp_result (lfp w)); [|done|]; by destruct (li_events _ I).
Qed.
Lemma lu_onenter_lu s p w : lu_rel w (lu_onenter env s p w).
Proof. destruct s; cbn; try reflexivity; [by apply lu_lfp; [|left]|apply lu_result_lu]. Qed.
Lemma lu_with_state_lu s T w : lu_state_req s (lfp w) (out w) -> lu_rel w (with_state (vlr_lu_fsm env) s T w).
Proof.
  intros Hs. apply lu_rel_if. intros I. destruct (li_report _ I) as (e & He & Hj).
  apply w_lu_lu; [done| |done|done]. exists e. split; [exact He|by left].
Qed.
Lemma lu_chg_lu s secs T w : lu_state_req s (lfp w) (out w) -> lu_rel w (lu_state_chg env s secs T w).
Proof.
  intros Hs. unfold lu_state_chg. destruct (chg_allowed (vlr_lu_fsm env) w s) eqn:E;
    [|by rewrite state_chg_no]. rewrite state_chg_ok by done.
  etransitivity; [by apply lu_with_state_lu|apply lu_onenter_lu].
Qed.
Lemma lu_tdef_lu s w : lu_state_req s (lfp w) (out w) -> lu_rel w (lu_tdef_chg env s w).
Proof.
  intros Hs. unfold lu_tdef_chg. destruct (chg_allowed (vlr_lu_fsm env) w s) eqn:E;
    [|by rewrite tdef_chg_no]. rewrite tdef_chg_ok by done.
  etransitivity; [by apply lu_with_state_lu|apply lu_onenter_lu].
Qed.
#[local] Hint Extern 1 (lu_rel _ (lu_state_chg _ _ _ _ _)) => (apply lu_chg_lu; exact I) : lusec.
#[local] Hint Extern 1 (lu_rel _ (lu_tdef_chg _ _ _)) => (apply lu_tdef_lu; exact I) : lusec.

Lemma lu_done_lu r w : r <> VLR_FSM_RESULT_SUCCESS -> lu_rel w (_lu_fsm_done env r w).
Proof.
  intros Hr. unfold _lu_fsm_done. cbv zeta. eapply rel_step; [typeclasses eauto|by apply lu_chg_lu|].
  apply lu_lfp; [done|]. by intros ?.
Qed.
Lemma lu_success_lu w : given lu_justified w (lu_fsm_success env w).
Proof.
  intros J. unfold lu_fsm_success, _lu_fsm_done. cbv zeta.
  eapply rel_step; [typeclasses eauto|by apply lu_chg_lu|]. apply lu_lfp; [done|]. by right.
Qed.
Lemma lu_failure_lu c w : lu_rel w (lu_fsm_failure env c w).
Proof.
  unfold lu_fsm_failure. cbv zeta. eapply rel_step; [typeclasses eauto|by apply lu_done_lu|]. lu_walk.
Qed.
#[local] Hint Resolve lu_success_lu lu_failure_lu : lusec.

Lemma try_auth_lu w : lu_rel w (snd (try_auth w)).
Proof.
  unfold try_auth. destruct (lfp_authentication_required _); [reflexivity|].
  destruct (negb _); [reflexivity|]. destruct (auth_try_reuse_tuple _ _ _) as [ok v]. by apply lu_frame.
Qed.
#[local] Hint Extern 1 (given lu_justified _ (snd (lu_compl_vlr_proc_alloc _ _ _ _ _ _))) =>
  by apply compl_alloc_lu : lusec.
#[local] Hint Extern 1 (lu_rel _ (snd (upd_hlr_vlr_proc_start _ _ _))) => by apply upd_start_lu : lusec.
#[local] Hint Extern 1 (lu_rel _ (snd (auth_fsm_start _ _ _ _ _ _ _))) => by apply auth_start_lu : lusec.
Lemma start_compl_lu w : given lu_justified w (vlr_loc_upd_start_lu_compl_fsm env w).
Proof. unfold vlr_loc_upd_start_lu_compl_fsm. lu_walk. Qed.
Lemma discard_compl_lu w : lu_rel w (lu_fsm_discard_lu_compl_fsm env w).
Proof. unfold lu_fsm_discard_lu_compl_fsm. lu_walk. Qed.
#[local] Hint Resolve start_compl_lu discard_compl_lu : lusec.

Abbreviation ciphered := (fun p l => lu_authenticated p l /\ lu_ciphered p l).
Lemma to_wait_hlr_lu secs T w : given ciphered w (lu_state_chg env VLR_ULA_S_WAIT_HLR_UPD secs T w).
Proof. intros H. by apply lu_chg_lu. Qed.
Lemma to_wait_compl_lu secs T w : given lu_justified w (lu_state_chg env VLR_ULA_S_WAIT_LU_COMPL secs T w).
Proof. intros H. by apply lu_chg_lu. Qed.
#[local] Hint Resolve to_wait_hlr_lu to_wait_compl_lu : lusec.
Lemma node_4_lu w : given ciphered w (vlr_loc_upd_node_4 env w).
Proof. unfold vlr_loc_upd_node_4. lu_walk. Qed.
#[local] Hint Resolve node_4_lu : lusec.
Lemma post_ciph_lu w : given ciphered w (vlr_loc_upd_post_ciph env w).
Proof. unfold vlr_loc_upd_post_ciph, hlr_update_needed. lu_walk. Qed.
Lemma to_wait_ciph_lu secs T w : given lu_authenticated w (lu_state_chg env VLR_ULA_S_WAIT_CIPH secs T w).
Proof. intros H. by apply lu_chg_lu. Qed.
#[local] Hint Resolve post_ciph_lu to_wait_ciph_lu : lusec.
Lemma post_auth_lu w : given lu_authenticated w (vlr_loc_upd_post_auth env w).
Proof.
  unfold vlr_loc_upd_post_auth. destruct (negb (lfp_vsub _)); [lu_walk|].
  destruct (negb _ || _) eqn:E; [|lu_walk]. intros Ha. apply lu_rel_if. intros I.
  apply post_ciph_lu. split; [done|]. intros Hc. apply orb_true_iff in E as [E|E].
  - assert (H : VlrLu.is_cmc_smc_to_be_attempted (lfp w) = true)
      by (apply orb_true_iff; right; exact (li_ciph _ I Hc)). by rewrite H in E.
  - by rewrite Hc, andb_false_r in E.
Qed.
Lemma node1_lu w : lu_rel w (vlr_loc_upd_node1 env w).
Proof.
  unfold vlr_loc_upd_node1. destruct (negb _); [lu_walk|].
  pose proof (try_auth_lu w) as H. destruct (try_auth w) as [auth w1] eqn:E. cbn [snd] in H.
  destruct auth; [lu_walk|]. transitivity w1; [done|]. apply post_auth_lu.
  unfold try_auth in E. destruct (lfp_authentication_required (lfp w)) eqn:Ea; [done|].
  assert (E1 : lfp w1 = lfp w).
  { destruct (negb _); [by simplify_eq|]. destruct (auth_try_reuse_tuple _ _ _). by simplify_eq. }
  intros Hr. by rewrite E1, Ea in Hr.
Qed.
#[local] Hint Resolve node1_lu : lusec.
Lemma node1_pre_lu w : lu_rel w (vlr_loc_upd_node1_pre env w).
Proof. unfold vlr_loc_upd_node1_pre. lu_walk. Qed.
Lemma want_imsi_lu w : lu_rel w (vlr_loc_upd_want_imsi env w).
Proof. unfold vlr_loc_upd_want_imsi. lu_walk. Qed.
#[local] Hint Resolve node1_pre_lu want_imsi_lu : lusec.
Lemma start_main_lu w : lu_rel w (_start_lu_main env w).
Proof. unfold _start_lu_main. lu_walk. Qed.
#[local] Hint Resolve start_main_lu : lusec.
Lemma compl_via_lu p e d w : lu_rel w (compl_via env p e d w).
Proof. unfold compl_via. lu_walk. Qed.
#[local] Hint Resolve compl_via_lu : lusec.
Lemma upd_via_lu p e d w : upd_pre e d (out w) -> lu_rel w (upd_via env p e d w).
Proof. intros H. unfold upd_via. destruct p; [reflexivity| |reflexivity]. by apply (el_upd env HE). Qed.

(** **** Finding the subscriber *)
Lemma assoc_lfp_lu v w : lu_rel w (snd (assoc_lfp_with_sub env v w)).
Proof. unfold assoc_lfp_with_sub. lu_walk. Qed.
#[local] Hint Resolve assoc_lfp_lu : lusec.
Lemma lu_found_lu v w : lu_rel w (snd (lu_found env v w)).
Proof. unfold lu_found. lu_walk. Qed.
#[local] Hint Resolve lu_found_lu : lusec.
Lemma associate_lu w : lu_rel w (snd (_lu_fsm_associate_vsub env w)).
Proof.
  unfold _lu_fsm_associate_vsub. transitivity (sync w); [apply sync_lu|]. cbv zeta.
  set (w1 := sync w). clearbody w1. destruct (str_empty _).
  - set (w2 := w1 <| lfp ::= _ |>). transitivity w2; [by apply lu_lfp; [|left]|].
    destruct (db_find_or_create_by_tmsi _ _) as [[v d]|]; lu_walk.
  - destruct (db_find_or_create_by_imsi _ _) as [[v d]|]; lu_walk.
Qed.
#[local] Hint Resolve associate_lu : lusec.

(** **** The states *)
Lemma wait_hlr_lu e d w : lu_pre e d (out w) -> FsmEvent (PeLu e) d ∈ out w ->
  given ciphered w (lu_fsm_wait_hlr_ul_res env e d w).
Proof.
  intros Hp Hl [Ha Hc]. unfold lu_fsm_wait_hlr_ul_res. destruct e; try (lu_walk; fail).
  - destruct Hp as [->|[c ->]]; [by apply upd_via_lu|]. apply upd_via_lu. by exists c.
  - destruct (data_cause d) as [c|] eqn:Ed; [lu_walk|].
    assert (J : lu_justified (lfp w) (out w)) by exact (conj Ha (conj Hc (Hp Ed))).
    revert J. match goal with |- lu_justified _ _ -> lu_rel _ ?x => change (given lu_justified w x) end. lu_walk.
Qed.
Lemma lu_action_lu e d w : lu_pre e d (out w) -> FsmEvent (PeLu e) d ∈ out w ->
  lu_rel w (lu_action env (fi_state (w_lu w)) e d w).
Proof.
  intros Hp Hl. apply lu_rel_if. intros I. pose proof (li_state _ I) as Hs. cbn in Hs.
  destruct (fi_state (w_lu w)); cbn in *; [..|reflexivity].
  - unfold lu_fsm_idle. lu_walk.
  - unfold lu_fsm_wait_imeisv. lu_walk.
  - unfold lu_fsm_wait_pvlr. lu_walk.
  - unfold lu_fsm_wait_auth. cbv zeta. set (w1 := w <| lfp ::= _ |>).
    transitivity w1; [by apply lu_lfp; [|left]|]. destruct e; try (lu_walk; fail).
    + apply post_auth_lu. intros _. by exists d.
    + destruct (_ || _) eqn:E; [lu_walk|]. apply post_auth_lu. intros Hr.
      by apply orb_false_iff in E as [E _]; rewrite Hr in E.
  - unfold lu_fsm_wait_ciph. destruct e; try (lu_walk; fail). 
    destruct d; try (lu_walk; fail). case_match; try (lu_walk; fail). simplify_eq.
    apply post_ciph_lu. split; [exact Hs|by intros _].
  - unfold lu_fsm_wait_imsi. lu_walk.
  - unfold lu_fsm_wait_hlr_check_imei_early. lu_walk.
  - by apply wait_hlr_lu.
  - revert Hs. change (given lu_justified w (lu_fsm_wait_lu_compl env e d w)).
    unfold lu_fsm_wait_lu_compl. lu_walk.
  - revert Hs. change (given lu_justified w (lu_fsm_wait_lu_compl_standalone env e d w)).
    unfold lu_fsm_wait_lu_compl_standalone. lu_walk.
Qed.
Lemma lu_dispatch_lu e d w : lu_pre e d (out w) -> FsmEvent (PeLu e) d ∈ out w ->
  lu_rel w (lu_fsm_dispatch env e d w).
Proof.
  intros Hp Hl. unfold lu_fsm_dispatch. destruct (ev_allowed (vlr_lu_fsm env) w e) eqn:E;
    [|by rewrite dispatch_no]. rewrite dispatch_ok by done. by apply lu_action_lu.
Qed.
Lemma lu_timeout_lu w : lu_rel w (lu_fsm_timeout env w).
Proof.
  unfold lu_fsm_timeout. rewrite timer_with_cb.
  assert (H : lu_rel w (snd (fsm_lu_timer_cb env w))) by (unfold fsm_lu_timer_cb; lu_walk).
  destruct (fsm_lu_timer_cb env w) as [rc w1]. cbn [snd] in H. destruct (rc =? 1); [|done].
  transitivity w1; [done|]. by apply lu_term_lu.
Qed.
Lemma lu_cancel_lu c w : lu_rel w (vlr_loc_update_cancel env c w).
Proof. unfold vlr_loc_update_cancel. lu_walk. Qed.

(** *** No other procedure *)

Lemma arq_dead_chg s secs T w : fi_terminating (w_arq w) = true -> arq_state_chg env s secs T w = w.
Proof.
  intros H. unfold arq_state_chg. apply state_chg_no; [done|].
  apply andb_false_iff. left. exact (f_equal negb H).
Qed.
Lemma arq_cancel_lu c w : lu_rel w (vlr_parq_cancel env c w).
Proof.
  apply lu_rel_if. intros I. unfold vlr_parq_cancel, proc_arq_fsm_done. cbv zeta.
  rewrite arq_dead_chg by exact (li_arq _ I). destruct (fi_state (w_arq w)); by apply lu_frame.
Qed.
Lemma arq_dispatch_lu e d w : lu_rel w (arq_fsm_dispatch env e d w).
Proof.
  apply lu_rel_if. intros I. unfold arq_fsm_dispatch. rewrite dispatch_no; [reflexivity|done|].
  apply andb_false_iff. left. exact (f_equal negb (li_arq _ I)).
Qed.

Lemma paging_start_lu c cb w : lu_rel w (snd (paging_request_start (sgs_iface_paging_cb env) c cb w)).
Proof. unfold paging_request_start, msc_paging_request. lu_walk. Qed.
Lemma ts5_lu w : lu_rel w (Ts5_timeout_cb env w).
Proof.
  unfold Ts5_timeout_cb. cbv zeta. eapply rel_step; [typeclasses eauto|apply hold_lu|lu_walk].
  intros x. lu_walk.
Qed.

Lemma on_subscr_lu v f w : (forall x, lu_rel x (f x)) -> lu_rel w (on_subscr v f w).
Proof.
  intros Hf. unfold on_subscr. destruct (_ =? _); [apply Hf|].
  transitivity (w <| vsub := v |>); [by apply lu_frame|].
  transitivity (f (w <| vsub := v |>)); [apply Hf|by apply lu_frame].
Qed.

Lemma lu_entries : entries env lu_rel lu_rel (fun _ => True).
Proof.
  split.
  - apply lu_rel_preorder.
  - intros e d w He. apply (el_lu env HE). destruct e, d; try done; [by left|by right; eexists].
  - intros e d w _. apply (el_arq env HE).
  - intros w. by apply lu_term_lu.
  - apply lu_cancel_lu.
  - apply arq_cancel_lu.
  - intros w _. apply lu_timeout_lu.
  - intros w Ha. apply lu_rel_if. intros I. pose proof (li_arq _ I : fi_terminating (w_arq w) = true).
    congruence.
  - apply compl_timeout_lu.
  - intros w _. apply upd_timeout_lu.
  - apply paging_start_lu.
  - done.
  - intros v f w _. apply on_subscr_lu.
  - intros w w' H. apply H. by apply Forall_true.
  - done.
  - intros w i v d w' _ H. transitivity (w <| db := d |>); [by apply lu_frame|]. by apply H.
Qed.

Context {BD : BcdDecoder}.
Lemma handle_lu i w : associates i = false -> lu_rel w (vlr_handle env i w).
Proof. apply (handle_top env lu_rel lu_safe lu_steps lu_rel _ lu_entries). intros x _. apply ts5_lu. Qed.
End handlers.

(** ** The system *)

Section system.
Context {L : FsmLib} {LL : FsmLaws L} {DB : Type} {VDB : VlrDb DB} {R : VlrRc} {BC : BcdCodec}
        {BD : BcdDecoder} {SS : SgsState}.
Implicit Type w : world DB.

Lemma system_lu n : env_lu (vlr_system (DB := DB) n).
Proof.
  induction n as [|n IH]; [by split; intros; apply lu_frame|]. split; intros; cbn.
  - transitivity (emit (FsmEvent (PeLu e) d) w); [apply lu_log|]. apply lu_dispatch_lu; [done| |by left].
    destruct e; try done. intros Hd. by apply elem_of_cons; right; apply H.
  - transitivity (emit (FsmEvent (PeArq e) d) w); [apply lu_log|]. by apply arq_dispatch_lu.
  - transitivity (emit (FsmEvent (PeCompl e) d) w); [apply lu_log|]. by apply compl_dispatch_lu.
  - by apply upd_dispatch_lu.
  - by apply (pres_dispatch_rel _ lu_rel lu_safe (lu_steps _ IH)).
  - by apply (auth_dispatch_rel _ lu_rel lu_safe (lu_steps _ IH)).
  - by apply (sgs_dispatch_rel _ lu_rel lu_safe (lu_steps _ IH)).
  - by apply (tx_resp_rel _ lu_rel lu_safe (lu_steps _ IH)).
  - by apply (paging_cb_rel _ lu_rel lu_safe (lu_steps _ IH)).
  - by apply (tx_mm_info_rel _ lu_rel lu_safe (lu_steps _ IH)).
Qed.

Lemma run_lu n l w : Forall (fun i => associates i = false) l -> lu_rel w (vlr_run n l w).
Proof.
  intros Hl. revert w. induction Hl as [|i l Hi Hl IH]; intros w; [reflexivity|].
  etransitivity; [|apply IH]. by apply handle_lu; [apply system_lu|].
Qed.

(** *** A request *)

(** no procedure runs for the connection *)
Record lu_fresh w : Prop := mk_lu_fresh {
  lf_out : out w = [];
  lf_compl : fi_terminating (w_compl w) = true;
  lf_arq : fi_terminating (w_arq w) = true;
  lf_safe : Forall lu_safe (view_pes (lu_view_of w));
  lf_upd : lu_upd_safe (fi_parent_term_event (w_upd w))
}.
(** a request as the MSC makes it *)
Definition lu_request_ok (q : lu_request) : Prop :=
  (rq_is_ciphering_required q = true -> rq_is_ciphering_to_be_attempted q = true)
  /\ rq_event_failure q <> rq_event_success q.

Lemma start_inv q w w1 : lu_fresh w -> lu_request_ok q -> _vlr_loc_update q w = (FsmThis, w1) ->
  lu_inv (lu_view_of w1)
  /\ (lfp_authentication_required (lfp w1) = rq_authentication_required q
      /\ lfp_is_ciphering_required (lfp w1) = rq_is_ciphering_required q
      /\ lfp_event_success (lfp w1) = rq_event_success q).
Proof.
  intros [F1 F2 F3 F4 F5] [Q1 Q2]. unfold _vlr_loc_update.
  destruct (rq_is_ciphering_required q && negb (rq_is_ciphering_to_be_attempted q)) eqn:E.
  { apply andb_true_iff in E as [E1 E2]. by rewrite Q1 in E2. }
  destruct (osmo_fsm_inst_alloc_child _ _) as [fi|] eqn:Ef; [|done].
  apply alloc_child_init in Ef as ->. intros [= <-]. split; [|done].
  split; cbn; try done.
  - intros H. exfalso. assert (H' : fi_terminating (w_compl w) = false) by exact H. congruence.
  - intros l1 o l2 H. assert (H' : out w = l1 ++ o :: l2) by exact H. rewrite F1 in H'. by destruct l1.
  - exists (rq_event_failure q). by split.
  - exact (f_equal reports F1).
Qed.

Lemma request_lu n q l w : lu_fresh w -> lu_request_ok q -> fst (_vlr_loc_update q w) = FsmThis ->
  Forall (fun i => associates i = false) l ->
  let w' := vlr_run n (InLocUpdate q :: l) w in
  lu_inv (lu_view_of w')
  /\ (lfp_authentication_required (lfp w') = rq_authentication_required q
      /\ lfp_is_ciphering_required (lfp w') = rq_is_ciphering_required q
      /\ lfp_event_success (lfp w') = rq_event_success q).
Proof.
  intros Hf Hq Hs Hl. cbn [vlr_run fold_left vlr_handle]. unfold vlr_loc_update.
  destruct (_vlr_loc_update q w) as [p w1] eqn:E. cbn in Hs. subst p. cbn [snd].
  destruct (start_inv q w w1 Hf Hq E) as (I & E1 & E2 & E3).
  set (w2 := lu_dispatch _ _ _ w1). cbn. fold (vlr_run n l w2).
  assert (H : lu_rel w1 (vlr_run n l w2)).
  { transitivity w2; [by apply (el_lu _ (system_lu n))|by apply run_lu]. }
  destruct (H I) as (I' & (R1 & R2 & _ & R4 & _) & _). split; [done|].
  by rewrite R1, R2, R4.
Qed.

(** *** The theorems *)

(** C1: A Location Updating is accepted only when it may be.  Let the MSC
    start the procedure for a connection on which none runs, and let any other
    inputs follow, with any depth of nested dispatches.  Whenever a Location
    Updating Accept goes to the MS or success is reported to the MSC, the
    procedure has before received the success of the authentication if the
    request requires authentication, the completion of the ciphering command
    if it requires ciphering, and always the positive answer of the HLR. *)
Theorem lu_accepted_only_when_justified n q l w l1 o l2 :
  lu_fresh w -> lu_request_ok q -> fst (_vlr_loc_update q w) = FsmThis ->
  Forall (fun i => associates i = false) l ->
  out (vlr_run n (InLocUpdate q :: l) w) = l1 ++ o :: l2 ->
  (exists t ty, o = TxLuAcc t ty) \/ o = ToMsc (rq_event_success q) ->
  (rq_authentication_required q = true -> exists d, FsmEvent (PeLu VLR_ULA_E_AUTH_SUCCESS) d ∈ l2)
  /\ (rq_is_ciphering_required q = true ->
      FsmEvent (PeLu VLR_ULA_E_CIPH_RES) (DCiph VLR_CIPH_COMPL) ∈ l2)
  /\ FsmEvent (PeLu VLR_ULA_E_HLR_LU_RES) DNull ∈ l2.
Proof.
  intros Hf Hq Hs Hl Ho Ha. destruct (request_lu n q l w Hf Hq Hs Hl) as (I & E1 & E2 & E3).
  assert (J : lu_justified (lfp (vlr_run n (InLocUpdate q :: l) w)) l2).
  { apply (li_out _ I l1 o l2 Ho). destruct Ha as [(t & ty & ->)| ->]; [done|]. by cbn. }
  destruct J as (J1 & J2 & J3). unfold lu_authenticated, lu_ciphered in *. rewrite E1 in J1.
  rewrite E2 in J2. by split_and!.
Qed.

(** C2: The MSC gets exactly one result of a Location Updating.  After any
    inputs, nothing has been reported while the procedure runs, and once it
    has ended exactly one event has gone to the MSC. *)
Theorem lu_reports_once n q l w :
  lu_fresh w -> lu_request_ok q -> fst (_vlr_loc_update q w) = FsmThis ->
  Forall (fun i => associates i = false) l ->
  let w' := vlr_run n (InLocUpdate q :: l) w in
  length (List.filter is_to_msc (out w')) = if fi_terminating (w_lu w') then 1%nat else 0%nat.
Proof.
  intros Hf Hq Hs Hl w'. destruct (request_lu n q l w Hf Hq Hs Hl) as (I & _). exact (li_once _ I).
Qed.

(** the timer of a running procedure ends it, in the circuit switched domain *)
Lemma lu_timeout_ends (env : vlr_env DB) w : lu_inv (lu_view_of w) -> is_ps (cfg w) = false ->
  fi_terminating (w_lu (if_alive (w_lu w) (lu_fsm_timeout env) w)) = true.
Proof.
  intros I Hps. unfold if_alive. destruct (fi_terminating (w_lu w)) eqn:Ha; [done|].
  unfold lu_fsm_timeout. rewrite timer_with_cb. unfold fsm_lu_timer_cb. rewrite Hps. cbn.
  rewrite term_alive by exact (f_equal negb Ha). cbv zeta. set (w0 := mark_terminating _ w).
  set (w1 := cleanup _ _ _).
  assert (Hq : quiet w0 w1) by (etransitivity; [apply lu_children_quiet|apply lu_cleanup_quiet]).
  clearbody w1. cbn [is_parent_cause]. change (get_fi _ w1) with (w_lu w1). pose proof (qu_lu _ _ Hq) as E.
  destruct (li_report _ I) as (e & He & _). rewrite E. destruct (fi_parent _); [|by rewrite E].
  change (fi_parent_term_event (w_lu w0)) with (fi_parent_term_event (v_lu (lu_view_of w))). rewrite He.
  change (fi_terminating (w_lu w1) = true). by rewrite E.
Qed.

(** C12: A Location Updating does not stay undecided: whatever has happened
    before, when its timer expires in the circuit switched domain the procedure
    has ended, and the MSC has its one result. *)
Theorem lu_timer_concludes n q l w :
  lu_fresh w -> lu_request_ok q -> fst (_vlr_loc_update q w) = FsmThis ->
  Forall (fun i => associates i = false) l ->
  is_ps (cfg (vlr_run n (InLocUpdate q :: l) w)) = false ->
  let w' := vlr_run n (InLocUpdate q :: l ++ [InLuTimer]) w in
  fi_terminating (w_lu w') = true /\ length (List.filter is_to_msc (out w')) = 1%nat.
Proof.
  intros Hf Hq Hs Hl Hps w'. destruct (request_lu n q l w Hf Hq Hs Hl) as (I & _).
  assert (Ht : fi_terminating (w_lu w') = true).
  { unfold w', vlr_run. change (InLocUpdate q :: l ++ [InLuTimer]) with ((InLocUpdate q :: l) ++ [InLuTimer]).
    rewrite fold_left_app. cbn [fold_left vlr_handle]. by apply lu_timeout_ends. }
  split; [done|]. destruct (request_lu n q (l ++ [InLuTimer]) w Hf Hq Hs) as (I' & _).
  { apply Forall_app. by repeat constructor. }
  pose proof (li_once _ I') as H. fold w' in H. change (v_lu (lu_view_of w')) with (w_lu w') in H.
  by rewrite Ht in H.
Qed.
End system.

(** ** A concrete Location Updating *)

(** an event of no procedure, for instances that do not exist *)
Definition no_pe : vlr_pe := PeCompl LU_COMPL_VLR_E_START.
Definition no_inst {St : Type} (s : St) : fsm_inst St vlr_pe := mk_fsm_inst St vlr_pe s 0 true false no_pe.

Definition sample_lu_world : world vlr_db :=
  sample_vlr <| w_auth := no_inst VLR_SUB_AS_NEEDS_AUTH |> <| afp := mk_afp true true false false 0 no_pe no_pe no_pe |>
    <| w_pres := no_inst SUB_PRES_VLR_S_INIT |> <| w_compl := no_inst LU_COMPL_VLR_S_INIT |>
    <| lcvp ::= fun p => p <| lcvp_event_success := no_pe |> <| lcvp_event_failure := no_pe |> |>
    <| w_upd := no_inst UPD_HLR_VLR_S_INIT |>.

Definition sample_lu_request : lu_request := {|
  rq_conn := 1; rq_event_success := 1; rq_event_failure := 2; rq_type := VLR_LU_TYPE_IMSI_ATTACH;
  rq_tmsi := GSM_RESERVED_TMSI; rq_imsi := Some sample_imsi; rq_old_lai := mk_lai (262, 42) 6;
  rq_new_lai := mk_lai (262, 42) 7; rq_authentication_required := true;
  rq_is_ciphering_to_be_attempted := true; rq_is_ciphering_required := true; rq_key_seq := 7;
  rq_is_r99 := true; rq_is_utran := false; rq_assign_tmsi := true |}.

(** the HLR gives a vector, the MS answers, ciphers and confirms its TMSI *)
Definition sample_lu_inputs : list vlr_input :=
  [InGsup (empty_gsup OSMO_GSUP_MSGT_SEND_AUTH_INFO_RESULT <| g_imsi := sample_imsi |>
             <| g_auth_vectors := [sample_vec] |>);
   InAuthResp true false (Some (replicate 8 5)) 8; InCiphRes VLR_CIPH_COMPL;
   InGsup (empty_gsup OSMO_GSUP_MSGT_UPDATE_LOCATION_RESULT <| g_imsi := sample_imsi |>);
   InTmsiReallCompl].

Abbreviation sample_lu_run := (vlr_run 6 (InLocUpdate sample_lu_request :: sample_lu_inputs) sample_lu_world).

Lemma sample_lu_fresh : lu_fresh sample_lu_world.
Proof. by repeat constructor. Qed.
Lemma sample_lu_request_ok : lu_request_ok sample_lu_request.
Proof. done. Qed.
Lemma sample_lu_alloc : fst (_vlr_loc_update sample_lu_request sample_lu_world) = FsmThis.
Proof. vm_compute. reflexivity. Qed.

Lemma lu_accepted_only_when_justified_witness :
  exists l1 l2, out sample_lu_run = l1 ++ ToMsc 1 :: l2
  /\ (exists d, FsmEvent (PeLu VLR_ULA_E_AUTH_SUCCESS) d ∈ l2)
  /\ FsmEvent (PeLu VLR_ULA_E_CIPH_RES) (DCiph VLR_CIPH_COMPL) ∈ l2.
Proof.
  exists (take 1 (out sample_lu_run)), (drop 2 (out sample_lu_run)).
  assert (E : out sample_lu_run = take 1 (out sample_lu_run) ++ ToMsc 1 :: drop 2 (out sample_lu_run))
    by (vm_compute; reflexivity).
  split; [exact E|].
  destruct (lu_accepted_only_when_justified 6 sample_lu_request sample_lu_inputs sample_lu_world
    (take 1 (out sample_lu_run)) (ToMsc 1) (drop 2 (out sample_lu_run)) sample_lu_fresh sample_lu_request_ok sample_lu_alloc ltac:(by repeat constructor) E (or_intror eq_refl))
    as (H1 & H2 & _). exact (conj (H1 eq_refl) (H2 eq_refl)).
Defined.

Lemma lu_reports_once_witness :
  length (List.filter is_to_msc (out sample_lu_run))
  = if fi_terminating (w_lu sample_lu_run) then 1%nat else 0%nat.
Proof.
  exact (lu_reports_once 6 sample_lu_request sample_lu_inputs sample_lu_world sample_lu_fresh
    sample_lu_request_ok sample_lu_alloc ltac:(by repeat constructor)).
Defined.

(** the MS does not answer *)
Lemma lu_timer_concludes_witness :
  length (List.filter is_to_msc
    (out (vlr_run 6 [InLocUpdate sample_lu_request; InLuTimer] sample_lu_world))) = 1%nat.
Proof.
  refine (proj2 (lu_timer_concludes 6 sample_lu_request [] sample_lu_world sample_lu_fresh
    sample_lu_request_ok sample_lu_alloc ltac:(by repeat constructor) _)). vm_compute. reflexivity.
Defined.

(** the run is not cut short, and ends with success *)
Lemma sample_lu_run_effects :
  out_of_fuel sample_lu_run = false /\ lu_complete (vsub sample_lu_run) = true
  /\ fi_terminating (w_lu sample_lu_run) = true.
Proof. vm_compute. done. Qed.
