(* ===== verification/CLib.v ===== *)
(** * Functions of the C library

    What the charging code uses of the C library, in the C locale and on a
    64 bit platform: character classes, conversion of numbers from and to
    text, lines of a file, and the calendar.  A C string is a [string] without
    NUL; an octet is a [Z]. *)

From S2P Require Import Prelude.
From Stdlib Require Import Ascii.

(** ** Characters *)

Definition chr_code (c : ascii) : Z := Z.of_N (N_of_ascii c).
Definition chr_of (z : Z) : ascii := ascii_of_N (Z.to_N z).

Definition is_digit (c : ascii) : bool := (48 <=? chr_code c) && (chr_code c <=? 57).
Definition is_space (c : ascii) : bool :=
  (chr_code c =? 32) || ((9 <=? chr_code c) && (chr_code c <=? 13)).
Definition to_lower (c : ascii) : ascii :=
  if (65 <=? chr_code c) && (chr_code c <=? 90) then chr_of (chr_code c + 32) else c.

Definition NUL : ascii := "000"%char.
Definition NL : ascii := "010"%char.
Definition CR : ascii := "013"%char.

(** ** Strings *)

Definition chars : string -> list ascii := String.list_ascii_of_string.
Definition of_chars : list ascii -> string := String.string_of_list_ascii.

(** the string at the beginning of a buffer *)
Fixpoint c_str (l : list ascii) : string :=
  match l with
  | [] => ""
  | c :: l' => if Ascii.eqb c NUL then "" else String c (c_str l')
  end.

Definition str_len (s : string) : Z := Z.of_nat (String.length s).

Fixpoint map_str (f : ascii -> ascii) (s : string) : string :=
  match s with "" => "" | String c s' => String (f c) (map_str f s') end.

(** strcasecmp(a, b) == 0 *)
Definition strcaseeq (a b : string) : bool := String.eqb (map_str to_lower a) (map_str to_lower b).

(** strncmp(s, prefix, strlen(prefix)) == 0 *)
Fixpoint starts_with (prefix s : string) : bool :=
  match prefix, s with
  | "", _ => true
  | String a p, String b s' => Ascii.eqb a b && starts_with p s'
  | _, _ => false
  end.

(** strspn(s, digits) == strlen(s) *)
Fixpoint all_digits (s : string) : bool :=
  match s with "" => true | String c s' => is_digit c && all_digits s' end.

Fixpoint skip_spaces (s : string) : string :=
  match s with
  | String c s' => if is_space c then skip_spaces s' else s
  | "" => ""
  end.

(** s[strcspn(s, reject)] = 0 *)
Fixpoint cut_at (reject : ascii -> bool) (s : string) : string :=
  match s with
  | "" => ""
  | String c s' => if reject c then "" else String c (cut_at reject s')
  end.

(** ** Reading numbers *)

Definition digit_val (c : ascii) : option Z :=
  let z := chr_code c in
  if (48 <=? z) && (z <=? 57) then Some (z - 48)
  else if (97 <=? z) && (z <=? 122) then Some (z - 97 + 10)
  else if (65 <=? z) && (z <=? 90) then Some (z - 65 + 10)
  else None.

(** the value of a digit of this base *)
Definition base_digit (base : Z) (c : ascii) : option Z :=
  match digit_val c with
  | Some d => if d <? base then Some d else None
  | None => None
  end.

(** the digits at the beginning: whether there is one, their value, the rest *)
Fixpoint read_digits (base : Z) (s : string) (seen : bool) (acc : Z) : bool * Z * string :=
  match s with
  | String c s' =>
      match base_digit base c with
      | Some d => read_digits base s' true (acc * base + d)
      | None => (seen, acc, s)
      end
  | "" => (seen, acc, s)
  end.

Definition read_sign (s : string) : bool * string :=
  match s with
  | String "-" s' => (true, s')
  | String "+" s' => (false, s')
  | _ => (false, s)
  end.

(** 0x is skipped when a digit follows *)
Definition skip_0x (base : Z) (s : string) : string :=
  match s with
  | String "0" (String x (String d s')) =>
      if (base =? 16) && (Ascii.eqb x "x" || Ascii.eqb x "X")
         && match base_digit 16 d with Some _ => true | None => false end
      then String d s' else s
  | _ => s
  end.

(** the number and the rest, or [None] when no conversion could be performed *)
Definition read_number (base : Z) (s : string) : option (bool * Z * string) :=
  let '(neg, s1) := read_sign (skip_spaces s) in
  match read_digits base (skip_0x base s1) false 0 with
  | (true, v, rest) => Some (neg, v, rest)
  | (false, _, _) => None
  end.

Definition u64 (z : Z) : Z := z mod 2 ^ 64.
Definition ULONG_MAX : Z := 2 ^ 64 - 1.
Definition LONG_MAX : Z := 2 ^ 63 - 1.
Definition LONG_MIN : Z := - 2 ^ 63.

Definition strtoul (base : Z) (s : string) : option (Z * string) :=
  match read_number base s with
  | Some (neg, v, rest) =>
      Some (if ULONG_MAX <? v then ULONG_MAX else if neg then u64 (- v) else v, rest)
  | None => None
  end.

Definition strtol (base : Z) (s : string) : option (Z * string) :=
  match read_number base s with
  | Some (neg, v, rest) => Some (Z.max LONG_MIN (Z.min LONG_MAX (if neg then - v else v)), rest)
  | None => None
  end.

(** conversion to int *)
Definition s32 (z : Z) : Z := (z + 2 ^ 31) mod 2 ^ 32 - 2 ^ 31.

Definition atoi (s : string) : Z := match strtol 10 s with Some (v, _) => s32 v | None => 0 end.

(** the directive %<width>d of sscanf: white space is skipped, then at most
    [width] characters are taken, with the sign *)
Fixpoint scan_digits (n : nat) (s : string) (seen : bool) (acc : Z) : bool * Z * string :=
  match n, s with
  | S m, String c s' => if is_digit c then scan_digits m s' true (acc * 10 + (chr_code c - 48))
                        else (seen, acc, s)
  | _, _ => (seen, acc, s)
  end.
Definition scan_d (width : nat) (s : string) : option (Z * string) :=
  let s := skip_spaces s in
  let '(neg, s1) := match width with O => (false, s) | S _ => read_sign s end in
  let n := if Nat.eqb (String.length s1) (String.length s) then width else Nat.pred width in
  match scan_digits n s1 false 0 with
  | (true, v, rest) => Some (if neg then - v else v, rest)
  | (false, _, _) => None
  end.

(** the directive %<width>s: white space is skipped, at least one character *)
Fixpoint scan_word_chars (n : nat) (s : string) : string * string :=
  match n, s with
  | S m, String c s' =>
      if is_space c then ("", s)
      else let '(w, r) := scan_word_chars m s' in (String c w, r)
  | _, _ => ("", s)
  end.
Definition scan_s (width : nat) (s : string) : option (string * string) :=
  match scan_word_chars width (skip_spaces s) with
  | ("", _) => None
  | (w, r) => Some (w, r)
  end.

(** ** Writing numbers *)

Definition digit_chr (d : Z) : ascii := chr_of (if d <? 10 then 48 + d else 97 + (d - 10)).

(** digits of a number below [base ^ fuel], most significant first *)
Fixpoint digits_rev (fuel : nat) (base n : Z) : list Z :=
  match fuel with
  | O => []
  | S f => if n <? base then [n] else n mod base :: digits_rev f base (n / base)
  end.
Definition digits_of (base n : Z) : list Z := rev (digits_rev 64 base n).

Definition unsigned_str (base n : Z) : string := of_chars (map digit_chr (digits_of base n)).

(** %d, %ld, %u and %lx *)
Definition fmt_d (z : Z) : string :=
  if z <? 0 then String "-" (unsigned_str 10 (- z)) else unsigned_str 10 z.
Definition fmt_x (z : Z) : string := unsigned_str 16 z.

Fixpoint repeat_chr (n : nat) (c : ascii) : string :=
  match n with O => "" | S m => String c (repeat_chr m c) end.

(** zero padding to [width], after the sign *)
Definition pad0 (width : nat) (s : string) : string :=
  let zeros := repeat_chr (width - String.length s) "0"%char in
  match s with
  | String "-" s' => String "-" (zeros +:+ s')
  | _ => zeros +:+ s
  end.
Definition fmt_0d (width : nat) (z : Z) : string := pad0 width (fmt_d z).
Definition fmt_0x (width : nat) (z : Z) : string := pad0 width (fmt_x z).

(** ** Lines of a file *)

(** fgets(buf, size, f): the characters read, at most [size - 1], up to the end
    of the line; [None] at the end of the file *)
Fixpoint fgets_chars (n : nat) (f : list ascii) : list ascii * list ascii :=
  match n, f with
  | S m, c :: f' =>
      if Ascii.eqb c NL then ([c], f')
      else let '(l, r) := fgets_chars m f' in (c :: l, r)
  | _, _ => ([], f)
  end.
Definition fgets (size : nat) (f : list ascii) : option (string * list ascii) :=
  match f with
  | [] => None
  | _ => let '(l, r) := fgets_chars (size - 1) f in Some (c_str l, r)
  end.

(** all the lines that a loop on fgets sees *)
Fixpoint fgets_all (fuel size : nat) (f : list ascii) : list string :=
  match fuel with
  | O => []
  | S n =>
      match fgets size f with
      | None => []
      | Some (l, r) => l :: fgets_all n size r
      end
  end.

(** ** The calendar *)

#[projections(primitive)]
Record tm : Type := mk_tm {
  tm_year : Z; tm_mon : Z; tm_mday : Z; tm_hour : Z; tm_min : Z; tm_sec : Z; tm_yday : Z
}.

(** days from 1970-01-01 to a day of the proleptic Gregorian calendar; the year
    begins in March *)
Definition days_from_civil (y m d : Z) : Z :=
  let y := if m <=? 2 then y - 1 else y in
  let era := y / 400 in
  let yoe := y - era * 400 in
  let mp := (m + 9) mod 12 in
  let doy := (153 * mp + 2) / 5 + d - 1 in
  let doe := yoe * 365 + yoe / 4 - yoe / 100 + doy in
  era * 146097 + doe - 719468.

(** periods of 400, 100, 4 and 1 years; the last of its kind is the one with
    the leap day *)
Definition civil_from_days (z : Z) : Z * Z * Z :=
  let z := z + 719468 in
  let era := z / 146097 in
  let doe := z mod 146097 in
  let c := Z.min 3 (doe / 36524) in
  let r := doe - c * 36524 in
  let q := r / 1461 in
  let r := r - q * 1461 in
  let n := Z.min 3 (r / 365) in
  let doy := r - n * 365 in
  let y := era * 400 + c * 100 + q * 4 + n in
  let mp := (5 * doy + 2) / 153 in
  let d := doy - (153 * mp + 2) / 5 + 1 in
  let m := if mp <? 10 then mp + 3 else mp - 9 in
  (if m <=? 2 then y + 1 else y, m, d).

(** out-of-range values are carried over *)
Definition timegm (t : tm) : Z :=
  let y := tm_year t + 1900 + tm_mon t / 12 in
  let m := tm_mon t mod 12 + 1 in
  let days := days_from_civil y m 1 + (tm_mday t - 1) in
  days * 86400 + tm_hour t * 3600 + tm_min t * 60 + tm_sec t.

Definition gmtime (t : Z) : tm :=
  let days := t / 86400 in
  let s := t mod 86400 in
  let '(y, m, d) := civil_from_days days in
  {| tm_year := y - 1900; tm_mon := m - 1; tm_mday := d; tm_hour := s / 3600;
     tm_min := s / 60 mod 60; tm_sec := s mod 60; tm_yday := days - days_from_civil y 1 1 |}.
