(* ===== verification/CLibProofs.v ===== *)
(** * Facts about the C library functions

    Proof by exhaustion over octets and characters, lengths of strings, numbers
    that are written and read back, and the calendar. *)

From S2P Require Import Prelude CLib.
From Stdlib Require Import Ascii.

(** ** Exhaustion *)

Fixpoint check_from (n : nat) (z : Z) (P : Z -> bool) : bool :=
  match n with O => true | S m => P z && check_from m (z + 1) P end.
Lemma check_from_spec n a (P : Z -> bool) : check_from n a P = true ->
  forall z, a <= z < a + Z.of_nat n -> P z = true.
Proof.
  revert a. induction n as [|n IH]; intros a H z Hz; [lia|]. cbn [check_from] in H.
  apply andb_true_iff in H as [H1 H2]. destruct (decide (z = a)) as [->|]; [done|].
  apply (IH (a + 1)); [done|lia].
Qed.
Lemma range_cases (n : Z) (P : Z -> bool) :
  check_from (Z.to_nat n) 0 P = true -> forall z, 0 <= z < n -> P z = true.
Proof. intros H z Hz. apply (check_from_spec (Z.to_nat n) 0 P H). lia. Qed.

Lemma ascii_cases (P : ascii -> bool) : forallb P (map chr_of (seqZ 0 256)) = true -> forall c, P c = true.
Proof.
  intros H c. rewrite forallb_forall in H. apply H. apply list_elem_of_In, list_elem_of_fmap.
  exists (chr_code c). split.
  - unfold chr_of, chr_code. by rewrite N2Z.id, ascii_N_embedding.
  - apply elem_of_seqZ. unfold chr_code. pose proof (N_ascii_bounded c). lia.
Qed.

(** ** Lengths *)

Lemma str_length_app a b : String.length (a +:+ b) = (String.length a + String.length b)%nat.
Proof. induction a as [|c a IH]; [done|]. exact (f_equal S IH). Qed.
Lemma chars_length s : length (chars s) = String.length s.
Proof. induction s as [|c s IH]; cbn; [done|]. by rewrite IH. Qed.
Lemma substring_length n s : String.length (String.substring 0 n s) = Nat.min n (String.length s).
Proof. revert s. induction n as [|n IH]; intros [|c s]; cbn; try done. by rewrite IH. Qed.
Lemma pad0_length n s : (n <= String.length (pad0 n s))%nat.
Proof.
  assert (Hr : forall m ch, String.length (repeat_chr m ch) = m) by (induction m; cbn; auto).
  assert (H : forall a, a = s -> (n <= String.length (repeat_chr (n - String.length s) "0"%char +:+ a))%nat).
  { intros a ->. rewrite str_length_app, Hr. lia. }
  unfold pad0. destruct s as [|c s']; [by apply H|].
  destruct (Ascii.eqb_spec c "-") as [->|Hc].
  - cbn. rewrite str_length_app, Hr. lia.
  - specialize (H _ eq_refl). destruct c as [[] [] [] [] [] [] [] []]; exact H || done.
Qed.

(** ** Numbers of a fixed width *)

(** [s] is [n] decimal digits with the value [z] *)
Fixpoint digits_ok (n : nat) (acc : Z) (s : string) (z : Z) : bool :=
  match n, s with
  | O, "" => acc =? z
  | S m, String c s' => is_digit c && digits_ok m (acc * 10 + (chr_code c - 48)) s' z
  | _, _ => false
  end.

Lemma digit_plain c : is_digit c = true ->
  is_space c = false /\ Ascii.eqb c "-" = false /\ Ascii.eqb c "+" = false.
Proof.
  intros Hd. pose proof (ascii_cases (fun c => implb (is_digit c)
    (negb (is_space c) && negb (Ascii.eqb c "-") && negb (Ascii.eqb c "+"))) ltac:(by vm_compute) c) as H.
  cbv beta in H. rewrite Hd in H. cbn [implb] in H.
  apply andb_true_iff in H as [H H3]. apply andb_true_iff in H as [H1 H2].
  by rewrite !negb_true_iff in *.
Qed.
Lemma read_sign_digit c s : is_digit c = true -> read_sign (String c s) = (false, String c s).
Proof.
  intros (_ & H1 & H2)%digit_plain. apply Ascii.eqb_neq in H1, H2.
  destruct c as [[] [] [] [] [] [] [] []]; done.
Qed.

Lemma scan_digits_ok n acc s z rest seen : digits_ok n acc s z = true -> seen = true \/ n <> O ->
  scan_digits n (s +:+ rest) seen acc = (true, z, rest).
Proof.
  revert acc s seen. induction n as [|n IH]; intros acc [|c s] seen H Hs; try done.
  - cbn in H. apply Z.eqb_eq in H as ->. destruct Hs as [->|]; [|done]. by destruct rest.
  - cbn [digits_ok] in H. apply andb_true_iff in H as [Hd H].
    change (String c s +:+ rest) with (String c (s +:+ rest)). cbn [scan_digits]. rewrite Hd.
    apply IH; [done|by left].
Qed.
Lemma scan_d_ok n s z rest : digits_ok (S n) 0 s z = true -> scan_d (S n) (s +:+ rest) = Some (z, rest).
Proof.
  intros H. pose proof (scan_digits_ok (S n) 0 s z rest false H (or_intror (Nat.neq_succ_0 n))) as E.
  destruct s as [|c s]; [done|]. cbn [digits_ok] in H. apply andb_true_iff in H as [Hd _].
  unfold scan_d. change (String c s +:+ rest) with (String c (s +:+ rest)) in *.
  cbn [skip_spaces]. destruct (digit_plain c Hd) as (-> & _). rewrite read_sign_digit by done.
  rewrite Nat.eqb_refl, E. done.
Qed.

Lemma fmt_0d_2 z : 0 <= z < 100 -> digits_ok 2 0 (fmt_0d 2 z) z = true.
Proof. apply (range_cases 100 (fun z => digits_ok 2 0 (fmt_0d 2 z) z)). by vm_compute. Qed.
Lemma fmt_0d_4 z : 0 <= z < 10000 -> digits_ok 4 0 (fmt_0d 4 z) z = true.
Proof. apply (range_cases 10000 (fun z => digits_ok 4 0 (fmt_0d 4 z) z)). by vm_compute. Qed.

(** ** The calendar *)

(** month and day of a day of the year that begins in March *)
Definition doy_ok (doy : Z) : bool :=
  let mp := (5 * doy + 2) / 153 in
  let d := doy - (153 * mp + 2) / 5 + 1 in
  let m := if mp <? 10 then mp + 3 else mp - 9 in
  (1 <=? m) && (m <=? 12) && (1 <=? d) && (d <=? 31) && ((m + 9) mod 12 =? mp)
  && implb (doy <=? 305) (2 <? m).
Lemma doy_all doy : 0 <= doy < 366 -> doy_ok doy = true.
Proof. apply (range_cases 366 doy_ok). by vm_compute. Qed.

(** the day of the period of 400 years is taken apart *)
Lemma doe_parts doe : 0 <= doe < 146097 ->
  let c := Z.min 3 (doe / 36524) in
  let q := (doe - c * 36524) / 1461 in
  let n := Z.min 3 ((doe - c * 36524 - q * 1461) / 365) in
  let yoe := c * 100 + q * 4 + n in
  let doy := doe - c * 36524 - q * 1461 - n * 365 in
  0 <= yoe < 400 /\ 0 <= doy < 366 /\ yoe * 365 + yoe / 4 - yoe / 100 + doy = doe
  /\ (doe <= 146036 -> yoe = 399 -> doy <= 305).
Proof.
  intros H c q n yoe doy.
  assert (Hc : 0 <= c <= 3 /\ 0 <= doe - c * 36524 < 36525).
  { unfold c. pose proof (Z.div_mod doe 36524). pose proof (Z.mod_pos_bound doe 36524). lia. }
  set (r := doe - c * 36524) in *. assert (Er : doe = c * 36524 + r) by lia. clearbody r c.
  assert (Hq : 0 <= q <= 24 /\ 0 <= r - q * 1461 < 1461).
  { unfold q. pose proof (Z.div_mod r 1461). pose proof (Z.mod_pos_bound r 1461). lia. }
  assert (Hr : r = q * 1461 + (r - q * 1461)) by lia. set (t := r - q * 1461) in *. clearbody t q.
  assert (Hn : 0 <= n <= 3 /\ 0 <= t - n * 365 < 366).
  { unfold n. pose proof (Z.div_mod t 365). pose proof (Z.mod_pos_bound t 365). lia. }
  clearbody n.
  assert (E4 : yoe / 4 = c * 25 + q).
  { unfold yoe. symmetry. apply Z.div_unique with (r := n); lia. }
  assert (E100 : yoe / 100 = c).
  { unfold yoe. symmetry. apply Z.div_unique with (r := q * 4 + n); lia. }
  rewrite E4, E100. unfold yoe, doy in *. lia.
Qed.

Lemma civil_roundtrip z y m d : civil_from_days z = (y, m, d) ->
  days_from_civil y m d = z /\ 1 <= m <= 12 /\ 1 <= d <= 31
  /\ (0 <= z < 2932897 -> 1600 <= y <= 9999).
Proof.
  unfold civil_from_days. cbv zeta. set (z' := z + 719468). set (era := z' / 146097).
  assert (Hz' : z' = era * 146097 + z' mod 146097) by (unfold era; pose proof (Z.div_mod z' 146097); lia).
  assert (Hdoe : 0 <= z' mod 146097 < 146097) by (apply Z.mod_pos_bound; lia).
  set (doe := z' mod 146097) in *. pose proof (doe_parts doe Hdoe) as Hp. cbv zeta in Hp.
  set (c := Z.min 3 (doe / 36524)) in *. set (q := (doe - c * 36524) / 1461) in *.
  set (n := Z.min 3 ((doe - c * 36524 - q * 1461) / 365)) in *.
  set (doy := doe - c * 36524 - q * 1461 - n * 365) in *.
  destruct Hp as (Hyoe & Hdoy & Hsum & Hlast).
  pose proof (doy_all doy Hdoy) as Hok. unfold doy_ok in Hok. cbv zeta in Hok.
  set (mp := (5 * doy + 2) / 153) in *. set (dd := doy - (153 * mp + 2) / 5 + 1) in *.
  set (mm := if mp <? 10 then mp + 3 else mp - 9) in *. intros [= <- <- <-].
  rewrite !andb_true_iff in Hok. destruct Hok as (((((H1 & H2) & H3) & H4) & H5) & H6).
  apply Z.eqb_eq in H5.
  replace (era * 400 + c * 100 + q * 4 + n) with (c * 100 + q * 4 + n + era * 400) by lia.
  set (yoe := c * 100 + q * 4 + n) in *. split_and!; try lia.
  - unfold days_from_civil. cbv zeta.
    assert (Ey : (if mm <=? 2 then (if mm <=? 2 then yoe + era * 400 + 1 else yoe + era * 400) - 1
                  else if mm <=? 2 then yoe + era * 400 + 1 else yoe + era * 400) = yoe + era * 400)
      by (destruct (mm <=? 2); lia).
    rewrite Ey, H5. assert (Ee : (yoe + era * 400) / 400 = era).
    { rewrite Z.div_add by lia. rewrite Z.div_small; lia. }
    rewrite Ee. replace (yoe + era * 400 - era * 400) with yoe by lia. lia.
  - intros Hz. assert (He : 4 <= era <= 24).
    { unfold era. split; [apply Z.div_le_lower_bound; lia|].
      apply Z.lt_succ_r. apply Z.div_lt_upper_bound; lia. }
    assert (Hm : era = 24 -> yoe = 399 -> 2 < mm).
    { intros Ha Hb. specialize (Hlast ltac:(lia) Hb). rewrite (proj2 (Z.leb_le _ _) Hlast) in H6. cbn in H6. lia. }
    destruct (Z.leb_spec mm 2); lia.
Qed.

(** a date that exists *)
Definition tm_ok (t : tm) : Prop :=
  0 <= tm_mon t < 12 /\ 1 <= tm_mday t <= 31 /\ 0 <= tm_hour t < 24 /\ 0 <= tm_min t < 60
  /\ 0 <= tm_sec t < 60.

Lemma timegm_gmtime t : timegm (gmtime t) = t /\ tm_ok (gmtime t)
  /\ (0 <= t < 253402300800 -> 1600 <= tm_year (gmtime t) + 1900 <= 9999).
Proof.
  unfold gmtime. destruct (civil_from_days (t / 86400)) as [[y m] d] eqn:E.
  apply civil_roundtrip in E as (E & Hm & Hd & Hy).
  assert (Hs : 0 <= t mod 86400 < 86400) by (apply Z.mod_pos_bound; lia).
  pose proof (Z.div_mod t 86400 ltac:(lia)) as Ht. set (s := t mod 86400) in *. set (days := t / 86400) in *.
  unfold timegm, tm_ok. cbn [tm_year tm_mon tm_mday tm_hour tm_min tm_sec].
  split; [|split].
  - rewrite (Z.div_small (m - 1) 12), (Z.mod_small (m - 1) 12) by lia.
    replace (y - 1900 + 1900 + 0) with y by lia. replace (m - 1 + 1) with m by lia.
    assert (Ed : days_from_civil y m 1 + (d - 1) = days_from_civil y m d) by (unfold days_from_civil; lia).
    rewrite Ed, E.
    assert (Es : s / 3600 * 3600 + s / 60 mod 60 * 60 + s mod 60 = s).
    { pose proof (Z.div_mod s 60). pose proof (Z.div_mod (s / 60) 60).
      rewrite Z.div_div in * by lia. change (60 * 60) with 3600 in *. lia. }
    lia.
  - split_and!; try lia.
    + by apply Z.div_pos; lia.
    + apply Z.div_lt_upper_bound; lia.
    + apply Z.mod_pos_bound; lia.
    + apply Z.mod_pos_bound; lia.
    + apply Z.mod_pos_bound; lia.
    + apply Z.mod_pos_bound; lia.
  - intros Hr. assert (0 <= days < 2932897); [|lia].
    unfold days. split; [apply Z.div_pos; lia|apply Z.div_lt_upper_bound; lia].
Qed.
