(* ===== verification/HuaweiBer.v ===== *)
(** * BER writer (src/osmo-msc-cdrenc/huawei_ber.c)

    The buffer that grows, and what is written to it: tags, lengths, integers,
    digits, times and call references. *)

From S2P Require Import Prelude CLib.
From Stdlib Require Import Ascii.

(** struct ber_buf: the octets [data[0..len)] and the size of the allocation *)
#[projections(primitive)]
Record ber_buf : Type := mk_ber_buf { bb_data : list Z; bb_cap : Z }.

Definition bb_len (b : ber_buf) : Z := Z.of_nat (length (bb_data b)).

(** while (cap < need) cap *= 2; on a [size_t].  [None]: not finished within
    [fuel] rounds. *)
Fixpoint double_until (fuel : nat) (cap need : Z) : option Z :=
  if cap <? need then
    match fuel with
    | O => None
    | S f => double_until f (u64 (cap * 2)) need
    end
  else Some cap.

(** Rounds from 256 to 2 ^ 63 *)
Definition GROW_ROUNDS : nat := 55.

(** realloc() keeps the octets; the program aborts when it fails *)
Definition ber_grow (add : Z) (b : ber_buf) : ber_buf :=
  let need := u64 (bb_len b + add) in
  let cap := if bb_cap b =? 0 then 256 else bb_cap b in
  if need <=? bb_cap b then b
  else match double_until GROW_ROUNDS cap need with
       | Some cap => b <| bb_cap := cap |>
       | None => b
       end.

Definition ber_init : ber_buf := mk_ber_buf [] 0.

Definition ber_raw (data : list Z) (b : ber_buf) : ber_buf :=
  match data with
  | [] => b
  | _ => ber_grow (Z.of_nat (length data)) b <| bb_data ::= fun d => d ++ data |>
  end.

(** the octets on [stack], the last one pushed first; an [int] has at most five
    groups of seven bits *)
Fixpoint tag_stack (fuel : nat) (tag : Z) (stack : list Z) : list Z :=
  match fuel with
  | O => stack
  | S f =>
      if 0 <? tag
      then tag_stack f (Z.shiftr tag 7) (u8 (Z.lor (Z.land tag 0x7f) 0x80) :: stack)
      else stack
  end.
Definition TAG_ROUNDS : nat := 5.

Definition ber_tag (tag_class : Z) (constructed : bool) (tag : Z) (b : ber_buf) : ber_buf :=
  let first := u8 (Z.lor (Z.shiftl tag_class 6) (if constructed then 0x20 else 0)) in
  if tag <? 31 then ber_raw [u8 (Z.lor first tag)] b
  else
    let b := ber_raw [u8 (Z.lor first 0x1f)] b in
    let stack := tag_stack TAG_ROUNDS (Z.shiftr tag 7) [u8 (Z.land tag 0x7f)] in
    fold_left (fun b o => ber_raw [o] b) stack b.

(** the octets of a number, most significant first, as they are popped *)
Fixpoint octet_stack (fuel : nat) (t : Z) (stack : list Z) : list Z :=
  match fuel with
  | O => stack
  | S f => if t =? 0 then stack else octet_stack f (Z.shiftr t 8) (u8 (Z.land t 0xff) :: stack)
  end.
Definition LEN_ROUNDS : nat := 8.

Definition ber_length (len : Z) (b : ber_buf) : ber_buf :=
  if len <? 128 then ber_raw [u8 len] b
  else
    let tmp := octet_stack LEN_ROUNDS len [] in
    let b := ber_raw [u8 (Z.lor 0x80 (Z.of_nat (length tmp)))] b in
    fold_left (fun b o => ber_raw [o] b) tmp b.

Definition ber_ctx_prim (tag : Z) (data : list Z) (b : ber_buf) : ber_buf :=
  match data with
  | [] => b
  | _ => ber_raw data (ber_length (Z.of_nat (length data)) (ber_tag 2 false tag b))
  end.

(** the value is an [int] and is read as [unsigned int] *)
Definition encode_int (value : Z) : list Z :=
  if value =? 0 then [0]
  else
    let tmp := octet_stack 4 (u32 value) [] in
    match tmp with
    | top :: _ => if negb (Z.land top 0x80 =? 0) then 0 :: tmp else tmp
    | [] => tmp
    end.

Definition ber_ctx_int (tag value : Z) (b : ber_buf) : ber_buf :=
  ber_ctx_prim tag (encode_int value) b.

Definition ber_wrap_ctx (tag : Z) (inner outer : ber_buf) : ber_buf :=
  match bb_data inner with
  | [] => outer
  | data => ber_raw data (ber_length (bb_len inner) (ber_tag 2 true tag outer))
  end.

(** ** Digits *)

Definition nibble (c : ascii) : Z :=
  let z := chr_code c in
  if (48 <=? z) && (z <=? 57) then z - 48
  else if (97 <=? z) && (z <=? 102) then z - 97 + 10
  else if (65 <=? z) && (z <=? 70) then z - 65 + 10
  else 15.

(** the loop over the digits; [n] places are left in hex[] *)
Fixpoint tbcd_hex (n : nat) (digits : string) : list ascii :=
  match n, digits with
  | S m, String c s =>
      if is_digit c then c :: tbcd_hex m s
      else if Ascii.eqb c "*" then "a"%char :: tbcd_hex m s
      else if Ascii.eqb c "#" then "b"%char :: tbcd_hex m s
      else tbcd_hex n s
  | _, _ => []
  end.

(** pairs of characters, [f] on each *)
Fixpoint pairs {A : Type} (f : ascii -> ascii -> A) (l : list ascii) : list A :=
  match l with
  | a :: b :: l' => f a b :: pairs f l'
  | _ => []
  end.

(** sizeof(hex) - 1 *)
Definition TBCD_MAX : nat := 63.

(** the octets written to out[], none when the function returns 0 *)
Definition ber_tbcd_digits (outl : nat) (digits : string) : list Z :=
  let hex := tbcd_hex TBCD_MAX digits in
  let hex := if Nat.odd (length hex) then hex ++ ["f"%char] else hex in
  if Nat.ltb outl (length hex / 2) then []
  else pairs (fun a b => u8 (Z.lor (Z.shiftl (nibble b) 4) (nibble a))) hex.

Definition ber_tbcd_number (outl : nat) (digits : string) (ton_npi : Z) : list Z :=
  match ber_tbcd_digits 32 digits with
  | [] => []
  | tmp => if Nat.ltb outl (length tmp + 1) then [] else ton_npi :: tmp
  end.

Definition ber_hex_bytes (outl : nat) (hex : string) : list Z :=
  let n := String.length hex in
  if Nat.eqb n 0 then []
  else if Nat.odd n && Nat.ltb 128 (n + 2) then []
  else
    let l := if Nat.odd n then "0"%char :: chars hex else chars hex in
    if Nat.ltb outl (length l / 2) then []
    else pairs (fun a b => u8 (Z.lor (Z.shiftl (nibble a) 4) (nibble b))) l.

(** ** Times *)

Definition ber_parse_csv_time (s : string) : option tm :=
  if Nat.ltb (String.length s) 14 then None
  else
    match scan_d 4 s with
    | None => None
    | Some (y, s) =>
    match scan_d 2 s with
    | None => None
    | Some (mo, s) =>
    match scan_d 2 s with
    | None => None
    | Some (d, s) =>
    match scan_d 2 s with
    | None => None
    | Some (h, s) =>
    match scan_d 2 s with
    | None => None
    | Some (mi, s) =>
    match scan_d 2 s with
    | None => None
    | Some (se, _) => Some (mk_tm (y - 1900) (mo - 1) d h mi se 0)
    end end end end end end.

Definition ber_timestamp (outl : nat) (utc : tm) (tz_hex : string) : list Z :=
  let hex := fmt_0d 2 (Z.rem (tm_year utc + 1900) 100) +:+ fmt_0d 2 (tm_mon utc + 1)
             +:+ fmt_0d 2 (tm_mday utc) +:+ fmt_0d 2 (tm_hour utc) +:+ fmt_0d 2 (tm_min utc)
             +:+ fmt_0d 2 (tm_sec utc) +:+ (if str_nonempty tz_hex then tz_hex else "2b0000") in
  ber_hex_bytes outl (strlcpy 32 hex).

(** ** Fields *)

Definition ber_ctx_tbcd (tag : Z) (digits : string) (b : ber_buf) : ber_buf :=
  ber_ctx_prim tag (ber_tbcd_digits 32 digits) b.

Definition ber_ctx_isdn (tag : Z) (digits : string) (b : ber_buf) : ber_buf :=
  ber_ctx_prim tag (ber_tbcd_number 33 digits 0x91) b.

Definition ber_ctx_time_csv (tag : Z) (yyyymmddhhmmss tz_hex : string) (b : ber_buf) : ber_buf :=
  match ber_parse_csv_time yyyymmddhhmmss with
  | None => b
  | Some tm => ber_ctx_prim tag (ber_timestamp 16 tm tz_hex) b
  end.

(** the value of a call reference, if it has one *)
Definition callref_value (hex_or_num : string) : option Z :=
  let s := match hex_or_num with
           | String "0" (String "x" s') | String "0" (String "X" s') => s'
           | s => s
           end in
  match strtoul 16 s with
  | Some (v, "") => Some v
  | _ => match strtoul 10 s with Some (v, _) => Some v | None => None end
  end.

Definition ber_ctx_callref (tag : Z) (hex_or_num : string) (b : ber_buf) : ber_buf :=
  if str_empty hex_or_num then b
  else
    match callref_value hex_or_num with
    | None => b
    | Some v => ber_ctx_prim tag (ber_hex_bytes 16 (strlcpy 32 (fmt_x v))) b
    end.

Definition ber_ctx_ascii (tag : Z) (text : string) (b : ber_buf) : ber_buf :=
  ber_ctx_prim tag (map chr_code (chars text)) b.
