(* ===== verification/CdrEnc.v ===== *)
(** * The CDR encoder (src/osmo-msc-cdrenc/cdrenc_main.c)

    Configuration, rows of a CSV ticket file, one BER record per row, and the
    file with header, records and trailer.  Directories and the polling loop
    are not modelled. *)

From S2P Require Import Prelude CLib HuaweiBer.
From Stdlib Require Import Ascii.

Definition MAX_COLS : nat := 80.
Definition MAX_ROUTES : nat := 32.
Definition LINE_MAX_LEN : nat := 4096.
Definition PATH_MAX : nat := 4096.

#[projections(primitive)]
Record route : Type := mk_route { prefix : string; name : string }.

#[projections(primitive)]
Record enc_cfg : Type := mk_enc_cfg {
  csv_dir : string; csv_pattern : string; output_dir : string; done_dir : string;
  entity : string; file_prefix : string; timezone : string;
  poll_seconds : Z; seq : Z; routes : list route
}.

Definition cfg_defaults : enc_cfg := {|
  csv_dir := "/var/log"; csv_pattern := "osmo-msc.cdr.*";
  output_dir := "/var/lib/osmocom/huawei-cdr"; done_dir := "/var/log/osmo-msc-cdr-done";
  entity := "0000"; file_prefix := "bA"; timezone := "2b0000"; poll_seconds := 10; seq := 1;
  routes := [] |}.

(** ** Rows: struct row, pairs of column name and value *)

Definition row : Type := list (string * string).

Fixpoint row_get (r : row) (key : string) : string :=
  match r with
  | [] => ""
  | (k, v) :: r' => if strcaseeq k key then v else row_get r' key
  end.

Definition row_int (r : row) (key : string) (def : Z) : Z :=
  let s := row_get r key in
  if str_empty s then def
  else match strtol 10 s with Some (v, _) => s32 v | None => def end.

(** strchr(p, ','): the string up to it and behind it *)
Fixpoint at_comma (s : string) : string * option string :=
  match s with
  | "" => ("", None)
  | String c s' =>
      if Ascii.eqb c "," then ("", Some s')
      else let '(a, r) := at_comma s' in (String c a, r)
  end.

Fixpoint split_csv (max : nat) (p : string) : list string :=
  match max with
  | O => []
  | S m =>
      let '(field, rest) := at_comma p in
      field :: match rest with None => [] | Some p' => split_csv m p' end
  end.

(** the loop that pairs header and columns *)
Definition make_row (hdr cols : list string) : row := take MAX_COLS (zip hdr cols).

(** ** Routes and entity *)

(** the longest prefix; the first one of several of the same length *)
Definition route_step (number : string) (acc : Z * string) (rt : route) : Z * string :=
  let '(best, nm) := acc in
  let pl := str_len (prefix rt) in
  if starts_with (prefix rt) number && (best <? pl) then (pl, name rt) else (best, nm).

Definition route_for (c : enc_cfg) (number fallback : string) : string :=
  let '(best, nm) := fold_left (route_step number) (routes c) (-1, "") in
  if (0 <=? best) && str_nonempty nm then nm else fallback.

(** the digits of [src], at most [n] *)
Fixpoint only_digits (n : nat) (src : string) : string :=
  match n, src with
  | S m, String c s => if is_digit c then String c (only_digits m s) else only_digits n s
  | _, _ => ""
  end.

(** sizeof(entity) *)
Definition ENTITY_SIZE : nat := 32.

Definition digit_entity (c : enc_cfg) (r : row) : string :=
  if str_nonempty (entity c) && all_digits (entity c) then strlcpy ENTITY_SIZE (entity c)
  else
    let out := only_digits (ENTITY_SIZE - 1) (row_get r "recording_entity") in
    if str_empty out then "0000" else out.

(** ** Parts of a record *)

(** snprintf(hex, 8, "%04x", v & 0xffff) and its octets *)
Definition hex16 (v : Z) : list Z := ber_hex_bytes 4 (strlcpy 8 (fmt_0x 4 (Z.land v 0xffff))).

Definition write_location (tag : Z) (r : row) (w : ber_buf) : ber_buf :=
  let lac := row_int r "lac" 0 in
  let ci := row_int r "ci" 0 in
  if (lac =? 0) && (ci =? 0) then w
  else
    let inner := ber_ctx_prim 0 (hex16 lac) ber_init in
    let inner := ber_ctx_prim 1 (hex16 ci) inner in
    ber_wrap_ctx tag inner w.

Definition write_lu_location (tag : Z) (r : row) (w : ber_buf) : ber_buf :=
  let lac := row_int r "lac" 0 in
  let ci := row_int r "ci" 0 in
  if (lac =? 0) && (ci =? 0) then w
  else
    let inner := ber_ctx_prim 2 (hex16 lac) ber_init in
    let inner := ber_ctx_prim 3 (hex16 ci) inner in
    ber_wrap_ctx tag inner w.

Definition write_route (tag : Z) (nm : string) (w : ber_buf) : ber_buf :=
  if str_empty nm then w else ber_wrap_ctx tag (ber_ctx_ascii 1 nm ber_init) w.

(** the fields that a record of a type has, in the order in which they are written *)
Definition record_fields (c : enc_cfg) (r : row) (type : Z) : list (ber_buf -> ber_buf) :=
  let incoming := row_get r "incoming_route" in
  let outgoing := route_for c (row_get r "called_number") (row_get r "outgoing_route") in
  let tz := timezone c in
  let ent := digit_entity c r in
  let tbcd tag key := ber_ctx_tbcd tag (row_get r key) in
  let isdn tag key := ber_ctx_isdn tag (row_get r key) in
  let time tag key := ber_ctx_time_csv tag (row_get r key) tz in
  let num tag key := ber_ctx_int tag (row_int r key 0) in
  let callref tag key := ber_ctx_callref tag (row_get r key) in
  let text tag key := ber_ctx_ascii tag (row_get r key) in
  match type with
  | 0 =>
      [tbcd 1 "served_imsi"; tbcd 2 "served_imei"; isdn 3 "served_msisdn";
       isdn 4 "calling_number"; isdn 5 "called_number"; isdn 6 "translated_number";
       isdn 7 "connected_number"; ber_ctx_isdn 9 ent; write_route 10 incoming;
       write_route 11 outgoing; write_location 12 r; time 22 "seizure_time";
       time 23 "answer_time"; time 24 "release_time"; num 25 "call_duration";
       num 30 "cause_for_term"; callref 32 "call_reference"; callref 38 "network_call_reference";
       ber_ctx_isdn 39 ent; num 61 "system_type"; text 188 "global_area_id";
       tbcd 192 "first_mccmnc"; tbcd 194 "last_mccmnc"; time 201 "setup_time";
       time 202 "alerting_time"; num 232 "record_number"]
  | 1 =>
      [tbcd 1 "served_imsi"; tbcd 2 "served_imei"; isdn 3 "served_msisdn";
       isdn 4 "calling_number"; isdn 5 "connected_number"; ber_ctx_isdn 6 ent;
       write_route 7 incoming; write_route 8 outgoing; write_location 9 r;
       time 19 "seizure_time"; time 20 "answer_time"; time 21 "release_time";
       num 22 "call_duration"; num 27 "cause_for_term"; callref 29 "call_reference";
       callref 33 "network_call_reference"; ber_ctx_isdn 34 ent; num 46 "system_type";
       text 188 "global_area_id"; tbcd 192 "first_mccmnc"; tbcd 194 "last_mccmnc";
       time 203 "setup_time"; time 204 "alerting_time"; isdn 205 "called_number";
       num 232 "record_number"]
  | 6 =>
      [tbcd 1 "served_imsi"; tbcd 2 "served_imei"; isdn 3 "served_msisdn";
       isdn 5 "service_centre"; ber_ctx_isdn 6 ent; write_location 7 r;
       time 9 "origination_time"; isdn 12 "destination_number"; num 14 "system_type";
       text 188 "global_area_id"; tbcd 192 "first_mccmnc"; callref 201 "call_reference";
       num 232 "record_number"]
  | 7 =>
      [isdn 1 "service_centre"; tbcd 2 "served_imsi"; tbcd 3 "served_imei";
       isdn 4 "served_msisdn"; ber_ctx_isdn 6 ent; write_location 7 r; time 8 "delivery_time";
       num 11 "system_type"; text 188 "global_area_id"; tbcd 192 "first_mccmnc";
       isdn 201 "origination"; callref 202 "call_reference"; num 232 "record_number"]
  | 10 =>
      [tbcd 1 "served_imsi"; tbcd 2 "served_imei"; isdn 3 "served_msisdn"; ber_ctx_isdn 5 ent;
       write_location 6 r; time 10 "seizure_time"; callref 13 "call_reference";
       num 232 "record_number"]
  | 13 =>
      [tbcd 1 "served_imsi"; isdn 2 "served_msisdn"; ber_ctx_isdn 3 ent; write_lu_location 5 r;
       time 7 "seizure_time"; callref 12 "call_reference"; num 232 "record_number"]
  | _ => []
  end.

Definition write_all (fs : list (ber_buf -> ber_buf)) (w : ber_buf) : ber_buf :=
  fold_left (fun w f => f w) fs w.

Definition fill_record (c : enc_cfg) (r : row) (type : Z) (w : ber_buf) : ber_buf :=
  write_all (record_fields c r type) (ber_ctx_int 0 type w).

(** ** The file *)

(** [first] and [last] are 0 while no time has been noted *)
Definition note_time (s : string) (is_first : bool) (acc : Z * Z) : Z * Z :=
  let '(first, last) := acc in
  match ber_parse_csv_time s with
  | None => acc
  | Some tm =>
      let t := timegm tm in
      if t =? -1 then acc
      else if is_first then ((if (first =? 0) || (t <? first) then t else first), last)
      else (first, if last <? t then t else last)
  end.

(** what the loop over the lines accumulates *)
#[projections(primitive)]
Record enc_acc : Type := mk_enc_acc {
  ea_recs : ber_buf; ea_times : Z * Z; ea_nrows : Z; ea_entity : string
}.

Definition encode_row (c : enc_cfg) (hdr : list string) (line : string) (a : enc_acc) : enc_acc :=
  let line := cut_at (fun ch => Ascii.eqb ch CR || Ascii.eqb ch NL) line in
  if str_empty line then a
  else
    let r := make_row hdr (split_csv MAX_COLS line) in
    let type := row_int r "record_type" 0 in
    let times := note_time (row_get r "seizure_time") true (ea_times a) in
    let times := note_time (row_get r "release_time") false times in
    let times := note_time (row_get r "origination_time") true times in
    let times := note_time (row_get r "delivery_time") false times in
    let ent := if ea_nrows a =? 0 then digit_entity c r else ea_entity a in
    let rec_body := fill_record c r type ber_init in
    let rec := ber_wrap_ctx type rec_body ber_init in
    mk_enc_acc (ber_raw (bb_data rec) (ea_recs a)) times (ea_nrows a + 1) ent.

Definition encode_rows (c : enc_cfg) (hdr lines : list string) : enc_acc :=
  fold_left (fun a l => encode_row c hdr l a) lines (mk_enc_acc ber_init (0, 0) 0 "0000").

(** the octets of the file *)
Definition encode_body (c : enc_cfg) (now : Z) (a : enc_acc) : ber_buf :=
  let '(first, last) := ea_times a in
  let first := if first =? 0 then now else first in
  let last := if last =? 0 then first else last in
  let ts t := ber_timestamp 16 (gmtime t) (timezone c) in
  let header := ber_ctx_prim 0 (ts now) ber_init in
  let header := ber_ctx_isdn 1 (ea_entity a) header in
  let trailer := ber_ctx_prim 0 (ts now) ber_init in
  let trailer := ber_ctx_isdn 1 (ea_entity a) trailer in
  let trailer := ber_ctx_prim 2 (ts first) trailer in
  let trailer := ber_ctx_prim 3 (ts last) trailer in
  let trailer := ber_ctx_int 4 (ea_nrows a) trailer in
  let body := ber_wrap_ctx 0 header ber_init in
  let body := ber_wrap_ctx 1 (ea_recs a) body in
  let body := ber_wrap_ctx 2 trailer body in
  ber_raw (bb_data body) (ber_length (bb_len body) (ber_tag 0 true 16 ber_init)).

Definition out_name (c : enc_cfg) (now : Z) : string :=
  let t := gmtime now in
  file_prefix c +:+ fmt_0d 2 (Z.rem (tm_year t + 1900) 100) +:+ fmt_0d 2 (tm_mon t + 1)
  +:+ fmt_0d 2 (tm_mday t) +:+ fmt_0d 2 (tm_hour t) +:+ fmt_0d 2 (tm_min t)
  +:+ fmt_0d 4 (seq c) +:+ ".dat".

Inductive enc_error : Type := ErrOpenCsv | ErrEmpty | ErrNoRows | ErrMkdir | ErrWrite.

(** [csv]: the octets of the file if it can be opened; [mkdir_ok], [open_ok]:
    whether the output directory can be made and the output file opened.  The
    file name and its octets, and the configuration with the next number. *)
Definition encode_file (c : enc_cfg) (csv : option (list ascii)) (now : Z) (mkdir_ok open_ok : bool)
  : (enc_error + string * list Z) * enc_cfg :=
  match csv with
  | None => (inl ErrOpenCsv, c)
  | Some f =>
      match fgets LINE_MAX_LEN f with
      | None => (inl ErrEmpty, c)
      | Some (header_line, rest) =>
          let hdr := split_csv MAX_COLS
                       (cut_at (fun ch => Ascii.eqb ch CR || Ascii.eqb ch NL) header_line) in
          let a := encode_rows c hdr (fgets_all (length rest) LINE_MAX_LEN rest) in
          if ea_nrows a =? 0 then (inl ErrNoRows, c)
          else
            let file := encode_body c now a in
            if negb mkdir_ok then (inl ErrMkdir, c)
            else
              let path := strlcpy PATH_MAX (output_dir c +:+ "/" +:+ strlcpy PATH_MAX (out_name c now)) in
              let c := c <| seq ::= fun n => s32 (n + 1) |> in
              if negb open_ok then (inl ErrWrite, c)
              else (inr (path, bb_data file), c)
      end
  end.

(** ** Configuration file *)

Definition config_line (line : string) (c : enc_cfg) : enc_cfg :=
  let line := cut_at (fun ch => Ascii.eqb ch CR || Ascii.eqb ch NL) line in
  match line with
  | "" => c
  | String "#" _ => c
  | _ =>
      match scan_s 63 line with
      | None => c
      | Some (key, s) =>
      match scan_s 4095 s with
      | None => c
      | Some (val, s) =>
          let is_key k := String.eqb key k in
          if is_key "csv-dir" then c <| csv_dir := strlcpy PATH_MAX val |>
          else if is_key "csv-pattern" then c <| csv_pattern := strlcpy 128 val |>
          else if is_key "output-dir" then c <| output_dir := strlcpy PATH_MAX val |>
          else if is_key "done-dir" then c <| done_dir := strlcpy PATH_MAX val |>
          else if is_key "recording-entity" then c <| entity := strlcpy 32 val |>
          else if is_key "file-prefix" then c <| file_prefix := strlcpy 16 val |>
          else if is_key "timezone" then c <| timezone := strlcpy 16 val |>
          else if is_key "poll-seconds" then c <| poll_seconds := atoi val |>
          else if is_key "route" then
            match scan_s 63 s with
            | Some (extra, _) =>
                if Nat.ltb (length (routes c)) MAX_ROUTES
                then c <| routes ::= fun l => l ++ [mk_route (strlcpy 32 val) (strlcpy 32 extra)] |>
                else c
            | None => c
            end
          else c
      end end
  end.

Definition load_config (file : list ascii) (c : enc_cfg) : enc_cfg :=
  fold_left (fun c l => config_line l c) (fgets_all (length file) 512 file) c.
