(* ===== verification/BerProofs.v ===== *)
(** * What the BER writer writes can be read back

    A reader for BER (definite lengths, X.690), and the proof that the octets
    of huawei_ber.c are read as the tags, contents, integers and digits they
    were made from. *)

From S2P Require Import Prelude CLib CLibProofs HuaweiBer.
From Stdlib Require Import Ascii.

(** ** Octets, by exhaustion *)

Lemma u8_range z : 0 <= u8 z < 256.
Proof. unfold u8. apply Z.mod_pos_bound. lia. Qed.
Lemma u8_id z : 0 <= z < 256 -> u8 z = z.
Proof. intros H. unfold u8. apply Z.mod_small. lia. Qed.

Lemma land_7f z : Z.land z 0x7f = z mod 128.
Proof. change 0x7f with (Z.ones 7). rewrite Z.land_ones by lia. done. Qed.
Lemma land_ff z : Z.land z 0xff = z mod 256.
Proof. change 0xff with (Z.ones 8). rewrite Z.land_ones by lia. done. Qed.

(** a group of seven bits with the continuation bit *)
Lemma more_octet t : u8 (Z.lor (Z.land t 0x7f) 0x80) = 128 + t mod 128.
Proof.
  rewrite land_7f. assert (H : 0 <= t mod 128 < 128) by (apply Z.mod_pos_bound; lia).
  apply Z.eqb_eq, (range_cases 128 (fun z => u8 (Z.lor z 0x80) =? 128 + z)); [by vm_compute|done].
Qed.
Lemma len_octet n : 0 <= n < 128 -> u8 (Z.lor 0x80 n) = 128 + n.
Proof.
  intros H. apply Z.eqb_eq, (range_cases 128 (fun z => u8 (Z.lor 0x80 z) =? 128 + z)); [by vm_compute|done].
Qed.

(** ** A reader *)

#[projections(primitive)]
Record tlv : Type := mk_tlv { t_class : Z; t_constr : bool; t_tag : Z; t_data : list Z }.

Fixpoint parse_long_tag (acc : Z) (l : list Z) : option (Z * list Z) :=
  match l with
  | [] => None
  | o :: l' =>
      let acc := acc * 128 + o mod 128 in
      if o <? 128 then Some (acc, l') else parse_long_tag acc l'
  end.

Definition parse_tag (l : list Z) : option (Z * bool * Z * list Z) :=
  match l with
  | [] => None
  | o :: l' =>
      let cls := o / 64 in
      let constr := o / 32 mod 2 =? 1 in
      let low := o mod 32 in
      if low <? 31 then Some (cls, constr, low, l')
      else match parse_long_tag 0 l' with
           | Some (tag, r) => Some (cls, constr, tag, r)
           | None => None
           end
  end.

Definition be_step (acc o : Z) : Z := acc * 256 + o.
Definition be_value (l : list Z) : Z := fold_left be_step l 0.

Definition parse_len (l : list Z) : option (Z * list Z) :=
  match l with
  | [] => None
  | o :: l' =>
      if o <? 128 then Some (o, l')
      else
        let n := Z.to_nat (o - 128) in
        if Nat.ltb (length l') n then None else Some (be_value (take n l'), drop n l')
  end.

Definition parse_tlv (l : list Z) : option (tlv * list Z) :=
  match parse_tag l with
  | None => None
  | Some (cls, constr, tag, l) =>
      match parse_len l with
      | None => None
      | Some (n, l) =>
          if Z.of_nat (length l) <? n then None
          else Some (mk_tlv cls constr tag (take (Z.to_nat n) l), drop (Z.to_nat n) l)
      end
  end.

Fixpoint parse_tlvs_fuel (fuel : nat) (l : list Z) : option (list tlv) :=
  match l, fuel with
  | [], _ => Some []
  | _, O => None
  | _, S f =>
      match parse_tlv l with
      | None => None
      | Some (t, r) =>
          match parse_tlvs_fuel f r with Some ts => Some (t :: ts) | None => None end
      end
  end.
(** an element has at least two octets *)
Definition parse_tlvs (l : list Z) : option (list tlv) := parse_tlvs_fuel (length l) l.

(** ** The octets that are written *)

Lemma raw_data l b : bb_data (ber_raw l b) = bb_data b ++ l.
Proof.
  destruct l as [|o l]; [by rewrite app_nil_r|]. unfold ber_raw, ber_grow. cbv zeta.
  set (x := if _ <=? _ then b else _). assert (E : bb_data x = bb_data b).
  { unfold x. destruct (_ <=? _); [done|]. by destruct (double_until _ _ _). }
  clearbody x. exact (f_equal (fun d => d ++ o :: l) E).
Qed.
Lemma raw_each_data l b : bb_data (fold_left (fun b o => ber_raw [o] b) l b) = bb_data b ++ l.
Proof.
  revert b. induction l as [|o l IH]; intros b; cbn [fold_left]; [by rewrite app_nil_r|].
  rewrite IH, raw_data, <- app_assoc. done.
Qed.

Definition tag_octets (cls : Z) (constr : bool) (tag : Z) : list Z :=
  bb_data (ber_tag cls constr tag ber_init).
Definition len_octets (len : Z) : list Z := bb_data (ber_length len ber_init).

Lemma tag_data cls constr tag b : bb_data (ber_tag cls constr tag b) = bb_data b ++ tag_octets cls constr tag.
Proof.
  unfold tag_octets, ber_tag. cbv zeta. destruct (tag <? 31); [by rewrite !raw_data|].
  rewrite !raw_each_data, !raw_data. by rewrite <- app_assoc.
Qed.
Lemma len_data len b : bb_data (ber_length len b) = bb_data b ++ len_octets len.
Proof.
  unfold len_octets, ber_length. cbv zeta. destruct (len <? 128); [by rewrite !raw_data|].
  rewrite !raw_each_data, !raw_data. by rewrite <- app_assoc.
Qed.

Definition enc_tlv (t : tlv) : list Z :=
  tag_octets (t_class t) (t_constr t) (t_tag t) ++ len_octets (Z.of_nat (length (t_data t))) ++ t_data t.
Definition enc_tlvs (l : list tlv) : list Z := concat (map enc_tlv l).

(** ** Reading a tag *)

Lemma read_tag_stack f t stk rest : 0 <= t < 128 ^ Z.of_nat f ->
  parse_long_tag 0 (tag_stack f t stk ++ rest) = parse_long_tag t (stk ++ rest).
Proof.
  revert t stk. induction f as [|f IH]; intros t stk Ht.
  { assert (t = 0) as -> by (cbn in Ht; lia). done. }
  cbn [tag_stack]. destruct (Z.ltb_spec 0 t); [|by assert (t = 0) as -> by lia].
  rewrite Nat2Z.inj_succ, Z.pow_succ_r in Ht by lia.
  rewrite Z.shiftr_div_pow2 by lia. change (2 ^ 7) with 128.
  rewrite IH by (split; [apply Z.div_pos; lia|apply Z.div_lt_upper_bound; lia]).
  rewrite more_octet. cbn [app parse_long_tag].
  assert (Hm : 0 <= t mod 128 < 128) by (apply Z.mod_pos_bound; lia).
  rewrite (proj2 (Z.ltb_ge _ _)) by lia.
  assert (E : (128 + t mod 128) mod 128 = t mod 128).
  { replace (128 + t mod 128) with (t mod 128 + 1 * 128) by lia. rewrite Z.mod_add, Z.mod_mod by lia. done. }
  rewrite E. assert (E2 : t / 128 * 128 + t mod 128 = t) by (pose proof (Z.div_mod t 128); lia).
  by rewrite E2.
Qed.

(** the first octet, for every class, kind and low tag number *)
Definition first_ok (cls : Z) (constr : bool) (low : Z) : bool :=
  let o := u8 (Z.lor (u8 (Z.lor (Z.shiftl cls 6) (if constr then 0x20 else 0))) low) in
  (o / 64 =? cls) && Bool.eqb (o / 32 mod 2 =? 1) constr && (o mod 32 =? low).
Lemma first_octet cls constr low : 0 <= cls < 4 -> 0 <= low < 32 -> first_ok cls constr low = true.
Proof.
  intros Hc Hl.
  assert (H : check_from 32 0 (fun l => first_ok cls constr l) = true).
  { apply (range_cases 4 (fun c => check_from 32 0 (fun l => first_ok c constr l))); [|done].
    by destruct constr; vm_compute. }
  by apply (range_cases 32 (fun l => first_ok cls constr l)).
Qed.

Lemma read_tag cls constr tag rest : 0 <= cls < 4 -> 0 <= tag < 2 ^ 31 ->
  parse_tag (tag_octets cls constr tag ++ rest) = Some (cls, constr, tag, rest).
Proof.
  intros Hc Ht. unfold tag_octets, ber_tag. cbv zeta. destruct (Z.ltb_spec tag 31).
  - rewrite raw_data. cbn [ber_init bb_data app parse_tag].
    pose proof (first_octet cls constr tag Hc ltac:(lia)) as Hf. unfold first_ok in Hf. cbv zeta in Hf.
    set (o := u8 _) in *. clearbody o.
    apply andb_true_iff in Hf as [Hf H3]. apply andb_true_iff in Hf as [H1 H2].
    apply Z.eqb_eq in H1, H3. apply eqb_prop in H2. rewrite H1, H2, H3.
    by rewrite (proj2 (Z.ltb_lt _ _)).
  - rewrite raw_each_data, raw_data. cbn [ber_init bb_data app].
    pose proof (first_octet cls constr 31 Hc ltac:(lia)) as Hf. unfold first_ok in Hf. cbv zeta in Hf.
    change (Z.lor _ 0x1f) with (Z.lor (u8 (Z.lor (Z.shiftl cls 6) (if constr then 0x20 else 0))) 31).
    set (o := u8 (Z.lor (u8 _) 31)) in *. clearbody o.
    apply andb_true_iff in Hf as [Hf H3]. apply andb_true_iff in Hf as [H1 H2].
    apply Z.eqb_eq in H1, H3. apply eqb_prop in H2. unfold parse_tag. rewrite H1, H2, H3.
    change (31 <? 31) with false. cbv iota. rewrite Z.shiftr_div_pow2 by lia. change (2 ^ 7) with 128.
    rewrite read_tag_stack; cycle 1.
    { split; [apply Z.div_pos; lia|]. apply Z.div_lt_upper_bound; [lia|]. change (Z.of_nat TAG_ROUNDS) with 5.
      assert (2 ^ 31 <= 128 * 128 ^ 5) by (vm_compute; discriminate). lia. }
    rewrite land_7f. assert (Hm : 0 <= tag mod 128 < 128) by (apply Z.mod_pos_bound; lia).
    rewrite u8_id by lia. cbn [app parse_long_tag]. rewrite (proj2 (Z.ltb_lt (tag mod 128) 128)) by lia.
    rewrite Z.mod_mod by lia.
    assert (E2 : tag / 128 * 128 + tag mod 128 = tag) by (pose proof (Z.div_mod tag 128); lia).
    by rewrite E2.
Qed.

(** ** Reading a length *)

Lemma octet_stack_value f t stk : 0 <= t < 256 ^ Z.of_nat f ->
  fold_left be_step (octet_stack f t stk) 0 = fold_left be_step stk t.
Proof.
  revert t stk. induction f as [|f IH]; intros t stk Ht.
  { assert (t = 0) as -> by (cbn in Ht; lia). done. }
  cbn [octet_stack]. destruct (Z.eqb_spec t 0) as [->|]; [done|].
  rewrite Nat2Z.inj_succ, Z.pow_succ_r in Ht by lia.
  rewrite Z.shiftr_div_pow2 by lia. change (2 ^ 8) with 256.
  rewrite IH by (split; [apply Z.div_pos; lia|apply Z.div_lt_upper_bound; lia]).
  cbn [fold_left]. unfold be_step at 2. rewrite land_ff.
  assert (Hm : 0 <= t mod 256 < 256) by (apply Z.mod_pos_bound; lia). rewrite u8_id by lia.
  assert (E2 : t / 256 * 256 + t mod 256 = t) by (pose proof (Z.div_mod t 256); lia).
  by rewrite E2.
Qed.
Lemma octet_stack_length f t stk : (length (octet_stack f t stk) <= f + length stk)%nat.
Proof.
  revert t stk. induction f as [|f IH]; intros t stk; cbn [octet_stack]; [lia|].
  destruct (t =? 0); [lia|]. etransitivity; [apply IH|]. cbn. lia.
Qed.

Lemma read_len len rest : 0 <= len < 2 ^ 64 -> parse_len (len_octets len ++ rest) = Some (len, rest).
Proof.
  intros Hl. unfold len_octets, ber_length. cbv zeta. destruct (Z.ltb_spec len 128).
  - rewrite raw_data. cbn [ber_init bb_data app parse_len]. rewrite u8_id by lia.
    by rewrite (proj2 (Z.ltb_lt _ _)).
  - rewrite raw_each_data, raw_data. cbn [ber_init bb_data app].
    pose proof (octet_stack_length LEN_ROUNDS len []) as Hn. cbn [length] in Hn.
    assert (Hv : be_value (octet_stack LEN_ROUNDS len []) = len).
    { unfold be_value. rewrite octet_stack_value; [done|]. change (256 ^ Z.of_nat LEN_ROUNDS) with (2 ^ 64). lia. }
    set (tmp := octet_stack _ _ _) in *. clearbody tmp. unfold LEN_ROUNDS in Hn.
    rewrite len_octet by lia. unfold parse_len. rewrite (proj2 (Z.ltb_ge _ _)) by lia. cbv zeta.
    replace (Z.to_nat (128 + Z.of_nat (length tmp) - 128)) with (length tmp) by lia.
    rewrite length_app. rewrite (proj2 (Nat.ltb_ge _ _)) by lia.
    by rewrite take_app_length, drop_app_length, Hv.
Qed.

(** ** Reading elements *)

Definition tlv_ok (t : tlv) : Prop := 0 <= t_class t < 4 /\ 0 <= t_tag t < 2 ^ 31.

Lemma read_tlv t rest : tlv_ok t -> Z.of_nat (length (t_data t)) < 2 ^ 64 ->
  parse_tlv (enc_tlv t ++ rest) = Some (t, rest).
Proof.
  intros [Hc Ht] Hn. unfold enc_tlv, parse_tlv. rewrite <- !app_assoc, read_tag by done.
  rewrite read_len by lia. rewrite length_app, (proj2 (Z.ltb_ge _ _)) by lia.
  rewrite Nat2Z.id, take_app_length, drop_app_length. done.
Qed.

Lemma enc_tlv_nonempty t : enc_tlv t <> [].
Proof.
  unfold enc_tlv, tag_octets, ber_tag. cbv zeta. destruct (_ <? _); [by rewrite raw_data|].
  by rewrite raw_each_data, raw_data.
Qed.
Lemma enc_tlvs_length ts : (length ts <= length (enc_tlvs ts))%nat.
Proof.
  induction ts as [|t ts IH]; [done|]. unfold enc_tlvs in *. cbn. rewrite length_app.
  pose proof (enc_tlv_nonempty t). destruct (enc_tlv t); [done|]. cbn. lia.
Qed.
Lemma enc_tlvs_part t ts : t ∈ ts -> (length (t_data t) <= length (enc_tlvs ts))%nat.
Proof.
  intros Ht. induction Ht as [t ts|t u ts Ht IH]; unfold enc_tlvs in *; cbn; rewrite length_app; [|lia].
  unfold enc_tlv. rewrite !length_app. lia.
Qed.

Lemma read_tlvs_fuel f ts : Forall tlv_ok ts -> Z.of_nat (length (enc_tlvs ts)) < 2 ^ 64 ->
  (length ts <= f)%nat -> parse_tlvs_fuel f (enc_tlvs ts) = Some ts.
Proof.
  intros Hok. revert f. induction Hok as [|t ts Ht Hok IH]; intros f Hn Hf; [by destruct f|].
  destruct f as [|f]; [cbn in Hf; lia|]. cbn [length] in Hf.
  pose proof (enc_tlvs_part t (t :: ts) ltac:(by left)) as Hp.
  unfold enc_tlvs in *. cbn [map concat] in *. rewrite length_app in *.
  pose proof (enc_tlv_nonempty t) as Hne. cbn [parse_tlvs_fuel].
  destruct (enc_tlv t ++ concat (map enc_tlv ts)) as [|o l] eqn:E.
  { apply app_eq_nil in E as [E _]. done. }
  rewrite <- E, read_tlv by (done || lia). rewrite IH by lia. done.
Qed.

(** the elements that were written are read *)
Lemma read_tlvs ts : Forall tlv_ok ts -> Z.of_nat (length (enc_tlvs ts)) < 2 ^ 64 ->
  parse_tlvs (enc_tlvs ts) = Some ts.
Proof. intros Hok Hn. apply read_tlvs_fuel; [done|done|apply enc_tlvs_length]. Qed.

(** ** The buffer is always large enough *)

Lemma double_until_enough f j need : 0 <= j <= 63 -> need <= 2 ^ 63 -> (63 - j <= Z.of_nat f) ->
  exists i, j <= i <= 63 /\ double_until f (2 ^ j) need = Some (2 ^ i) /\ need <= 2 ^ i
    /\ (i = j \/ 2 ^ i < 2 * need).
Proof.
  revert j. induction f as [|f IH]; intros j Hj Hn Hf; cbn [double_until];
    destruct (Z.ltb_spec (2 ^ j) need) as [Hlt|]; try (exists j; split_and!; (done || lia || by left)).
  - assert (j = 63) as -> by lia. lia.
  - assert (j < 63). { destruct (decide (j = 63)) as [->|]; lia. }
    assert (Hp : 2 ^ j * 2 = 2 ^ (j + 1)) by (rewrite Z.pow_add_r by lia; lia).
    assert (Hb : 2 ^ (j + 1) <= 2 ^ 63) by (apply Z.pow_le_mono_r; lia).
    unfold u64. rewrite Hp, Z.mod_small by (change (2 ^ 64) with (2 * 2 ^ 63); lia).
    destruct (IH (j + 1)) as (i & Hi & E & H1 & H2); [lia|lia|lia|].
    exists i. split_and!; [lia|lia|done|done|]. destruct H2 as [->|]; [right; lia|by right].
Qed.

(** the allocation holds the octets, and is a power of two or nothing *)
Definition ber_ok (b : ber_buf) : Prop :=
  bb_len b <= bb_cap b /\ (bb_cap b = 0 \/ exists j, 8 <= j <= 63 /\ bb_cap b = 2 ^ j).

Lemma init_ok : ber_ok ber_init.
Proof. by split; [|left]. Qed.
Lemma grow_ok b add : ber_ok b -> 0 <= add -> bb_len b + add <= 2 ^ 63 ->
  bb_data (ber_grow add b) = bb_data b /\ ber_ok (ber_grow add b)
  /\ bb_len b + add <= bb_cap (ber_grow add b).
Proof.
  intros [Hl Hc] Ha Hn. unfold ber_grow. cbv zeta.
  assert (E : u64 (bb_len b + add) = bb_len b + add).
  { unfold u64. apply Z.mod_small. unfold bb_len in *. lia. }
  rewrite E. destruct (Z.leb_spec (bb_len b + add) (bb_cap b)); [done|].
  set (cap := if bb_cap b =? 0 then 256 else bb_cap b).
  assert (Hj : exists j, 8 <= j <= 63 /\ cap = 2 ^ j).
  { unfold cap. destruct (Z.eqb_spec (bb_cap b) 0); [by exists 8|]. by destruct Hc. }
  destruct Hj as (j & Hj & ->).
  destruct (double_until_enough GROW_ROUNDS j (bb_len b + add)) as (i & Hi & -> & H1 & _);
    [lia|lia|unfold GROW_ROUNDS; lia|].
  split_and!; [done| |exact H1]. split; [change (bb_len b <= 2 ^ i); lia|].
  right. exists i. split; [lia|done].
Qed.

(** C22: Writing never goes beyond the allocation: as long as the contents fit
    into 2^63 octets, the loop that doubles the size of the buffer ends, and
    after every write the size is zero or a power of two and not smaller than
    the contents; the octets that were in the buffer stay in front. *)
Theorem ber_raw_fits data b : ber_ok b -> bb_len b + Z.of_nat (length data) <= 2 ^ 63 ->
  ber_ok (ber_raw data b) /\ bb_data (ber_raw data b) = bb_data b ++ data.
Proof.
  intros Hb Hn. split; [|apply raw_data]. destruct data as [|o data]; [done|].
  destruct (grow_ok b (Z.of_nat (length (o :: data))) Hb ltac:(lia) Hn) as (E & [_ H2] & H3).
  unfold ber_raw. set (g := ber_grow _ b) in *. clearbody g.
  split; [|exact H2]. transitivity (bb_len b + Z.of_nat (length (o :: data))); [|exact H3].
  change (Z.of_nat (length (bb_data g ++ o :: data)) <= bb_len b + Z.of_nat (length (o :: data))).
  rewrite E, length_app. unfold bb_len. lia.
Qed.
Lemma ber_raw_fits_witness : ber_ok (ber_raw (replicate 300 7) ber_init).
Proof. refine (proj1 (ber_raw_fits _ _ init_ok _)). vm_compute. discriminate. Defined.

(** ** Integers *)

(** two's complement, most significant octet first *)
Definition int_value (l : list Z) : Z :=
  match l with
  | [] => 0
  | top :: _ => be_value l - (if 128 <=? top then 256 ^ Z.of_nat (length l) else 0)
  end.

Lemma octet_stack_octets f t stk : Forall (fun o => 0 <= o < 256) stk ->
  Forall (fun o => 0 <= o < 256) (octet_stack f t stk).
Proof.
  revert t stk. induction f as [|f IH]; intros t stk H; cbn [octet_stack]; [done|].
  destruct (t =? 0); [done|]. apply IH. constructor; [apply u8_range|done].
Qed.
Lemma top_bit o : 0 <= o < 256 -> negb (Z.land o 0x80 =? 0) = (128 <=? o).
Proof.
  intros H. apply eqb_prop.
  apply (range_cases 256 (fun o => Bool.eqb (negb (Z.land o 0x80 =? 0)) (128 <=? o))); [by vm_compute|done].
Qed.

Lemma encode_int_value v : int_value (encode_int v) = u32 v.
Proof.
  unfold encode_int. destruct (Z.eqb_spec v 0) as [->|]; [done|].
  assert (Hu : 0 <= u32 v < 2 ^ 32) by (apply Z.mod_pos_bound; lia).
  pose proof (octet_stack_value 4 (u32 v) [] ltac:(change (256 ^ Z.of_nat 4) with (2 ^ 32); lia)) as Hv.
  pose proof (octet_stack_octets 4 (u32 v) [] (Forall_nil_2 _)) as Ho. cbn [fold_left] in Hv.
  cbv zeta. destruct (octet_stack _ _ _) as [|top tmp]; [done|].
  apply Forall_cons in Ho as [Ht _]. rewrite top_bit by done. unfold int_value, be_value.
  destruct (128 <=? top) eqn:E; [|rewrite E; lia].
  change (128 <=? 0) with false. cbv iota. 
  change (fold_left be_step (0 :: top :: tmp) 0) with (fold_left be_step (top :: tmp) 0). lia.
Qed.

Definition octets (l : list Z) : Prop := Forall (fun o => 0 <= o < 256) l.

(** the first octet of what is written is not 0 *)
Lemma octet_stack_top f t stk : 0 < t < 256 ^ Z.of_nat f ->
  exists top tmp, octet_stack f t stk = top :: tmp /\ top <> 0.
Proof.
  revert t stk. induction f as [|f IH]; intros t stk Ht; [cbn in Ht; lia|].
  rewrite Nat2Z.inj_succ, Z.pow_succ_r in Ht by lia. cbn [octet_stack]. rewrite (proj2 (Z.eqb_neq t 0)) by lia.
  rewrite Z.shiftr_div_pow2 by lia. change (2 ^ 8) with 256. destruct (Z.eq_dec (t / 256) 0) as [E|E].
  - assert (t < 256) by (pose proof (Z.div_mod t 256); pose proof (Z.mod_pos_bound t 256); lia). rewrite E.
    exists t, stk. rewrite land_ff, Z.mod_small, u8_id by lia. split; [by destruct f|lia].
  - apply IH. pose proof (Z.div_pos t 256 ltac:(lia) ltac:(lia)). split; [lia|]. apply Z.div_lt_upper_bound; lia.
Qed.
Lemma be_value_bounds l acc : octets l ->
  acc * 256 ^ Z.of_nat (length l) <= fold_left be_step l acc < (acc + 1) * 256 ^ Z.of_nat (length l).
Proof.
  intros H. revert acc. induction H as [|o l Ho H IH]; intros acc; cbn [fold_left length]; [lia|].
  rewrite Nat2Z.inj_succ, Z.pow_succ_r by lia. specialize (IH (be_step acc o)). unfold be_step in *.
  assert (0 < 256 ^ Z.of_nat (length l)) by (apply Z.pow_pos_nonneg; lia). nia.
Qed.
(** an integer that is not negative fills its octets but for the first bit *)
Lemma int_value_bound l : octets l -> l <> [] -> 0 <= int_value l -> int_value l < 128 * 256 ^ (Z.of_nat (length l) - 1).
Proof.
  intros H Hne. destruct H as [|top l Ht H]; [done|]. unfold int_value, be_value. cbn [fold_left length].
  pose proof (be_value_bounds l (be_step 0 top) H) as Hb. unfold be_step in *.
  rewrite Nat2Z.inj_succ, Z.pow_succ_r by lia. replace (Z.succ (Z.of_nat (length l)) - 1) with (Z.of_nat (length l)) by lia.
  assert (0 < 256 ^ Z.of_nat (length l)) by (apply Z.pow_pos_nonneg; lia).
  destruct (Z.leb_spec 128 top); nia.
Qed.
(** what is written does not fit into one octet less *)
Lemma encode_int_fills v : 0 <= v < 2 ^ 31 ->
  octets (encode_int v) /\ (length (encode_int v) = 1%nat \/
    (2 <= length (encode_int v))%nat /\ 128 * 256 ^ (Z.of_nat (length (encode_int v)) - 2) <= v).
Proof.
  intros Hv. unfold encode_int. destruct (Z.eqb_spec v 0) as [->|Hne]; [split; [by repeat constructor|by left]|]. cbv zeta.
  assert (Hu : u32 v = v) by (apply Z.mod_small; lia). rewrite Hu.
  pose proof (octet_stack_value 4 v [] ltac:(change (256 ^ Z.of_nat 4) with (2 ^ 32); lia)) as E.
  pose proof (octet_stack_octets 4 v [] (Forall_nil_2 _)) as Ho.
  destruct (octet_stack_top 4 v []) as (top & tmp & Es & Htop); [change (256 ^ Z.of_nat 4) with (2 ^ 32); lia|].
  rewrite Es in *. pose proof (proj1 (Forall_cons _ _ _) Ho) as [Ht Htmp].
  cbn [fold_left] in E. pose proof (be_value_bounds tmp (be_step 0 top) Htmp) as Hb. unfold be_step in Hb at 1.
  assert (0 < 256 ^ Z.of_nat (length tmp)) by (apply Z.pow_pos_nonneg; lia).
  rewrite top_bit by done. destruct (Z.leb_spec 128 top); cbn [length].
  - split; [by constructor|]. right. split; [lia|].
    replace (Z.of_nat (S (S (length tmp))) - 2) with (Z.of_nat (length tmp)) by lia. nia.
  - split; [done|]. destruct (length tmp) as [|n] eqn:En; [by left|]. right. split; [lia|].
    replace (Z.of_nat (S (S n)) - 2) with (Z.of_nat n) by lia.
    rewrite Nat2Z.inj_succ, Z.pow_succ_r in * by lia. nia.
Qed.

(** C23: An integer that is not negative is encoded as BER wants it: what is
    written is the integer in two's complement with the most significant octet
    first, and no shorter sequence of octets is. *)
Theorem encode_int_roundtrip v : 0 <= v < 2 ^ 31 ->
  octets (encode_int v) /\ encode_int v <> [] /\ int_value (encode_int v) = v /\
  forall l, octets l -> l <> [] -> int_value l = v -> (length (encode_int v) <= length l)%nat.
Proof.
  intros Hv. destruct (encode_int_fills v Hv) as [Ho Hl]. split_and!; [done| | |].
  - intros E. rewrite E in Hl. cbn in Hl. lia.
  - rewrite encode_int_value. apply Z.mod_small. lia.
  - intros l Hol Hne E. pose proof (int_value_bound l Hol Hne) as Hb. rewrite E in Hb.
    destruct l as [|o l]; [done|]. cbn [length] in *. destruct Hl as [->|[H2 Hf]]; [lia|].
    apply Nat.nlt_ge. intros Hlt.
    assert (256 ^ (Z.of_nat (S (length l)) - 1) <= 256 ^ (Z.of_nat (length (encode_int v)) - 2)) by (apply Z.pow_le_mono_r; lia).
    lia.
Qed.
Lemma encode_int_roundtrip_witness :
  encode_int 40000 = [0; 156; 64] /\ int_value (encode_int 40000) = 40000 /\
  (length (encode_int 40000) <= length [0; 0; 156; 64]%Z)%nat.
Proof.
  destruct (encode_int_roundtrip 40000 ltac:(lia)) as (_ & _ & Hv & Hs). split_and!; [reflexivity|exact Hv|].
  apply Hs; [repeat constructor; lia|discriminate|reflexivity].
Defined.

(** A negative value, for instance the duration of a call that was answered
    before the clock was set back, is written as if it were unsigned: a reader
    of the file finds a number that is larger by 2^32. *)
Theorem encode_int_negative v : - 2 ^ 31 <= v < 0 -> int_value (encode_int v) = v + 2 ^ 32.
Proof.
  intros Hv. rewrite encode_int_value. unfold u32. symmetry. apply Zmod_unique with (q := -1); lia.
Qed.
Lemma encode_int_negative_witness : int_value (encode_int (-1)) = 4294967295.
Proof. exact (encode_int_negative (-1) ltac:(lia)). Defined.

(** ** Digits *)

(** the characters of a TBCD string and their codes, TS 29.002 *)
Definition is_tbcd (c : ascii) : bool := is_digit c || Ascii.eqb c "*" || Ascii.eqb c "#".
Definition tbcd_hexchr (c : ascii) : ascii :=
  if Ascii.eqb c "*" then "a"%char else if Ascii.eqb c "#" then "b"%char else c.
Definition tbcd_chr (n : Z) : option ascii :=
  if (0 <=? n) && (n <=? 9) then Some (chr_of (48 + n))
  else if n =? 10 then Some "*"%char else if n =? 11 then Some "#"%char else None.

(** a reader: the low half of an octet comes first, anything else ends *)
Fixpoint tbcd_read (l : list Z) : list ascii :=
  match l with
  | [] => []
  | o :: l' =>
      match tbcd_chr (o mod 16), tbcd_chr (o / 16) with
      | Some a, Some b => a :: b :: tbcd_read l'
      | Some a, None => [a]
      | None, _ => []
      end
  end.

Lemma tbcd_hex_eq n s :
  tbcd_hex n s = map tbcd_hexchr (take n (List.filter is_tbcd (chars s))).
Proof.
  revert n. induction s as [|c s IH]; intros [|n]; cbn; try done.
  assert (Hd : is_digit c = true -> tbcd_hexchr c = c).
  { intros Hd. pose proof (ascii_cases (fun c => implb (is_digit c) (Ascii.eqb (tbcd_hexchr c) c))
      ltac:(by vm_compute) c) as H. cbn in H. rewrite Hd in H. by apply Ascii.eqb_eq. }
  unfold is_tbcd at 1. destruct (is_digit c); cbn [orb].
  - cbn. by rewrite Hd, IH.
  - destruct (Ascii.eqb_spec c "*") as [->|]; cbn [orb]; [cbn; by rewrite IH|].
    destruct (Ascii.eqb_spec c "#") as [->|]; [cbn; by rewrite IH|]. by rewrite (IH (S n)).
Qed.

Lemma nibble_range c : 0 <= nibble c < 16.
Proof.
  pose proof (ascii_cases (fun c => (0 <=? nibble c) && (nibble c <? 16)) ltac:(by vm_compute) c) as H.
  cbn in H. apply andb_true_iff in H as [H1 H2]. lia.
Qed.
Lemma tbcd_code c : is_tbcd c = true -> tbcd_chr (nibble (tbcd_hexchr c)) = Some c.
Proof.
  intros Hc. pose proof (ascii_cases (fun c => implb (is_tbcd c)
    (match tbcd_chr (nibble (tbcd_hexchr c)) with Some d => Ascii.eqb d c | None => false end))
    ltac:(by vm_compute) c) as H. cbn in H. rewrite Hc in H. cbn in H.
  destruct (tbcd_chr _); [|done]. by apply Ascii.eqb_eq in H as ->.
Qed.

(** two halves of an octet *)
Definition halves_ok (lo hi : Z) : bool :=
  let o := u8 (Z.lor (Z.shiftl hi 4) lo) in (o mod 16 =? lo) && (o / 16 =? hi).
Lemma halves lo hi : 0 <= lo < 16 -> 0 <= hi < 16 ->
  u8 (Z.lor (Z.shiftl hi 4) lo) mod 16 = lo /\ u8 (Z.lor (Z.shiftl hi 4) lo) / 16 = hi.
Proof.
  intros Hl Hh. assert (H : halves_ok lo hi = true).
  { assert (H : check_from 16 0 (halves_ok lo) = true).
    { apply (range_cases 16 (fun l => check_from 16 0 (halves_ok l))); [by vm_compute|done]. }
    by apply (range_cases 16 (halves_ok lo)). }
  apply andb_true_iff in H as [H1 H2]. apply Z.eqb_eq in H1, H2. done.
Qed.

Abbreviation tbcd_pair := (fun a b => u8 (Z.lor (Z.shiftl (nibble b) 4) (nibble a))).

Lemma tbcd_read_pairs cs : Forall (fun c => is_tbcd c = true) cs ->
  tbcd_read (pairs tbcd_pair (if Nat.odd (length cs) then map tbcd_hexchr cs ++ ["f"%char]
                              else map tbcd_hexchr cs)) = cs.
Proof.
  intros H. remember (length cs) as n eqn:En. revert cs En H.
  induction (lt_wf n) as [n _ IH]. intros [|a [|b cs]] -> H; [done| |].
  - apply Forall_cons in H as [Ha _].
    change (tbcd_read [u8 (Z.lor (Z.shiftl 15 4) (nibble (tbcd_hexchr a)))] = [a]). cbn [tbcd_read].
    destruct (halves (nibble (tbcd_hexchr a)) 15) as [E1 E2]; [apply nibble_range|lia|].
    rewrite E1, E2, tbcd_code by done. done.
  - apply Forall_cons in H as [Ha H]. apply Forall_cons in H as [Hb H].
    change (Nat.odd (length (a :: b :: cs))) with (Nat.odd (length cs)).
    specialize (IH (length cs) ltac:(cbn; lia) cs eq_refl H).
    assert (E : forall l, tbcd_read (pairs tbcd_pair (tbcd_hexchr a :: tbcd_hexchr b :: l))
                          = a :: b :: tbcd_read (pairs tbcd_pair l)).
    { intros l. cbn [pairs tbcd_read].
      destruct (halves (nibble (tbcd_hexchr a)) (nibble (tbcd_hexchr b))) as [E1 E2];
        [apply nibble_range|apply nibble_range|]. by rewrite E1, E2, !tbcd_code by done. }
    destruct (Nat.odd (length cs)); cbn [map app]; rewrite E, IH; done.
Qed.

Lemma pairs_length {A : Type} (f : ascii -> ascii -> A) l : length (pairs f l) = (length l / 2)%nat.
Proof.
  remember (length l) as n eqn:En. revert l En. induction (lt_wf n) as [n _ IH].
  intros [|a [|b l]] ->; [done|done|]. cbn [pairs length].
  rewrite (IH (length l)) by (cbn; lia).
  replace (S (S (length l))) with (length l + 1 * 2)%nat by lia. rewrite Nat.div_add by lia. lia.
Qed.

Lemma tbcd_reads s :
  tbcd_read (ber_tbcd_digits 32 s) = take TBCD_MAX (List.filter is_tbcd (chars s))
  /\ (length (ber_tbcd_digits 32 s) <= 32)%nat.
Proof.
  unfold ber_tbcd_digits. rewrite tbcd_hex_eq. cbv zeta.
  set (cs := take TBCD_MAX (List.filter is_tbcd (chars s))).
  assert (Hc : Forall (fun c => is_tbcd c = true) cs).
  { apply Forall_take, Forall_forall. intros c Hc. apply list_elem_of_In, filter_In in Hc. apply Hc. }
  assert (Hl : (length cs <= 63)%nat) by (unfold cs; rewrite length_take; unfold TBCD_MAX; lia).
  clearbody cs. rewrite length_map. pose proof (tbcd_read_pairs cs Hc) as Hr.
  set (h := if Nat.odd (length cs) then _ else _) in *.
  assert (Hh : (length h / 2 <= 32)%nat).
  { assert (length h <= 64)%nat.
    { unfold h. destruct (Nat.odd _); rewrite ?length_app, length_map; cbn; lia. }
    transitivity (64 / 2)%nat; [by apply Nat.Div0.div_le_mono|done]. }
  rewrite (proj2 (Nat.ltb_ge _ _)) by done. split; [exact Hr|]. by rewrite pairs_length.
Qed.

(** C24: Digits survive: reading the octets that were written for a number gives
    back its digits, stars and hashes in order, up to 63 of them; the octets
    are never more than the caller has room for. *)
Theorem tbcd_roundtrip s :
  tbcd_read (ber_tbcd_digits 32 s) = take TBCD_MAX (List.filter is_tbcd (chars s))
  /\ (length (ber_tbcd_digits 32 s) <= 32)%nat.
Proof. apply tbcd_reads. Qed.
