(* ===== verification/CdrEncProofs.v ===== *)
(** * The file of the CDR encoder can be read back

    The file is one SEQUENCE of header, records and trailer; it has one record
    per row of the ticket file, of the type the row names, and the trailer
    says how many there are. *)

From S2P Require Import Prelude CLib CLibProofs HuaweiBer CdrEnc BerProofs.
From Stdlib Require Import Ascii.

(** ** What a write adds *)

Definition field (tag : Z) (data : list Z) : list tlv :=
  match data with [] => [] | _ => [mk_tlv 2 false tag data] end.
Definition wrapped (tag : Z) (data : list Z) : list tlv :=
  match data with [] => [] | _ => [mk_tlv 2 true tag data] end.

Lemma enc_tlvs_app l1 l2 : enc_tlvs (l1 ++ l2) = enc_tlvs l1 ++ enc_tlvs l2.
Proof. unfold enc_tlvs. by rewrite map_app, concat_app. Qed.

Lemma prim_data tag data b : bb_data (ber_ctx_prim tag data b) = bb_data b ++ enc_tlvs (field tag data).
Proof.
  destruct data as [|o data]; [by rewrite app_nil_r|]. unfold ber_ctx_prim.
  rewrite raw_data, len_data, tag_data. unfold enc_tlvs, enc_tlv. cbn [field map concat].
  rewrite app_nil_r, <- !app_assoc. done.
Qed.
Lemma wrap_data tag inner outer :
  bb_data (ber_wrap_ctx tag inner outer) = bb_data outer ++ enc_tlvs (wrapped tag (bb_data inner)).
Proof.
  unfold ber_wrap_ctx, bb_len. destruct (bb_data inner) as [|o data] eqn:E; [by rewrite app_nil_r|].
  rewrite raw_data, len_data, tag_data. unfold enc_tlvs, enc_tlv. cbn [wrapped map concat].
  rewrite app_nil_r, <- !app_assoc. done.
Qed.

(** a function that only appends elements *)
Definition writes (f : ber_buf -> ber_buf) : Prop :=
  exists l, Forall tlv_ok l /\ forall b, bb_data (f b) = bb_data b ++ enc_tlvs l.

Lemma field_ok tag data : 0 <= tag < 2 ^ 31 -> Forall tlv_ok (field tag data).
Proof. intros H. destruct data; [constructor|]. constructor; [|constructor]. split; cbn; lia. Qed.
Lemma wrapped_ok tag data : 0 <= tag < 2 ^ 31 -> Forall tlv_ok (wrapped tag data).
Proof. intros H. destruct data; [constructor|]. constructor; [|constructor]. split; cbn; lia. Qed.

Lemma writes_id : writes (fun b => b).
Proof. exists []. split; [done|]. intros b. by rewrite app_nil_r. Qed.
Lemma writes_prim tag data : 0 <= tag < 2 ^ 31 -> writes (ber_ctx_prim tag data).
Proof. intros H. exists (field tag data). split; [by apply field_ok|]. intros b. apply prim_data. Qed.
Lemma writes_wrap tag inner : 0 <= tag < 2 ^ 31 -> writes (ber_wrap_ctx tag inner).
Proof. intros H. exists (wrapped tag (bb_data inner)). split; [by apply wrapped_ok|]. intros b. apply wrap_data. Qed.
Lemma writes_tbcd tag s : 0 <= tag < 2 ^ 31 -> writes (ber_ctx_tbcd tag s).
Proof. apply writes_prim. Qed.
Lemma writes_isdn tag s : 0 <= tag < 2 ^ 31 -> writes (ber_ctx_isdn tag s).
Proof. apply writes_prim. Qed.
Lemma writes_int tag v : 0 <= tag < 2 ^ 31 -> writes (ber_ctx_int tag v).
Proof. apply writes_prim. Qed.
Lemma writes_ascii tag s : 0 <= tag < 2 ^ 31 -> writes (ber_ctx_ascii tag s).
Proof. apply writes_prim. Qed.
Lemma writes_time tag s tz : 0 <= tag < 2 ^ 31 -> writes (ber_ctx_time_csv tag s tz).
Proof.
  intros H. unfold ber_ctx_time_csv. destruct (ber_parse_csv_time s); [by apply writes_prim|apply writes_id].
Qed.
Lemma writes_callref tag s : 0 <= tag < 2 ^ 31 -> writes (ber_ctx_callref tag s).
Proof.
  intros H. unfold ber_ctx_callref. destruct (str_empty s); [apply writes_id|].
  destruct (callref_value s); [by apply writes_prim|apply writes_id].
Qed.
Lemma writes_location tag r : 0 <= tag < 2 ^ 31 -> writes (write_location tag r).
Proof.
  intros H. unfold write_location. destruct (_ && _); [apply writes_id|by apply writes_wrap].
Qed.
Lemma writes_lu_location tag r : 0 <= tag < 2 ^ 31 -> writes (write_lu_location tag r).
Proof.
  intros H. unfold write_lu_location. destruct (_ && _); [apply writes_id|by apply writes_wrap].
Qed.
Lemma writes_route tag s : 0 <= tag < 2 ^ 31 -> writes (write_route tag s).
Proof. intros H. unfold write_route. destruct (str_empty s); [apply writes_id|by apply writes_wrap]. Qed.

Create HintDb ber discriminated.
#[export] Hint Constants Opaque : ber.
#[export] Hint Resolve writes_tbcd writes_isdn writes_int writes_ascii writes_time writes_callref
  writes_location writes_lu_location writes_route : ber.
#[export] Hint Extern 1 (0 <= _ < 2 ^ 31) => (split; [discriminate|reflexivity]) : ber.

Lemma record_fields_write c r type : Forall writes (record_fields c r type).
Proof.
  unfold record_fields. repeat case_match; cbv zeta;
    repeat first [apply Forall_nil_2 | apply Forall_cons_2; [solve [eauto 2 with ber nocore]|]].
Qed.

Lemma write_all_writes fs : Forall writes fs -> writes (write_all fs).
Proof.
  induction 1 as [|f fs (l & Hl & Hf) Hfs (ls & Hls & IH)]; [apply writes_id|].
  exists (l ++ ls). split; [by apply Forall_app|]. intros b. unfold write_all in *. cbn [fold_left].
  by rewrite IH, Hf, enc_tlvs_app, app_assoc.
Qed.

Lemma s32_range z : - 2 ^ 31 <= s32 z < 2 ^ 31.
Proof. unfold s32. pose proof (Z.mod_pos_bound (z + 2 ^ 31) (2 ^ 32)). lia. Qed.
Lemma row_int_range r key d : - 2 ^ 31 <= d < 2 ^ 31 -> - 2 ^ 31 <= row_int r key d < 2 ^ 31.
Proof.
  intros Hd. unfold row_int. destruct (str_empty _); [done|].
  destruct (strtol 10 _) as [[v s]|]; [apply s32_range|done].
Qed.

Lemma encode_int_nonempty v : - 2 ^ 31 <= v < 2 ^ 31 -> encode_int v <> [].
Proof.
  intros Hv. unfold encode_int. destruct (Z.eqb_spec v 0) as [|Hn]; [done|]. cbv zeta.
  assert (Hu : 0 < u32 v < 256 ^ Z.of_nat 4).
  { unfold u32. change (256 ^ Z.of_nat 4) with (2 ^ 32).
    destruct (decide (0 < v)); [rewrite Z.mod_small; lia|].
    assert (E : v + 2 ^ 32 = v mod 2 ^ 32) by (apply Zmod_unique with (q := -1); lia). lia. }
  pose proof (octet_stack_value 4 (u32 v) [] ltac:(lia)) as E.
  destruct (octet_stack _ _ _) as [|top tmp]; [cbn in E; lia|by destruct (negb _)].
Qed.

(** ** A record *)

Definition record_type (r : row) : Z := row_int r "record_type" 0.
Definition record_of (c : enc_cfg) (r : row) : tlv :=
  mk_tlv 2 true (record_type r) (bb_data (fill_record c r (record_type r) ber_init)).

(** a record begins with its type, and consists of elements *)
Lemma record_elements c r : exists l, Forall tlv_ok l
  /\ t_data (record_of c r) = enc_tlvs (mk_tlv 2 false 0 (encode_int (record_type r)) :: l).
Proof.
  destruct (write_all_writes _ (record_fields_write c r (record_type r))) as (l & Hl & E).
  exists l. split; [done|]. cbn [record_of t_data]. unfold fill_record, ber_ctx_int. rewrite E, prim_data.
  pose proof (encode_int_nonempty (record_type r) (row_int_range r _ 0 ltac:(lia))) as Hn.
  unfold field. destruct (encode_int _) as [|o d]; [done|].
  change (?t :: l) with ([t] ++ l). by rewrite enc_tlvs_app.
Qed.
Lemma record_nonempty c r : t_data (record_of c r) <> [].
Proof.
  destruct (record_elements c r) as (l & _ & ->). unfold enc_tlvs. cbn [map concat].
  pose proof (enc_tlv_nonempty (mk_tlv 2 false 0 (encode_int (record_type r)))). by destruct (enc_tlv _).
Qed.

(** ** The rows *)

Definition cut_line (line : string) : string :=
  cut_at (fun ch => Ascii.eqb ch CR || Ascii.eqb ch NL) line.
Definition csv_row (hdr : list string) (line : string) : option row :=
  if str_empty (cut_line line) then None else Some (make_row hdr (split_csv MAX_COLS (cut_line line))).
Definition csv_rows (hdr lines : list string) : list row := omap (csv_row hdr) lines.

Lemma encode_row_eq c hdr line a :
  bb_data (ea_recs (encode_row c hdr line a))
  = bb_data (ea_recs a) ++ enc_tlvs (map (record_of c) (csv_rows hdr [line]))
  /\ ea_nrows (encode_row c hdr line a) = ea_nrows a + Z.of_nat (length (csv_rows hdr [line])).
Proof.
  unfold encode_row, csv_rows. cbn [omap list_omap]. unfold csv_row. fold (cut_line line).
  destruct (str_empty (cut_line line)); cbn [length map]; [split; [by rewrite app_nil_r|lia]|].
  set (r := make_row _ _). cbn [ea_recs ea_nrows]. split; [|lia].
  rewrite raw_data, wrap_data. cbn [ber_init bb_data app]. f_equal. fold (record_type r).
  pose proof (record_nonempty c r) as Hn. cbn [record_of t_data] in Hn. unfold wrapped, record_of.
  by destruct (bb_data (fill_record _ _ _ _)).
Qed.

Lemma encode_rows_fold c hdr lines a :
  let a' := fold_left (fun a l => encode_row c hdr l a) lines a in
  bb_data (ea_recs a') = bb_data (ea_recs a) ++ enc_tlvs (map (record_of c) (csv_rows hdr lines))
  /\ ea_nrows a' = ea_nrows a + Z.of_nat (length (csv_rows hdr lines)).
Proof.
  revert a. induction lines as [|line lines IH]; intros a; cbn [fold_left].
  { split; [by rewrite app_nil_r|]. cbn. lia. }
  destruct (IH (encode_row c hdr line a)) as [E1 E2]. destruct (encode_row_eq c hdr line a) as [E3 E4].
  assert (E : csv_rows hdr (line :: lines) = csv_rows hdr [line] ++ csv_rows hdr lines).
  { unfold csv_rows. cbn. by destruct (csv_row hdr line). }
  cbv zeta. rewrite E, map_app, enc_tlvs_app, length_app. split; [|rewrite E2, E4; lia].
  by rewrite E1, E3, app_assoc.
Qed.
Lemma encode_rows_eq c hdr lines :
  bb_data (ea_recs (encode_rows c hdr lines)) = enc_tlvs (map (record_of c) (csv_rows hdr lines))
  /\ ea_nrows (encode_rows c hdr lines) = Z.of_nat (length (csv_rows hdr lines)).
Proof. apply encode_rows_fold. Qed.

(** the rows of a ticket file *)
Definition file_rows (f : list ascii) : list row :=
  match fgets LINE_MAX_LEN f with
  | None => []
  | Some (h, rest) => csv_rows (split_csv MAX_COLS (cut_line h)) (fgets_all (length rest) LINE_MAX_LEN rest)
  end.

(** ** The file *)

(** the elements of a constructed element with this class and tag *)
Definition parse_constr (cls tag : Z) (t : tlv) : option (list tlv) :=
  if (t_class t =? cls) && t_constr t && (t_tag t =? tag) then parse_tlvs (t_data t) else None.

(** header, records and trailer *)
Definition parse_file (octets : list Z) : option (list tlv * list tlv * list tlv) :=
  match parse_tlvs octets with
  | Some [s] =>
      match parse_constr 0 16 s with
      | Some [h; rs; t] =>
          match parse_constr 2 0 h, parse_constr 2 1 rs, parse_constr 2 2 t with
          | Some h, Some rs, Some t => Some (h, rs, t)
          | _, _, _ => None
          end
      | _ => None
      end
  | _ => None
  end.

Lemma read_constr cls tag ts : Forall tlv_ok ts -> Z.of_nat (length (enc_tlvs ts)) < 2 ^ 64 ->
  parse_constr cls tag (mk_tlv cls true tag (enc_tlvs ts)) = Some ts.
Proof.
  intros Hok Hn. unfold parse_constr. cbn [t_class t_constr t_tag t_data].
  rewrite !Z.eqb_refl. cbn [andb]. by apply read_tlvs.
Qed.

Lemma hex_bytes_nonempty outl s : (1 <= String.length s)%nat -> (String.length s < 2 * outl)%nat ->
  (String.length s <= 126)%nat -> ber_hex_bytes outl s <> [].
Proof.
  intros H1 H2 H3. unfold ber_hex_bytes. cbv zeta.
  rewrite (proj2 (Nat.eqb_neq _ _)) by lia.
  rewrite (proj2 (Nat.ltb_ge 128 (String.length s + 2))) by lia. rewrite andb_false_r.
  set (l := if Nat.odd _ then _ else _).
  assert (Hl : (2 <= length l <= S (String.length s))%nat).
  { unfold l. destruct (Nat.odd (String.length s)) eqn:E; cbn [length]; rewrite chars_length; [lia|].
    split; [|lia]. destruct (String.length s) as [|[|m]]; [lia|done|lia]. }
  assert (Hd : (length l / 2 <= outl)%nat).
  { apply Nat.Div0.div_le_upper_bound. lia. }
  rewrite (proj2 (Nat.ltb_ge _ _)) by done. destruct l as [|a [|b l']]; cbn in *; [lia|lia|done].
Qed.

Lemma timestamp_nonempty t tz : ber_timestamp 16 t tz <> [].
Proof.
  unfold ber_timestamp. cbv zeta. set (hex := _ +:+ _). apply hex_bytes_nonempty.
  all: unfold strlcpy; rewrite substring_length; try lia.
  assert (2 <= String.length hex)%nat; [|lia]. unfold hex. rewrite str_length_app.
  pose proof (pad0_length 2 (fmt_d (Z.rem (tm_year t + 1900) 100))). unfold fmt_0d at 1. lia.
Qed.

(** the elements of header and trailer *)
Definition header_fields (c : enc_cfg) (now : Z) (a : enc_acc) : list tlv :=
  field 0 (ber_timestamp 16 (gmtime now) (timezone c))
  ++ field 1 (ber_tbcd_number 33 (ea_entity a) 0x91).
Definition trailer_fields (c : enc_cfg) (now first last : Z) (a : enc_acc) : list tlv :=
  header_fields c now a ++ field 2 (ber_timestamp 16 (gmtime first) (timezone c))
  ++ field 3 (ber_timestamp 16 (gmtime last) (timezone c)) ++ field 4 (encode_int (ea_nrows a)).

Lemma enc_one t : enc_tlvs [t] = enc_tlv t.
Proof. apply app_nil_r. Qed.
Lemma body_data c now a : exists first last,
  bb_data (encode_body c now a)
  = enc_tlvs [mk_tlv 0 true 16
      (enc_tlvs (wrapped 0 (enc_tlvs (header_fields c now a)) ++ wrapped 1 (bb_data (ea_recs a))
                 ++ wrapped 2 (enc_tlvs (trailer_fields c now first last a))))].
Proof.
  unfold encode_body. destruct (ea_times a) as [first last].
  exists (if first =? 0 then now else first),
         (if last =? 0 then if first =? 0 then now else first else last).
  set (f := if first =? 0 then now else first). set (g := if last =? 0 then f else last). cbv zeta.
  unfold ber_ctx_isdn, ber_ctx_int, bb_len.
  rewrite raw_data, len_data, tag_data, !wrap_data, !prim_data.
  cbn [ber_init bb_data app]. unfold trailer_fields, header_fields.
  rewrite enc_one. unfold enc_tlv at 1. cbn [t_class t_constr t_tag t_data].
  rewrite !enc_tlvs_app, <- !app_assoc. done.
Qed.

(** how many records a trailer says there are *)
Definition record_count (t : list tlv) : option Z :=
  match List.find (fun x => t_tag x =? 4) t with
  | Some x => Some (int_value (t_data x))
  | None => None
  end.
Lemma find_skip tag data l : tag <> 4 ->
  List.find (fun x => t_tag x =? 4) (field tag data ++ l) = List.find (fun x => t_tag x =? 4) l.
Proof. intros H. destruct data; [done|]. cbn. by rewrite (proj2 (Z.eqb_neq _ _)). Qed.

Lemma trailer_count c now first last a : 0 <= ea_nrows a < 2 ^ 31 ->
  record_count (trailer_fields c now first last a) = Some (ea_nrows a).
Proof.
  intros Hn. unfold record_count, trailer_fields, header_fields. rewrite <- !app_assoc, !find_skip by done.
  pose proof (encode_int_nonempty (ea_nrows a) ltac:(lia)) as He.
  pose proof (encode_int_value (ea_nrows a)) as Hv. unfold u32 in Hv. rewrite Z.mod_small in Hv by lia.
  unfold field. destruct (encode_int _) as [|o d]; [done|]. exact (f_equal Some Hv).
Qed.

Lemma fields_ok c now first last a :
  Forall tlv_ok (header_fields c now a) /\ Forall tlv_ok (trailer_fields c now first last a).
Proof.
  unfold trailer_fields, header_fields. rewrite !Forall_app. split_and!; apply field_ok; lia.
Qed.
Lemma enc_tlvs_empty l : enc_tlvs l = [] -> l = [].
Proof.
  destruct l as [|t l]; [done|]. unfold enc_tlvs. cbn. pose proof (enc_tlv_nonempty t).
  by destruct (enc_tlv t).
Qed.
Lemma header_nonempty c now a l : header_fields c now a ++ l <> [].
Proof.
  unfold header_fields. pose proof (timestamp_nonempty (gmtime now) (timezone c)) as H. unfold field at 1.
  by destruct (ber_timestamp _ _ _).
Qed.

Lemma parse_enc h rs t : Forall tlv_ok h -> Forall tlv_ok rs -> Forall tlv_ok t ->
  let body := [mk_tlv 2 true 0 (enc_tlvs h); mk_tlv 2 true 1 (enc_tlvs rs); mk_tlv 2 true 2 (enc_tlvs t)] in
  Z.of_nat (length (enc_tlvs [mk_tlv 0 true 16 (enc_tlvs body)])) < 2 ^ 64 ->
  parse_file (enc_tlvs [mk_tlv 0 true 16 (enc_tlvs body)]) = Some (h, rs, t).
Proof.
  intros Hh Hr Ht body Hlen.
  assert (Hb : Forall tlv_ok body).
  { unfold body. do 3 (apply Forall_cons_2; [split; cbn; lia|]). apply Forall_nil_2. }
  assert (Hp : (length (enc_tlvs body) <= length (enc_tlvs [mk_tlv 0 true 16 (enc_tlvs body)]))%nat)
    by exact (enc_tlvs_part (mk_tlv 0 true 16 (enc_tlvs body)) [_] (list_elem_of_here _ _)).
  assert (Hin : forall x, x ∈ body -> Z.of_nat (length (t_data x)) < 2 ^ 64).
  { intros x Hx. pose proof (enc_tlvs_part x body Hx). lia. }
  unfold parse_file. rewrite read_tlvs; [|apply Forall_singleton; split; cbn; lia|done].
  rewrite read_constr; [|done|lia]. unfold body at 1.
  rewrite !read_constr; try done.
  - apply (Hin (mk_tlv 2 true 2 (enc_tlvs t))). right; right; left.
  - apply (Hin (mk_tlv 2 true 1 (enc_tlvs rs))). right; left.
  - apply (Hin (mk_tlv 2 true 0 (enc_tlvs h))). left.
Qed.

Lemma wrapped_some tag l : l <> [] -> wrapped tag (enc_tlvs l) = [mk_tlv 2 true tag (enc_tlvs l)].
Proof.
  intros Hl. unfold wrapped. destruct (enc_tlvs l) eqn:E; [|done]. by apply enc_tlvs_empty in E.
Qed.

Lemma parse_body c now a rs : bb_data (ea_recs a) = enc_tlvs rs -> rs <> [] -> Forall tlv_ok rs ->
  Z.of_nat (length (bb_data (encode_body c now a))) < 2 ^ 64 ->
  exists first last,
  parse_file (bb_data (encode_body c now a))
  = Some (header_fields c now a, rs, trailer_fields c now first last a).
Proof.
  intros Hr Hne Hok Hlen. destruct (body_data c now a) as (first & last & E). exists first, last.
  destruct (fields_ok c now first last a) as [Hh Ht].
  pose proof (header_nonempty c now a []) as Hhn. rewrite app_nil_r in Hhn.
  pose proof (header_nonempty c now a _ : trailer_fields c now first last a <> []) as Htn.
  rewrite Hr, !wrapped_some in E by done. rewrite E in *. by apply parse_enc.
Qed.

Lemma encode_file_reads c f now path octets c' :
  encode_file c (Some f) now true true = (inr (path, octets), c') ->
  Z.of_nat (length octets) < 2 ^ 31 -> Forall (fun r => 0 <= record_type r) (file_rows f) ->
  exists h t, parse_file octets = Some (h, map (record_of c) (file_rows f), t)
  /\ record_count t = Some (Z.of_nat (length (file_rows f))) /\ file_rows f <> []
  /\ (length (enc_tlvs (map (record_of c) (file_rows f))) <= length octets)%nat.
Proof.
  unfold encode_file, file_rows. destruct (fgets LINE_MAX_LEN f) as [[hl rest]|]; [|done]. fold (cut_line hl).
  set (hdr := split_csv _ _). set (lines := fgets_all _ _ _).
  destruct (encode_rows_eq c hdr lines) as [Er En]. set (a := encode_rows c hdr lines) in *.
  set (rows := csv_rows hdr lines) in *. clearbody a rows. clear hdr lines.
  destruct (Z.eqb_spec (ea_nrows a) 0) as [|Hn]; [done|]. cbn [negb]. intros [= _ <- _] Hlen Hpos.
  assert (Hok : Forall tlv_ok (map (record_of c) rows)).
  { apply Forall_map. eapply Forall_impl; [exact Hpos|]. intros r Hr. split; cbn; [lia|].
    split; [exact Hr|]. apply (row_int_range r _ 0); lia. }
  assert (Hne : rows <> []) by (intros ->; by rewrite En in Hn).
  destruct (parse_body c now a (map (record_of c) rows)) as (first & last & E); [done| |done|lia|].
  { by destruct rows. }
  assert (Hle : (length (enc_tlvs (map (record_of c) rows)) <= length (bb_data (encode_body c now a)))%nat).
  { destruct (body_data c now a) as (f1 & l1 & ->). rewrite Er.
    assert (Hw : mk_tlv 2 true 1 (enc_tlvs (map (record_of c) rows)) ∈ wrapped 1 (enc_tlvs (map (record_of c) rows))).
    { unfold wrapped. destruct (enc_tlvs (map _ _)) eqn:Ee; [|by left].
      apply enc_tlvs_empty in Ee. by destruct rows. }
    etransitivity; [apply (enc_tlvs_part _ _ Hw)|].
    etransitivity; [|apply (enc_tlvs_part _ _ (list_elem_of_here _ _))]. cbn [t_data].
    rewrite !enc_tlvs_app, !length_app. lia. }
  eexists _, _. split; [exact E|]. split; [|done]. rewrite <- En. apply trailer_count.
  rewrite En. split; [lia|].
  pose proof (enc_tlvs_length (map (record_of c) rows)) as Hl. rewrite length_map in Hl. lia.
Qed.

(** C17: What the encoder writes is a well-formed file with the whole content:
    when it reports success, its output is a SEQUENCE of header, records and
    trailer; there is exactly one record for every row of the ticket file,
    under the tag of its record type and with what [fill_record] makes of that
    row; and the trailer gives their number.  The types of the rows are not negative and
    the output has less than 2^31 octets. *)
Theorem encode_file_readable c f now path octets c' :
  encode_file c (Some f) now true true = (inr (path, octets), c') ->
  Z.of_nat (length octets) < 2 ^ 31 -> Forall (fun r => 0 <= record_type r) (file_rows f) ->
  exists h t, parse_file octets = Some (h, map (record_of c) (file_rows f), t)
  /\ record_count t = Some (Z.of_nat (length (file_rows f))) /\ file_rows f <> [].
Proof.
  intros E Hl Hr. destruct (encode_file_reads _ _ _ _ _ _ E Hl Hr) as (h & t & Hp & Hc & Hn & _).
  by exists h, t.
Qed.

Definition sample_csv : list ascii :=
  chars ("record_type,record_number,served_imsi,seizure_time,call_reference" +:+ String NL
         ("0,7,262420000000001,20231114221320,0x1f" +:+ String NL "")).
Lemma encode_file_readable_witness :
  match encode_file cfg_defaults (Some sample_csv) 1700000000 true true with
  | (inr (_, octets), _) => exists h t,
      parse_file octets = Some (h, map (record_of cfg_defaults) (file_rows sample_csv), t)
      /\ record_count t = Some (Z.of_nat (length (file_rows sample_csv))) /\ file_rows sample_csv <> []
  | _ => False
  end.
Proof.
  destruct (encode_file cfg_defaults (Some sample_csv) 1700000000 true true) as [[e|[path octets]] c'] eqn:E.
  - vm_compute in E. discriminate.
  - apply (encode_file_readable _ _ _ _ _ _ E); vm_compute in E; injection E as <- <- <-.
    + vm_compute. reflexivity.
    + constructor; [vm_compute; discriminate|constructor].
Defined.
