(* ===== verification/Codecs.v ===== *)
(** * Codecs of a call (sdp_msg.c, codec_mapping.c, codec_filter.c)

    Lists of audio codecs, their translation between the representations of
    SDP, call control and BSSMAP, and the choice of a codec that all sides of
    a call can use.  An array with its count is a list. *)

From S2P Require Import Prelude VlrTypes.
From Stdlib Require Import Ascii.

(** ** Audio codecs *)

(** sizeof(subtype_name), sizeof(fmtp) and ARRAY_SIZE(codec) *)
Definition SUBTYPE_SIZE : nat := 16.
Definition FMTP_SIZE : nat := 256.
Definition MAX_CODECS : nat := 16.

#[projections(primitive)]
Record sdp_audio_codec : Type := mk_codec {
  payload_type : Z; subtype_name : string; sc_rate : Z; fmtp : string
}.
Notation sdp_audio_codecs := (list sdp_audio_codec).
Definition no_codec : sdp_audio_codec := mk_codec 0 "" 0 "".

Definition sdp_audio_codec_is_set (a : sdp_audio_codec) : bool := str_nonempty (subtype_name a).

Definition strncmp (a b : string) (n : nat) : comparison :=
  String.compare (String.substring 0 n a) (String.substring 0 n b).

(** OSMO_CMP, and the sign of what the functions return *)
Definition sdp_audio_codec_cmp (a b : sdp_audio_codec) (cmp_fmtp cmp_payload_type : bool) : comparison :=
  match strncmp (subtype_name a) (subtype_name b) SUBTYPE_SIZE with
  | Eq =>
      match Z.compare (sc_rate a) (sc_rate b) with
      | Eq =>
          match (if cmp_fmtp then strncmp (fmtp a) (fmtp b) FMTP_SIZE else Eq) with
          | Eq => if cmp_payload_type then Z.compare (payload_type a) (payload_type b) else Eq
          | c => c
          end
      | c => c
      end
  | c => c
  end.

Definition is_eq (c : comparison) : bool := match c with Eq => true | _ => false end.

Definition sdp_audio_codecs_cmp (a b : sdp_audio_codecs) (cmp_fmtp cmp_payload_type : bool) : comparison :=
  match Nat.compare (length a) (length b) with
  | Eq =>
      match a, b with
      | a0 :: _, b0 :: _ =>
          match sdp_audio_codec_cmp a0 b0 cmp_fmtp cmp_payload_type with
          | Eq =>
              if forallb (fun x => existsb (fun y => is_eq (sdp_audio_codec_cmp x y cmp_fmtp cmp_payload_type)) b) a
              then Eq else Lt
          | c => c
          end
      | _, _ => Eq
      end
  | c => c
  end.

(** the index of the entry that a function returns a pointer to *)
Definition find_index {A} (p : A -> bool) (l : list A) : option nat :=
  fst <$> list_find (fun x => p x = true) l.

Definition sdp_audio_codecs_by_payload_type (ac : sdp_audio_codecs) (pt : Z) (create : bool)
  : option nat * sdp_audio_codecs :=
  match find_index (fun c => payload_type c =? pt) ac with
  | Some i => (Some i, ac)
  | None =>
      if negb create then (None, ac)
      else if Nat.leb MAX_CODECS (length ac) then (None, ac)
      else (Some (length ac), ac ++ [mk_codec pt "" 8000 ""])
  end.

(** [fmtp] may be NULL *)
Definition sdp_audio_codecs_add (ac : sdp_audio_codecs) (pt : Z) (name : string) (rate : Z)
    (f : option string) : option nat * sdp_audio_codecs :=
  match sdp_audio_codecs_by_payload_type ac pt false with
  | (Some i, _) =>
      match ac !! i with
      | Some codec =>
          let codec' := if str_empty (subtype_name codec)
                        then codec <| subtype_name := strlcpy SUBTYPE_SIZE name |> else codec in
          let ac := <[i := codec']> ac in
          if str_nonempty (subtype_name codec) && negb (String.eqb (subtype_name codec) name) then (None, ac)
          else if negb (sc_rate codec =? rate)
                  || match f with Some f => negb (String.eqb f (fmtp codec)) | None => false end
          then (None, ac)
          else (Some i, ac)
      | None => (None, ac)
      end
  | (None, _) =>
      match sdp_audio_codecs_by_payload_type ac pt true with
      | (None, ac) => (None, ac)
      | (Some i, ac) =>
          (Some i, alter (fun c => mk_codec (payload_type c) (strlcpy SUBTYPE_SIZE name) rate
                             match f with Some f => strlcpy FMTP_SIZE f | None => fmtp c end) i ac)
      end
  end.

Definition sdp_audio_codecs_add_copy (ac : sdp_audio_codecs) (c : sdp_audio_codec)
  : option nat * sdp_audio_codecs :=
  sdp_audio_codecs_add ac (payload_type c) (subtype_name c) (sc_rate c)
    (if str_nonempty (fmtp c) then Some (fmtp c) else None).

Definition sdp_audio_codecs_by_descr (ac : sdp_audio_codecs) (codec : sdp_audio_codec) : option nat :=
  find_index (fun c => is_eq (sdp_audio_codec_cmp c codec false false)) ac.

(** [None]: -ENOENT *)
Definition sdp_audio_codecs_remove (ac : sdp_audio_codecs) (i : nat) : option sdp_audio_codecs :=
  if Nat.leb (length ac) i then None else Some (delete i ac).

(** the loop over the index; [fuel] bounds the number of its rounds *)
Fixpoint intersection_loop (fuel i : nat) (dest other : sdp_audio_codecs) (translate : bool)
  : sdp_audio_codecs :=
  match fuel with
  | O => dest
  | S fuel =>
      match dest !! i with
      | None => dest
      | Some codec =>
          match sdp_audio_codecs_by_descr other codec with
          | None =>
              match sdp_audio_codecs_remove dest i with
              | Some dest => intersection_loop fuel i dest other translate
              | None => dest
              end
          | Some j =>
              let pt := match other !! j with Some o => payload_type o | None => 0 end in
              let dest := if translate then <[i := codec <| payload_type := pt |>]> dest else dest in
              intersection_loop fuel (S i) dest other translate
          end
      end
  end.
Definition sdp_audio_codecs_intersection (dest other : sdp_audio_codecs) (translate : bool)
  : sdp_audio_codecs := intersection_loop (length dest) 0 dest other translate.

(** the entry moves to the front, those before it one up *)
Definition sdp_audio_codecs_select (ac : sdp_audio_codecs) (i : nat) : sdp_audio_codecs :=
  match i, ac !! i with
  | O, _ | _, None => ac
  | _, Some c => c :: delete i ac
  end.

Definition sdp_audio_codecs_set_csd : sdp_audio_codecs := [mk_codec 120 "CLEARMODE" 8000 ""].

(** ** The mapping *)

(** speech versions of call control (libosmogsm, enum gsm48_bcap_speech_ver) *)
Definition GSM48_BCAP_SV_FR : Z := 0.
Definition GSM48_BCAP_SV_HR : Z := 1.
Definition GSM48_BCAP_SV_EFR : Z := 2.
Definition GSM48_BCAP_SV_AMR_F : Z := 4.
Definition GSM48_BCAP_SV_AMR_H : Z := 5.
Definition GSM48_BCAP_SV_AMR_OFW : Z := 6.
Definition GSM48_BCAP_SV_AMR_OHW : Z := 7.
Definition GSM48_BCAP_SV_AMR_FW : Z := 8.
Definition GSM48_BCAP_SV_AMR_OH : Z := 11.

(** enum mgcp_codecs of libosmo-mgcp-client *)
Inductive mgcp_codecs : Type :=
| CODEC_PCMU_8000_1 | CODEC_GSM_8000_1 | CODEC_PCMA_8000_1 | CODEC_G729_8000_1 | CODEC_GSMEFR_8000_1
| CODEC_GSMHR_8000_1 | CODEC_AMR_8000_1 | CODEC_AMRWB_16000_1 | CODEC_IUFP | CODEC_CLEARMODE
| NO_MGCP_CODEC.
#[export] Instance mgcp_codecs_eq_dec : EqDecision mgcp_codecs.
Proof. solve_decision. Defined.

(** speech codec types, permitted speech and payload types of libosmogsm *)
Inductive gsm0808_speech_codec_type : Type :=
| GSM0808_SCT_FR1 | GSM0808_SCT_FR2 | GSM0808_SCT_FR3 | GSM0808_SCT_FR4 | GSM0808_SCT_FR5
| GSM0808_SCT_HR1 | GSM0808_SCT_HR3 | GSM0808_SCT_HR4 | GSM0808_SCT_HR6 | GSM0808_SCT_CSD.
#[export] Instance sct_eq_dec : EqDecision gsm0808_speech_codec_type.
Proof. solve_decision. Defined.

(** [PERM_NONE]: zero *)
Inductive gsm0808_permitted_speech : Type :=
| PERM_NONE
| GSM0808_PERM_FR1 | GSM0808_PERM_FR2 | GSM0808_PERM_FR3 | GSM0808_PERM_FR4 | GSM0808_PERM_FR5
| GSM0808_PERM_HR1 | GSM0808_PERM_HR2 | GSM0808_PERM_HR3 | GSM0808_PERM_HR4 | GSM0808_PERM_HR6.
#[export] Instance perm_eq_dec : EqDecision gsm0808_permitted_speech.
Proof. solve_decision. Defined.

(** [PAYLOAD_NONE]: zero *)
Inductive mncc_payload : Type :=
| PAYLOAD_NONE | GSM_TCHF_FRAME | GSM_TCHF_FRAME_EFR | GSM_TCHH_FRAME | GSM_TCH_FRAME_AMR.

Inductive codec_frhr : Type := CODEC_FRHR_NONE | CODEC_FRHR_FR | CODEC_FRHR_HR.

#[projections(primitive)]
Record gsm0808_speech_codec : Type := mk_speech_codec {
  g_fi : bool; g_pi : bool; g_type : gsm0808_speech_codec_type; g_cfg : Z
}.

(** libosmogsm: the AMR configurations, and the size of a speech codec list *)
Class AmrCfg : Type := {
  SPEECH_CODEC_LIST_SIZE : nat;
  GSM0808_SC_CFG_DEFAULT_FR_AMR : Z;
  GSM0808_SC_CFG_DEFAULT_HR_AMR : Z;
  GSM0808_SC_CFG_DEFAULT_FR_AMR_WB : Z;
  GSM0808_SC_CFG_DEFAULT_OHR_AMR_WB : Z
}.

#[projections(primitive)]
Record codec_mapping : Type := mk_mapping {
  cm_sdp : sdp_audio_codec; cm_mgcp : mgcp_codecs; cm_speech_ver : list Z;
  cm_mncc_payload_msg_type : mncc_payload; cm_gsm0808 : option gsm0808_speech_codec;
  cm_perm_speech : gsm0808_permitted_speech; cm_frhr : codec_frhr
}.

(** struct gsm_mncc_bearer_cap of libosmogsm; [bc_speech_ver] without its
    terminating -1 *)
#[projections(primitive)]
Record bcap_data : Type := mk_bcap_data {
  bd_rate_adaption : Z; bd_sig_access : Z; bd_async : bool; bd_nr_stop_bits : Z; bd_nr_data_bits : Z;
  bd_user_rate : Z; bd_parity : Z; bd_interm_rate : Z; bd_transp : Z; bd_modem_type : Z
}.
#[projections(primitive)]
Record gsm_mncc_bearer_cap : Type := mk_bcap {
  bc_transfer : Z; bc_mode : Z; bc_coding : Z; bc_radio : Z; bc_speech_ver : list Z; bc_data : bcap_data
}.
Definition no_bcap_data : bcap_data := mk_bcap_data 0 0 false 0 0 0 0 0 0 0.
Definition bearer_cap_empty : gsm_mncc_bearer_cap := mk_bcap 0 0 0 0 [] no_bcap_data.
(** ARRAY_SIZE(speech_ver) *)
Definition SPEECH_VER_SIZE : nat := 8.

(** information transfer capability and radio channel requirement, TS 24.008
    10.5.4.5 *)
Definition GSM48_BCAP_ITCAP_SPEECH : Z := 0.
Definition GSM48_BCAP_ITCAP_UNR_DIG_INF : Z := 1.
Definition GSM48_BCAP_ITCAP_3k1_AUDIO : Z := 2.
Definition GSM48_BCAP_ITCAP_FAX_G3 : Z := 3.
Definition GSM48_BCAP_RRQ_FR_ONLY : Z := 1.
Definition GSM48_BCAP_RRQ_DUAL_FR : Z := 3.

Section mapping.
Context {AC : AmrCfg}.

Definition codec_map : list codec_mapping :=
  let none pt name rate mgcp :=
    mk_mapping (mk_codec pt name rate "") mgcp [] PAYLOAD_NONE None PERM_NONE CODEC_FRHR_NONE in
  let speech pt name rate f mgcp sv payload type cfg perm frhr :=
    mk_mapping (mk_codec pt name rate f) mgcp sv payload (Some (mk_speech_codec true false type cfg)) perm frhr in
  [none 0 "PCMU" 8000 CODEC_PCMU_8000_1;
   speech 3 "GSM" 8000 "" CODEC_GSM_8000_1 [GSM48_BCAP_SV_FR] GSM_TCHF_FRAME
     GSM0808_SCT_FR1 0 GSM0808_PERM_FR1 CODEC_FRHR_FR;
   none 8 "PCMA" 8000 CODEC_PCMA_8000_1;
   none 18 "G729" 8000 CODEC_G729_8000_1;
   speech 110 "GSM-EFR" 8000 "" CODEC_GSMEFR_8000_1 [GSM48_BCAP_SV_EFR] GSM_TCHF_FRAME_EFR
     GSM0808_SCT_FR2 0 GSM0808_PERM_FR2 CODEC_FRHR_FR;
   speech 111 "GSM-HR-08" 8000 "" CODEC_GSMHR_8000_1 [GSM48_BCAP_SV_HR] GSM_TCHH_FRAME
     GSM0808_SCT_HR1 0 GSM0808_PERM_HR1 CODEC_FRHR_HR;
   speech 112 "AMR" 8000 "octet-align=1" CODEC_AMR_8000_1 [GSM48_BCAP_SV_AMR_F] GSM_TCH_FRAME_AMR
     GSM0808_SCT_FR3 GSM0808_SC_CFG_DEFAULT_FR_AMR GSM0808_PERM_FR3 CODEC_FRHR_FR;
   speech 112 "AMR" 8000 "octet-align=1" CODEC_AMR_8000_1 [GSM48_BCAP_SV_AMR_H; GSM48_BCAP_SV_AMR_OH]
     GSM_TCH_FRAME_AMR GSM0808_SCT_HR3 GSM0808_SC_CFG_DEFAULT_HR_AMR GSM0808_PERM_HR3 CODEC_FRHR_HR;
   speech 113 "AMR-WB" 16000 "octet-align=1" CODEC_AMRWB_16000_1 [GSM48_BCAP_SV_AMR_OFW; GSM48_BCAP_SV_AMR_FW]
     GSM_TCH_FRAME_AMR GSM0808_SCT_FR5 GSM0808_SC_CFG_DEFAULT_FR_AMR_WB GSM0808_PERM_FR5 CODEC_FRHR_FR;
   speech 113 "AMR-WB" 16000 "octet-align=1" CODEC_AMRWB_16000_1 [GSM48_BCAP_SV_AMR_OHW]
     GSM_TCH_FRAME_AMR GSM0808_SCT_HR4 GSM0808_SC_CFG_DEFAULT_OHR_AMR_WB GSM0808_PERM_HR4 CODEC_FRHR_HR;
   none 96 "VND.3GPP.IUFP" 16000 CODEC_IUFP;
   mk_mapping (mk_codec 120 "CLEARMODE" 8000 "") CODEC_CLEARMODE [] PAYLOAD_NONE
     (Some (mk_speech_codec false true GSM0808_SCT_CSD 0)) PERM_NONE CODEC_FRHR_NONE].

Definition codec_mapping_by_speech_ver (sv : Z) : option codec_mapping :=
  find (fun m => existsb (Z.eqb sv) (cm_speech_ver m)) codec_map.

Definition codec_mapping_by_gsm0808_speech_codec_type (sct : gsm0808_speech_codec_type)
  : option codec_mapping :=
  find (fun m => match cm_gsm0808 m with Some g => bool_decide (g_type g = sct) | None => false end) codec_map.

Definition codec_mapping_by_gsm0808_speech_codec (sc : gsm0808_speech_codec) : option codec_mapping :=
  find (fun m => match cm_gsm0808 m with
                 | Some g => bool_decide (g_type g = g_type sc) && (Z.land (g_cfg g) (g_cfg sc) =? g_cfg sc)
                 | None => false
                 end) codec_map.

Definition codec_mapping_by_perm_speech (p : gsm0808_permitted_speech) : option codec_mapping :=
  find (fun m => bool_decide (cm_perm_speech m = p)) codec_map.

Definition codec_mapping_by_subtype_name (name : string) : option codec_mapping :=
  find (fun m => String.eqb (subtype_name (cm_sdp m)) name) codec_map.

Definition codec_mapping_by_mgcp_codec (mgcp : mgcp_codecs) : option codec_mapping :=
  find (fun m => bool_decide (cm_mgcp m = mgcp)) codec_map.

(** ** Bearer capabilities *)

(** the number of entries added; the last place of the array is for the -1 *)
Definition bearer_cap_add_speech_ver (sv : Z) (bc : gsm_mncc_bearer_cap) : Z * gsm_mncc_bearer_cap :=
  if existsb (Z.eqb sv) (bc_speech_ver bc) then (0, bc)
  else if Nat.ltb (length (bc_speech_ver bc)) (SPEECH_VER_SIZE - 1)
  then (1, bc <| bc_speech_ver ::= fun l => l ++ [sv] |>)
  else (0, bc).

Definition bearer_cap_set_radio (bc : gsm_mncc_bearer_cap) : gsm_mncc_bearer_cap :=
  let hr sv := match codec_mapping_by_speech_ver sv with
               | Some m => match cm_frhr m with CODEC_FRHR_HR => true | _ => false end
               | None => false
               end in
  bc <| bc_radio := if existsb hr (bc_speech_ver bc) then GSM48_BCAP_RRQ_DUAL_FR else GSM48_BCAP_RRQ_FR_ONLY |>.

(** [false]: -ENOTSUP *)
Definition bearer_cap_filter_rev_lev (rev_lev : Z) (bc : gsm_mncc_bearer_cap) : bool * gsm_mncc_bearer_cap :=
  if 0 <? rev_lev then (true, bc)
  else (existsb (fun sv => (sv =? GSM48_BCAP_SV_FR) || (sv =? GSM48_BCAP_SV_HR)) (bc_speech_ver bc),
        bc <| bc_speech_ver := [] |>).

(** the speech versions that a codec adds *)
Definition codec_speech_vers (codec : sdp_audio_codec) : list Z :=
  concat (map cm_speech_ver
            (List.filter (fun m => String.eqb (subtype_name (cm_sdp m)) (subtype_name codec)) codec_map)).

Definition add_speech_vers (svs : list Z) (bc : gsm_mncc_bearer_cap) : Z * gsm_mncc_bearer_cap :=
  fold_left (fun acc sv => let '(added, bc) := acc in
                           let '(n, bc) := bearer_cap_add_speech_ver sv bc in (added + n, bc))
    svs (0, bc).

Definition sdp_audio_codec_add_to_bearer_cap (codec : sdp_audio_codec) (bc : gsm_mncc_bearer_cap)
  : Z * gsm_mncc_bearer_cap := add_speech_vers (codec_speech_vers codec) bc.

Definition sdp_audio_codecs_to_bearer_cap (ac : sdp_audio_codecs) (bc : gsm_mncc_bearer_cap)
  : Z * gsm_mncc_bearer_cap :=
  fold_left (fun acc codec => let '(added, bc) := acc in
                              let '(n, bc) := sdp_audio_codec_add_to_bearer_cap codec bc in (added + n, bc))
    ac (0, bc).

Definition sdp_audio_codecs_add_speech_ver (ac : sdp_audio_codecs) (sv : Z) : sdp_audio_codecs :=
  fold_left (fun ac m => if existsb (Z.eqb sv) (cm_speech_ver m)
                         then (sdp_audio_codecs_add_copy ac (cm_sdp m)).2 else ac)
    codec_map ac.

Definition sdp_audio_codecs_add_mgcp_codec (ac : sdp_audio_codecs) (mgcp : mgcp_codecs) : sdp_audio_codecs :=
  match codec_mapping_by_mgcp_codec mgcp with
  | None => ac
  | Some m => (sdp_audio_codecs_add_copy ac (cm_sdp m)).2
  end.

Definition sdp_audio_codecs_from_bearer_cap (ac : sdp_audio_codecs) (bc : gsm_mncc_bearer_cap)
  : sdp_audio_codecs := fold_left sdp_audio_codecs_add_speech_ver (bc_speech_ver bc) ac.

(** ** BSSMAP *)

Inductive scl_result : Type := SclAdded | SclNoEnt | SclNoSpc.
Definition sdp_audio_codec_to_speech_codec_list (scl : list gsm0808_speech_codec) (codec : sdp_audio_codec)
  : scl_result * list gsm0808_speech_codec :=
  match codec_mapping_by_subtype_name (subtype_name codec) with
  | None => (SclNoEnt, scl)
  | Some m =>
      match cm_gsm0808 m with
      | None => (SclNoEnt, scl)
      | Some g => if Nat.leb SPEECH_CODEC_LIST_SIZE (length scl) then (SclNoSpc, scl) else (SclAdded, scl ++ [g])
      end
  end.

Fixpoint speech_codec_list_from (scl : list gsm0808_speech_codec) (ac : sdp_audio_codecs)
  : list gsm0808_speech_codec :=
  match ac with
  | [] => scl
  | codec :: ac =>
      match sdp_audio_codec_to_speech_codec_list scl codec with
      | (SclNoSpc, scl) => scl
      | (_, scl) => speech_codec_list_from scl ac
      end
  end.
Definition sdp_audio_codecs_to_speech_codec_list (ac : sdp_audio_codecs) : list gsm0808_speech_codec :=
  speech_codec_list_from [] ac.

Definition sdp_audio_codecs_from_speech_codec_list (ac : sdp_audio_codecs) (cl : list gsm0808_speech_codec)
  : sdp_audio_codecs :=
  fold_left (fun ac sc => match codec_mapping_by_gsm0808_speech_codec sc with
                          | None => ac
                          | Some m => (sdp_audio_codecs_add_copy ac (cm_sdp m)).2
                          end) cl ac.

(** struct gsm0808_channel_type of libosmogsm *)
Inductive ch_indctr : Type := GSM0808_CHAN_NONE | GSM0808_CHAN_SPEECH | GSM0808_CHAN_DATA.
Inductive ch_rate : Type :=
| CH_RATE_NONE | GSM0808_SPEECH_FULL_BM | GSM0808_SPEECH_HALF_LM | GSM0808_SPEECH_FULL_PREF
| GSM0808_SPEECH_HALF_PREF | GSM0808_DATA_FULL_BM | GSM0808_DATA_FULL_PREF.
#[projections(primitive)]
Record gsm0808_channel_type : Type := mk_channel_type {
  ct_indctr : ch_indctr; ct_rate : ch_rate; ct_perm_spch : list gsm0808_permitted_speech;
  ct_data_transparent : bool; ct_data_rate : Z; ct_data_rate_allowed : option Z
}.

Inductive perm_class : Type := PermFr | PermHr | PermOther.
Definition perm_class_of (p : gsm0808_permitted_speech) : perm_class :=
  match p with
  | GSM0808_PERM_FR1 | GSM0808_PERM_FR2 | GSM0808_PERM_FR3 | GSM0808_PERM_FR4 | GSM0808_PERM_FR5 => PermFr
  | GSM0808_PERM_HR1 | GSM0808_PERM_HR2 | GSM0808_PERM_HR3 | GSM0808_PERM_HR4 | GSM0808_PERM_HR6 => PermHr
  | PERM_NONE => PermOther
  end.

(** first_fr_idx, first_hr_idx (None while there is none) and the list so far *)
#[projections(primitive)]
Record ct_acc : Type := mk_ct_acc {
  ca_first_fr : option nat; ca_first_hr : option nat; ca_perm : list gsm0808_permitted_speech
}.
Definition first_of (o : option nat) (idx : nat) : option nat := match o with None => Some idx | _ => o end.
Definition ct_add (idx : nat) (a : ct_acc) (m : codec_mapping) : ct_acc :=
  let p := cm_perm_speech m in
  let add l := if existsb (fun q => bool_decide (q = p)) l then l else l ++ [p] in
  match perm_class_of p with
  | PermOther => a
  | PermFr => a <| ca_first_fr ::= fun o => first_of o idx |> <| ca_perm ::= add |>
  | PermHr => a <| ca_first_hr ::= fun o => first_of o idx |> <| ca_perm ::= add |>
  end.
Definition ct_codec (idx : nat) (codec : sdp_audio_codec) (a : ct_acc) : ct_acc :=
  fold_left (ct_add idx)
    (List.filter (fun m => String.eqb (subtype_name (cm_sdp m)) (subtype_name codec)) codec_map) a.
Fixpoint ct_codecs (idx : nat) (ac : sdp_audio_codecs) (a : ct_acc) : ct_acc :=
  match ac with [] => a | codec :: ac => ct_codecs (S idx) ac (ct_codec idx codec a) end.

(** [None]: -EINVAL *)
Definition sdp_audio_codecs_to_gsm0808_channel_type (ac : sdp_audio_codecs) : option gsm0808_channel_type :=
  let a := ct_codecs 0 ac (mk_ct_acc None None []) in
  let ct rate := Some (mk_channel_type GSM0808_CHAN_SPEECH rate (ca_perm a) false 0 None) in
  match ca_first_fr a, ca_first_hr a with
  | Some fr, Some hr => ct (if Nat.leb fr hr then GSM0808_SPEECH_FULL_PREF else GSM0808_SPEECH_HALF_PREF)
  | Some _, None => ct GSM0808_SPEECH_FULL_BM
  | None, Some _ => ct GSM0808_SPEECH_HALF_LM
  | None, None => None
  end.

Definition sdp_audio_codec_to_mgcp_codec (codec : sdp_audio_codec) : mgcp_codecs :=
  match find (fun m => is_eq (sdp_audio_codec_cmp (cm_sdp m) codec false false)) codec_map with
  | Some m => cm_mgcp m
  | None => NO_MGCP_CODEC
  end.

(** ** The filter *)

#[projections(primitive)]
Record codec_filter : Type := mk_codec_filter {
  cf_ran : sdp_audio_codecs; cf_ms : sdp_audio_codecs; cf_bss : sdp_audio_codecs;
  cf_assignment : sdp_audio_codec
}.
Definition no_codec_filter : codec_filter := mk_codec_filter [] [] [] no_codec.

Definition sdp_add_all_geran_codecs (ac : sdp_audio_codecs) : sdp_audio_codecs :=
  fold_left sdp_audio_codecs_add_speech_ver
    [GSM48_BCAP_SV_AMR_F; GSM48_BCAP_SV_AMR_H; GSM48_BCAP_SV_EFR; GSM48_BCAP_SV_FR; GSM48_BCAP_SV_HR] ac.
Definition sdp_add_all_utran_codecs (ac : sdp_audio_codecs) : sdp_audio_codecs :=
  fold_left sdp_audio_codecs_add_speech_ver
    [GSM48_BCAP_SV_AMR_F; GSM48_BCAP_SV_AMR_H; GSM48_BCAP_SV_AMR_OH; GSM48_BCAP_SV_AMR_FW;
     GSM48_BCAP_SV_AMR_OFW; GSM48_BCAP_SV_AMR_OHW] ac.

Definition codec_filter_set_ran (ran : osmo_rat_type) (f : codec_filter) : codec_filter :=
  f <| cf_ran := match ran with
                 | OSMO_RAT_UTRAN_IU => sdp_add_all_utran_codecs []
                 | _ => sdp_add_all_geran_codecs []
                 end |>.

(** the list may be NULL *)
Definition codec_filter_set_bss (bss : option (list gsm0808_speech_codec)) (f : codec_filter) : codec_filter :=
  f <| cf_bss := match bss with
                 | Some l => sdp_audio_codecs_from_speech_codec_list [] l
                 | None => []
                 end |>.

Definition restrict (r other : sdp_audio_codecs) (translate : bool) : sdp_audio_codecs :=
  match other with [] => r | _ => sdp_audio_codecs_intersection r other translate end.

(** the audio codecs of the result *)
Definition codec_filter_run (f : codec_filter) (remote : sdp_audio_codecs) : sdp_audio_codecs :=
  let r := restrict (restrict (restrict (cf_ran f) (cf_ms f) false) (cf_bss f) false) remote true in
  if sdp_audio_codec_is_set (cf_assignment f)
  then match sdp_audio_codecs_by_descr r (cf_assignment f) with
       | Some i => sdp_audio_codecs_select r i
       | None => r
       end
  else r.
End mapping.
