(* ===== verification/Csd.v ===== *)
(** * Bearer services of circuit switched data (csd_bs.c, csd_filter.c) *)

From S2P Require Import Prelude CLib VlrTypes Codecs.
From Stdlib Require Import Ascii.

(** ** Bearer services *)

Inductive csd_bs : Type :=
| CSD_BS_NONE
| CSD_BS_21_T_V110_0k3 | CSD_BS_22_T_V110_1k2 | CSD_BS_24_T_V110_2k4 | CSD_BS_25_T_V110_4k8
| CSD_BS_26_T_V110_9k6
| CSD_BS_21_NT_V110_0k3 | CSD_BS_22_NT_V110_1k2 | CSD_BS_24_NT_V110_2k4 | CSD_BS_25_NT_V110_4k8
| CSD_BS_26_NT_V110_9k6
| CSD_BS_31_T_V110_1k2 | CSD_BS_32_T_V110_2k4 | CSD_BS_33_T_V110_4k8 | CSD_BS_34_T_V110_9k6.
#[export] Instance csd_bs_eq_dec : EqDecision csd_bs.
Proof. solve_decision. Defined.
Definition CSD_BS_MAX : nat := 15.

Definition csd_bs_valid (bs : csd_bs) : bool := match bs with CSD_BS_NONE => false | _ => true end.

(** TS 24.008 10.5.4.5: rate adaption, user rate, intermediate rate,
    connection element *)
Definition GSM48_BCAP_RA_NONE : Z := 0.
Definition GSM48_BCAP_RA_V110_X30 : Z := 1.
Definition GSM48_BCAP_UR_300 : Z := 1.
Definition GSM48_BCAP_UR_1200 : Z := 2.
Definition GSM48_BCAP_UR_2400 : Z := 3.
Definition GSM48_BCAP_UR_4800 : Z := 4.
Definition GSM48_BCAP_UR_9600 : Z := 5.
Definition GSM48_BCAP_IR_8k : Z := 2.
Definition GSM48_BCAP_IR_16k : Z := 3.
Definition GSM48_BCAP_TR_TRANSP : Z := 0.
Definition GSM48_BCAP_TR_RLP : Z := 1.
Definition GSM48_BCAP_TR_TR_PREF : Z := 2.
Definition GSM48_BCAP_TR_RLP_PREF : Z := 3.
Definition GSM48_BCAP_SA_I440_I450 : Z := 1.
Definition GSM48_BCAP_PAR_NONE : Z := 3.
Definition GSM48_BCAP_MT_NONE : Z := 0.

#[projections(primitive)]
Record csd_bs_map : Type := mk_bs_map { bm_num : Z; bm_async : bool; bm_transp : bool; bm_ra : Z; bm_rate : Z }.

(** the entry of [CSD_BS_NONE] is all zero *)
Definition bs_map (bs : csd_bs) : csd_bs_map :=
  let v110 num async transp rate := mk_bs_map num async transp GSM48_BCAP_RA_V110_X30 rate in
  match bs with
  | CSD_BS_NONE => mk_bs_map 0 false false 0 0
  | CSD_BS_21_T_V110_0k3 => v110 21 true true 300
  | CSD_BS_22_T_V110_1k2 => v110 22 true true 1200
  | CSD_BS_24_T_V110_2k4 => v110 24 true true 2400
  | CSD_BS_25_T_V110_4k8 => v110 25 true true 4800
  | CSD_BS_26_T_V110_9k6 => v110 26 true true 9600
  | CSD_BS_21_NT_V110_0k3 => v110 21 true false 300
  | CSD_BS_22_NT_V110_1k2 => v110 22 true false 1200
  | CSD_BS_24_NT_V110_2k4 => v110 24 true false 2400
  | CSD_BS_25_NT_V110_4k8 => v110 25 true false 4800
  | CSD_BS_26_NT_V110_9k6 => v110 26 true false 9600
  | CSD_BS_31_T_V110_1k2 => v110 31 false true 1200
  | CSD_BS_32_T_V110_2k4 => v110 32 false true 2400
  | CSD_BS_33_T_V110_4k8 => v110 33 false true 4800
  | CSD_BS_34_T_V110_9k6 => v110 34 false true 9600
  end.

Definition csd_bs_is_transp (bs : csd_bs) : bool :=
  if negb (csd_bs_valid bs) then false else bm_transp (bs_map bs).

Definition csd_bs_to_str (bs : csd_bs) : string :=
  if negb (csd_bs_valid bs) then "BS?"
  else
    let m := bs_map bs in
    "BS" +:+ fmt_d (bm_num m) +:+ (if bm_transp m then "T" else "NT")
    +:+ (if bm_ra m =? GSM48_BCAP_RA_V110_X30 then "" else "-RA=" +:+ fmt_d (bm_ra m)).

(** data rates of a channel type (libosmogsm, TS 48.008 3.2.2.11) *)
Class DataRates : Type := {
  GSM0808_DATA_RATE_TRANSP_600 : Z; GSM0808_DATA_RATE_TRANSP_1k2 : Z; GSM0808_DATA_RATE_TRANSP_2k4 : Z;
  GSM0808_DATA_RATE_TRANSP_4k8 : Z; GSM0808_DATA_RATE_TRANSP_9k6 : Z;
  GSM0808_DATA_RATE_NON_TRANSP_6k0 : Z; GSM0808_DATA_RATE_NON_TRANSP_12k0 : Z;
  GSM0808_DATA_RATE_NON_TRANSP_ALLOWED_6k0 : Z; GSM0808_DATA_RATE_NON_TRANSP_ALLOWED_12k0 : Z
}.

(** ** Lists of bearer services *)

Notation csd_bs_list := (list csd_bs).

Definition csd_bs_list_is_sane (l : csd_bs_list) : bool :=
  Nat.ltb 0 (length l) && Nat.leb (length l) CSD_BS_MAX.
Definition csd_bs_list_clamp (l : csd_bs_list) : csd_bs_list := take CSD_BS_MAX l.

Definition csd_bs_list_to_str (l : csd_bs_list) : string :=
  match csd_bs_list_clamp l with
  | [] => "(no-bearer-services)"
  | l => String.concat "," (map csd_bs_to_str l)
  end.

Definition csd_bs_list_has_bs (l : csd_bs_list) (bs : csd_bs) : bool :=
  existsb (fun b => bool_decide (b = bs)) (csd_bs_list_clamp l).

Definition csd_bs_list_add_bs (bs : csd_bs) (l : csd_bs_list) : csd_bs_list :=
  if negb (csd_bs_valid bs) then l
  else
    let l := csd_bs_list_clamp l in
    if existsb (fun b => bool_decide (b = bs)) l then l
    else if Nat.leb CSD_BS_MAX (length l) then l
    else l ++ [bs].

(** the loop over the entries: whether it was found, and the array *)
Fixpoint remove_loop (k i n : nat) (bs : csd_bs) (found : bool) (l : csd_bs_list) : bool * csd_bs_list :=
  match k with
  | O => (found, l)
  | S k =>
      let found := found || match l !! i with Some b => bool_decide (b = bs) | None => false end in
      let l := if found && Nat.ltb (i + 1) n
               then match l !! (i + 1)%nat with Some b => <[i := b]> l | None => l end else l in
      remove_loop k (S i) n bs found l
  end.
Definition csd_bs_list_remove (bs : csd_bs) (l : csd_bs_list) : csd_bs_list :=
  let l := csd_bs_list_clamp l in
  let n := length l in
  let '(found, l) := remove_loop n 0 n bs false l in
  if found then take (n - 1) l else l.

(** [fuel] bounds the number of rounds *)
Fixpoint csd_intersection_loop (fuel i : nat) (dest other : csd_bs_list) : csd_bs_list :=
  match fuel with
  | O => dest
  | S fuel =>
      match dest !! i with
      | None => dest
      | Some bs =>
          if csd_bs_list_has_bs other bs then csd_intersection_loop fuel (S i) dest other
          else csd_intersection_loop fuel i (csd_bs_list_remove bs dest) other
      end
  end.
Definition csd_bs_list_intersection (dest other : csd_bs_list) : csd_bs_list :=
  let dest := csd_bs_list_clamp dest in
  csd_intersection_loop (length dest) 0 dest other.

(** ** Bearer capability and channel type *)

Definition csd_bs_from_bearer_cap (cap : gsm_mncc_bearer_cap) (transp : bool) : csd_bs :=
  let d := bc_data cap in
  let rate := bd_user_rate d in
  let ra := if negb (bd_interm_rate d =? 0) && (bd_rate_adaption d =? 0)
            then GSM48_BCAP_RA_V110_X30 else bd_rate_adaption d in
  if negb (ra =? GSM48_BCAP_RA_V110_X30) then CSD_BS_NONE
  else
    match bd_async d, transp with
    | true, true =>
        if rate =? GSM48_BCAP_UR_300 then CSD_BS_21_T_V110_0k3
        else if rate =? GSM48_BCAP_UR_1200 then CSD_BS_22_T_V110_1k2
        else if rate =? GSM48_BCAP_UR_2400 then CSD_BS_24_T_V110_2k4
        else if rate =? GSM48_BCAP_UR_4800 then CSD_BS_25_T_V110_4k8
        else if rate =? GSM48_BCAP_UR_9600 then CSD_BS_26_T_V110_9k6
        else CSD_BS_NONE
    | true, false =>
        if rate =? GSM48_BCAP_UR_300 then CSD_BS_21_NT_V110_0k3
        else if rate =? GSM48_BCAP_UR_1200 then CSD_BS_22_NT_V110_1k2
        else if rate =? GSM48_BCAP_UR_2400 then CSD_BS_24_NT_V110_2k4
        else if rate =? GSM48_BCAP_UR_4800 then CSD_BS_25_NT_V110_4k8
        else if rate =? GSM48_BCAP_UR_9600 then CSD_BS_26_NT_V110_9k6
        else CSD_BS_NONE
    | false, true =>
        if rate =? GSM48_BCAP_UR_1200 then CSD_BS_31_T_V110_1k2
        else if rate =? GSM48_BCAP_UR_2400 then CSD_BS_32_T_V110_2k4
        else if rate =? GSM48_BCAP_UR_4800 then CSD_BS_33_T_V110_4k8
        else if rate =? GSM48_BCAP_UR_9600 then CSD_BS_34_T_V110_9k6
        else CSD_BS_NONE
    | false, false => CSD_BS_NONE
    end.

(** user rate and intermediate rate *)
Definition rate_codes (rate : Z) : option (Z * Z) :=
  match rate with
  | 300 => Some (GSM48_BCAP_UR_300, GSM48_BCAP_IR_8k)
  | 1200 => Some (GSM48_BCAP_UR_1200, GSM48_BCAP_IR_8k)
  | 2400 => Some (GSM48_BCAP_UR_2400, GSM48_BCAP_IR_8k)
  | 4800 => Some (GSM48_BCAP_UR_4800, GSM48_BCAP_IR_8k)
  | 9600 => Some (GSM48_BCAP_UR_9600, GSM48_BCAP_IR_16k)
  | _ => None
  end.

(** the fields that are set before the rate is looked at *)
Definition bs_to_cap (bs : csd_bs) (cap : gsm_mncc_bearer_cap) : gsm_mncc_bearer_cap :=
  cap <| bc_data ::= fun d =>
    mk_bcap_data
      (if bc_transfer cap =? GSM48_BCAP_ITCAP_UNR_DIG_INF then GSM48_BCAP_RA_V110_X30 else GSM48_BCAP_RA_NONE)
      GSM48_BCAP_SA_I440_I450 (bm_async (bs_map bs)) 1 8 (bd_user_rate d) GSM48_BCAP_PAR_NONE
      (bd_interm_rate d) (if bm_transp (bs_map bs) then GSM48_BCAP_TR_TRANSP else GSM48_BCAP_TR_RLP)
      GSM48_BCAP_MT_NONE |>.

(** [true]: a bearer service was put into the capability *)
Fixpoint csd_bs_to_cap (l : csd_bs_list) (cap : gsm_mncc_bearer_cap) : bool * gsm_mncc_bearer_cap :=
  match l with
  | [] => (false, cap)
  | bs :: l =>
      if negb (csd_bs_valid bs) then csd_bs_to_cap l cap
      else
        let cap := bs_to_cap bs cap in
        match rate_codes (bm_rate (bs_map bs)) with
        | Some (ur, ir) =>
            (true, cap <| bc_data ::= fun d => d <| bd_user_rate := ur |> <| bd_interm_rate := ir |> |>)
        | None => csd_bs_to_cap l cap
        end
  end.
Definition csd_bs_list_to_bearer_cap (cap : gsm_mncc_bearer_cap) (l : csd_bs_list)
  : bool * gsm_mncc_bearer_cap := csd_bs_to_cap (csd_bs_list_clamp l) cap.

Definition csd_bs_list_from_bearer_cap (cap : gsm_mncc_bearer_cap) : csd_bs_list :=
  let add transp := csd_bs_list_add_bs (csd_bs_from_bearer_cap cap transp) in
  let tr := bd_transp (bc_data cap) in
  if tr =? GSM48_BCAP_TR_TRANSP then add true []
  else if tr =? GSM48_BCAP_TR_RLP then add false []
  else if tr =? GSM48_BCAP_TR_TR_PREF then add false (add true [])
  else if tr =? GSM48_BCAP_TR_RLP_PREF then add true (add false [])
  else [].

Section data_rates.
Context {DR : DataRates}.

Definition csd_bs_to_gsm0808_data_rate_transp (bs : csd_bs) : option (Z * ch_rate) :=
  if negb (csd_bs_valid bs) then None
  else match bm_rate (bs_map bs) with
       | 300 => Some (GSM0808_DATA_RATE_TRANSP_600, GSM0808_DATA_FULL_PREF)
       | 1200 => Some (GSM0808_DATA_RATE_TRANSP_1k2, GSM0808_DATA_FULL_PREF)
       | 2400 => Some (GSM0808_DATA_RATE_TRANSP_2k4, GSM0808_DATA_FULL_PREF)
       | 4800 => Some (GSM0808_DATA_RATE_TRANSP_4k8, GSM0808_DATA_FULL_PREF)
       | 9600 => Some (GSM0808_DATA_RATE_TRANSP_9k6, GSM0808_DATA_FULL_BM)
       | _ => None
       end.

Definition csd_bs_to_gsm0808_data_rate_non_transp (bs : csd_bs) : option (Z * ch_rate) :=
  if negb (csd_bs_valid bs) then None
  else
    let rate := u16 (bm_rate (bs_map bs)) in
    if rate <? 6000 then Some (GSM0808_DATA_RATE_NON_TRANSP_6k0, GSM0808_DATA_FULL_PREF)
    else if rate <? 12000 then Some (GSM0808_DATA_RATE_NON_TRANSP_12k0, GSM0808_DATA_FULL_BM)
    else None.

Definition csd_bs_to_gsm0808_data_rate_non_transp_allowed (bs : csd_bs) : option Z :=
  if negb (csd_bs_valid bs) then None
  else
    let rate := u16 (bm_rate (bs_map bs)) in
    if rate <? 6000 then Some GSM0808_DATA_RATE_NON_TRANSP_ALLOWED_6k0
    else if rate <? 12000 then Some GSM0808_DATA_RATE_NON_TRANSP_ALLOWED_12k0
    else None.

(** the rates that the further bearer services allow *)
Definition data_rates_allowed (l : csd_bs_list) : Z :=
  fold_left (fun acc bs =>
    if negb (csd_bs_is_transp bs) then acc
    else match csd_bs_to_gsm0808_data_rate_non_transp_allowed bs with
         | Some r => Z.lor acc r
         | None => acc
         end) l 0.

(** [None]: -EINVAL *)
Definition csd_bs_list_to_gsm0808_channel_type (l : csd_bs_list) : option gsm0808_channel_type :=
  if negb (csd_bs_list_is_sane l) then None
  else match l with
       | [] => None
       | bs0 :: rest =>
           if negb (csd_bs_valid bs0) then None
           else
             let transp := csd_bs_is_transp bs0 in
             match (if transp then csd_bs_to_gsm0808_data_rate_transp bs0
                    else csd_bs_to_gsm0808_data_rate_non_transp bs0) with
             | None => None
             | Some (rate, ch) =>
                 let allowed := if transp then 0 else data_rates_allowed rest in
                 Some (mk_channel_type GSM0808_CHAN_DATA ch [] transp rate
                         (if allowed =? 0 then None else Some allowed))
             end
       end.
End data_rates.

(** ** The filter *)

#[projections(primitive)]
Record csd_filter : Type := mk_csd_filter {
  df_ran : csd_bs_list; df_ms : csd_bs_list; df_bss : csd_bs_list; df_assignment : csd_bs
}.
Definition no_csd_filter : csd_filter := mk_csd_filter [] [] [] CSD_BS_NONE.

Definition add_all_bs (bss : list csd_bs) : csd_bs_list := fold_left (fun l bs => csd_bs_list_add_bs bs l) bss [].
Definition add_all_geran_bs : csd_bs_list :=
  add_all_bs [CSD_BS_24_T_V110_2k4; CSD_BS_25_T_V110_4k8; CSD_BS_26_T_V110_9k6;
              CSD_BS_21_T_V110_0k3; CSD_BS_22_T_V110_1k2; CSD_BS_21_NT_V110_0k3; CSD_BS_22_NT_V110_1k2;
              CSD_BS_24_NT_V110_2k4; CSD_BS_25_NT_V110_4k8; CSD_BS_26_NT_V110_9k6;
              CSD_BS_31_T_V110_1k2; CSD_BS_32_T_V110_2k4; CSD_BS_33_T_V110_4k8; CSD_BS_34_T_V110_9k6].
Definition add_all_utran_bs : csd_bs_list :=
  add_all_bs [CSD_BS_21_NT_V110_0k3; CSD_BS_22_NT_V110_1k2; CSD_BS_24_NT_V110_2k4; CSD_BS_25_NT_V110_4k8;
              CSD_BS_26_NT_V110_9k6].

Definition csd_filter_set_ran (ran : osmo_rat_type) (f : csd_filter) : csd_filter :=
  f <| df_ran := match ran with OSMO_RAT_UTRAN_IU => add_all_utran_bs | _ => add_all_geran_bs end |>.

Definition csd_restrict (r other : csd_bs_list) : csd_bs_list :=
  if csd_bs_list_is_sane other then csd_bs_list_intersection r other else r.

(** the value that the enum of libosmo-mgcp-client has for CLEARMODE *)
Definition CLEARMODE_PT : Z := 120.

(** the bearer services and the audio codecs of the result *)
Definition csd_filter_run (f : csd_filter) (remote : csd_bs_list) : csd_bs_list * sdp_audio_codecs :=
  let r := csd_restrict (csd_restrict (csd_restrict (df_ran f) (df_ms f)) (df_bss f)) remote in
  (match df_assignment f with CSD_BS_NONE => r | a => csd_bs_list_add_bs a [] end,
   [mk_codec CLEARMODE_PT "CLEARMODE" 8000 ""]).
