(* ===== verification/CodecProofs.v ===== *)
(** * The choice of codecs and bearer services

    The loops that intersect the lists in place compute filters; the result of
    a filter has what every side can use, in the order of preference; bearer
    services survive their way through a bearer capability. *)

From S2P Require Import Prelude CLib VlrTypes Codecs Csd.
From Stdlib Require Import Ascii.

(** ** Comparison *)

(** two codecs with the same name and rate, as far as they are compared *)
Definition same_codec (a b : sdp_audio_codec) : bool :=
  String.eqb (String.substring 0 SUBTYPE_SIZE (subtype_name a)) (String.substring 0 SUBTYPE_SIZE (subtype_name b))
  && (sc_rate a =? sc_rate b).

Lemma string_compare_eqb a b : is_eq (String.compare a b) = String.eqb a b.
Proof.
  destruct (String.eqb_spec a b) as [->|Hne]; destruct (String.compare _ _) eqn:E; try done.
  - pose proof (String.compare_antisym b b) as H. by rewrite E in H.
  - pose proof (String.compare_antisym b b) as H. by rewrite E in H.
  - by apply String.compare_eq_iff in E.
Qed.
Lemma cmp_same a b : is_eq (sdp_audio_codec_cmp a b false false) = same_codec a b.
Proof.
  unfold sdp_audio_codec_cmp, same_codec, strncmp. rewrite <- string_compare_eqb.
  destruct (String.compare _ _); cbn [is_eq andb]; try done.
  destruct (Z.compare_spec (sc_rate a) (sc_rate b)) as [H|H|H]; cbn [is_eq]; symmetry.
  - by apply Z.eqb_eq. - apply Z.eqb_neq. lia. - apply Z.eqb_neq. lia.
Qed.
Lemma find_index_some {A} (p : A -> bool) l i :
  find_index p l = Some i -> exists x, l !! i = Some x /\ p x = true.
Proof.
  unfold find_index. destruct (list_find _ l) as [[j x]|] eqn:E; [|done]. intros [= <-].
  apply list_find_Some in E as (H1 & H2 & _). eauto.
Qed.
Lemma find_index_none {A} (p : A -> bool) l : find_index p l = None <-> existsb p l = false.
Proof.
  unfold find_index. destruct (list_find _ l) as [[j x]|] eqn:E; cbn; (split; [|try done]).
  - done.
  - apply list_find_Some in E as (H1 & H2 & _). intros H. exfalso.
    assert (existsb p l = true); [|congruence]. apply existsb_exists. exists x. split; [|done].
    by apply list_elem_of_In, list_elem_of_lookup_2 with j.
  - intros _. apply list_find_None in E. rewrite Forall_forall in E. apply not_true_iff_false.
    intros (x & Hx & Hp)%existsb_exists. apply list_elem_of_In in Hx. by apply (E x Hx).
Qed.
Lemma find_index_ext {A} (p q : A -> bool) l : (forall x, p x = q x) -> find_index p l = find_index q l.
Proof.
  intros H. unfold find_index. induction l as [|x l IH]; [done|]. cbn. rewrite H.
  destruct (decide (q x = true)); [done|]. destruct (list_find _ l) as [[]|], (list_find (fun y => q y = true) l) as [[]|]; try done.
  cbn in *. by injection IH as ->.
Qed.

(** ** Audio codecs *)

(** the codec of the other list that has the same name and rate *)
Definition counterpart (other : sdp_audio_codecs) (c : sdp_audio_codec) : option sdp_audio_codec :=
  find (same_codec c) other.

Definition keep (other : sdp_audio_codecs) (translate : bool) (c : sdp_audio_codec) : option sdp_audio_codec :=
  match counterpart other c with
  | Some o => Some (if translate then c <| payload_type := payload_type o |> else c)
  | None => None
  end.

Lemma same_codec_sym a b : same_codec a b = same_codec b a.
Proof. unfold same_codec. by rewrite String.eqb_sym, Z.eqb_sym. Qed.
Lemma find_lookup {A} (p : A -> bool) l :
  find p l = match find_index p l with Some i => l !! i | None => None end.
Proof.
  induction l as [|x l IH]; [done|]. unfold find_index in *. cbn.
  destruct (decide (p x = true)) as [->|Hn]; [done|]. rewrite (not_true_is_false _ Hn), IH.
  by destruct (list_find _ l) as [[]|].
Qed.
Lemma by_descr_counterpart other c :
  counterpart other c = match sdp_audio_codecs_by_descr other c with Some j => other !! j | None => None end.
Proof.
  unfold counterpart, sdp_audio_codecs_by_descr.
  rewrite (find_index_ext _ (same_codec c)) by (intros x; by rewrite cmp_same, same_codec_sym).
  apply find_lookup.
Qed.

Lemma delete_mid {A} (l1 : list A) x l2 : delete (length l1) (l1 ++ x :: l2) = l1 ++ l2.
Proof. induction l1 as [|y l1 IH]; [done|]. cbn. by f_equal. Qed.
Lemma insert_mid {A} (l1 : list A) x y l2 : <[length l1 := y]> (l1 ++ x :: l2) = l1 ++ y :: l2.
Proof. induction l1 as [|z l1 IH]; [done|]. cbn. by f_equal. Qed.

Lemma intersection_loop_omap fuel done_ todo other tr : (length todo <= fuel)%nat ->
  intersection_loop fuel (length done_) (done_ ++ todo) other tr = done_ ++ omap (keep other tr) todo.
Proof.
  revert done_ todo. induction fuel as [|fuel IH]; intros d todo Hf.
  { destruct todo; [done|]. cbn in Hf. lia. }
  cbn [intersection_loop]. destruct todo as [|c todo].
  { rewrite lookup_ge_None_2 by (rewrite app_nil_r; lia). done. }
  rewrite list_lookup_middle by done. cbn [omap list_omap]. unfold keep at 1.
  rewrite by_descr_counterpart.
  destruct (sdp_audio_codecs_by_descr other c) as [j|] eqn:Ej.
  - destruct (find_index_some _ _ _ Ej) as (o & Eo & _). rewrite Eo.
    set (c' := if tr then _ else c).
    assert (E : (if tr then <[length d := c <| payload_type := payload_type o |>]> (d ++ c :: todo)
                 else d ++ c :: todo) = (d ++ [c']) ++ todo).
    { rewrite <- app_assoc. unfold c'. destruct tr; [|done]. apply insert_mid. }
    rewrite E. replace (S (length d)) with (length (d ++ [c'])) by (rewrite length_app; cbn; lia).
    rewrite IH by (cbn in Hf; lia). by rewrite <- app_assoc.
  - unfold sdp_audio_codecs_remove. rewrite (proj2 (Nat.leb_gt _ _)) by (rewrite length_app; cbn; lia).
    rewrite delete_mid, IH by (cbn in Hf; lia). done.
Qed.
Lemma intersection_omap dest other tr :
  sdp_audio_codecs_intersection dest other tr = omap (keep other tr) dest.
Proof. apply (intersection_loop_omap _ [] dest). done. Qed.

(** ** The reference of the filter *)

(** whether a side can use a codec; one that is not known is not asked *)
Definition usable (side : sdp_audio_codecs) (c : sdp_audio_codec) : bool :=
  match side with [] => true | _ => existsb (same_codec c) side end.
(** the payload type number is that of the remote side *)
Definition renumber (remote : sdp_audio_codecs) (c : sdp_audio_codec) : sdp_audio_codec :=
  match counterpart remote c with Some o => c <| payload_type := payload_type o |> | None => c end.
(** the first codec that is the same as [a] goes to the front *)
Definition prefer (a : sdp_audio_codec) (l : sdp_audio_codecs) : sdp_audio_codecs :=
  match find_index (same_codec a) l with
  | Some i => match l !! i with Some c => c :: delete i l | None => l end
  | None => l
  end.
Definition reference_filter (f : codec_filter) (remote : sdp_audio_codecs) : sdp_audio_codecs :=
  let r := map (renumber remote)
             (List.filter (fun c => usable (cf_ms f) c && (usable (cf_bss f) c && usable remote c)) (cf_ran f)) in
  if sdp_audio_codec_is_set (cf_assignment f) then prefer (cf_assignment f) r else r.

Lemma find_existsb {A} (p : A -> bool) l : existsb p l = match find p l with Some _ => true | None => false end.
Proof. induction l as [|x l IH]; [done|]. cbn. by destruct (p x). Qed.
Lemma restrict_filter r other : restrict r other false = List.filter (usable other) r.
Proof.
  unfold restrict, usable. destruct other as [|o other]; [by induction r as [|c r IH]; [|cbn; f_equal]|].
  rewrite intersection_omap. induction r as [|c r IH]; [done|]. cbn [omap list_omap List.filter].
  rewrite find_existsb. unfold keep at 1, counterpart. destruct (find _ _); [by f_equal|done].
Qed.
Lemma restrict_remote r other :
  restrict r other true = map (renumber other) (List.filter (usable other) r).
Proof.
  unfold restrict, usable. destruct other as [|o other].
  { induction r as [|c r IH]; [done|]. cbn in *. f_equal. done. }
  rewrite intersection_omap. induction r as [|c r IH]; [done|]. cbn [omap list_omap List.filter].
  rewrite find_existsb. unfold keep at 1, counterpart. destruct (find _ _) as [x|] eqn:E; [|done].
  cbn [map]. rewrite <- IH. f_equal. unfold renumber, counterpart. by rewrite E.
Qed.
Lemma filter_filter {A} (p q : A -> bool) l : List.filter q (List.filter p l) = List.filter (fun x => p x && q x) l.
Proof. induction l as [|x l IH]; [done|]. cbn. destruct (p x); cbn; [destruct (q x)|]; by rewrite IH. Qed.
Lemma select_prefer a r :
  match sdp_audio_codecs_by_descr r a with Some i => sdp_audio_codecs_select r i | None => r end = prefer a r.
Proof.
  unfold prefer, sdp_audio_codecs_by_descr.
  rewrite (find_index_ext _ (same_codec a)) by (intros x; by rewrite cmp_same, same_codec_sym).
  destruct (find_index _ r) as [i|] eqn:E; [|done]. destruct (find_index_some _ _ _ E) as (c & Hc & _).
  rewrite Hc. destruct i as [|i]; cbn [sdp_audio_codecs_select]; [|by rewrite Hc].
  destruct r; [done|]. cbn in Hc. by injection Hc as <-.
Qed.

(** C18: The codecs of a call: the loops that intersect the lists of the radio
    access network, the mobile station, the BSS and the remote call leg leave
    exactly those codecs that every known side can use, in the order of
    preference of the radio access network, with the payload type numbers of
    the remote side; the codec of a completed assignment comes first. Codecs are
    the same when their names and rates are ([same_codec]), whatever their
    format parameters and payload types: the comment on
    sdp_audio_codecs_intersection says that the format parameters are compared
    as strings, which the code does not do. *)
Theorem codec_filter_is_reference f remote : codec_filter_run f remote = reference_filter f remote.
Proof.
  unfold codec_filter_run, reference_filter. rewrite !restrict_filter, restrict_remote, !filter_filter.
  by rewrite select_prefer.
Qed.

(** ** Permitted speech versions *)
Section channel_type.
Context {AC : AmrCfg}.

(** what the mapping can contribute *)
Definition map_perms : list gsm0808_permitted_speech :=
  [GSM0808_PERM_FR1; GSM0808_PERM_FR2; GSM0808_PERM_HR1; GSM0808_PERM_FR3; GSM0808_PERM_HR3;
   GSM0808_PERM_FR5; GSM0808_PERM_HR4].
Definition perms_ok (l : list gsm0808_permitted_speech) : Prop := NoDup l /\ l ⊆ map_perms.

Lemma map_perm m : m ∈ codec_map -> perm_class_of (cm_perm_speech m) <> PermOther -> cm_perm_speech m ∈ map_perms.
Proof.
  intros Hm. rewrite <- (bool_decide_spec (cm_perm_speech m ∈ map_perms)).
  revert m Hm. rewrite <- Forall_forall. unfold codec_map.
  repeat (constructor; [intros Hp; first [exact I|by destruct (Hp eq_refl)]|]). constructor.
Qed.
Lemma ct_add_ok idx a m : m ∈ codec_map -> perms_ok (ca_perm a) -> perms_ok (ca_perm (ct_add idx a m)).
Proof.
  intros Hm [Hn Hs]. pose proof (map_perm m Hm) as Hp. unfold ct_add.
  assert (Hadd : cm_perm_speech m ∈ map_perms ->
    perms_ok (if existsb (fun q => bool_decide (q = cm_perm_speech m)) (ca_perm a)
              then ca_perm a else ca_perm a ++ [cm_perm_speech m])).
  { intros Hin. destruct (existsb _ _) eqn:E; [done|]. split.
    - apply NoDup_app. split; [done|]. split; [|apply NoDup_singleton].
      intros x Hx ->%list_elem_of_singleton. apply not_true_iff_false in E. apply E, existsb_exists.
      exists (cm_perm_speech m). split; [by apply list_elem_of_In|by apply bool_decide_eq_true].
    - intros x [Hx| ->%list_elem_of_singleton]%elem_of_app; [by apply Hs|done]. }
  destruct (perm_class_of (cm_perm_speech m)); [by apply Hadd, Hp|by apply Hadd, Hp|done].
Qed.
Lemma ct_codecs_ok idx ac a : perms_ok (ca_perm a) -> perms_ok (ca_perm (ct_codecs idx ac a)).
Proof.
  revert idx a. induction ac as [|c ac IH]; intros idx a H; [done|]. cbn [ct_codecs]. apply IH.
  unfold ct_codec. set (ms := List.filter _ codec_map).
  assert (Hms : forall m, m ∈ ms -> m ∈ codec_map).
  { intros m Hm. apply list_elem_of_In, filter_In in Hm as [Hm _]. by apply list_elem_of_In. }
  clearbody ms. revert a H. induction ms as [|m ms IHm]; intros a H; [done|]. cbn [fold_left].
  apply IHm; [intros x Hx; apply Hms; by right|]. apply ct_add_ok; [apply Hms; by left|done].
Qed.

(** *** What the channel type must say *)

Definition same_class (k k' : perm_class) : bool :=
  match k, k' with PermFr, PermFr | PermHr, PermHr | PermOther, PermOther => true | _, _ => false end.
(** the entries of the mapping for a codec, by its name *)
Definition mapped (c : sdp_audio_codec) (p : gsm0808_permitted_speech) : Prop :=
  exists m, m ∈ codec_map /\ subtype_name (cm_sdp m) = subtype_name c /\ cm_perm_speech m = p.
(** a codec that GSM carries on full rate channels, on half rate channels *)
Definition maps_to (k : perm_class) (c : sdp_audio_codec) : bool :=
  existsb (fun m => String.eqb (subtype_name (cm_sdp m)) (subtype_name c) && same_class k (perm_class_of (cm_perm_speech m))) codec_map.
Definition full_rate : sdp_audio_codec -> bool := maps_to PermFr.
Definition half_rate : sdp_audio_codec -> bool := maps_to PermHr.
(** of both rates, the one of the first codec that GSM carries at all *)
Definition wanted_rate (ac : sdp_audio_codecs) : option ch_rate :=
  match existsb full_rate ac, existsb half_rate ac with
  | true, true =>
      match find (fun c => full_rate c || half_rate c) ac with
      | Some c => Some (if full_rate c then GSM0808_SPEECH_FULL_PREF else GSM0808_SPEECH_HALF_PREF)
      | None => None
      end
  | true, false => Some GSM0808_SPEECH_FULL_BM
  | false, true => Some GSM0808_SPEECH_HALF_LM
  | false, false => None
  end.

Lemma first_of_twice o i : first_of (first_of o i) i = first_of o i.
Proof. by destruct o. Qed.
Definition of_class (k : perm_class) (m : codec_mapping) : bool := same_class k (perm_class_of (cm_perm_speech m)).
Lemma ct_add_first idx ms a :
  ca_first_fr (fold_left (ct_add idx) ms a) = (if existsb (of_class PermFr) ms then first_of (ca_first_fr a) idx else ca_first_fr a)
  /\ ca_first_hr (fold_left (ct_add idx) ms a) = (if existsb (of_class PermHr) ms then first_of (ca_first_hr a) idx else ca_first_hr a).
Proof.
  revert a. induction ms as [|m ms IH]; intros a; [done|]. cbn [fold_left existsb].
  destruct (IH (ct_add idx a m)) as [-> ->]. unfold ct_add. cbv zeta. change (of_class ?k m) with (same_class k (perm_class_of (cm_perm_speech m))).
  destruct (perm_class_of (cm_perm_speech m)); cbn; split; repeat case_match; try done; apply first_of_twice.
Qed.
Lemma class_of_codec k c :
  existsb (of_class k) (List.filter (fun m => String.eqb (subtype_name (cm_sdp m)) (subtype_name c)) codec_map) = maps_to k c.
Proof.
  unfold maps_to, of_class. induction codec_map as [|m l IH]; [done|]. cbn [List.filter existsb].
  destruct (String.eqb _ _); cbn [existsb andb orb]; by rewrite IH.
Qed.
Lemma ct_codec_first idx c a :
  ca_first_fr (ct_codec idx c a) = (if full_rate c then first_of (ca_first_fr a) idx else ca_first_fr a)
  /\ ca_first_hr (ct_codec idx c a) = (if half_rate c then first_of (ca_first_hr a) idx else ca_first_hr a).
Proof. unfold ct_codec, full_rate, half_rate. rewrite <- !class_of_codec. apply ct_add_first. Qed.

(** the index of the first codec of a class, counted from [idx] *)
Fixpoint first_index (p : sdp_audio_codec -> bool) (idx : nat) (ac : sdp_audio_codecs) : option nat :=
  match ac with [] => None | c :: ac => if p c then Some idx else first_index p (S idx) ac end.
Lemma ct_codecs_first idx ac a :
  ca_first_fr (ct_codecs idx ac a) = match ca_first_fr a with Some i => Some i | None => first_index full_rate idx ac end
  /\ ca_first_hr (ct_codecs idx ac a) = match ca_first_hr a with Some i => Some i | None => first_index half_rate idx ac end.
Proof.
  revert idx a. induction ac as [|c ac IH]; intros idx a; cbn [ct_codecs first_index]; [by repeat case_match|].
  destruct (IH (S idx) (ct_codec idx c a)) as [-> ->]. destruct (ct_codec_first idx c a) as [-> ->].
  unfold first_of. split; repeat case_match; congruence.
Qed.
Lemma first_index_ge p idx ac i : first_index p idx ac = Some i -> (idx <= i)%nat.
Proof.
  revert idx. induction ac as [|c ac IH]; intros idx; cbn; [done|]. destruct (p c); [intros [= <-]; lia|].
  intros H%IH. lia.
Qed.
Lemma first_index_exists p idx ac : existsb p ac = match first_index p idx ac with Some _ => true | None => false end.
Proof. revert idx. induction ac as [|c ac IH]; intros idx; cbn; [done|]. destruct (p c); [done|apply IH]. Qed.
Lemma first_index_order p q idx ac i j :
  first_index p idx ac = Some i -> first_index q idx ac = Some j ->
  exists c, find (fun c => p c || q c) ac = Some c /\ p c = Nat.leb i j.
Proof.
  revert idx. induction ac as [|c ac IH]; intros idx; cbn; [done|]. destruct (p c) eqn:Hp; cbn.
  - intros [= <-] Hj. exists c. split; [done|]. rewrite Hp. symmetry. apply Nat.leb_le. destruct (q c); [by injection Hj as <-|].
    apply first_index_ge in Hj. lia.
  - intros Hi. destruct (q c) eqn:Hq; [|by apply IH]. intros [= <-]. exists c. split; [done|]. rewrite Hp. symmetry.
    apply Nat.leb_gt. apply first_index_ge in Hi. lia.
Qed.

(** the permitted versions are those of the codecs *)
Lemma ct_add_perm idx ms a p :
  p ∈ ca_perm (fold_left (ct_add idx) ms a) <->
  p ∈ ca_perm a \/ exists m, m ∈ ms /\ cm_perm_speech m = p /\ perm_class_of p <> PermOther.
Proof.
  revert a. induction ms as [|m ms IH]; intros a; cbn [fold_left]; [set_solver|]. rewrite IH.
  assert (E : p ∈ ca_perm (ct_add idx a m) <-> p ∈ ca_perm a \/ cm_perm_speech m = p /\ perm_class_of p <> PermOther).
  { unfold ct_add. cbv zeta. destruct (perm_class_of (cm_perm_speech m)) eqn:Ec; cbn.
    1,2: destruct (existsb _ _) eqn:Ee; [apply existsb_exists in Ee as (q & Hq%list_elem_of_In & ->%bool_decide_eq_true)|];
      set_unfold; naive_solver congruence.
    naive_solver congruence. }
  rewrite E. setoid_rewrite elem_of_cons. naive_solver.
Qed.
Lemma ct_codecs_perm idx ac a p :
  p ∈ ca_perm (ct_codecs idx ac a) <->
  p ∈ ca_perm a \/ exists c, c ∈ ac /\ mapped c p /\ perm_class_of p <> PermOther.
Proof.
  revert idx a. induction ac as [|c ac IH]; intros idx a; cbn [ct_codecs]; [set_solver|]. rewrite IH.
  assert (E : p ∈ ca_perm (ct_codec idx c a) <-> p ∈ ca_perm a \/ mapped c p /\ perm_class_of p <> PermOther).
  { unfold ct_codec. rewrite ct_add_perm. split; (intros [H|H]; [by left|right]).
    - destruct H as (m & [Hm Hn%String.eqb_eq]%list_elem_of_In%filter_In & Hp & Hc). split; [|done].
      exists m. split; [by apply list_elem_of_In|done].
    - destruct H as [(m & Hm & Hn & Hp) Hc]. exists m. split; [|done]. apply list_elem_of_In, filter_In.
      split; [by apply list_elem_of_In|by apply String.eqb_eq]. }
  rewrite E. setoid_rewrite elem_of_cons. split.
  - intros [[H|H]|(c' & H)]; [by left|right; exists c; tauto|right; exists c'; tauto].
  - intros [H|(c' & [->|H] & H')]; [tauto|tauto|right; exists c'; tauto].
Qed.

(** C26: The channel type for a list of codecs: its permitted speech versions are
    those that the mapping has for the codecs, each of them once and never more
    than seven, so that the array of libosmogsm, which has room for nine, is not
    overrun although the code does not check it; its rate is the one rate that
    the codecs have or, if they have both, full rate preferred exactly when the
    first codec that has any of them has full rate; and there is no channel type
    exactly when no codec has a rate. *)
Theorem channel_type_fits ac :
  match sdp_audio_codecs_to_gsm0808_channel_type ac with
  | Some ct =>
      (length (ct_perm_spch ct) <= 7)%nat /\ NoDup (ct_perm_spch ct) /\ wanted_rate ac = Some (ct_rate ct) /\
      forall p, p ∈ ct_perm_spch ct <-> exists c, c ∈ ac /\ mapped c p /\ perm_class_of p <> PermOther
  | None => wanted_rate ac = None
  end.
Proof.
  unfold sdp_audio_codecs_to_gsm0808_channel_type, wanted_rate.
  destruct (ct_codecs_ok 0 ac (mk_ct_acc None None [])) as [Hn Hs]; [split; [constructor|by intros x []%not_elem_of_nil]|].
  pose proof (fun p => ct_codecs_perm 0 ac (mk_ct_acc None None []) p) as Hp.
  destruct (ct_codecs_first 0 ac (mk_ct_acc None None [])) as [Hf Hh]. cbn [ca_first_fr ca_first_hr ca_perm] in *.
  set (a := ct_codecs _ _ _) in *. clearbody a. cbv zeta. rewrite Hf, Hh, !(first_index_exists _ 0).
  assert (Hl : (length (ca_perm a) <= 7)%nat) by exact (submseteq_length _ _ (NoDup_submseteq _ _ Hn Hs)).
  assert (Hp' : forall p, p ∈ ca_perm a <-> exists c, c ∈ ac /\ mapped c p /\ perm_class_of p <> PermOther).
  { intros p. rewrite Hp, elem_of_nil. naive_solver. }
  destruct (first_index full_rate 0 ac) as [i|] eqn:Ei, (first_index half_rate 0 ac) as [j|] eqn:Ej; [|by cbn..].
  destruct (first_index_order _ _ _ _ _ _ Ei Ej) as (c & -> & ->). by destruct (Nat.leb i j).
Qed.
End channel_type.

(** ** Bearer services *)

Lemma has_bs_elem l bs : csd_bs_list_has_bs l bs = bool_decide (bs ∈ csd_bs_list_clamp l).
Proof.
  unfold csd_bs_list_has_bs. destruct (existsb _ _) eqn:E; symmetry.
  - apply existsb_exists in E as (x & Hx & Hb). apply bool_decide_eq_true in Hb as <-.
    apply bool_decide_eq_true. by apply list_elem_of_In.
  - apply bool_decide_eq_false. intros Hin. apply not_true_iff_false in E. apply E, existsb_exists.
    exists bs. split; [by apply list_elem_of_In|by apply bool_decide_eq_true].
Qed.

(** once the entry is found, the rest moves up by one *)
Lemma remove_loop_shift d x l bs :
  exists z, remove_loop (S (length l)) (length d) (length d + S (length l)) bs true (d ++ x :: l)
  = (true, d ++ l ++ [z]).
Proof.
  revert d x. induction l as [|y l IH]; intros d x.
  { cbn [length remove_loop orb andb]. rewrite (proj2 (Nat.ltb_ge _ _)) by lia. by exists x. }
  cbn [length]. remember (S (length l)) as k eqn:Ek. cbn [remove_loop orb andb].
  rewrite (proj2 (Nat.ltb_lt _ _)) by lia.
  replace (length d + 1)%nat with (length (d ++ [x])) by (rewrite length_app; cbn; lia).
  replace (d ++ x :: y :: l) with ((d ++ [x]) ++ y :: l) by by rewrite <- app_assoc.
  rewrite list_lookup_middle by done. rewrite <- app_assoc. cbn [app]. rewrite insert_mid.
  replace (d ++ y :: y :: l) with ((d ++ [y]) ++ y :: l) by by rewrite <- app_assoc.
  replace (S (length d)) with (length (d ++ [y])) by (rewrite length_app; cbn; lia).
  replace (length d + S k)%nat with (length (d ++ [y]) + k)%nat by (rewrite length_app; cbn; lia).
  subst k. destruct (IH (d ++ [y]) y) as [z E]. exists z. rewrite E, <- app_assoc. done.
Qed.
Lemma remove_loop_first d l bs : bs ∉ d -> bs ∈ l ->
  exists l1 l2, l = l1 ++ bs :: l2 /\ bs ∉ l1
  /\ exists z, remove_loop (length l) (length d) (length d + length l) bs false (d ++ l)
     = (true, d ++ l1 ++ l2 ++ [z]).
Proof.
  revert d. induction l as [|x l IH]; intros d Hd Hl; [by apply not_elem_of_nil in Hl|].
  destruct (decide (x = bs)) as [->|Hne].
  - exists [], l. split; [done|]. split; [apply not_elem_of_nil|].
    destruct (remove_loop_shift d bs l bs) as [z H]. exists z. cbn [app]. rewrite <- H.
    cbn [length remove_loop]. rewrite list_lookup_middle by done. by rewrite bool_decide_eq_true_2.
  - apply elem_of_cons in Hl as [->|Hl]; [done|].
    destruct (IH (d ++ [x])) as (l1 & l2 & -> & Hn & z & E); [|done|].
    { intros [?| ->%list_elem_of_singleton]%elem_of_app; done. }
    exists (x :: l1), l2. split; [done|]. split; [by intros [->|]%elem_of_cons|]. exists z.
    rewrite <- app_assoc in E. cbn [app] in E. rewrite (length_app d [x]) in E.
    remember (length (l1 ++ bs :: l2)) as k eqn:Ek. cbn [length] in *. rewrite <- Ek. cbn [remove_loop]. rewrite list_lookup_middle by done.
    rewrite bool_decide_eq_false_2 by done. cbn [orb andb].
    replace (length d + S k)%nat with (length d + 1 + k)%nat by lia.
    replace (S (length d)) with (length d + 1)%nat by lia. rewrite E. by rewrite <- app_assoc.
Qed.
Lemma csd_remove_first l1 bs l2 : bs ∉ l1 -> (length (l1 ++ bs :: l2) <= CSD_BS_MAX)%nat ->
  csd_bs_list_remove bs (l1 ++ bs :: l2) = l1 ++ l2.
Proof.
  intros Hn Hl. unfold csd_bs_list_remove, csd_bs_list_clamp. rewrite take_ge by done.
  destruct (remove_loop_first [] (l1 ++ bs :: l2) bs) as (k1 & k2 & E & Hk & z & El).
  { apply not_elem_of_nil. } { apply elem_of_app. right. by left. }
  cbn [length Nat.add app] in El. rewrite El. clear El.
  assert (k1 = l1 /\ k2 = l2) as [-> ->].
  { clear -E Hn Hk. revert k1 E Hk. induction l1 as [|x l1 IH]; intros [|y k1] E Hk; cbn in E.
    - by injection E as ->.
    - injection E as <- _. destruct Hk. by left.
    - injection E as -> _. destruct Hn. by left.
    - injection E as <- E. destruct (IH (fun H => Hn (list_elem_of_further _ _ _ H)) k1 E) as [-> ->]; [|done].
      intros H. destruct Hk. by right. }
  cbn [app]. rewrite app_assoc. rewrite take_app_length'; [done|]. rewrite !length_app. cbn. lia.
Qed.

Lemma csd_intersection_loop_filter fuel d todo other : (length todo <= fuel)%nat ->
  (length (d ++ todo) <= CSD_BS_MAX)%nat -> Forall (fun b => csd_bs_list_has_bs other b = true) d ->
  csd_intersection_loop fuel (length d) (d ++ todo) other = d ++ List.filter (csd_bs_list_has_bs other) todo.
Proof.
  revert d todo. induction fuel as [|fuel IH]; intros d todo Hf Hm Hd.
  { destruct todo; [done|]. cbn in Hf. lia. }
  cbn [csd_intersection_loop]. destruct todo as [|b todo].
  { by rewrite lookup_ge_None_2 by (rewrite app_nil_r; lia). }
  rewrite list_lookup_middle by done. cbn [List.filter]. destruct (csd_bs_list_has_bs other b) eqn:Eb.
  - replace (d ++ b :: todo) with ((d ++ [b]) ++ todo) by by rewrite <- app_assoc.
    replace (S (length d)) with (length (d ++ [b])) by (rewrite length_app; cbn; lia).
    rewrite IH; [by rewrite <- app_assoc|cbn in Hf; lia| |].
    + rewrite <- app_assoc. exact Hm.
    + apply Forall_app. split; [done|]. by apply Forall_singleton.
  - rewrite csd_remove_first; [|intros Hin; rewrite Forall_forall in Hd; specialize (Hd _ Hin); congruence|done].
    rewrite length_app in *. cbn in *. apply IH; [lia|rewrite length_app; lia|done].
Qed.
Lemma clamp_length l : (length (csd_bs_list_clamp l) <= CSD_BS_MAX)%nat.
Proof. apply firstn_le_length. Qed.
Lemma csd_intersection_filter dest other :
  csd_bs_list_intersection dest other = List.filter (csd_bs_list_has_bs other) (csd_bs_list_clamp dest).
Proof.
  unfold csd_bs_list_intersection. apply (csd_intersection_loop_filter _ []); [done| |constructor].
  apply clamp_length.
Qed.

(** C27: The bearer services of a data call: unless an assignment has fixed
    one, exactly those that every known side supports remain, in the order of
    preference of the radio access network. *)
Theorem csd_filter_is_intersection f remote : df_assignment f = CSD_BS_NONE ->
  (length (df_ran f) <= CSD_BS_MAX)%nat ->
  (csd_filter_run f remote).1
  = List.filter (fun bs => forallb (fun side => negb (csd_bs_list_is_sane side) || csd_bs_list_has_bs side bs)
                             [df_ms f; df_bss f; remote]) (df_ran f).
Proof.
  intros Ha Hr. unfold csd_filter_run. rewrite Ha. cbn [fst forallb].
  assert (E : forall r side, (length r <= CSD_BS_MAX)%nat ->
    csd_restrict r side = List.filter (fun bs => negb (csd_bs_list_is_sane side) || csd_bs_list_has_bs side bs) r
    /\ (length (csd_restrict r side) <= CSD_BS_MAX)%nat).
  { intros r side Hl. unfold csd_restrict. destruct (csd_bs_list_is_sane side); cbn [negb orb].
    - rewrite csd_intersection_filter. unfold csd_bs_list_clamp at 1. rewrite take_ge by done.
      split; [done|]. unfold csd_bs_list_clamp. rewrite take_ge by done.
      etransitivity; [apply List.filter_length_le|done].
    - split; [|done]. clear Hl. induction r as [|x r IH]; [done|]. cbn. by f_equal. }
  destruct (E (df_ran f) (df_ms f) Hr) as [E1 H1]. destruct (E _ (df_bss f) H1) as [E2 H2].
  destruct (E _ remote H2) as [E3 _]. rewrite E3, E2, E1, !filter_filter.
  apply List.filter_ext. intros bs. by rewrite andb_true_r.
Qed.
Lemma csd_filter_is_intersection_witness :
  let f := csd_filter_set_ran OSMO_RAT_GERAN_A no_csd_filter in
  (csd_filter_run f [CSD_BS_26_T_V110_9k6; CSD_BS_24_T_V110_2k4]).1 = [CSD_BS_24_T_V110_2k4; CSD_BS_26_T_V110_9k6].
Proof.
  cbv zeta. rewrite csd_filter_is_intersection; [vm_compute; reflexivity|reflexivity|vm_compute; lia].
Defined.

(** A bearer service survives its way through a bearer capability: what
    the other side reads from it is the bearer service that was put there,
    also for the transfer capabilities that do not carry the rate adaption. *)
Theorem csd_bearer_cap_roundtrip cap bs l : csd_bs_valid bs = true ->
  (csd_bs_list_to_bearer_cap cap (bs :: l)).1 = true
  /\ csd_bs_list_from_bearer_cap (csd_bs_list_to_bearer_cap cap (bs :: l)).2 = [bs].
Proof.
  intros Hv. unfold csd_bs_list_to_bearer_cap. change (csd_bs_list_clamp (bs :: l)) with (bs :: take 14 l).
  cbn [csd_bs_to_cap]. rewrite Hv. cbn [negb]. unfold bs_to_cap. destruct (bc_transfer cap =? _), bs; done.
Qed.
Lemma csd_bearer_cap_roundtrip_witness :
  csd_bs_list_from_bearer_cap (csd_bs_list_to_bearer_cap bearer_cap_empty [CSD_BS_25_T_V110_4k8]).2
  = [CSD_BS_25_T_V110_4k8].
Proof. apply csd_bearer_cap_roundtrip. reflexivity. Defined.
