(* ===== verification/Sdp.v ===== *)
(** * SDP text (sdp_msg.c)

    Composing and parsing of session descriptions.  A position in a string is
    the string from there on, or its distance from the start of the line. *)

From S2P Require Import Prelude CLib VlrTypes Codecs Csd.
From Stdlib Require Import Ascii.

(** ** Strings *)

(** strchr(s, c): the distance *)
Fixpoint strchr (s : string) (c : ascii) : option nat :=
  match s with
  | "" => None
  | String d s' => if Ascii.eqb d c then Some O else S <$> strchr s' c
  end.
Fixpoint str_drop (n : nat) (s : string) : string :=
  match n, s with
  | S m, String _ s' => str_drop m s'
  | _, _ => s
  end.
(** strstr(s, line end): from there on *)
Fixpoint find_crlf (s : string) : option string :=
  match s with
  | String c ((String d _) as s') => if Ascii.eqb c CR && Ascii.eqb d NL then Some s else find_crlf s'
  | _ => None
  end.
(** while (pos is a blank) pos++ *)
Fixpoint skip_blanks (s : string) : string :=
  match s with
  | String " " s' => skip_blanks s'
  | _ => s
  end.

(** the directive %u of sscanf *)
Definition scan_u (s : string) : option (Z * string) :=
  match strtoul 10 s with Some (v, r) => Some (u32 v, r) | None => None end.
(** the directive that takes at most [n] characters other than a slash *)
Fixpoint scan_until_slash (n : nat) (s : string) : string * string :=
  match n, s with
  | S m, String c s' =>
      if Ascii.eqb c "/" then ("", s) else let '(w, r) := scan_until_slash m s' in (String c w, r)
  | _, _ => ("", s)
  end.
(** a literal of the format *)
Fixpoint scan_lit (lit s : string) : option string :=
  match lit, s with
  | "", _ => Some s
  | String a l, String b s' => if Ascii.eqb a b then scan_lit l s' else None
  | _, "" => None
  end.

(** ** The message *)

Inductive sdp_mode_e : Type :=
| SDP_MODE_UNSET | SDP_MODE_SENDONLY | SDP_MODE_RECVONLY | SDP_MODE_SENDRECV | SDP_MODE_INACTIVE.

Inductive addr_family : Type := AF_UNSPEC | AF_INET | AF_INET6.
#[projections(primitive)]
Record sockaddr_str : Type := mk_sockaddr { sa_af : addr_family; sa_ip : string; sa_port : Z }.

(** libosmocore: the family of an address, and [osmo_sockaddr_str_from_str] *)
Class SockaddrLib : Type := {
  osmo_ip_str_type : string -> addr_family;
  osmo_sockaddr_str_from_str : string -> Z -> sockaddr_str
}.

#[projections(primitive)]
Record sdp_msg : Type := mk_sdp {
  sdp_rtp : sockaddr_str; sdp_ptime : Z; sdp_mode : sdp_mode_e; sdp_codecs : sdp_audio_codecs;
  sdp_bearer_services : csd_bs_list
}.
Definition no_sdp : sdp_msg := mk_sdp (mk_sockaddr AF_UNSPEC "" 0) 0 SDP_MODE_UNSET [] [].

Definition sdp_mode_str (m : sdp_mode_e) : string :=
  match m with
  | SDP_MODE_UNSET => "-" | SDP_MODE_SENDONLY => "sendonly" | SDP_MODE_RECVONLY => "recvonly"
  | SDP_MODE_SENDRECV => "sendrecv" | SDP_MODE_INACTIVE => "inactive"
  end.

Definition sdp_msg_payload_type_names : list (Z * string) :=
  [(0, "PCMU"); (3, "GSM"); (8, "PCMA"); (18, "G729"); (110, "GSM-EFR"); (111, "GSM-HR-08"); (112, "AMR");
   (113, "AMR-WB")].
Definition payload_type_name (pt : Z) : option string :=
  snd <$> find (fun p => fst p =? pt) sdp_msg_payload_type_names.
(** [None]: negative *)
Definition sdp_subtype_name_to_payload_type (name : string) : option Z :=
  fst <$> find (fun p => strcaseeq (snd p) name) sdp_msg_payload_type_names.

Section sdp.
Context {SL : SockaddrLib}.

(** ** Composing *)

Definition CRLF : string := String CR (String NL "").

Definition sdp_codec_lines (c : sdp_audio_codec) : string :=
  if negb (sdp_audio_codec_is_set c) then ""
  else
    "a=rtpmap:" +:+ fmt_d (s32 (payload_type c)) +:+ " " +:+ subtype_name c +:+ "/"
    +:+ fmt_d (s32 (if 0 <? sc_rate c then sc_rate c else 8000)) +:+ CRLF
    +:+ (if str_nonempty (fmtp c)
         then "a=fmtp:" +:+ fmt_d (s32 (payload_type c)) +:+ " " +:+ fmtp c +:+ CRLF else "").

Definition sdp_mode_line (m : sdp_mode_e) : string :=
  match m with SDP_MODE_UNSET => "" | _ => "a=" +:+ sdp_mode_str m +:+ CRLF end.

(** the whole text; [sdp] may be NULL *)
Definition sdp_text (sdp : option sdp_msg) : string :=
  match sdp with
  | None => ""
  | Some sdp =>
      let ip := if str_nonempty (sa_ip (sdp_rtp sdp)) then sa_ip (sdp_rtp sdp) else "0.0.0.0" in
      let ipv := match osmo_ip_str_type ip with AF_INET6 => "6" | _ => "4" end in
      "v=0" +:+ CRLF
      +:+ "o=OsmoMSC 0 0 IN IP" +:+ ipv +:+ " " +:+ ip +:+ CRLF
      +:+ "s=GSM Call" +:+ CRLF
      +:+ "c=IN IP" +:+ ipv +:+ " " +:+ ip +:+ CRLF
      +:+ "t=0 0" +:+ CRLF
      +:+ "m=audio " +:+ fmt_d (sa_port (sdp_rtp sdp)) +:+ " RTP/AVP"
      +:+ String.concat "" (map (fun c => " " +:+ fmt_d (s32 (payload_type c))) (sdp_codecs sdp)) +:+ CRLF
      +:+ String.concat "" (map sdp_codec_lines (sdp_codecs sdp))
      +:+ "a=ptime:" +:+ fmt_d (s32 (if 0 <? sdp_ptime sdp then sdp_ptime sdp else 20)) +:+ CRLF
      +:+ sdp_mode_line (sdp_mode sdp)
  end.

(** what is in the buffer, and the length that the text needs *)
Definition sdp_msg_to_sdp_str_buf (size : nat) (sdp : option sdp_msg) : string * nat :=
  (strlcpy size (sdp_text sdp), String.length (sdp_text sdp)).

(** ** Parsing *)

(** [SdpOverflow]: a buffer is written beyond its end *)
Inductive sdp_rc : Type := SdpOk | SdpEinval | SdpEnotsup | SdpEnospc | SdpOverflow.

(** the distance of the line end *)
Definition sdp_msg_line_end (s : string) : nat :=
  match strchr s CR with
  | Some n => n
  | None => match strchr s NL with Some n => n | None => String.length s end
  end.

Definition with_codec (pt : Z) (sdp : sdp_msg) (f : nat -> sdp_msg -> sdp_rc * sdp_msg) : sdp_rc * sdp_msg :=
  match sdp_audio_codecs_by_payload_type (sdp_codecs sdp) pt true with
  | (Some i, ac) => f i (sdp <| sdp_codecs := ac |>)
  | (None, _) => (SdpEnospc, sdp)
  end.

(** the scan of the name, the rate and the channels, after the blank *)
Definition parse_rtpmap_codec (audio_name : string) (i : nat) (sdp : sdp_msg) : sdp_rc * sdp_msg :=
  match scan_until_slash 31 (skip_spaces audio_name) with
  | ("", _) => (SdpEinval, sdp)
  | (name, r) =>
      if Nat.leb SUBTYPE_SIZE (String.length name) then (SdpOverflow, sdp)
      else
        let set f := sdp <| sdp_codecs ::= alter f i |> in
        match scan_lit "/" r with
        | None => (SdpOk, set (fun c => c <| subtype_name := name |>))
        | Some r =>
            match scan_u r with
            | None => (SdpOk, set (fun c => c <| subtype_name := name |>))
            | Some (rate, r) =>
                let channels := match scan_lit "/" r with
                                | Some r => match scan_u r with Some (n, _) => n | None => 1 end
                                | None => 1
                                end in
                (if channels =? 1 then SdpOk else SdpEnotsup,
                 set (fun c => c <| subtype_name := name |> <| sc_rate := rate |>))
            end
        end
  end.

Definition parse_rtpmap (src : string) (sdp : sdp_msg) : sdp_rc * sdp_msg :=
  match scan_u (str_drop 7 src) with
  | None => (SdpEinval, sdp)
  | Some (pt, _) =>
      match strchr src " " with
      | None => (SdpEinval, sdp)
      | Some n =>
          if Nat.leb (sdp_msg_line_end src) n then (SdpEinval, sdp)
          else with_codec pt sdp (parse_rtpmap_codec (str_drop n src))
      end
  end.

Definition parse_fmtp (src : string) (sdp : sdp_msg) : sdp_rc * sdp_msg :=
  match scan_u (str_drop 5 src) with
  | None => (SdpEinval, sdp)
  | Some (pt, _) =>
      match strchr src " " with
      | None => (SdpEinval, sdp)
      | Some n =>
          let n := S n in
          let line_end := sdp_msg_line_end src in
          if Nat.leb line_end n then (SdpEinval, sdp)
          else with_codec pt sdp (fun i sdp =>
                 if Nat.leb FMTP_SIZE (line_end - n) then (SdpOverflow, sdp)
                 else (SdpOk, sdp <| sdp_codecs ::= alter (fun c =>
                                c <| fmtp := String.substring 0 (line_end - n) (str_drop n src) |>) i |>))
      end
  end.

Definition sdp_parse_attrib (src : string) (sdp : sdp_msg) : sdp_rc * sdp_msg :=
  let mode m := (SdpOk, sdp <| sdp_mode := m |>) in
  if starts_with "rtpmap:" src then parse_rtpmap src sdp
  else if starts_with "fmtp:" src then parse_fmtp src sdp
  else if starts_with "ptime:" src then
    match scan_u (str_drop 6 src) with
    | Some (v, _) => (SdpOk, sdp <| sdp_ptime := v |>)
    | None => (SdpEinval, sdp)
    end
  else if starts_with "rtcp:" src then (SdpOk, sdp)
  else if starts_with (sdp_mode_str SDP_MODE_SENDRECV) src then mode SDP_MODE_SENDRECV
  else if starts_with (sdp_mode_str SDP_MODE_SENDONLY) src then mode SDP_MODE_SENDONLY
  else if starts_with (sdp_mode_str SDP_MODE_RECVONLY) src then mode SDP_MODE_RECVONLY
  else if starts_with (sdp_mode_str SDP_MODE_INACTIVE) src then mode SDP_MODE_INACTIVE
  else (SdpOk, sdp).

(** from a blank to the next word; [None] when there is no blank *)
Definition next_word (s : string) : option string :=
  match strchr s " " with Some n => Some (skip_blanks (str_drop n s)) | None => None end.

(** [rest]: what of the string follows the line *)
Definition before_end (rest : nat) (s : string) : bool := Nat.ltb rest (String.length s).

(** skip three words *)
Fixpoint skip_words (n rest : nat) (s : string) : option string :=
  match n with
  | O => Some s
  | S n =>
      match next_word s with
      | None => None
      | Some s => if before_end rest s then skip_words n rest s else None
      end
  end.

Definition note_payload_type (pt : Z) (sdp : sdp_msg) : sdp_rc * sdp_msg :=
  with_codec pt sdp (fun i sdp =>
    (SdpOk, match payload_type_name pt with
            | Some name => sdp <| sdp_codecs ::= alter (fun c => c <| subtype_name := strlcpy SUBTYPE_SIZE name |>) i |>
            | None => sdp
            end)).

(** the list of payload types; a round takes at least one character *)
Fixpoint payload_types_loop (fuel rest : nat) (s : string) (sdp : sdp_msg) : sdp_rc * sdp_msg :=
  match fuel with
  | O => (SdpOk, sdp)
  | S fuel =>
      if negb (before_end rest s) then (SdpOk, sdp)
      else
        match scan_u s with
        | None => (SdpEinval, sdp)
        | Some (pt, _) =>
            match note_payload_type pt sdp with
            | (SdpOk, sdp) =>
                match next_word s with
                | Some s => payload_types_loop fuel rest s sdp
                | None => (SdpOk, sdp)
                end
            | r => r
            end
        end
  end.

Definition sdp_parse_media_description (src : string) (sdp : sdp_msg) : sdp_rc * sdp_msg :=
  let rest := (String.length src - sdp_msg_line_end src)%nat in
  match scan_lit "audio" src with
  | None => (SdpEnotsup, sdp)
  | Some s =>
      match scan_u (skip_spaces s) with
      | None => (SdpEnotsup, sdp)
      | Some (port, _) =>
          if 0xffff <? port then (SdpEinval, sdp)
          else
            let sdp := sdp <| sdp_rtp ::= fun a => a <| sa_port := port |> |> in
            match skip_words 3 rest src with
            | None => (SdpEinval, sdp)
            | Some s => payload_types_loop (String.length s) rest s sdp
            end
      end
  end.

(** sizeof(ipv) and sizeof(addr_str) *)
Definition IPV_SIZE : nat := 10.
Definition INET6_ADDRSTRLEN : nat := 46.

Definition sdp_parse_connection_info (src : string) (sdp : sdp_msg) : sdp_rc * sdp_msg :=
  match scan_lit "IN" src with
  | None => (SdpEinval, sdp)
  | Some s =>
      match scan_s (String.length s) s with
      | None => (SdpEinval, sdp)
      | Some (ipv, s) =>
          if Nat.leb IPV_SIZE (String.length ipv) then (SdpOverflow, sdp)
          else
            match scan_s (String.length s) s with
            | None => (SdpEinval, sdp)
            | Some (addr, _) =>
                if Nat.leb INET6_ADDRSTRLEN (String.length addr) then (SdpOverflow, sdp)
                else if negb (String.eqb ipv "IP4") then (SdpEnotsup, sdp)
                else (SdpOk, sdp <| sdp_rtp := osmo_sockaddr_str_from_str addr (sa_port (sdp_rtp sdp)) |>)
            end
      end
  end.

Definition parse_line (attrib : ascii) (src : string) (sdp : sdp_msg) : sdp_rc * sdp_msg :=
  if Ascii.eqb attrib "a" then sdp_parse_attrib src sdp
  else if Ascii.eqb attrib "m" then sdp_parse_media_description src sdp
  else if Ascii.eqb attrib "c" then sdp_parse_connection_info src sdp
  else (SdpOk, sdp).

(** the loop over the text; a round takes at least one character *)
Fixpoint from_sdp_loop (fuel : nat) (s : string) (sdp : sdp_msg) : sdp_rc * sdp_msg :=
  match fuel with
  | O => (SdpOk, sdp)
  | S fuel =>
      let next_line s sdp :=
        match find_crlf s with
        | Some (String _ s) => from_sdp_loop fuel s sdp
        | _ => (SdpOk, sdp)
        end in
      match s with
      | "" => (SdpOk, sdp)
      | String c s' =>
          if Ascii.eqb c CR || Ascii.eqb c NL then from_sdp_loop fuel s' sdp
          else
            match s' with
            | String "=" src =>
                match parse_line c src sdp with
                | (SdpOk, sdp) => next_line src sdp
                | r => r
                end
            | _ => next_line s sdp
            end
      end
  end.

(** the message as far as it was parsed, also when there was an error *)
Definition sdp_msg_from_sdp_str (src : string) : sdp_rc * sdp_msg :=
  from_sdp_loop (String.length src) src no_sdp.

(** ** For the log *)

Definition sdp_audio_codec_to_str (c : sdp_audio_codec) : string :=
  subtype_name c +:+ (if sc_rate c =? 8000 then "" else "/" +:+ fmt_d (sc_rate c))
  +:+ (if str_nonempty (fmtp c) then ":" +:+ fmtp c else "")
  +:+ "#" +:+ fmt_d (s32 (payload_type c)).
Definition sdp_audio_codecs_to_str (ac : sdp_audio_codecs) : string :=
  match ac with
  | [] => "(no-codecs)"
  | _ => String.concat "," (map sdp_audio_codec_to_str ac)
  end.
End sdp.
