(* ===== verification/SdpProofs.v ===== *)
(** * Session descriptions read back

    What the MSC composes, it parses to the same message; and where the parser
    writes beyond a buffer. *)

From S2P Require Import Prelude CLib CLibProofs VlrTypes Codecs Csd Sdp.
From Stdlib Require Import Ascii.

(** ** Strings *)

Lemma app_assoc_str a b c : (a +:+ b) +:+ c = a +:+ (b +:+ c).
Proof. induction a as [|x a IH]; [done|]. exact (f_equal (String x) IH). Qed.
Lemma app_cons_str x a b : String x a +:+ b = String x (a +:+ b).
Proof. done. Qed.
Lemma drop_app a b : str_drop (String.length a) (a +:+ b) = b.
Proof. by induction a. Qed.
Lemma substring_app a b : String.substring 0 (String.length a) (a +:+ b) = a.
Proof. induction a as [|x a IH]; [by destruct b|]. exact (f_equal (String x) IH). Qed.

(** no character of [s] satisfies [p] *)
Fixpoint none (p : ascii -> bool) (s : string) : bool :=
  match s with "" => true | String c s' => negb (p c) && none p s' end.
Lemma none_app p a b : none p (a +:+ b) = none p a && none p b.
Proof. induction a as [|c a IH]; [done|]. rewrite app_cons_str. cbn [none]. by rewrite IH, andb_assoc. Qed.
Lemma none_impl (p q : ascii -> bool) s : (forall c, q c = true -> p c = true) -> none p s = true -> none q s = true.
Proof.
  intros H. induction s as [|c s IH]; [done|]. cbn. rewrite !andb_true_iff, !negb_true_iff. intros [Hc Hs].
  split; [|auto]. apply not_true_iff_false. intros Hq%H. congruence.
Qed.
Lemma strchr_none s c : none (Ascii.eqb c) s = true -> strchr s c = None.
Proof.
  induction s as [|d s IH]; [done|]. cbn [none strchr]. rewrite andb_true_iff, negb_true_iff. intros [Hd Hs].
  rewrite Ascii.eqb_sym, Hd. by rewrite IH.
Qed.
Lemma strchr_app s c rest : none (Ascii.eqb c) s = true -> strchr (s +:+ String c rest) c = Some (String.length s).
Proof.
  induction s as [|d s IH]; intros H; [change ("" +:+ ?x) with x; cbn [strchr]; by rewrite Ascii.eqb_refl|].
  cbn [none] in H. apply andb_true_iff in H as [Hd H]. rewrite app_cons_str. cbn [strchr].
  rewrite negb_true_iff, Ascii.eqb_sym in Hd. by rewrite Hd, IH.
Qed.

(** white space *)
Definition is_crlf (c : ascii) : bool := Ascii.eqb c CR || Ascii.eqb c NL.
Lemma crlf_space c : is_crlf c = true -> is_space c = true.
Proof. unfold is_crlf. intros [H|H]%orb_true_iff; apply Ascii.eqb_eq in H as ->; done. Qed.

Lemma line_end_app s rest : none is_crlf s = true -> sdp_msg_line_end (s +:+ CRLF +:+ rest) = String.length s.
Proof.
  intros H. unfold sdp_msg_line_end. change (CRLF +:+ rest) with (String CR (String NL rest)).
  rewrite strchr_app; [done|]. apply (none_impl is_crlf); [|done]. intros c. unfold is_crlf.
  rewrite Ascii.eqb_sym. by intros ->.
Qed.
Lemma find_crlf_app s rest : none is_crlf s = true ->
  find_crlf (s +:+ CRLF +:+ rest) = Some (CRLF +:+ rest).
Proof.
  induction s as [|c s IH]; intros H; [done|]. cbn [none] in H. apply andb_true_iff in H as [Hc H].
  unfold is_crlf in Hc. rewrite negb_true_iff, orb_false_iff in Hc. destruct Hc as [Hc _].
  rewrite app_cons_str. specialize (IH H). destruct (s +:+ CRLF +:+ rest) as [|d t] eqn:E; [done|].
  cbn [find_crlf]. by rewrite Hc.
Qed.

(** ** Numbers *)

(** a string that does not go on with a digit *)
Definition no_digit (s : string) : bool :=
  match s with String c _ => match base_digit 10 c with Some _ => false | None => true end | "" => true end.

Lemma digit_chr_10 d : 0 <= d < 10 -> base_digit 10 (digit_chr d) = Some d /\ is_digit (digit_chr d) = true.
Proof.
  intros H. pose proof (range_cases 10 (fun d => match base_digit 10 (digit_chr d) with
    | Some e => e =? d | None => false end && is_digit (digit_chr d)) ltac:(by vm_compute) d H) as E.
  cbv beta in E. apply andb_true_iff in E as [E1 E2]. destruct (base_digit _ _); [|done].
  by apply Z.eqb_eq in E1 as ->.
Qed.
Definition value10 (acc : Z) (l : list Z) : Z := fold_left (fun a d => a * 10 + d) l acc.
Lemma read_digits_map l rest seen acc : Forall (fun d => 0 <= d < 10) l -> no_digit rest = true ->
  read_digits 10 (of_chars (map digit_chr l) +:+ rest) seen acc
  = (seen || negb (bool_decide (l = [])), value10 acc l, rest).
Proof.
  intros Hl Hr. revert seen acc. induction Hl as [|d l Hd Hl IH]; intros seen acc.
  { cbn [map of_chars]. change (_ +:+ rest) with rest. rewrite bool_decide_eq_true_2, orb_false_r by done.
    destruct rest as [|c rest]; [done|]. cbn in *. by destruct (base_digit 10 c). }
  change (of_chars (map digit_chr (d :: l)) +:+ rest) with (String (digit_chr d) (of_chars (map digit_chr l) +:+ rest)).
  cbn [read_digits]. rewrite (proj1 (digit_chr_10 d Hd)), IH. by rewrite orb_true_r.
Qed.
Lemma digits_rev_ok fuel n : 0 <= n < 10 ^ Z.of_nat fuel -> (fuel <> 0)%nat ->
  Forall (fun d => 0 <= d < 10) (digits_rev fuel 10 n) /\ value10 0 (rev (digits_rev fuel 10 n)) = n
  /\ digits_rev fuel 10 n <> [].
Proof.
  revert n. induction fuel as [|f IH]; intros n Hn Hf; [done|]. cbn [digits_rev].
  destruct (Z.ltb_spec n 10) as [H|H].
  { split; [constructor; [lia|constructor]|]. done. }
  destruct (decide (f = O)) as [->|Hf0]; [cbn in Hn; lia|].
  assert (H10 : 0 <= n / 10 < 10 ^ Z.of_nat f).
  { split; [apply Z.div_pos; lia|]. apply Z.div_lt_upper_bound; [lia|].
    replace (10 * 10 ^ Z.of_nat f) with (10 ^ Z.of_nat (S f)); [lia|].
    rewrite Nat2Z.inj_succ, Z.pow_succ_r; lia. }
  destruct (IH (n / 10) H10 Hf0) as (H1 & H2 & H3). split; [|split; [|done]].
  - constructor; [|done]. apply Z.mod_pos_bound. lia.
  - cbn [rev]. unfold value10 in *. rewrite fold_left_app, H2. cbn. pose proof (Z.div_mod n 10). lia.
Qed.
Lemma fmt_d_pos z : 0 <= z -> fmt_d z = of_chars (map digit_chr (digits_of 10 z)).
Proof. intros H. unfold fmt_d. by rewrite (proj2 (Z.ltb_ge _ _)). Qed.
Lemma digits_of_ok z : 0 <= z < 2 ^ 64 ->
  Forall (fun d => 0 <= d < 10) (digits_of 10 z) /\ value10 0 (digits_of 10 z) = z /\ digits_of 10 z <> [].
Proof.
  intros H. destruct (digits_rev_ok 64 z) as (H1 & H2 & H3); [|done|].
  { split; [lia|]. etransitivity; [apply H|]. by vm_compute. }
  split; [by apply Forall_rev|]. split; [done|]. unfold digits_of. intros E. apply H3.
  by rewrite <- (rev_involutive (digits_rev 64 10 z)), E.
Qed.

(** a number is not white space, a sign, or another separator *)
Lemma fmt_d_digits z : 0 <= z < 2 ^ 64 -> none (fun c => negb (is_digit c)) (fmt_d z) = true
  /\ exists c s, fmt_d z = String c s.
Proof.
  intros H. rewrite fmt_d_pos by lia. destruct (digits_of_ok z H) as (Hd & _ & Hn).
  destruct (digits_of 10 z) as [|d l] eqn:E; [done|]. clear E Hn. split; [|by eexists _, _].
  induction Hd as [|x k Hx Hk IH]; [done|].
  change (of_chars (map digit_chr (x :: k))) with (String (digit_chr x) (of_chars (map digit_chr k))).
  cbn [none]. by rewrite (proj2 (digit_chr_10 x Hx)).
Qed.
Lemma scan_u_fmt z rest : 0 <= z < 2 ^ 32 -> no_digit rest = true -> scan_u (fmt_d z +:+ rest) = Some (z, rest).
Proof.
  intros H Hr. assert (H64 : 0 <= z < 2 ^ 64) by lia.
  destruct (digits_of_ok z H64) as (Hd & Hv & Hn). destruct (fmt_d_digits z H64) as [Hf (c & s & Es)].
  unfold scan_u, strtoul, read_number. rewrite Es in Hf. cbn [none] in Hf.
  apply andb_true_iff in Hf as [Hc _]. rewrite negb_involutive in Hc.
  assert (E1 : skip_spaces (fmt_d z +:+ rest) = fmt_d z +:+ rest).
  { rewrite Es, app_cons_str. cbn [skip_spaces]. by rewrite (proj1 (digit_plain c Hc)). }
  assert (E2 : read_sign (fmt_d z +:+ rest) = (false, fmt_d z +:+ rest)).
  { rewrite Es, app_cons_str. by apply read_sign_digit. }
  assert (E3 : skip_0x 10 (fmt_d z +:+ rest) = fmt_d z +:+ rest).
  { unfold skip_0x. destruct (fmt_d z +:+ rest) as [|x [|y [|w t]]]; try done; [by destruct x as [[] [] [] [] [] [] [] []]..|].
    by destruct x as [[] [] [] [] [] [] [] []]. }
  rewrite E1, E2, E3, fmt_d_pos by lia. rewrite read_digits_map by done.
  rewrite bool_decide_eq_false_2, Hv by done. cbn [negb orb].
  unfold ULONG_MAX, u32. rewrite (proj2 (Z.ltb_ge _ _)) by lia. by rewrite Z.mod_small by lia.
Qed.

(** ** Lines *)
Section lines.
Context {SL : SockaddrLib}.

Lemma find_crlf_length s t : find_crlf s = Some t -> (String.length t <= String.length s)%nat.
Proof.
  induction s as [|c s IH]; [done|]. destruct s as [|d s]; [done|]. cbn [find_crlf].
  destruct (Ascii.eqb c CR && Ascii.eqb d NL); [by intros [= <-]|]. intros H%IH. cbn in *. lia.
Qed.
Lemma from_sdp_fuel n m s sdp : (String.length s <= n)%nat -> (String.length s <= m)%nat ->
  from_sdp_loop n s sdp = from_sdp_loop m s sdp.
Proof.
  revert m s sdp. induction n as [|n IH]; intros m s sdp Hn Hm.
  { destruct s; [|cbn in Hn; lia]. by destruct m. }
  destruct m as [|m]; [destruct s; [done|cbn in Hm; lia]|].
  cbn [from_sdp_loop]. destruct s as [|c s]; [done|]. cbn in Hn, Hm.
  destruct (Ascii.eqb c CR || Ascii.eqb c NL); [apply IH; lia|].
  assert (Hnext : forall u sdp, (String.length u <= S (String.length s))%nat ->
    match find_crlf u with Some (String _ t) => from_sdp_loop n t sdp | _ => (SdpOk, sdp) end
    = match find_crlf u with Some (String _ t) => from_sdp_loop m t sdp | _ => (SdpOk, sdp) end).
  { intros u sdp' Hu. destruct (find_crlf u) as [[|d t]|] eqn:E; [done| |done].
    apply find_crlf_length in E. cbn in E. apply IH; lia. }
  pose proof (Hnext (String c s) sdp (Nat.le_refl _)) as Hother.
  destruct s as [|e src]; [exact Hother|].
  destruct (Ascii.eqb_spec e "=") as [->|Hne].
  - destruct (parse_line c src sdp) as [[] sdp']; try done. apply Hnext. cbn. lia.
  - destruct e as [[] [] [] [] [] [] [] []]; first [exact Hother|done].
Qed.

(** the rest of the text, from the beginning of a line *)
Definition parse (s : string) (sdp : sdp_msg) : sdp_rc * sdp_msg := from_sdp_loop (String.length s) s sdp.

Lemma from_parse s : sdp_msg_from_sdp_str s = parse s no_sdp.
Proof. done. Qed.
Lemma parse_step a body rest sdp sdp' : is_crlf a = false -> none is_crlf body = true ->
  parse_line a (body +:+ CRLF +:+ rest) sdp = (SdpOk, sdp') ->
  parse (String a (String "=" (body +:+ CRLF +:+ rest))) sdp = parse rest sdp'.
Proof.
  intros Ha Hb E. unfold parse. cbn [String.length]. set (n := S (String.length _)).
  assert (Hn : (S (String.length rest) <= n)%nat) by (unfold n; rewrite !str_length_app; change (String.length CRLF) with 2%nat; lia).
  clearbody n. cbn [from_sdp_loop]. unfold is_crlf in Ha. rewrite Ha. cbv iota. rewrite E.
  rewrite find_crlf_app by done. change (CRLF +:+ rest) with (String CR (String NL rest)). cbv iota.
  rewrite (from_sdp_fuel n (S (String.length rest))) by done. done.
Qed.
(** a line that is refused ends the parsing *)
Lemma parse_stop a body rest sdp rc sdp' : is_crlf a = false -> rc <> SdpOk ->
  parse_line a (body +:+ CRLF +:+ rest) sdp = (rc, sdp') ->
  parse (String a (String "=" (body +:+ CRLF +:+ rest))) sdp = (rc, sdp').
Proof.
  intros Ha Hrc E. unfold parse. cbn [String.length from_sdp_loop]. unfold is_crlf in Ha. rewrite Ha. cbv iota. rewrite E.
  by destruct rc.
Qed.
Lemma parse_skip a body rest sdp : is_crlf a = false -> none is_crlf body = true ->
  Ascii.eqb a "a" = false -> Ascii.eqb a "m" = false -> Ascii.eqb a "c" = false ->
  parse (String a (String "=" (body +:+ CRLF +:+ rest))) sdp = parse rest sdp.
Proof. intros Ha Hb H1 H2 H3. apply parse_step; [done..|]. unfold parse_line. by rewrite H1, H2, H3. Qed.

(** ** The connection line *)

Lemma skip_spaces_id s : none is_space s = true -> forall rest, s <> "" -> skip_spaces (s +:+ rest) = s +:+ rest.
Proof.
  destruct s as [|c s]; [done|]. cbn [none]. rewrite andb_true_iff, negb_true_iff. intros [Hc _] rest _.
  rewrite app_cons_str. cbn [skip_spaces]. by rewrite Hc.
Qed.
Lemma scan_word_app n w rest : none is_space w = true -> (String.length w <= n)%nat ->
  (match rest with String c _ => is_space c = true | "" => True end) ->
  scan_word_chars n (w +:+ rest) = (w, rest).
Proof.
  revert n. induction w as [|c w IH]; intros n Hw Hn Hr.
  { change ("" +:+ rest) with rest. destruct n; [by destruct rest|]. destruct rest as [|d rest]; [done|].
    cbn [scan_word_chars]. by rewrite Hr. }
  destruct n as [|n]; [cbn in Hn; lia|]. cbn [none] in Hw. apply andb_true_iff in Hw as [Hc Hw].
  rewrite app_cons_str. cbn [scan_word_chars]. rewrite negb_true_iff in Hc. rewrite Hc.
  rewrite IH; [done|done|cbn in Hn; lia|done].
Qed.
Lemma scan_s_app w rest : none is_space w = true -> w <> "" ->
  (match rest with String c _ => is_space c = true | "" => True end) ->
  scan_s (String.length (String " " (w +:+ rest))) (String " " (w +:+ rest)) = Some (w, rest).
Proof.
  intros Hw Hne Hr. unfold scan_s. change (skip_spaces (String " " (w +:+ rest))) with (skip_spaces (w +:+ rest)).
  rewrite skip_spaces_id by done. rewrite scan_word_app; [by destruct w|done| |done].
  cbn. rewrite str_length_app. lia.
Qed.

(** an address of this family that libosmocore takes *)
Definition ip4_ok (ip : string) : Prop :=
  none is_space ip = true /\ ip <> "" /\ (String.length ip < INET6_ADDRSTRLEN)%nat
  /\ osmo_ip_str_type ip = AF_INET
  /\ forall port, osmo_sockaddr_str_from_str ip port = mk_sockaddr AF_INET ip port.
Definition ip6_ok (ip : string) : Prop :=
  none is_space ip = true /\ ip <> "" /\ (String.length ip < INET6_ADDRSTRLEN)%nat /\ osmo_ip_str_type ip = AF_INET6.

Lemma connection_scan ipv ip rest sdp :
  none is_space ipv = true -> ipv <> "" -> (String.length ipv < IPV_SIZE)%nat ->
  none is_space ip = true -> ip <> "" -> (String.length ip < INET6_ADDRSTRLEN)%nat ->
  sdp_parse_connection_info ("IN " +:+ ipv +:+ " " +:+ ip +:+ CRLF +:+ rest) sdp
  = if negb (String.eqb ipv "IP4") then (SdpEnotsup, sdp)
    else (SdpOk, sdp <| sdp_rtp := osmo_sockaddr_str_from_str ip (sa_port (sdp_rtp sdp)) |>).
Proof.
  intros Hv Hvne Hvl Hs Hne Hl. unfold sdp_parse_connection_info.
  change (scan_lit "IN" ("IN " +:+ ?x)) with (Some (String " " x)). cbv iota.
  change (" " +:+ ip +:+ CRLF +:+ rest) with (String " " (ip +:+ CRLF +:+ rest)).
  rewrite scan_s_app by done. cbv iota. rewrite (proj2 (Nat.leb_gt _ _)) by done.
  rewrite scan_s_app by done. by rewrite (proj2 (Nat.leb_gt _ _)) by done.
Qed.
Lemma parse_c ip rest sdp : ip4_ok ip ->
  parse ("c=IN IP4 " +:+ ip +:+ CRLF +:+ rest) sdp
  = parse rest (sdp <| sdp_rtp := mk_sockaddr AF_INET ip (sa_port (sdp_rtp sdp)) |>).
Proof.
  intros (Hs & Hne & Hl & _ & Hf).
  change ("c=IN IP4 " +:+ ip +:+ CRLF +:+ rest)
    with (String "c" (String "=" (("IN IP4 " +:+ ip) +:+ CRLF +:+ rest))).
  apply parse_step; [done| |].
  { rewrite none_app. apply andb_true_iff. split; [done|]. apply (none_impl is_space); [apply crlf_space|done]. }
  etransitivity; [apply (connection_scan "IP4" ip rest sdp); unfold IPV_SIZE; first [done|cbn; lia]|].
  change (negb (String.eqb "IP4" "IP4")) with false. cbv iota. by rewrite Hf.
Qed.
Lemma parse_c6 ip rest sdp : ip6_ok ip -> parse ("c=IN IP6 " +:+ ip +:+ CRLF +:+ rest) sdp = (SdpEnotsup, sdp).
Proof.
  intros (Hs & Hne & Hl & _).
  change ("c=IN IP6 " +:+ ip +:+ CRLF +:+ rest)
    with (String "c" (String "=" (("IN IP6 " +:+ ip) +:+ CRLF +:+ rest))).
  apply parse_stop; [done|done|].
  etransitivity; [apply (connection_scan "IP6" ip rest sdp); unfold IPV_SIZE; first [done|cbn; lia]|]. done.
Qed.

(** ** The media line *)

Lemma digit_no_blank c : is_digit c = true -> Ascii.eqb " " c = false /\ is_crlf c = false.
Proof.
  intros H. pose proof (ascii_cases (fun c => implb (is_digit c) (negb (Ascii.eqb " " c) && negb (is_crlf c)))
    ltac:(by vm_compute) c) as E. cbv beta in E. rewrite H in E. cbn [implb] in E.
  by apply andb_true_iff in E as [E1%negb_true_iff E2%negb_true_iff].
Qed.
Lemma fmt_d_plain z : 0 <= z < 2 ^ 64 -> none (Ascii.eqb " ") (fmt_d z) = true /\ none is_crlf (fmt_d z) = true.
Proof.
  intros [H _]%fmt_d_digits. split; (eapply none_impl; [|exact H]); intros c Hc; cbv beta;
    destruct (is_digit c) eqn:E; try done; apply digit_no_blank in E as [E1 E2]; congruence.
Qed.
Lemma fmt_d_not_blank z rest : 0 <= z < 2 ^ 64 -> skip_blanks (fmt_d z +:+ rest) = fmt_d z +:+ rest.
Proof.
  intros H. destruct (fmt_d_digits z H) as [Hf (c & s & E)]. rewrite E in *. cbn [none] in Hf.
  apply andb_true_iff in Hf as [Hc _]. rewrite negb_involutive in Hc.
  apply digit_no_blank in Hc as [Hc _]. apply Ascii.eqb_neq in Hc. rewrite app_cons_str.
  destruct c as [[] [] [] [] [] [] [] []]; done.
Qed.
Lemma next_word_app w s : none (Ascii.eqb " ") w = true -> next_word (w +:+ String " " s) = Some (skip_blanks s).
Proof.
  intros H. unfold next_word. rewrite strchr_app by done. by rewrite drop_app.
Qed.
Lemma strchr_ge w u n : none (Ascii.eqb " ") w = true -> strchr (w +:+ u) " " = Some n -> (String.length w <= n)%nat.
Proof.
  revert n. induction w as [|c w IH]; intros n Hw H; [cbn; lia|]. cbn [none] in Hw.
  apply andb_true_iff in Hw as [Hc Hw]. rewrite app_cons_str in H. cbn [strchr] in H.
  rewrite negb_true_iff, Ascii.eqb_sym in Hc. rewrite Hc in H.
  destruct (strchr (w +:+ u) " ") as [k|] eqn:E; [|done]. injection H as <-. apply (IH k) in Hw; [|done]. cbn. lia.
Qed.
Lemma drop_length n s : String.length (str_drop n s) = (String.length s - n)%nat.
Proof. revert s. induction n as [|n IH]; intros [|c s]; cbn; auto. Qed.
Lemma skip_blanks_length s : (String.length (skip_blanks s) <= String.length s)%nat.
Proof.
  induction s as [|c s IH]; [done|].
  destruct c as [[] [] [] [] [] [] [] []]; first [exact (Nat.le_refl _)|exact (Nat.le_trans _ _ _ IH (Nat.le_succ_diag_r _))].
Qed.
Lemma next_word_end w u s : none (Ascii.eqb " ") w = true -> next_word (w +:+ u) = Some s ->
  before_end (String.length u) s = false.
Proof.
  intros Hw H. unfold next_word in H. destruct (strchr _ _) as [n|] eqn:E; [|done]. injection H as <-.
  apply strchr_ge in E; [|done]. apply Nat.ltb_ge.
  etransitivity; [apply skip_blanks_length|]. rewrite drop_length, str_length_app. lia.
Qed.
Lemma before_end_app w u : w <> "" -> before_end (String.length u) (w +:+ u) = true.
Proof. intros H. apply Nat.ltb_lt. rewrite str_length_app. destruct w; [done|]. cbn. lia. Qed.

Lemma concat_cons x l : String.concat "" (x :: l) = x +:+ String.concat "" l.
Proof. destruct l as [|y l]; [|done]. cbn. induction x as [|c x IH]; [done|]. exact (f_equal (String c) IH). Qed.
Lemma s32_id z : 0 <= z < 2 ^ 31 -> s32 z = z.
Proof. intros H. unfold s32. rewrite Z.mod_small; lia. Qed.

(** the entry that the media line makes *)
Definition init_codec (c : sdp_audio_codec) : sdp_audio_codec :=
  mk_codec (payload_type c)
    match payload_type_name (payload_type c) with Some n => strlcpy SUBTYPE_SIZE n | None => "" end 8000 "".

Lemma find_index_mid {A} (p : A -> bool) l1 x l2 : (forall y, y ∈ l1 -> p y = false) -> p x = true ->
  find_index p (l1 ++ x :: l2) = Some (length l1).
Proof.
  intros H Hx. unfold find_index. induction l1 as [|y l1 IH].
  { cbn. by rewrite decide_True. }
  cbn. rewrite decide_False by (rewrite (H y); [done|by left]).
  specialize (IH (fun z Hz => H z (list_elem_of_further _ _ _ Hz))).
  destruct (list_find _ _) as [[k z]|]; [|done]. cbn in *. by injection IH as ->.
Qed.
Lemma find_index_no {A} (p : A -> bool) l : (forall y, y ∈ l -> p y = false) -> find_index p l = None.
Proof.
  intros H. unfold find_index. induction l as [|y l IH]; [done|]. cbn.
  rewrite decide_False by (rewrite (H y); [done|by left]).
  specialize (IH (fun z Hz => H z (list_elem_of_further _ _ _ Hz))). by destruct (list_find _ _) as [[]|].
Qed.
Lemma alter_mid {A} (f : A -> A) l1 x l2 : alter f (length l1) (l1 ++ x :: l2) = l1 ++ f x :: l2.
Proof. induction l1 as [|y l1 IH]; [done|]. exact (f_equal (cons y) IH). Qed.

Definition pt_free (pt : Z) (l : sdp_audio_codecs) : Prop := forall c, c ∈ l -> payload_type c <> pt.
Lemma note_new c sdp : pt_free (payload_type c) (sdp_codecs sdp) -> (length (sdp_codecs sdp) < MAX_CODECS)%nat ->
  note_payload_type (payload_type c) sdp = (SdpOk, sdp <| sdp_codecs ::= fun l => l ++ [init_codec c] |>).
Proof.
  intros Hp Hl. unfold note_payload_type, with_codec, sdp_audio_codecs_by_payload_type.
  rewrite find_index_no by (intros y Hy; apply Z.eqb_neq, Hp, Hy). cbn [negb].
  rewrite (proj2 (Nat.leb_gt _ _)) by done. unfold init_codec.
  destruct (payload_type_name _) as [n|]; [|done].
  refine (f_equal (fun l => (SdpOk, mk_sdp (sdp_rtp sdp) (sdp_ptime sdp) (sdp_mode sdp) l (sdp_bearer_services sdp))) _).
  apply alter_mid.
Qed.

(** the payload types of the media line *)
Definition pts (l : sdp_audio_codecs) : string :=
  String.concat "" (map (fun c => " " +:+ fmt_d (s32 (payload_type c))) l).
Lemma pts_cons c l : 0 <= payload_type c < 2 ^ 31 ->
  pts (c :: l) = String " " (fmt_d (payload_type c) +:+ pts l).
Proof.
  intros H. unfold pts. cbn [map]. rewrite concat_cons, s32_id by done. by rewrite app_assoc_str.
Qed.
Lemma no_digit_pts l u : no_digit u = true -> no_digit (pts l +:+ u) = true.
Proof.
  intros Hu. destruct l as [|c l]; [exact Hu|]. unfold pts. cbn [map]. by rewrite concat_cons.
Qed.
Lemma pts_plain l : Forall (fun c => 0 <= payload_type c < 2 ^ 31) l -> none is_crlf (pts l) = true.
Proof.
  induction 1 as [|c l Hc Hl IH]; [done|]. rewrite pts_cons by done. cbn [none].
  rewrite none_app, IH. by rewrite (proj2 (fmt_d_plain (payload_type c) ltac:(lia))).
Qed.

Lemma payload_types_loop_ok fuel c l u sdp :
  (length (c :: l) <= fuel)%nat -> Forall (fun c => 0 <= payload_type c < 2 ^ 31) (c :: l) ->
  NoDup (map payload_type (c :: l)) -> (forall d, d ∈ c :: l -> pt_free (payload_type d) (sdp_codecs sdp)) ->
  (length (sdp_codecs sdp) + length (c :: l) <= MAX_CODECS)%nat -> no_digit (CRLF +:+ u) = true ->
  payload_types_loop fuel (String.length (CRLF +:+ u)) (fmt_d (payload_type c) +:+ pts l +:+ CRLF +:+ u) sdp
  = (SdpOk, sdp <| sdp_codecs ::= fun k => k ++ map init_codec (c :: l) |>).
Proof.
  revert fuel c sdp. induction l as [|d l IH]; intros fuel c sdp Hf Hr Hn Hp Hl Hu;
    (destruct fuel as [|fuel]; [cbn in Hf; lia|]); apply Forall_cons in Hr as [Hc Hr];
    cbn [payload_types_loop].
  - change (pts [] +:+ ?x) with x.
    destruct (fmt_d_digits (payload_type c) ltac:(lia)) as [_ (x & s & E)].
    rewrite before_end_app by (rewrite E; done). cbn [negb].
    rewrite scan_u_fmt by (lia || done). rewrite note_new; [|apply Hp; by left|cbn in Hl; lia].
    destruct (next_word _) as [t|] eqn:En; [|done].
    apply next_word_end in En; [|by apply fmt_d_plain; lia].
    destruct fuel; cbn [payload_types_loop]; [done|]. by rewrite En.
  - rewrite <- app_assoc_str. rewrite before_end_app; cycle 1.
    { destruct (fmt_d_digits (payload_type c) ltac:(lia)) as [_ (x & s & ->)]. done. }
    rewrite app_assoc_str. cbn [negb].
    rewrite scan_u_fmt by (lia || by apply no_digit_pts).
    rewrite note_new; [|apply Hp; by left|cbn in Hl; lia].
    apply Forall_cons in Hr as Hr'. destruct Hr' as [Hd _].
    rewrite pts_cons by done. rewrite app_cons_str, app_assoc_str.
    rewrite next_word_app by (apply fmt_d_plain; lia). rewrite fmt_d_not_blank by lia.
    rewrite IH; [|cbn in *; lia|done|by apply NoDup_cons in Hn as [_ Hn]| |  |done].
    + refine (f_equal (fun k => (SdpOk, mk_sdp (sdp_rtp sdp) (sdp_ptime sdp) (sdp_mode sdp) k (sdp_bearer_services sdp))) _).
      cbn. by rewrite <- app_assoc.
    + intros e He f. cbn. intros [Hf'| ->%list_elem_of_singleton]%elem_of_app; [apply (Hp e); [by right|done]|].
      cbn. intros Heq. apply NoDup_cons in Hn as [Hn _]. apply Hn.
      exact (eq_ind_r (fun z => z ∈ map payload_type (d :: l)) (list_elem_of_fmap_2 payload_type (d :: l) e He) Heq).
    + change (length (sdp_codecs sdp ++ [init_codec c]) + length (d :: l) <= MAX_CODECS)%nat.
      rewrite length_app. cbn [length] in *. lia.
Qed.

Lemma fmt_d_nonempty z : 0 <= z < 2 ^ 64 -> fmt_d z <> "".
Proof. intros H. by destruct (fmt_d_digits z H) as [_ (x & s & ->)]. Qed.
Lemma fmt_d_skip z v : 0 <= z < 2 ^ 64 -> skip_spaces (fmt_d z +:+ v) = fmt_d z +:+ v.
Proof.
  intros H. apply skip_spaces_id; [|by apply fmt_d_nonempty]. destruct (fmt_d_digits z H) as [Hd _].
  eapply none_impl; [|exact Hd]. intros c Hc. cbv beta. destruct (is_digit c) eqn:E; [|done].
  destruct (digit_plain c E) as [Hs _]. congruence.
Qed.
Lemma skip_media port c l u : 0 <= port < 2 ^ 16 -> 0 <= payload_type c < 2 ^ 31 ->
  skip_words 3 (String.length (CRLF +:+ u)) ("audio " +:+ fmt_d port +:+ " RTP/AVP" +:+ pts (c :: l) +:+ CRLF +:+ u)
  = Some (fmt_d (payload_type c) +:+ pts l +:+ CRLF +:+ u).
Proof.
  intros Hp Hc. rewrite pts_cons by done.
  set (t := String " " (fmt_d (payload_type c) +:+ pts l) +:+ CRLF +:+ u). cbn [skip_words].
  change ("audio " +:+ ?x) with ("audio" +:+ String " " x). rewrite next_word_app by done.
  rewrite fmt_d_not_blank by lia.
  assert (Hend : forall w, w <> "" -> before_end (String.length (CRLF +:+ u)) (w +:+ t) = true).
  { intros w Hw. unfold t. rewrite <- app_assoc_str. apply before_end_app. destruct w; done. }
  rewrite <- app_assoc_str. rewrite Hend; cycle 1.
  { pose proof (fmt_d_nonempty port ltac:(lia)). by destruct (fmt_d port). }
  rewrite app_assoc_str. change (" RTP/AVP" +:+ t) with (String " " ("RTP/AVP" +:+ t)).
  rewrite next_word_app by (apply fmt_d_plain; lia).
  change (skip_blanks ("RTP/AVP" +:+ t)) with ("RTP/AVP" +:+ t). rewrite Hend by done.
  assert (Et : t = String " " (fmt_d (payload_type c) +:+ pts l +:+ CRLF +:+ u))
    by (unfold t; by rewrite app_cons_str, app_assoc_str).
  rewrite Et, next_word_app by done. rewrite fmt_d_not_blank by lia.
  rewrite <- app_assoc_str, before_end_app; [done|].
  pose proof (fmt_d_nonempty (payload_type c) ltac:(lia)). by destruct (fmt_d (payload_type c)).
Qed.
Lemma pts_length k : Forall (fun c => 0 <= payload_type c < 2 ^ 31) k -> (length k <= String.length (pts k))%nat.
Proof. induction 1 as [|z k Hz Hk IHk]; [done|]. rewrite pts_cons by done. cbn. rewrite str_length_app. lia. Qed.

Lemma parse_m port c l u sdp : 0 <= port < 2 ^ 16 ->
  Forall (fun c => 0 <= payload_type c < 2 ^ 31) (c :: l) -> NoDup (map payload_type (c :: l)) ->
  (length (c :: l) <= MAX_CODECS)%nat -> sdp_codecs sdp = [] ->
  parse ("m=audio " +:+ fmt_d port +:+ " RTP/AVP" +:+ pts (c :: l) +:+ CRLF +:+ u) sdp
  = parse u (sdp <| sdp_rtp ::= fun a => a <| sa_port := port |> |> <| sdp_codecs := map init_codec (c :: l) |>).
Proof.
  intros Hp Hr Hn Hl Hs. set (body := "audio " +:+ fmt_d port +:+ " RTP/AVP" +:+ pts (c :: l)).
  assert (Eb : "m=audio " +:+ fmt_d port +:+ " RTP/AVP" +:+ pts (c :: l) +:+ CRLF +:+ u
    = String "m" (String "=" (body +:+ CRLF +:+ u))) by (unfold body; by rewrite !app_assoc_str).
  assert (Hb : none is_crlf body = true).
  { unfold body. rewrite !none_app, pts_plain by done. by rewrite (proj2 (fmt_d_plain port ltac:(lia))). }
  rewrite Eb. apply parse_step; [done|done|].
  change (parse_line "m" ?s sdp) with (sdp_parse_media_description s sdp). unfold sdp_parse_media_description.
  rewrite line_end_app by done. rewrite str_length_app.
  replace (String.length body + String.length (CRLF +:+ u) - String.length body)%nat
    with (String.length (CRLF +:+ u)) by lia.
  unfold body. rewrite !app_assoc_str. apply Forall_cons in Hr as Hr'. destruct Hr' as [Hc Hrl].
  rewrite skip_media by done. change (scan_lit "audio" ("audio " +:+ ?x)) with (Some (String " " x)). cbv iota.
  change (skip_spaces (String " " ?x)) with (skip_spaces x). rewrite fmt_d_skip by lia.
  rewrite scan_u_fmt by (lia || done). rewrite (proj2 (Z.ltb_ge _ _)) by lia.
  rewrite payload_types_loop_ok; try done.
  - refine (f_equal (fun k => (SdpOk, mk_sdp (sdp_rtp sdp <| sa_port := port |>) (sdp_ptime sdp)
      (sdp_mode sdp) k (sdp_bearer_services sdp))) _).
    change (sdp_codecs sdp ++ map init_codec (c :: l) = map init_codec (c :: l)). by rewrite Hs.
  - rewrite !str_length_app. pose proof (pts_length l Hrl). pose proof (fmt_d_nonempty (payload_type c) ltac:(lia)).
    destruct (fmt_d (payload_type c)); [done|]. cbn. lia.
  - intros d _ e He. change (e ∈ sdp_codecs sdp) in He. rewrite Hs in He. by apply not_elem_of_nil in He.
  - change (length (sdp_codecs sdp) + length (c :: l) <= MAX_CODECS)%nat. by rewrite Hs.
Qed.

(** a media line without payload types is refused *)
Lemma skip_media_none port u : 0 <= port < 2 ^ 16 -> none (Ascii.eqb " ") (CRLF +:+ u) = true ->
  skip_words 3 (String.length (CRLF +:+ u)) ("audio " +:+ fmt_d port +:+ " RTP/AVP" +:+ CRLF +:+ u) = None.
Proof.
  intros Hp Hu. set (t := CRLF +:+ u) in *. cbn [skip_words].
  change ("audio " +:+ ?x) with ("audio" +:+ String " " x). rewrite next_word_app by done.
  rewrite fmt_d_not_blank by lia. rewrite <- app_assoc_str, before_end_app; cycle 1.
  { pose proof (fmt_d_nonempty port ltac:(lia)). by destruct (fmt_d port). }
  rewrite app_assoc_str. change (" RTP/AVP" +:+ t) with (String " " ("RTP/AVP" +:+ t)).
  rewrite next_word_app by (apply fmt_d_plain; lia).
  change (skip_blanks ("RTP/AVP" +:+ t)) with ("RTP/AVP" +:+ t). rewrite before_end_app by done.
  unfold next_word. rewrite strchr_none; [done|]. rewrite none_app, Hu. done.
Qed.
Lemma parse_m_none port u sdp : 0 <= port < 2 ^ 16 -> none (Ascii.eqb " ") (CRLF +:+ u) = true ->
  parse ("m=audio " +:+ fmt_d port +:+ " RTP/AVP" +:+ CRLF +:+ u) sdp
  = (SdpEinval, sdp <| sdp_rtp ::= fun a => a <| sa_port := port |> |>).
Proof.
  intros Hp Hu. set (body := "audio " +:+ fmt_d port +:+ " RTP/AVP").
  assert (Eb : "m=audio " +:+ fmt_d port +:+ " RTP/AVP" +:+ CRLF +:+ u
    = String "m" (String "=" (body +:+ CRLF +:+ u))) by (unfold body; by rewrite !app_assoc_str).
  assert (Hb : none is_crlf body = true).
  { unfold body. rewrite !none_app. by rewrite (proj2 (fmt_d_plain port ltac:(lia))). }
  rewrite Eb. apply parse_stop; [done|done|].
  change (parse_line "m" ?s sdp) with (sdp_parse_media_description s sdp). unfold sdp_parse_media_description.
  rewrite line_end_app by done. rewrite str_length_app.
  replace (String.length body + String.length (CRLF +:+ u) - String.length body)%nat
    with (String.length (CRLF +:+ u)) by lia.
  unfold body. rewrite !app_assoc_str, skip_media_none by done.
  change (scan_lit "audio" ("audio " +:+ ?x)) with (Some (String " " x)). cbv iota.
  change (skip_spaces (String " " ?x)) with (skip_spaces x). rewrite fmt_d_skip by lia.
  rewrite scan_u_fmt by (lia || done). by rewrite (proj2 (Z.ltb_ge _ _)) by lia.
Qed.

(** ** The lines of a codec *)

(** a codec that can be described *)
Definition codec_ok (c : sdp_audio_codec) : Prop :=
  0 <= payload_type c < 2 ^ 31 /\ 1 <= sc_rate c < 2 ^ 31
  /\ subtype_name c <> "" /\ (String.length (subtype_name c) < SUBTYPE_SIZE)%nat
  /\ none (fun ch => Ascii.eqb ch "/" || is_space ch) (subtype_name c) = true
  /\ (String.length (fmtp c) < FMTP_SIZE)%nat /\ none is_crlf (fmtp c) = true.

Lemma scan_until_slash_app n w r : none (fun ch => Ascii.eqb ch "/") w = true -> (String.length w <= n)%nat ->
  scan_until_slash (S n) (w +:+ String "/" r) = (w, String "/" r).
Proof.
  revert n. induction w as [|c w IH]; intros n Hw Hn; [done|]. cbn [none] in Hw.
  apply andb_true_iff in Hw as [Hc Hw]. rewrite app_cons_str. cbn [scan_until_slash].
  rewrite negb_true_iff in Hc. rewrite Hc. destruct n as [|n]; [cbn in Hn; lia|].
  rewrite (IH n); [done|done|cbn in Hn; lia].
Qed.
Lemma with_codec_mid pt d k l sdp f : sdp_codecs sdp = d ++ k :: l -> pt_free pt d -> payload_type k = pt ->
  with_codec pt sdp f = f (length d) sdp.
Proof.
  intros Hs Hd Hk. unfold with_codec, sdp_audio_codecs_by_payload_type. rewrite Hs, find_index_mid.
  - exact (f_equal (fun x => f (length d) (mk_sdp (sdp_rtp sdp) (sdp_ptime sdp) (sdp_mode sdp) x (sdp_bearer_services sdp)))
      (eq_sym Hs)).
  - intros y Hy. by apply Z.eqb_neq, Hd.
  - by apply Z.eqb_eq.
Qed.
Lemma set_mid sdp d k l g : sdp_codecs sdp = d ++ k :: l ->
  sdp <| sdp_codecs ::= alter g (length d) |> = sdp <| sdp_codecs := d ++ g k :: l |>.
Proof.
  intros Hs. refine (f_equal (fun x => mk_sdp (sdp_rtp sdp) (sdp_ptime sdp) (sdp_mode sdp) x (sdp_bearer_services sdp)) _).
  change (alter g (length d) (sdp_codecs sdp) = d ++ g k :: l). rewrite Hs. apply alter_mid.
Qed.

(** the number after the attribute, and the blank after it *)
Lemma attrib_number a pt v u : 0 <= pt < 2 ^ 31 -> none (Ascii.eqb " ") a = true ->
  none is_crlf a = true -> none is_crlf v = true -> v <> "" ->
  let src := (a +:+ fmt_d pt +:+ " " +:+ v) +:+ CRLF +:+ u in
  let n := String.length (a +:+ fmt_d pt) in
  scan_u (str_drop (String.length a) src) = Some (pt, " " +:+ v +:+ CRLF +:+ u)
  /\ strchr src " " = Some n /\ str_drop n src = " " +:+ v +:+ CRLF +:+ u
  /\ str_drop (S n) src = v +:+ CRLF +:+ u
  /\ sdp_msg_line_end src = (S n + String.length v)%nat /\ none is_crlf (a +:+ fmt_d pt +:+ " " +:+ v) = true.
Proof.
  intros Hp Ha Hac Hv Hne src n.
  assert (Hb : none is_crlf (a +:+ fmt_d pt +:+ " " +:+ v) = true).
  { rewrite !none_app, Hac, Hv. by rewrite (proj2 (fmt_d_plain pt ltac:(lia))). }
  assert (E1 : src = a +:+ fmt_d pt +:+ " " +:+ v +:+ CRLF +:+ u) by (unfold src; by rewrite !app_assoc_str).
  assert (E2 : src = (a +:+ fmt_d pt) +:+ " " +:+ v +:+ CRLF +:+ u) by by rewrite E1, app_assoc_str.
  assert (E3 : src = (a +:+ fmt_d pt +:+ " ") +:+ v +:+ CRLF +:+ u) by (rewrite E1; by rewrite !app_assoc_str).
  split_and!.
  - rewrite E1, drop_app. by rewrite scan_u_fmt by (lia || done).
  - rewrite E2. apply strchr_app. rewrite none_app, Ha. apply fmt_d_plain. lia.
  - rewrite E2. apply drop_app.
  - rewrite E3. replace (S n) with (String.length (a +:+ fmt_d pt +:+ " ")); [apply drop_app|].
    unfold n. rewrite !str_length_app. cbn. lia.
  - unfold src. rewrite line_end_app by done. unfold n. rewrite !str_length_app. cbn. lia.
  - done.
Qed.

Lemma name_facts c : codec_ok c -> none (fun ch => Ascii.eqb ch "/") (subtype_name c) = true
  /\ none is_space (subtype_name c) = true.
Proof.
  intros (_ & _ & _ & _ & H & _). split; (eapply none_impl; [|exact H]); cbv beta; intros ch ->; [done|apply orb_true_r].
Qed.

Lemma parse_rtpmap_line c d k l u sdp : codec_ok c -> sdp_codecs sdp = d ++ k :: l ->
  pt_free (payload_type c) d -> payload_type k = payload_type c ->
  parse ("a=rtpmap:" +:+ fmt_d (payload_type c) +:+ " " +:+ subtype_name c +:+ "/" +:+ fmt_d (sc_rate c) +:+ CRLF +:+ u) sdp
  = parse u (sdp <| sdp_codecs := d ++ (k <| subtype_name := subtype_name c |> <| sc_rate := sc_rate c |>) :: l |>).
Proof.
  intros Hok Hs Hd Hk. destruct (name_facts c Hok) as [Hns Hsp]. destruct Hok as (Hp & Hr & Hne & Hlen & _ & _).
  set (v := subtype_name c +:+ "/" +:+ fmt_d (sc_rate c)).
  assert (Hv : none is_crlf v = true /\ v <> "").
  { unfold v. rewrite !none_app. rewrite (proj2 (fmt_d_plain (sc_rate c) ltac:(lia))).
    rewrite (none_impl is_space is_crlf _ crlf_space Hsp). split; [done|]. by destruct (subtype_name c). }
  destruct (attrib_number "rtpmap:" (payload_type c) v u Hp eq_refl eq_refl (proj1 Hv) (proj2 Hv))
    as (E1 & E2 & E3 & _ & E5 & E6).
  set (src := ("rtpmap:" +:+ fmt_d (payload_type c) +:+ " " +:+ v) +:+ CRLF +:+ u) in *.
  assert (Et : "a=rtpmap:" +:+ fmt_d (payload_type c) +:+ " " +:+ subtype_name c +:+ "/" +:+ fmt_d (sc_rate c) +:+ CRLF +:+ u
    = String "a" (String "=" src)) by (unfold src, v; by rewrite !app_assoc_str).
  rewrite Et. apply parse_step; [done|exact E6|].
  fold src. change (parse_line "a" src sdp) with (parse_rtpmap src sdp). unfold parse_rtpmap.
  change (str_drop 7 src) with (str_drop (String.length "rtpmap:") src). rewrite E1, E2, E5, E3.
  rewrite (proj2 (Nat.leb_gt _ _)) by lia. rewrite (with_codec_mid _ d k l) by done.
  unfold parse_rtpmap_codec. change (skip_spaces (" " +:+ ?x)) with (skip_spaces x). unfold v.
  rewrite !app_assoc_str. rewrite skip_spaces_id by done. change ("/" +:+ ?x) with (String "/" x).
  rewrite scan_until_slash_app by (done || unfold SUBTYPE_SIZE in Hlen; lia).
  destruct (subtype_name c) as [|x s] eqn:En; [done|]. rewrite (proj2 (Nat.leb_gt _ _)) by done.
  change (scan_lit "/" (String "/" ?y)) with (Some y). cbv iota. rewrite scan_u_fmt by (lia || done).
  change (scan_lit "/" (CRLF +:+ u)) with (@None string). cbv iota. change (1 =? 1) with true. cbv iota.
  f_equal. exact (set_mid sdp d k l (fun e => e <| subtype_name := String x s |> <| sc_rate := sc_rate c |>) Hs).
Qed.

Lemma parse_fmtp_line c d k l u sdp : codec_ok c -> fmtp c <> "" -> sdp_codecs sdp = d ++ k :: l ->
  pt_free (payload_type c) d -> payload_type k = payload_type c ->
  parse ("a=fmtp:" +:+ fmt_d (payload_type c) +:+ " " +:+ fmtp c +:+ CRLF +:+ u) sdp
  = parse u (sdp <| sdp_codecs := d ++ (k <| fmtp := fmtp c |>) :: l |>).
Proof.
  intros (Hp & _ & _ & _ & _ & Hl & Hv) Hne Hs Hd Hk.
  destruct (attrib_number "fmtp:" (payload_type c) (fmtp c) u Hp eq_refl eq_refl Hv Hne)
    as (E1 & E2 & _ & E4 & E5 & E6).
  set (src := ("fmtp:" +:+ fmt_d (payload_type c) +:+ " " +:+ fmtp c) +:+ CRLF +:+ u) in *.
  assert (Et : "a=fmtp:" +:+ fmt_d (payload_type c) +:+ " " +:+ fmtp c +:+ CRLF +:+ u
    = String "a" (String "=" src)) by (unfold src; by rewrite !app_assoc_str).
  rewrite Et. apply parse_step; [done|exact E6|].
  fold src. change (parse_line "a" src sdp) with (parse_fmtp src sdp). unfold parse_fmtp.
  change (str_drop 5 src) with (str_drop (String.length "fmtp:") src). rewrite E1, E2, E5, E4.
  set (n := String.length ("fmtp:" +:+ fmt_d (payload_type c))).
  replace (S n + String.length (fmtp c) - S n)%nat with (String.length (fmtp c)) by lia.
  assert (String.length (fmtp c) <> 0)%nat by (by destruct (fmtp c)).
  rewrite (proj2 (Nat.leb_gt (S n + _) _)) by lia. rewrite (with_codec_mid _ d k l) by done.
  rewrite (proj2 (Nat.leb_gt FMTP_SIZE _)) by done. rewrite substring_app.
  f_equal. exact (set_mid sdp d k l (fun e => e <| fmtp := fmtp c |>) Hs).
Qed.

(** both lines turn the entry of the media line into the codec *)
Lemma codec_lines_eq c : codec_ok c -> sdp_codec_lines c
  = "a=rtpmap:" +:+ fmt_d (payload_type c) +:+ " " +:+ subtype_name c +:+ "/" +:+ fmt_d (sc_rate c) +:+ CRLF
    +:+ (if str_nonempty (fmtp c) then "a=fmtp:" +:+ fmt_d (payload_type c) +:+ " " +:+ fmtp c +:+ CRLF else "").
Proof.
  intros (Hp & Hr & Hne & _). unfold sdp_codec_lines, sdp_audio_codec_is_set, str_nonempty, str_empty.
  rewrite (proj2 (String.eqb_neq _ _) Hne). cbn [negb]. rewrite (proj2 (Z.ltb_lt _ _)) by lia.
  by rewrite !s32_id by lia.
Qed.
Lemma parse_codec c d l u sdp : codec_ok c -> sdp_codecs sdp = d ++ init_codec c :: l ->
  pt_free (payload_type c) d ->
  parse (sdp_codec_lines c +:+ u) sdp = parse u (sdp <| sdp_codecs := d ++ c :: l |>).
Proof.
  intros Hok Hs Hd. rewrite codec_lines_eq by done. rewrite !app_assoc_str.
  rewrite (parse_rtpmap_line c d (init_codec c) l) by done.
  set (k := mk_codec (payload_type c) (subtype_name c) (sc_rate c) "").
  change (init_codec c <| subtype_name := subtype_name c |> <| sc_rate := sc_rate c |>) with k.
  unfold str_nonempty, str_empty. destruct (String.eqb_spec (fmtp c) "") as [Ef|Ef]; cbn [negb].
  - change ("" +:+ u) with u. assert (Ek : k = c) by exact (f_equal (mk_codec (payload_type c) (subtype_name c) (sc_rate c)) (eq_sym Ef)).
    by rewrite Ek.
  - rewrite !app_assoc_str. by rewrite (parse_fmtp_line c d k l) by done.
Qed.
Lemma parse_codecs l d u sdp : Forall codec_ok l -> sdp_codecs sdp = d ++ map init_codec l ->
  NoDup (map payload_type (d ++ l)) ->
  parse (String.concat "" (map sdp_codec_lines l) +:+ u) sdp = parse u (sdp <| sdp_codecs := d ++ l |>).
Proof.
  intros Hok. revert d sdp. induction Hok as [|c l Hc Hok IH]; intros d sdp Hs Hn.
  { change (String.concat "" [] +:+ u) with u. f_equal. symmetry.
    exact (f_equal (fun x => mk_sdp (sdp_rtp sdp) (sdp_ptime sdp) (sdp_mode sdp) x (sdp_bearer_services sdp)) (eq_sym Hs)). }
  cbn [map]. rewrite concat_cons, app_assoc_str. rewrite (parse_codec c d (map init_codec l)); [|done|done|].
  - rewrite (IH (d ++ [c])); [|cbn; by rewrite <- app_assoc|by rewrite <- app_assoc]. by rewrite <- app_assoc.
  - intros e He Heq. rewrite map_app in Hn. apply NoDup_app in Hn as (_ & Hn & _).
    apply (Hn (payload_type c)); [|by left]. rewrite <- Heq. by apply list_elem_of_fmap_2.
Qed.

(** ** The message *)

Lemma parse_ptime v u sdp : 1 <= v < 2 ^ 31 ->
  parse ("a=ptime:" +:+ fmt_d v +:+ CRLF +:+ u) sdp = parse u (sdp <| sdp_ptime := v |>).
Proof.
  intros Hv. assert (Et : "a=ptime:" +:+ fmt_d v +:+ CRLF +:+ u
    = String "a" (String "=" (("ptime:" +:+ fmt_d v) +:+ CRLF +:+ u))) by by rewrite app_assoc_str.
  rewrite Et. apply parse_step; [done| |].
  { rewrite none_app. by rewrite (proj2 (fmt_d_plain v ltac:(lia))). }
  rewrite app_assoc_str. change (parse_line "a" ("ptime:" +:+ ?x) sdp) with
    (match scan_u x with Some (v, _) => (SdpOk, sdp <| sdp_ptime := v |>) | None => (SdpEinval, sdp) end).
  by rewrite scan_u_fmt by (lia || done).
Qed.
Lemma parse_mode m sdp : m <> SDP_MODE_UNSET ->
  parse ("a=" +:+ sdp_mode_str m +:+ CRLF) sdp = (SdpOk, sdp <| sdp_mode := m |>).
Proof. by destruct m. Qed.

(** a message that the text carries as it is *)
Definition sdp_ok (sdp : sdp_msg) : Prop :=
  ip4_ok (sa_ip (sdp_rtp sdp)) /\ sa_af (sdp_rtp sdp) = AF_INET /\ 0 <= sa_port (sdp_rtp sdp) < 2 ^ 16
  /\ 1 <= sdp_ptime sdp < 2 ^ 31 /\ Forall codec_ok (sdp_codecs sdp)
  /\ NoDup (map payload_type (sdp_codecs sdp)) /\ sdp_codecs sdp <> []
  /\ (length (sdp_codecs sdp) <= MAX_CODECS)%nat /\ sdp_bearer_services sdp = [].

(** the lines before the connection line *)
Lemma parse_origin v ip rest sdp : none is_crlf v = true -> none is_space ip = true ->
  parse ("v=0" +:+ CRLF +:+ "o=OsmoMSC 0 0 IN IP" +:+ v +:+ " " +:+ ip +:+ CRLF +:+ "s=GSM Call" +:+ CRLF +:+ rest) sdp = parse rest sdp.
Proof.
  intros Hv Hsp. etransitivity; [exact (parse_skip "v" "0" _ _ eq_refl eq_refl eq_refl eq_refl eq_refl)|].
  set (rest1 := "s=GSM Call" +:+ _).
  assert (E : "o=OsmoMSC 0 0 IN IP" +:+ v +:+ " " +:+ ip +:+ CRLF +:+ rest1
    = String "o" (String "=" (("OsmoMSC 0 0 IN IP" +:+ v +:+ " " +:+ ip) +:+ CRLF +:+ rest1))) by by rewrite !app_assoc_str.
  rewrite E. rewrite parse_skip; try done.
  2: { rewrite !none_app, Hv. by rewrite (none_impl is_space is_crlf _ crlf_space Hsp). }
  exact (parse_skip "s" "GSM Call" _ _ eq_refl eq_refl eq_refl eq_refl eq_refl).
Qed.
(** the lines before the media line *)
Lemma parse_head ip rest sdp : ip4_ok ip ->
  parse ("v=0" +:+ CRLF +:+ "o=OsmoMSC 0 0 IN IP" +:+ "4" +:+ " " +:+ ip +:+ CRLF +:+ "s=GSM Call" +:+ CRLF
         +:+ "c=IN IP" +:+ "4" +:+ " " +:+ ip +:+ CRLF +:+ "t=0 0" +:+ CRLF +:+ rest) sdp
  = parse rest (sdp <| sdp_rtp := mk_sockaddr AF_INET ip (sa_port (sdp_rtp sdp)) |>).
Proof.
  intros Hip. pose proof Hip as (Hsp & _). rewrite parse_origin by done.
  etransitivity; [exact (parse_c ip _ sdp Hip)|].
  exact (parse_skip "t" "0 0" _ _ eq_refl eq_refl eq_refl eq_refl eq_refl).
Qed.
(** the lines after it *)
Lemma parse_tail sdp' v m : 1 <= v < 2 ^ 31 -> sdp_mode sdp' = SDP_MODE_UNSET ->
  parse ("a=ptime:" +:+ fmt_d v +:+ CRLF +:+ sdp_mode_line m) sdp'
  = (SdpOk, sdp' <| sdp_ptime := v |> <| sdp_mode := m |>).
Proof.
  intros Hv Hm. rewrite parse_ptime by done. destruct m; try (apply parse_mode; done).
  refine (f_equal (fun x => (SdpOk, mk_sdp (sdp_rtp sdp') v x (sdp_codecs sdp') (sdp_bearer_services sdp'))) _).
  exact Hm.
Qed.

Lemma sdp_roundtrip_exact sdp : sdp_ok sdp -> sdp_msg_from_sdp_str (sdp_text (Some sdp)) = (SdpOk, sdp).
Proof.
  intros (Hip & Haf & Hport & Hpt & Hc & Hn & Hne & Hl & Hbs). pose proof Hip as (_ & Hipne & _ & Hty & _).
  unfold sdp_text, str_nonempty, str_empty. rewrite (proj2 (String.eqb_neq _ _) Hipne). cbn [negb]. rewrite Hty.
  rewrite (proj2 (Z.ltb_lt _ _)) by lia. rewrite s32_id by lia.
  rewrite from_parse, parse_head by done.
  destruct (sdp_codecs sdp) as [|c l] eqn:Ec; [done|].
  fold (pts (c :: l)).
  rewrite parse_m; [|done| |done|done|done].
  2: { eapply Forall_impl; [exact Hc|]. intros x Hx. apply Hx. }
  rewrite (parse_codecs (c :: l) []); [|done|done|done]. rewrite parse_tail by done.
  f_equal. rewrite <- Ec.
  transitivity (mk_sdp (mk_sockaddr (sa_af (sdp_rtp sdp)) (sa_ip (sdp_rtp sdp)) (sa_port (sdp_rtp sdp)))
    (sdp_ptime sdp) (sdp_mode sdp) (sdp_codecs sdp) (sdp_bearer_services sdp)); [|done].
  by rewrite Haf, Hbs.
Qed.

(** *** Any message *)

(** what stands in the text for what a message leaves open: an address, a
    rate, a packet time; bearer services are not in the text *)
Definition written_ip (sdp : sdp_msg) : string := match sa_ip (sdp_rtp sdp) with "" => "0.0.0.0" | ip => ip end.
Definition written_codec (c : sdp_audio_codec) : sdp_audio_codec :=
  c <| sc_rate := if sc_rate c =? 0 then 8000 else sc_rate c |>.
Definition written (sdp : sdp_msg) : sdp_msg :=
  mk_sdp (mk_sockaddr AF_INET (written_ip sdp) (sa_port (sdp_rtp sdp))) (if sdp_ptime sdp =? 0 then 20 else sdp_ptime sdp)
    (sdp_mode sdp) (map written_codec (sdp_codecs sdp)) [].

(** a codec with a name and parameters that fit their buffers and one line,
    and numbers in the range of an int *)
Definition codec_fits (c : sdp_audio_codec) : Prop :=
  0 <= payload_type c < 2 ^ 31 /\ 0 <= sc_rate c < 2 ^ 31
  /\ subtype_name c <> "" /\ (String.length (subtype_name c) < SUBTYPE_SIZE)%nat
  /\ none (fun ch => Ascii.eqb ch "/" || is_space ch) (subtype_name c) = true
  /\ (String.length (fmtp c) < FMTP_SIZE)%nat /\ none is_crlf (fmtp c) = true.
Definition sdp_fits (sdp : sdp_msg) : Prop :=
  (ip4_ok (written_ip sdp) \/ ip6_ok (written_ip sdp)) /\ 0 <= sa_port (sdp_rtp sdp) < 2 ^ 16
  /\ 0 <= sdp_ptime sdp < 2 ^ 31 /\ Forall codec_fits (sdp_codecs sdp)
  /\ NoDup (map payload_type (sdp_codecs sdp)) /\ (length (sdp_codecs sdp) <= MAX_CODECS)%nat.

Lemma default_pos z d : 0 <= z -> (if 0 <? z then z else d) = (if z =? 0 then d else z).
Proof. intros H. destruct (Z.ltb_spec 0 z), (Z.eqb_spec z 0); lia. Qed.
Lemma codec_written c : codec_fits c -> codec_ok (written_codec c).
Proof.
  intros (H1 & H2 & H). split; [done|]. split; [|exact H].
  change (1 <= (if sc_rate c =? 0 then 8000 else sc_rate c) < 2 ^ 31). destruct (Z.eqb_spec (sc_rate c) 0); lia.
Qed.
Lemma codec_lines_written c : codec_fits c -> sdp_codec_lines (written_codec c) = sdp_codec_lines c.
Proof.
  intros (_ & H & _). destruct c as [pt name rate fm]. change (0 <= rate < 2 ^ 31) in H.
  change (sdp_codec_lines (mk_codec pt name (if rate =? 0 then 8000 else rate) fm) = sdp_codec_lines (mk_codec pt name rate fm)).
  destruct (Z.eqb_spec rate 0) as [->|]; done.
Qed.
Lemma text_written sdp : sdp_fits sdp -> sdp_text (Some (written sdp)) = sdp_text (Some sdp).
Proof.
  intros (_ & _ & Hpt & Hc & _). unfold sdp_text, written. cbn [sdp_rtp sa_ip sa_port sdp_codecs sdp_ptime sdp_mode].
  assert (E1 : (if str_nonempty (written_ip sdp) then written_ip sdp else "0.0.0.0")
             = (if str_nonempty (sa_ip (sdp_rtp sdp)) then sa_ip (sdp_rtp sdp) else "0.0.0.0"))
    by (unfold written_ip; by destruct (sa_ip (sdp_rtp sdp))).
  assert (E2 : map sdp_codec_lines (map written_codec (sdp_codecs sdp)) = map sdp_codec_lines (sdp_codecs sdp)).
  { rewrite map_map. apply map_ext_in. intros c Hin%list_elem_of_In. apply codec_lines_written. by eapply Forall_forall in Hc. }
  assert (E3 : (if 0 <? (if sdp_ptime sdp =? 0 then 20 else sdp_ptime sdp) then (if sdp_ptime sdp =? 0 then 20 else sdp_ptime sdp) else 20)
             = (if 0 <? sdp_ptime sdp then sdp_ptime sdp else 20)).
  { rewrite (default_pos (sdp_ptime sdp)) by lia. destruct (Z.eqb_spec (sdp_ptime sdp) 0); [done|].
    by rewrite (proj2 (Z.ltb_lt 0 _)) by lia. }
  cbv zeta. rewrite E1, E2, E3, map_map. done.
Qed.
Lemma pts_written l : map payload_type (map written_codec l) = map payload_type l.
Proof. rewrite map_map. done. Qed.

(** without codecs the media line is refused *)
Lemma no_codecs_refused sdp : ip4_ok (sa_ip (sdp_rtp sdp)) -> 0 <= sa_port (sdp_rtp sdp) < 2 ^ 16 ->
  1 <= sdp_ptime sdp < 2 ^ 31 -> sdp_codecs sdp = [] -> (sdp_msg_from_sdp_str (sdp_text (Some sdp))).1 = SdpEinval.
Proof.
  intros Hip Hport Hpt Hnil. pose proof Hip as (_ & Hipne & _ & Hty & _).
  unfold sdp_text, str_nonempty, str_empty. rewrite (proj2 (String.eqb_neq _ _) Hipne). cbn [negb]. rewrite Hty.
  rewrite (proj2 (Z.ltb_lt _ _)) by lia. rewrite s32_id by lia.
  rewrite from_parse, parse_head, Hnil by done. cbn [map String.concat].
  change ("" +:+ ?x) with x. rewrite parse_m_none; [done|done|].
  rewrite !none_app, (proj1 (fmt_d_plain (sdp_ptime sdp) ltac:(lia))). by destruct (sdp_mode sdp).
Qed.
Lemma ip6_refused sdp : ip6_ok (sa_ip (sdp_rtp sdp)) -> sdp_msg_from_sdp_str (sdp_text (Some sdp)) = (SdpEnotsup, no_sdp).
Proof.
  intros Hip. pose proof Hip as (Hsp & Hipne & _ & Hty).
  unfold sdp_text, str_nonempty, str_empty. rewrite (proj2 (String.eqb_neq _ _) Hipne). cbn [negb]. rewrite Hty.
  rewrite from_parse, parse_origin by done. exact (parse_c6 (sa_ip (sdp_rtp sdp)) _ no_sdp Hip).
Qed.
Lemma strlcpy_short size s : (String.length s < size)%nat -> strlcpy size s = s.
Proof.
  unfold strlcpy. intros H. assert (Hn : (String.length s <= size - 1)%nat) by lia. clear H. revert Hn. generalize (size - 1)%nat.
  induction s as [|c s IH]; intros [|n] Hn; cbn in *; try done; [lia|]. rewrite IH by lia. done.
Qed.

(** C19: What the parser makes of the text that is composed of a message, if it
    fits into the buffer: an address of IPv6 is refused as not supported, a
    message without codecs as invalid; every other message reads back with its
    mode, its port and its codecs in order, with their payload types, names and
    parameters; and with its address, packet time and rates, where 0.0.0.0, 20
    and 8000 stand for those that are not set (the packet time of the messages
    that the MSC composes is not). Bearer services are not in the text. The
    payload types are different, the codecs have names, names and
    parameters fit into their buffers and have no line ends, and an address is
    one that libosmocore takes. *)
Theorem sdp_roundtrip size sdp :
  sdp_fits sdp -> (String.length (sdp_text (Some sdp)) < size)%nat ->
  let '(text, _) := sdp_msg_to_sdp_str_buf size (Some sdp) in
  let '(rc, sdp') := sdp_msg_from_sdp_str text in
  rc = match osmo_ip_str_type (written_ip sdp), sdp_codecs sdp with
       | AF_INET6, _ => SdpEnotsup
       | _, [] => SdpEinval
       | _, _ => SdpOk
       end
  /\ (rc = SdpOk -> sdp' = written sdp).
Proof.
  intros Hf Hs. unfold sdp_msg_to_sdp_str_buf. rewrite strlcpy_short, <- text_written by done.
  destruct Hf as (Hip & Hport & Hpt & Hc & Hn & Hl). destruct Hip as [Hip|Hip].
  - pose proof Hip as (_ & _ & _ & -> & _). destruct (sdp_codecs sdp) as [|c l] eqn:Ec.
    + pose proof (no_codecs_refused (written sdp)) as H. destruct (sdp_msg_from_sdp_str _) as [rc sdp'].
      cbn [fst] in H. rewrite H; [done|done|done| |unfold written; cbn [sdp_codecs]; by rewrite Ec].
      unfold written; cbn [sdp_ptime]. destruct (Z.eqb_spec (sdp_ptime sdp) 0); lia.
    + rewrite sdp_roundtrip_exact; [done|]. unfold sdp_ok, written. cbn [sdp_rtp sa_ip sa_af sa_port sdp_codecs sdp_ptime sdp_bearer_services].
      rewrite pts_written, length_map, Ec. split_and!; try done; try lia.
      * destruct (Z.eqb_spec (sdp_ptime sdp) 0); lia.
      * destruct (Z.eqb_spec (sdp_ptime sdp) 0); lia.
      * apply Forall_map. eapply Forall_impl; [exact Hc|]. apply codec_written.
  - pose proof Hip as (_ & _ & _ & ->). rewrite ip6_refused by done. by destruct (sdp_codecs sdp).
Qed.

(** ** Where the parser overruns a buffer *)

(** C29: The parser trusts the length of what the other side sends: media
    parameters of 256 characters or more are copied beyond the end of their
    buffer. *)
Theorem long_fmtp_overflows pt v u sdp : 0 <= pt < 2 ^ 31 -> none is_crlf v = true ->
  (FMTP_SIZE <= String.length v)%nat -> (length (sdp_codecs sdp) < MAX_CODECS)%nat ->
  (sdp_parse_attrib (("fmtp:" +:+ fmt_d pt +:+ " " +:+ v) +:+ CRLF +:+ u) sdp).1 = SdpOverflow.
Proof.
  intros Hp Hv Hl Hm. assert (Hne : v <> "") by (intros ->; unfold FMTP_SIZE in Hl; cbn in Hl; lia).
  destruct (attrib_number "fmtp:" pt v u Hp eq_refl eq_refl Hv Hne) as (E1 & E2 & _ & E4 & E5 & _).
  set (src := ("fmtp:" +:+ fmt_d pt +:+ " " +:+ v) +:+ CRLF +:+ u) in *.
  change (sdp_parse_attrib src sdp) with (parse_fmtp src sdp). unfold parse_fmtp.
  change (str_drop 5 src) with (str_drop (String.length "fmtp:") src). rewrite E1, E2, E5, E4.
  set (n := String.length ("fmtp:" +:+ fmt_d pt)).
  assert (String.length v <> 0)%nat by (by destruct v).
  rewrite (proj2 (Nat.leb_gt (S n + _) _)) by lia.
  replace (S n + String.length v - S n)%nat with (String.length v) by lia.
  rewrite (proj2 (Nat.leb_le FMTP_SIZE _)) by done. unfold with_codec.
  destruct (sdp_audio_codecs_by_payload_type _ _ _) as [[i|] ac] eqn:E; [done|]. exfalso.
  unfold sdp_audio_codecs_by_payload_type in E. destruct (find_index _ _); [done|]. cbn [negb] in E.
  by rewrite (proj2 (Nat.leb_gt _ _)) in E by done.
Qed.
End lines.

#[local] Instance sample_sockaddr : SockaddrLib := {
  osmo_ip_str_type _ := AF_INET;
  osmo_sockaddr_str_from_str ip port := mk_sockaddr AF_INET ip port
}.
(** as the MSC composes it: no packet time *)
Definition sample_sdp : sdp_msg :=
  mk_sdp (mk_sockaddr AF_INET "10.23.42.1" 4002) 0 SDP_MODE_SENDRECV
    [mk_codec 112 "AMR" 8000 "octet-align=1"; mk_codec 3 "GSM" 0 ""; mk_codec 96 "VND.3GPP.IUFP" 16000 ""] [].
Lemma sdp_roundtrip_witness :
  sdp_fits sample_sdp /\
  sdp_msg_from_sdp_str (fst (sdp_msg_to_sdp_str_buf 1024 (Some sample_sdp))) = (SdpOk, written sample_sdp).
Proof.
  assert (Hf : sdp_fits sample_sdp).
  { split_and!; [left|..]; try done; try lia; try (cbn; unfold MAX_CODECS, INET6_ADDRSTRLEN; lia).
    - unfold ip4_ok. split_and!; try done. cbn. unfold INET6_ADDRSTRLEN. lia.
    - repeat constructor; cbn; unfold SUBTYPE_SIZE, FMTP_SIZE; (lia || done).
    - cbn. repeat (apply NoDup_cons; split; [rewrite ?elem_of_cons, elem_of_nil; lia|]). apply NoDup_nil_2. }
  split; [exact Hf|]. pose proof (sdp_roundtrip 1024 sample_sdp Hf) as H. unfold sdp_msg_to_sdp_str_buf in *. cbn [fst].
  destruct (sdp_msg_from_sdp_str _) as [rc sdp']. destruct H as [Hrc Hm]; [apply Nat.ltb_lt; vm_compute; reflexivity|].
  cbn in Hrc. subst rc. by rewrite Hm.
Defined.
Definition sample_fmtp : string := repeat_chr 256 "x"%char.
Lemma long_fmtp_overflows_witness :
  (sdp_parse_attrib (("fmtp:" +:+ fmt_d 112 +:+ " " +:+ sample_fmtp) +:+ CRLF +:+ "") no_sdp).1 = SdpOverflow.
Proof.
  apply long_fmtp_overflows; [lia|reflexivity| |].
  - vm_compute. lia.
  - cbn. unfold MAX_CODECS. lia.
Defined.
