(* ===== verification/Mncc.v ===== *)
(** * MNCC messages (include/osmocom/msc/mncc.h)

    The message types and fields of the interface between call control and
    the external call router. *)

From S2P Require Import Prelude VlrTypes Codecs.

(** ** Message types *)

(** a code without a name of its own is [MNCC_OTHER] *)
Inductive mncc_msg : Type :=
| MNCC_SETUP_REQ | MNCC_SETUP_IND | MNCC_SETUP_RSP | MNCC_SETUP_CNF | MNCC_SETUP_COMPL_REQ
| MNCC_SETUP_COMPL_IND | MNCC_CALL_CONF_IND | MNCC_CALL_PROC_REQ | MNCC_PROGRESS_REQ
| MNCC_ALERT_REQ | MNCC_ALERT_IND | MNCC_NOTIFY_REQ | MNCC_NOTIFY_IND | MNCC_DISC_REQ
| MNCC_DISC_IND | MNCC_REL_REQ | MNCC_REL_IND | MNCC_REL_CNF | MNCC_FACILITY_REQ
| MNCC_FACILITY_IND | MNCC_START_DTMF_IND | MNCC_START_DTMF_RSP | MNCC_START_DTMF_REJ
| MNCC_STOP_DTMF_IND | MNCC_STOP_DTMF_RSP | MNCC_MODIFY_REQ | MNCC_MODIFY_IND
| MNCC_MODIFY_RSP | MNCC_MODIFY_CNF | MNCC_MODIFY_REJ | MNCC_HOLD_IND | MNCC_HOLD_CNF
| MNCC_HOLD_REJ | MNCC_RETRIEVE_IND | MNCC_RETRIEVE_CNF | MNCC_RETRIEVE_REJ
| MNCC_USERINFO_REQ | MNCC_USERINFO_IND | MNCC_REJ_REQ | MNCC_REJ_IND | MNCC_BRIDGE
| MNCC_FRAME_RECV | MNCC_FRAME_DROP | MNCC_LCHAN_MODIFY | MNCC_RTP_CREATE | MNCC_RTP_CONNECT
| MNCC_RTP_FREE
| MNCC_OTHER (code : Z).
#[export] Instance mncc_msg_eq_dec : EqDecision mncc_msg.
Proof. solve_decision. Defined.

Definition mncc_code (m : mncc_msg) : Z :=
  match m with
  | MNCC_SETUP_REQ => 0x0101
  | MNCC_SETUP_IND => 0x0102
  | MNCC_SETUP_RSP => 0x0103
  | MNCC_SETUP_CNF => 0x0104
  | MNCC_SETUP_COMPL_REQ => 0x0105
  | MNCC_SETUP_COMPL_IND => 0x0106
  | MNCC_CALL_CONF_IND => 0x0107
  | MNCC_CALL_PROC_REQ => 0x0108
  | MNCC_PROGRESS_REQ => 0x0109
  | MNCC_ALERT_REQ => 0x010a
  | MNCC_ALERT_IND => 0x010b
  | MNCC_NOTIFY_REQ => 0x010c
  | MNCC_NOTIFY_IND => 0x010d
  | MNCC_DISC_REQ => 0x010e
  | MNCC_DISC_IND => 0x010f
  | MNCC_REL_REQ => 0x0110
  | MNCC_REL_IND => 0x0111
  | MNCC_REL_CNF => 0x0112
  | MNCC_FACILITY_REQ => 0x0113
  | MNCC_FACILITY_IND => 0x0114
  | MNCC_START_DTMF_IND => 0x0115
  | MNCC_START_DTMF_RSP => 0x0116
  | MNCC_START_DTMF_REJ => 0x0117
  | MNCC_STOP_DTMF_IND => 0x0118
  | MNCC_STOP_DTMF_RSP => 0x0119
  | MNCC_MODIFY_REQ => 0x011a
  | MNCC_MODIFY_IND => 0x011b
  | MNCC_MODIFY_RSP => 0x011c
  | MNCC_MODIFY_CNF => 0x011d
  | MNCC_MODIFY_REJ => 0x011e
  | MNCC_HOLD_IND => 0x011f
  | MNCC_HOLD_CNF => 0x0120
  | MNCC_HOLD_REJ => 0x0121
  | MNCC_RETRIEVE_IND => 0x0122
  | MNCC_RETRIEVE_CNF => 0x0123
  | MNCC_RETRIEVE_REJ => 0x0124
  | MNCC_USERINFO_REQ => 0x0125
  | MNCC_USERINFO_IND => 0x0126
  | MNCC_REJ_REQ => 0x0127
  | MNCC_REJ_IND => 0x0128
  | MNCC_BRIDGE => 0x0200
  | MNCC_FRAME_RECV => 0x0201
  | MNCC_FRAME_DROP => 0x0202
  | MNCC_LCHAN_MODIFY => 0x0203
  | MNCC_RTP_CREATE => 0x0204
  | MNCC_RTP_CONNECT => 0x0205
  | MNCC_RTP_FREE => 0x0206
  | MNCC_OTHER code => code
  end.

(** ** Which fields are present *)
Inductive mncc_field : Type :=
| MNCC_F_BEARER_CAP | MNCC_F_CALLED | MNCC_F_CALLING | MNCC_F_REDIRECTING | MNCC_F_CONNECTED
| MNCC_F_CAUSE | MNCC_F_USERUSER | MNCC_F_PROGRESS | MNCC_F_EMERGENCY | MNCC_F_FACILITY
| MNCC_F_SSVERSION | MNCC_F_CCCAP | MNCC_F_KEYPAD | MNCC_F_SIGNAL | MNCC_F_GCR
| MNCC_F_HIGHL_COMPAT | MNCC_F_LOWL_COMPAT.
Definition field_bit (f : mncc_field) : Z :=
  match f with
  | MNCC_F_BEARER_CAP => 0x0001
  | MNCC_F_CALLED => 0x0002
  | MNCC_F_CALLING => 0x0004
  | MNCC_F_REDIRECTING => 0x0008
  | MNCC_F_CONNECTED => 0x0010
  | MNCC_F_CAUSE => 0x0020
  | MNCC_F_USERUSER => 0x0040
  | MNCC_F_PROGRESS => 0x0080
  | MNCC_F_EMERGENCY => 0x0100
  | MNCC_F_FACILITY => 0x0200
  | MNCC_F_SSVERSION => 0x0400
  | MNCC_F_CCCAP => 0x0800
  | MNCC_F_KEYPAD => 0x1000
  | MNCC_F_SIGNAL => 0x2000
  | MNCC_F_GCR => 0x4000
  | MNCC_F_HIGHL_COMPAT => 0x8000
  | MNCC_F_LOWL_COMPAT => 0x10000
  end.
Definition has_field (fields : Z) (f : mncc_field) : bool := negb (Z.land fields (field_bit f) =? 0).

(** ** Information elements *)

(** struct gsm_mncc_number of libosmocore *)
#[projections(primitive)]
Record gsm_mncc_number : Type := mk_number {
  n_type : Z; n_plan : Z; n_present : Z; n_screen : Z; n_number : string
}.
Definition no_number : gsm_mncc_number := mk_number 0 0 0 0 "".

(** struct gsm_mncc_cause of libosmocore *)
#[projections(primitive)]
Record gsm_mncc_cause : Type := mk_cause { c_location : Z; c_coding : Z; c_value : Z; c_diag : list Z }.
Definition no_cause : gsm_mncc_cause := mk_cause 0 0 0 [].

(** struct gsm_mncc; the elements that are only passed on, [gsm_mncc_progress]
    and the like of libosmocore, are their octets *)
#[projections(primitive)]
Record gsm_mncc : Type := mk_mncc {
  m_msg_type : mncc_msg; m_callref : Z; m_fields : Z;
  m_bearer_cap : gsm_mncc_bearer_cap;
  m_called : gsm_mncc_number; m_calling : gsm_mncc_number;
  m_redirecting : gsm_mncc_number; m_connected : gsm_mncc_number;
  m_cause : gsm_mncc_cause; m_progress : list Z; m_useruser : list Z; m_facility : list Z;
  m_cccap : list Z; m_ssversion : list Z; m_clir_sup : Z; m_clir_inv : Z; m_signal : Z;
  m_keypad : Z; m_more : Z; m_notify : Z; m_emergency : Z; m_imsi : string;
  m_gcr : list Z; m_sdp : string; m_llc : list Z; m_hlc : list Z
}.
(** all octets 0: a [speech_ver] list that starts with FR, which nobody reads
    unless [MNCC_F_BEARER_CAP] is set *)
Definition empty_mncc : gsm_mncc :=
  mk_mncc (MNCC_OTHER 0) 0 0 bearer_cap_empty no_number no_number no_number no_number no_cause
    [] [] [] [] [] 0 0 0 0 0 0 0 "" [] "" [] [].

(** struct gsm_mncc_rtp; [rtp_addr] is the octets of the [sockaddr_storage] *)
#[projections(primitive)]
Record gsm_mncc_rtp : Type := mk_mncc_rtp {
  rtp_msg_type : mncc_msg; rtp_callref : Z; rtp_addr : list Z; rtp_payload_type : Z;
  rtp_payload_msg_type : mncc_payload; rtp_sdp : string
}.

(** union mncc_msg *)
Inductive mncc_prim : Type :=
| MnccSignal (m : gsm_mncc)
| MnccBridge (callref0 callref1 : Z)
| MnccRtp (m : gsm_mncc_rtp).

(** *fields |= f* *)
Definition add_field (f : mncc_field) (m : gsm_mncc) : gsm_mncc :=
  m <| m_fields ::= Z.lor (field_bit f) |>.
Definition mncc_has (m : gsm_mncc) (f : mncc_field) : bool := has_field (m_fields m) f.

(** ** Causes, TS 24.008 10.5.4.11 *)
Definition GSM48_CAUSE_CODING_GSM : Z := 3.
Definition GSM48_CAUSE_LOC_USER : Z := 0.
Definition GSM48_CAUSE_LOC_PRN_S_LU : Z := 1.
Definition GSM48_CAUSE_LOC_INN_NET : Z := 7.
Definition GSM48_CC_CAUSE_CHAN_UNACCEPT : Z := 6.
Definition GSM48_CC_CAUSE_NORM_CALL_CLEAR : Z := 16.
Definition GSM48_CC_CAUSE_USER_BUSY : Z := 17.
Definition GSM48_CC_CAUSE_USER_NOTRESPOND : Z := 18.
Definition GSM48_CC_CAUSE_DEST_OOO : Z := 27.
Definition GSM48_CC_CAUSE_INV_NR_FORMAT : Z := 28.
Definition GSM48_CC_CAUSE_NORMAL_UNSPEC : Z := 31.
Definition GSM48_CC_CAUSE_RESOURCE_UNAVAIL : Z := 47.
Definition GSM48_CC_CAUSE_INVAL_TRANS_ID : Z := 81.
Definition GSM48_CC_CAUSE_INCOMPAT_DEST : Z := 88.
Definition GSM48_CC_CAUSE_RECOVERY_TIMER : Z := 102.

Definition mncc_set_cause (m : gsm_mncc) (loc val : Z) : gsm_mncc :=
  add_field MNCC_F_CAUSE m <| m_cause := mk_cause loc GSM48_CAUSE_CODING_GSM val (c_diag (m_cause m)) |>.
