(* ===== verification/MscCdr.v ===== *)
(** * Charging tickets (src/libmsc/msc_cdr.c)

    One CSV line per call, short message, supplementary service or location
    updating, the file it goes to, and its rotation. *)

From S2P Require Import Prelude CLib VlrTypes Codecs Mncc.
From Stdlib Require Import Ascii.

Definition CDR_LINE_MAX : nat := 4096.

Definition CFT_NORMAL_RELEASE : Z := 0.
Definition CFT_PARTIAL_RECORD : Z := 1.
Definition CFT_UNSUCCESSFUL_ATTEMPT : Z := 3.
Definition CFT_ABNORMAL_TERMINATION : Z := 4.

Definition MSC_CDR_MOC : Z := 0.
Definition MSC_CDR_MTC : Z := 1.
Definition MSC_CDR_MOSMS : Z := 6.
Definition MSC_CDR_MTSMS : Z := 7.
Definition MSC_CDR_SS : Z := 10.
Definition MSC_CDR_LU : Z := 13.

Inductive msc_cdr_rotate : Type :=
| MSC_CDR_ROTATE_NONE | MSC_CDR_ROTATE_5MIN | MSC_CDR_ROTATE_HOURLY | MSC_CDR_ROTATE_DAILY.

(** GSM 04.08 call control causes, TS 24.008 10.5.4.11 *)

(** the names of the columns *)
Definition cdr_columns : list string :=
  ["record_type"; "record_number"; "sequence_number"; "partial";
   "recording_entity"; "msc_address";
   "served_imsi"; "served_imei"; "served_imeisv"; "served_msisdn";
   "calling_number"; "called_number"; "translated_number"; "connected_number";
   "destination_number"; "origination"; "service_centre";
   "seizure_time"; "setup_time"; "alerting_time"; "answer_time"; "release_time";
   "origination_time"; "delivery_time";
   "call_duration"; "ringing"; "cause_for_term"; "diagnostics";
   "call_reference"; "network_call_reference";
   "mcc"; "mnc"; "lac"; "ci"; "global_area_id"; "first_mccmnc"; "last_mccmnc";
   "ran"; "system_type"; "incoming_route"; "outgoing_route";
   "bsc_pc"; "cipher"; "ms_classmark"; "hlr"; "mme"; "emergency"; "bearer"; "codec"; "result";
   "sms_dcs"; "sms_pid"; "sms_rp_mr"; "sms_text_len"].
Definition cdr_header : string := String.concat "," cdr_columns +:+ String NL "".

(** ** The subscriber and the connection, as far as a ticket shows them *)

#[projections(primitive)]
Record osmo_plmn_id : Type := mk_plmn { p_mcc : Z; p_mnc : Z; p_mnc_3_digits : bool }.

#[projections(primitive)]
Record cdr_vsub : Type := mk_cdr_vsub {
  cv_imsi : string; cv_imei : string; cv_imeisv : string; cv_msisdn : string;
  cv_cgi_plmn : osmo_plmn_id; cv_cgi_lac : Z; cv_cgi_ci : Z;
  cv_last_eutran_plmn : option osmo_plmn_id;
  cv_sgs_plmn : osmo_plmn_id; cv_sgs_lac : Z; cv_mme_name : string;
  cv_classmark2 : list Z; cv_hlr : list Z; cv_ran : osmo_rat_type
}.

(** struct msc_a: its RAN, the point code of the BSC, the ciphering algorithm *)
#[projections(primitive)]
Record cdr_msc_a : Type := mk_cdr_msc_a {
  ca_ran : option osmo_rat_type; ca_bsc_pc : option Z; ca_alg_id : Z
}.

(** trans->cdr and what else of a transaction a ticket shows *)
#[projections(primitive)]
Record cdr_trans : Type := mk_cdr_trans {
  ct_vsub : option cdr_vsub; ct_msc_a : option cdr_msc_a; ct_callref : Z;
  ct_is_cc : bool; ct_codec : option string; ct_transfer : Z; ct_live : bool;
  ct_sm_rp_mr : Z;
  ct_written : bool; ct_setup_seen : bool;
  ct_t_setup : Z; ct_t_answer : Z; ct_t_alert : Z;
  ct_setup_msg_type : mncc_msg; ct_sequence_number : Z;
  ct_calling : string; ct_called : string; ct_connected : string; ct_redirecting : string;
  ct_calling_type : Z; ct_calling_plan : Z; ct_calling_present : Z; ct_calling_screen : Z;
  ct_called_type : Z; ct_called_plan : Z;
  ct_emergency : Z; ct_clir_sup : Z; ct_clir_inv : Z;
  ct_cause_present : bool; ct_cause : Z; ct_cause_loc : Z; ct_cause_coding : Z;
  ct_interval_timer : option Z
}.

(** struct gsm_sms *)
#[projections(primitive)]
Record cdr_sms : Type := mk_cdr_sms {
  cs_source_ms : bool; cs_src_addr : string; cs_dst_addr : string; cs_created : Z;
  cs_dcs : Z; cs_pid : Z; cs_user_data_len : Z
}.

(** libosmocore: the name of a RAN, a hex dump into a buffer of a size, the
    PLMN of an MME name *)
Class CdrLib : Type := {
  osmo_rat_type_name : osmo_rat_type -> string;
  osmo_hexdump_buf : nat -> list Z -> string;
  osmo_parse_mme_domain : string -> option osmo_plmn_id
}.

(** ** Files

    [fs_names]: the directory, [fs_data]: the contents by inode; inodes below
    [fs_next] are used. *)
#[projections(primitive)]
Record filesys : Type := mk_fs {
  fs_names : gmap string nat; fs_data : gmap nat (list ascii); fs_next : nat
}.

(** rename(old, new); a file that has the name [new] already is replaced, and
    its contents are gone *)
Definition fs_rename (old new : string) (f : filesys) : filesys :=
  let move i (f : filesys) := f <| fs_names ::= fun m => <[new := i]> (delete old m) |> in
  match fs_names f !! old, fs_names f !! new with
  | None, _ => f
  | Some i, None => move i f
  | Some i, Some j => if Nat.eqb i j then f else move i (f <| fs_data ::= delete j |>)
  end.

(** fopen(name, "a") *)
Definition fs_open_append (nm : string) (f : filesys) : nat * filesys :=
  match fs_names f !! nm with
  | Some i => (i, f)
  | None =>
      let i := fs_next f in
      (i, mk_fs (<[nm := i]> (fs_names f)) (<[i := []]> (fs_data f)) (S i))
  end.

Definition fs_size (i : nat) (f : filesys) : nat := length (default [] (fs_data f !! i)).
Definition fs_append (i : nat) (s : string) (f : filesys) : filesys :=
  f <| fs_data ::= fun m => <[i := default [] (m !! i) ++ chars s]> m |>.

(** net->cdr with the files; [rotate_timer] is the time it was scheduled for *)
#[projections(primitive)]
Record cdr_net : Type := mk_cdr_net {
  filename : option string; trap : bool; have_ctrl : bool;
  cfg_recording_entity : option string; msc_ipa_name : option string;
  interval : Z; rotate : msc_cdr_rotate; rotate_timer : option Z;
  next_record_number : Z; rotate_anchor : Z; fh : option nat;
  files : filesys; traps : list string
}.

(** what the system calls answer: time(NULL), and whether opening, flushing
    and renaming succeed; [io_partial]: how many characters reach the file when
    flushing fails *)
#[projections(primitive)]
Record cdr_io : Type := mk_io {
  io_now : Z; io_open : bool; io_flush : bool; io_partial : nat; io_rename : bool
}.

(** ** Formatting *)
Section format.
Context {CL : CdrLib}.

Definition cdr_enabled (net : cdr_net) : bool :=
  match filename net with Some _ => true | None => trap net end.

Definition fmt_time (t : Z) : string :=
  if t =? 0 then ""
  else
    let tm := gmtime t in
    strlcpy 32 (fmt_0d 4 (tm_year tm + 1900) +:+ fmt_0d 2 (tm_mon tm + 1) +:+ fmt_0d 2 (tm_mday tm)
                +:+ fmt_0d 2 (tm_hour tm) +:+ fmt_0d 2 (tm_min tm) +:+ fmt_0d 2 (tm_sec tm)).

Definition itcap_name (transfer : Z) : string :=
  if transfer =? GSM48_BCAP_ITCAP_SPEECH then "speech"
  else if transfer =? GSM48_BCAP_ITCAP_UNR_DIG_INF then "udi"
  else if transfer =? GSM48_BCAP_ITCAP_3k1_AUDIO then "3.1khz"
  else if transfer =? GSM48_BCAP_ITCAP_FAX_G3 then "fax"
  else "".

(** [o->f], NULL if [o] is *)
Definition ptr_get {A B : Type} (o : option A) (f : A -> option B) : option B :=
  match o with Some a => f a | None => None end.

Definition nonempty (s : option string) : option string :=
  match s with Some "" => None | _ => s end.

Definition recording_entity (net : cdr_net) : string :=
  match nonempty (cfg_recording_entity net) with
  | Some s => s
  | None => match nonempty (msc_ipa_name net) with Some s => s | None => "OsmoMSC" end
  end.

Definition ctx_ran (trans : option cdr_trans) (msc_a : option cdr_msc_a) (vsub : option cdr_vsub)
  : osmo_rat_type :=
  match ptr_get (ptr_get trans ct_msc_a) ca_ran with
  | Some r => r
  | None =>
      match ptr_get msc_a ca_ran with
      | Some r => r
      | None => match vsub with Some v => cv_ran v | None => OSMO_RAT_UNKNOWN end
      end
  end.

Definition system_type_str (ran : osmo_rat_type) : string :=
  match ran with OSMO_RAT_GERAN_A => "2" | OSMO_RAT_UTRAN_IU => "1" | _ => "0" end.

Definition incoming_route (ran : osmo_rat_type) : string :=
  match ran with
  | OSMO_RAT_GERAN_A => "GERAN" | OSMO_RAT_UTRAN_IU => "UTRAN" | OSMO_RAT_EUTRAN_SGS => "SGS"
  | OSMO_RAT_UNKNOWN => ""
  end.

Definition trans_codec_name (t : cdr_trans) : string :=
  if ct_is_cc t then default "" (ct_codec t) else "".

Definition cause_for_term (answered partial cause_present : bool) (cause : Z) : Z :=
  if partial then CFT_PARTIAL_RECORD
  else if negb answered then CFT_UNSUCCESSFUL_ATTEMPT
  else if negb cause_present then CFT_NORMAL_RELEASE
  else if (cause =? GSM48_CC_CAUSE_NORM_CALL_CLEAR) || (cause =? GSM48_CC_CAUSE_NORMAL_UNSPEC)
       then CFT_NORMAL_RELEASE
  else CFT_ABNORMAL_TERMINATION.

Definition fill_classmark (v : option cdr_vsub) : string :=
  match v with
  | Some v => match cv_classmark2 v with [] => "" | l => osmo_hexdump_buf 80 l end
  | None => ""
  end.
Definition fill_hlr (v : option cdr_vsub) : string :=
  match v with
  | Some v => match cv_hlr v with [] => "" | l => osmo_hexdump_buf 80 l end
  | None => ""
  end.

Definition cdr_a (trans : option cdr_trans) (msc_a : option cdr_msc_a) : option cdr_msc_a :=
  match msc_a with Some a => Some a | None => ptr_get trans ct_msc_a end.

Definition fill_bsc_pc (trans : option cdr_trans) (msc_a : option cdr_msc_a) : string :=
  match ptr_get (cdr_a trans msc_a) ca_bsc_pc with
  | Some pc => strlcpy 16 (fmt_d pc)
  | None => ""
  end.
Definition fill_cipher (trans : option cdr_trans) (msc_a : option cdr_msc_a) : string :=
  match cdr_a trans msc_a with
  | Some a => if ca_alg_id a =? 0 then "" else strlcpy 8 (fmt_d (ca_alg_id a))
  | None => ""
  end.

(** ** Location *)

Definition plmn_has_mcc (p : osmo_plmn_id) : bool := negb (p_mcc p =? 0).

Definition fmt_mcc (p : osmo_plmn_id) : string := strlcpy 8 (fmt_0d 3 (p_mcc p)).
Definition fmt_mnc (p : osmo_plmn_id) : string :=
  strlcpy 8 (fmt_0d (if p_mnc_3_digits p then 3 else 2) (p_mnc p)).

Definition plmn_from_mme (mme : string) : option osmo_plmn_id :=
  if str_empty mme then None
  else match osmo_parse_mme_domain mme with
       | Some p => if plmn_has_mcc p then Some p else None
       | None => None
       end.

(** the first [n] digits of a string *)
Fixpoint first_digits (n : nat) (s : string) : list Z :=
  match n, s with
  | S m, String c s' =>
      if is_digit c then (chr_code c - 48) :: first_digits m s' else first_digits n s'
  | _, _ => []
  end.

(** Last resort: IMSI MCC (3) + MNC (2).  [plmn] is left as it is when there
    are less than five digits. *)
Definition plmn_from_imsi (i : string) (plmn : osmo_plmn_id) : osmo_plmn_id :=
  match first_digits 5 i with
  | [a; b; c; d; e] => mk_plmn (a * 100 + b * 10 + c) (d * 10 + e) false
  | _ => plmn
  end.

Definition no_plmn : osmo_plmn_id := mk_plmn 0 0 false.

Definition location_plmn (v : cdr_vsub) : osmo_plmn_id :=
  let eutran := match cv_last_eutran_plmn v with
                | Some p => if plmn_has_mcc p then Some p else None
                | None => None
                end in
  if plmn_has_mcc (cv_cgi_plmn v) then cv_cgi_plmn v
  else match eutran with
       | Some p => p
       | None =>
           if plmn_has_mcc (cv_sgs_plmn v) then cv_sgs_plmn v
           else match plmn_from_mme (cv_mme_name v) with
                | Some p => p
                | None => plmn_from_imsi (cv_imsi v) no_plmn
                end
       end.

(** mcc, mnc, lac, ci, gai and mccmnc *)
#[projections(primitive)]
Record location : Type := mk_location {
  l_mcc : string; l_mnc : string; l_lac : string; l_ci : string; l_gai : string; l_mccmnc : string
}.

Definition fill_location (vsub : option cdr_vsub) : location :=
  match vsub with
  | None => mk_location "" "" "" "" "" ""
  | Some v =>
      let plmn := location_plmn v in
      let lac_i := if negb (cv_cgi_lac v =? 0) then cv_cgi_lac v else cv_sgs_lac v in
      let ci_i := cv_cgi_ci v in
      let mcc := if plmn_has_mcc plmn then fmt_mcc plmn else "" in
      let mnc := if plmn_has_mcc plmn then fmt_mnc plmn else "" in
      let lac := if lac_i =? 0 then "" else strlcpy 12 (fmt_d lac_i) in
      let ci := if ci_i =? 0 then "" else strlcpy 12 (fmt_d ci_i) in
      mk_location mcc mnc lac ci
        (if str_nonempty mcc && str_nonempty mnc
         then strlcpy 48 (mcc +:+ "-" +:+ mnc +:+ "-" +:+ lac +:+ "-" +:+ ci) else "")
        (if plmn_has_mcc plmn then strlcpy 16 (mcc +:+ mnc) else "")
  end.

(** ** Rotation *)

Definition cdr_rotate_poll_sec (r : msc_cdr_rotate) : Z :=
  match r with MSC_CDR_ROTATE_5MIN => 15 | _ => 60 end.

Definition cdr_period_elapsed (r : msc_cdr_rotate) (now anchor : Z) : bool :=
  match r with
  | MSC_CDR_ROTATE_5MIN => negb (Z.quot now 300 =? Z.quot anchor 300)
  | _ =>
      let a := gmtime now in
      let b := gmtime anchor in
      negb (tm_year a =? tm_year b) || negb (tm_yday a =? tm_yday b)
      || match r with MSC_CDR_ROTATE_HOURLY => negb (tm_hour a =? tm_hour b) | _ => false end
  end.

(** sizeof(dest) *)
Definition CDR_PATH_MAX : nat := 4096.

Definition rotate_dest (fname : string) (r : msc_cdr_rotate) (anchor : Z) : string :=
  let t := gmtime (match r with MSC_CDR_ROTATE_5MIN => Z.quot anchor 300 * 300 | _ => anchor end) in
  strlcpy CDR_PATH_MAX
    (fname +:+ "." +:+ fmt_0d 4 (tm_year t + 1900) +:+ fmt_0d 2 (tm_mon t + 1) +:+ fmt_0d 2 (tm_mday t)
     +:+ fmt_0d 2 (tm_hour t)
     +:+ match r with MSC_CDR_ROTATE_5MIN => fmt_0d 2 (tm_min t) | _ => "" end).

Definition msc_cdr_close_file (net : cdr_net) : cdr_net := net <| fh := None |>.

Definition cdr_maybe_rotate (io : cdr_io) (net : cdr_net) : cdr_net :=
  match filename net, rotate net with
  | None, _ | _, MSC_CDR_ROTATE_NONE => net
  | Some fname, r =>
      let now := io_now io in
      if rotate_anchor net =? 0 then net <| rotate_anchor := now |>
      else if negb (cdr_period_elapsed r now (rotate_anchor net)) then net
      else
        let net := if io_rename io
                   then net <| files ::= fs_rename fname (rotate_dest fname r (rotate_anchor net)) |>
                   else net in
        msc_cdr_close_file net <| rotate_anchor := now |>
  end.

Definition schedule_rotate (now : Z) (net : cdr_net) : cdr_net :=
  match filename net, rotate net with
  | None, _ | _, MSC_CDR_ROTATE_NONE => net
  | Some _, r => net <| rotate_timer := Some (now + cdr_rotate_poll_sec r) |>
  end.

(** the timer is no longer pending when its callback runs *)
Definition cdr_rotate_cb (io : cdr_io) (net : cdr_net) : cdr_net :=
  schedule_rotate (io_now io) (cdr_maybe_rotate io (net <| rotate_timer := None |>)).

Definition msc_cdr_reconfigure (now : Z) (net : cdr_net) : cdr_net :=
  schedule_rotate now (msc_cdr_close_file net <| rotate_timer := None |>).

Definition msc_cdr_init (net : cdr_net) : cdr_net :=
  net <| rotate_timer := None |> <| next_record_number := 1 |>.

(** ** The commands of the configuration (msc_vty.c) *)

Definition cfg_msc_cdr_filename (now : Z) (name : string) (net : cdr_net) : cdr_net :=
  msc_cdr_reconfigure now (net <| filename := Some name |>).
Definition cfg_msc_no_cdr_filename (now : Z) (net : cdr_net) : cdr_net :=
  msc_cdr_reconfigure now (net <| filename := None |>).
Definition cfg_msc_cdr_trap (net : cdr_net) : cdr_net := net <| trap := true |>.
Definition cfg_msc_no_cdr_trap (net : cdr_net) : cdr_net := net <| trap := false |>.
Definition cfg_msc_cdr_recording_entity (name : string) (net : cdr_net) : cdr_net :=
  net <| cfg_recording_entity := Some name |>.
Definition cfg_msc_no_cdr_recording_entity (net : cdr_net) : cdr_net :=
  net <| cfg_recording_entity := None |>.
Definition cfg_msc_cdr_interval (arg : string) (net : cdr_net) : cdr_net :=
  net <| interval := atoi arg |>.
Definition cfg_msc_no_cdr_interval (net : cdr_net) : cdr_net := net <| interval := 0 |>.
Definition cfg_msc_cdr_rotate (now : Z) (arg : string) (net : cdr_net) : cdr_net :=
  msc_cdr_reconfigure now
    (net <| rotate := if String.eqb arg "5min" then MSC_CDR_ROTATE_5MIN
                      else if String.eqb arg "hourly" then MSC_CDR_ROTATE_HOURLY
                      else MSC_CDR_ROTATE_DAILY |>).
Definition cfg_msc_no_cdr_rotate (now : Z) (net : cdr_net) : cdr_net :=
  msc_cdr_reconfigure now (net <| rotate := MSC_CDR_ROTATE_NONE |>).

(** ** Writing a line *)

(** what it prints when the file has this size *)
Definition maybe_print_header (size : nat) : string := if Nat.eqb size 0 then cdr_header else "".

(** Open the CDR file if it is not open yet.  What is printed stays in the
    buffer until the next flush: the file and its buffer, which is empty
    between two calls of [cdr_write_line]. *)
Definition cdr_file (io : cdr_io) (fname : string) (net : cdr_net) : option (nat * string) * cdr_net :=
  match fh net with
  | Some i => (Some (i, ""), net)
  | None =>
      if negb (io_open io) then (None, net)
      else
        let '(i, f) := fs_open_append fname (files net) in
        (Some (i, maybe_print_header (fs_size i f)), net <| fh := Some i |> <| files := f |>)
  end.

Definition cdr_write_line (io : cdr_io) (line : string) (net : cdr_net) : cdr_net :=
  let net := if trap net && have_ctrl net then net <| traps ::= fun l => l ++ [line] |> else net in
  match filename net with
  | None => net
  | Some fname =>
      let net := cdr_maybe_rotate io net in
      let '(f, net) := cdr_file io fname net in
      match f with
      | None => net
      | Some (i, buffer) =>
          let buffer := buffer +:+ line +:+ String NL "" in
          if io_flush io then net <| files ::= fs_append i buffer |>
          else
            msc_cdr_close_file
              (net <| files ::= fs_append i (String.substring 0 (io_partial io) buffer) |>)
      end
  end.

(** ** Tickets *)

(** the arguments of [emit_row] that differ between the kinds of tickets *)
Record ticket : Type := mk_ticket {
  tk_type : Z; tk_sequence : Z; tk_partial : Z;
  tk_calling : string; tk_called : string; tk_translated : string; tk_connected : string;
  tk_destination : string; tk_origination : string; tk_service_centre : string;
  tk_seizure : Z; tk_setup : Z; tk_alert : Z; tk_answer : Z; tk_release : Z;
  tk_t_origination : Z; tk_t_delivery : Z;
  tk_duration : Z; tk_ringing : Z; tk_cft : Z; tk_diagnostics : string;
  tk_callref : Z; tk_outgoing_route : string; tk_emergency : Z;
  tk_bearer : string; tk_codec : string; tk_result : string;
  tk_dcs : string; tk_pid : string; tk_rp_mr : string; tk_text_len : string
}.

(** the arguments of the snprintf, as text *)
Definition row_fields (net : cdr_net) (vsub : option cdr_vsub) (trans : option cdr_trans)
    (msc_a : option cdr_msc_a) (k : ticket) : list string :=
  let ent := recording_entity net in
  let of_vsub (f : cdr_vsub -> string) := match vsub with Some v => f v | None => "" end in
  let l := fill_location vsub in
  let ran := ctx_ran trans msc_a vsub in
  [fmt_d (tk_type k); fmt_d (next_record_number net); fmt_d (tk_sequence k); fmt_d (tk_partial k);
   ent; ent;
   of_vsub cv_imsi; of_vsub cv_imei; of_vsub cv_imeisv; of_vsub cv_msisdn;
   tk_calling k; tk_called k; tk_translated k; tk_connected k;
   tk_destination k; tk_origination k; tk_service_centre k;
   fmt_time (tk_seizure k); fmt_time (tk_setup k); fmt_time (tk_alert k); fmt_time (tk_answer k);
   fmt_time (tk_release k); fmt_time (tk_t_origination k); fmt_time (tk_t_delivery k);
   fmt_d (tk_duration k); fmt_d (tk_ringing k); fmt_d (tk_cft k); tk_diagnostics k;
   "0x" +:+ fmt_x (tk_callref k); "0x" +:+ fmt_x (tk_callref k);
   l_mcc l; l_mnc l; l_lac l; l_ci l; l_gai l; l_mccmnc l; l_mccmnc l;
   osmo_rat_type_name ran; system_type_str ran; incoming_route ran; tk_outgoing_route k;
   fill_bsc_pc trans msc_a; fill_cipher trans msc_a; fill_classmark vsub; fill_hlr vsub;
   of_vsub cv_mme_name; fmt_d (tk_emergency k); tk_bearer k; tk_codec k; tk_result k;
   tk_dcs k; tk_pid k; tk_rp_mr k; tk_text_len k].

Definition emit_row (io : cdr_io) (vsub : option cdr_vsub) (trans : option cdr_trans)
    (msc_a : option cdr_msc_a) (k : ticket) (net : cdr_net) : cdr_net :=
  if negb (cdr_enabled net) then net
  else
    let line := strlcpy CDR_LINE_MAX (String.concat "," (row_fields net vsub trans msc_a k)) in
    cdr_write_line io line (net <| next_record_number ::= fun n => u64 (n + 1) |>).

(** ** Calls *)

Definition call_ticket (now : Z) (partial : bool) (t : cdr_trans) : ticket :=
  let answered := negb (ct_t_answer t =? 0) in
  let rec_type := if decide (ct_setup_msg_type t = MNCC_SETUP_REQ) then MSC_CDR_MTC else MSC_CDR_MOC in
  {| tk_type := rec_type; tk_sequence := ct_sequence_number t;
     tk_partial := if partial then 1 else 0;
     tk_calling := ct_calling t; tk_called := ct_called t;
     tk_translated := ct_redirecting t; tk_connected := ct_connected t;
     tk_destination := ct_called t; tk_origination := ct_calling t; tk_service_centre := "";
     tk_seizure := ct_t_setup t; tk_setup := ct_t_setup t; tk_alert := ct_t_alert t;
     tk_answer := ct_t_answer t; tk_release := now; tk_t_origination := 0; tk_t_delivery := 0;
     tk_duration := if answered then now - ct_t_answer t else 0;
     tk_ringing := if ct_t_setup t =? 0 then 0
                   else if answered then ct_t_answer t - ct_t_setup t
                   else now - ct_t_setup t;
     tk_cft := cause_for_term answered partial (ct_cause_present t) (ct_cause t);
     tk_diagnostics := if ct_cause_present t then strlcpy 16 (fmt_d (ct_cause t)) else "";
     tk_callref := ct_callref t;
     tk_outgoing_route := if rec_type =? MSC_CDR_MOC then "MNCC"
                          else incoming_route (ctx_ran (Some t) None (ct_vsub t));
     tk_emergency := ct_emergency t; tk_bearer := itcap_name (ct_transfer t);
     tk_codec := trans_codec_name t;
     tk_result := if answered then (if partial then "partial" else "answered")
                  else if ct_cause_present t then "failed" else "unanswered";
     tk_dcs := ""; tk_pid := ""; tk_rp_mr := ""; tk_text_len := "" |}.

(** [sequence] is an [int] argument of an [uint32_t] *)
Definition emit_call (io : cdr_io) (partial : bool) (t : cdr_trans) (net : cdr_net)
  : cdr_trans * cdr_net :=
  if negb (cdr_enabled net) then (t, net)
  else if negb partial && ct_written t then (t, net)
  else
    let k := call_ticket (io_now io) partial (t <| ct_sequence_number ::= s32 |>) in
    let net := emit_row io (ct_vsub t) (Some t) (ct_msc_a t) k net in
    let t := t <| ct_sequence_number ::= fun n => u32 (n + 1) |> in
    (if partial then t else t <| ct_written := true |>, net).

Definition cdr_arm_interval (now : Z) (net : cdr_net) (t : cdr_trans) : cdr_trans :=
  if interval net =? 0 then t else t <| ct_interval_timer := Some (now + interval net) |>.

Definition cdr_interval_cb (io : cdr_io) (t : cdr_trans) (net : cdr_net) : cdr_trans * cdr_net :=
  let t := t <| ct_interval_timer := None |> in
  if negb (ct_live t) || negb (ct_is_cc t) then (t, net)
  else
    let '(t, net) := emit_call io true t net in
    (cdr_arm_interval (io_now io) net t, net).

Definition msc_cdr_note_cause (c : gsm_mncc_cause) (t : cdr_trans) : cdr_trans :=
  t <| ct_cause_present := true |> <| ct_cause := c_value c |> <| ct_cause_loc := c_location c |>
    <| ct_cause_coding := c_coding c |>.

(** sizeof(trans->cdr.calling) *)
Definition CDR_NUMBER_SIZE : nat := 33.

Definition msc_cdr_note_setup (now : Z) (s : gsm_mncc) (t : cdr_trans) : cdr_trans :=
  let has f := has_field (m_fields s) f in
  let t := if ct_t_setup t =? 0 then t <| ct_t_setup := now |> else t in
  let t := t <| ct_setup_seen := true |> in
  let t := if mncc_code (m_msg_type s) =? 0 then t else t <| ct_setup_msg_type := m_msg_type s |> in
  let t := if has MNCC_F_CALLING
           then t <| ct_calling := strlcpy CDR_NUMBER_SIZE (n_number (m_calling s)) |>
                  <| ct_calling_type := n_type (m_calling s) |>
                  <| ct_calling_plan := n_plan (m_calling s) |>
                  <| ct_calling_present := n_present (m_calling s) |>
                  <| ct_calling_screen := n_screen (m_calling s) |>
           else t in
  let t := if has MNCC_F_CALLED
           then t <| ct_called := strlcpy CDR_NUMBER_SIZE (n_number (m_called s)) |>
                  <| ct_called_type := n_type (m_called s) |>
                  <| ct_called_plan := n_plan (m_called s) |>
           else t in
  let t := if has MNCC_F_CONNECTED
           then t <| ct_connected := strlcpy CDR_NUMBER_SIZE (n_number (m_connected s)) |> else t in
  let t := if has MNCC_F_REDIRECTING
           then t <| ct_redirecting := strlcpy CDR_NUMBER_SIZE (n_number (m_redirecting s)) |> else t in
  let t := if has MNCC_F_EMERGENCY || negb (m_emergency s =? 0) then t <| ct_emergency := 1 |> else t in
  let t := if negb (m_clir_sup s =? 0) then t <| ct_clir_sup := 1 |> else t in
  let t := if negb (m_clir_inv s =? 0) then t <| ct_clir_inv := 1 |> else t in
  if has MNCC_F_CAUSE then msc_cdr_note_cause (m_cause s) t else t.

Definition msc_cdr_note_connected (number : string) (t : cdr_trans) : cdr_trans :=
  if str_empty number then t else t <| ct_connected := strlcpy CDR_NUMBER_SIZE number |>.

Definition msc_cdr_note_answer (now : Z) (net : cdr_net) (t : cdr_trans) : cdr_trans :=
  let t := if ct_t_answer t =? 0 then t <| ct_t_answer := now |> else t in
  cdr_arm_interval now net t.

Definition msc_cdr_call (io : cdr_io) (t : cdr_trans) (net : cdr_net) : cdr_trans * cdr_net :=
  emit_call io false (t <| ct_interval_timer := None |>) net.

(** ** Short messages, supplementary services, location updating *)

Definition sms_ticket (now : Z) (t : cdr_trans) (s : cdr_sms) (result : string) (cause : Z) : ticket :=
  let rec_type := if cs_source_ms s then MSC_CDR_MOSMS else MSC_CDR_MTSMS in
  let orig := if cs_source_ms s && str_empty (cs_src_addr s)
              then match ct_vsub t with Some v => cv_msisdn v | None => "" end
              else cs_src_addr s in
  {| tk_type := rec_type; tk_sequence := 0; tk_partial := 0;
     tk_calling := orig; tk_called := cs_dst_addr s; tk_translated := ""; tk_connected := "";
     tk_destination := cs_dst_addr s; tk_origination := orig; tk_service_centre := "";
     tk_seizure := cs_created s; tk_setup := cs_created s; tk_alert := 0; tk_answer := 0;
     tk_release := now; tk_t_origination := cs_created s; tk_t_delivery := now;
     tk_duration := 0; tk_ringing := 0;
     tk_cft := if String.eqb result "delivered" then CFT_NORMAL_RELEASE else CFT_UNSUCCESSFUL_ATTEMPT;
     tk_diagnostics := if cause =? 0 then "" else strlcpy 16 (fmt_d cause);
     tk_callref := ct_callref t;
     tk_outgoing_route := if rec_type =? MSC_CDR_MOSMS then "SMSC"
                          else incoming_route (ctx_ran (Some t) None (ct_vsub t));
     tk_emergency := 0; tk_bearer := ""; tk_codec := ""; tk_result := result;
     tk_dcs := strlcpy 8 (fmt_d (cs_dcs s)); tk_pid := strlcpy 8 (fmt_d (cs_pid s));
     tk_rp_mr := strlcpy 8 (fmt_d (ct_sm_rp_mr t));
     tk_text_len := strlcpy 8 (fmt_d (cs_user_data_len s)) |}.

Definition msc_cdr_sms (io : cdr_io) (s : cdr_sms) (result : string) (cause : Z) (t : cdr_trans)
    (net : cdr_net) : cdr_trans * cdr_net :=
  if ct_written t then (t, net)
  else if negb (cdr_enabled net) then (t, net)
  else
    let t := t <| ct_written := true |> in
    (t, emit_row io (ct_vsub t) (Some t) (ct_msc_a t) (sms_ticket (io_now io) t s result cause) net).

(** a ticket with the time of its end only *)
Definition event_ticket (type now cft callref : Z) (outgoing result : string) : ticket :=
  {| tk_type := type; tk_sequence := 0; tk_partial := 0;
     tk_calling := ""; tk_called := ""; tk_translated := ""; tk_connected := "";
     tk_destination := ""; tk_origination := ""; tk_service_centre := "";
     tk_seizure := 0; tk_setup := 0; tk_alert := 0; tk_answer := 0; tk_release := now;
     tk_t_origination := 0; tk_t_delivery := 0; tk_duration := 0; tk_ringing := 0;
     tk_cft := cft; tk_diagnostics := ""; tk_callref := callref; tk_outgoing_route := outgoing;
     tk_emergency := 0; tk_bearer := ""; tk_codec := ""; tk_result := result;
     tk_dcs := ""; tk_pid := ""; tk_rp_mr := ""; tk_text_len := "" |}.

Definition msc_cdr_ss (io : cdr_io) (t : cdr_trans) (net : cdr_net) : cdr_trans * cdr_net :=
  if ct_written t then (t, net)
  else if negb (cdr_enabled net) then (t, net)
  else
    let t := t <| ct_written := true |> in
    (t, emit_row io (ct_vsub t) (Some t) (ct_msc_a t)
          (event_ticket MSC_CDR_SS (io_now io) CFT_NORMAL_RELEASE (ct_callref t) "SS" "ss") net).

Definition msc_cdr_lu (io : cdr_io) (v : cdr_vsub) (a : option cdr_msc_a) (success : bool)
    (net : cdr_net) : cdr_net :=
  if negb (cdr_enabled net) then net
  else
    emit_row io (Some v) None a
      (event_ticket MSC_CDR_LU (io_now io)
         (if success then CFT_NORMAL_RELEASE else CFT_UNSUCCESSFUL_ATTEMPT) 0
         (incoming_route (ctx_ran None a (Some v)))
         (if success then "accepted" else "rejected")) net.
End format.
