(* ===== verification/CdrProofs.v ===== *)
(** * From the ticket to the record

    The tickets that the MSC writes are what the encoder reads: columns, lines,
    times and files. *)

From S2P Require Import Prelude CLib CLibProofs HuaweiBer CdrEnc BerProofs CdrEncProofs.
From S2P Require Import Mncc VlrTypes MscCdr.
From Stdlib Require Import Ascii.

(** ** Times *)

Lemma digits_ok_length n acc s z : digits_ok n acc s z = true -> String.length s = n.
Proof.
  revert acc s. induction n as [|n IH]; intros acc [|c s] H; try done.
  cbn [digits_ok] in H. apply andb_true_iff in H as [_ H]. cbn. f_equal. by apply (IH _ _ H).
Qed.
Lemma substring_all n s : (String.length s <= n)%nat -> String.substring 0 n s = s.
Proof.
  revert s. induction n as [|n IH]; intros [|c s] H; cbn in *; try done; [lia|]. f_equal. apply IH. lia.
Qed.
Lemma strlcpy_all n s : (String.length s < n)%nat -> strlcpy n s = s.
Proof. intros H. apply substring_all. lia. Qed.

Lemma str_app_nil s : s +:+ "" = s.
Proof. induction s as [|c s IH]; [done|]. exact (f_equal (String c) IH). Qed.
Lemma tm_eq y mo d h mi se yd y' mo' d' h' mi' se' yd' :
  y = y' -> mo = mo' -> d = d' -> h = h' -> mi = mi' -> se = se' -> yd = yd' ->
  mk_tm y mo d h mi se yd = mk_tm y' mo' d' h' mi' se' yd'.
Proof. by intros -> -> -> -> -> -> ->. Qed.
Lemma fmt_time_parse t : 1 <= t < 253402300800 ->
  exists tm, ber_parse_csv_time (fmt_time t) = Some tm /\ timegm tm = t
  /\ tm = gmtime t <| tm_yday := 0 |>.
Proof.
  intros Ht. destruct (timegm_gmtime t) as (E & (Hmo & Hd & Hh & Hmi & Hs) & Hy).
  specialize (Hy ltac:(lia)). unfold fmt_time. rewrite (proj2 (Z.eqb_neq _ _)) by lia.
  generalize dependent (gmtime t). intros g E Hmo Hd Hh Hmi Hs Hy.
  exists (g <| tm_yday := 0 |>). split_and!; [|exact E|done]. cbv zeta.
  pose proof (fmt_0d_4 (tm_year g + 1900) ltac:(lia)) as F1.
  pose proof (fmt_0d_2 (tm_mon g + 1) ltac:(lia)) as F2.
  pose proof (fmt_0d_2 (tm_mday g) ltac:(lia)) as F3.
  pose proof (fmt_0d_2 (tm_hour g) ltac:(lia)) as F4.
  pose proof (fmt_0d_2 (tm_min g) ltac:(lia)) as F5.
  pose proof (fmt_0d_2 (tm_sec g) ltac:(lia)) as F6.
  pose proof (digits_ok_length _ _ _ _ F1) as L1. pose proof (digits_ok_length _ _ _ _ F2) as L2.
  pose proof (digits_ok_length _ _ _ _ F3) as L3. pose proof (digits_ok_length _ _ _ _ F4) as L4.
  pose proof (digits_ok_length _ _ _ _ F5) as L5. pose proof (digits_ok_length _ _ _ _ F6) as L6.
  set (s1 := fmt_0d 4 _) in *. set (s2 := fmt_0d 2 (tm_mon g + 1)) in *. set (s3 := fmt_0d 2 (tm_mday g)) in *.
  set (s4 := fmt_0d 2 (tm_hour g)) in *. set (s5 := fmt_0d 2 (tm_min g)) in *. set (s6 := fmt_0d 2 (tm_sec g)) in *.
  clearbody s1 s2 s3 s4 s5 s6. rewrite strlcpy_all by (rewrite !str_length_app; lia).
  unfold ber_parse_csv_time. rewrite (proj2 (Nat.ltb_ge _ _)) by (rewrite !str_length_app; lia).
  rewrite (scan_d_ok 3 s1 _ _ F1), (scan_d_ok 1 s2 _ _ F2), (scan_d_ok 1 s3 _ _ F3),
    (scan_d_ok 1 s4 _ _ F4), (scan_d_ok 1 s5 _ _ F5).
  pose proof (scan_d_ok 1 s6 _ "" F6) as E6. rewrite str_app_nil in E6. rewrite E6.
  f_equal. refine (tm_eq _ _ _ _ _ _ _ (tm_year g) (tm_mon g) (tm_mday g) (tm_hour g) (tm_min g)
    (tm_sec g) 0 _ _ _ _ _ _ _); lia.
Qed.

(** C25: A time of a ticket survives its text: for every second from 1970 to
    the year 9999 but the very first, the encoder reads from what [fmt_time]
    wrote the same time, in UTC. *)
Theorem csv_time_roundtrip t : 1 <= t < 253402300800 ->
  exists tm, ber_parse_csv_time (fmt_time t) = Some tm /\ timegm tm = t.
Proof. intros H. destruct (fmt_time_parse t H) as (tm & E & Et & _). eauto. Qed.
Lemma csv_time_roundtrip_witness :
  exists tm, ber_parse_csv_time (fmt_time 1700000000) = Some tm /\ timegm tm = 1700000000.
Proof. apply csv_time_roundtrip. lia. Defined.

(** ** Columns *)

Ltac weaken H := eapply Forall_impl; [exact H|]; cbv beta; tauto.

(** a field that does not break the line *)
Definition clean (s : string) : Prop :=
  Forall (fun c => c <> ","%char /\ c <> NL /\ c <> CR /\ c <> NUL) (chars s).

Lemma chars_app a b : chars (a +:+ b) = chars a ++ chars b.
Proof. induction a as [|c a IH]; [done|]. exact (f_equal (cons c) IH). Qed.

Lemma at_comma_clean s rest : Forall (fun c => c <> ","%char) (chars s) ->
  at_comma (s +:+ String "," rest) = (s, Some rest) /\ at_comma s = (s, None).
Proof.
  induction s as [|c s IH]; intros H; [done|]. apply Forall_cons in H as [Hc H].
  destruct (IH H) as [E1 E2]. change (String c s +:+ String "," rest) with (String c (s +:+ String "," rest)).
  cbn [at_comma]. rewrite (proj2 (Ascii.eqb_neq c ",") Hc), E1, E2. done.
Qed.

Lemma split_concat n fields : (1 <= length fields <= n)%nat -> Forall clean fields ->
  split_csv n (String.concat "," fields) = fields.
Proof.
  revert n. induction fields as [|f fields IH]; intros n Hn Hc; [cbn in Hn; lia|].
  destruct n as [|n]; [cbn in Hn; lia|]. apply Forall_cons in Hc as [Hf Hc].
  assert (Hf' : Forall (fun c => c <> ","%char) (chars f)) by (weaken Hf).
  destruct fields as [|g fields].
  - cbn [String.concat split_csv]. destruct (at_comma_clean f "" Hf') as [_ ->]. done.
  - change (String.concat "," (f :: g :: fields)) with (f +:+ String "," (String.concat "," (g :: fields))).
    cbn [split_csv]. destruct (at_comma_clean f (String.concat "," (g :: fields)) Hf') as [-> _].
    rewrite IH; [done| |done]. cbn in *. lia.
Qed.

Lemma concat_plain fields (P : ascii -> Prop) : Forall (fun f => Forall P (chars f)) fields -> P ","%char ->
  Forall P (chars (String.concat "," fields)).
Proof.
  intros H Hp. induction H as [|f fields Hf H IH]; [constructor|].
  destruct fields as [|g fields]; [exact Hf|].
  change (String.concat "," (f :: g :: fields)) with (f +:+ String "," (String.concat "," (g :: fields))).
  rewrite chars_app. apply Forall_app. split; [done|]. by constructor.
Qed.
Lemma cut_plain s rest : Forall (fun c => c <> NL /\ c <> CR) (chars s) ->
  cut_line (s +:+ String NL rest) = s /\ cut_line s = s.
Proof.
  induction s as [|c s IH]; intros H; [done|]. apply Forall_cons in H as [[H1 H2] H].
  destruct (IH H) as [E1 E2]. change (String c s +:+ String NL rest) with (String c (s +:+ String NL rest)).
  unfold cut_line in *. cbn [cut_at].
  rewrite (proj2 (Ascii.eqb_neq c CR) H2), (proj2 (Ascii.eqb_neq c NL) H1). cbn [orb]. by rewrite E1, E2.
Qed.

(** ** Lines *)

Definition line_ok (s : string) : Prop :=
  Forall (fun c => c <> NL /\ c <> CR /\ c <> NUL) (chars s) /\ (String.length s < LINE_MAX_LEN - 1)%nat.

Definition file_of (lines : list string) : list ascii := concat (map (fun l => chars l ++ [NL]) lines).

Lemma fgets_chars_line l n rest : Forall (fun c => c <> NL) l -> (length l < n)%nat ->
  fgets_chars n (l ++ NL :: rest) = (l ++ [NL], rest).
Proof.
  revert n. induction l as [|c l IH]; intros [|n] Hl Hn; cbn in Hn; try lia; [done|].
  apply Forall_cons in Hl as [Hc Hl]. cbn [app fgets_chars].
  rewrite (proj2 (Ascii.eqb_neq _ _) Hc), IH by (done || lia). done.
Qed.
Lemma c_str_line s : Forall (fun c => c <> NUL) (chars s) -> c_str (chars s ++ [NL]) = s +:+ String NL "".
Proof.
  induction s as [|c s IH]; intros H; [done|]. apply Forall_cons in H as [Hc H].
  change (chars (String c s) ++ [NL]) with (c :: (chars s ++ [NL])). cbn [c_str].
  rewrite (proj2 (Ascii.eqb_neq _ _) Hc), IH by done. done.
Qed.
Lemma fgets_line s rest : line_ok s ->
  fgets LINE_MAX_LEN (chars s ++ NL :: rest) = Some (s +:+ String NL "", rest).
Proof.
  intros [Hs Hl]. unfold fgets. rewrite fgets_chars_line; cycle 1.
  { weaken Hs. } { by rewrite chars_length. }
  rewrite c_str_line; [by destruct (chars s)|]. weaken Hs.
Qed.
Lemma fgets_all_lines lines n : Forall line_ok lines -> (length lines <= n)%nat ->
  fgets_all n LINE_MAX_LEN (file_of lines) = map (fun l => l +:+ String NL "") lines.
Proof.
  intros H. revert n. induction H as [|l lines Hl H IH]; intros n Hn; [by destruct n|].
  destruct n as [|n]; [cbn in Hn; lia|]. unfold file_of in *. cbn [map concat].
  rewrite <- app_assoc. cbn [app fgets_all]. rewrite fgets_line by done. rewrite IH by (cbn in Hn; lia). done.
Qed.
Lemma file_of_length lines : (length lines <= length (file_of lines))%nat.
Proof.
  induction lines as [|l lines IH]; [done|]. unfold file_of in *. cbn. rewrite !length_app. cbn. lia.
Qed.

(** ** A file of tickets *)

Definition ticket_line (fields : list string) : string := String.concat "," fields.
Definition ticket_ok (fields : list string) : Prop :=
  length fields = length cdr_columns /\ Forall clean fields /\ line_ok (ticket_line fields)
  /\ ticket_line fields <> "".
Definition ticket_file (tickets : list (list string)) : list ascii :=
  chars cdr_header ++ file_of (map ticket_line tickets).

Definition cleanb (s : string) : bool :=
  forallb (fun c => negb (Ascii.eqb c "," || Ascii.eqb c NL || Ascii.eqb c CR || Ascii.eqb c NUL)) (chars s).
Lemma cleanb_ok l : forallb cleanb l = true -> Forall clean l.
Proof.
  intros H. rewrite forallb_forall in H. apply Forall_forall. intros s Hs. apply list_elem_of_In, H in Hs.
  unfold cleanb in Hs. rewrite forallb_forall in Hs. apply Forall_forall. intros c Hc.
  apply list_elem_of_In, Hs in Hc. rewrite negb_true_iff, !orb_false_iff, !Ascii.eqb_neq in Hc. tauto.
Qed.
Lemma header_clean : Forall clean cdr_columns.
Proof. apply cleanb_ok. by vm_compute. Qed.
Lemma clean_line fields : Forall clean fields ->
  Forall (fun c => c <> NL /\ c <> CR /\ c <> NUL) (chars (ticket_line fields)).
Proof.
  intros H. apply concat_plain; [|done]. eapply Forall_impl; [exact H|]. intros f Hf.
  weaken Hf.
Qed.
Lemma header_ok : line_ok (ticket_line cdr_columns).
Proof. split; [apply clean_line, header_clean|]. vm_compute. lia. Qed.

(** the encoder sees the columns and values that were written *)
Lemma ticket_rows tickets : Forall ticket_ok tickets ->
  file_rows (ticket_file tickets) = map (zip cdr_columns) tickets.
Proof.
  intros H. unfold file_rows, ticket_file, cdr_header. rewrite chars_app, <- app_assoc.
  change (chars (String NL "") ++ ?x) with (NL :: x). rewrite fgets_line by apply header_ok.
  pose proof header_ok as [Hh _].
  assert (E : cut_line (ticket_line cdr_columns +:+ String NL "") = ticket_line cdr_columns).
  { apply (cut_plain _ ""). weaken Hh. }
  unfold ticket_line in E at 1 2. rewrite E. rewrite split_concat; [|vm_compute; lia|apply header_clean].
  rewrite fgets_all_lines; cycle 1.
  { apply Forall_map. eapply Forall_impl; [exact H|]. intros f Hf. apply Hf. }
  { apply file_of_length. }
  induction H as [|f tickets Hf H IH]; [done|]. cbn [map csv_rows omap list_omap].
  destruct Hf as (Hn & Hc & Hl & Hne).
  unfold csv_row at 1. destruct (cut_plain (ticket_line f) "") as [E1 _].
  { weaken (proj1 Hl). }
  rewrite E1. unfold str_empty. rewrite (proj2 (String.eqb_neq _ _) Hne).
  unfold ticket_line at 1. rewrite split_concat; [|rewrite Hn; vm_compute; lia|done].
  unfold make_row. rewrite take_ge by (rewrite length_zip_with, Hn; vm_compute; lia).
  f_equal. exact IH.
Qed.

(** a ticket is fine when its columns are and it is not too long *)
Definition ticket_okb (fields : list string) : bool :=
  Nat.eqb (length fields) (length cdr_columns) && forallb cleanb fields
  && Nat.ltb (String.length (ticket_line fields)) (LINE_MAX_LEN - 1)
  && str_nonempty (ticket_line fields).
Lemma ticket_okb_ok fields : ticket_okb fields = true -> ticket_ok fields.
Proof.
  unfold ticket_okb. rewrite !andb_true_iff, Nat.eqb_eq, Nat.ltb_lt. intros [[[Hn Hc] Hl] He].
  apply cleanb_ok in Hc. split; [done|]. split; [done|]. split; [split; [by apply clean_line|done]|].
  intros E. by rewrite E in He.
Qed.
