(* ===== verification/CdrRotate.v ===== *)
(** * The names of rotated ticket files

    The name that a file gets when it is rotated tells the file and the period
    in which it was written: two rotations under a clock that is not set back
    never use the same name. *)

From S2P Require Import Prelude CLib CLibProofs CdrProofs MscCdr.
From Stdlib Require Import Ascii.

(** how many seconds a name stands for *)
Definition period (r : msc_cdr_rotate) : Z := match r with MSC_CDR_ROTATE_5MIN => 300 | _ => 3600 end.
(** the last second of the year 9999 has passed *)
Definition TIME_END : Z := 253402300800.

(** ** Periods *)

Lemma period_pos r : 0 < period r.
Proof. by destruct r. Qed.
Lemma gmtime_hour t t' : t / 3600 = t' / 3600 ->
  tm_year (gmtime t) = tm_year (gmtime t') /\ tm_yday (gmtime t) = tm_yday (gmtime t')
  /\ tm_hour (gmtime t) = tm_hour (gmtime t').
Proof.
  intros E.
  assert (Ed : t / 86400 = t' / 86400).
  { change 86400 with (3600 * 24). rewrite <- !Z.div_div, E by lia. done. }
  assert (Eh : t mod 86400 / 3600 = t' mod 86400 / 3600).
  { change 86400 with (3600 * 24). rewrite !Z.rem_mul_r, E, !(Z.mul_comm 3600), !Z.div_add by lia.
    rewrite !(Z.div_small (_ mod 3600)) by (apply Z.mod_pos_bound; lia). done. }
  unfold gmtime. rewrite Ed, Eh. by destruct (civil_from_days (t' / 86400)) as [[y m] d].
Qed.
(** when a period is over, the clock shows another one *)
Lemma elapsed_period r now anchor : 0 <= anchor <= now -> cdr_period_elapsed r now anchor = true ->
  anchor / period r < now / period r.
Proof.
  intros Ha H. assert (Hle : anchor / period r <= now / period r).
  { apply Z.div_le_mono; [apply period_pos|lia]. }
  assert (Hne : now / period r <> anchor / period r); [|lia]. intros E. unfold cdr_period_elapsed in H.
  destruct r; cbn [period] in *.
  2: { rewrite !Z.quot_div_nonneg in H by lia. by rewrite E, Z.eqb_refl in H. }
  all: destruct (gmtime_hour _ _ E) as (E1 & E2 & E3); by rewrite E1, E2, ?E3, !Z.eqb_refl in H.
Qed.

(** ** Stamps *)

Definition stamp (r : msc_cdr_rotate) (a : Z) : string :=
  let t := gmtime (match r with MSC_CDR_ROTATE_5MIN => Z.quot a 300 * 300 | _ => a end) in
  fmt_0d 4 (tm_year t + 1900) +:+ fmt_0d 2 (tm_mon t + 1) +:+ fmt_0d 2 (tm_mday t)
  +:+ fmt_0d 2 (tm_hour t) +:+ match r with MSC_CDR_ROTATE_5MIN => fmt_0d 2 (tm_min t) | _ => "" end.

Definition digit_string (s : string) : Prop := Forall (fun c => is_digit c = true) (chars s).
Lemma digits_ok_digits n acc s z : digits_ok n acc s z = true -> digit_string s.
Proof.
  unfold digit_string. revert acc s. induction n as [|n IH]; intros acc [|c s] H; try done.
  cbn [digits_ok] in H. apply andb_true_iff in H as [Hc H]. constructor; [done|by apply (IH _ _ H)].
Qed.
Lemma digits_ok_inj n acc s z z' : digits_ok n acc s z = true -> digits_ok n acc s z' = true -> z = z'.
Proof.
  revert acc s. induction n as [|n IH]; intros acc [|c s] H H'; try done; cbn [digits_ok] in *.
  - apply Z.eqb_eq in H, H'. congruence.
  - apply andb_true_iff in H as [_ H], H' as [_ H']. by apply (IH _ _ H H').
Qed.
Lemma digit_string_app a b : digit_string a -> digit_string b -> digit_string (a +:+ b).
Proof. unfold digit_string. rewrite chars_app. intros. by apply Forall_app. Qed.

Lemma str_app_inj a b a' b' : String.length a = String.length a' -> a +:+ b = a' +:+ b' -> a = a' /\ b = b'.
Proof.
  revert a'. induction a as [|c a IH]; intros [|c' a'] Hl E; try done.
  injection E as -> E. injection Hl as Hl. by destruct (IH _ Hl E) as [-> ->].
Qed.
(** fixed-width numbers in front of equal texts are equal *)
Lemma fixed_inj n z z' s t b b' : digits_ok n 0 s z = true -> digits_ok n 0 t z' = true ->
  s +:+ b = t +:+ b' -> z = z' /\ b = b'.
Proof.
  intros H H' E. apply str_app_inj in E as [<- E].
  - split; [by apply (digits_ok_inj _ _ _ _ _ H H')|done].
  - by rewrite (digits_ok_length _ _ _ _ H), (digits_ok_length _ _ _ _ H').
Qed.

Lemma stamp_time_range r a : 0 <= a < TIME_END ->
  0 <= match r with MSC_CDR_ROTATE_5MIN => Z.quot a 300 * 300 | _ => a end < TIME_END.
Proof. unfold TIME_END. intros Ha. destruct r; try lia.
  rewrite Z.quot_div_nonneg by lia. pose proof (Z.mul_div_le a 300). pose proof (Z.div_pos a 300). lia.
Qed.

(** the parts of a stamp *)
Lemma stamp_parts t : 0 <= t < TIME_END ->
  let g := gmtime t in
  digits_ok 4 0 (fmt_0d 4 (tm_year g + 1900)) (tm_year g + 1900) = true
  /\ digits_ok 2 0 (fmt_0d 2 (tm_mon g + 1)) (tm_mon g + 1) = true
  /\ digits_ok 2 0 (fmt_0d 2 (tm_mday g)) (tm_mday g) = true
  /\ digits_ok 2 0 (fmt_0d 2 (tm_hour g)) (tm_hour g) = true
  /\ digits_ok 2 0 (fmt_0d 2 (tm_min g)) (tm_min g) = true.
Proof.
  intros Ht. destruct (timegm_gmtime t) as (_ & (Hmo & Hd & Hh & Hmi & Hs) & Hy).
  specialize (Hy Ht). cbv zeta. split_and!; [apply fmt_0d_4; lia|apply fmt_0d_2; lia..].
Qed.
Lemma stamp_shape r a : 0 <= a < TIME_END ->
  digit_string (stamp r a) /\ String.length (stamp r a) = (if period r =? 300 then 12%nat else 10%nat).
Proof.
  intros Ha. destruct (stamp_parts _ (stamp_time_range r a Ha)) as (H1 & H2 & H3 & H4 & H5).
  unfold stamp. cbv zeta. rewrite !str_length_app.
  erewrite !digits_ok_length by eassumption. split.
  - repeat first [eapply digit_string_app; [by eapply digits_ok_digits|]].
    destruct r; try (by constructor). by eapply digits_ok_digits.
  - destruct r; cbn [period]; try done. by erewrite digits_ok_length by eassumption.
Qed.

(** the time of a stamp is the beginning of its hour or of its minute *)
Lemma gmtime_floor t : let g := gmtime t in
  t / 3600 = (timegm (mk_tm (tm_year g) (tm_mon g) (tm_mday g) (tm_hour g) 0 0 0)) / 3600
  /\ t / 60 = (timegm (mk_tm (tm_year g) (tm_mon g) (tm_mday g) (tm_hour g) (tm_min g) 0 0)) / 60.
Proof.
  destruct (timegm_gmtime t) as (E & (_ & _ & _ & Hmi & Hs) & _). cbv zeta.
  generalize dependent (gmtime t). intros g E Hmi Hs. unfold timegm in *.
  cbn [tm_year tm_mon tm_mday tm_hour tm_min tm_sec] in *. set (d := days_from_civil _ _ _ + _) in *.
  clearbody d. split; Z.div_mod_to_equations; lia.
Qed.
Lemma stamp_inj r r' a a' : 0 <= a < TIME_END -> 0 <= a' < TIME_END -> period r = period r' ->
  stamp r a = stamp r' a' -> a / period r = a' / period r.
Proof.
  intros Ha Ha' Hp. unfold stamp. cbv zeta.
  pose proof (stamp_parts _ (stamp_time_range r a Ha)) as (H1 & H2 & H3 & H4 & H5).
  pose proof (stamp_parts _ (stamp_time_range r' a' Ha')) as (J1 & J2 & J3 & J4 & J5).
  set (t := match r with MSC_CDR_ROTATE_5MIN => _ | _ => _ end) in *.
  set (t' := match r' with MSC_CDR_ROTATE_5MIN => _ | _ => _ end) in *.
  intros E. destruct (fixed_inj _ _ _ _ _ _ _ H1 J1 E) as [Ey E'].
  destruct (fixed_inj _ _ _ _ _ _ _ H2 J2 E') as [Em E2].
  destruct (fixed_inj _ _ _ _ _ _ _ H3 J3 E2) as [Ed E3].
  destruct (fixed_inj _ _ _ _ _ _ _ H4 J4 E3) as [Eh E4].
  destruct (gmtime_floor t) as [F1 F2]. destruct (gmtime_floor t') as [G1 G2]. cbv zeta in *.
  assert (Ey' : tm_year (gmtime t) = tm_year (gmtime t')) by lia.
  assert (Em' : tm_mon (gmtime t) = tm_mon (gmtime t')) by lia.
  rewrite Ey', Em', Ed, Eh in F1, F2.
  destruct (Z.eqb_spec (period r) 300) as [E300|N300].
  - destruct r; try done. destruct r'; try done. cbn [period] in *.
    rewrite <- (str_app_nil (fmt_0d 2 (tm_min (gmtime t)))), <- (str_app_nil (fmt_0d 2 (tm_min (gmtime t')))) in E4.
    destruct (fixed_inj _ _ _ _ _ _ _ H5 J5 E4) as [Ei _]. rewrite Ei in F2.
    assert (Et : t / 60 = t' / 60) by congruence. unfold t, t' in Et.
    rewrite !Z.quot_div_nonneg in Et by lia. Z.div_mod_to_equations. lia.
  - assert (Et : t / 3600 = t' / 3600) by congruence.
    destruct r, r'; try done; exact Et.
Qed.

(** ** Names *)

(** a name to which a stamp can be added, and names of which none continues
    another one after a dot *)
Definition name_fits (f : string) : bool := Nat.ltb (String.length f + 13) CDR_PATH_MAX.
Definition names_ok (names : list string) : bool :=
  forallb (fun f => name_fits f && forallb (fun g => negb (starts_with (f +:+ ".") g)) names) names.

Lemma rotate_dest_eq f r a : name_fits f = true -> 0 <= a < TIME_END ->
  rotate_dest f r a = f +:+ "." +:+ stamp r a.
Proof.
  intros Hf Ha. unfold rotate_dest. cbv zeta. fold (stamp r a).
  change (strlcpy CDR_PATH_MAX (f +:+ "." +:+ stamp r a) = f +:+ "." +:+ stamp r a).
  apply strlcpy_all. rewrite !str_length_app, (proj2 (stamp_shape r a Ha)).
  apply Nat.ltb_lt in Hf. change (String.length ".") with 1%nat. destruct (period r =? 300); lia.
Qed.

Lemma starts_with_app p s : starts_with p (p +:+ s) = true.
Proof.
  induction p as [|c p IH]; [done|]. change (String c p +:+ s) with (String c (p +:+ s)). cbn.
  by rewrite Ascii.eqb_refl.
Qed.
Lemma str_app_assoc (a b c : string) : (a +:+ b) +:+ c = a +:+ b +:+ c.
Proof. induction a as [|x a IH]; [done|]. exact (f_equal (String x) IH). Qed.

(** the text before the last dot *)
Lemma last_dot f s g t : digit_string s -> digit_string t ->
  f +:+ String "." s = g +:+ String "." t -> f = g /\ s = t.
Proof.
  assert (Hdot : forall s (g : string) c u, digit_string (String c s) -> String c s <> g +:+ String "." u).
  { intros s0 g0 c u H E. assert (Hin : "."%char ∈ chars (String c s0)).
    { rewrite E, chars_app. apply elem_of_app. right. by left. }
    by apply (proj1 (Forall_forall _ _) H) in Hin. }
  intros Hs Ht. revert g. induction f as [|c f IH]; intros [|d g] E; try done.
  - by injection E as ->.
  - injection E as _ E. destruct s as [|c s]; [by destruct g|]. exfalso; exact (Hdot s g c t Hs E).
  - injection E as _ E. symmetry in E. destruct t as [|d t]; [by destruct f|]. exfalso; exact (Hdot t f d s Ht E).
  - injection E as -> E. by destruct (IH g E) as [-> ->].
Qed.

(** equal names are names of the same file and the same period *)
Lemma rotate_dest_inj f g r r' a a' : name_fits f = true -> name_fits g = true ->
  0 <= a < TIME_END -> 0 <= a' < TIME_END ->
  rotate_dest f r a = rotate_dest g r' a' ->
  f = g /\ period r = period r' /\ a / period r = a' / period r.
Proof.
  intros Hf Hg Ha Ha' E. rewrite !rotate_dest_eq in E by done.
  destruct (stamp_shape r a Ha) as [Hd Hl]. destruct (stamp_shape r' a' Ha') as [Hd' Hl'].
  destruct (last_dot _ _ _ _ Hd Hd' E) as [-> Es]. split; [done|].
  assert (Hp : period r = period r').
  { rewrite Es, Hl' in Hl. destruct r, r'; done. }
  split; [done|]. by apply (stamp_inj r r').
Qed.

Lemma names_fit names f : names_ok names = true -> f ∈ names -> name_fits f = true.
Proof.
  intros H Hf. unfold names_ok in H. rewrite forallb_forall in H.
  apply list_elem_of_In, H, andb_true_iff in Hf. tauto.
Qed.
(** a rotated file does not get a name that is configured *)
Lemma dest_not_configured names f r a : names_ok names = true -> f ∈ names -> 0 <= a < TIME_END ->
  rotate_dest f r a ∉ names.
Proof.
  intros H Hf Ha Hin. rewrite rotate_dest_eq in Hin by (done || by eapply names_fit).
  unfold names_ok in H. rewrite forallb_forall in H. apply list_elem_of_In, H, andb_true_iff in Hf as [_ Hf].
  rewrite forallb_forall in Hf. apply list_elem_of_In, Hf in Hin.
  rewrite <- str_app_assoc in Hin. by rewrite starts_with_app in Hin.
Qed.
