(* ===== verification/CdrRecord.v ===== *)
(** * Reading a record

    What a record of the encoder holds, as somebody who reads it sees it: the
    layout of every record type says which element shows which column of the
    ticket and how, and a reader gets the values of the columns back. *)

From S2P Require Import Prelude CLib CLibProofs HuaweiBer CdrEnc BerProofs CdrEncProofs CdrProofs.
From Stdlib Require Import Ascii.

(** ** Hexadecimal digits *)

(** the halves of the octets *)
Definition nibbles (l : list Z) : list Z := concat (map (fun o => [o / 16; o mod 16]) l).
Definition value16 (acc : Z) (l : list Z) : Z := fold_left (fun a d => a * 16 + d) l acc.

Lemma nibbles_value l acc : value16 acc (nibbles l) = fold_left be_step l acc.
Proof.
  revert acc. induction l as [|o l IH]; intros acc; [done|]. cbn [map concat nibbles fold_left].
  unfold nibbles in IH. unfold value16 in *. cbn [map concat app fold_left]. rewrite IH. f_equal.
  unfold be_step. pose proof (Z.div_mod o 16). lia.
Qed.
Definition hex_pair (a b : ascii) : Z := u8 (Z.lor (Z.shiftl (nibble a) 4) (nibble b)).
Lemma nibbles_pairs l : Nat.even (length l) = true -> nibbles (pairs hex_pair l) = map nibble l.
Proof.
  remember (length l) as n eqn:En. revert l En. induction (lt_wf n) as [n _ IH].
  intros [|a [|b l]] -> He; [done|done|]. cbn [pairs map]. unfold nibbles in *. cbn [map concat app].
  rewrite (IH (length l)); [|cbn; lia|done|done]. unfold hex_pair.
  destruct (halves (nibble b) (nibble a)) as [-> ->]; [apply nibble_range..|done].
Qed.
Lemma hex_nibbles outl s : (1 <= String.length s <= 2 * outl)%nat -> (String.length s <= 126)%nat ->
  ber_hex_bytes outl s <> []
  /\ nibbles (ber_hex_bytes outl s)
     = (if Nat.odd (String.length s) then [0] else []) ++ map nibble (chars s).
Proof.
  intros H1 H2. unfold ber_hex_bytes. cbv zeta.
  rewrite (proj2 (Nat.eqb_neq _ _)), (proj2 (Nat.ltb_ge 128 _)), andb_false_r by lia. fold hex_pair.
  set (l := if Nat.odd _ then _ else _).
  assert (Hl : Nat.even (length l) = true /\ (2 <= length l <= 2 * outl)%nat
    /\ map nibble l = (if Nat.odd (String.length s) then [0] else []) ++ map nibble (chars s)).
  { unfold l. destruct (Nat.odd (String.length s)) eqn:Eo; cbn [length map app]; rewrite chars_length.
    - apply Nat.odd_spec in Eo as [k Ek]. rewrite Nat.even_succ, Ek, Nat.odd_odd.
      split_and!; [done|lia|lia|done].
    - rewrite <- Nat.negb_odd, Eo. split_and!; [done| |lia|done].
      destruct (String.length s) as [|[|k]]; [lia|done|lia]. }
  destruct Hl as (He & Hn & Em).
  assert (Hd : (length l / 2 <= outl)%nat) by (apply Nat.Div0.div_le_upper_bound; lia).
  rewrite (proj2 (Nat.ltb_ge _ _)) by done. rewrite <- Em. split; [|by apply nibbles_pairs].
  destruct l as [|a [|b l']]; cbn in *; [lia|lia|done].
Qed.

Lemma digits_rev16 k fuel n : 0 <= n < 16 ^ Z.of_nat k -> (1 <= k <= fuel)%nat ->
  Forall (fun d => 0 <= d < 16) (digits_rev fuel 16 n) /\ value16 0 (rev (digits_rev fuel 16 n)) = n
  /\ (1 <= length (digits_rev fuel 16 n) <= k)%nat.
Proof.
  revert fuel n. induction k as [|k IH]; intros [|fuel] n Hn Hk; try lia. cbn [digits_rev].
  destruct (Z.ltb_spec n 16) as [H|H].
  { split; [constructor; [lia|constructor]|]. cbn. split; [done|lia]. }
  destruct (decide (k = O)) as [->|Hk0]; [cbn in Hn; lia|].
  rewrite Nat2Z.inj_succ, Z.pow_succ_r in Hn by lia.
  assert (H16 : 0 <= n / 16 < 16 ^ Z.of_nat k).
  { split; [apply Z.div_pos; lia|]. apply Z.div_lt_upper_bound; lia. }
  destruct (IH fuel (n / 16) H16 ltac:(lia)) as (H1 & H2 & H3). split_and!.
  - constructor; [apply Z.mod_pos_bound; lia|done].
  - cbn [rev]. unfold value16 in *. rewrite fold_left_app, H2. cbn. pose proof (Z.div_mod n 16). lia.
  - cbn. lia.
  - cbn. lia.
Qed.
Lemma nibble_digit d : 0 <= d < 16 -> nibble (digit_chr d) = d.
Proof. intros H. apply Z.eqb_eq, (range_cases 16 (fun d => nibble (digit_chr d) =? d)); [by vm_compute|done]. Qed.
Lemma chars_of_list l : chars (of_chars l) = l.
Proof. induction l as [|c l IH]; [done|]. exact (f_equal (cons c) IH). Qed.

Lemma fmt_x_hex v : 0 <= v < 2 ^ 64 ->
  (1 <= String.length (fmt_x v) <= 16)%nat /\ value16 0 (map nibble (chars (fmt_x v))) = v.
Proof.
  intros Hv. destruct (digits_rev16 16 64 v) as (Hd & Ev & Hl); [done|lia|].
  assert (E : map nibble (chars (fmt_x v)) = digits_of 16 v).
  { unfold fmt_x, unsigned_str. rewrite chars_of_list, map_map. apply Forall_rev in Hd.
    fold (digits_of 16 v) in Hd. induction Hd as [|d l Hd _ IH]; [done|]. cbn [map].
    by rewrite nibble_digit, IH. }
  rewrite E. split; [|exact Ev].
  assert (El : String.length (fmt_x v) = length (map nibble (chars (fmt_x v)))) by (by rewrite length_map, chars_length).
  rewrite El, E. unfold digits_of. by rewrite length_rev.
Qed.
(** the octets of a number in hexadecimal have its value *)
Lemma hex_value v : 0 <= v < 2 ^ 64 ->
  let o := ber_hex_bytes 16 (strlcpy 32 (fmt_x v)) in o <> [] /\ be_value o = v.
Proof.
  intros Hv. destruct (fmt_x_hex v Hv) as [Hl Ev]. cbv zeta. rewrite strlcpy_all by lia.
  destruct (hex_nibbles 16 (fmt_x v)) as [Hn En]; [lia|lia|]. split; [done|].
  unfold be_value. rewrite <- nibbles_value, En. by destruct (Nat.odd _).
Qed.
Lemma hex16_value v : hex16 v <> [] /\ be_value (hex16 v) = v mod 65536.
Proof.
  assert (E : hex16 v = hex16 (v mod 65536)).
  { unfold hex16. change 0xffff with (Z.ones 16). rewrite !Z.land_ones by lia.
    change (2 ^ 16) with 65536. by rewrite Z.mod_mod. }
  rewrite E. set (n := v mod 65536). assert (Hn : 0 <= n < 65536) by (apply Z.mod_pos_bound; lia). clearbody n.
  pose proof (range_cases 65536 (fun n => match hex16 n with [] => false | l => be_value l =? n end)
    ltac:(by vm_compute) n Hn) as H. cbn beta in H. destruct (hex16 n) as [|o l]; [done|].
  split; [done|]. by apply Z.eqb_eq.
Qed.

(** ** Times *)

Definition zone (c : enc_cfg) : string := if str_nonempty (timezone c) then timezone c else "2b0000".
(** the octets of a time are whole *)
Definition zone_ok (c : enc_cfg) : bool :=
  Nat.even (String.length (zone c)) && Nat.leb (String.length (zone c)) 18.
(** no time, or the fourteen digits of one *)
Definition time_text (s : string) : bool :=
  str_empty s || Nat.eqb (String.length s) 14 && all_digits s.

Definition digit (c : ascii) : Z := chr_code c - 48.
Lemma digit_range c : is_digit c = true -> 0 <= digit c < 10.
Proof.
  intros H. pose proof (ascii_cases (fun c => if is_digit c then (0 <=? digit c) && (digit c <? 10) else true)
    ltac:(by vm_compute) c) as E. cbv beta in E. rewrite H in E. lia.
Qed.
Lemma two_digits a b : is_digit a = true -> is_digit b = true ->
  fmt_0d 2 (digit a * 10 + digit b) = String a (String b "").
Proof.
  intros Ha Hb. pose proof (ascii_cases (fun a => if is_digit a then
      forallb (fun b => if is_digit b then String.eqb (fmt_0d 2 (digit a * 10 + digit b)) (String a (String b "")) else true)
        (map chr_of (seqZ 0 256)) else true) ltac:(by vm_compute) a) as E. cbv beta in E. rewrite Ha in E.
  pose proof (ascii_cases _ E b) as Eb. cbv beta in Eb. rewrite Hb in Eb. by apply String.eqb_eq.
Qed.
Lemma two_ok a b : is_digit a = true -> is_digit b = true ->
  digits_ok 2 0 (String a (String b "")) (digit a * 10 + digit b) = true.
Proof.
  intros Ha Hb. unfold digit. cbn [digits_ok]. rewrite Ha, Hb. cbn [andb].
  apply Z.eqb_eq. lia.
Qed.

Lemma scan2 a b r : is_digit a = true -> is_digit b = true ->
  scan_d 2 (String a (String b r)) = Some (digit a * 10 + digit b, r).
Proof. intros Ha Hb. exact (scan_d_ok 1 (String a (String b "")) _ r (two_ok a b Ha Hb)). Qed.
Lemma scan4 a b c d r : is_digit a = true -> is_digit b = true -> is_digit c = true -> is_digit d = true ->
  scan_d 4 (String a (String b (String c (String d r))))
  = Some ((digit a * 10 + digit b) * 100 + (digit c * 10 + digit d), r).
Proof.
  intros Ha Hb Hc Hd. refine (scan_d_ok 3 (String a (String b (String c (String d "")))) _ r _).
  unfold digit. cbn [digits_ok]. rewrite Ha, Hb, Hc, Hd. cbn [andb]. apply Z.eqb_eq. lia.
Qed.
Lemma last_two y n : 0 <= y -> 0 <= n < 100 -> Z.rem (y * 100 + n - 1900 + 1900) 100 = n.
Proof.
  intros Hy Hn. replace (y * 100 + n - 1900 + 1900) with (n + y * 100) by lia.
  rewrite Z.rem_mod_nonneg, Z.mod_add, Z.mod_small by lia. done.
Qed.

(** the hexadecimal digits that become a time *)
Definition time_hex (utc : tm) (tz_hex : string) : string :=
  fmt_0d 2 (Z.rem (tm_year utc + 1900) 100) +:+ fmt_0d 2 (tm_mon utc + 1)
  +:+ fmt_0d 2 (tm_mday utc) +:+ fmt_0d 2 (tm_hour utc) +:+ fmt_0d 2 (tm_min utc)
  +:+ fmt_0d 2 (tm_sec utc) +:+ (if str_nonempty tz_hex then tz_hex else "2b0000").
Lemma time_text_hex s tz : time_text s = true -> str_empty s = false ->
  exists utc, ber_parse_csv_time s = Some utc /\ String.length (String.substring 2 12 s) = 12%nat
  /\ time_hex utc tz = String.substring 2 12 s +:+ (if str_nonempty tz then tz else "2b0000").
Proof.
  intros Ht Hne. unfold time_text in Ht. rewrite Hne in Ht. cbn [orb] in Ht. clear Hne.
  apply andb_true_iff in Ht as [Hl Hd]. apply Nat.eqb_eq in Hl.
  do 14 (destruct s as [|? s]; [cbn in Hl; lia|]). destruct s as [|? s]; [|cbn in Hl; lia]. clear Hl.
  cbn [all_digits] in Hd. rewrite !andb_true_iff in Hd. destruct_and! Hd.
  unfold ber_parse_csv_time. cbn [String.length Nat.ltb Nat.leb]. rewrite scan4, !scan2 by done.
  eexists. split; [reflexivity|]. split; [done|]. unfold time_hex.
  cbn [tm_year tm_mon tm_mday tm_hour tm_min tm_sec].
  pose proof (digit_range a ltac:(done)). pose proof (digit_range a0 ltac:(done)).
  pose proof (digit_range a1 ltac:(done)). pose proof (digit_range a2 ltac:(done)).
  rewrite last_two by lia. rewrite Z.sub_add, !two_digits by done. done.
Qed.

(** the twelve digits behind the century, and the zone *)
Lemma timestamp_digits c s : zone_ok c = true -> time_text s = true -> str_empty s = false ->
  exists utc, ber_parse_csv_time s = Some utc
  /\ ber_timestamp 16 utc (timezone c) <> []
  /\ nibbles (ber_timestamp 16 utc (timezone c)) = map nibble (chars (String.substring 2 12 s +:+ zone c)).
Proof.
  intros Hz Ht Hne. destruct (time_text_hex s (timezone c) Ht Hne) as (utc & E & Hl & Eh).
  exists utc. split; [done|]. apply andb_true_iff in Hz as [He Hz]. apply Nat.leb_le in Hz.
  fold (zone c) in Eh. set (d := String.substring 2 12 s) in *.
  change (ber_timestamp 16 utc (timezone c)) with (ber_hex_bytes 16 (strlcpy 32 (time_hex utc (timezone c)))).
  rewrite Eh. assert (Hn : String.length (d +:+ zone c) = (12 + String.length (zone c))%nat)
    by (by rewrite str_length_app, Hl).
  rewrite strlcpy_all by lia. destruct (hex_nibbles 16 (d +:+ zone c)) as [H1 H2]; [lia|lia|].
  split; [done|]. rewrite H2, Hn, Nat.odd_add, <- (Nat.negb_even (String.length _)), He. done.
Qed.

(** ** References *)

Lemma read_digits_nonneg base s seen acc : 0 <= base -> 0 <= acc -> 0 <= (read_digits base s seen acc).1.2.
Proof.
  intros Hb. revert seen acc. induction s as [|c s IH]; intros seen acc Ha; [done|]. cbn [read_digits].
  destruct (base_digit base c) as [d|] eqn:E; [|done]. apply IH.
  assert (0 <= d); [|nia]. unfold base_digit, digit_val in E. cbv zeta in E.
  repeat case_match; simplify_eq; lia.
Qed.
Lemma strtoul_range base s v rest : 0 <= base -> strtoul base s = Some (v, rest) -> 0 <= v < 2 ^ 64.
Proof.
  intros Hb. unfold strtoul, read_number. destruct (read_sign _) as [neg s1].
  pose proof (read_digits_nonneg base (skip_0x base s1) false 0 Hb ltac:(lia)) as H.
  destruct (read_digits _ _ _ _) as [[[] n] r]; [|done]. cbn in H. intros [= <- _].
  unfold ULONG_MAX, u64. destruct (Z.ltb_spec (2 ^ 64 - 1) n); [lia|].
  destruct neg; [apply Z.mod_pos_bound; lia|lia].
Qed.
Lemma callref_range s v : callref_value s = Some v -> 0 <= v < 2 ^ 64.
Proof.
  unfold callref_value. cbv zeta. set (t := match s with String _ _ => _ | _ => _ end).
  destruct (strtoul 16 t) as [[v1 r1]|] eqn:E1; [|]; destruct (strtoul 10 t) as [[v2 r2]|] eqn:E2.
  all: try (apply strtoul_range in E1; [|lia]); try (apply strtoul_range in E2; [|lia]).
  all: repeat case_match; intros; simplify_eq; lia.
Qed.

(** ** The layout of the records *)

(** how an element shows a value: packed digits, a number with its type, a
    time, an integer, a reference in hexadecimal, a text, the name of a route,
    a cell, and the cell of a location updating *)
Inductive kind : Type := Digits | Number | Time | Count | Ref | Text | Route | Cell | LuCell.
(** where the value is from: a column, the recording entity, the outgoing
    route, or the columns lac and ci *)
Inductive source : Type := Col (key : string) | Entity | Outgoing | Area.

Definition call_times (seizure answer release : Z) : list (Z * kind * source) :=
  [(seizure, Time, Col "seizure_time"); (answer, Time, Col "answer_time"); (release, Time, Col "release_time")].
Definition served (imsi : Z) : list (Z * kind * source) :=
  [(imsi, Digits, Col "served_imsi"); (imsi + 1, Digits, Col "served_imei"); (imsi + 2, Number, Col "served_msisdn")].
Definition area_ids : list (Z * kind * source) :=
  [(188, Text, Col "global_area_id"); (192, Digits, Col "first_mccmnc")].
Definition record_id : list (Z * kind * source) := [(232, Count, Col "record_number")].

Definition body_layout (type : Z) : list (Z * kind * source) :=
  match type with
  | 0 => (* mobile originating call *)
      served 1
      ++ [(4, Number, Col "calling_number"); (5, Number, Col "called_number");
          (6, Number, Col "translated_number"); (7, Number, Col "connected_number"); (9, Number, Entity);
          (10, Route, Col "incoming_route"); (11, Route, Outgoing); (12, Cell, Area)]
      ++ call_times 22 23 24
      ++ [(25, Count, Col "call_duration"); (30, Count, Col "cause_for_term");
          (32, Ref, Col "call_reference"); (38, Ref, Col "network_call_reference"); (39, Number, Entity);
          (61, Count, Col "system_type")]
      ++ area_ids
      ++ [(194, Digits, Col "last_mccmnc"); (201, Time, Col "setup_time"); (202, Time, Col "alerting_time")]
      ++ record_id
  | 1 => (* mobile terminating call *)
      served 1
      ++ [(4, Number, Col "calling_number"); (5, Number, Col "connected_number"); (6, Number, Entity);
          (7, Route, Col "incoming_route"); (8, Route, Outgoing); (9, Cell, Area)]
      ++ call_times 19 20 21
      ++ [(22, Count, Col "call_duration"); (27, Count, Col "cause_for_term");
          (29, Ref, Col "call_reference"); (33, Ref, Col "network_call_reference"); (34, Number, Entity);
          (46, Count, Col "system_type")]
      ++ area_ids
      ++ [(194, Digits, Col "last_mccmnc"); (203, Time, Col "setup_time"); (204, Time, Col "alerting_time");
          (205, Number, Col "called_number")]
      ++ record_id
  | 6 => (* mobile originating short message *)
      served 1
      ++ [(5, Number, Col "service_centre"); (6, Number, Entity); (7, Cell, Area);
          (9, Time, Col "origination_time"); (12, Number, Col "destination_number");
          (14, Count, Col "system_type")]
      ++ area_ids ++ [(201, Ref, Col "call_reference")] ++ record_id
  | 7 => (* mobile terminating short message *)
      [(1, Number, Col "service_centre")] ++ served 2
      ++ [(6, Number, Entity); (7, Cell, Area); (8, Time, Col "delivery_time"); (11, Count, Col "system_type")]
      ++ area_ids ++ [(201, Number, Col "origination"); (202, Ref, Col "call_reference")] ++ record_id
  | 10 => (* supplementary service *)
      served 1
      ++ [(5, Number, Entity); (6, Cell, Area); (10, Time, Col "seizure_time"); (13, Ref, Col "call_reference")]
      ++ record_id
  | 13 => (* location updating *)
      [(1, Digits, Col "served_imsi"); (2, Number, Col "served_msisdn"); (3, Number, Entity);
       (5, LuCell, Area); (7, Time, Col "seizure_time"); (12, Ref, Col "call_reference")]
      ++ record_id
  | _ => []
  end.
Definition layout (type : Z) : list (Z * kind * source) := (0, Count, Col "record_type") :: body_layout type.

(** ** Reading *)

Inductive content : Type :=
| VDigits (l : list ascii) | VNumber (l : list ascii) | VTime (l : list Z) | VCount (z : Z) | VRef (z : Z)
| VText (l : list ascii) | VCell (lac ci : Z).

Definition prim_data_of (t : tlv) : option (list Z) := if t_constr t then None else Some (t_data t).
(** the contents of the primitive elements with these tags, and nothing else *)
Definition parts (tags : list Z) (t : tlv) : option (list (list Z)) :=
  if t_constr t then
    l ← parse_tlvs (t_data t);
    if bool_decide (map (fun x => (t_class x, t_tag x)) l = map (fun g => (2, g)) tags)
    then mapM prim_data_of l else None
  else None.
Definition read_content (k : kind) (t : tlv) : option content :=
  match k with
  | Digits => VDigits ∘ tbcd_read <$> prim_data_of t
  | Number => match prim_data_of t with Some (0x91 :: l) => Some (VNumber (tbcd_read l)) | _ => None end
  | Time => VTime ∘ nibbles <$> prim_data_of t
  | Count => VCount ∘ int_value <$> prim_data_of t
  | Ref => VRef ∘ be_value <$> prim_data_of t
  | Text => VText ∘ map chr_of <$> prim_data_of t
  | Route => match parts [1] t with Some [l] => Some (VText (map chr_of l)) | _ => None end
  | Cell => match parts [0; 1] t with Some [l; m] => Some (VCell (be_value l) (be_value m)) | _ => None end
  | LuCell => match parts [2; 3] t with Some [l; m] => Some (VCell (be_value l) (be_value m)) | _ => None end
  end.
Definition kind_of (type tag : Z) : option kind :=
  match List.find (fun e => e.1.1 =? tag) (layout type) with Some e => Some e.1.2 | None => None end.
Definition read_elem (type : Z) (t : tlv) : option (Z * content) :=
  if t_class t =? 2 then
    k ← kind_of type (t_tag t); v ← read_content k t; Some (t_tag t, v)
  else None.
Definition read_record (t : tlv) : option (Z * list (Z * content)) :=
  l ← parse_tlvs (t_data t); es ← mapM (read_elem (t_tag t)) l; Some (t_tag t, es).

(** the records of a file and the number in its trailer *)
Definition read_file (octets : list Z) : option (list (Z * list (Z * content)) * option Z) :=
  match parse_file octets with
  | Some (_, rs, t) => l ← mapM read_record rs; Some (l, record_count t)
  | None => None
  end.

(** ** What the ticket says *)

Section ticket.
Context (c : enc_cfg) (r : row).

Definition source_text (s : source) : string :=
  match s with
  | Col key => row_get r key
  | Entity => digit_entity c r
  | Outgoing => route_for c (row_get r "called_number") (row_get r "outgoing_route")
  | Area => ""
  end.
(** the digits that can be packed *)
Definition number_digits (s : string) : list ascii := take TBCD_MAX (List.filter is_tbcd (chars s)).
Definition if_some {A : Type} (f : list A -> content) (l : list A) : option content :=
  match l with [] => None | _ => Some (f l) end.
Definition cell_ids : option content :=
  let lac := row_int r "lac" 0 in
  let ci := row_int r "ci" 0 in
  if (lac =? 0) && (ci =? 0) then None else Some (VCell (lac mod 65536) (ci mod 65536)).

(** what an element shows, if it is there *)
Definition shown (k : kind) (s : source) : option content :=
  let v := source_text s in
  match k with
  | Digits => if_some VDigits (number_digits v)
  | Number => if_some VNumber (number_digits v)
  | Time => if str_empty v then None
            else Some (VTime (map nibble (chars (String.substring 2 12 v +:+ zone c))))
  | Count => match s with Col key => Some (VCount (u32 (row_int r key 0))) | _ => None end
  | Ref => if str_empty v then None else VRef <$> callref_value v
  | Text | Route => if_some VText (chars v)
  | Cell | LuCell => cell_ids
  end.
Definition ticket_record : Z * list (Z * content) :=
  (record_type r, omap (fun e => (e.1.1,.) <$> shown e.1.2 e.2) (layout (record_type r))).

(** the type and the times of a ticket make sense *)
Definition times_ok : bool :=
  forallb (fun e => match e with (_, Time, s) => time_text (source_text s) | _ => true end)
    (layout (record_type r)).
Definition record_ok : bool := (0 <=? record_type r) && times_ok.
End ticket.

(** ** The elements that are written *)

Section elements.
Context (c : enc_cfg) (r : row) (type : Z).

(** a write adds the element that shows [o], or nothing *)
Definition adds_elem (tag : Z) (f : ber_buf -> ber_buf) (o : option content) : Prop :=
  exists l, Forall tlv_ok l /\ (forall b, bb_data (f b) = bb_data b ++ enc_tlvs l)
  /\ (Z.of_nat (length (enc_tlvs l)) < 2 ^ 64 ->
      mapM (read_elem type) l = Some (option_list ((tag,.) <$> o))).

Definition writes_kind (k : kind) (tag : Z) : Prop := kind_of type tag = Some k /\ 0 <= tag < 2 ^ 31.

Lemma adds_none tag : adds_elem tag (fun b => b) None.
Proof. exists []. split; [done|]. split; [intros b; by rewrite app_nil_r|done]. Qed.
Lemma adds_prim k tag data o : writes_kind k tag ->
  match data with
  | [] => o = None
  | _ => exists v, o = Some v /\ read_content k (mk_tlv 2 false tag data) = Some v
  end -> adds_elem tag (ber_ctx_prim tag data) o.
Proof.
  intros [Hk Ht] Ho. exists (field tag data). split; [by apply field_ok|].
  split; [intros b; apply prim_data|]. intros _. destruct data as [|d data]; [by rewrite Ho|].
  destruct Ho as (v & -> & Hv). unfold read_elem. cbn [field mapM]. cbn. rewrite Hk. cbn. by rewrite Hv.
Qed.
Lemma adds_wrap k tag inner ts v : writes_kind k tag -> bb_data inner = enc_tlvs ts -> ts <> [] ->
  (Z.of_nat (length (enc_tlvs ts)) < 2 ^ 64 -> read_content k (mk_tlv 2 true tag (enc_tlvs ts)) = Some v) ->
  adds_elem tag (ber_wrap_ctx tag inner) (Some v).
Proof.
  intros [Hk Ht] Ei Hne Hv. exists (wrapped tag (bb_data inner)). split; [by apply wrapped_ok|].
  split; [intros b; apply wrap_data|]. rewrite Ei, wrapped_some by done. intros Hl.
  pose proof (enc_tlvs_part (mk_tlv 2 true tag (enc_tlvs ts)) [_] (list_elem_of_here _ _)) as Hp.
  cbn [t_data] in Hp. unfold read_elem. cbn. rewrite Hk. cbn. rewrite Hv by lia. done.
Qed.

Lemma tbcd_empty s : ber_tbcd_digits 32 s = [] <-> number_digits s = [].
Proof.
  split; intros E.
  - unfold number_digits. rewrite <- (proj1 (tbcd_reads s)), E. done.
  - unfold ber_tbcd_digits. rewrite tbcd_hex_eq. fold (number_digits s). by rewrite E.
Qed.
Lemma adds_digits tag s : writes_kind Digits tag ->
  adds_elem tag (ber_ctx_tbcd tag s) (if_some VDigits (number_digits s)).
Proof.
  intros Hk. apply (adds_prim Digits); [done|]. destruct (tbcd_reads s) as [E _].
  pose proof (tbcd_empty s) as He. fold (number_digits s) in E.
  destruct (ber_tbcd_digits 32 s) as [|d l]; [by rewrite (proj1 He)|].
  unfold if_some. destruct (number_digits s) as [|a k] eqn:En; [by discriminate (proj2 He)|].
  eexists. split; [done|]. cbn. by rewrite <- E.
Qed.
Lemma adds_number tag s : writes_kind Number tag ->
  adds_elem tag (ber_ctx_isdn tag s) (if_some VNumber (number_digits s)).
Proof.
  intros Hk. apply (adds_prim Number); [done|]. destruct (tbcd_reads s) as [E Hl].
  pose proof (tbcd_empty s) as He. fold (number_digits s) in E. unfold ber_tbcd_number.
  destruct (ber_tbcd_digits 32 s) as [|d l]; [by rewrite (proj1 He)|].
  rewrite (proj2 (Nat.ltb_ge 33 _)) by lia.
  unfold if_some. destruct (number_digits s) as [|a k] eqn:En; [by discriminate (proj2 He)|].
  eexists. split; [done|]. cbn [read_content prim_data_of t_constr t_data]. by rewrite <- E.
Qed.
Lemma adds_count tag key : writes_kind Count tag ->
  adds_elem tag (ber_ctx_int tag (row_int r key 0)) (Some (VCount (u32 (row_int r key 0)))).
Proof.
  intros Hk. apply (adds_prim Count); [done|]. set (v := row_int r key 0).
  pose proof (encode_int_nonempty v (row_int_range r key 0 ltac:(lia))) as Hn.
  destruct (encode_int v) as [|o l] eqn:E; [done|]. eexists. split; [done|]. cbn [read_content prim_data_of t_constr t_data fmap option_fmap option_map compose].
  rewrite <- E, encode_int_value. done.
Qed.
Lemma chr_back s : map chr_of (map chr_code (chars s)) = chars s.
Proof.
  induction s as [|a s IH]; [done|].
  change (chr_of (chr_code a) :: map chr_of (map chr_code (chars s)) = a :: chars s). rewrite IH. f_equal.
  unfold chr_of, chr_code. by rewrite N2Z.id, ascii_N_embedding.
Qed.
Lemma adds_text tag s : writes_kind Text tag ->
  adds_elem tag (ber_ctx_ascii tag s) (if_some VText (chars s)).
Proof.
  intros Hk. apply (adds_prim Text); [done|]. destruct s as [|a s]; [done|].
  eexists. split; [done|]. exact (f_equal (fun l => Some (VText l)) (chr_back (String a s))).
Qed.
Lemma adds_time tag s : writes_kind Time tag -> zone_ok c = true -> time_text s = true ->
  adds_elem tag (ber_ctx_time_csv tag s (timezone c))
    (if str_empty s then None else Some (VTime (map nibble (chars (String.substring 2 12 s +:+ zone c))))).
Proof.
  intros Hk Hz Ht. destruct (str_empty s) eqn:Es.
  { destruct s; [|done]. apply adds_none. }
  destruct (timestamp_digits c s Hz Ht Es) as (utc & E & Hn & Ed). unfold ber_ctx_time_csv. rewrite E.
  apply (adds_prim Time); [done|]. destruct (ber_timestamp _ _ _) as [|o l]; [done|].
  eexists. split; [done|]. cbn. by rewrite <- Ed.
Qed.
Lemma adds_ref tag s : writes_kind Ref tag ->
  adds_elem tag (ber_ctx_callref tag s) (if str_empty s then None else VRef <$> callref_value s).
Proof.
  intros Hk. unfold ber_ctx_callref. destruct (str_empty s); [apply adds_none|].
  destruct (callref_value s) as [v|] eqn:E; [|apply adds_none].
  destruct (hex_value v (callref_range s v E)) as [Hn Ev]. apply (adds_prim Ref); [done|].
  destruct (ber_hex_bytes _ _) as [|o l]; [done|]. eexists. split; [done|].
  exact (f_equal (fun z => Some (VRef z)) Ev).
Qed.

Lemma parts_read tags tag ds : Forall (fun g => 0 <= g < 2 ^ 31) tags -> length ds = length tags ->
  let ts := zip_with (mk_tlv 2 false) tags ds in
  Z.of_nat (length (enc_tlvs ts)) < 2 ^ 64 ->
  parts tags (mk_tlv 2 true tag (enc_tlvs ts)) = Some ds.
Proof.
  intros Ht Hl ts Hn. unfold parts. cbn [t_constr t_data]. rewrite read_tlvs; [|..|done].
  2: { unfold ts. clear Hn ts. revert ds Hl. induction Ht as [|g tags Hg Ht IH]; intros [|d ds] Hl; try done.
       constructor; [split; cbn; lia|]. apply IH. by injection Hl. }
  cbn [mbind option_bind]. unfold ts. clear Hn ts. rewrite bool_decide_eq_true_2.
  - clear Ht. revert ds Hl. induction tags as [|g tags IH]; intros [|d ds] Hl; try done.
    cbn [zip_with mapM prim_data_of t_constr]. cbn. rewrite IH; [done|by injection Hl].
  - clear Ht. revert ds Hl. induction tags as [|g tags IH]; intros [|d ds] Hl; try done.
    cbn. f_equal. apply IH. by injection Hl.
Qed.
Lemma adds_route tag s : writes_kind Route tag ->
  adds_elem tag (write_route tag s) (if_some VText (chars s)).
Proof.
  intros Hk. unfold write_route. destruct s as [|a s]; [apply adds_none|].
  set (s' := String a s). change (str_empty s') with false. cbv iota.
  apply (adds_wrap Route tag _ [mk_tlv 2 false 1 (map chr_code (chars s'))] (VText (chars s'))); [done| |done|].
  { unfold ber_ctx_ascii. rewrite prim_data. done. }
  intros Hn.
  assert (Hp : parts [1] (mk_tlv 2 true tag (enc_tlvs [mk_tlv 2 false 1 (map chr_code (chars s'))]))
    = Some [map chr_code (chars s')]).
  { apply (parts_read [1] tag [map chr_code (chars s')]); [by repeat constructor|done|exact Hn]. }
  cbn [read_content]. by rewrite Hp, chr_back.
Qed.
Lemma adds_cell k t0 t1 tag : writes_kind k tag -> k = Cell /\ t0 = 0 /\ t1 = 1 \/ k = LuCell /\ t0 = 2 /\ t1 = 3 ->
  adds_elem tag (fun w =>
    let lac := row_int r "lac" 0 in
    let ci := row_int r "ci" 0 in
    if (lac =? 0) && (ci =? 0) then w
    else
      let inner := ber_ctx_prim t0 (hex16 lac) ber_init in
      let inner := ber_ctx_prim t1 (hex16 ci) inner in
      ber_wrap_ctx tag inner w) (cell_ids r).
Proof.
  intros Hk Hkind. unfold cell_ids. cbv zeta. set (lac := row_int r "lac" 0). set (ci := row_int r "ci" 0).
  destruct ((lac =? 0) && (ci =? 0)); [apply adds_none|].
  destruct (hex16_value lac) as [Hl El]. destruct (hex16_value ci) as [Hc Ec].
  apply (adds_wrap k tag _ [mk_tlv 2 false t0 (hex16 lac); mk_tlv 2 false t1 (hex16 ci)]); [done| |done|].
  { rewrite !prim_data. unfold field. destruct (hex16 lac), (hex16 ci); try done. cbn [ber_init bb_data app].
    by rewrite <- enc_tlvs_app. }
  intros Hn.
  assert (Hp : parts [t0; t1] (mk_tlv 2 true tag (enc_tlvs [mk_tlv 2 false t0 (hex16 lac); mk_tlv 2 false t1 (hex16 ci)]))
    = Some [hex16 lac; hex16 ci]).
  { apply (parts_read [t0; t1] tag [hex16 lac; hex16 ci]); [|done|exact Hn].
    destruct Hkind as [(_ & -> & ->)|(_ & -> & ->)]; by repeat constructor. }
  destruct Hkind as [(-> & -> & ->)|(-> & -> & ->)]; cbn [read_content]; by rewrite Hp, El, Ec.
Qed.
End elements.

(** ** A record shows its ticket *)

(** the lemma for a write *)
Ltac kind_known := split; [vm_compute; reflexivity|split; [discriminate|reflexivity]].
Ltac elem_shown :=
  lazymatch goal with
  | |- adds_elem _ _ (ber_ctx_tbcd _ _) _ => refine (adds_digits _ _ _ _); kind_known
  | |- adds_elem _ _ (ber_ctx_isdn _ _) _ => refine (adds_number _ _ _ _); kind_known
  | |- adds_elem _ _ (ber_ctx_int _ _) _ => refine (adds_count _ _ _ _ _); kind_known
  | |- adds_elem _ _ (ber_ctx_ascii _ _) _ => refine (adds_text _ _ _ _); kind_known
  | |- adds_elem _ _ (ber_ctx_callref _ _) _ => refine (adds_ref _ _ _ _); kind_known
  | |- adds_elem _ _ (write_route _ _) _ => refine (adds_route _ _ _ _); kind_known
  | |- adds_elem _ _ (ber_ctx_time_csv _ _ _) _ => refine (adds_time _ _ _ _ _ _ _); [kind_known|assumption|assumption]
  | |- adds_elem _ _ (write_location _ _) _ => refine (adds_cell _ _ Cell 0 1 _ _ _); [kind_known|by left]
  | |- adds_elem _ _ (write_lu_location _ _) _ => refine (adds_cell _ _ LuCell 2 3 _ _ _); [kind_known|by right]
  end.

Lemma fields_shown c r type : zone_ok c = true ->
  forallb (fun e => match e with (_, Time, s) => time_text (source_text c r s) | _ => true end)
    (layout type) = true ->
  Forall2 (fun f e => adds_elem type e.1.1 f (shown c r e.1.2 e.2)) (record_fields c r type) (body_layout type).
Proof.
  intros Hz Ht. unfold record_fields, layout, body_layout in *. repeat case_match; try apply Forall2_nil_2.
  all: unfold served, call_times, area_ids, record_id in *;
    cbn [app forallb source_text] in Ht |- *; rewrite ?andb_true_iff in Ht; destruct_and? Ht.
  all: repeat (apply Forall2_cons_2; [elem_shown|]); apply Forall2_nil_2.
Qed.

(** ** The file *)

Lemma mapM_append {A B : Type} (f : A -> option B) l k l' k' :
  mapM f l = Some l' -> mapM f k = Some k' -> mapM f (l ++ k) = Some (l' ++ k').
Proof.
  intros Hl Hk. apply mapM_Some in Hl, Hk. apply mapM_Some. by apply Forall2_app.
Qed.
Lemma all_shown c r type fs es :
  Forall2 (fun f e => adds_elem type e.1.1 f (shown c r e.1.2 e.2)) fs es ->
  exists l, Forall tlv_ok l /\ (forall b, bb_data (write_all fs b) = bb_data b ++ enc_tlvs l)
  /\ (Z.of_nat (length (enc_tlvs l)) < 2 ^ 64 ->
      mapM (read_elem type) l = Some (omap (fun e => (e.1.1,.) <$> shown c r e.1.2 e.2) es)).
Proof.
  induction 1 as [|f e fs es (l & Hl & Hf & Hr) _ (ls & Hls & Hfs & IH)].
  { exists []. split; [done|]. split; [intros b; by rewrite app_nil_r|done]. }
  exists (l ++ ls). split; [by apply Forall_app|]. split.
  - intros b. unfold write_all in *. cbn [fold_left]. by rewrite Hfs, Hf, enc_tlvs_app, app_assoc.
  - rewrite enc_tlvs_app, length_app. intros Hn. rewrite (mapM_append _ _ _ _ _ (Hr ltac:(lia)) (IH ltac:(lia))).
    cbn [omap list_omap]. by destruct (shown c r e.1.2 e.2).
Qed.

(** reading a record gives what its ticket says *)
Lemma record_reads c r : zone_ok c = true -> record_ok c r = true ->
  Z.of_nat (length (t_data (record_of c r))) < 2 ^ 64 ->
  read_record (record_of c r) = Some (ticket_record c r).
Proof.
  intros Hz [Ht Htime]%andb_true_iff Hn. unfold times_ok in Htime.
  pose proof (fields_shown c r (record_type r) Hz Htime) as Hf.
  assert (H0 : adds_elem (record_type r) 0 (ber_ctx_int 0 (record_type r)) (shown c r Count (Col "record_type"))).
  { apply adds_count. by split. }
  destruct (all_shown c r (record_type r) (ber_ctx_int 0 (record_type r) :: record_fields c r (record_type r))
    (layout (record_type r))) as (l & Hl & Hw & Hr); [by apply Forall2_cons_2|].
  assert (E : t_data (record_of c r) = enc_tlvs l) by exact (Hw ber_init).
  unfold read_record. rewrite E in *. rewrite read_tlvs by done. cbn [mbind option_bind].
  change (t_tag (record_of c r)) with (record_type r). by rewrite Hr.
Qed.

Lemma records_read c rows : zone_ok c = true -> Forall (fun r => record_ok c r = true) rows ->
  Z.of_nat (length (enc_tlvs (map (record_of c) rows))) < 2 ^ 64 ->
  mapM read_record (map (record_of c) rows) = Some (map (ticket_record c) rows).
Proof.
  intros Hz. induction 1 as [|r rows Hr _ IH]; intros Hn; [done|]. cbn [map] in *.
  pose proof (enc_tlvs_part (record_of c r) (record_of c r :: map (record_of c) rows) (list_elem_of_here _ _)) as Hp.
  change (enc_tlvs (record_of c r :: map (record_of c) rows))
    with (enc_tlvs ([record_of c r] ++ map (record_of c) rows)) in *.
  rewrite enc_tlvs_app, length_app in *. cbn [mapM]. rewrite record_reads by (done || lia).
  cbn [mbind option_bind]. rewrite IH by lia. done.
Qed.

(** the encoder makes of a file of tickets exactly what the tickets say; it
    fails only when there are none *)
Lemma encode_file_shows c f now : zone_ok c = true -> Forall (fun r => record_ok c r = true) (file_rows f) ->
  f <> [] ->
  match encode_file c (Some f) now true true with
  | (inl e, _) => e = ErrNoRows /\ file_rows f = []
  | (inr (_, octets), _) => Z.of_nat (length octets) < 2 ^ 31 ->
      read_file octets = Some (map (ticket_record c) (file_rows f), Some (Z.of_nat (length (file_rows f))))
  end.
Proof.
  intros Hz Hr Hf. destruct (encode_file c (Some f) now true true) as [[e|[path octets]] c'] eqn:E.
  - unfold encode_file, file_rows in *. destruct (fgets LINE_MAX_LEN f) as [[hl rest]|] eqn:Eg.
    + fold (cut_line hl) in E. revert E. set (hdr := split_csv _ _). set (lines := fgets_all _ _ _).
      destruct (encode_rows_eq c hdr lines) as [_ En]. destruct (Z.eqb_spec (ea_nrows (encode_rows c hdr lines)) 0) as [E0|];
        [|done]. intros [= <- _]. split; [done|]. apply nil_length_inv. lia.
    + unfold fgets in Eg. destruct f; [done|]. by destruct (fgets_chars _ _).
  - intros Hl. destruct (encode_file_reads _ _ _ _ _ _ E Hl) as (h & t & Hp & Hc & _ & Hlen).
    { eapply Forall_impl; [exact Hr|]. intros r [Ht _]%andb_true_iff. by apply Z.leb_le. }
    unfold read_file. rewrite Hp, records_read; [|done|done|lia]. cbn [mbind option_bind]. by rewrite Hc.
Qed.
