(* ===== verification/CdrFiles.v ===== *)
(** * The ticket files over a history

    Whatever is written, rotated, configured and taken away: every file holds
    the header and whole tickets in the order in which they were issued, and
    the encoder makes one record of each. *)

From S2P Require Import Prelude CLib CLibProofs HuaweiBer CdrEnc BerProofs CdrEncProofs.
From S2P Require Import Mncc VlrTypes MscCdr CdrProofs CdrRotate CdrRecord.
From Stdlib Require Import Ascii.

Section history.
Context {CL : CdrLib}.

(** ** Histories *)

Inductive cdr_cmd : Type :=
| CmdFilename (name : string) | CmdNoFilename | CmdTrap | CmdNoTrap
| CmdEntity (name : string) | CmdNoEntity | CmdInterval (arg : string) | CmdNoInterval
| CmdRotate (arg : string) | CmdNoRotate.

Definition run_cmd (now : Z) (c : cdr_cmd) : cdr_net -> cdr_net :=
  match c with
  | CmdFilename n => cfg_msc_cdr_filename now n
  | CmdNoFilename => cfg_msc_no_cdr_filename now
  | CmdTrap => cfg_msc_cdr_trap
  | CmdNoTrap => cfg_msc_no_cdr_trap
  | CmdEntity n => cfg_msc_cdr_recording_entity n
  | CmdNoEntity => cfg_msc_no_cdr_recording_entity
  | CmdInterval a => cfg_msc_cdr_interval a
  | CmdNoInterval => cfg_msc_no_cdr_interval
  | CmdRotate a => cfg_msc_cdr_rotate now a
  | CmdNoRotate => cfg_msc_no_cdr_rotate now
  end.

(** a ticket, the rotation timer, a command, or another process that takes a
    file out of the directory *)
Inductive cdr_op : Type :=
| OpRow (io : cdr_io) (vsub : option cdr_vsub) (trans : option cdr_trans) (msc_a : option cdr_msc_a) (k : ticket)
| OpRotate (io : cdr_io)
| OpCmd (now : Z) (c : cdr_cmd)
| OpTake (name : string).

Definition cdr_step (op : cdr_op) (net : cdr_net) : cdr_net :=
  match op with
  | OpRow io vsub trans msc_a k => emit_row io vsub trans msc_a k net
  | OpRotate io => cdr_rotate_cb io net
  | OpCmd now c => run_cmd now c net
  | OpTake name => net <| files ::= fun f => f <| fs_names ::= delete name |> |>
  end.
Fixpoint cdr_run (ops : list cdr_op) (net : cdr_net) : cdr_net :=
  match ops with [] => net | op :: ops => cdr_run ops (cdr_step op net) end.

(** the tickets that are to go to a file *)
Definition op_issues (op : cdr_op) (net : cdr_net) : list (list string) :=
  match op, filename net with
  | OpRow _ vsub trans msc_a k, Some _ => [row_fields net vsub trans msc_a k]
  | _, _ => []
  end.
Fixpoint issued (ops : list cdr_op) (net : cdr_net) : list (list string) :=
  match ops with [] => [] | op :: ops => op_issues op net ++ issued ops (cdr_step op net) end.

(** whether the file could be opened, and what was printed reached it *)
Definition op_open_ok (op : cdr_op) : bool :=
  match op with OpRow io _ _ _ _ => io_open io | _ => true end.
Definition op_flush_ok (op : cdr_op) : bool :=
  match op with OpRow io _ _ _ _ => io_flush io | _ => true end.

(** a clock that is not set back, from [from] to the year 9999 *)
Definition op_time (op : cdr_op) : option Z :=
  match op with
  | OpRow io _ _ _ _ | OpRotate io => Some (io_now io)
  | OpCmd now _ => Some now
  | OpTake _ => None
  end.
Fixpoint clock_ok (from : Z) (ops : list cdr_op) : bool :=
  match ops with
  | [] => true
  | op :: ops =>
      match op_time op with
      | None => clock_ok from ops
      | Some t => (from <=? t) && (t <? TIME_END) && clock_ok t ops
      end
  end.

(** the names of files that are configured at the start or later *)
Definition op_names (op : cdr_op) : list string :=
  match op with OpCmd _ (CmdFilename n) => [n] | _ => [] end.
Definition names_of (ops : list cdr_op) (net : cdr_net) : list string :=
  option_list (filename net) ++ concat (map op_names ops).

(** the files that were taken out of the directory *)
Definition op_takes (op : cdr_op) (net : cdr_net) : list nat :=
  match op with OpTake name => option_list (fs_names (files net) !! name) | _ => [] end.
Fixpoint taken (ops : list cdr_op) (net : cdr_net) : list nat :=
  match ops with [] => [] | op :: ops => op_takes op net ++ taken ops (cdr_step op net) end.

Record history_ok (ops : list cdr_op) (net : cdr_net) : Prop := {
  ho_tickets : Forall ticket_ok (issued ops net);
  ho_flush : forallb op_flush_ok ops = true;
  ho_clock : clock_ok 1 ops = true;
  ho_names : names_ok (names_of ops net) = true
}.

(** ** The invariant

    [log]: the tickets that were written, each with the inode of its file;
    [gone]: the files that were taken. *)
Notation log_t := (list (nat * list string)).

Definition of_inode (i : nat) (log : log_t) : list (list string) :=
  omap (fun p => if decide (p.1 = i) then Some p.2 else None) log.

Record files_ok (gone : list nat) (log : log_t) (f : filesys) (h : option nat) : Prop := {
  fo_data i c : fs_data f !! i = Some c -> c = ticket_file (of_inode i log);
  fo_names nm i : fs_names f !! nm = Some i -> is_Some (fs_data f !! i);
  fo_next i : is_Some (fs_data f !! i) -> (i < fs_next f)%nat;
  fo_open i : h = Some i -> is_Some (fs_data f !! i);
  fo_log p : p ∈ log -> is_Some (fs_data f !! p.1);
  fo_kept i : is_Some (fs_data f !! i) -> i ∈ gone \/ exists nm, fs_names f !! nm = Some i
}.

(** a name that was given by a rotation in an earlier period *)
Definition rotated (names : list string) (anchor : Z) (nm : string) : Prop :=
  exists f r a, f ∈ names /\ 0 <= a /\ nm = rotate_dest f r a /\ a / period r < anchor / period r.
Record names_inv (names : list string) (now : Z) (net : cdr_net) : Prop := {
  ni_file fname : filename net = Some fname -> fname ∈ names;
  ni_anchor : 0 <= rotate_anchor net <= now;
  ni_names nm i : fs_names (files net) !! nm = Some i -> nm ∈ names \/ rotated names (rotate_anchor net) nm
}.

Lemma of_inode_app i l1 l2 : of_inode i (l1 ++ l2) = of_inode i l1 ++ of_inode i l2.
Proof. apply omap_app. Qed.
Lemma of_inode_none i log : (forall p, p ∈ log -> p.1 <> i) -> of_inode i log = [].
Proof.
  induction log as [|p log IH]; intros H; [done|]. unfold of_inode in *. cbn.
  rewrite decide_False by (apply H; left). apply IH. intros q Hq. apply H. by right.
Qed.
Lemma ticket_file_snoc ts t :
  ticket_file (ts ++ [t]) = ticket_file ts ++ chars (ticket_line t +:+ String NL "").
Proof.
  unfold ticket_file, file_of. rewrite map_app, map_app, concat_app, chars_app, <- app_assoc. cbn. by rewrite app_nil_r.
Qed.
(** a file is never empty once something was flushed *)
Lemma ticket_file_size ts : Nat.eqb (length (ticket_file ts)) 0 = false.
Proof. unfold ticket_file. rewrite length_app. by destruct (length (file_of _)). Qed.

(** ** Names *)

Lemma names_later names now now' net : now <= now' -> names_inv names now net -> names_inv names now' net.
Proof. intros Hn [H1 H2 H3]. split; [done|lia|done]. Qed.
Lemma rotated_later names a a' nm : a <= a' -> rotated names a nm -> rotated names a' nm.
Proof.
  intros Ha (f & r & b & Hf & Hb & E & Hlt). exists f, r, b. split_and!; try done.
  pose proof (Z.div_le_mono a a' (period r) (period_pos r) Ha). lia.
Qed.
(** the new name of a rotated file is not in use *)
Lemma dest_fresh names now net fname r : names_ok names = true -> names_inv names now net -> now < TIME_END ->
  filename net = Some fname -> fs_names (files net) !! rotate_dest fname r (rotate_anchor net) = None.
Proof.
  intros Hok [H1 H2 H3] Hn Hf. apply H1 in Hf. apply eq_None_not_Some. intros [i Hi].
  destruct (H3 _ _ Hi) as [Hin|(g & r' & a & Hg & Ha & E & Hlt)].
  - revert Hin. apply dest_not_configured; [done|done|lia].
  - assert (a < rotate_anchor net).
    { destruct (Z.lt_ge_cases a (rotate_anchor net)) as [|Hge]; [done|].
      pose proof (Z.div_le_mono _ _ (period r') (period_pos r') Hge). lia. }
    apply rotate_dest_inj in E as (_ & Ep & Eb); [|by eapply names_fit..|lia|lia].
    rewrite Ep in Eb. lia.
Qed.

(** ** Files *)

Lemma closed_ok gone log f h : files_ok gone log f h -> files_ok gone log f None.
Proof. intros []. by split. Qed.
Lemma rename_ok gone log old new f h : fs_names f !! new = None -> files_ok gone log f h ->
  files_ok gone log (fs_rename old new f) h.
Proof.
  intros Hnew H. unfold fs_rename. rewrite Hnew. destruct (fs_names f !! old) as [i|] eqn:E; [|done].
  destruct H as [H1 H2 H3 H4 H5 H6]. split; try done.
  - intros nm j. cbn. rewrite lookup_insert_Some.
    intros [[_ <-]|[_ Hj]]; [by apply (H2 old)|]. apply lookup_delete_Some in Hj as [_ Hj]. by apply (H2 nm).
  - intros j Hj. destruct (H6 j Hj) as [|[nm Hnm]]; [by left|right]. cbn.
    destruct (decide (nm = old)) as [->|Hne].
    + exists new. rewrite lookup_insert_eq. congruence.
    + exists nm. rewrite lookup_insert_ne, lookup_delete_ne by congruence. done.
Qed.
Lemma take_ok gone log nm f h : files_ok gone log f h ->
  files_ok (gone ++ option_list (fs_names f !! nm)) log (f <| fs_names ::= delete nm |>) h.
Proof.
  intros [H1 H2 H3 H4 H5 H6]. split; try done.
  - intros nm' i. cbn. intros [_ E]%lookup_delete_Some. by apply (H2 nm').
  - intros i Hi. cbn. rewrite elem_of_app. destruct (H6 i Hi) as [|[n Hn]]; [tauto|].
    destruct (decide (n = nm)) as [->|Hne].
    + left. right. rewrite Hn. by left.
    + right. exists n. by rewrite lookup_delete_ne.
Qed.

(** ** Appending *)

Lemma fs_append_data i s f c : fs_data f !! i = Some c ->
  fs_data (fs_append i s f) = <[i := c ++ chars s]> (fs_data f).
Proof. intros H. exact (f_equal (fun o => <[i := default [] o ++ chars s]> (fs_data f)) H). Qed.
Lemma fs_eq n d x n' d' x' : n = n' -> d = d' -> x = x' -> mk_fs n d x = mk_fs n' d' x'.
Proof. by intros -> -> ->. Qed.
(** what is flushed at once is what would be there after two flushes *)
Lemma fs_append_app i s t f c : fs_data f !! i = Some c ->
  fs_append i (s +:+ t) f = fs_append i t (fs_append i s f).
Proof.
  intros H. refine (fs_eq _ _ _ _ _ _ eq_refl _ eq_refl).
  pose proof (fs_append_data i s f c H) as E.
  assert (E2 : fs_data (fs_append i s f) !! i = Some (c ++ chars s)) by (rewrite E; apply lookup_insert_eq).
  etransitivity; [exact (fs_append_data i (s +:+ t) f c H)|].
  etransitivity; [|symmetry; exact (fs_append_data i t _ _ E2)].
  by rewrite E, insert_insert_eq, chars_app, app_assoc.
Qed.
Lemma fs_append_nil i f c : fs_data f !! i = Some c -> fs_append i "" f = f.
Proof.
  intros H. refine (fs_eq _ _ _ _ _ _ eq_refl _ eq_refl).
  etransitivity; [exact (fs_append_data i "" f c H)|]. rewrite app_nil_r. by apply insert_id.
Qed.

Lemma append_ok gone log i t f : files_ok gone log f (Some i) ->
  files_ok gone (log ++ [(i, t)]) (fs_append i (ticket_line t +:+ String NL "") f) (Some i).
Proof.
  intros [H1 H2 H3 H4 H5 H6]. destruct (H4 i eq_refl) as [c Hc].
  set (s := ticket_line t +:+ String NL ""). pose proof (fs_append_data i s f c Hc) as Ed.
  set (f' := fs_append i s f) in *.
  assert (Hup : forall j, is_Some (fs_data f !! j) <-> is_Some (fs_data f' !! j)).
  { intros j. rewrite Ed.
    destruct (decide (i = j)) as [<-|]; [by rewrite lookup_insert_eq, Hc|by rewrite lookup_insert_ne]. }
  split.
  - intros j d. rewrite Ed, of_inode_app, lookup_insert_Some. intros [[<- <-]|[Hne Hj]].
    + unfold of_inode at 2. cbn [omap list_omap fst snd]. rewrite decide_True by done.
      rewrite ticket_file_snoc, (H1 _ _ Hc). done.
    + unfold of_inode at 2. cbn [omap list_omap fst snd]. rewrite decide_False, app_nil_r by done. by apply H1.
  - intros nm j Hj. by apply Hup, (H2 nm).
  - intros j Hj. by apply H3, Hup.
  - intros j [= <-]. apply Hup. by rewrite Hc.
  - intros p [Hp| ->%list_elem_of_singleton]%elem_of_app; apply Hup; [by apply H5|cbn; by rewrite Hc].
  - intros j Hj. by apply H6, Hup.
Qed.

(** a new file with its header *)
Lemma new_file_ok gone log nm f : fs_names f !! nm = None -> files_ok gone log f None ->
  let i := fs_next f in
  files_ok gone log (mk_fs (<[nm := i]> (fs_names f)) (<[i := chars cdr_header]> (fs_data f)) (S i)) (Some i).
Proof.
  intros Hnm [H1 H2 H3 _ H5 H6] i.
  assert (Hi : fs_data f !! i = None).
  { apply eq_None_not_Some. intros Hi. apply H3 in Hi. unfold i in Hi. lia. }
  assert (Hup : forall j, is_Some (fs_data f !! j) -> is_Some (<[i := chars cdr_header]> (fs_data f) !! j)).
  { intros j Hj. destruct (decide (i = j)) as [<-|]; [by rewrite lookup_insert_eq|by rewrite lookup_insert_ne]. }
  split; cbn.
  - intros j c. rewrite lookup_insert_Some. intros [[<- <-]|[_ Hj]]; [|by apply H1].
    rewrite of_inode_none; [unfold ticket_file; cbn; by rewrite app_nil_r|].
    intros p Hp Hpi. apply H5 in Hp. rewrite Hpi, Hi in Hp. by destruct Hp.
  - intros n j. rewrite lookup_insert_Some. intros [[_ <-]|[_ Hj]]; [by rewrite lookup_insert_eq|].
    by apply Hup, (H2 n).
  - intros j. destruct (decide (i = j)) as [<-|]; [unfold i; lia|].
    rewrite lookup_insert_ne by done. intros Hj. apply H3 in Hj. lia.
  - intros j [= <-]. by rewrite lookup_insert_eq.
  - intros p Hp. by apply Hup, H5.
  - intros j. destruct (decide (i = j)) as [<-|]; [right; exists nm; apply lookup_insert_eq|].
    rewrite lookup_insert_ne by done. intros Hj. destruct (H6 j Hj) as [|[nm' Hn]]; [by left|right].
    exists nm'. rewrite lookup_insert_ne by congruence. done.
Qed.

(** ** Steps *)

Section names.
Context (names : list string) (Hnames : names_ok names = true).

Definition net_ok (now : Z) (gone : list nat) (log : log_t) (net : cdr_net) : Prop :=
  files_ok gone log (files net) (fh net) /\ names_inv names now net.

Lemma names_same now net net' : names_inv names now net -> filename net' = filename net ->
  rotate_anchor net' = rotate_anchor net -> fs_names (files net') = fs_names (files net) ->
  names_inv names now net'.
Proof. intros [H1 H2 H3] E1 E2 E3. split; rewrite ?E1, ?E2, ?E3; done. Qed.
(** the anchor moves on *)
Lemma anchor_ok now net : names_inv names now net -> names_inv names now (net <| rotate_anchor := now |>).
Proof.
  intros [H1 H2 H3]. split; [exact H1|cbn; lia|]. intros nm i Hnm.
  destruct (H3 nm i Hnm) as [|Hr]; [by left|right]. exact (rotated_later _ _ _ _ (proj2 H2) Hr).
Qed.
(** the name of a file that is rotated *)
Lemma renamed_ok now net fname : names_inv names now net -> filename net = Some fname ->
  rotate_anchor net / period (rotate net) < now / period (rotate net) ->
  names_inv names now
    (net <| files ::= fs_rename fname (rotate_dest fname (rotate net) (rotate_anchor net)) |>
         <| rotate_anchor := now |>).
Proof.
  intros Hi Hf Hlt. pose proof (anchor_ok now net Hi) as Ha. destruct Hi as [H1 H2 H3].
  split; [exact H1|cbn; lia|]. intros nm i. cbn. unfold fs_rename.
  assert (Hd : rotated names now (rotate_dest fname (rotate net) (rotate_anchor net))).
  { exists fname, (rotate net), (rotate_anchor net). split_and!; [by apply H1|lia|done|done]. }
  set (dest := rotate_dest _ _ _) in *.
  assert (Hmove : forall j, <[dest := j]> (delete fname (fs_names (files net))) !! nm = Some i ->
    nm ∈ names \/ rotated names now nm).
  { intros j. rewrite lookup_insert_Some. intros [[<- _]|[_ [_ Hj]%lookup_delete_Some]]; [by right|].
    by apply (ni_names _ _ _ Ha nm i). }
  destruct (fs_names (files net) !! fname) as [j|]; [|apply (ni_names _ _ _ Ha)].
  destruct (fs_names (files net) !! dest) as [k|]; [|apply Hmove].
  destruct (Nat.eqb j k); [apply (ni_names _ _ _ Ha)|apply Hmove].
Qed.

Lemma rotate_ok now gone log io net : net_ok now gone log net -> now <= io_now io < TIME_END ->
  net_ok (io_now io) gone log (cdr_maybe_rotate io net)
  /\ filename (cdr_maybe_rotate io net) = filename net.
Proof.
  intros [H Hi] Hn. apply (names_later _ _ (io_now io)) in Hi; [|lia].
  unfold cdr_maybe_rotate. destruct (filename net) as [fname|] eqn:Ef; [|by split].
  destruct (match rotate net with MSC_CDR_ROTATE_NONE => true | _ => false end) eqn:Er;
    [destruct (rotate net); [by split; [|exact Ef]|done..]|].
  pose proof (anchor_ok _ _ Hi) as Ha. pose proof (ni_anchor _ _ _ Hi) as Hz.
  pose proof (elapsed_period (rotate net) (io_now io) (rotate_anchor net) ltac:(lia)) as Hel.
  pose proof (renamed_ok _ net fname Hi Ef) as Hren.
  pose proof (dest_fresh names _ net fname (rotate net) Hnames Hi ltac:(lia) Ef) as Hfresh.
  pose proof (rename_ok _ _ fname _ _ _ Hfresh H) as Hmoved.
  destruct (rotate net) eqn:Er'; [done|..]; rewrite <- Er' in *.
  all: destruct (_ =? 0); [split; [split; [exact H|exact Ha]|exact Ef]|].
  all: destruct (cdr_period_elapsed _ _ _); cbn [negb]; [specialize (Hren (Hel eq_refl))|by split; [|exact Ef]].
  all: destruct (io_rename io); (split; [split; [eapply closed_ok; eassumption|]|exact Ef]).
  all: first [solve [apply (names_same _ _ _ Hren); done]|solve [apply (names_same _ _ _ Ha); done]].
Qed.

(** what opening a file leaves; [buffer] is still to be flushed *)
Lemma file_ok now gone log io fname net : net_ok now gone log net -> fname ∈ names ->
  match cdr_file io fname net with
  | (None, net') => net' = net /\ io_open io = false
  | (Some (i, buffer), net') =>
      is_Some (fs_data (files net') !! i) /\ fh net' = Some i
      /\ files_ok gone log (fs_append i buffer (files net')) (Some i) /\ names_inv names now net'
  end.
Proof.
  intros [H Hi] Hf. unfold cdr_file. destruct (fh net) as [i|] eqn:Eh.
  { destruct (fo_open _ _ _ _ H i eq_refl) as [c Hc]. rewrite (fs_append_nil _ _ c Hc). by split_and!. }
  destruct (io_open io); cbn [negb]; [|done].
  unfold fs_open_append. destruct (fs_names (files net) !! fname) as [i|] eqn:En.
  - destruct (fo_names _ _ _ _ H _ _ En) as [c Hc].
    assert (Es : fs_size i (files net) = length (ticket_file (of_inode i log))).
    { unfold fs_size. rewrite Hc. exact (f_equal length (fo_data _ _ _ _ H _ _ Hc)). }
    unfold maybe_print_header. rewrite Es, ticket_file_size.
    split_and!; [by exists c|done| |by apply (names_same _ _ _ Hi)].
    change (files (_ <| files := files net |>)) with (files net). rewrite (fs_append_nil _ _ c Hc).
    destruct H as [H1 H2 H3 _ H5 H6]. split; try done. intros j [= <-]. by exists c.
  - set (i := fs_next (files net)). set (f := mk_fs _ _ _).
    assert (Ed : fs_data f !! i = Some []) by apply lookup_insert_eq.
    assert (Es : fs_size i f = 0%nat) by (unfold fs_size; by rewrite Ed).
    unfold maybe_print_header. rewrite Es. cbn [Nat.eqb].
    split_and!; [by exists []|done| |].
    + assert (Ea : fs_append i cdr_header f = mk_fs (fs_names f) (<[i := chars cdr_header]> (fs_data (files net))) (S i)).
      { refine (fs_eq _ _ _ _ _ _ eq_refl _ eq_refl).
        etransitivity; [exact (fs_append_data i cdr_header f [] Ed)|apply insert_insert_eq]. }
      change (files (_ <| files := f |>)) with f. rewrite Ea. by apply new_file_ok.
    + destruct Hi as [I1 I2 I3]. split; [exact I1|exact I2|]. intros nm j. cbn.
      rewrite lookup_insert_Some. intros [[<- _]|[_ Hj]]; [by left|]. exact (I3 nm j Hj).
Qed.

Lemma schedule_ok now gone log t net : net_ok now gone log net -> net_ok now gone log (schedule_rotate t net).
Proof.
  intros [H Hi]. unfold schedule_rotate. destruct (filename net) eqn:Ef, (rotate net) eqn:Er; try done;
    (split; [exact H|]; by apply (names_same _ net)).
Qed.
Lemma reconfigure_ok now gone log t net : net_ok now gone log net ->
  net_ok now gone log (msc_cdr_reconfigure t net).
Proof.
  intros [H Hi]. apply schedule_ok. split; [exact (closed_ok _ _ _ _ H)|by apply (names_same _ net)].
Qed.
Lemma cmd_ok now gone log t c net : net_ok now gone log net -> Forall (.∈ names) (op_names (OpCmd t c)) ->
  net_ok now gone log (run_cmd t c net).
Proof.
  intros [H Hi] Hc. destruct c; try (split; [exact H|by apply (names_same _ net)]);
    apply reconfigure_ok; (split; [exact H|]); try (by apply (names_same _ net)).
  - destruct Hi as [_ I2 I3]. split; [|exact I2|exact I3]. intros fname [= <-]. by apply Forall_inv in Hc.
  - destruct Hi as [_ I2 I3]. split; [|exact I2|exact I3]. intros fname [=].
Qed.

Lemma trap_ok now gone log (line : string) net : net_ok now gone log net ->
  let net1 := if trap net && have_ctrl net then net <| traps ::= fun l => l ++ [line] |> else net in
  net_ok now gone log net1 /\ filename net1 = filename net.
Proof.
  intros [H Hi]. cbv zeta. destruct (trap net && have_ctrl net); [|done].
  split; [|done]. split; [exact H|by apply (names_same _ net)].
Qed.

(** what a ticket adds to the log *)
Lemma write_line_ok now gone log io t net : net_ok now gone log net -> now <= io_now io < TIME_END ->
  io_flush io = true ->
  exists l, net_ok (io_now io) gone (log ++ l) (cdr_write_line io (ticket_line t) net)
  /\ match filename net with
     | None => l = []
     | Some _ => (exists i, l = [(i, t)]) \/ l = [] /\ io_open io = false
     end.
Proof.
  intros H Hn Hfl. unfold cdr_write_line. destruct (trap_ok _ _ log (ticket_line t) net H) as [H1 Ef].
  set (net1 := if _ && _ then _ else net) in *. clearbody net1. rewrite <- Ef. clear Ef H net.
  destruct (filename net1) as [fname|] eqn:Ef.
  2: { exists []. rewrite app_nil_r. split; [|done]. destruct H1 as [H1 Hi].
       split; [done|]. apply (names_later _ now); [lia|done]. }
  destruct (rotate_ok _ _ _ io _ H1 Hn) as [H2 Ef2]. rewrite Ef in Ef2.
  pose proof (file_ok _ _ _ io fname _ H2 (ni_file _ _ _ (proj2 H2) _ Ef2)) as H3.
  destruct (cdr_file io fname (cdr_maybe_rotate io net1)) as [[[i buffer]|] net2].
  2: { destruct H3 as [-> Ho]. exists []. rewrite app_nil_r. split; [done|by right]. }
  destruct H3 as ([c Hc] & Eh & H3 & Hi). rewrite Hfl. cbv zeta.
  exists [(i, t)]. split; [|left; by exists i]. split; [|by apply (names_same _ net2)].
  pose proof (append_ok _ _ i t _ H3) as H4. rewrite <- (fs_append_app _ _ _ _ c Hc) in H4.
  exact (eq_ind_r (files_ok _ _ (fs_append i _ (files net2))) H4 Eh).
Qed.

Lemma line_kept t : ticket_ok t -> strlcpy CDR_LINE_MAX (String.concat "," t) = ticket_line t.
Proof. intros (_ & _ & [_ Hl] & _). apply strlcpy_all. unfold LINE_MAX_LEN, CDR_LINE_MAX in *. lia. Qed.

(** what a step may add to the log *)
Definition adds (now : Z) (gone : list nat) (log : log_t) (op : cdr_op) (net : cdr_net) : Prop :=
  exists l, net_ok (default now (op_time op)) (gone ++ op_takes op net) (log ++ l) (cdr_step op net)
  /\ sublist (map snd l) (op_issues op net)
  /\ (op_open_ok op = true -> map snd l = op_issues op net).

Lemma adds_nothing now gone log op net : op_issues op net = [] ->
  net_ok (default now (op_time op)) (gone ++ op_takes op net) log (cdr_step op net) -> adds now gone log op net.
Proof. intros E H. exists []. rewrite app_nil_r, E. by split_and!. Qed.

(** a line that only goes to the control interface *)
Lemma write_off_ok now gone log io line net : filename net = None -> net_ok now gone log net ->
  now <= io_now io -> net_ok (io_now io) gone log (cdr_write_line io line net).
Proof.
  intros Ef H Hn. unfold cdr_write_line. destruct (trap_ok _ _ log line net H) as [[H1 Hi] E1].
  set (net1 := if _ && _ then _ else net) in *. clearbody net1. rewrite Ef in E1.
  rewrite E1. split; [done|]. by apply (names_later _ now).
Qed.

Lemma row_ok now gone log io vsub trans msc_a k net : net_ok now gone log net ->
  now <= io_now io < TIME_END -> io_flush io = true ->
  Forall ticket_ok (op_issues (OpRow io vsub trans msc_a k) net) ->
  adds now gone log (OpRow io vsub trans msc_a k) net.
Proof.
  intros H Hn Hfl Hok. set (net1 := net <| next_record_number ::= fun n => u64 (n + 1) |>).
  assert (H' : net_ok now gone log net1).
  { destruct H as [H Hi]. split; [exact H|by apply (names_same _ net)]. }
  assert (Hen : cdr_enabled net = match filename net with Some _ => true | None => trap net end) by done.
  assert (Es : cdr_step (OpRow io vsub trans msc_a k) net
    = if negb (cdr_enabled net) then net
      else cdr_write_line io (strlcpy CDR_LINE_MAX (String.concat "," (row_fields net vsub trans msc_a k))) net1) by done.
  destruct (filename net) as [fname|] eqn:Ef.
  - unfold adds, op_issues in *. rewrite Ef in *. rewrite Es, Hen. cbn [negb op_time op_takes default].
    rewrite Forall_singleton in Hok. rewrite (line_kept _ Hok), app_nil_r.
    destruct (write_line_ok _ _ log io (row_fields net vsub trans msc_a k) net1 H' Hn Hfl) as (l & Hl & Hc).
    change (filename net1) with (filename net) in Hc. rewrite Ef in Hc.
    exists l. split; [exact Hl|]. cbn [op_open_ok].
    destruct Hc as [[i ->]|[-> ->]]; cbn [map snd]; (split; [|done]); [done|apply sublist_nil_l].
  - apply adds_nothing; [unfold op_issues; by rewrite Ef|]. rewrite Es, Hen.
    change (default now (op_time _)) with (io_now io). cbn [op_takes]. rewrite app_nil_r.
    destruct (trap net); cbn [negb]; [apply (write_off_ok now); [exact Ef|done|lia]|].
    destruct H as [H Hi]. split; [done|]. apply (names_later _ now); [lia|done].
Qed.

Lemma step_ok now gone log op net : net_ok now gone log net -> Forall ticket_ok (op_issues op net) ->
  op_flush_ok op = true -> Forall (.∈ names) (op_names op) ->
  (forall t, op_time op = Some t -> now <= t < TIME_END) -> adds now gone log op net.
Proof.
  intros H Hok Hfl Hnm Hn. destruct op as [io vsub trans msc_a k|io|t c|nm]; [by apply row_ok; auto|..];
    (apply adds_nothing; [done|]); cbn [op_takes cdr_step]; rewrite ?app_nil_r.
  - apply schedule_ok, (rotate_ok now); [|by apply Hn].
    destruct H as [H Hi]. split; [exact H|by apply (names_same _ net)].
  - apply cmd_ok; [|done]. destruct H as [H Hi]. split; [done|].
    apply (names_later _ now); [|done]. by apply Hn.
  - destruct H as [H [I1 I2 I3]]. split; [exact (take_ok _ _ _ _ _ H)|].
    split; [exact I1|exact I2|]. intros nm' i. cbn. intros [_ E]%lookup_delete_Some. by apply (I3 nm' i).
Qed.

Lemma run_ok ops now gone log net : net_ok now gone log net -> Forall ticket_ok (issued ops net) ->
  forallb op_flush_ok ops = true -> Forall (.∈ names) (concat (map op_names ops)) -> clock_ok now ops = true ->
  exists l now', net_ok now' (gone ++ taken ops net) (log ++ l) (cdr_run ops net)
  /\ sublist (map snd l) (issued ops net)
  /\ (forallb op_open_ok ops = true -> map snd l = issued ops net).
Proof.
  revert now gone log net. induction ops as [|op ops IH]; intros now gone log net H Hok Hfl Hnm Hcl.
  { exists [], now. rewrite !app_nil_r. by split_and!. }
  cbn [issued cdr_run taken forallb map concat clock_ok] in *.
  apply Forall_app in Hok as [Ho Hok], Hnm as [Hnm1 Hnm]. apply andb_true_iff in Hfl as [Hfl1 Hfl].
  assert (Hc : (forall t, op_time op = Some t -> now <= t < TIME_END)
    /\ clock_ok (default now (op_time op)) ops = true).
  { destruct (op_time op) as [t|]; [|done]. rewrite !andb_true_iff, Z.leb_le, Z.ltb_lt in Hcl.
    split; [intros ? [= <-]; tauto|tauto]. }
  destruct (step_ok now gone log op net H Ho Hfl1 Hnm1 (proj1 Hc)) as (l1 & H1 & S1 & E1).
  destruct (IH _ _ _ _ H1 Hok Hfl Hnm (proj2 Hc)) as (l2 & now' & H2 & S2 & E2).
  exists (l1 ++ l2), now'. rewrite !app_assoc, map_app.
  split; [done|]. split; [by apply sublist_app|].
  intros [Hio1 Hio2]%andb_true_iff. by rewrite E1, E2.
Qed.
End names.

Lemma sublist_Forall {A} (P : A -> Prop) l k : sublist l k -> Forall P k -> Forall P l.
Proof. intros Hs. induction Hs; [done|..]; intros [? ?]%Forall_cons; auto. Qed.
Lemma of_inode_sub i log : sublist (of_inode i log) (map snd log).
Proof.
  induction log as [|p log IH]; [constructor|]. unfold of_inode in *. cbn.
  destruct (decide (p.1 = i)); [by apply sublist_skip|by apply sublist_cons].
Qed.

(** the MSC as it starts, in an empty directory *)
Definition starts (net : cdr_net) : Prop :=
  files net = mk_fs ∅ ∅ 0 /\ fh net = None /\ rotate_anchor net = 0.
Lemma starts_ok names net : starts net -> Forall (.∈ names) (option_list (filename net)) ->
  net_ok names 1 [] [] net.
Proof.
  intros (Ef & Eh & Ea) Hn. split.
  - rewrite Ef, Eh. split; cbn; try done.
    + intros i [c Hc]. done.
    + intros p Hp. by apply not_elem_of_nil in Hp.
    + intros i [c Hc]. done.
  - split; [|rewrite Ea; lia|].
    + intros fname E. rewrite E in Hn. by apply Forall_inv in Hn.
    + intros nm i. rewrite Ef. done.
Qed.

(** the tickets of a history are in files, and the files are there *)
Lemma history_files ops net : starts net -> history_ok ops net ->
  exists log, files_ok (taken ops net) log (files (cdr_run ops net)) (fh (cdr_run ops net))
  /\ sublist (map snd log) (issued ops net)
  /\ (forallb op_open_ok ops = true -> map snd log = issued ops net).
Proof.
  intros Hs [H1 H2 H3 H4]. set (names := names_of ops net) in *.
  assert (Hin : Forall (.∈ names) (option_list (filename net) ++ concat (map op_names ops))).
  { apply Forall_forall. tauto. }
  apply Forall_app in Hin as [Ha Hb].
  destruct (run_ok names H4 ops 1 [] [] net (starts_ok _ _ Hs Ha) H1 H2 Hb H3) as (log & now' & [H _] & Hl).
  by exists log.
Qed.

Section kept.
Context (ops : list cdr_op) (net : cdr_net).

(** the rows of a file are the tickets that the log gives it *)
Lemma log_rows log i f : Forall ticket_ok (issued ops net) -> sublist (map snd log) (issued ops net) ->
  files_ok (taken ops net) log (files (cdr_run ops net)) (fh (cdr_run ops net)) ->
  fs_data (files (cdr_run ops net)) !! i = Some f ->
  f = ticket_file (of_inode i log) /\ file_rows f = map (zip cdr_columns) (of_inode i log).
Proof.
  intros Hok Hsub H Hf. pose proof (fo_data _ _ _ _ H _ _ Hf) as ->. split; [done|]. apply ticket_rows.
  assert (Hlog : Forall ticket_ok (map snd log)) by (by eapply sublist_Forall).
  by eapply sublist_Forall; [apply of_inode_sub|].
Qed.

(** C13: No ticket is lost, doubled, cut or reordered in the files: after any
    history of tickets, rotations, commands and collected files there is a
    log that gives every written ticket its file; that file still exists and
    has a name in the directory unless another process took it; and what the
    encoder reads from each file is exactly the tickets of that file, in the
    order in which they were issued.  The log holds every ticket that was
    issued while a file was configured, unless a file could not be opened; a
    rename may fail.  The MSC starts in an empty directory; a ticket has less
    than 4095 characters and no comma or line break within a column; every
    flush succeeds; the clock is not set back; and no file name that is
    configured is longer than 4082 characters or is another one followed by a
    dot and more. *)
Theorem tickets_all_in_files : starts net -> history_ok ops net ->
  exists log : list (nat * list string),
    sublist (map snd log) (issued ops net)
    /\ (forallb op_open_ok ops = true -> map snd log = issued ops net)
    /\ (forall i, i ∈ map fst log -> is_Some (fs_data (files (cdr_run ops net)) !! i)
         /\ (i ∈ taken ops net \/ exists nm, fs_names (files (cdr_run ops net)) !! nm = Some i))
    /\ (forall i f, fs_data (files (cdr_run ops net)) !! i = Some f ->
         file_rows f = map (zip cdr_columns) (of_inode i log)).
Proof.
  intros Hs Ho. destruct (history_files ops net Hs Ho) as (log & H & Hsub & Heq).
  exists log. split_and!; [done..| |].
  - intros i (p & -> & Hp)%list_elem_of_fmap. pose proof (fo_log _ _ _ _ H p Hp) as Hd.
    split; [done|]. exact (fo_kept _ _ _ _ H _ Hd).
  - intros i f Hf. eapply log_rows; [apply Ho|done|done|done].
Qed.

End kept.

(** ** Tickets without the time of the event *)

(** The time of a location updating is lost: its ticket has no seizure
    time, only a release time, but the encoder takes the time of such a
    record from the seizure time, so that it writes no time at all. *)
Theorem lu_record_without_time now callref cft out res v a net tz w :
  let r := zip cdr_columns (row_fields net (Some v) None a (event_ticket MSC_CDR_LU now cft callref out res)) in
  row_get r "seizure_time" = "" /\ row_get r "release_time" = fmt_time now
  /\ ber_ctx_time_csv 7 (row_get r "seizure_time") tz w = w.
Proof. cbv zeta. split_and!; [done..|]. by destruct w. Qed.
End history.

(** ** Sample *)

#[local] Instance sample_cdr_lib : CdrLib := {
  osmo_rat_type_name r := match r with
    | OSMO_RAT_GERAN_A => "GERAN-A" | OSMO_RAT_UTRAN_IU => "UTRAN-Iu"
    | OSMO_RAT_EUTRAN_SGS => "EUTRAN-SGs" | OSMO_RAT_UNKNOWN => "unknown" end;
  osmo_hexdump_buf n l := strlcpy n (String.concat "" (map (fun o => fmt_0x 2 o +:+ " ") l));
  osmo_parse_mme_domain _ := None
}.
Definition sample_cdr_net : cdr_net :=
  mk_cdr_net None false false (Some "4915100001") None 0 MSC_CDR_ROTATE_HOURLY None 1 0 None
    (mk_fs ∅ ∅ 0) [].
Definition sample_vsub : cdr_vsub :=
  mk_cdr_vsub "262420000000001" "" "" "4915112345" (mk_plmn 262 42 false) 23 42 None
    no_plmn 0 "" [] [] OSMO_RAT_GERAN_A.
Definition sample_lu_ticket (now : Z) : ticket := event_ticket MSC_CDR_LU now 0 0 "GERAN" "accepted".
Definition sample_io (now : Z) : cdr_io := mk_io now true true 0 true.
(** two tickets, an hour later one more in a new file, which is collected
    after another hour, and one in a third file *)
Definition sample_history : list cdr_op :=
  [OpCmd 1700000000 (CmdFilename "cdr.csv");
   OpRow (sample_io 1700000000) (Some sample_vsub) None None (sample_lu_ticket 1700000000);
   OpRow (sample_io 1700000060) (Some sample_vsub) None None (sample_lu_ticket 1700000060);
   OpRotate (sample_io 1700003600);
   OpRow (sample_io 1700003660) (Some sample_vsub) None None (sample_lu_ticket 1700003660);
   OpRotate (sample_io 1700007200);
   OpTake "cdr.csv.2023111423";
   OpRow (sample_io 1700007260) (Some sample_vsub) None None (sample_lu_ticket 1700007260)].

Lemma sample_ok : history_ok sample_history sample_cdr_net.
Proof.
  split; [|vm_compute; reflexivity..]. set (l := issued _ _). vm_compute in l.
  repeat (constructor; [apply ticket_okb_ok; vm_compute; reflexivity|]). constructor.
Qed.
Lemma sample_starts : starts sample_cdr_net.
Proof. split_and!; reflexivity. Qed.
Lemma tickets_all_in_files_witness :
  length (issued sample_history sample_cdr_net) = 4%nat
  /\ taken sample_history sample_cdr_net = [1%nat]
  /\ exists log : list (nat * list string), map snd log = issued sample_history sample_cdr_net
  /\ (forall i, i ∈ map fst log ->
       i = 1%nat \/ exists nm, fs_names (files (cdr_run sample_history sample_cdr_net)) !! nm = Some i)
  /\ (forall i f, fs_data (files (cdr_run sample_history sample_cdr_net)) !! i = Some f ->
       file_rows f = map (zip cdr_columns) (of_inode i log)).
Proof.
  split; [vm_compute; reflexivity|]. assert (Et : taken sample_history sample_cdr_net = [1%nat]) by (vm_compute; reflexivity).
  split; [exact Et|].
  destruct (tickets_all_in_files sample_history sample_cdr_net sample_starts sample_ok) as (log & _ & E & Hk & H).
  exists log. split; [apply E; reflexivity|]. split; [|exact H].
  intros i Hi. destruct (Hk i Hi) as [_ [Hin|Hn]]; [left|by right]. rewrite Et in Hin.
  by apply list_elem_of_singleton in Hin.
Defined.

