(* ===== verification/CallTypes.v ===== *)
(** * The state of call control

    Transactions (include/osmocom/msc/transaction.h), the connection that a
    call uses (struct msc_a, include/osmocom/msc/msc_a.h), its call leg and
    RTP streams (call_leg.h, rtp_stream.h), and the monad in which the code
    that works on them is written: it can read and change the state, log what
    leaves the program, and crash. *)

From S2P Require Import Prelude VlrTypes Codecs Csd Sdp Mncc.

(** ** Transactions *)

Inductive trans_type : Type :=
| TRANS_GCC | TRANS_BCC | TRANS_CC | TRANS_SMS | TRANS_USSD | TRANS_SILENT_CALL.
#[export] Instance trans_type_eq_dec : EqDecision trans_type.
Proof. solve_decision. Defined.

(** the states of TS 24.008 5.1.1 that the code uses, GSM_CSTATE_* *)
Inductive cc_state : Type :=
| GSM_CSTATE_NULL | GSM_CSTATE_INITIATED | GSM_CSTATE_MO_CALL_PROC | GSM_CSTATE_CALL_DELIVERED
| GSM_CSTATE_CALL_PRESENT | GSM_CSTATE_CALL_RECEIVED | GSM_CSTATE_CONNECT_REQUEST
| GSM_CSTATE_MO_TERM_CALL_CONF | GSM_CSTATE_ACTIVE | GSM_CSTATE_DISCONNECT_REQ
| GSM_CSTATE_DISCONNECT_IND | GSM_CSTATE_CONNECT_IND | GSM_CSTATE_RELEASE_REQ
| GSM_CSTATE_MO_ORIG_MODIFY | GSM_CSTATE_MO_TERM_MODIFY.
#[export] Instance cc_state_eq_dec : EqDecision cc_state.
Proof. solve_decision. Defined.

Definition TRANS_ID_UNASSIGNED : Z := 0xff.

(** the global call reference and struct osmo_lcls of libosmogsm *)
#[projections(primitive)]
Record gcr_parsed : Type := mk_gcr { gcr_net : list Z; gcr_node : Z; gcr_cr : list Z }.
#[projections(primitive)]
Record osmo_lcls : Type := mk_lcls { lcls_gcr : gcr_parsed; lcls_gcr_available : bool }.

(** struct gsm_trans, with the part of the union for calls.  Subscribers,
    connections and transactions are named by numbers, their addresses. *)
#[projections(primitive)]
Record gsm_trans : Type := mk_trans {
  t_type : trans_type; t_id : Z; t_dlci : Z; t_vsub : option nat; t_msc_a : option nat;
  t_callref : Z; t_call_id : Z; t_paging_request : bool; t_freeing : bool;
  t_bearer_cap : gsm_mncc_bearer_cap; t_sm_rp_mr : Z;
  t_state : cc_state; t_Tcurrent : Z; t_T308_second : bool;
  t_timer : bool;          (* cc.timer is pending *)
  t_timer_guard : bool;    (* cc.timer_guard is pending *)
  t_msg : gsm_mncc; t_mncc_initiated : bool; t_lcls : option osmo_lcls;
  t_remote : sdp_msg; t_codecs : codec_filter; t_csd : csd_filter; t_local : sdp_msg
}.

(** ** RTP streams and call legs *)

Inductive rtp_direction : Type := RTP_TO_RAN | RTP_TO_CN.
#[export] Instance rtp_direction_eq_dec : EqDecision rtp_direction.
Proof. solve_decision. Defined.

Inductive rtp_stream_state : Type :=
| RTP_STREAM_ST_UNINITIALIZED | RTP_STREAM_ST_ESTABLISHING | RTP_STREAM_ST_ESTABLISHED.
#[export] Instance rtp_stream_state_eq_dec : EqDecision rtp_stream_state.
Proof. solve_decision. Defined.

Definition no_addr : sockaddr_str := mk_sockaddr AF_UNSPEC "" 0.

(** struct rtp_stream; a stream that is discarded leaves its call leg *)
#[projections(primitive)]
Record rtp_stream : Type := mk_rtps {
  s_state : rtp_stream_state; s_dir : rtp_direction; s_call_id : Z; s_for_trans : option nat;
  s_local : sockaddr_str; s_remote : sockaddr_str; s_remote_sent : bool;
  s_codecs_known : bool; s_codecs : sdp_audio_codecs; s_codecs_sent : bool; s_ci : bool;
  s_use_osmux : bool; s_local_osmux_cid : Z; s_remote_osmux_cid : Z; s_osmux_cid_sent : bool;
  s_mode : Z; s_mode_sent : bool
}.

Inductive call_leg_state : Type := CALL_LEG_ST_ESTABLISHING | CALL_LEG_ST_ESTABLISHED | CALL_LEG_ST_RELEASING.
#[export] Instance call_leg_state_eq_dec : EqDecision call_leg_state.
Proof. solve_decision. Defined.

(** struct call_leg *)
#[projections(primitive)]
Record call_leg : Type := mk_leg {
  l_state : call_leg_state; l_deallocating : bool; l_parent : option nat;
  l_rtp_ran : option rtp_stream; l_rtp_cn : option rtp_stream; l_mgw_endpoint : bool;
  l_ran_osmux : bool; l_mode_ran : Z; l_mode_cn : Z; l_local_bridge : option nat
}.
Definition l_rtp (d : rtp_direction) (l : call_leg) : option rtp_stream :=
  match d with RTP_TO_RAN => l_rtp_ran l | RTP_TO_CN => l_rtp_cn l end.
Definition l_mode (d : rtp_direction) (l : call_leg) : Z :=
  match d with RTP_TO_RAN => l_mode_ran l | RTP_TO_CN => l_mode_cn l end.
Definition set_l_rtp (d : rtp_direction) (s : option rtp_stream) (l : call_leg) : call_leg :=
  match d with RTP_TO_RAN => l <| l_rtp_ran := s |> | RTP_TO_CN => l <| l_rtp_cn := s |> end.

(** ** Connections *)

(** from the state in which the subscriber is accepted on; [TERMINATED]: the
    instance has ended *)
Inductive msc_a_state : Type :=
| MSC_A_ST_AUTHENTICATED | MSC_A_ST_COMMUNICATING | MSC_A_ST_RELEASING | MSC_A_ST_RELEASED
| MSC_A_TERMINATED.
#[export] Instance msc_a_state_eq_dec : EqDecision msc_a_state.
Proof. solve_decision. Defined.

(** struct msc_a: state and uses, and [cc], its part for calls *)
#[projections(primitive)]
Record msc_a : Type := mk_msc_a {
  a_state : msc_a_state; a_ran : osmo_rat_type; a_vsub : option nat; a_uses : gmap string Z;
  a_call_leg : option nat; a_active_trans : option nat; a_assignment_pending : bool;
  a_codec_list_bss : option (list gsm0808_speech_codec);
  a_force_mgw_codecs : sdp_audio_codecs; a_remote_osmux : bool;
  a_plmn : list Z;          (* via_cell.lai, the PLMN as osmo_plmn_to_bcd writes it *)
  a_lac : Z
}.

(** what call control uses of a subscriber *)
#[projections(primitive)]
Record cc_vsub : Type := mk_cc_vsub {
  sb_imsi : string; sb_msisdn : string; sb_lu_complete : bool; sb_rev_lev : Z;
  sb_conn : option nat; sb_uses : gmap string Z
}.

(** ** What leaves call control *)

(** GSM48_MT_CC_* *)
Inductive cc_mt : Type :=
| MT_ALERTING | MT_CALL_CONF | MT_CALL_PROC | MT_CONNECT | MT_CONNECT_ACK | MT_EMERG_SETUP
| MT_PROGRESS | MT_SETUP | MT_MODIFY | MT_MODIFY_COMPL | MT_MODIFY_REJECT | MT_USER_INFO
| MT_HOLD | MT_HOLD_ACK | MT_HOLD_REJ | MT_RETR | MT_RETR_ACK | MT_RETR_REJ | MT_DISCONNECT
| MT_RELEASE | MT_RELEASE_COMPL | MT_NOTIFY | MT_STATUS_ENQ | MT_STATUS | MT_START_DTMF
| MT_START_DTMF_ACK | MT_START_DTMF_REJ | MT_STOP_DTMF | MT_STOP_DTMF_ACK | MT_FACILITY
| MT_OTHER (code : Z).
#[export] Instance cc_mt_eq_dec : EqDecision cc_mt.
Proof. solve_decision. Defined.

(** an information element as it is given to its encoder *)
Inductive cc_ie : Type :=
| IeBearerCap (bc : gsm_mncc_bearer_cap) | IeFacility (f : list Z) | IeProgress (p : list Z)
| IeCalling (n : gsm_mncc_number) | IeCalled (n : gsm_mncc_number)
| IeRedirecting (n : gsm_mncc_number) | IeConnected (n : gsm_mncc_number)
| IeLowLayer (c : list Z) | IeHighLayer (c : list Z) | IeUserUser (u : list Z) | IeSignal (s : Z)
| IeCause (c : gsm_mncc_cause) | IeKeypad (k : Z) | IeNotify (n : Z) | IeMore
| IeStatus (coding_loc cause call_state : Z).

(** a message received from the MS: the elements that were found, decoded *)
#[projections(primitive)]
Record cc_rx : Type := mk_cc_rx {
  r_type : cc_mt; r_tid : Z; r_link_id : Z;
  r_bearer_cap : option gsm_mncc_bearer_cap; r_facility : option (list Z);
  r_progress : option (list Z); r_called : option gsm_mncc_number;
  r_llc : option (list Z); r_hlc : option (list Z); r_useruser : option (list Z);
  r_ssversion : option (list Z); r_clir_sup : bool; r_clir_inv : bool;
  r_cccap : option (list Z); r_cause : option gsm_mncc_cause; r_keypad : option Z;
  r_notify : option Z; r_more : bool
}.

Inductive mgcp_verb : Type := MGCP_VERB_CRCX | MGCP_VERB_MDCX | MGCP_VERB_DLCX.

Inductive cc_out : Type :=
| OutDtap (conn : nat) (tid dlci : Z) (mt : cc_mt) (ies : list cc_ie)
| OutMncc (trans : option nat) (m : mncc_prim)
| OutMnccRx (trans : nat) (type : mncc_msg) (* log_mncc_rx_tx *)
| OutAssignment (conn : nat) (ct : gsm0808_channel_type) (call_id : Z) (lcls : option osmo_lcls)
    (cn_rtp : sockaddr_str)
| OutClear (conn : nat)                    (* Clear Command *)
| OutSgsRelease (vsub : nat)               (* sgs_iface_tx_release *)
| OutConnClosed (vsub : nat)               (* vlr_subscr_cancel_attach_fsm, vlr_subscr_enable_expire_lu *)
| OutMgcp (leg : nat) (dir : rtp_direction) (verb : mgcp_verb) (call_id : Z) (codecs : list (mgcp_codecs * Z))
    (remote : sockaddr_str)
| OutVgcs (trans : nat) (complete : bool)  (* vgcs_vbs_caller_assign_cpl or _fail *)
| OutPage (vsub trans : nat)               (* paging_request_start *)
| OutPageRemove (trans : nat)              (* paging_request_remove *)
| OutTransFree (trans : nat)               (* the hook of another protocol *)
| OutCdrSetup (trans : nat) (m : gsm_mncc) (* the calls of msc_cdr.c *)
| OutCdrConnected (trans : nat) (number : string)
| OutCdrCause (trans : nat) (c : gsm_mncc_cause)
| OutCdrAnswer (trans : nat)
| OutCdrCall (trans : nat).

(** ** The world

    [w_answers]: the results of the calls that can fail, in order; 0 when
    there is none left. *)
#[projections(primitive)]
Record cc_world : Type := mk_cc_world {
  w_trans : gmap nat gsm_trans; w_trans_list : list nat; w_next_trans : nat;
  w_new_call_id : Z; w_last_callref : Z; w_active_calls : Z;
  w_conns : gmap nat msc_a; w_legs : gmap nat call_leg; w_next_leg : nat;
  w_vsubs : gmap nat cc_vsub;
  w_call_waiting : bool; w_emergency_route : option string;
  w_lcls_permitted : bool; w_sccp_pc : option Z; w_use_osmux : bool;
  w_answers : list Z; w_out : list cc_out
}.

(** libosmocore and libosmogsm *)
Class CallLib : Type := {
  osmo_sockaddr_str_is_nonzero : sockaddr_str -> bool;
  osmo_sockaddr_str_eq : sockaddr_str -> sockaddr_str -> bool;
  osmo_sockaddr_str_to_sockaddr : sockaddr_str -> option (list Z);
  osmo_sockaddr_str_from_sockaddr : list Z -> option sockaddr_str;
  MGCP_MAX_CODECS : nat;    (* the size of ptmap of struct mgcp_conn_peer *)
  osmo_enc_gcr : gcr_parsed -> option (list Z);
  osmo_dec_gcr : list Z -> option gcr_parsed
}.

(** ** The monad *)

(** [TooDeep]: more nested calls than the model was given *)
Inductive fault : Type := UseAfterFree | NullDeref | BufferOverflow | AssertFailed | TooDeep.
Inductive res (A : Type) : Type :=
| Done (a : A) (w : cc_world)
| Crash (f : fault).
Arguments Done {A} _ _.
Arguments Crash {A} _.

Definition M (A : Type) : Type := cc_world -> res A.
Definition ret {A : Type} (a : A) : M A := fun w => Done a w.
Definition bind {A B : Type} (m : M A) (k : A -> M B) : M B :=
  fun w => match m w with Done a w' => k a w' | Crash f => Crash f end.
Definition crash {A : Type} (f : fault) : M A := fun _ => Crash f.
Notation "x <- m ;; k" := (bind m (fun x => k)) (at level 100, m at next level, right associativity) : msc_scope.
Notation "m ;; k" := (bind m (fun _ => k)) : msc_scope.

Definition gets {A : Type} (f : cc_world -> A) : M A := fun w => Done (f w) w.
Definition modify (f : cc_world -> cc_world) : M unit := fun w => Done tt (f w).
Definition emit (o : cc_out) : M unit := modify (fun w => w <| w_out ::= fun l => l ++ [o] |>).
Definition when (b : bool) (m : M unit) : M unit := if b then m else ret tt.
(** the result of a call that can fail *)
Definition ask : M Z :=
  fun w => match w_answers w with
           | [] => Done 0 w
           | z :: l => Done z (w <| w_answers := l |>)
           end.
Definition deref {A : Type} (o : option A) : M A :=
  match o with Some a => ret a | None => crash NullDeref end.

Definition get_trans (t : nat) : M gsm_trans :=
  fun w => match w_trans w !! t with Some tr => Done tr w | None => Crash UseAfterFree end.
Definition mod_trans (t : nat) (f : gsm_trans -> gsm_trans) : M unit :=
  fun w => match w_trans w !! t with
           | Some tr => Done tt (w <| w_trans ::= insert t (f tr) |>)
           | None => Crash UseAfterFree
           end.
Definition get_conn (c : nat) : M msc_a :=
  fun w => match w_conns w !! c with Some a => Done a w | None => Crash UseAfterFree end.
Definition mod_conn (c : nat) (f : msc_a -> msc_a) : M unit :=
  fun w => match w_conns w !! c with
           | Some a => Done tt (w <| w_conns ::= insert c (f a) |>)
           | None => Crash UseAfterFree
           end.
Definition get_leg (l : nat) : M call_leg :=
  fun w => match w_legs w !! l with Some cl => Done cl w | None => Crash UseAfterFree end.
Definition mod_leg (l : nat) (f : call_leg -> call_leg) : M unit :=
  fun w => match w_legs w !! l with
           | Some cl => Done tt (w <| w_legs ::= insert l (f cl) |>)
           | None => Crash UseAfterFree
           end.
Definition get_vsub (v : nat) : M cc_vsub :=
  fun w => match w_vsubs w !! v with Some s => Done s w | None => Crash UseAfterFree end.
Definition mod_vsub (v : nat) (f : cc_vsub -> cc_vsub) : M unit :=
  fun w => match w_vsubs w !! v with
           | Some s => Done tt (w <| w_vsubs ::= insert v (f s) |>)
           | None => Crash UseAfterFree
           end.
(** the stream of a leg, which must exist *)
Definition get_rtp (l : nat) (d : rtp_direction) : M rtp_stream :=
  cl <- get_leg l ;; deref (l_rtp d cl).
Definition mod_rtp (l : nat) (d : rtp_direction) (f : rtp_stream -> rtp_stream) : M unit :=
  s <- get_rtp l d ;; mod_leg l (set_l_rtp d (Some (f s))).
