(* ===== verification/CallBase.v ===== *)
(** * Transactions: list, timers, messages

    The operations of transaction.c on the list of transactions, and those of
    gsm_04_08_cc.c that send a message, change the state of a call or its
    timers. *)

From S2P Require Import Prelude VlrTypes Codecs Csd Sdp Mncc CallTypes.

Definition EIO : Z := 5.
Definition ENOMEM : Z := 12.

(** ** The list of transactions (transaction.c) *)

(** llist_for_each_entry, until one matches *)
Definition trans_find (p : nat -> gsm_trans -> bool) (w : cc_world) : option nat :=
  find (fun t => match w_trans w !! t with Some tr => p t tr | None => false end) (w_trans_list w).

Definition opt_eqb (a b : option nat) : bool := bool_decide (a = b).
Definition type_eqb (a b : trans_type) : bool := bool_decide (a = b).

Definition trans_find_by_type (vsub : option nat) (type : trans_type) : cc_world -> option nat :=
  trans_find (fun _ tr => opt_eqb (t_vsub tr) vsub && type_eqb (t_type tr) type).
Definition trans_find_by_id (vsub : option nat) (type : trans_type) (id : Z) : cc_world -> option nat :=
  trans_find (fun _ tr => opt_eqb (t_vsub tr) vsub && type_eqb (t_type tr) type && (t_id tr =? id)).
Definition trans_find_by_callref (type : trans_type) (callref : Z) : cc_world -> option nat :=
  trans_find (fun _ tr => (t_callref tr =? callref) && type_eqb (t_type tr) type).
Definition trans_find_by_sm_rp_mr (vsub : option nat) (mr : Z) : cc_world -> option nat :=
  trans_find (fun _ tr => opt_eqb (t_vsub tr) vsub && type_eqb (t_type tr) TRANS_SMS && (t_sm_rp_mr tr =? mr)).
Definition trans_has_conn (c : nat) : cc_world -> option nat :=
  trans_find (fun _ tr => opt_eqb (t_msc_a tr) (Some c)).
Definition trans_for_vsub (v : nat) : cc_world -> option nat :=
  trans_find (fun _ tr => opt_eqb (t_vsub tr) (Some v)).

Inductive gsm48_proto : Type :=
| GSM48_PDISC_GROUP_CC | GSM48_PDISC_BCAST_CC | GSM48_PDISC_CC | GSM48_PDISC_SMS | GSM48_PDISC_NC_SS.
#[export] Instance gsm48_proto_eq_dec : EqDecision gsm48_proto.
Proof. solve_decision. Defined.
Definition trans_type_to_gsm48_proto (type : trans_type) : gsm48_proto :=
  match type with
  | TRANS_GCC => GSM48_PDISC_GROUP_CC
  | TRANS_BCC => GSM48_PDISC_BCAST_CC
  | TRANS_CC | TRANS_SILENT_CALL => GSM48_PDISC_CC
  | TRANS_SMS => GSM48_PDISC_SMS
  | TRANS_USSD => GSM48_PDISC_NC_SS
  end.

(** the names double as use tokens of the subscriber *)
Definition trans_vsub_use (type : trans_type) : string :=
  match type with
  | TRANS_GCC => "GCC" | TRANS_BCC => "BCC" | TRANS_CC => "CC" | TRANS_SMS => "SMS"
  | TRANS_USSD => "NCSS" | TRANS_SILENT_CALL => "silent-call"
  end.

(** the bit mask of used identifiers, then the highest used one, then the
    first unused one from there on, modulo 7; [None]: -1 *)
Definition uses_tid (vsub : option nat) (type : trans_type) (tr : gsm_trans) : bool :=
  opt_eqb (t_vsub tr) vsub
  && bool_decide (trans_type_to_gsm48_proto type = trans_type_to_gsm48_proto (t_type tr))
  && negb (t_id tr =? TRANS_ID_UNASSIGNED).
Definition used_tid_bitmask (vsub : option nat) (type : trans_type) (w : cc_world) : Z :=
  fold_left (fun mask t =>
               match w_trans w !! t with
               | Some tr => if uses_tid vsub type tr then Z.lor mask (Z.shiftl 1 (t_id tr)) else mask
               | None => mask
               end) (w_trans_list w) 0.
Fixpoint highest_used (mask : Z) (h : nat) : nat :=
  match h with
  | O => O
  | S h' => if Z.testbit mask (Z.of_nat h) then h else highest_used mask h'
  end.
Fixpoint free_tid (mask : Z) (h i : Z) (n : nat) : option Z :=
  match n with
  | O => None
  | S n => let j := (h + i) mod 7 in
           if Z.testbit mask j then free_tid mask h (i + 1) n else Some j
  end.
Definition trans_assign_trans_id (vsub : option nat) (type : trans_type) (w : cc_world) : option Z :=
  let mask := used_tid_bitmask vsub type w in
  free_tid mask (Z.of_nat (highest_used mask 6)) 0 7.

Definition new_trans (vsub : option nat) (type : trans_type) (id callref call_id : Z) : gsm_trans :=
  mk_trans type id 0 vsub None callref call_id false false bearer_cap_empty 0
    GSM_CSTATE_NULL 0 false false false empty_mncc false None no_sdp no_codec_filter no_csd_filter no_sdp.

(** ** Uses of subscribers *)

Definition use_by (m : gmap string Z) (tok : string) : Z := default 0 (m !! tok).
Definition use_total (m : gmap string Z) : Z := map_fold (fun _ n total => n + total) 0 m.
Definition use_add (tok : string) (n : Z) (m : gmap string Z) : gmap string Z :=
  <[tok := use_by m tok + n]> m.

Definition vlr_subscr_get (v : nat) (tok : string) : M unit :=
  mod_vsub v (fun s => s <| sb_uses ::= use_add tok 1 |>).
Definition vlr_subscr_put (v : nat) (tok : string) : M unit :=
  s <- get_vsub v ;;
  if use_by (sb_uses s) tok <=? 0 then crash AssertFailed
  else mod_vsub v (fun s => s <| sb_uses ::= use_add tok (-1) |>).

(** [None]: no subscriber, where one is needed *)
Definition trans_alloc (vsub : option nat) (type : trans_type) (id callref : Z) : M (option nat) :=
  match vsub, type with
  | None, (TRANS_CC | TRANS_SMS | TRANS_USSD | TRANS_SILENT_CALL) => ret None
  | _, _ =>
      t <- gets w_next_trans ;;
      call_id <- gets w_new_call_id ;;
      modify (fun w => w <| w_next_trans ::= S |> <| w_new_call_id ::= fun n => u32 (n + 1) |>
                         <| w_trans ::= insert t (new_trans vsub type id callref call_id) |>) ;;
      match vsub with Some v => vlr_subscr_get v (trans_vsub_use type) | None => ret tt end ;;
      modify (fun w => w <| w_trans_list ::= fun l => l ++ [t] |>) ;;
      ret (Some t)
  end.

Definition trans_is_live (ot : option nat) : M bool :=
  match ot with
  | None => ret false
  | Some t => tr <- get_trans t ;;
              live <- gets (fun w => bool_decide (t ∈ w_trans_list w)) ;;
              ret (negb (t_freeing tr) && live)
  end.

(** the LCLS information of a call: only on the A interface *)
Definition trans_lcls_compose (t : nat) : M (option osmo_lcls) :=
  tr <- get_trans t ;;
  pc <- gets w_sccp_pc ;; permitted <- gets w_lcls_permitted ;;
  match pc, t_msc_a tr with
  | Some pc, Some c =>
      if negb permitted then ret None
      else a <- get_conn c ;;
           match a_ran a with
           | OSMO_RAT_GERAN_A =>
               let r := t_callref tr in
               ret (Some (mk_lcls (mk_gcr (a_plmn a) pc
                            [Z.land (Z.shiftr r 16) 0xff; Z.land (Z.shiftr r 8) 0xff; Z.land r 0xff;
                             Z.land (Z.shiftr (a_lac a) 8) 0xff; Z.land (a_lac a) 0xff]) true))
           | _ => ret None
           end
  | _, _ => ret None
  end.

(** ** Call control: messages and timers (gsm_04_08_cc.c) *)

Definition trans_tx_gsm48 (t : nat) (mt : cc_mt) (ies : list cc_ie) : M Z :=
  tr <- get_trans t ;;
  match t_msc_a tr with
  | None => ret (- EIO)
  | Some c => emit (OutDtap c (t_id tr) (t_dlci tr) mt ies) ;; ask
  end.

(** last_callref counts in 32 bits and stays above 0x80000000 *)
Definition msc_cc_next_outgoing_callref : M Z :=
  last <- gets w_last_callref ;;
  let n := u32 (last + 1) in
  let n := if n <? 0x80000001 then 0x80000001 else n in
  modify (fun w => w <| w_last_callref := n |>) ;; ret n.

Definition gsm48_stop_guard_timer (t : nat) : M unit := mod_trans t (fun tr => tr <| t_timer_guard := false |>).
Definition gsm48_start_guard_timer (t : nat) : M unit := mod_trans t (fun tr => tr <| t_timer_guard := true |>).

(** MSC_STAT_ACTIVE_CALLS *)
Definition count_statistics (old new : cc_state) : M unit :=
  when (negb (bool_decide (old = new)))
    (modify (fun w => w <| w_active_calls ::= fun n =>
       n + (if bool_decide (new = GSM_CSTATE_ACTIVE) then 1 else 0)
         - (if bool_decide (old = GSM_CSTATE_ACTIVE) then 1 else 0) |>)).

Definition new_cc_state (t : nat) (state : cc_state) : M unit :=
  tr <- get_trans t ;;
  count_statistics (t_state tr) state ;;
  mod_trans t (fun tr => tr <| t_state := state |>) ;;
  when (bool_decide (state = GSM_CSTATE_ACTIVE)) (gsm48_stop_guard_timer t ;; emit (OutCdrAnswer t)).

Definition gsm48_stop_cc_timer (t : nat) : M unit :=
  mod_trans t (fun tr => if t_timer tr then tr <| t_timer := false |> <| t_Tcurrent := 0 |> else tr).
Definition gsm48_start_cc_timer (t : nat) (current : Z) : M unit :=
  mod_trans t (fun tr => tr <| t_timer := true |> <| t_Tcurrent := current |>).

Definition GSM48_CAUSE_CS_GSM : Z := 0x60.
Definition gsm48_cc_tx_status (t : nat) : M Z :=
  trans_tx_gsm48 t MT_STATUS [IeStatus (Z.lor GSM48_CAUSE_CS_GSM GSM48_CAUSE_LOC_USER) (Z.lor 0x80 30) 0xc0].

(** a message to MNCC; [ot]: the transaction, if it is about one *)
Definition mncc_recv_prim (ot : option nat) (m : mncc_prim) : M Z :=
  emit (OutMncc ot m) ;;
  match ot with Some t => mod_trans t (fun tr => tr <| t_mncc_initiated := true |>) | None => ret tt end ;;
  ret 0.
Definition mncc_recvmsg (ot : option nat) (type : mncc_msg) (m : gsm_mncc) : M Z :=
  mncc_recv_prim ot (MnccSignal (m <| m_msg_type := type |>)).

Definition mncc_release_ind (ot : option nat) (callref location value : Z) : M Z :=
  let rel := mncc_set_cause (empty_mncc <| m_callref := callref |>) location value in
  match ot with
  | Some t => tr <- get_trans t ;;
              if bool_decide (t_state tr = GSM_CSTATE_RELEASE_REQ) then mncc_recvmsg ot MNCC_REL_CNF rel
              else mncc_recvmsg ot MNCC_REL_IND rel
  | None => mncc_recvmsg ot MNCC_REL_IND rel
  end.

(** an element that is sent if its field is present *)
Definition ie_if (m : gsm_mncc) (f : mncc_field) (ie : cc_ie) : list cc_ie :=
  if mncc_has m f then [ie] else [].

Definition gsm48_cc_tx_release (t : nat) (rel : gsm_mncc) : M Z :=
  tr <- get_trans t ;;
  match t_msc_a tr with
  | None => ret (- EINVAL)
  | Some _ =>
      gsm48_stop_cc_timer t ;;
      gsm48_start_cc_timer t 0x308 ;;
      mod_trans t (fun tr => tr <| t_T308_second := false |> <| t_msg := rel |>) ;;
      when (mncc_has rel MNCC_F_CAUSE) (emit (OutCdrCause t (m_cause rel))) ;;
      when (negb (bool_decide (t_state tr = GSM_CSTATE_RELEASE_REQ))) (new_cc_state t GSM_CSTATE_RELEASE_REQ) ;;
      trans_tx_gsm48 t MT_RELEASE
        (ie_if rel MNCC_F_CAUSE (IeCause (m_cause rel)) ++ ie_if rel MNCC_F_FACILITY (IeFacility (m_facility rel))
         ++ ie_if rel MNCC_F_USERUSER (IeUserUser (m_useruser rel)))
  end.

Definition _gsm48_cc_trans_free (t : nat) : M unit :=
  emit (OutCdrCall t) ;;
  gsm48_stop_cc_timer t ;;
  tr <- get_trans t ;;
  when (negb (t_callref tr =? 0))
    (when (t_mncc_initiated tr)
       (mncc_release_ind (Some t) (t_callref tr) GSM48_CAUSE_LOC_PRN_S_LU
          (if bool_decide (t_state tr = GSM_CSTATE_CALL_RECEIVED) then GSM48_CC_CAUSE_USER_NOTRESPOND
           else GSM48_CC_CAUSE_RESOURCE_UNAVAIL) ;; ret tt) ;;
     when (negb (bool_decide (t_state tr = GSM_CSTATE_RELEASE_REQ)))
       (gsm48_cc_tx_release t
          (mncc_set_cause (empty_mncc <| m_callref := t_callref tr |>) GSM48_CAUSE_LOC_PRN_S_LU
             GSM48_CC_CAUSE_RESOURCE_UNAVAIL) ;; ret tt) ;;
     gsm48_stop_cc_timer t) ;;
  tr <- get_trans t ;;
  when (negb (bool_decide (t_state tr = GSM_CSTATE_NULL))) (new_cc_state t GSM_CSTATE_NULL) ;;
  gsm48_stop_guard_timer t ;;
  match t_msc_a tr with
  | Some c => a <- get_conn c ;;
              when (opt_eqb (a_active_trans a) (Some t)) (mod_conn c (fun a => a <| a_active_trans := None |>))
  | None => ret tt
  end.
