(* ===== verification/CallLeg.v ===== *)
(** * Releasing transactions and connections, call legs, RTP streams

    trans_free and the uses of a connection (transaction.c, msc_a.c), the call
    leg and the RTP streams at the media gateway (call_leg.c, rtp_stream.c).

    All of this can end in an event for the state machine of the connection,
    which can call it again: [dispatch] is osmo_fsm_inst_dispatch of that
    machine.  CallAssign ties the knot. *)

From S2P Require Import Prelude VlrTypes Codecs Csd Sdp Mncc CallTypes CallBase.

(** the events of the connection that are modelled; an RTP stream is named by
    its direction *)
Inductive msc_a_event : Type :=
| MSC_A_EV_TRANSACTION_ACCEPTED | MSC_A_EV_CN_CLOSE | MSC_A_EV_MO_CLOSE | MSC_A_EV_UNUSED
| MSC_EV_CALL_LEG_RTP_LOCAL_ADDR_AVAILABLE (dir : rtp_direction)
| MSC_EV_CALL_LEG_RTP_COMPLETE | MSC_EV_CALL_LEG_TERM.

Definition MSC_A_USE_LOCATION_UPDATING : string := "lu".
Definition MSC_A_USE_CM_SERVICE_CC : string := "cm_service_cc".
Definition MSC_A_USE_CM_SERVICE_SMS : string := "cm_service_sms".
Definition MSC_A_USE_CM_SERVICE_SS : string := "cm_service_ss".
Definition MSC_A_USE_CM_SERVICE_GCC : string := "cm_service_gcc".
Definition MSC_A_USE_CM_SERVICE_BCC : string := "cm_service_bcc".
Definition MSC_A_USE_PAGING_RESPONSE : string := "paging-response".
Definition MSC_A_USE_CC : string := "cc".
Definition MSC_A_USE_SMS : string := "sms".
Definition MSC_A_USE_SMS_MMTS : string := "sms_mmts".
Definition MSC_A_USE_NC_SS : string := "nc_ss".
Definition MSC_A_USE_GCC : string := "gcc".
Definition MSC_A_USE_BCC : string := "bcc".
Definition MSC_A_USE_SILENT_CALL : string := "silent_call".
Definition MSC_A_USE_WAIT_CLEAR_COMPLETE : string := "wait-Clear-Complete".

Section leg.
Context {SL : SockaddrLib} {CL : CallLib} {AC : AmrCfg}.
Variable dispatch : nat -> msc_a_event -> M Z.

(** ** Uses of a connection *)

(** osmo_use_count_get_put with msc_a_use_cb *)
Definition msc_a_use (c : nat) (tok : string) (change : Z) : M unit :=
  mod_conn c (fun a => a <| a_uses ::= use_add tok change |>) ;;
  a <- get_conn c ;;
  if use_by (a_uses a) tok <? 0 then crash AssertFailed
  else when (use_total (a_uses a) =? 0) (dispatch c MSC_A_EV_UNUSED ;; ret tt).
Definition msc_a_get (c : nat) (tok : string) : M unit := msc_a_use c tok 1.
Definition msc_a_put (c : nat) (tok : string) : M unit := msc_a_use c tok (-1).

Definition release_uses : list string :=
  [MSC_A_USE_LOCATION_UPDATING; MSC_A_USE_CM_SERVICE_CC; MSC_A_USE_CM_SERVICE_SMS;
   MSC_A_USE_CM_SERVICE_SS; MSC_A_USE_CM_SERVICE_GCC; MSC_A_USE_CM_SERVICE_BCC;
   MSC_A_USE_PAGING_RESPONSE; MSC_A_USE_SMS; MSC_A_USE_SMS_MMTS; MSC_A_USE_NC_SS;
   MSC_A_USE_WAIT_CLEAR_COMPLETE].
Fixpoint cancel_uses (c : nat) (uses : list string) : M unit :=
  match uses with
  | [] => ret tt
  | use :: uses =>
      a <- get_conn c ;;
      let count := use_by (a_uses a) use in
      when (negb (count =? 0)) (msc_a_use c use (- count)) ;;
      cancel_uses c uses
  end.
Definition msc_a_cancel_release_uses (c : nat) : M unit := cancel_uses c release_uses.

(** ** Releasing a transaction *)

Definition trans_usage_token (type : trans_type) : string :=
  match type with
  | TRANS_GCC => MSC_A_USE_GCC | TRANS_BCC => MSC_A_USE_BCC | TRANS_CC => MSC_A_USE_CC
  | TRANS_SMS => MSC_A_USE_SMS | TRANS_USSD => MSC_A_USE_NC_SS | TRANS_SILENT_CALL => MSC_A_USE_SILENT_CALL
  end.

(** the hook of the protocol *)
Definition trans_free_hook (t : nat) (type : trans_type) : M unit :=
  match type with TRANS_CC => _gsm48_cc_trans_free t | _ => emit (OutTransFree t) end.

(** the use of the subscriber may be gone already *)
Definition trans_put_vsub (v : nat) (tok : string) : M unit :=
  s <- get_vsub v ;;
  if use_by (sb_uses s) tok =? 0 then ret tt else vlr_subscr_put v tok.

(** trans_free before it gives up its use of the connection, which is the
    result *)
Definition trans_free_unlink (t : nat) : M (option nat) :=
  mod_trans t (fun tr => tr <| t_freeing := true |>) ;;
  modify (fun w => w <| w_trans_list ::= filter (fun u => u <> t) |>) ;;
  tr <- get_trans t ;;
  trans_free_hook t (t_type tr) ;;
  tr <- get_trans t ;;
  when (t_paging_request tr) (emit (OutPageRemove t) ;; mod_trans t (fun tr => tr <| t_paging_request := false |>)) ;;
  match t_vsub tr with Some v => trans_put_vsub v (trans_vsub_use (t_type tr)) | None => ret tt end ;;
  modify (fun w => w <| w_trans ::= delete t |>) ;;
  ret (t_msc_a tr).

Definition trans_free (t : nat) : M unit :=
  tr <- get_trans t ;;
  if t_freeing tr then ret tt
  else c <- trans_free_unlink t ;;
       match c with Some c => msc_a_put c (trans_usage_token (t_type tr)) | None => ret tt end.

(** while ((trans = find())) trans_free(trans): the list only gets shorter *)
Fixpoint free_all (find : cc_world -> option nat) (n : nat) : M unit :=
  ot <- gets find ;;
  match ot with
  | None => ret tt
  | Some t => match n with
              | O => crash TooDeep
              | S n => trans_free t ;; free_all find n
              end
  end.
Definition trans_conn_closed (c : nat) : M unit :=
  msc_a_get c "trans_conn_closed" ;;
  n <- gets (fun w => length (w_trans_list w)) ;;
  free_all (trans_has_conn c) n ;;
  msc_a_put c "trans_conn_closed".
Definition trans_free_for_vsub (v : nat) : M unit :=
  n <- gets (fun w => length (w_trans_list w)) ;;
  free_all (trans_for_vsub v) n.

(** ** Call legs *)

Definition call_leg_alloc (c : nat) (osmux : bool) : M nat :=
  l <- gets w_next_leg ;;
  modify (fun w => w <| w_next_leg ::= S |>
                     <| w_legs ::= insert l (mk_leg CALL_LEG_ST_ESTABLISHING false (Some c) None None false
                                               osmux 0 0 None) |>) ;;
  ret l.

Definition call_leg_try_finish (l : nat) : M unit :=
  cl <- get_leg l ;;
  when (negb (l_mgw_endpoint cl)) (modify (fun w => w <| w_legs ::= delete l |>)).

Definition detach_rtp (s : rtp_stream) : rtp_stream := s <| s_for_trans := None |>.
Definition call_leg_detach_trans (l : nat) : M unit :=
  mod_leg l (fun cl => cl <| l_rtp_ran ::= fmap detach_rtp |> <| l_rtp_cn ::= fmap detach_rtp |>).

(** a stream that goes to the state DISCARDING: it ends, and its connection
    at the gateway is deleted; the call leg forgets it *)
Definition rtp_stream_discard (l : nat) (d : rtp_direction) : M unit :=
  s <- get_rtp l d ;;
  when (s_ci s) (emit (OutMgcp l d MGCP_VERB_DLCX (s_call_id s) [] no_addr)) ;;
  mod_leg l (set_l_rtp d None).

Definition rtp_stream_release (l : nat) (d : rtp_direction) : M unit :=
  cl <- get_leg l ;;
  match l_rtp d cl with Some _ => rtp_stream_discard l d | None => ret tt end.

(** what the streams report while the leg is in RELEASING is ignored *)
Definition call_leg_fsm_releasing_onenter (l : nat) : M unit :=
  rtp_stream_release l RTP_TO_RAN ;;
  rtp_stream_release l RTP_TO_CN ;;
  call_leg_try_finish l.

Definition call_leg_release (ol : option nat) : M unit :=
  match ol with
  | None => ret tt
  | Some l =>
      cl <- get_leg l ;;
      if l_deallocating cl || bool_decide (l_state cl = CALL_LEG_ST_RELEASING) then ret tt
      else
        mod_leg l (fun cl => cl <| l_deallocating := true |>) ;;
        call_leg_detach_trans l ;;
        match l_parent cl with
        | Some c => a <- get_conn c ;;
                    when (negb (bool_decide (a_state a = MSC_A_TERMINATED)))
                      (dispatch c MSC_EV_CALL_LEG_TERM ;; ret tt)
        | None => ret tt
        end ;;
        mod_leg l (fun cl => cl <| l_parent := None |> <| l_state := CALL_LEG_ST_RELEASING |>) ;;
        call_leg_fsm_releasing_onenter l
  end.

Definition call_leg_dispatch_parent (l : nat) (ev : msc_a_event) : M unit :=
  cl <- get_leg l ;;
  if l_deallocating cl then ret tt
  else match l_parent cl with
       | Some c => dispatch c ev ;; ret tt
       | None => ret tt
       end.

Definition call_leg_mgw_endpoint_gone (l : nat) : M unit :=
  mod_leg l (fun cl => cl <| l_mgw_endpoint := false |>
                          <| l_rtp_ran ::= fmap (fun s => s <| s_ci := false |>) |>
                          <| l_rtp_cn ::= fmap (fun s => s <| s_ci := false |>) |>).

Definition rtp_stream_is_established (os : option rtp_stream) : bool :=
  match os with
  | Some s => bool_decide (s_state s = RTP_STREAM_ST_ESTABLISHED) && s_remote_sent s && s_codecs_sent s
              && s_mode_sent s && (negb (s_use_osmux s) || s_osmux_cid_sent s)
  | None => false
  end.

Definition call_leg_fsm_established_onenter (l : nat) : M unit :=
  call_leg_dispatch_parent l MSC_EV_CALL_LEG_RTP_COMPLETE.

(** CALL_LEG_EV_* *)
Inductive call_leg_event : Type :=
| CALL_LEG_EV_RTP_STREAM_ADDR_AVAILABLE (dir : rtp_direction)
| CALL_LEG_EV_RTP_STREAM_ESTABLISHED | CALL_LEG_EV_RTP_STREAM_GONE | CALL_LEG_EV_MGW_ENDPOINT_GONE.

Definition call_leg_fsm_establishing_established (l : nat) (ev : call_leg_event) : M unit :=
  match ev with
  | CALL_LEG_EV_RTP_STREAM_ESTABLISHED =>
      cl <- get_leg l ;;
      when (rtp_stream_is_established (l_rtp_ran cl) && rtp_stream_is_established (l_rtp_cn cl)
            && negb (l_deallocating cl) && negb (bool_decide (l_state cl = CALL_LEG_ST_ESTABLISHED)))
        (mod_leg l (fun cl => cl <| l_state := CALL_LEG_ST_ESTABLISHED |>) ;;
         call_leg_fsm_established_onenter l)
  | CALL_LEG_EV_RTP_STREAM_ADDR_AVAILABLE d =>
      call_leg_dispatch_parent l (MSC_EV_CALL_LEG_RTP_LOCAL_ADDR_AVAILABLE d)
  | CALL_LEG_EV_RTP_STREAM_GONE => call_leg_release (Some l)
  | CALL_LEG_EV_MGW_ENDPOINT_GONE => call_leg_mgw_endpoint_gone l ;; call_leg_release (Some l)
  end.

Definition call_leg_fsm_releasing (l : nat) (ev : call_leg_event) : M unit :=
  match ev with
  | CALL_LEG_EV_MGW_ENDPOINT_GONE => call_leg_mgw_endpoint_gone l ;; call_leg_try_finish l
  | _ => ret tt
  end.

Definition call_leg_dispatch (l : nat) (ev : call_leg_event) : M unit :=
  cl <- get_leg l ;;
  match l_state cl with
  | CALL_LEG_ST_RELEASING => call_leg_fsm_releasing l ev
  | _ => call_leg_fsm_establishing_established l ev
  end.

(** the state timer of a leg *)
Definition call_leg_fsm_timer_cb (l : nat) : M unit :=
  cl <- get_leg l ;;
  match l_state cl with
  | CALL_LEG_ST_RELEASING => modify (fun w => w <| w_legs ::= delete l |>)
  | _ => call_leg_release (Some l)
  end.

(** ** RTP streams *)

Definition rtp_stream_alloc (d : rtp_direction) (call_id : Z) (for_trans : option nat) : rtp_stream :=
  mk_rtps RTP_STREAM_ST_UNINITIALIZED d call_id for_trans no_addr no_addr false false [] false false
    false (-2) (-2) false 0 false.

(** the codecs as the gateway gets them; unknown ones are left out *)
Definition mgcp_ptmap (codecs : sdp_audio_codecs) : list (mgcp_codecs * Z) :=
  omap (fun c => match codec_mapping_by_subtype_name (subtype_name c) with
                 | Some m => Some (cm_mgcp m, payload_type c)
                 | None => None
                 end) codecs.

Definition rtp_stream_do_mgcp_verb (l : nat) (d : rtp_direction) (verb : mgcp_verb) : M Z :=
  s <- get_rtp l d ;;
  if negb (s_ci s) then ret (- EINVAL)
  else
    let ptmap := if s_codecs_known s then mgcp_ptmap (s_codecs s) else [] in
    when (Nat.ltb MGCP_MAX_CODECS (length ptmap)) (crash BufferOverflow) ;;
    mod_rtp l d (fun s => s <| s_codecs_sent ::= orb (s_codecs_known s) |>) ;;
    let remote := osmo_sockaddr_str_is_nonzero (s_remote s) in
    if remote && str_empty (sa_ip (s_remote s)) then ret (-28) (* ENOSPC *)
    else
      mod_rtp l d (fun s => s <| s_remote_sent ::= orb remote |> <| s_mode_sent := true |>
                              <| s_osmux_cid_sent ::= orb (s_use_osmux s && (0 <=? s_remote_osmux_cid s)) |>) ;;
      emit (OutMgcp l d verb (s_call_id s) ptmap (if remote then s_remote s else no_addr)) ;;
      ret 0.

Definition rtp_stream_commit (l : nat) (d : rtp_direction) : M Z :=
  s <- get_rtp l d ;;
  if negb (osmo_sockaddr_str_is_nonzero (s_remote s)) then ret (-1)
  else if negb (s_codecs_known s) then ret (-1)
  else if s_remote_sent s && s_codecs_sent s && s_mode_sent s then ret 0
  else if negb (s_ci s) then ret (-1)
  else rtp_stream_do_mgcp_verb l d MGCP_VERB_MDCX.

(** osmo_mgcpc_ep_ci_add can fail *)
Definition rtp_stream_ensure_ci (l : nat) (d : rtp_direction) : M Z :=
  s <- get_rtp l d ;;
  if s_ci s then rtp_stream_commit l d
  else
    mod_rtp l d (fun s => s <| s_state := RTP_STREAM_ST_ESTABLISHING |>) ;;
    failed <- ask ;;
    if negb (failed =? 0) then ret (- ENODEV)
    else mod_rtp l d (fun s => s <| s_ci := true |>) ;; rtp_stream_do_mgcp_verb l d MGCP_VERB_CRCX.

(** a change of the settings takes an established stream back *)
Definition unestablish (s : rtp_stream) : rtp_stream :=
  if bool_decide (s_state s = RTP_STREAM_ST_ESTABLISHED) then s <| s_state := RTP_STREAM_ST_ESTABLISHING |> else s.

Definition rtp_stream_set_codecs (codecs : sdp_audio_codecs) (s : rtp_stream) : rtp_stream :=
  match codecs with
  | [] => s
  | _ => if bool_decide (sdp_audio_codecs_cmp (s_codecs s) codecs false true = Eq) then s
         else unestablish s <| s_codecs := codecs |> <| s_codecs_known := true |> <| s_codecs_sent := false |>
  end.
Definition rtp_stream_set_mode (mode : Z) (s : rtp_stream) : rtp_stream :=
  if s_mode s =? mode then s else unestablish s <| s_mode_sent := false |> <| s_mode := mode |>.
Definition rtp_stream_set_one_codec (codec : sdp_audio_codec) (s : rtp_stream) : rtp_stream :=
  rtp_stream_set_codecs (snd (sdp_audio_codecs_add_copy [] codec)) s.
Definition rtp_stream_set_remote_addr (r : sockaddr_str) (s : rtp_stream) : rtp_stream :=
  if osmo_sockaddr_str_eq (s_remote s) r then s
  else unestablish s <| s_remote := r |> <| s_remote_sent := false |>.
Definition rtp_stream_set_remote_addr_and_codecs (sdp : sdp_msg) (s : rtp_stream) : rtp_stream :=
  let s := rtp_stream_set_codecs (sdp_codecs sdp) s in
  if osmo_sockaddr_str_is_nonzero (sdp_rtp sdp) then rtp_stream_set_remote_addr (sdp_rtp sdp) s else s.
Definition rtp_stream_set_remote_osmux_cid (cid : Z) (s : rtp_stream) : rtp_stream :=
  unestablish s <| s_remote_osmux_cid := cid |> <| s_osmux_cid_sent := false |>.

(** mgcp_client_pool_get and osmo_mgcpc_ep_alloc can fail *)
Definition call_leg_ensure_rtp_alloc (l : nat) (d : rtp_direction) (call_id : Z) (for_trans : option nat) : M Z :=
  cl <- get_leg l ;;
  match l_rtp d cl with
  | Some _ => ret 0
  | None =>
      rc <- (if l_mgw_endpoint cl then ret 0
             else no_client <- ask ;;
                  if negb (no_client =? 0) then ret (- ENODEV)
                  else no_ep <- ask ;;
                       if negb (no_ep =? 0) then ret (- EIO)
                       else mod_leg l (fun cl => cl <| l_mgw_endpoint := true |>) ;; ret 0) ;;
      if negb (rc =? 0) then ret rc
      else mod_leg l (set_l_rtp d (Some (rtp_stream_alloc d call_id for_trans))) ;; ret 0
  end.

Definition call_leg_local_ip (ol : option nat) (d : rtp_direction) : M (option sockaddr_str) :=
  match ol with
  | None => ret None
  | Some l => cl <- get_leg l ;;
              match l_rtp d cl with
              | Some s => ret (if osmo_sockaddr_str_is_nonzero (s_local s) then Some (s_local s) else None)
              | None => ret None
              end
  end.

Definition call_leg_ensure_ci (l : nat) (d : rtp_direction) (call_id : Z) (for_trans : option nat)
  (codecs : option sdp_audio_codecs) (remote : option sockaddr_str) : M Z :=
  rc <- call_leg_ensure_rtp_alloc l d call_id for_trans ;;
  if negb (rc =? 0) then ret (- EIO)
  else
    cl <- get_leg l ;;
    mod_rtp l d (fun s =>
      let s := rtp_stream_set_mode (l_mode d cl) s in
      let s := if bool_decide (d = RTP_TO_RAN) && l_ran_osmux cl
               then s <| s_use_osmux := true |> <| s_remote_osmux_cid := -1 |> else s in
      let s := match codecs with Some ac => rtp_stream_set_codecs ac s | None => s end in
      match remote with
      | Some r => if osmo_sockaddr_str_is_nonzero r then rtp_stream_set_remote_addr r s else s
      | None => s
      end) ;;
    rtp_stream_ensure_ci l d.

(** the address of the CN side of the other leg is read without a check *)
Definition call_leg_local_bridge (l1 l2 : option nat) (call_id1 call_id2 : Z) (t1 t2 : nat) : M Z :=
  l1 <- deref l1 ;; l2 <- deref l2 ;;
  mod_leg l1 (fun cl => cl <| l_local_bridge := Some l2 |>) ;;
  mod_leg l2 (fun cl => cl <| l_local_bridge := Some l1 |>) ;;
  cl1 <- get_leg l1 ;; cl2 <- get_leg l2 ;;
  let known cl := match l_rtp_cn cl with
                  | Some s => if s_codecs_known s then Some (s_codecs s) else None
                  | None => None
                  end in
  match (match known cl1 with Some ac => Some ac | None => known cl2 end) with
  | None => ret (- EINVAL)
  | Some ac =>
      s2 <- get_rtp l2 RTP_TO_CN ;;
      call_leg_ensure_ci l1 RTP_TO_CN call_id1 (Some t1) (Some ac) (Some (s_local s2)) ;;
      s1 <- get_rtp l1 RTP_TO_CN ;;
      call_leg_ensure_ci l2 RTP_TO_CN call_id2 (Some t2) (Some ac) (Some (s_local s1)) ;;
      ret 0
  end.

(** *** Events of a stream *)

(** the answer to a CRCX *)
#[projections(primitive)]
Record crcx_info : Type := mk_crcx { ci_addr : string; ci_port : Z; ci_osmux : bool; ci_osmux_cid : Z }.
Inductive rtp_stream_event : Type :=
| RTP_STREAM_EV_CRCX_OK (info : option crcx_info) | RTP_STREAM_EV_CRCX_FAIL
| RTP_STREAM_EV_MDCX_OK | RTP_STREAM_EV_MDCX_FAIL.

Definition check_established (l : nat) (d : rtp_direction) : M unit :=
  s <- get_rtp l d ;;
  when (negb (bool_decide (s_state s = RTP_STREAM_ST_ESTABLISHED))
        && osmo_sockaddr_str_is_nonzero (s_local s) && osmo_sockaddr_str_is_nonzero (s_remote s)
        && s_remote_sent s && (negb (s_use_osmux s) || s_osmux_cid_sent s) && s_codecs_known s)
    (mod_rtp l d (fun s => s <| s_state := RTP_STREAM_ST_ESTABLISHED |>) ;;
     call_leg_dispatch l CALL_LEG_EV_RTP_STREAM_ESTABLISHED).

(** DISCARDING: the stream ends and reports that to the leg *)
Definition rtp_stream_term (l : nat) (d : rtp_direction) : M unit :=
  rtp_stream_discard l d ;; call_leg_dispatch l CALL_LEG_EV_RTP_STREAM_GONE.

(** is the stream still there after the leg has been told something? *)
Definition rtp_alive (l : nat) (d : rtp_direction) : M bool :=
  gets (fun w => match w_legs w !! l with Some cl => bool_decide (is_Some (l_rtp d cl)) | None => false end).

Definition rtp_stream_crcx_ok (l : nat) (d : rtp_direction) (info : crcx_info) : M unit :=
  mod_rtp l d (fun s => s <| s_local := osmo_sockaddr_str_from_str (ci_addr info) (ci_port info) |>) ;;
  s <- get_rtp l d ;;
  if negb (Bool.eqb (s_use_osmux s) (ci_osmux info)) then rtp_stream_term l d
  else
    when (ci_osmux info) (mod_rtp l d (fun s => s <| s_local_osmux_cid := ci_osmux_cid info |>)) ;;
    call_leg_dispatch l (CALL_LEG_EV_RTP_STREAM_ADDR_AVAILABLE d) ;;
    alive <- rtp_alive l d ;;
    when alive
      (check_established l d ;;
       s <- get_rtp l d ;;
       when ((negb (s_remote_sent s) || negb (s_codecs_sent s) || negb (s_mode_sent s))
             && osmo_sockaddr_str_is_nonzero (s_remote s)
             && (negb (s_use_osmux s) || s_osmux_cid_sent s) && s_codecs_known s)
         (rtp_stream_do_mgcp_verb l d MGCP_VERB_MDCX ;; ret tt)).

(** only in ESTABLISHING does a stream take events *)
Definition rtp_stream_dispatch (l : nat) (d : rtp_direction) (ev : rtp_stream_event) : M unit :=
  s <- get_rtp l d ;;
  match s_state s with
  | RTP_STREAM_ST_ESTABLISHING =>
      match ev with
      | RTP_STREAM_EV_CRCX_OK info =>
          if negb (s_ci s) then ret tt
          else match info with Some info => rtp_stream_crcx_ok l d info | None => ret tt end
      | RTP_STREAM_EV_MDCX_OK => check_established l d
      | RTP_STREAM_EV_CRCX_FAIL | RTP_STREAM_EV_MDCX_FAIL => rtp_stream_term l d
      end
  | _ => ret tt
  end.
End leg.
