(* ===== verification/CallAssign.v ===== *)
(** * Assignment of a channel to a call

    The codec and bearer service filters of a call (transaction_cc.c), the
    assignment of a traffic channel and the state machine of the connection
    as far as calls are concerned (msc_a.c), and what call control does when
    the gateway's addresses are known (gsm_04_08_cc.c). *)

From S2P Require Import Prelude VlrTypes Codecs Csd Sdp Mncc CallTypes CallBase CallLeg.

Definition MNCC_SDP_SIZE : nat := 1024.

Inductive itcap : Type := ItSpeech | ItData | ItOther.
#[export] Instance itcap_eq_dec : EqDecision itcap.
Proof. solve_decision. Defined.
(** the information transfer capabilities as the code tells them apart *)
Definition itcap_of (transfer : Z) : itcap :=
  if transfer =? GSM48_BCAP_ITCAP_SPEECH then ItSpeech
  else if (transfer =? GSM48_BCAP_ITCAP_3k1_AUDIO) || (transfer =? GSM48_BCAP_ITCAP_FAX_G3)
          || (transfer =? GSM48_BCAP_ITCAP_UNR_DIG_INF) then ItData
  else ItOther.

(** sdp_msg_from_sdp_str on trans->cc.remote: the result and whether a buffer
    was overrun *)
Definition sdp_overflows (rc : sdp_rc) : bool := match rc with SdpOverflow => true | _ => false end.

Section filters.
Context {AC : AmrCfg}.

(** ** Filters (transaction_cc.c)

    None of these does anything to a transaction that is being freed. *)

Definition unless_freeing (f : gsm_trans -> gsm_trans) (tr : gsm_trans) : gsm_trans :=
  if t_freeing tr then tr else f tr.

Definition trans_cc_filter_init (t : nat) : M unit :=
  mod_trans t (unless_freeing (fun tr => tr <| t_codecs := no_codec_filter |> <| t_csd := no_csd_filter |>)).
Definition trans_cc_filter_set_ran (t : nat) (ran : osmo_rat_type) : M unit :=
  mod_trans t (unless_freeing (fun tr => tr <| t_codecs ::= codec_filter_set_ran ran |>
                                            <| t_csd ::= csd_filter_set_ran ran |>)).
Definition trans_cc_filter_set_bss (t c : nat) : M unit :=
  a <- get_conn c ;;
  mod_trans t (unless_freeing (fun tr => tr <| t_codecs ::= codec_filter_set_bss (a_codec_list_bss a) |>)).

(** the filter itself, on the values *)
Definition filter_run (tr : gsm_trans) : gsm_trans :=
  match itcap_of (bc_transfer (t_bearer_cap tr)) with
  | ItSpeech =>
      tr <| t_local ::= fun sdp => sdp <| sdp_codecs := codec_filter_run (t_codecs tr) (sdp_codecs (t_remote tr)) |> |>
  | ItData =>
      if csd_bs_list_is_sane (df_ran (t_csd tr)) then
        let '(bs, ac) := csd_filter_run (t_csd tr) (sdp_bearer_services (t_remote tr)) in
        tr <| t_local ::= fun sdp => sdp <| sdp_codecs := ac |> <| sdp_bearer_services := bs |> |>
      else tr
  | ItOther => tr
  end.
Definition trans_cc_filter_run (t : nat) : M unit :=
  live <- trans_is_live (Some t) ;;
  when live (mod_trans t filter_run).

Definition codecs_from_bc (bc : gsm_mncc_bearer_cap) : sdp_audio_codecs * csd_bs_list :=
  match itcap_of (bc_transfer bc) with
  | ItSpeech => (sdp_audio_codecs_from_bearer_cap [] bc, [])
  | ItData => (sdp_audio_codecs_set_csd, csd_bs_list_from_bearer_cap bc)
  | ItOther => ([], [])
  end.
Definition trans_cc_filter_set_ms_from_bc (t : nat) (bc : option gsm_mncc_bearer_cap) : M unit :=
  let '(ac, bs) := match bc with Some bc => codecs_from_bc bc | None => ([], []) end in
  mod_trans t (unless_freeing (fun tr => tr <| t_codecs ::= fun f => f <| cf_ms := ac |> |>
                                            <| t_csd ::= fun f => f <| df_ms := bs |> |>)).
Definition trans_cc_set_remote_from_bc (t : nat) (bc : option gsm_mncc_bearer_cap) : M unit :=
  let '(ac, bs) := match bc with Some bc => codecs_from_bc bc | None => ([], []) end in
  mod_trans t (unless_freeing (fun tr => tr <| t_remote ::= fun sdp => sdp <| sdp_codecs := ac |>
                                                                         <| sdp_bearer_services := bs |> |>)).
End filters.

Section assign.
Context {SL : SockaddrLib} {CL : CallLib} {AC : AmrCfg} {DR : DataRates}.

(** the stream of the call leg, if there are both *)
Definition conn_rtp (a : msc_a) (d : rtp_direction) : M (option rtp_stream) :=
  match a_call_leg a with Some l => cl <- get_leg l ;; ret (l_rtp d cl) | None => ret None end.

(** ** Messages about RTP (gsm_04_08_cc.c) *)

Definition mncc_recv_rtp (ot : option nat) (callref : Z) (cmd : mncc_msg) (addr : option sockaddr_str)
  (payload_type : Z) (payload_msg : mncc_payload) (sdp : option sdp_msg) : M Z :=
  let bytes := match addr with Some a => osmo_sockaddr_str_to_sockaddr a | None => Some [] end in
  match bytes with
  | None => ret (- EINVAL)
  | Some bytes =>
      let text := match sdp with Some _ => fst (sdp_msg_to_sdp_str_buf MNCC_SDP_SIZE sdp) | None => "" end in
      mncc_recv_prim ot (MnccRtp (mk_mncc_rtp cmd callref bytes payload_type payload_msg text))
  end.
Definition mncc_recv_rtp_err (ot : option nat) (callref : Z) (cmd : mncc_msg) : M unit :=
  mncc_recv_rtp ot callref cmd None 0 PAYLOAD_NONE None ;; ret tt.

(** the legacy payload type of the codec, 0 if unknown *)
Definition payload_msg_type (name : string) : mncc_payload :=
  match codec_mapping_by_subtype_name name with Some m => cm_mncc_payload_msg_type m | None => PAYLOAD_NONE end.

Definition gsm48_tch_rtp_create (t : nat) : M Z :=
  tr <- get_trans t ;;
  c <- deref (t_msc_a tr) ;;
  a <- get_conn c ;;
  rtp_cn <- conn_rtp a RTP_TO_CN ;;
  match rtp_cn with
  | None => ret (- EINVAL)
  | Some _ =>
      trans_cc_filter_run t ;;
      tr <- get_trans t ;;
      match sdp_codecs (t_local tr) with
      | [] => ret (- EINVAL)
      | codec :: _ =>
          addr <- call_leg_local_ip (a_call_leg a) RTP_TO_CN ;;
          match addr with
          | None => ret (- EINVAL)
          | Some addr =>
              mncc_recv_rtp (Some t) (t_callref tr) MNCC_RTP_CREATE (Some addr) (payload_type codec)
                (payload_msg_type (subtype_name codec)) (Some (t_local tr))
          end
      end
  end.

Section rec.
Variable dispatch : nat -> msc_a_event -> M Z.

(** ** The address towards the core network is known *)

(** MO call: the setup can be indicated *)
Definition gsm48_cc_rx_setup_cn_local_rtp_port_known (t : nat) : M unit :=
  tr <- get_trans t ;;
  let setup := t_msg tr in
  let abort := mod_trans t (fun tr => tr <| t_callref := 0 |>) ;; trans_free dispatch t in
  if negb (bool_decide (t_state tr = GSM_CSTATE_INITIATED) && bool_decide (m_msg_type setup = MNCC_SETUP_IND))
  then abort
  else match t_msc_a tr with
       | None => abort
       | Some c =>
           mod_trans t (fun tr => tr <| t_msg := empty_mncc |>) ;;
           a <- get_conn c ;;
           addr <- call_leg_local_ip (a_call_leg a) RTP_TO_CN ;;
           match addr with
           | None => trans_free dispatch t
           | Some addr =>
               mod_trans t (fun tr => tr <| t_local ::= fun sdp => sdp <| sdp_rtp := addr |> |>) ;;
               tr <- get_trans t ;;
               let sdp := match sdp_codecs (t_local tr) with [] => None | _ => Some (t_local tr) end in
               let '(text, len) := sdp_msg_to_sdp_str_buf MNCC_SDP_SIZE sdp in
               if Nat.leb MNCC_SDP_SIZE len then trans_free dispatch t
               else mncc_recvmsg (Some t) MNCC_SETUP_IND (setup <| m_sdp := text |>) ;; ret tt
           end
       end.

(** MT call: MNCC gets the address once a codec is assigned *)
Definition gsm48_cc_mt_rtp_port_and_codec_known (t : nat) : M Z :=
  tr <- get_trans t ;;
  match t_msc_a tr with
  | None => mod_trans t (fun tr => tr <| t_callref := 0 |>) ;; trans_free dispatch t ;; ret (- EINVAL)
  | Some c =>
      a <- get_conn c ;;
      addr <- call_leg_local_ip (a_call_leg a) RTP_TO_CN ;;
      match addr with
      | None => trans_free dispatch t ;; ret (- EINVAL)
      | Some addr =>
          mod_trans t (fun tr => tr <| t_local ::= fun sdp => sdp <| sdp_rtp := addr |> |>) ;;
          trans_cc_filter_run t ;;
          tr <- get_trans t ;;
          if negb (sdp_audio_codec_is_set (cf_assignment (t_codecs tr))) then ret 0
          else mncc_recv_rtp (Some t) (t_callref tr) MNCC_RTP_CREATE (Some addr) 0 PAYLOAD_NONE (Some (t_local tr))
      end
  end.

Definition cc_on_cn_local_rtp_port_known (t : nat) : M Z :=
  tr <- get_trans t ;;
  match t_state tr with
  | GSM_CSTATE_INITIATED =>
      if negb (bool_decide (m_msg_type (t_msg tr) = MNCC_SETUP_IND)) then ret (- EINVAL)
      else gsm48_cc_rx_setup_cn_local_rtp_port_known t ;; ret 0
  | GSM_CSTATE_MO_TERM_CALL_CONF => gsm48_cc_mt_rtp_port_and_codec_known t
  | _ => ret (- EINVAL)
  end.

Definition cc_on_assignment_done (t : nat) : M Z :=
  tr <- get_trans t ;;
  match t_state tr with
  | GSM_CSTATE_INITIATED | GSM_CSTATE_MO_CALL_PROC | GSM_CSTATE_CALL_RECEIVED | GSM_CSTATE_MO_TERM_CALL_CONF =>
      c <- deref (t_msc_a tr) ;;
      a <- get_conn c ;;
      addr <- call_leg_local_ip (a_call_leg a) RTP_TO_CN ;;
      match addr with
      | None => ret 0
      | Some _ => gsm48_tch_rtp_create t
      end
  | GSM_CSTATE_ACTIVE | GSM_CSTATE_CALL_DELIVERED | GSM_CSTATE_CONNECT_IND => ret 0
  | _ => ret (- EINVAL)
  end.

(** ** Assignment (msc_a.c) *)

Definition msc_a_in_release (c : nat) : M bool :=
  a <- get_conn c ;;
  ret (match a_state a with MSC_A_ST_RELEASING | MSC_A_ST_RELEASED | MSC_A_TERMINATED => true | _ => false end).

Definition msc_a_ensure_call_leg (c t : nat) : M (option nat) :=
  a <- get_conn c ;;
  when (opt_eqb (a_active_trans a) None) (mod_conn c (fun a => a <| a_active_trans := Some t |>)) ;;
  a <- get_conn c ;;
  if negb (opt_eqb (a_active_trans a) (Some t)) then ret None
  else match a_call_leg a with
       | Some l => ret (Some l)
       | None => osmux <- gets w_use_osmux ;;
                 l <- call_leg_alloc c (osmux && a_remote_osmux a) ;;
                 mod_conn c (fun a => a <| a_call_leg := Some l |>) ;;
                 ret (Some l)
       end.

Definition msc_a_ensure_cn_local_rtp (c t : nat) : M Z :=
  ol <- msc_a_ensure_call_leg c t ;;
  match ol with
  | None => ret (- EINVAL)
  | Some l =>
      addr <- call_leg_local_ip (Some l) RTP_TO_CN ;;
      match addr with
      | Some _ => dispatch c (MSC_EV_CALL_LEG_RTP_LOCAL_ADDR_AVAILABLE RTP_TO_CN)
      | None =>
          cl <- get_leg l ;;
          tr <- get_trans t ;;
          call_leg_ensure_ci l RTP_TO_CN (t_call_id tr) (Some t)
            (match l_rtp_ran cl with
             | Some s => if s_codecs_known s then Some (s_codecs s) else None
             | None => None
             end) None
      end
  end.

Definition msc_a_abort_assignment (c : nat) (ot : option nat) : M unit :=
  a <- get_conn c ;;
  mod_conn c (fun a => a <| a_assignment_pending := false |>) ;;
  msc_a_get dispatch c "msc_a_abort_assignment" ;;
  match a_call_leg a with Some l => call_leg_detach_trans l | None => ret tt end ;;
  match ot with Some t => trans_free dispatch t | None => ret tt end ;;
  call_leg_release dispatch (a_call_leg a) ;;
  msc_a_put dispatch c "msc_a_abort_assignment".

(** the channel type of a call; [None]: the assignment is not possible *)
Definition assign_channel_type (tr : gsm_trans) : option gsm0808_channel_type :=
  match itcap_of (bc_transfer (t_bearer_cap tr)) with
  | ItSpeech =>
      match sdp_codecs (t_local tr) with
      | [] => None
      | ac => sdp_audio_codecs_to_gsm0808_channel_type ac
      end
  | ItData =>
      if csd_bs_list_is_sane (df_ran (t_csd tr)) && csd_bs_list_is_sane (sdp_bearer_services (t_local tr))
      then csd_bs_list_to_gsm0808_channel_type (sdp_bearer_services (t_local tr)) else None
  | ItOther => None
  end.

Definition is_cc (tr : gsm_trans) : bool := type_eqb (t_type tr) TRANS_CC.

Definition msc_a_tx_assignment_cmd (c : nat) : M unit :=
  a <- get_conn c ;;
  released <- msc_a_in_release c ;;
  if released then ret tt
  else if a_assignment_pending a then ret tt
  else
    live <- trans_is_live (a_active_trans a) ;;
    match a_active_trans a with
    | Some t =>
        tr <- get_trans t ;;
        if negb (live && is_cc tr) then
          mod_conn c (fun a => a <| a_active_trans := None |>) ;;
          call_leg_release dispatch (a_call_leg a)
        else
          mod_conn c (fun a => a <| a_assignment_pending := true |>) ;;
          trans_cc_filter_run t ;;
          live <- trans_is_live (Some t) ;;
          a <- get_conn c ;;
          if negb (live && opt_eqb (a_active_trans a) (Some t)) then
            mod_conn c (fun a => a <| a_assignment_pending := false |>)
          else
            tr <- get_trans t ;;
            match assign_channel_type tr with
            | None => msc_a_abort_assignment c (Some t)
            | Some ct =>
                s <- conn_rtp a RTP_TO_RAN ;;
                match s with
                | None => msc_a_abort_assignment c (Some t)
                | Some s =>
                    emit (OutAssignment c ct (t_call_id tr) (t_lcls tr) (s_local s)) ;;
                    failed <- ask ;;
                    when (negb (failed =? 0)) (msc_a_abort_assignment c (Some t))
                end
            end
    | None => call_leg_release dispatch (a_call_leg a)
    end.

(** a call of the connection that has not been assigned a channel *)
Definition find_waiting_call (c : nat) (w : cc_world) : option nat :=
  trans_find (fun t tr => opt_eqb (t_msc_a tr) (Some c) && is_cc tr
                          && negb (opt_eqb (w_conns w !! c ≫= a_active_trans) (Some t))) w.

Definition msc_a_start_assignment (c t : nat) : M Z :=
  a <- get_conn c ;;
  if negb (opt_eqb (a_active_trans a) None) then crash AssertFailed
  else
    mod_conn c (fun a => a <| a_active_trans := Some t |>) ;;
    mod_trans t (fun tr => tr <| t_codecs ::= fun f => f <| cf_assignment := no_codec |> |>) ;;
    tr <- get_trans t ;;
    if negb (is_cc tr) then crash AssertFailed
    else
      ol <- msc_a_ensure_call_leg c t ;;
      match ol with
      | None => ret (- EINVAL)
      | Some l =>
          trans_cc_filter_run t ;;
          cn <- call_leg_local_ip (Some l) RTP_TO_CN ;;
          ran <- call_leg_local_ip (Some l) RTP_TO_RAN ;;
          tr <- get_trans t ;;
          let ac := sdp_codecs (t_local tr) in
          match cn with
          | None => call_leg_ensure_ci l RTP_TO_CN (t_call_id tr) (Some t) (Some ac) None ;; ret tt
          | Some _ => ret tt
          end ;;
          match ran, cn with
          | None, _ =>
              call_leg_ensure_ci l RTP_TO_RAN (t_call_id tr) (Some t)
                (Some (match a_force_mgw_codecs a with [] => ac | forced => forced end)) None
          | Some _, Some _ => dispatch c (MSC_EV_CALL_LEG_RTP_LOCAL_ADDR_AVAILABLE RTP_TO_RAN)
          | Some _, None => ret 0
          end
      end.

Definition msc_a_try_call_assignment (t : nat) : M Z :=
  tr <- get_trans t ;;
  c <- deref (t_msc_a tr) ;;
  a <- get_conn c ;;
  if negb (is_cc tr) then crash AssertFailed
  else match a_active_trans a with
       | Some _ => ret 0
       | None => msc_a_start_assignment c t
       end.

(** *** The result of an assignment *)

(** what Assignment Complete reports *)
#[projections(primitive)]
Record assignment_complete : Type := mk_ac {
  ac_codec : option gsm0808_speech_codec; ac_osmux_present : bool; ac_osmux_cid : Z;
  ac_remote_rtp : sockaddr_str; ac_codec_list_bss : option (list gsm0808_speech_codec)
}.

(** the codec that the answer gives; the outer [None]: the answer is not
    acceptable *)
Definition assigned_codec (tr : gsm_trans) (ac : assignment_complete) : option (option codec_mapping) :=
  match ac_codec ac with
  | None => Some None
  | Some sc =>
      if bool_decide (itcap_of (bc_transfer (t_bearer_cap tr)) = ItData)
         && negb (bool_decide (g_type sc = GSM0808_SCT_CSD)) then None
      else match codec_mapping_by_gsm0808_speech_codec_type (g_type sc) with
           | Some m => Some (Some m)
           | None => None
           end
  end.

Definition vgcs_trans (c : nat) (w : cc_world) : option nat :=
  let vsub := w_conns w !! c ≫= a_vsub in
  match trans_find_by_type vsub TRANS_GCC w with
  | Some t => Some t
  | None => trans_find_by_type vsub TRANS_BCC w
  end.

(** a voice group call handles the answer itself *)
Definition msc_a_up_call_assignment_complete (c : nat) (ac : assignment_complete) : M unit :=
  a <- get_conn c ;;
  released <- msc_a_in_release c ;;
  if released || negb (a_assignment_pending a) then ret tt
  else
    mod_conn c (fun a => a <| a_assignment_pending := false |>) ;;
    group <- gets (vgcs_trans c) ;;
    leg <- (match a_call_leg a with Some l => cl <- get_leg l ;; ret (Some (l, cl)) | None => ret None end) ;;
    match group, leg, a_active_trans a with
    | Some g, _, _ => emit (OutVgcs g true)
    | None, Some (l, cl), Some t =>
        match l_rtp_ran cl with
        | None => ret tt
        | Some s =>
            tr <- get_trans t ;;
            if negb (Bool.eqb (s_use_osmux s) (ac_osmux_present ac)) then msc_a_abort_assignment c (Some t)
            else match assigned_codec tr ac with
                 | None => msc_a_abort_assignment c (Some t)
                 | Some om =>
                     let sdp := match om with Some m => cm_sdp m | None => no_codec end in
                     when (bool_decide (is_Some om) && match a_force_mgw_codecs a with [] => true | _ => false end)
                       (mod_rtp l RTP_TO_RAN (rtp_stream_set_one_codec sdp)) ;;
                     mod_trans t (fun tr => tr <| t_codecs ::= fun f => f <| cf_assignment := sdp |> |>) ;;
                     mod_rtp l RTP_TO_RAN (rtp_stream_set_remote_addr (ac_remote_rtp ac)) ;;
                     when (s_use_osmux s)
                       (mod_rtp l RTP_TO_RAN (rtp_stream_set_remote_osmux_cid (ac_osmux_cid ac))) ;;
                     rtp_stream_commit l RTP_TO_RAN ;;
                     match ac_codec_list_bss ac with
                     | Some bss => mod_trans t (fun tr => tr <| t_codecs ::= codec_filter_set_bss (Some bss) |>)
                     | None => ret tt
                     end ;;
                     trans_cc_filter_run t ;;
                     rc <- cc_on_assignment_done t ;;
                     when (negb (rc =? 0)) (msc_a_abort_assignment c (Some t))
                 end
        end
    | None, _, _ => ret tt
    end.

(** [from_ran]: an answer of the RAN, else a timeout *)
Definition msc_a_up_call_assignment_failure (c : nat) (from_ran : bool) : M unit :=
  a <- get_conn c ;;
  mod_conn c (fun a => a <| a_assignment_pending := false |>) ;;
  if from_ran && negb (a_assignment_pending a) then ret tt
  else
    rtp_ran <- conn_rtp a RTP_TO_RAN ;;
    match rtp_ran with
    | Some _ => msc_a_abort_assignment c (a_active_trans a)
    | None =>
        group <- gets (vgcs_trans c) ;;
        match group with
        | Some g => emit (OutVgcs g false)
        | None =>
            silent <- gets (trans_find_by_type (a_vsub a) TRANS_SILENT_CALL) ;;
            match silent with
            | Some t => trans_free dispatch t
            | None => dispatch c MSC_A_EV_CN_CLOSE ;; ret tt
            end
        end
    end.

(** ** The state machine of the connection *)

Definition msc_a_set_state (c : nat) (s : msc_a_state) : M unit := mod_conn c (fun a => a <| a_state := s |>).

(** osmo_fsm_inst_term: the clean-up frees what is left *)
Definition msc_a_fsm_cleanup (c : nat) : M unit :=
  trans_conn_closed dispatch c ;;
  a <- get_conn c ;;
  match a_vsub a with
  | Some v => mod_vsub v (fun s => if opt_eqb (sb_conn s) (Some c) then s <| sb_conn := None |> else s)
  | None => ret tt
  end ;;
  mod_conn c (fun a => a <| a_assignment_pending := false |>).
Definition msc_a_term (c : nat) : M unit :=
  msc_a_set_state c MSC_A_TERMINATED ;; msc_a_fsm_cleanup c.

Definition msc_a_fsm_released_onenter (c : nat) : M unit :=
  a <- get_conn c ;; when (use_total (a_uses a) =? 0) (msc_a_term c).

Definition msc_a_fsm_releasing_onenter (c : nat) : M unit :=
  a <- get_conn c ;;
  match a_vsub a with Some v => emit (OutConnClosed v) | None => ret tt end ;;
  mod_conn c (fun a => a <| a_assignment_pending := false |>) ;;
  call_leg_release dispatch (a_call_leg a) ;;
  trans_conn_closed dispatch c ;;
  msc_a_cancel_release_uses dispatch c ;;
  match a_ran a with
  | OSMO_RAT_EUTRAN_SGS =>
      match a_vsub a with Some v => emit (OutSgsRelease v) | None => ret tt end ;;
      msc_a_set_state c MSC_A_ST_RELEASED ;;
      msc_a_fsm_released_onenter c
  | _ =>
      msc_a_get dispatch c MSC_A_USE_WAIT_CLEAR_COMPLETE ;;
      emit (OutClear c)
  end.

Definition msc_a_fsm_releasing_start (c : nat) : M unit :=
  msc_a_set_state c MSC_A_ST_RELEASING ;; msc_a_fsm_releasing_onenter c.

Definition msc_a_fsm_communicating (c : nat) (ev : msc_a_event) : M unit :=
  match ev with
  | MSC_A_EV_TRANSACTION_ACCEPTED | MSC_EV_CALL_LEG_RTP_COMPLETE => ret tt
  | MSC_EV_CALL_LEG_RTP_LOCAL_ADDR_AVAILABLE d =>
      a <- get_conn c ;;
      match a_call_leg a with
      | None => ret tt
      | Some l =>
          s <- get_rtp l d ;;
          if negb (osmo_sockaddr_str_is_nonzero (s_local s)) then call_leg_release dispatch (Some l)
          else match d with
               | RTP_TO_RAN => msc_a_tx_assignment_cmd c
               | RTP_TO_CN => match s_for_trans s with
                              | Some t => cc_on_cn_local_rtp_port_known t ;; ret tt
                              | None => ret tt
                              end
               end
      end
  | MSC_EV_CALL_LEG_TERM =>
      mod_conn c (fun a => a <| a_call_leg := None |>) ;;
      msc_a_get dispatch c "msc_a_fsm_communicating" ;;
      a <- get_conn c ;;
      match a_active_trans a with Some t => trans_free dispatch t | None => ret tt end ;;
      released <- msc_a_in_release c ;;
      when (negb released)
        (waiting <- gets (find_waiting_call c) ;;
         match waiting with Some t => msc_a_try_call_assignment t ;; ret tt | None => ret tt end) ;;
      msc_a_put dispatch c "msc_a_fsm_communicating"
  | MSC_A_EV_MO_CLOSE | MSC_A_EV_CN_CLOSE | MSC_A_EV_UNUSED => msc_a_fsm_releasing_start c
  end.

Definition msc_a_fsm_authenticated (c : nat) (ev : msc_a_event) : M unit :=
  match ev with
  | MSC_A_EV_TRANSACTION_ACCEPTED => msc_a_set_state c MSC_A_ST_COMMUNICATING
  | _ => msc_a_fsm_releasing_start c
  end.

Definition msc_a_fsm_releasing (c : nat) (ev : msc_a_event) : M unit :=
  match ev with
  | MSC_EV_CALL_LEG_TERM => mod_conn c (fun a => a <| a_call_leg := None |>)
  | _ => ret tt
  end.

(** in_event_mask *)
Definition msc_a_permits (s : msc_a_state) (ev : msc_a_event) : bool :=
  match s, ev with
  | MSC_A_ST_AUTHENTICATED,
    (MSC_A_EV_TRANSACTION_ACCEPTED | MSC_A_EV_MO_CLOSE | MSC_A_EV_CN_CLOSE | MSC_A_EV_UNUSED) => true
  | MSC_A_ST_COMMUNICATING, _ => true
  | MSC_A_ST_RELEASING, (MSC_A_EV_UNUSED | MSC_EV_CALL_LEG_TERM | MSC_A_EV_CN_CLOSE) => true
  | MSC_A_ST_RELEASED, MSC_A_EV_UNUSED => true
  | _, _ => false
  end.

Definition msc_a_dispatch_body (c : nat) (ev : msc_a_event) : M Z :=
  a <- get_conn c ;;
  if negb (msc_a_permits (a_state a) ev) then ret (-1)
  else match a_state a with
       | MSC_A_ST_AUTHENTICATED => msc_a_fsm_authenticated c ev
       | MSC_A_ST_COMMUNICATING => msc_a_fsm_communicating c ev
       | MSC_A_ST_RELEASING => msc_a_fsm_releasing c ev
       | MSC_A_ST_RELEASED | MSC_A_TERMINATED => msc_a_term c
       end ;; ret 0.

(** the state timer: T-1 or T-2 *)
Definition msc_a_fsm_timer_cb (c : nat) : M unit :=
  a <- get_conn c ;;
  match a_state a with
  | MSC_A_ST_RELEASED =>
      msc_a_get dispatch c "msc_a_fsm_timer_cb" ;;
      msc_a_cancel_release_uses dispatch c ;;
      a <- get_conn c ;;
      if 1 <? use_total (a_uses a) then
        msc_a_put dispatch c "msc_a_fsm_timer_cb" ;; msc_a_term c
      else msc_a_put dispatch c "msc_a_fsm_timer_cb"
  | MSC_A_ST_RELEASING =>
      let n := use_by (a_uses a) MSC_A_USE_WAIT_CLEAR_COMPLETE in
      when (negb (n =? 0)) (msc_a_use dispatch c MSC_A_USE_WAIT_CLEAR_COMPLETE (- n)) ;;
      a <- get_conn c ;;
      when (bool_decide (a_state a = MSC_A_ST_RELEASING))
        (msc_a_set_state c MSC_A_ST_RELEASED ;; msc_a_fsm_released_onenter c)
  | _ => dispatch c MSC_A_EV_CN_CLOSE ;; ret tt
  end.
End rec.

(** the knot: at most [n] nested events *)
Fixpoint msc_a_dispatch (n : nat) (c : nat) (ev : msc_a_event) : M Z :=
  match n with
  | O => crash TooDeep
  | S n => msc_a_dispatch_body (msc_a_dispatch n) c ev
  end.
End assign.
