(* ===== verification/CallCc.v ===== *)
(** * Call control (gsm_04_08_cc.c)

    The messages between the MS and MNCC: one definition per handler, and the
    tables that choose the handler by the state of the call. *)

From S2P Require Import Prelude VlrTypes Codecs Csd Sdp Mncc CallTypes CallBase CallLeg CallAssign.

(** an element that was found sets its field *)
Definition with_ie {A : Type} (o : option A) (f : mncc_field) (set : A -> gsm_mncc -> gsm_mncc) (m : gsm_mncc)
  : gsm_mncc := match o with Some v => set v (add_field f m) | None => m end.
Definition set_bearer_cap bc m : gsm_mncc := m <| m_bearer_cap := bc |>.
Definition set_facility l m : gsm_mncc := m <| m_facility := l |>.
Definition set_progress l m : gsm_mncc := m <| m_progress := l |>.
Definition set_useruser l m : gsm_mncc := m <| m_useruser := l |>.
Definition set_ssversion l m : gsm_mncc := m <| m_ssversion := l |>.
Definition set_cccap l m : gsm_mncc := m <| m_cccap := l |>.
Definition set_cause c m : gsm_mncc := m <| m_cause := c |>.

Definition NUMBER_SIZE : nat := 33.
Definition IMSI_SIZE : nat := 16.
Definition GSM_MAX_LOWL_COMPAT : nat := 16.
Definition GSM_MAX_HIGHL_COMPAT : nat := 3.

(** a compatibility element is taken if it has 1 to [max] octets *)
Definition compat_ok (max : nat) (o : option (list Z)) : option (list Z) :=
  match o with
  | Some l => if Nat.ltb 0 (length l) && Nat.leb (length l) max then Some l else None
  | None => None
  end.

Definition GSM48_BCAP_TMOD_CIRCUIT : Z := 0.
Definition GSM48_BCAP_CODING_GSM_STD : Z := 0.
Definition GSM48_BCAP_RRQ_SPARE_NETWORK_TO_MS : Z := 0.

Definition default_cause : gsm_mncc_cause := mk_cause GSM48_CAUSE_LOC_PRN_S_LU 0 GSM48_CC_CAUSE_NORMAL_UNSPEC [].
(** the cause of the message or the default one *)
Definition cause_or_default (m : gsm_mncc) : list cc_ie :=
  [IeCause (if mncc_has m MNCC_F_CAUSE then m_cause m else default_cause)].

Definition call_msg (callref : Z) : gsm_mncc := empty_mncc <| m_callref := callref |>.

(** the setup of an MO call, as MNCC will get it *)
Definition rx_setup_mncc (route : option string) (s : cc_vsub) (rx : cc_rx) (m : gsm_mncc) : gsm_mncc :=
  let m := if bool_decide (r_type rx = MT_EMERG_SETUP)
           then let m := add_field MNCC_F_EMERGENCY m <| m_emergency := 1 |> in
                match route with
                | Some n => add_field MNCC_F_CALLED m <| m_called := mk_number 0 0 0 0 (strlcpy NUMBER_SIZE n) |>
                | None => m
                end
           else m in
  let m := add_field MNCC_F_CALLING m
             <| m_calling ::= fun n => n <| n_number := strlcpy NUMBER_SIZE (sb_msisdn s) |> |>
             <| m_imsi := strlcpy IMSI_SIZE (sb_imsi s) |> in
  let m := with_ie (r_bearer_cap rx) MNCC_F_BEARER_CAP set_bearer_cap m in
  let m := with_ie (r_facility rx) MNCC_F_FACILITY set_facility m in
  let m := with_ie (r_called rx) MNCC_F_CALLED (fun n m => m <| m_called := n |>) m in
  let m := with_ie (compat_ok GSM_MAX_LOWL_COMPAT (r_llc rx)) MNCC_F_LOWL_COMPAT (fun l m => m <| m_llc := l |>) m in
  let m := with_ie (compat_ok GSM_MAX_HIGHL_COMPAT (r_hlc rx)) MNCC_F_HIGHL_COMPAT (fun l m => m <| m_hlc := l |>) m in
  let m := with_ie (r_useruser rx) MNCC_F_USERUSER set_useruser m in
  let m := with_ie (r_ssversion rx) MNCC_F_SSVERSION set_ssversion m in
  let m := if r_clir_sup rx then m <| m_clir_sup := 1 |> else m in
  let m := if r_clir_inv rx then m <| m_clir_inv := 1 |> else m in
  with_ie (r_cccap rx) MNCC_F_CCCAP set_cccap m.

(** the elements of a SETUP to the MS; for speech the bearer capability says
    nothing but speech *)
Definition bcap_speech : gsm_mncc_bearer_cap :=
  mk_bcap GSM48_BCAP_ITCAP_SPEECH 0 0 GSM48_BCAP_RRQ_SPARE_NETWORK_TO_MS [] no_bcap_data.
Definition gsm48_cc_tx_setup_encode_msg (bc : gsm_mncc_bearer_cap) (setup : gsm_mncc) : list cc_ie :=
  IeBearerCap (if bc_transfer bc =? GSM48_BCAP_ITCAP_SPEECH then bcap_speech else bc)
  :: ie_if setup MNCC_F_FACILITY (IeFacility (m_facility setup))
  ++ ie_if setup MNCC_F_PROGRESS (IeProgress (m_progress setup))
  ++ ie_if setup MNCC_F_CALLING (IeCalling (m_calling setup))
  ++ ie_if setup MNCC_F_CALLED (IeCalled (m_called setup))
  ++ (if mncc_has setup MNCC_F_LOWL_COMPAT
      then match compat_ok GSM_MAX_LOWL_COMPAT (Some (m_llc setup)) with Some l => [IeLowLayer l] | None => [] end
      else [])
  ++ (if mncc_has setup MNCC_F_HIGHL_COMPAT
      then match compat_ok GSM_MAX_HIGHL_COMPAT (Some (m_hlc setup)) with Some l => [IeHighLayer l] | None => [] end
      else [])
  ++ ie_if setup MNCC_F_USERUSER (IeUserUser (m_useruser setup))
  ++ ie_if setup MNCC_F_REDIRECTING (IeRedirecting (m_redirecting setup))
  ++ ie_if setup MNCC_F_SIGNAL (IeSignal (m_signal setup)).

Section cc.
Context {SL : SockaddrLib} {CL : CallLib} {AC : AmrCfg} {DR : DataRates}.
Variable dispatch : nat -> msc_a_event -> M Z.

Definition get_rev_lev (t : nat) : M Z :=
  tr <- get_trans t ;; v <- deref (t_vsub tr) ;; s <- get_vsub v ;; ret (sb_rev_lev s).
Definition set_trans_bearer_cap (t : nat) (bc : option gsm_mncc_bearer_cap) : M unit :=
  match bc with Some bc => mod_trans t (fun tr => tr <| t_bearer_cap := bc |>) | None => ret tt end.
Definition set_callref_0 (t : nat) : M unit := mod_trans t (fun tr => tr <| t_callref := 0 |>).
Definition mncc_bcap (m : gsm_mncc) : option gsm_mncc_bearer_cap :=
  if mncc_has m MNCC_F_BEARER_CAP then Some (m_bearer_cap m) else None.

(** ** MO call *)

Definition gsm48_cc_rx_setup (t : nat) (rx : cc_rx) : M Z :=
  gsm48_start_guard_timer t ;;
  tr <- get_trans t ;;
  when (negb (bool_decide (is_Some (t_lcls tr))))
    (lcls <- trans_lcls_compose t ;; mod_trans t (fun tr => tr <| t_lcls := lcls |>)) ;;
  tr <- get_trans t ;;
  let setup := call_msg (t_callref tr) in
  let setup := match t_lcls tr with
               | Some lcls => match osmo_enc_gcr (lcls_gcr lcls) with
                              | Some (_ :: _ as gcr) => add_field MNCC_F_GCR setup <| m_gcr := gcr |>
                              | _ => setup
                              end
               | None => setup
               end in
  match t_msc_a tr with
  | None => crash AssertFailed
  | Some c =>
      route <- gets w_emergency_route ;;
      v <- deref (t_vsub tr) ;; s <- get_vsub v ;;
      let setup := rx_setup_mncc route s rx setup in
      set_trans_bearer_cap t (r_bearer_cap rx) ;;
      trans_cc_filter_init t ;;
      a <- get_conn c ;;
      trans_cc_filter_set_ran t (a_ran a) ;;
      trans_cc_filter_set_bss t c ;;
      when (mncc_has setup MNCC_F_BEARER_CAP)
        (tr <- get_trans t ;; trans_cc_filter_set_ms_from_bc t (Some (t_bearer_cap tr))) ;;
      trans_cc_filter_run t ;;
      new_cc_state t GSM_CSTATE_INITIATED ;;
      let setup := setup <| m_msg_type := MNCC_SETUP_IND |> in
      mod_trans t (fun tr => tr <| t_msg := setup |>) ;;
      emit (OutCdrSetup t setup) ;;
      msc_a_try_call_assignment dispatch t
  end.

(** what MNCC says about the remote side; a codec that the remote side does
    not have is assigned anew *)
Definition rx_mncc_sdp (t : nat) (sdp : string) (bcap : option gsm_mncc_bearer_cap) : M unit :=
  tr <- get_trans t ;;
  leg <- (match t_msc_a tr with
          | Some c => a <- get_conn c ;;
                      match a_call_leg a with
                      | Some l => cl <- get_leg l ;; ret (if bool_decide (is_Some (l_rtp_cn cl)) then Some l else None)
                      | None => ret None
                      end
          | None => ret None
          end) ;;
  when (str_nonempty sdp)
    (let '(rc, remote) := sdp_msg_from_sdp_str sdp in
     when (sdp_overflows rc) (crash BufferOverflow) ;;
     mod_trans t (fun tr => tr <| t_remote := remote |>)) ;;
  tr <- get_trans t ;;
  match sdp_codecs (t_remote tr), bcap with
  | [], Some bc => mod_trans t (fun tr => tr <| t_remote := no_sdp |>) ;; trans_cc_set_remote_from_bc t (Some bc)
  | _, _ => ret tt
  end ;;
  trans_cc_filter_run t ;;
  tr <- get_trans t ;;
  match leg with
  | Some l => mod_rtp l RTP_TO_CN (rtp_stream_set_remote_addr_and_codecs (t_remote tr)) ;;
              rtp_stream_commit l RTP_TO_CN ;; ret tt
  | None => ret tt
  end ;;
  let assigned := cf_assignment (t_codecs tr) in
  if negb (sdp_audio_codec_is_set assigned) then ret tt
  else match sdp_codecs (t_remote tr) with
       | [] => ret tt
       | remote =>
           if bool_decide (is_Some (sdp_audio_codecs_by_descr remote assigned)) then ret tt
           else c <- deref (t_msc_a tr) ;;
                a <- get_conn c ;;
                if a_assignment_pending a then ret tt else msc_a_tx_assignment_cmd dispatch c
       end.

(** ** MT call *)

(** [false]: failed *)
Definition release_unsent (t : nat) (cause : Z) : M unit :=
  tr <- get_trans t ;;
  mncc_release_ind (Some t) (t_callref tr) GSM48_CAUSE_LOC_PRN_S_LU cause ;;
  set_callref_0 t.

Definition gsm48_cc_tx_setup_set_transaction_id (t : nat) : M bool :=
  tr <- get_trans t ;;
  if negb (t_id tr =? TRANS_ID_UNASSIGNED) then
    release_unsent t GSM48_CC_CAUSE_RESOURCE_UNAVAIL ;; ret false
  else
    id <- gets (trans_assign_trans_id (t_vsub tr) TRANS_CC) ;;
    match id with
    | None => release_unsent t GSM48_CC_CAUSE_RESOURCE_UNAVAIL ;; ret false
    | Some id => mod_trans t (fun tr => tr <| t_id := id |>) ;; ret true
    end.

Definition gsm48_cc_tx_setup_select_codecs (t : nat) (setup : gsm_mncc) : M bool :=
  tr <- get_trans t ;;
  c <- deref (t_msc_a tr) ;;
  a <- get_conn c ;;
  trans_cc_filter_init t ;;
  trans_cc_filter_set_ran t (a_ran a) ;;
  trans_cc_filter_set_bss t c ;;
  match itcap_of (bc_transfer (t_bearer_cap tr)) with
  | ItSpeech => rx_mncc_sdp t (m_sdp setup) (mncc_bcap setup) ;; ret true
  | ItData =>
      match mncc_bcap setup with
      | Some bc => mod_trans t (fun tr => tr <| t_remote := no_sdp |>) ;; trans_cc_set_remote_from_bc t (Some bc)
      | None => mod_trans t (fun tr => tr <| t_codecs ::= fun f => f <| cf_ms := sdp_audio_codecs_set_csd |> |>)
      end ;;
      trans_cc_filter_run t ;; ret true
  | ItOther => ret false
  end.

Definition gsm48_cc_tx_setup_set_bearer_cap (t : nat) : M bool :=
  tr <- get_trans t ;;
  let transfer := bc_transfer (t_bearer_cap tr) in
  match itcap_of transfer with
  | ItSpeech =>
      let bc := mk_bcap GSM48_BCAP_ITCAP_SPEECH 0 0 0 [] no_bcap_data in
      let bc := bearer_cap_set_radio (snd (sdp_audio_codecs_to_bearer_cap (sdp_codecs (t_local tr)) bc)) in
      mod_trans t (fun tr => tr <| t_bearer_cap := bc |>) ;;
      match bc_speech_ver bc with
      | [] => release_unsent t GSM48_CC_CAUSE_INCOMPAT_DEST ;; ret false
      | _ => rev_lev <- get_rev_lev t ;;
             let '(ok, bc) := bearer_cap_filter_rev_lev rev_lev bc in
             mod_trans t (fun tr => tr <| t_bearer_cap := bc |>) ;; ret ok
      end
  | ItData =>
      let bc := mk_bcap transfer GSM48_BCAP_TMOD_CIRCUIT GSM48_BCAP_CODING_GSM_STD GSM48_BCAP_RRQ_FR_ONLY
                  (replicate SPEECH_VER_SIZE 0) no_bcap_data in
      let '(ok, bc) := csd_bs_list_to_bearer_cap bc (sdp_bearer_services (t_local tr)) in
      mod_trans t (fun tr => tr <| t_bearer_cap := bc |>) ;;
      if ok then ret true else release_unsent t GSM48_CC_CAUSE_INCOMPAT_DEST ;; ret false
  | ItOther => ret true
  end.

Definition gsm48_cc_tx_setup (t : nat) (setup : gsm_mncc) : M Z :=
  emit (OutCdrSetup t setup) ;;
  let error := trans_free dispatch t ;; ret (-1) in
  ok <- gsm48_cc_tx_setup_set_transaction_id t ;;
  if negb ok then error
  else
    gsm48_start_cc_timer t 0x303 ;;
    when (mncc_has setup MNCC_F_BEARER_CAP)
      (mod_trans t (fun tr => tr <| t_bearer_cap ::= fun bc => bc <| bc_transfer := bc_transfer (m_bearer_cap setup) |> |>)) ;;
    ok <- gsm48_cc_tx_setup_select_codecs t setup ;;
    if negb ok then error
    else
      ok <- gsm48_cc_tx_setup_set_bearer_cap t ;;
      if negb ok then error
      else
        tr <- get_trans t ;;
        new_cc_state t GSM_CSTATE_CALL_PRESENT ;;
        trans_tx_gsm48 t MT_SETUP (gsm48_cc_tx_setup_encode_msg (t_bearer_cap tr) setup).

Definition gsm48_cc_rx_call_conf (t : nat) (rx : cc_rx) : M Z :=
  gsm48_stop_cc_timer t ;;
  gsm48_start_cc_timer t 0x310 ;;
  tr <- get_trans t ;;
  let conf := call_msg (t_callref tr) in
  let conf := with_ie (r_bearer_cap rx) MNCC_F_BEARER_CAP set_bearer_cap conf in
  let conf := with_ie (r_cause rx) MNCC_F_CAUSE set_cause conf in
  let conf := with_ie (r_cccap rx) MNCC_F_CCCAP set_cccap conf in
  set_trans_bearer_cap t (r_bearer_cap rx) ;;
  match r_bearer_cap rx with Some bc => trans_cc_filter_set_ms_from_bc t (Some bc) | None => ret tt end ;;
  v <- deref (t_vsub tr) ;; s <- get_vsub v ;;
  let conf := conf <| m_imsi := strlcpy IMSI_SIZE (sb_imsi s) |> in
  rc <- msc_a_try_call_assignment dispatch t ;;
  if negb (rc =? 0) then ret rc
  else new_cc_state t GSM_CSTATE_MO_TERM_CALL_CONF ;; mncc_recvmsg (Some t) MNCC_CALL_CONF_IND conf.

Definition gsm48_cc_tx_call_proc_and_assign (t : nat) (m : gsm_mncc) : M Z :=
  new_cc_state t GSM_CSTATE_MO_CALL_PROC ;;
  tr <- get_trans t ;;
  let send ies :=
    rc <- trans_tx_gsm48 t MT_CALL_PROC
            (ies ++ ie_if m MNCC_F_FACILITY (IeFacility (m_facility m))
             ++ ie_if m MNCC_F_PROGRESS (IeProgress (m_progress m))) ;;
    if negb (rc =? 0) then ret rc else msc_a_try_call_assignment dispatch t in
  match mncc_bcap m with
  | None => send []
  | Some bc =>
      if negb (bc_transfer bc =? bc_transfer (t_bearer_cap tr)) then ret (- EINVAL)
      else
        rev_lev <- get_rev_lev t ;;
        let bc := snd (bearer_cap_filter_rev_lev rev_lev bc) in
        mod_trans t (fun tr => tr <| t_bearer_cap := bc |>) ;;
        send [IeBearerCap bc]
  end.

Definition gsm48_cc_rx_alerting (t : nat) (rx : cc_rx) : M Z :=
  gsm48_stop_cc_timer t ;;
  gsm48_start_cc_timer t 0x301 ;;
  tr <- get_trans t ;;
  let m := call_msg (t_callref tr) in
  let m := with_ie (r_facility rx) MNCC_F_FACILITY set_facility m in
  let m := with_ie (r_progress rx) MNCC_F_PROGRESS set_progress m in
  let m := with_ie (r_ssversion rx) MNCC_F_SSVERSION set_ssversion m in
  new_cc_state t GSM_CSTATE_CALL_RECEIVED ;;
  trans_cc_filter_run t ;;
  tr <- get_trans t ;;
  let '(text, len) := sdp_msg_to_sdp_str_buf MNCC_SDP_SIZE (Some (t_local tr)) in
  if Nat.leb MNCC_SDP_SIZE len then trans_free dispatch t ;; ret (- EINVAL)
  else mncc_recvmsg (Some t) MNCC_ALERT_IND (m <| m_sdp := text |>).

Definition gsm48_cc_tx_alerting (t : nat) (m : gsm_mncc) : M Z :=
  new_cc_state t GSM_CSTATE_CALL_DELIVERED ;;
  when (str_nonempty (m_sdp m)) (rx_mncc_sdp t (m_sdp m) (mncc_bcap m)) ;;
  trans_tx_gsm48 t MT_ALERTING
    (ie_if m MNCC_F_FACILITY (IeFacility (m_facility m)) ++ ie_if m MNCC_F_PROGRESS (IeProgress (m_progress m))
     ++ ie_if m MNCC_F_USERUSER (IeUserUser (m_useruser m))).

Definition gsm48_cc_tx_progress (t : nat) (m : gsm_mncc) : M Z :=
  trans_tx_gsm48 t MT_PROGRESS
    (IeProgress (m_progress m) :: ie_if m MNCC_F_USERUSER (IeUserUser (m_useruser m))).

Definition gsm48_cc_tx_connect (t : nat) (m : gsm_mncc) : M Z :=
  gsm48_stop_cc_timer t ;;
  gsm48_start_cc_timer t 0x313 ;;
  when (mncc_has m MNCC_F_CONNECTED) (emit (OutCdrConnected t (n_number (m_connected m)))) ;;
  new_cc_state t GSM_CSTATE_CONNECT_IND ;;
  when (str_nonempty (m_sdp m)) (rx_mncc_sdp t (m_sdp m) (mncc_bcap m)) ;;
  trans_tx_gsm48 t MT_CONNECT
    (ie_if m MNCC_F_FACILITY (IeFacility (m_facility m)) ++ ie_if m MNCC_F_PROGRESS (IeProgress (m_progress m))
     ++ ie_if m MNCC_F_CONNECTED (IeConnected (m_connected m))
     ++ ie_if m MNCC_F_USERUSER (IeUserUser (m_useruser m))).

Definition gsm48_cc_rx_connect (t : nat) (rx : cc_rx) : M Z :=
  gsm48_stop_cc_timer t ;;
  tr <- get_trans t ;;
  v <- deref (t_vsub tr) ;; s <- get_vsub v ;;
  let m := add_field MNCC_F_CONNECTED (call_msg (t_callref tr))
             <| m_connected ::= fun n => n <| n_number := strlcpy NUMBER_SIZE (sb_msisdn s) |> |>
             <| m_imsi := strlcpy IMSI_SIZE (sb_imsi s) |> in
  emit (OutCdrConnected t (n_number (m_connected m))) ;;
  let m := with_ie (r_facility rx) MNCC_F_FACILITY set_facility m in
  let m := with_ie (r_useruser rx) MNCC_F_USERUSER set_useruser m in
  let m := with_ie (r_ssversion rx) MNCC_F_SSVERSION set_ssversion m in
  new_cc_state t GSM_CSTATE_CONNECT_REQUEST ;;
  trans_cc_filter_run t ;;
  tr <- get_trans t ;;
  mncc_recvmsg (Some t) MNCC_SETUP_CNF
    (m <| m_sdp := fst (sdp_msg_to_sdp_str_buf MNCC_SDP_SIZE (Some (t_local tr))) |>).

Definition gsm48_cc_rx_connect_ack (t : nat) (rx : cc_rx) : M Z :=
  gsm48_stop_cc_timer t ;;
  new_cc_state t GSM_CSTATE_ACTIVE ;;
  tr <- get_trans t ;;
  mncc_recvmsg (Some t) MNCC_SETUP_COMPL_IND (call_msg (t_callref tr)).

Definition gsm48_cc_tx_connect_ack (t : nat) (m : gsm_mncc) : M Z :=
  new_cc_state t GSM_CSTATE_ACTIVE ;; trans_tx_gsm48 t MT_CONNECT_ACK [].

(** ** Clearing *)

(** the elements of the messages that clear a call *)
Definition rx_clear_mncc (callref : Z) (rx : cc_rx) : gsm_mncc :=
  let m := with_ie (r_cause rx) MNCC_F_CAUSE set_cause (call_msg callref) in
  let m := with_ie (r_facility rx) MNCC_F_FACILITY set_facility m in
  let m := with_ie (r_useruser rx) MNCC_F_USERUSER set_useruser m in
  with_ie (r_ssversion rx) MNCC_F_SSVERSION set_ssversion m.
Definition note_rx_cause (t : nat) (rx : cc_rx) : M unit :=
  match r_cause rx with Some c => emit (OutCdrCause t c) | None => ret tt end.

Definition gsm48_cc_rx_disconnect (t : nat) (rx : cc_rx) : M Z :=
  gsm48_stop_cc_timer t ;;
  new_cc_state t GSM_CSTATE_DISCONNECT_REQ ;;
  tr <- get_trans t ;;
  note_rx_cause t rx ;;
  mncc_recvmsg (Some t) MNCC_DISC_IND (rx_clear_mncc (t_callref tr) rx).

Definition gsm48_cc_tx_disconnect (t : nat) (m : gsm_mncc) : M Z :=
  gsm48_stop_cc_timer t ;;
  gsm48_start_cc_timer t 0x306 ;;
  mod_trans t (fun tr => tr <| t_msg := m |>) ;;
  when (mncc_has m MNCC_F_CAUSE) (emit (OutCdrCause t (m_cause m))) ;;
  new_cc_state t GSM_CSTATE_DISCONNECT_IND ;;
  trans_tx_gsm48 t MT_DISCONNECT
    (cause_or_default m ++ ie_if m MNCC_F_FACILITY (IeFacility (m_facility m))
     ++ ie_if m MNCC_F_PROGRESS (IeProgress (m_progress m))
     ++ ie_if m MNCC_F_USERUSER (IeUserUser (m_useruser m))).

Definition gsm48_tx_simple_release_compl (c : nat) (tid : Z) : M Z :=
  emit (OutDtap c tid 0 MT_RELEASE_COMPL []) ;; ask.

Definition gsm48_cc_rx_release (t : nat) (rx : cc_rx) : M Z :=
  gsm48_stop_cc_timer t ;;
  tr <- get_trans t ;;
  note_rx_cause t rx ;;
  let rel := rx_clear_mncc (t_callref tr) rx in
  rc <- (if bool_decide (t_state tr = GSM_CSTATE_RELEASE_REQ) then mncc_recvmsg (Some t) MNCC_REL_CNF rel
         else match t_msc_a tr with
              | Some c => gsm48_tx_simple_release_compl c (t_id tr)
              | None => ret (- EIO)
              end ;;
              mncc_recvmsg (Some t) MNCC_REL_IND rel) ;;
  new_cc_state t GSM_CSTATE_NULL ;;
  set_callref_0 t ;;
  trans_free dispatch t ;;
  ret rc.

Definition gsm48_cc_rx_release_compl (t : nat) (rx : cc_rx) : M Z :=
  gsm48_stop_cc_timer t ;;
  tr <- get_trans t ;;
  note_rx_cause t rx ;;
  let rel := rx_clear_mncc (t_callref tr) rx in
  rc <- (if t_callref tr =? 0 then ret 0
         else match t_state tr with
              | GSM_CSTATE_CALL_PRESENT => mncc_recvmsg (Some t) MNCC_REJ_IND rel
              | GSM_CSTATE_RELEASE_REQ => mncc_recvmsg (Some t) MNCC_REL_CNF rel
              | _ => mncc_recvmsg (Some t) MNCC_REL_IND rel
              end) ;;
  set_callref_0 t ;;
  trans_free dispatch t ;;
  ret rc.

Definition gsm48_cc_tx_release_compl (t : nat) (m : gsm_mncc) : M Z :=
  set_callref_0 t ;;
  gsm48_stop_cc_timer t ;;
  rc <- trans_tx_gsm48 t MT_RELEASE_COMPL
          (ie_if m MNCC_F_CAUSE (IeCause (m_cause m)) ++ ie_if m MNCC_F_FACILITY (IeFacility (m_facility m))
           ++ ie_if m MNCC_F_USERUSER (IeUserUser (m_useruser m))) ;;
  trans_free dispatch t ;;
  ret rc.

(** ** During a call *)

Definition mncc_ind (t : nat) (type : mncc_msg) (f : gsm_mncc -> gsm_mncc) : M Z :=
  tr <- get_trans t ;; mncc_recvmsg (Some t) type (f (call_msg (t_callref tr))).

Definition gsm48_cc_rx_facility (t : nat) (rx : cc_rx) : M Z :=
  mncc_ind t MNCC_FACILITY_IND (fun m => with_ie (r_ssversion rx) MNCC_F_SSVERSION set_ssversion
                                           (with_ie (r_facility rx) MNCC_F_FACILITY set_facility m)).
Definition gsm48_cc_tx_facility (t : nat) (m : gsm_mncc) : M Z :=
  trans_tx_gsm48 t MT_FACILITY [IeFacility (m_facility m)].
Definition gsm48_cc_rx_hold (t : nat) (rx : cc_rx) : M Z := mncc_ind t MNCC_HOLD_IND id.
Definition gsm48_cc_tx_hold_ack (t : nat) (m : gsm_mncc) : M Z := trans_tx_gsm48 t MT_HOLD_ACK [].
Definition gsm48_cc_tx_hold_rej (t : nat) (m : gsm_mncc) : M Z := trans_tx_gsm48 t MT_HOLD_REJ (cause_or_default m).
Definition gsm48_cc_rx_retrieve (t : nat) (rx : cc_rx) : M Z := mncc_ind t MNCC_RETRIEVE_IND id.
Definition gsm48_cc_tx_retrieve_ack (t : nat) (m : gsm_mncc) : M Z := trans_tx_gsm48 t MT_RETR_ACK [].
Definition gsm48_cc_tx_retrieve_rej (t : nat) (m : gsm_mncc) : M Z :=
  trans_tx_gsm48 t MT_RETR_REJ (cause_or_default m).
Definition gsm48_cc_rx_start_dtmf (t : nat) (rx : cc_rx) : M Z :=
  mncc_ind t MNCC_START_DTMF_IND (with_ie (r_keypad rx) MNCC_F_KEYPAD (fun k m => m <| m_keypad := k |>)).
Definition gsm48_cc_tx_start_dtmf_ack (t : nat) (m : gsm_mncc) : M Z :=
  trans_tx_gsm48 t MT_START_DTMF_ACK (ie_if m MNCC_F_KEYPAD (IeKeypad (m_keypad m))).
Definition gsm48_cc_tx_start_dtmf_rej (t : nat) (m : gsm_mncc) : M Z :=
  trans_tx_gsm48 t MT_START_DTMF_REJ (cause_or_default m).
Definition gsm48_cc_rx_stop_dtmf (t : nat) (rx : cc_rx) : M Z := mncc_ind t MNCC_STOP_DTMF_IND id.
Definition gsm48_cc_tx_stop_dtmf_ack (t : nat) (m : gsm_mncc) : M Z := trans_tx_gsm48 t MT_STOP_DTMF_ACK [].
Definition gsm48_cc_rx_status_enq (t : nat) (rx : cc_rx) : M Z := gsm48_cc_tx_status t.

Definition gsm48_cc_rx_modify (t : nat) (rx : cc_rx) : M Z :=
  set_trans_bearer_cap t (r_bearer_cap rx) ;;
  new_cc_state t GSM_CSTATE_MO_ORIG_MODIFY ;;
  mncc_ind t MNCC_MODIFY_IND (with_ie (r_bearer_cap rx) MNCC_F_BEARER_CAP set_bearer_cap).
Definition gsm48_cc_rx_modify_complete (t : nat) (rx : cc_rx) : M Z :=
  gsm48_stop_cc_timer t ;;
  set_trans_bearer_cap t (r_bearer_cap rx) ;;
  new_cc_state t GSM_CSTATE_ACTIVE ;;
  mncc_ind t MNCC_MODIFY_CNF (with_ie (r_bearer_cap rx) MNCC_F_BEARER_CAP set_bearer_cap).
(** the identifier of the element, 0x04, is set as the field *)
Definition GSM48_IE_BEARER_CAP : Z := 0x04.
Definition gsm48_cc_rx_modify_reject (t : nat) (rx : cc_rx) : M Z :=
  gsm48_stop_cc_timer t ;;
  set_trans_bearer_cap t (r_bearer_cap rx) ;;
  new_cc_state t GSM_CSTATE_ACTIVE ;;
  mncc_ind t MNCC_MODIFY_REJ (fun m =>
    let m := match r_bearer_cap rx with
             | Some bc => m <| m_fields ::= Z.lor GSM48_IE_BEARER_CAP |> <| m_bearer_cap := bc |>
             | None => m
             end in
    with_ie (r_cause rx) MNCC_F_CAUSE set_cause m).

(** the bearer capability of a MODIFY message becomes that of the call *)
Definition modify_bearer_cap (t : nat) (m : gsm_mncc) : M gsm_mncc_bearer_cap :=
  rev_lev <- get_rev_lev t ;;
  let bc := snd (bearer_cap_filter_rev_lev rev_lev (m_bearer_cap m)) in
  mod_trans t (fun tr => tr <| t_bearer_cap := bc |>) ;; ret bc.
Definition gsm48_cc_tx_modify (t : nat) (m : gsm_mncc) : M Z :=
  gsm48_start_cc_timer t 0x323 ;;
  bc <- modify_bearer_cap t m ;;
  new_cc_state t GSM_CSTATE_MO_TERM_MODIFY ;;
  trans_tx_gsm48 t MT_MODIFY [IeBearerCap bc].
Definition gsm48_cc_tx_modify_complete (t : nat) (m : gsm_mncc) : M Z :=
  bc <- modify_bearer_cap t m ;;
  new_cc_state t GSM_CSTATE_ACTIVE ;;
  trans_tx_gsm48 t MT_MODIFY_COMPL [IeBearerCap bc].
Definition gsm48_cc_tx_modify_reject (t : nat) (m : gsm_mncc) : M Z :=
  bc <- modify_bearer_cap t m ;;
  new_cc_state t GSM_CSTATE_ACTIVE ;;
  trans_tx_gsm48 t MT_MODIFY_REJECT [IeBearerCap bc; IeCause (m_cause m)].

Definition gsm48_cc_tx_notify (t : nat) (m : gsm_mncc) : M Z := trans_tx_gsm48 t MT_NOTIFY [IeNotify (m_notify m)].
Definition gsm48_cc_rx_notify (t : nat) (rx : cc_rx) : M Z :=
  mncc_ind t MNCC_NOTIFY_IND (fun m => match r_notify rx with Some n => m <| m_notify := n |> | None => m end).
Definition gsm48_cc_tx_userinfo (t : nat) (m : gsm_mncc) : M Z :=
  trans_tx_gsm48 t MT_USER_INFO
    (ie_if m MNCC_F_USERUSER (IeUserUser (m_useruser m)) ++ if m_more m =? 0 then [] else [IeMore]).
Definition gsm48_cc_rx_userinfo (t : nat) (rx : cc_rx) : M Z :=
  mncc_ind t MNCC_USERINFO_IND (fun m =>
    let m := with_ie (r_useruser rx) MNCC_F_USERUSER set_useruser m in
    if r_more rx then m <| m_more := 1 |> else m).

(** ** Timers *)

Definition gsm48_cc_guard_timeout (t : nat) : M unit := trans_free dispatch t.

(** what a timeout leads to: the message to the MS, the causes for MNCC and
    for the MS *)
Definition timeout_digits (T : Z) : list Z :=
  [Z.shiftr (Z.land T 0xf00) 8 + 48; Z.shiftr (Z.land T 0x0f0) 4 + 48; Z.land T 0x00f + 48].
Definition timeout_release (t : nat) (l4_cause mo_cause mo_location : Z) : M unit :=
  tr <- get_trans t ;;
  when (negb (t_callref tr =? 0))
    (mncc_release_ind (Some t) (t_callref tr) GSM48_CAUSE_LOC_PRN_S_LU l4_cause ;; set_callref_0 t) ;;
  gsm48_cc_tx_release t
    (mncc_set_cause (call_msg (t_callref tr)) mo_location mo_cause
       <| m_cause ::= fun c => c <| c_diag := timeout_digits (t_Tcurrent tr) |> |>) ;; ret tt.
Definition timeout_disconnect (t : nat) (l4_cause : Z) : M unit :=
  tr <- get_trans t ;;
  when (negb (t_callref tr =? 0))
    (mncc_recvmsg (Some t) MNCC_DISC_IND (mncc_set_cause (call_msg (t_callref tr)) GSM48_CAUSE_LOC_PRN_S_LU l4_cause) ;;
     ret tt) ;;
  gsm48_cc_tx_disconnect t
    (mncc_set_cause (call_msg (t_callref tr)) GSM48_CAUSE_LOC_USER GSM48_CC_CAUSE_RECOVERY_TIMER
       <| m_cause ::= fun c => c <| c_diag := timeout_digits (t_Tcurrent tr) |> |>) ;; ret tt.

Definition gsm48_cc_timeout (t : nat) : M unit :=
  tr <- get_trans t ;;
  let T := t_Tcurrent tr in
  if T =? 0x303 then timeout_release t GSM48_CC_CAUSE_USER_NOTRESPOND GSM48_CC_CAUSE_RECOVERY_TIMER GSM48_CAUSE_LOC_USER
  else if (T =? 0x310) || (T =? 0x301) then timeout_disconnect t GSM48_CC_CAUSE_USER_NOTRESPOND
  else if (T =? 0x313) || (T =? 0x323) then timeout_disconnect t GSM48_CC_CAUSE_NORMAL_UNSPEC
  else if T =? 0x308 then
    if t_T308_second tr then trans_free dispatch t
    else gsm48_cc_tx_release t (t_msg tr) ;; mod_trans t (fun tr => tr <| t_T308_second := true |>)
  else if T =? 0x306 then
    timeout_release t GSM48_CC_CAUSE_NORMAL_UNSPEC (c_value (m_cause (t_msg tr))) (c_location (m_cause (t_msg tr)))
  else timeout_release t GSM48_CC_CAUSE_NORMAL_UNSPEC GSM48_CC_CAUSE_RECOVERY_TIMER GSM48_CAUSE_LOC_USER.

(** ** Paging of the called subscriber *)

Definition cc_paging_cb (t : nat) (oc : option nat) : M unit :=
  tr <- get_trans t ;;
  match t_msc_a tr, oc with
  | Some _, _ => ret tt
  | None, Some c =>
      msc_a_get dispatch c MSC_A_USE_CC ;;
      mod_trans t (fun tr => tr <| t_msc_a := Some c |> <| t_paging_request := false |>) ;;
      when (negb (bool_decide (is_Some (t_lcls tr))))
        (lcls <- trans_lcls_compose t ;; mod_trans t (fun tr => tr <| t_lcls := lcls |>)) ;;
      when (mncc_has (t_msg tr) MNCC_F_GCR)
        (match osmo_dec_gcr (m_gcr (t_msg tr)) with
         | Some g => mod_trans t (fun tr => tr <| t_lcls ::= fmap (fun _ => mk_lcls g true) |>)
         | None => ret tt
         end) ;;
      dispatch c MSC_A_EV_TRANSACTION_ACCEPTED ;;
      gsm48_cc_tx_setup t (t_msg tr) ;; ret tt
  | None, None =>
      mncc_release_ind (Some t) (t_callref tr) GSM48_CAUSE_LOC_PRN_S_LU GSM48_CC_CAUSE_DEST_OOO ;;
      mod_trans t (fun tr => tr <| t_callref := 0 |> <| t_paging_request := false |>) ;;
      trans_free dispatch t
  end.

(** ** Bridges and RTP, from MNCC *)

Definition tch_bridge (callref0 callref1 : Z) : M Z :=
  t1 <- gets (trans_find_by_callref TRANS_CC callref0) ;;
  t2 <- gets (trans_find_by_callref TRANS_CC callref1) ;;
  match t1, t2 with
  | Some t1, Some t2 =>
      tr1 <- get_trans t1 ;; tr2 <- get_trans t2 ;;
      match t_msc_a tr1, t_msc_a tr2 with
      | Some c1, Some c2 =>
          a1 <- get_conn c1 ;; a2 <- get_conn c2 ;;
          call_leg_local_bridge (a_call_leg a1) (a_call_leg a2) (t_call_id tr1) (t_call_id tr2) t1 t2
      | _, _ => ret (- EIO)
      end
  | _, _ => ret (- EIO)
  end.

Definition disconnect_bridge (callref0 callref1 : Z) : M unit :=
  t0 <- gets (trans_find_by_callref TRANS_CC callref0) ;;
  t1 <- gets (trans_find_by_callref TRANS_CC callref1) ;;
  match t0, t1 with
  | Some t0, Some t1 =>
      let rel callref := mncc_set_cause (call_msg callref) GSM48_CAUSE_LOC_INN_NET GSM48_CC_CAUSE_CHAN_UNACCEPT in
      tr0 <- get_trans t0 ;; gsm48_cc_tx_disconnect t0 (rel (t_callref tr0)) ;;
      tr1 <- get_trans t1 ;; gsm48_cc_tx_disconnect t1 (rel (t_callref tr1)) ;; ret tt
  | _, _ => ret tt
  end.

Definition tch_rtp_create (rtp : gsm_mncc_rtp) : M Z :=
  ot <- gets (trans_find_by_callref TRANS_CC (rtp_callref rtp)) ;;
  match ot with
  | None => mncc_recv_rtp_err None (rtp_callref rtp) MNCC_RTP_CREATE ;; ret (- EIO)
  | Some t =>
      tr <- get_trans t ;;
      match t_msc_a tr with
      | None => mncc_recv_rtp_err (Some t) (rtp_callref rtp) MNCC_RTP_CREATE ;; ret 0
      | Some _ => msc_a_try_call_assignment dispatch t
      end
  end.

Definition tch_rtp_connect (rtp : gsm_mncc_rtp) : M Z :=
  ot <- gets (trans_find_by_callref TRANS_CC (rtp_callref rtp)) ;;
  match ot with
  | None => mncc_recv_rtp_err None (rtp_callref rtp) MNCC_RTP_CONNECT ;; ret (- EIO)
  | Some t =>
      tr <- get_trans t ;;
      match t_msc_a tr with
      | None => mncc_recv_rtp_err (Some t) (rtp_callref rtp) MNCC_RTP_CONNECT ;; ret (- EIO)
      | Some _ =>
          rx_mncc_sdp t (rtp_sdp rtp) None ;;
          tr <- get_trans t ;;
          c <- deref (t_msc_a tr) ;;
          a <- get_conn c ;;
          match a_call_leg a with
          | None => ret 0
          | Some l =>
              cl <- get_leg l ;;
              match l_rtp_cn cl with
              | None => ret 0
              | Some s =>
                  if osmo_sockaddr_str_is_nonzero (s_remote s) then ret 0
                  else match osmo_sockaddr_str_from_sockaddr (rtp_addr rtp) with
                       | None => mncc_recv_rtp_err (Some t) (rtp_callref rtp) MNCC_RTP_CONNECT ;; ret (- EINVAL)
                       | Some addr => mod_rtp l RTP_TO_CN (rtp_stream_set_remote_addr addr) ;;
                                      rtp_stream_commit l RTP_TO_CN ;; ret 0
                       end
              end
          end
      end
  end.

(** ** Messages of MNCC *)

Definition is_state (l : list cc_state) (s : cc_state) : bool := bool_decide (s ∈ l).
Definition all_but (l : list cc_state) (s : cc_state) : bool := negb (bool_decide (s ∈ l)).

Definition downstatelist : list ((cc_state -> bool) * mncc_msg * (nat -> gsm_mncc -> M Z)) :=
  [(is_state [GSM_CSTATE_INITIATED], MNCC_CALL_PROC_REQ, gsm48_cc_tx_call_proc_and_assign);
   (is_state [GSM_CSTATE_INITIATED; GSM_CSTATE_MO_CALL_PROC], MNCC_ALERT_REQ, gsm48_cc_tx_alerting);
   (is_state [GSM_CSTATE_INITIATED; GSM_CSTATE_MO_CALL_PROC; GSM_CSTATE_CALL_DELIVERED], MNCC_SETUP_RSP,
    gsm48_cc_tx_connect);
   (is_state [GSM_CSTATE_MO_CALL_PROC], MNCC_PROGRESS_REQ, gsm48_cc_tx_progress);
   (is_state [GSM_CSTATE_NULL], MNCC_SETUP_REQ, gsm48_cc_tx_setup);
   (is_state [GSM_CSTATE_CONNECT_REQUEST], MNCC_SETUP_COMPL_REQ, gsm48_cc_tx_connect_ack);
   (is_state [GSM_CSTATE_ACTIVE], MNCC_NOTIFY_REQ, gsm48_cc_tx_notify);
   (all_but [GSM_CSTATE_NULL; GSM_CSTATE_RELEASE_REQ], MNCC_FACILITY_REQ, gsm48_cc_tx_facility);
   (all_but [], MNCC_START_DTMF_RSP, gsm48_cc_tx_start_dtmf_ack);
   (all_but [], MNCC_START_DTMF_REJ, gsm48_cc_tx_start_dtmf_rej);
   (all_but [], MNCC_STOP_DTMF_RSP, gsm48_cc_tx_stop_dtmf_ack);
   (is_state [GSM_CSTATE_ACTIVE], MNCC_HOLD_CNF, gsm48_cc_tx_hold_ack);
   (is_state [GSM_CSTATE_ACTIVE], MNCC_HOLD_REJ, gsm48_cc_tx_hold_rej);
   (is_state [GSM_CSTATE_ACTIVE], MNCC_RETRIEVE_CNF, gsm48_cc_tx_retrieve_ack);
   (is_state [GSM_CSTATE_ACTIVE], MNCC_RETRIEVE_REJ, gsm48_cc_tx_retrieve_rej);
   (is_state [GSM_CSTATE_ACTIVE], MNCC_MODIFY_REQ, gsm48_cc_tx_modify);
   (is_state [GSM_CSTATE_MO_ORIG_MODIFY], MNCC_MODIFY_RSP, gsm48_cc_tx_modify_complete);
   (is_state [GSM_CSTATE_MO_ORIG_MODIFY], MNCC_MODIFY_REJ, gsm48_cc_tx_modify_reject);
   (is_state [GSM_CSTATE_ACTIVE], MNCC_USERINFO_REQ, gsm48_cc_tx_userinfo);
   (is_state [GSM_CSTATE_INITIATED], MNCC_REJ_REQ, gsm48_cc_tx_release_compl);
   (all_but [GSM_CSTATE_NULL; GSM_CSTATE_DISCONNECT_IND; GSM_CSTATE_RELEASE_REQ; GSM_CSTATE_DISCONNECT_REQ],
    MNCC_DISC_REQ, gsm48_cc_tx_disconnect);
   (all_but [GSM_CSTATE_NULL; GSM_CSTATE_RELEASE_REQ], MNCC_REL_REQ, gsm48_cc_tx_release)].

(** a message that is only passed on does not restart the guard timer *)
Definition passes_through (type : mncc_msg) : bool :=
  match type with
  | MNCC_PROGRESS_REQ | MNCC_NOTIFY_REQ | MNCC_FACILITY_REQ | MNCC_START_DTMF_RSP | MNCC_START_DTMF_REJ
  | MNCC_STOP_DTMF_RSP | MNCC_HOLD_CNF | MNCC_HOLD_REJ | MNCC_RETRIEVE_CNF | MNCC_RETRIEVE_REJ
  | MNCC_USERINFO_REQ => true
  | _ => false
  end.

Definition vlr_subscr_find (p : cc_vsub -> bool) (w : cc_world) : option nat :=
  fst <$> find (fun vs => p (snd vs)) (map_to_list (w_vsubs w)).

(** the connection of a subscriber, if it is accepted *)
Definition msc_a_for_vsub (v : nat) : M (option nat) :=
  s <- get_vsub v ;;
  match sb_conn s with
  | None => ret None
  | Some c => a <- get_conn c ;;
              ret (match a_state a with
                   | MSC_A_ST_AUTHENTICATED | MSC_A_ST_COMMUNICATING => Some c
                   | _ => None
                   end)
  end.

Definition USE_MNCC_TX : string := "mncc_tx_to_gsm_cc".

(** a call to a subscriber: [inr]: go on with this transaction and
    connection, [inl]: that was all *)
Definition mncc_new_call (data : gsm_mncc) : M (Z + nat) :=
  let reject cause := rc <- mncc_release_ind None (m_callref data) GSM48_CAUSE_LOC_PRN_S_LU cause ;; ret (inl rc) in
  if negb (bool_decide (m_msg_type data = MNCC_SETUP_REQ)) then reject GSM48_CC_CAUSE_INVAL_TRANS_ID
  else if str_empty (n_number (m_called data)) && str_empty (m_imsi data) then reject GSM48_CC_CAUSE_INV_NR_FORMAT
  else
    ov <- gets (vlr_subscr_find (fun s =>
            if str_nonempty (n_number (m_called data)) then String.eqb (sb_msisdn s) (n_number (m_called data))
            else String.eqb (sb_imsi s) (m_imsi data))) ;;
    match ov with
    | None => reject GSM48_CC_CAUSE_USER_NOTRESPOND
    | Some v =>
        vlr_subscr_get v USE_MNCC_TX ;;
        s <- get_vsub v ;;
        if negb (sb_lu_complete s) then vlr_subscr_put v USE_MNCC_TX ;; reject GSM48_CC_CAUSE_DEST_OOO
        else
          oc <- msc_a_for_vsub v ;;
          call_waiting <- gets w_call_waiting ;;
          busy <- (match oc with
                   | Some c => a <- get_conn c ;;
                               existing <- gets (trans_find_by_type (a_vsub a) TRANS_CC) ;;
                               match existing with
                               | Some e => tr <- get_trans e ;; ret (negb (bool_decide (t_state tr = GSM_CSTATE_NULL)))
                               | None => ret false
                               end
                   | None => ret false
                   end) ;;
          if negb call_waiting && busy then reject GSM48_CC_CAUSE_USER_BUSY
          else
            ot <- trans_alloc (Some v) TRANS_CC TRANS_ID_UNASSIGNED (m_callref data) ;;
            match ot with
            | None => vlr_subscr_put v USE_MNCC_TX ;;
                      mncc_release_ind None (m_callref data) GSM48_CAUSE_LOC_PRN_S_LU GSM48_CC_CAUSE_RESOURCE_UNAVAIL ;;
                      ret (inl (- ENOMEM))
            | Some t =>
                rx_mncc_sdp t (m_sdp data) (mncc_bcap data) ;;
                match oc with
                | None =>
                    emit (OutMnccRx t (m_msg_type data)) ;;
                    mod_trans t (fun tr => tr <| t_msg := data |>) ;;
                    emit (OutCdrSetup t data) ;;
                    emit (OutPage v t) ;;
                    failed <- ask ;;
                    (if failed =? 0 then mod_trans t (fun tr => tr <| t_paging_request := true |>)
                     else trans_free dispatch t) ;;
                    vlr_subscr_put v USE_MNCC_TX ;;
                    ret (inl 0)
                | Some c =>
                    mod_trans t (fun tr => tr <| t_msc_a := Some c |> <| t_dlci := 0 |>) ;;
                    msc_a_get dispatch c MSC_A_USE_CC ;;
                    vlr_subscr_put v USE_MNCC_TX ;;
                    ret (inr t)
                end
            end
    end.

(** a message for a transaction *)
Definition mncc_tx_trans (t : nat) (data : gsm_mncc) : M Z :=
  emit (OutMnccRx t (m_msg_type data)) ;;
  when (negb (passes_through (m_msg_type data))) (gsm48_start_guard_timer t) ;;
  mod_trans t (fun tr => tr <| t_mncc_initiated := true |>) ;;
  tr <- get_trans t ;;
  match t_msc_a tr with
  | None =>
      let rel := mncc_set_cause (call_msg (m_callref data)) GSM48_CAUSE_LOC_PRN_S_LU GSM48_CC_CAUSE_NORM_CALL_CLEAR in
      rc <- mncc_recvmsg (Some t) (if bool_decide (m_msg_type data = MNCC_REL_REQ) then MNCC_REL_CNF else MNCC_REL_IND)
              rel ;;
      set_callref_0 t ;;
      trans_free dispatch t ;;
      ret rc
  | Some _ =>
      match find (fun e => bool_decide (snd (fst e) = m_msg_type data) && fst (fst e) (t_state tr)) downstatelist with
      | Some (_, rout) => rout t data
      | None => ret 0
      end
  end.

Definition ENOTSUP : Z := 95.
Definition tx_frame (type : mncc_msg) : bool :=
  match type with
  | MNCC_FRAME_DROP | MNCC_FRAME_RECV => true
  | MNCC_OTHER code => (0x0300 <=? code) && (code <=? 0x0303)
  | _ => false
  end.

Definition mncc_tx_to_gsm_cc (msg : mncc_prim) : M Z :=
  match msg with
  | MnccBridge c0 c1 =>
      rc <- tch_bridge c0 c1 ;;
      when (rc <? 0) (disconnect_bridge c0 c1) ;; ret rc
  | MnccRtp rtp =>
      match rtp_msg_type rtp with
      | MNCC_RTP_CREATE => tch_rtp_create rtp
      | MNCC_RTP_CONNECT => tch_rtp_connect rtp
      | _ => ret (- EIO)
      end
  | MnccSignal data =>
      if tx_frame (m_msg_type data) then ret (- ENOTSUP)
      else
        ot <- gets (trans_find_by_callref TRANS_CC (m_callref data)) ;;
        match ot with
        | Some t => mncc_tx_trans t data
        | None =>
            r <- mncc_new_call data ;;
            match r with
            | inl rc => ret rc
            | inr t => mncc_tx_trans t data
            end
        end
  end.

(** ** Messages of the MS *)

Definition datastatelist : list ((cc_state -> bool) * cc_mt * (nat -> cc_rx -> M Z)) :=
  [(is_state [GSM_CSTATE_NULL], MT_SETUP, gsm48_cc_rx_setup);
   (is_state [GSM_CSTATE_NULL], MT_EMERG_SETUP, gsm48_cc_rx_setup);
   (is_state [GSM_CSTATE_CONNECT_IND], MT_CONNECT_ACK, gsm48_cc_rx_connect_ack);
   (is_state [GSM_CSTATE_CALL_PRESENT], MT_CALL_CONF, gsm48_cc_rx_call_conf);
   (is_state [GSM_CSTATE_CALL_PRESENT; GSM_CSTATE_MO_TERM_CALL_CONF], MT_ALERTING, gsm48_cc_rx_alerting);
   (is_state [GSM_CSTATE_CALL_PRESENT; GSM_CSTATE_MO_TERM_CALL_CONF; GSM_CSTATE_CALL_RECEIVED], MT_CONNECT,
    gsm48_cc_rx_connect);
   (all_but [GSM_CSTATE_NULL], MT_FACILITY, gsm48_cc_rx_facility);
   (is_state [GSM_CSTATE_ACTIVE], MT_NOTIFY, gsm48_cc_rx_notify);
   (all_but [], MT_START_DTMF, gsm48_cc_rx_start_dtmf);
   (all_but [], MT_STOP_DTMF, gsm48_cc_rx_stop_dtmf);
   (all_but [], MT_STATUS_ENQ, gsm48_cc_rx_status_enq);
   (is_state [GSM_CSTATE_ACTIVE], MT_HOLD, gsm48_cc_rx_hold);
   (is_state [GSM_CSTATE_ACTIVE], MT_RETR, gsm48_cc_rx_retrieve);
   (is_state [GSM_CSTATE_ACTIVE], MT_MODIFY, gsm48_cc_rx_modify);
   (is_state [GSM_CSTATE_MO_TERM_MODIFY], MT_MODIFY_COMPL, gsm48_cc_rx_modify_complete);
   (is_state [GSM_CSTATE_MO_TERM_MODIFY], MT_MODIFY_REJECT, gsm48_cc_rx_modify_reject);
   (is_state [GSM_CSTATE_ACTIVE], MT_USER_INFO, gsm48_cc_rx_userinfo);
   (all_but [GSM_CSTATE_NULL; GSM_CSTATE_RELEASE_REQ], MT_DISCONNECT, gsm48_cc_rx_disconnect);
   (all_but [GSM_CSTATE_NULL], MT_RELEASE, gsm48_cc_rx_release);
   (all_but [], MT_RELEASE_COMPL, gsm48_cc_rx_release_compl)].

(** the message for the transaction that was found or made *)
Definition rcv_cc_trans (t : nat) (rx : cc_rx) : M Z :=
  tr <- get_trans t ;;
  match find (fun e => bool_decide (snd (fst e) = r_type rx) && fst (fst e) (t_state tr)) datastatelist with
  | Some (_, rout) => if bool_decide (is_Some (t_vsub tr)) then rout t rx else crash AssertFailed
  | None => when (bool_decide (t_state tr = GSM_CSTATE_NULL)) (trans_free dispatch t) ;; ret 0
  end.

Definition gsm0408_rcv_cc (c : nat) (rx : cc_rx) : M Z :=
  a <- get_conn c ;;
  match a_vsub a with
  | None => msc_a_put dispatch c MSC_A_USE_CM_SERVICE_CC ;; ret (- EINVAL)
  | Some v =>
      ot <- gets (trans_find_by_id (Some v) TRANS_CC (r_tid rx)) ;;
      match ot with
      | Some t => rcv_cc_trans t rx
      | None =>
          callref <- msc_cc_next_outgoing_callref ;;
          ot <- trans_alloc (Some v) TRANS_CC (r_tid rx) callref ;;
          match ot with
          | None => gsm48_tx_simple_release_compl c (r_tid rx) ;;
                    msc_a_put dispatch c MSC_A_USE_CM_SERVICE_CC ;; ret (- ENOMEM)
          | Some t =>
              rejected <- dispatch c MSC_A_EV_TRANSACTION_ACCEPTED ;;
              if negb (rejected =? 0) then trans_free dispatch t ;; ret (- EINVAL)
              else
                msc_a_get dispatch c MSC_A_USE_CC ;;
                mod_trans t (fun tr => tr <| t_msc_a := Some c |> <| t_dlci := r_link_id rx |>) ;;
                a <- get_conn c ;;
                when (negb (use_by (a_uses a) MSC_A_USE_CM_SERVICE_CC =? 0))
                  (msc_a_put dispatch c MSC_A_USE_CM_SERVICE_CC) ;;
                rcv_cc_trans t rx
          end
      end
  end.
End cc.
