(* ===== verification/CallSys.v ===== *)
(** * The calls of the MSC as one system

    Everything that can happen to the calls: messages of the MS and of MNCC,
    answers of the RAN and of the media gateway, paging, timers, and what the
    other parts of the program do to connections and subscribers. *)

From S2P Require Import Prelude VlrTypes Codecs Csd Sdp Mncc CallTypes CallBase CallLeg CallAssign CallCc.

Inductive cc_event : Type :=
| EvDtap (c : nat) (rx : cc_rx)
| EvMncc (m : mncc_prim)
| EvCcTimer (t : nat)
| EvGuardTimer (t : nat)
| EvPagingOk (t c : nat)
| EvPagingExpired (t : nat)
| EvRtp (l : nat) (d : rtp_direction) (ev : rtp_stream_event)
| EvRtpTimer (l : nat) (d : rtp_direction)
| EvMgwGone (l : nat)
| EvLegTimer (l : nat)
| EvAssignComplete (c : nat) (ac : assignment_complete)
| EvAssignFailure (c : nat)
| EvAssignTimer (c : nat)
| EvClearRequest (c : nat)
| EvClearComplete (c : nat)
| EvConnTimer (c : nat)
| EvClose (c : nat)                        (* msc_a_release_cn, of the VLR or the operator *)
| EvConn (v c : nat) (a : msc_a)           (* a connection of the subscriber is accepted *)
| EvUse (c : nat) (tok : string)           (* other parts use a connection *)
| EvUnuse (c : nat) (tok : string)
| EvOtherTrans (v c : nat) (type : trans_type) (id callref : Z)
| EvOtherFree (t : nat)
| EvVsub (v : nat) (s : cc_vsub)           (* the VLR changes a subscriber *)
| EvFreeVsub (v : nat)
| EvAnswers (l : list Z).                  (* how the calls that can fail will end *)

Definition conn_accepted (s : msc_a_state) : bool :=
  match s with MSC_A_ST_AUTHENTICATED | MSC_A_ST_COMMUNICATING => true | _ => false end.
Definition on_trans (w : cc_world) (t : nat) (p : gsm_trans -> bool) : bool :=
  match w_trans w !! t with Some tr => p tr | None => false end.
Definition on_conn (w : cc_world) (c : nat) (p : msc_a -> bool) : bool :=
  match w_conns w !! c with Some a => p a | None => false end.
Definition on_leg (w : cc_world) (l : nat) (p : call_leg -> bool) : bool :=
  match w_legs w !! l with Some cl => p cl | None => false end.

(** the uses that a function takes of a connection while it runs *)
Definition func_tokens : list string :=
  ["trans_conn_closed"; "msc_a_abort_assignment"; "msc_a_fsm_communicating"; "msc_a_fsm_timer_cb"; "msc_a_ran_dec"].
(** and those of transactions *)
Definition call_tokens : list string :=
  func_tokens ++ [MSC_A_USE_WAIT_CLEAR_COMPLETE; MSC_A_USE_CC; MSC_A_USE_SMS; MSC_A_USE_NC_SS; MSC_A_USE_GCC;
                  MSC_A_USE_BCC; MSC_A_USE_SILENT_CALL].

(** 0 is no call reference *)
Definition prim_callref (m : mncc_prim) : Z :=
  match m with MnccSignal m => m_callref m | MnccBridge c _ => c | MnccRtp m => rtp_callref m end.

(** when an event can happen *)
Definition enabled (ev : cc_event) (w : cc_world) : bool :=
  match ev with
  | EvDtap c rx => on_conn w c (fun a => conn_accepted (a_state a)) && (0 <=? r_tid rx) && (r_tid rx <? 16)
  | EvMncc m => negb (prim_callref m =? 0)
  | EvAnswers _ => true
  | EvCcTimer t => on_trans w t t_timer
  | EvGuardTimer t => on_trans w t t_timer_guard
  | EvPagingOk t c =>
      on_trans w t (fun tr => t_paging_request tr && type_eqb (t_type tr) TRANS_CC
                              && on_conn w c (fun a => conn_accepted (a_state a) && opt_eqb (a_vsub a) (t_vsub tr)))
  | EvPagingExpired t => on_trans w t (fun tr => t_paging_request tr && type_eqb (t_type tr) TRANS_CC)
  | EvRtp l d _ | EvRtpTimer l d => on_leg w l (fun cl => bool_decide (is_Some (l_rtp d cl)))
  | EvMgwGone l => on_leg w l l_mgw_endpoint
  | EvLegTimer l => on_leg w l (fun _ => true)
  | EvAssignComplete c _ | EvAssignFailure c | EvClearRequest c | EvClearComplete c =>
      on_conn w c (fun a => match a_state a with MSC_A_ST_RELEASED | MSC_A_TERMINATED => false | _ => true end)
  | EvAssignTimer c => on_conn w c a_assignment_pending
  | EvConnTimer c =>
      on_conn w c (fun a => match a_state a with MSC_A_ST_COMMUNICATING | MSC_A_TERMINATED => false | _ => true end)
  | EvClose c => on_conn w c (fun a => negb (bool_decide (a_state a = MSC_A_TERMINATED)))
  | EvConn v c a =>
      bool_decide (w_conns w !! c = None) && bool_decide (is_Some (w_vsubs w !! v))
      && bool_decide (a_state a = MSC_A_ST_AUTHENTICATED) && opt_eqb (a_vsub a) (Some v)
      && opt_eqb (a_call_leg a) None && opt_eqb (a_active_trans a) None && negb (a_assignment_pending a)
      && forallb (fun tok => use_by (a_uses a) tok =? 0) call_tokens && (0 <? use_total (a_uses a))
      && bool_decide (map_Forall (fun _ n => 0 <= n) (a_uses a))
  | EvUse c tok => on_conn w c (fun a => conn_accepted (a_state a)) && negb (bool_decide (tok ∈ call_tokens))
  | EvUnuse c tok =>
      on_conn w c (fun a => (0 <? use_by (a_uses a) tok) && negb (bool_decide (a_state a = MSC_A_TERMINATED)))
      && negb (bool_decide (tok ∈ call_tokens))
  | EvOtherTrans v c type _ _ =>
      bool_decide (is_Some (w_vsubs w !! v))
      && on_conn w c (fun a => conn_accepted (a_state a)) && negb (type_eqb type TRANS_CC)
  | EvOtherFree t => on_trans w t (fun tr => negb (type_eqb (t_type tr) TRANS_CC))
  | EvVsub v s =>
      match w_vsubs w !! v with
      | Some s0 => bool_decide (sb_uses s = sb_uses s0) && opt_eqb (sb_conn s) (sb_conn s0)
      | None => bool_decide (sb_uses s = ∅) && opt_eqb (sb_conn s) None
      end
  | EvFreeVsub v => bool_decide (is_Some (w_vsubs w !! v))
  end.

Section sys.
Context {SL : SockaddrLib} {CL : CallLib} {AC : AmrCfg} {DR : DataRates}.
Variable n : nat.
Let dispatch : nat -> msc_a_event -> M Z := msc_a_dispatch n.

(** a message of the RAN is handled with a use of the connection held *)
Definition msc_a_ran_dec (c : nat) (m : M unit) : M unit :=
  msc_a_get dispatch c "msc_a_ran_dec" ;; m ;; msc_a_put dispatch c "msc_a_ran_dec".

Definition msc_a_clear_complete (c : nat) : M unit :=
  a <- get_conn c ;;
  match a_state a with
  | MSC_A_ST_RELEASING =>
      let n := use_by (a_uses a) MSC_A_USE_WAIT_CLEAR_COMPLETE in
      when (negb (n =? 0)) (msc_a_use dispatch c MSC_A_USE_WAIT_CLEAR_COMPLETE (- n)) ;;
      msc_a_set_state c MSC_A_ST_RELEASED ;; msc_a_fsm_released_onenter dispatch c
  | MSC_A_ST_RELEASED | MSC_A_TERMINATED => ret tt
  | _ => msc_a_fsm_releasing_start dispatch c
  end.

Definition run (ev : cc_event) : M unit :=
  match ev with
  | EvDtap c rx => msc_a_ran_dec c (gsm0408_rcv_cc dispatch c rx ;; ret tt)
  | EvMncc m => mncc_tx_to_gsm_cc dispatch m ;; ret tt
  | EvCcTimer t => mod_trans t (fun tr => tr <| t_timer := false |>) ;; gsm48_cc_timeout dispatch t
  | EvGuardTimer t => mod_trans t (fun tr => tr <| t_timer_guard := false |>) ;; gsm48_cc_guard_timeout dispatch t
  | EvPagingOk t c => cc_paging_cb dispatch t (Some c)
  | EvPagingExpired t => cc_paging_cb dispatch t None
  | EvRtp l d ev => rtp_stream_dispatch dispatch l d ev
  | EvRtpTimer l d => rtp_stream_term dispatch l d
  | EvMgwGone l => call_leg_dispatch dispatch l CALL_LEG_EV_MGW_ENDPOINT_GONE
  | EvLegTimer l => call_leg_fsm_timer_cb dispatch l
  | EvAssignComplete c ac => msc_a_ran_dec c (msc_a_up_call_assignment_complete dispatch c ac)
  | EvAssignFailure c => msc_a_ran_dec c (msc_a_up_call_assignment_failure dispatch c true)
  | EvAssignTimer c =>
      mod_conn c (fun a => a <| a_assignment_pending := false |>) ;;
      msc_a_up_call_assignment_failure dispatch c false
  | EvClearRequest c => msc_a_ran_dec c (dispatch c MSC_A_EV_MO_CLOSE ;; ret tt)
  | EvClearComplete c => msc_a_ran_dec c (msc_a_clear_complete c)
  | EvConnTimer c => msc_a_fsm_timer_cb dispatch c
  | EvClose c => dispatch c MSC_A_EV_CN_CLOSE ;; ret tt
  | EvConn v c a =>
      modify (fun w => w <| w_conns ::= insert c a |>) ;; mod_vsub v (fun s => s <| sb_conn := Some c |>)
  | EvUse c tok => msc_a_get dispatch c tok
  | EvUnuse c tok => msc_a_put dispatch c tok
  | EvOtherTrans v c type id callref =>
      ot <- trans_alloc (Some v) type id callref ;;
      match ot with
      | Some t => msc_a_get dispatch c (trans_usage_token type) ;;
                  mod_trans t (fun tr => tr <| t_msc_a := Some c |>)
      | None => ret tt
      end
  | EvOtherFree t => trans_free dispatch t
  | EvVsub v s => modify (fun w => w <| w_vsubs ::= insert v s |>)
  | EvFreeVsub v => trans_free_for_vsub dispatch v
  | EvAnswers l => modify (fun w => w <| w_answers := l |>)
  end.

(** one step; an event that cannot happen changes nothing *)
Definition step (ev : cc_event) (w : cc_world) : res unit := if enabled ev w then run ev w else Done tt w.

Fixpoint run_all (evs : list cc_event) : M unit :=
  match evs with [] => ret tt | ev :: evs => step ev ;; run_all evs end.

(** the worlds that a sequence of events leads to *)
Inductive reachable (w0 : cc_world) : cc_world -> Prop :=
| reach_init : reachable w0 w0
| reach_step w ev w' : reachable w0 w -> step ev w = Done tt w' -> reachable w0 w'.
End sys.

(** nothing has happened yet *)
Definition init_world (call_waiting : bool) : cc_world :=
  mk_cc_world ∅ [] 0 1 0x80000000 0 ∅ ∅ 0 ∅ call_waiting None false None false [] [].
