(* ===== verification/CallInv.v ===== *)
(** * Calls: the invariant

    A program logic for the monad of CallTypes; [calls_ok], the invariant of
    transactions, connections and call legs; [evolves], how a world may change
    while a function holds on to something; and what the primitive operations
    do to both. *)

From S2P Require Import Prelude VlrTypes Codecs Csd Sdp Mncc CallTypes CallBase CallLeg CallAssign CallCc CallSys.

(** ** Sums over maps *)

Section sums.
Context {K : Type} `{Countable K} {A : Type}.
Implicit Types (f : A -> Z) (m : gmap K A).

Definition msum f m : Z := map_fold (fun _ x n => f x + n) 0 m.

Lemma msum_new f m k x : m !! k = None -> msum f (<[k := x]> m) = f x + msum f m.
Proof. intros Hk. unfold msum. rewrite map_fold_insert_L; [done| |done]. intros; lia. Qed.
Lemma msum_delete f m k x : m !! k = Some x -> msum f (delete k m) = msum f m - f x.
Proof.
  intros Hk. rewrite <- (insert_delete_id m k x) at 2 by done.
  rewrite msum_new by apply lookup_delete_eq. lia.
Qed.
Lemma msum_insert f m k x y : m !! k = Some x -> msum f (<[k := y]> m) = msum f m - f x + f y.
Proof.
  intros Hk. rewrite <- insert_delete_eq, msum_new by apply lookup_delete_eq.
  rewrite (msum_delete f m k x Hk). lia.
Qed.
Lemma msum_nonneg f m : (forall k x, m !! k = Some x -> 0 <= f x) -> 0 <= msum f m.
Proof.
  induction m as [|k x m Hk IH] using map_ind; intros Hm; [done|].
  rewrite msum_new by done. pose proof (Hm k x (lookup_insert_eq _ _ _)).
  assert (0 <= msum f m); [|lia]. apply IH. intros j y Hj. apply (Hm j).
  rewrite lookup_insert_ne; congruence.
Qed.
Lemma msum_ge f m k x : (forall k x, m !! k = Some x -> 0 <= f x) -> m !! k = Some x -> f x <= msum f m.
Proof.
  intros Hm Hk. pose proof (msum_delete f m k x Hk).
  assert (0 <= msum f (delete k m)); [|lia].
  apply msum_nonneg. intros j y [_ Hj]%lookup_delete_Some. by apply (Hm j).
Qed.
Lemma msum_zero f m : (forall k x, m !! k = Some x -> f x = 0) -> msum f m = 0.
Proof.
  induction m as [|k x m Hk IH] using map_ind; intros Hm; [done|].
  rewrite msum_new by done. rewrite (Hm k x (lookup_insert_eq _ _ _)), IH; [done|].
  intros j y Hj. apply (Hm j). rewrite lookup_insert_ne; congruence.
Qed.
End sums.

(** ** Weakest preconditions *)

Section wp.
Variable F : fault -> Prop.

Definition wp {A : Type} (m : M A) (Q : A -> cc_world -> Prop) (w : cc_world) : Prop :=
  match m w with Done a w' => Q a w' | Crash f => F f end.

Lemma wp_bind {A B} (m : M A) (k : A -> M B) Q w : wp m (fun a => wp (k a) Q) w -> wp (bind m k) Q w.
Proof. unfold wp, bind. by destruct (m w). Qed.
Lemma wp_assoc {A B C} (m : M A) (f : A -> M B) (k : B -> M C) Q w :
  wp (bind (bind m f) k) Q w -> wp (bind m (fun x => bind (f x) k)) Q w.
Proof. unfold wp, bind. by destruct (m w). Qed.
Lemma wp_mono {A} (m : M A) (Q Q' : A -> cc_world -> Prop) w :
  wp m Q w -> (forall a w', Q a w' -> Q' a w') -> wp m Q' w.
Proof. unfold wp. destruct (m w); auto. Qed.
Lemma wp_ret {A} (a : A) (Q : A -> cc_world -> Prop) w : Q a w -> wp (ret a) Q w.
Proof. done. Qed.
Lemma wp_get_trans t (Q : gsm_trans -> cc_world -> Prop) w :
  F UseAfterFree -> (forall tr, w_trans w !! t = Some tr -> Q tr w) -> wp (get_trans t) Q w.
Proof. unfold wp, get_trans. destruct (w_trans w !! t); auto. Qed.
Lemma wp_get_conn c (Q : msc_a -> cc_world -> Prop) w :
  F UseAfterFree -> (forall a, w_conns w !! c = Some a -> Q a w) -> wp (get_conn c) Q w.
Proof. unfold wp, get_conn. destruct (w_conns w !! c); auto. Qed.
Lemma wp_get_leg l (Q : call_leg -> cc_world -> Prop) w :
  F UseAfterFree -> (forall cl, w_legs w !! l = Some cl -> Q cl w) -> wp (get_leg l) Q w.
Proof. unfold wp, get_leg. destruct (w_legs w !! l); auto. Qed.
Lemma wp_get_vsub v (Q : cc_vsub -> cc_world -> Prop) w :
  F UseAfterFree -> (forall s, w_vsubs w !! v = Some s -> Q s w) -> wp (get_vsub v) Q w.
Proof. unfold wp, get_vsub. destruct (w_vsubs w !! v); auto. Qed.
Lemma wp_deref {A} (o : option A) (Q : A -> cc_world -> Prop) w :
  F NullDeref -> (forall x, o = Some x -> Q x w) -> wp (deref o) Q w.
Proof. unfold wp, deref. destruct o; cbn; auto. Qed.
Lemma wp_mod_trans t f (Q : unit -> cc_world -> Prop) w :
  F UseAfterFree -> (forall tr, w_trans w !! t = Some tr -> Q tt (w <| w_trans ::= insert t (f tr) |>)) ->
  wp (mod_trans t f) Q w.
Proof. unfold wp, mod_trans. destruct (w_trans w !! t); auto. Qed.
Lemma wp_mod_conn c f (Q : unit -> cc_world -> Prop) w :
  F UseAfterFree -> (forall a, w_conns w !! c = Some a -> Q tt (w <| w_conns ::= insert c (f a) |>)) ->
  wp (mod_conn c f) Q w.
Proof. unfold wp, mod_conn. destruct (w_conns w !! c); auto. Qed.
Lemma wp_mod_leg l f (Q : unit -> cc_world -> Prop) w :
  F UseAfterFree -> (forall cl, w_legs w !! l = Some cl -> Q tt (w <| w_legs ::= insert l (f cl) |>)) ->
  wp (mod_leg l f) Q w.
Proof. unfold wp, mod_leg. destruct (w_legs w !! l); auto. Qed.
Lemma wp_mod_vsub v f (Q : unit -> cc_world -> Prop) w :
  F UseAfterFree -> (forall s, w_vsubs w !! v = Some s -> Q tt (w <| w_vsubs ::= insert v (f s) |>)) ->
  wp (mod_vsub v f) Q w.
Proof. unfold wp, mod_vsub. destruct (w_vsubs w !! v); auto. Qed.
Lemma wp_modify f (Q : unit -> cc_world -> Prop) w : Q tt (f w) -> wp (modify f) Q w.
Proof. done. Qed.
Lemma wp_ask (Q : Z -> cc_world -> Prop) w : (forall z l, Q z (w <| w_answers := l |>)) -> wp ask Q w.
Proof.
  intros H. unfold wp, ask. destruct (w_answers w) eqn:E; [|by apply H].
  pose proof (H 0 (w_answers w)) as H0. by destruct w.
Qed.
End wp.

(** assertions hold and events do not nest too deep *)
Definition tolerated (f : fault) : Prop := f <> AssertFailed /\ f <> TooDeep.
Lemma tolerated_uaf : tolerated UseAfterFree. Proof. done. Qed.
Lemma tolerated_null : tolerated NullDeref. Proof. done. Qed.
Lemma tolerated_overflow : tolerated BufferOverflow. Proof. done. Qed.

(** ** Uses *)

Lemma use_by_add tok tok' n m : use_by (use_add tok n m) tok' = use_by m tok' + (if decide (tok = tok') then n else 0).
Proof.
  unfold use_by at 1, use_add. destruct (decide (tok = tok')) as [->|Hne].
  - by rewrite lookup_insert_eq.
  - rewrite lookup_insert_ne by done. change (default 0 (m !! tok')) with (use_by m tok'). lia.
Qed.
Definition uses_pos (m : gmap string Z) : Prop := forall tok, 0 <= use_by m tok.
Lemma uses_pos_add tok n m : uses_pos m -> 0 <= use_by m tok + n -> uses_pos (use_add tok n m).
Proof. intros Hm Hn k. rewrite use_by_add. specialize (Hm k). case_decide; subst; lia. Qed.
Lemma use_total_ge m tok : uses_pos m -> use_by m tok <= use_total m.
Proof.
  intros Hm. change (use_total m) with (msum id m). unfold use_by.
  assert (Hp : forall k x, m !! k = Some x -> 0 <= id x).
  { intros k x Hk. specialize (Hm k). unfold use_by in Hm. by rewrite Hk in Hm. }
  destruct (m !! tok) as [x|] eqn:E; cbn; [by apply (msum_ge id m tok x Hp)|by apply msum_nonneg].
Qed.

(** ** The invariant *)

(** is the transaction one of connection [c], of this type? *)
Definition on_conn_of (ty : trans_type) (c : nat) (tr : gsm_trans) : Z :=
  if decide (t_type tr = ty /\ t_msc_a tr = Some c) then 1 else 0.
Definition trans_count (ty : trans_type) (c : nat) (w : cc_world) : Z := msum (on_conn_of ty c) (w_trans w).

Definition closing (s : msc_a_state) : bool := negb (conn_accepted s).

(** [X]: the connections that are just being closed; [Y]: the transactions that
    are just being freed; [D]: uses of connections
    that a function is about to give back *)
Record calls_ok (X Y : nat -> Prop) (D : nat -> trans_type -> Z) (w : cc_world) : Prop := mk_calls_ok {
  ok_nodup : NoDup (w_trans_list w);
  ok_listed : forall t, t ∈ w_trans_list w <-> is_Some (w_trans w !! t) /\ ~ Y t;
  ok_fresh : forall t tr, w_trans w !! t = Some tr -> (t < w_next_trans w)%nat;
  ok_freeing : forall t tr, w_trans w !! t = Some tr -> (t_freeing tr = true <-> Y t);
  ok_tid : forall t tr, w_trans w !! t = Some tr -> t_type tr = TRANS_CC -> t_msc_a tr = None ->
             t_id tr = TRANS_ID_UNASSIGNED;
  ok_attached : forall t tr c, w_trans w !! t = Some tr -> t_msc_a tr = Some c ->
                  exists a, w_conns w !! c = Some a /\ (X c \/ closing (a_state a) = false);
  ok_vsub_uses : forall v s, w_vsubs w !! v = Some s -> uses_pos (sb_uses s);
  ok_uses : forall c a, w_conns w !! c = Some a -> uses_pos (a_uses a);
  ok_balance : forall c a ty, w_conns w !! c = Some a ->
                 use_by (a_uses a) (trans_usage_token ty) = trans_count ty c w + D c ty;
  ok_vsub : forall c a, w_conns w !! c = Some a -> is_Some (a_vsub a);
  ok_active : forall c a t, w_conns w !! c = Some a -> a_active_trans a = Some t ->
                exists tr, w_trans w !! t = Some tr /\ t_type tr = TRANS_CC /\ t_msc_a tr = Some c;
  ok_leg : forall c a l, w_conns w !! c = Some a -> a_call_leg a = Some l ->
             (l < w_next_leg w)%nat
             /\ forall cl, w_legs w !! l = Some cl -> l_parent cl = Some c \/ l_parent cl = None
}.

Definition no_debt : nat -> trans_type -> Z := fun _ _ => 0.
Definition debt (oc : option nat) (ty : trans_type) (n : Z) : nat -> trans_type -> Z :=
  fun c ty' => if decide (ty = ty' /\ oc = Some c) then n else 0.

(** ** How a world evolves *)

(** the uses that functions hold while they run are given back *)
Definition holds_kept (w w' : cc_world) : Prop :=
  forall c a, w_conns w !! c = Some a ->
    exists a', w_conns w' !! c = Some a' /\ forall tok, tok ∈ func_tokens -> use_by (a_uses a') tok = use_by (a_uses a) tok.

Record evolves (w w' : cc_world) : Prop := mk_evolves {
  ev_trans : forall t tr', w_trans w' !! t = Some tr' ->
               exists tr, w_trans w !! t = Some tr /\ t_type tr' = t_type tr /\ t_msc_a tr' = t_msc_a tr /\ t_vsub tr' = t_vsub tr;
  ev_list : (length (w_trans_list w') <= length (w_trans_list w))%nat;
  ev_next : w_next_trans w' = w_next_trans w;
  ev_conns : holds_kept w w';
  ev_vsubs : forall v s, w_vsubs w !! v = Some s ->
               exists s', w_vsubs w' !! v = Some s' /\ use_by (sb_uses s') USE_MNCC_TX = use_by (sb_uses s) USE_MNCC_TX
}.

#[export] Instance holds_kept_preorder : PreOrder holds_kept.
Proof.
  split; [intros w c a Ha; by exists a|]. intros w1 w2 w3 H12 H23 c a Ha.
  destruct (H12 c a Ha) as (a2 & H2 & Hu2). destruct (H23 c a2 H2) as (a3 & H3 & Hu3).
  exists a3. split; [done|]. intros tok Ht. by rewrite Hu3, Hu2.
Qed.
#[export] Instance evolves_preorder : PreOrder evolves.
Proof.
  split.
  - intros w. split; [naive_solver|done|done|done|naive_solver].
  - intros w1 w2 w3 [A1 A2 A3 A4 A5] [B1 B2 B3 B4 B5]. split; [|lia|congruence|by trans w2|].
    + intros t tr3 (tr2 & H2 & E2 & F2 & G2)%B1. apply A1 in H2 as (tr1 & H1 & E1 & F1 & G1). exists tr1. split_and!; congruence.
    + intros v s (s2 & H2 & E2)%A5. apply B5 in H2 as (s3 & H3 & E3). exists s3. split; [done|]. congruence.
Qed.

(** ** Keeping the invariant *)

(** [S]: what is known of the world besides *)
Definition keeps (Y : nat -> Prop) (S : cc_world -> Prop) {A : Type} (m : M A) : Prop :=
  forall X w, calls_ok X Y no_debt w -> S w -> wp tolerated m (fun _ w' => calls_ok X Y no_debt w' /\ evolves w w') w.
Definition stable (S : cc_world -> Prop) : Prop := forall w w', S w -> evolves w w' -> S w'.
Definition anything : cc_world -> Prop := fun _ => True.

(** [t], if it still exists, is a call on a connection *)
Definition call_on_conn (t : nat) (w : cc_world) : Prop :=
  forall tr, w_trans w !! t = Some tr -> t_type tr = TRANS_CC /\ is_Some (t_msc_a tr).
Lemma anything_stable : stable anything.
Proof. done. Qed.
Lemma call_on_conn_stable t : stable (call_on_conn t).
Proof. intros w w' H E tr' (tr & Ht & -> & -> & _)%E. by apply H. Qed.
(** [t], if it still exists, belongs to a subscriber *)
Definition of_vsub (t : nat) (w : cc_world) : Prop := forall tr, w_trans w !! t = Some tr -> is_Some (t_vsub tr).
Lemma of_vsub_stable t : stable (of_vsub t).
Proof. intros w w' H E tr' (tr & Ht & _ & _ & ->)%E. by apply H. Qed.
Lemma stable_and S S' : stable S -> stable S' -> stable (fun w => S w /\ S' w).
Proof. intros H H' w w' [? ?] E. split; [by eapply H|by eapply H']. Qed.

Section rules.
Context {Y : nat -> Prop} {S : cc_world -> Prop} (HS : stable S).

Lemma keeps_bind {A B} (m : M A) (k : A -> M B) : keeps Y S m -> (forall a, keeps Y S (k a)) -> keeps Y S (bind m k).
Proof using HS.
  intros Hm Hk X w Hok Hw. apply wp_bind. eapply wp_mono; [by apply Hm|].
  intros a w1 [Hok1 E1]. eapply wp_mono; [by apply Hk; [|eapply HS]|].
  intros b w2 [Hok2 E2]. split; [done|by trans w1].
Qed.
Lemma keeps_ret {A} (a : A) : keeps Y S (ret a).
Proof. by intros X w Hok _; split. Qed.
Lemma keeps_when b m : keeps Y S m -> keeps Y S (when b m).
Proof. intros Hm. destruct b; [done|apply keeps_ret]. Qed.
Lemma keeps_gets {A} (f : cc_world -> A) : keeps Y S (gets f).
Proof. by intros X w Hok _; split. Qed.
Lemma keeps_crash {A} f : tolerated f -> keeps Y S (crash (A := A) f).
Proof. by intros Hf X w _ _. Qed.
Lemma keeps_any {A} (m : M A) : keeps Y anything m -> keeps Y S m.
Proof. intros Hm X w Hok _. by apply Hm. Qed.
End rules.

(** ** Primitive operations *)

(** changes that the invariant does not depend on *)
Definition same_calls (w w' : cc_world) : Prop :=
  w_trans w' = w_trans w /\ w_trans_list w' = w_trans_list w /\ w_next_trans w' = w_next_trans w
  /\ w_conns w' = w_conns w /\ w_legs w' = w_legs w /\ w_next_leg w' = w_next_leg w /\ w_vsubs w' = w_vsubs w.
Lemma same_calls_ok X Y D w w' : same_calls w w' -> calls_ok X Y D w -> calls_ok X Y D w'.
Proof.
  destruct w, w'. intros (? & ? & ? & ? & ? & ? & ?). cbn in *. subst.
  intros [? ? ? ? ? ? ? ? ? ? ? ?]; by split.
Qed.
Lemma same_calls_evolves w w' : same_calls w w' -> evolves w w'.
Proof.
  destruct w, w'. intros (? & ? & ? & ? & ? & ? & ?). cbn in *. subst. split; cbn; [naive_solver|done|done| |naive_solver].
  intros c a Ha. by exists a.
Qed.

Section prims.
Context {Y : nat -> Prop} {S : cc_world -> Prop}.

Lemma keeps_modify f : (forall w, same_calls w (f w)) -> keeps Y S (modify f).
Proof. intros Hf X w Hok _. split; [by apply (same_calls_ok X Y _ w)|by apply same_calls_evolves]. Qed.
Lemma keeps_emit o : keeps Y S (emit o).
Proof. by apply keeps_modify. Qed.
Lemma keeps_ask : keeps Y S ask.
Proof. intros X w Hok _. apply wp_ask. intros z l. split; [by apply (same_calls_ok X Y _ w)|by apply same_calls_evolves]. Qed.
Lemma keeps_get_trans t : keeps Y S (get_trans t).
Proof. intros X w Hok _. by apply wp_get_trans. Qed.
Lemma keeps_get_conn c : keeps Y S (get_conn c).
Proof. intros X w Hok _. by apply wp_get_conn. Qed.
Lemma keeps_get_leg l : keeps Y S (get_leg l).
Proof. intros X w Hok _. by apply wp_get_leg. Qed.
Lemma keeps_get_vsub v : keeps Y S (get_vsub v).
Proof. intros X w Hok _. by apply wp_get_vsub. Qed.
Lemma keeps_deref {A} (o : option A) : keeps Y S (deref o).
Proof. intros X w Hok _. by apply wp_deref. Qed.
End prims.

(** *** Transactions *)

(** [f] leaves alone what the invariant is about *)
Record tame (f : gsm_trans -> gsm_trans) : Prop := mk_tame {
  tame_type : forall tr, t_type (f tr) = t_type tr;
  tame_msc_a : forall tr, t_msc_a (f tr) = t_msc_a tr;
  tame_vsub : forall tr, t_vsub (f tr) = t_vsub tr;
  tame_freeing : forall tr, t_freeing (f tr) = t_freeing tr;
  tame_id : forall tr, t_msc_a tr = None -> t_id (f tr) = t_id tr
}.

Lemma trans_count_insert ty c t f tr w :
  w_trans w !! t = Some tr -> t_type (f tr) = t_type tr -> t_msc_a (f tr) = t_msc_a tr ->
  trans_count ty c (w <| w_trans ::= insert t (f tr) |>) = trans_count ty c w.
Proof.
  intros Ht H1 H2. unfold trans_count. cbn. rewrite (msum_insert _ _ _ _ _ Ht).
  unfold on_conn_of. rewrite H1, H2. lia.
Qed.

Lemma mod_trans_ok X Y D w t f tr :
  calls_ok X Y D w -> w_trans w !! t = Some tr ->
  t_type (f tr) = t_type tr -> t_msc_a (f tr) = t_msc_a tr -> t_freeing (f tr) = t_freeing tr ->
  (t_msc_a tr = None -> t_id (f tr) = t_id tr) ->
  calls_ok X Y D (w <| w_trans ::= insert t (f tr) |>).
Proof.
  intros [O1 O2 O3 O4 O5 O6 O7 O8 O9 O10 O11 O12] Ht F1 F2 F3 F4.
  split; cbn; try done.
  - intros u. rewrite O2, lookup_insert_is_Some. destruct (decide (t = u)) as [->|]; [|naive_solver].
    rewrite Ht. naive_solver.
  - intros u tr' [[<- <-]|[? Hu]]%lookup_insert_Some; eauto.
  - intros u tr' [[<- <-]|[? Hu]]%lookup_insert_Some; [|eauto]. rewrite F3. eauto.
  - intros u tr' [[<- <-]|[? Hu]]%lookup_insert_Some; [|eauto]. rewrite F1, F2. intros ? Hn. rewrite (F4 Hn). eauto.
  - intros u tr' c [[<- <-]|[? Hu]]%lookup_insert_Some; [|eauto]. rewrite F2. eauto.
  - intros c a ty Ha. pose proof (trans_count_insert ty c t f tr w Ht F1 F2) as E. cbn in E.
    etransitivity; [by apply O9|]. by rewrite <- E.
  - intros c a u Ha Hu. destruct (O11 c a u Ha Hu) as (tr' & H1 & H2 & H3).
    destruct (decide (t = u)) as [->|].
    + rewrite Ht in H1. simplify_eq. exists (f tr'). rewrite lookup_insert_eq. split; [done|]. split; congruence.
    + exists tr'. by rewrite lookup_insert_ne.
Qed.
Lemma mod_trans_evolves w t f tr :
  w_trans w !! t = Some tr -> t_type (f tr) = t_type tr -> t_msc_a (f tr) = t_msc_a tr -> t_vsub (f tr) = t_vsub tr ->
  evolves w (w <| w_trans ::= insert t (f tr) |>).
Proof.
  intros Ht F1 F2 F5. split; cbn; [|done|done|intros c a Ha; by exists a|naive_solver].
  intros u tr' [[<- <-]|[? Hu]]%lookup_insert_Some; [by exists tr|by exists tr'].
Qed.

Lemma keeps_mod_trans {Y} S t f : tame f -> keeps Y S (mod_trans t f).
Proof.
  intros [F1 F2 F5 F3 F4] X w Hok _. apply wp_mod_trans; [done|]. intros tr Ht.
  split; [by apply mod_trans_ok; auto|by apply mod_trans_evolves].
Qed.

(** *** Connections *)

Record tame_conn (f : msc_a -> msc_a) : Prop := mk_tame_conn {
  tc_state : forall a, a_state (f a) = a_state a;
  tc_vsub : forall a, a_vsub (f a) = a_vsub a;
  tc_uses : forall a, a_uses (f a) = a_uses a;
  tc_leg : forall a, a_call_leg (f a) = a_call_leg a \/ a_call_leg (f a) = None;
  tc_active : forall a, a_active_trans (f a) = a_active_trans a \/ a_active_trans (f a) = None
}.

(** the general form: [f] may change the uses and the state *)
Lemma mod_conn_ok X Y D X' D' w c f a :
  calls_ok X Y D w -> w_conns w !! c = Some a ->
  a_vsub (f a) = a_vsub a ->
  uses_pos (a_uses (f a)) ->
  (forall ty, use_by (a_uses (f a)) (trans_usage_token ty) = use_by (a_uses a) (trans_usage_token ty) + (D' c ty - D c ty)) ->
  (forall ty c', c' <> c -> D' c' ty = D c' ty) ->
  (forall c', c' <> c -> X c' -> X' c') -> 
  ((exists t tr, w_trans w !! t = Some tr /\ t_msc_a tr = Some c) -> X' c \/ closing (a_state (f a)) = false) ->
  (forall t, a_active_trans (f a) = Some t ->
     exists tr, w_trans w !! t = Some tr /\ t_type tr = TRANS_CC /\ t_msc_a tr = Some c) ->
  (a_call_leg (f a) = a_call_leg a \/ a_call_leg (f a) = None) ->
  calls_ok X' Y D' (w <| w_conns ::= insert c (f a) |>).
Proof.
  intros [O1 O2 O3 O4 O5 O6 O7 O8 O9 O10 O11 O12] Ha F1 F2 F3 F4 F5 F6 F7 F8.
  split; cbn; try done.
  - intros t tr c' Ht Hc. destruct (O6 t tr c' Ht Hc) as (a' & Ha' & HX). destruct (decide (c' = c)) as [->|Hne].
    + exists (f a). rewrite lookup_insert_eq. split; [done|]. apply F6. eauto.
    + exists a'. rewrite lookup_insert_ne by done. split; [done|]. destruct HX; eauto.
  - intros c' a' [[<- <-]|[? Hu]]%lookup_insert_Some; eauto.
  - intros c' a' ty [[<- <-]|[? Hu]]%lookup_insert_Some.
    + rewrite F3, (O9 c a ty Ha). change (trans_count ty c _) with (trans_count ty c w). lia.
    + rewrite (F4 ty c') by done. by apply O9.
  - intros c' a' [[<- <-]|[? Hu]]%lookup_insert_Some; [|eauto]. rewrite F1. eauto.
  - intros c' a' t [[<- <-]|[? Hu]]%lookup_insert_Some; eauto.
  - intros c' a' l [[<- <-]|[? Hu]]%lookup_insert_Some; [|eauto]. destruct F8 as [->| ->]; [eauto|done].
Qed.

Lemma mod_conn_holds w c f a :
  w_conns w !! c = Some a -> (forall tok, tok ∈ func_tokens -> use_by (a_uses (f a)) tok = use_by (a_uses a) tok) ->
  holds_kept w (w <| w_conns ::= insert c (f a) |>).
Proof.
  intros Ha Hf c' a' Ha'. cbn. destruct (decide (c = c')) as [->|].
  - exists (f a). rewrite lookup_insert_eq. rewrite Ha in Ha'. by simplify_eq.
  - exists a'. by rewrite lookup_insert_ne.
Qed.
Lemma mod_conn_evolves w c f a :
  w_conns w !! c = Some a -> (forall tok, tok ∈ func_tokens -> use_by (a_uses (f a)) tok = use_by (a_uses a) tok) ->
  evolves w (w <| w_conns ::= insert c (f a) |>).
Proof.
  intros Ha Hf. split; cbn; [naive_solver|done|done|by apply mod_conn_holds|naive_solver].
Qed.

Lemma tame_conn_ok X Y D w c f a :
  tame_conn f -> calls_ok X Y D w -> w_conns w !! c = Some a -> calls_ok X Y D (w <| w_conns ::= insert c (f a) |>).
Proof.
  intros [F1 F2 F3 F4 F5] Hok Ha. apply (mod_conn_ok X Y D X D w c f a Hok Ha); auto.
  - rewrite F3. by eapply ok_uses.
  - intros ty. rewrite F3. lia.
  - intros (t & tr & Ht & Hc). rewrite F1. destruct (ok_attached _ _ _ _ Hok t tr c Ht Hc) as (a' & Ha' & ?).
    rewrite Ha in Ha'. by simplify_eq.
  - intros t. destruct (F5 a) as [->| ->]; [|done]. by eapply ok_active.
Qed.
Lemma keeps_mod_conn {Y} S c f : tame_conn f -> keeps Y S (mod_conn c f).
Proof.
  intros Hf X w Hok _. apply wp_mod_conn; [done|]. intros a Ha.
  split; [by apply tame_conn_ok|]. apply mod_conn_evolves; [done|]. intros tok _. by rewrite (tc_uses f Hf).
Qed.

(** *** Call legs and subscribers *)

Lemma mod_leg_ok X Y D w l f cl :
  calls_ok X Y D w -> w_legs w !! l = Some cl -> (l_parent (f cl) = l_parent cl \/ l_parent (f cl) = None) ->
  calls_ok X Y D (w <| w_legs ::= insert l (f cl) |>).
Proof.
  intros [O1 O2 O3 O4 O5 O6 O7 O8 O9 O10 O11 O12] Hl Hf. split; cbn; try done.
  intros c a l' Ha Hl'. destruct (O12 c a l' Ha Hl') as [H1 H2]. split; [done|].
  intros cl' [[<- <-]|[? Hu]]%lookup_insert_Some; [|eauto]. destruct Hf as [->| ->]; eauto.
Qed.
Lemma keeps_mod_leg {Y} S l f :
  (forall cl, l_parent (f cl) = l_parent cl \/ l_parent (f cl) = None) -> keeps Y S (mod_leg l f).
Proof.
  intros Hf X w Hok _. apply wp_mod_leg; [done|]. intros cl Hl. split; [by apply mod_leg_ok|].
  split; cbn; [naive_solver|done|done|intros c a Ha; by exists a|naive_solver].
Qed.
Lemma delete_leg_ok X Y D w l : calls_ok X Y D w -> calls_ok X Y D (w <| w_legs ::= delete l |>).
Proof.
  intros [O1 O2 O3 O4 O5 O6 O7 O8 O9 O10 O11 O12]. split; cbn; try done.
  intros c a l' Ha Hl'. destruct (O12 c a l' Ha Hl') as [H1 H2]. split; [done|].
  intros cl' [? Hu]%lookup_delete_Some. eauto.
Qed.
Lemma keeps_delete_leg {Y} S l : keeps Y S (modify (fun w => w <| w_legs ::= delete l |>)).
Proof.
  intros X w Hok _. split; [by apply delete_leg_ok|].
  split; cbn; [naive_solver|done|done|intros c a Ha; by exists a|naive_solver].
Qed.

Lemma mod_vsub_ok X Y D w v f s :
  calls_ok X Y D w -> w_vsubs w !! v = Some s -> uses_pos (sb_uses (f s)) ->
  calls_ok X Y D (w <| w_vsubs ::= insert v (f s) |>).
Proof.
  intros [O1 O2 O3 O4 O5 O6 O7 O8 O9 O10 O11 O12] Hv Hf. split; cbn; try done.
  intros v' s' [[<- <-]|[? Hu]]%lookup_insert_Some; eauto.
Qed.
Lemma mod_vsub_evolves w v f s :
  w_vsubs w !! v = Some s -> use_by (sb_uses (f s)) USE_MNCC_TX = use_by (sb_uses s) USE_MNCC_TX ->
  evolves w (w <| w_vsubs ::= insert v (f s) |>).
Proof.
  intros Hv Hf. split; cbn; [naive_solver|done|done|intros c a Ha; by exists a|].
  intros v' s' Hv'. destruct (decide (v = v')) as [->|].
  - exists (f s). rewrite lookup_insert_eq. rewrite Hv in Hv'. by simplify_eq.
  - exists s'. by rewrite lookup_insert_ne.
Qed.
Lemma keeps_mod_vsub {Y} S v f : (forall s, sb_uses (f s) = sb_uses s) -> keeps Y S (mod_vsub v f).
Proof.
  intros Hf X w Hok _. apply wp_mod_vsub; [done|]. intros s Hv. split.
  - apply mod_vsub_ok; [done..|]. rewrite Hf. by eapply ok_vsub_uses.
  - apply mod_vsub_evolves; [done|]. by rewrite Hf.
Qed.

(** ** Automation *)

Lemma set_l_rtp_parent d s cl : l_parent (set_l_rtp d s cl) = l_parent cl.
Proof. by destruct d. Qed.
Create HintDb keeps.

Ltac tame_tac :=
  solve [split; try done;
         try (intros ?; first [by left | by right | cbn; by repeat (case_match; cbn)]);
         try (intros ? ?; cbn; by repeat (case_match; cbn))].
Ltac keep_stable := first [apply anything_stable | apply call_on_conn_stable | eassumption].
Ltac keep_step :=
  lazymatch goal with
  | |- keeps _ _ (bind _ _) => apply keeps_bind; [keep_stable| |intros ?]
  | |- keeps _ _ (ret _) => apply keeps_ret
  | |- keeps _ _ (when _ _) => apply keeps_when
  | |- keeps _ _ (gets _) => apply keeps_gets
  | |- keeps _ _ (emit _) => apply keeps_emit
  | |- keeps _ _ ask => apply keeps_ask
  | |- keeps _ _ (get_trans _) => apply keeps_get_trans
  | |- keeps _ _ (get_conn _) => apply keeps_get_conn
  | |- keeps _ _ (get_leg _) => apply keeps_get_leg
  | |- keeps _ _ (get_vsub _) => apply keeps_get_vsub
  | |- keeps _ _ (deref _) => apply keeps_deref
  | |- keeps _ _ (crash _) => apply keeps_crash; done
  | |- keeps _ _ (mod_trans _ _) => first [apply keeps_mod_trans; tame_tac | solve [eauto 2 with keeps] | apply keeps_mod_trans]
  | |- keeps _ _ (mod_conn _ _) => apply keeps_mod_conn; try tame_tac
  | |- keeps _ _ (mod_leg _ _) => apply keeps_mod_leg; try (intros ?; first [left; apply set_l_rtp_parent | by left | by right])
  | |- keeps _ _ (mod_vsub _ _) => apply keeps_mod_vsub; try (intros ?; done)
  | |- keeps _ _ (let _ := _ in _) => cbv zeta
  | |- keeps _ _ (match ?x with _ => _ end) => destruct x
  | |- keeps _ _ (modify (fun w => w <| w_legs ::= delete _ |>)) => apply keeps_delete_leg
  | |- keeps _ _ (modify _) => by apply keeps_modify
  | |- keeps _ _ _ => first [solve [eauto 3 with keeps] | apply keeps_any; solve [eauto 3 with keeps]]
  end.
Ltac keep := repeat keep_step.

Lemma keeps_get_rtp {Y} S l d : stable S -> keeps Y S (get_rtp l d).
Proof. intros HS. unfold get_rtp. keep. Qed.
Lemma keeps_set_l_rtp {Y} S l d s : keeps Y S (mod_leg l (set_l_rtp d s)).
Proof. apply keeps_mod_leg. intros cl. left. apply set_l_rtp_parent. Qed.
Lemma keeps_mod_rtp {Y} S l d f : stable S -> keeps Y S (mod_rtp l d f).
Proof.
  intros HS. unfold mod_rtp. apply keeps_bind; [done|by apply keeps_get_rtp|]. intros s. apply keeps_set_l_rtp.
Qed.
#[export] Hint Resolve anything_stable call_on_conn_stable keeps_get_rtp keeps_set_l_rtp keeps_mod_rtp : keeps.

(** ** Base operations *)

Lemma keeps_trans_is_live {Y} ot : keeps Y anything (trans_is_live ot).
Proof. unfold trans_is_live. keep. Qed.
Lemma keeps_trans_lcls_compose {Y} t : keeps Y anything (trans_lcls_compose t).
Proof. unfold trans_lcls_compose. keep. Qed.
Lemma keeps_trans_tx_gsm48 {Y} t mt ies : keeps Y anything (trans_tx_gsm48 t mt ies).
Proof. unfold trans_tx_gsm48. keep. Qed.
Lemma keeps_stop_guard {Y} t : keeps Y anything (gsm48_stop_guard_timer t).
Proof. unfold gsm48_stop_guard_timer. keep. Qed.
Lemma keeps_start_guard {Y} t : keeps Y anything (gsm48_start_guard_timer t).
Proof. unfold gsm48_start_guard_timer. keep. Qed.
Lemma keeps_stop_cc {Y} t : keeps Y anything (gsm48_stop_cc_timer t).
Proof. unfold gsm48_stop_cc_timer. keep. Qed.
Lemma keeps_start_cc {Y} t T : keeps Y anything (gsm48_start_cc_timer t T).
Proof. unfold gsm48_start_cc_timer. keep. Qed.
#[export] Hint Resolve keeps_trans_is_live keeps_trans_lcls_compose keeps_trans_tx_gsm48 keeps_stop_guard
  keeps_start_guard keeps_stop_cc keeps_start_cc : keeps.
Lemma keeps_new_cc_state {Y} t s : keeps Y anything (new_cc_state t s).
Proof. unfold new_cc_state, count_statistics. keep. Qed.
Lemma keeps_mncc_recv_prim {Y} ot m : keeps Y anything (mncc_recv_prim ot m).
Proof. unfold mncc_recv_prim. keep. Qed.
#[export] Hint Resolve keeps_new_cc_state keeps_mncc_recv_prim : keeps.
Lemma keeps_mncc_recvmsg {Y} ot ty m : keeps Y anything (mncc_recvmsg ot ty m).
Proof. unfold mncc_recvmsg. keep. Qed.
#[export] Hint Resolve keeps_mncc_recvmsg : keeps.
Lemma keeps_mncc_release_ind {Y} ot r l v : keeps Y anything (mncc_release_ind ot r l v).
Proof. unfold mncc_release_ind. keep. Qed.
Lemma keeps_tx_status {Y} t : keeps Y anything (gsm48_cc_tx_status t).
Proof. unfold gsm48_cc_tx_status. keep. Qed.
Lemma keeps_tx_release {Y} t m : keeps Y anything (gsm48_cc_tx_release t m).
Proof. unfold gsm48_cc_tx_release. keep. Qed.
#[export] Hint Resolve keeps_mncc_release_ind keeps_tx_status keeps_tx_release : keeps.

(** ** What an operation leaves alone

    [acts G m]: [m] changes the world only as the preorder [G] allows. *)
Section acts.
Variable G : cc_world -> cc_world -> Prop.
Context `{!PreOrder G}.

Definition acts {A : Type} (m : M A) : Prop := forall w, wp (fun _ => True) m (fun _ w' => G w w') w.

Lemma acts_bind {A B} (m : M A) (k : A -> M B) : acts m -> (forall a, acts (k a)) -> acts (bind m k).
Proof using PreOrder0.
  intros Hm Hk w. apply wp_bind. eapply wp_mono; [apply Hm|]. intros a w1 H1.
  eapply wp_mono; [apply Hk|]. intros b w2 H2. cbn. by trans w1.
Qed.
Lemma acts_ret {A} (a : A) : acts (ret a).
Proof using PreOrder0. intros w. cbn. reflexivity. Qed.
Lemma acts_when b m : acts m -> acts (when b m).
Proof using PreOrder0. intros Hm. destruct b; [done|apply acts_ret]. Qed.
Lemma acts_gets {A} (f : cc_world -> A) : acts (gets f).
Proof using PreOrder0. intros w. cbn. reflexivity. Qed.
Lemma acts_crash {A} f : acts (crash (A := A) f).
Proof. by intros w. Qed.
Lemma acts_get_trans t : acts (get_trans t).
Proof using PreOrder0. intros w. by apply wp_get_trans. Qed.
Lemma acts_get_conn c : acts (get_conn c).
Proof using PreOrder0. intros w. by apply wp_get_conn. Qed.
Lemma acts_get_leg c : acts (get_leg c).
Proof using PreOrder0. intros w. by apply wp_get_leg. Qed.
Lemma acts_get_vsub c : acts (get_vsub c).
Proof using PreOrder0. intros w. by apply wp_get_vsub. Qed.
Lemma acts_deref {A} (o : option A) : acts (deref o).
Proof using PreOrder0. intros w. by apply wp_deref. Qed.
Lemma acts_modify f : (forall w, G w (f w)) -> acts (modify f).
Proof. intros Hf w. apply Hf. Qed.
Lemma acts_emit o : (forall w, G w (w <| w_out ::= fun l => l ++ [o] |>)) -> acts (emit o).
Proof. apply acts_modify. Qed.
Lemma acts_ask : (forall w l, G w (w <| w_answers := l |>)) -> acts ask.
Proof. intros H w. apply wp_ask. intros z l. apply H. Qed.
Lemma acts_mod_trans t f :
  (forall w tr, w_trans w !! t = Some tr -> G w (w <| w_trans ::= insert t (f tr) |>)) -> acts (mod_trans t f).
Proof. intros H w. apply wp_mod_trans; [done|]. apply H. Qed.
Lemma acts_mod_conn c f :
  (forall w a, w_conns w !! c = Some a -> G w (w <| w_conns ::= insert c (f a) |>)) -> acts (mod_conn c f).
Proof. intros H w. apply wp_mod_conn; [done|]. apply H. Qed.
Lemma acts_mod_leg l f :
  (forall w cl, w_legs w !! l = Some cl -> G w (w <| w_legs ::= insert l (f cl) |>)) -> acts (mod_leg l f).
Proof. intros H w. apply wp_mod_leg; [done|]. apply H. Qed.
Lemma acts_mod_vsub v f :
  (forall w s, w_vsubs w !! v = Some s -> G w (w <| w_vsubs ::= insert v (f s) |>)) -> acts (mod_vsub v f).
Proof. intros H w. apply wp_mod_vsub; [done|]. apply H. Qed.
End acts.

Create HintDb acts.
Ltac act_step :=
  lazymatch goal with
  | |- acts _ (bind _ _) => apply acts_bind; [typeclasses eauto| |intros ?]
  | |- acts _ (ret _) => apply acts_ret; typeclasses eauto
  | |- acts _ (when _ _) => apply acts_when; [typeclasses eauto|]
  | |- acts _ (gets _) => apply acts_gets; typeclasses eauto
  | |- acts _ (get_trans _) => apply acts_get_trans; typeclasses eauto
  | |- acts _ (get_conn _) => apply acts_get_conn; typeclasses eauto
  | |- acts _ (get_leg _) => apply acts_get_leg; typeclasses eauto
  | |- acts _ (get_vsub _) => apply acts_get_vsub; typeclasses eauto
  | |- acts _ (deref _) => apply acts_deref; typeclasses eauto
  | |- acts _ (crash _) => apply acts_crash
  | |- acts _ (let _ := _ in _) => cbv zeta
  | |- acts _ (match ?x with _ => _ end) => destruct x
  | |- acts _ _ => solve [eauto 3 with acts]
  end.
Ltac act := repeat act_step.

(** ** Freeing a transaction: nothing else happens *)

(** the connection keeps everything, but may lose its active call *)
Definition conn_calm (a a' : msc_a) : Prop :=
  a_state a' = a_state a /\ a_uses a' = a_uses a /\ a_call_leg a' = a_call_leg a /\ a_vsub a' = a_vsub a
  /\ a_ran a' = a_ran a /\ (a_active_trans a' = a_active_trans a \/ a_active_trans a' = None).

Record calm (t : nat) (w w' : cc_world) : Prop := mk_calm {
  calm_list : w_trans_list w' = w_trans_list w;
  calm_next : w_next_trans w' = w_next_trans w;
  calm_legs : w_legs w' = w_legs w;
  calm_next_leg : w_next_leg w' = w_next_leg w;
  calm_others : forall u, u <> t -> w_trans w' !! u = w_trans w !! u;
  calm_trans : forall tr, w_trans w !! t = Some tr ->
                 exists tr', w_trans w' !! t = Some tr' /\ t_type tr' = t_type tr /\ t_msc_a tr' = t_msc_a tr
                             /\ t_vsub tr' = t_vsub tr /\ t_freeing tr' = t_freeing tr;
  calm_conns : forall c a, w_conns w !! c = Some a -> exists a', w_conns w' !! c = Some a' /\ conn_calm a a';
  calm_no_new : forall c, w_conns w !! c = None -> w_conns w' !! c = None
}.
Lemma conn_calm_refl a : conn_calm a a.
Proof. unfold conn_calm. auto 10. Qed.
#[export] Hint Resolve conn_calm_refl : core.
#[export] Instance calm_preorder t : PreOrder (calm t).
Proof.
  split.
  - intros w. split; try done; [naive_solver|]. intros c a Ha. by exists a.
  - intros w1 w2 w3 [A1 A2 A3 A4 A6 A7 A8 A9] [B1 B2 B3 B4 B6 B7 B8 B9]. split; try congruence.
    + intros u Hu. by rewrite B6, A6.
    + intros tr (tr2 & H2 & ?)%A7. apply B7 in H2 as (tr3 & H3 & ?). exists tr3. split; [done|]. intuition congruence.
    + intros c a (a2 & H2 & ?)%A8. apply B8 in H2 as (a3 & H3 & ?). exists a3. split; [done|]. unfold conn_calm in *. intuition congruence.
    + intros c Hc. by apply B9, A9.
Qed.

Lemma calm_mod_trans t f :
  (forall tr, t_type (f tr) = t_type tr /\ t_msc_a (f tr) = t_msc_a tr /\ t_vsub (f tr) = t_vsub tr
              /\ t_freeing (f tr) = t_freeing tr) ->
  acts (calm t) (mod_trans t f).
Proof.
  intros Hf. apply acts_mod_trans. intros w tr Ht. split; cbn; try done.
  - intros u Hu. by rewrite lookup_insert_ne.
  - intros tr' Ht'. exists (f tr). rewrite lookup_insert_eq. rewrite Ht in Ht'. simplify_eq. split; [done|apply Hf].
  - intros c a Ha. by exists a.
Qed.
Lemma calm_mod_conn t c f : (forall a, conn_calm a (f a)) -> acts (calm t) (mod_conn c f).
Proof.
  intros Hf. apply acts_mod_conn. intros w a Ha. split; cbn; try done; [naive_solver| |].
  2:{ intros c' Hc'. rewrite lookup_insert_ne; congruence. }
  intros c' a' Ha'. destruct (decide (c = c')) as [->|].
  - exists (f a). rewrite lookup_insert_eq. rewrite Ha in Ha'. simplify_eq. split; [done|apply Hf].
  - exists a'. by rewrite lookup_insert_ne.
Qed.
Lemma calm_mod_vsub t v f : acts (calm t) (mod_vsub v f).
Proof.
  apply acts_mod_vsub. intros w s Hs. split; cbn; try done; [naive_solver|].
  intros c a Ha. by exists a.
Qed.
Lemma calm_unrelated t w w' : same_calls w w' -> calm t w w'.
Proof.
  destruct w, w'. intros (? & ? & ? & ? & ? & ? & ?). cbn in *. subst. split; cbn; try done; [naive_solver|].
  intros c a Ha. by exists a.
Qed.
Lemma calm_emit t o : acts (calm t) (emit o).
Proof. apply acts_emit. intros w. by apply calm_unrelated. Qed.
Lemma calm_modify t f : (forall w, same_calls w (f w)) -> acts (calm t) (modify f).
Proof. intros H. apply acts_modify. intros w. by apply calm_unrelated. Qed.
Lemma calm_ask t : acts (calm t) ask.
Proof. apply acts_ask. intros w l. by apply calm_unrelated. Qed.
#[export] Hint Resolve calm_emit calm_ask calm_mod_vsub : acts.
#[export] Hint Extern 1 (acts (calm _) (mod_trans _ _)) =>
  (apply calm_mod_trans; let tr := fresh in intros tr; cbn; by repeat (case_match; cbn)) : acts.
#[export] Hint Extern 1 (acts (calm _) (modify _)) => by apply calm_modify : acts.
#[export] Hint Extern 1 (acts (calm _) (mod_conn _ _)) =>
  (apply calm_mod_conn; intros ?; unfold conn_calm; cbn; auto 10) : acts.

Lemma calm_new_cc_state t s : acts (calm t) (new_cc_state t s).
Proof. unfold new_cc_state, count_statistics, gsm48_stop_guard_timer. act. Qed.
Lemma calm_stop_cc t : acts (calm t) (gsm48_stop_cc_timer t).
Proof. unfold gsm48_stop_cc_timer. act. Qed.
#[export] Hint Resolve calm_new_cc_state calm_stop_cc : acts.
Lemma calm_release_ind t r l v : acts (calm t) (mncc_release_ind (Some t) r l v).
Proof. unfold mncc_release_ind, mncc_recvmsg, mncc_recv_prim. act. Qed.
Lemma calm_tx_release t m : acts (calm t) (gsm48_cc_tx_release t m).
Proof. unfold gsm48_cc_tx_release, gsm48_start_cc_timer, trans_tx_gsm48. act. Qed.
#[export] Hint Resolve calm_release_ind calm_tx_release : acts.
Lemma calm_cc_trans_free t : acts (calm t) (_gsm48_cc_trans_free t).
Proof. unfold _gsm48_cc_trans_free, gsm48_stop_guard_timer. act. Qed.
Lemma calm_hook t ty : acts (calm t) (trans_free_hook t ty).
Proof. destruct ty; cbn; try apply calm_emit. apply calm_cc_trans_free. Qed.

Lemma wp_and {A} F (m : M A) Q Q' w :
  wp F m Q w -> wp (fun _ => True) m Q' w -> wp F m (fun a w' => Q a w' /\ Q' a w') w.
Proof. unfold wp. destruct (m w); auto. Qed.
Lemma wp_keeps_bind {A B} (m : M A) (k : A -> M B) X Y Q w :
  keeps Y anything m -> calls_ok X Y no_debt w ->
  (forall a w1, calls_ok X Y no_debt w1 -> evolves w w1 -> wp tolerated (k a) Q w1) -> wp tolerated (bind m k) Q w.
Proof.
  intros Hm Hok Hk. apply wp_bind. eapply wp_mono; [by apply Hm|]. intros a w1 [? ?]. by apply Hk.
Qed.

Definition inactive (t : nat) (w : cc_world) : Prop :=
  forall c a, w_conns w !! c = Some a -> a_active_trans a <> Some t.

Lemma cc_trans_free_inactive X Y t w :
  calls_ok X Y no_debt w -> wp tolerated (_gsm48_cc_trans_free t)
    (fun _ w' => (calls_ok X Y no_debt w' /\ evolves w w') /\ inactive t w') w.
Proof.
  intros Hok. unfold _gsm48_cc_trans_free. apply (wp_keeps_bind _ _ X Y); [keep|done|]. intros _ w1 Hok1 E1.
  apply (wp_keeps_bind _ _ X Y); [keep|done|]. intros _ w2 Hok2 E2.
  apply (wp_keeps_bind _ _ X Y); [keep|done|]. intros tr w3 Hok3 E3.
  apply (wp_keeps_bind _ _ X Y); [keep|done|]. intros _ w4 Hok4 E4.
  apply wp_bind, wp_get_trans; [done|]. intros tr' Ht'.
  apply (wp_keeps_bind _ _ X Y); [keep|done|]. intros _ w5 Hok5 E5.
  apply (wp_keeps_bind _ _ X Y); [keep|done|]. intros _ w6 Hok6 E6.
  assert (E : evolves w w6) by (trans w1; [|trans w2; [|trans w3; [|trans w4; [|trans w5]]]]; done).
  assert (Hm : forall tr6, w_trans w6 !! t = Some tr6 -> t_msc_a tr6 = t_msc_a tr').
  { intros tr6 (tr5 & H5 & _ & -> & _)%E6. apply E5 in H5 as (tr4 & H4 & _ & -> & _). naive_solver. }
  assert (Hact : forall c a, w_conns w6 !! c = Some a -> a_active_trans a = Some t -> t_msc_a tr' = Some c).
  { intros c a Ha Hact. destruct (ok_active _ _ _ _ Hok6 c a t Ha Hact) as (tr6 & H6 & _ & <-). symmetry. by apply Hm. }
  destruct (t_msc_a tr') as [c|]; [|split; [done|]; intros c a Ha Hact'; by eapply Hact in Ha].
  apply wp_bind, wp_get_conn; [done|]. intros a Ha. unfold opt_eqb. case_bool_decide as Hd.
  - apply wp_mod_conn; [done|]. intros a' Ha'. rewrite Ha in Ha'. simplify_eq. split; [split|].
    + apply (tame_conn_ok _ _ _ w6 c (fun a => a <| a_active_trans := None |>)); [tame_tac|done..].
    + trans w6; [done|]. by apply (mod_conn_evolves w6 c (fun a => a <| a_active_trans := None |>) a').
    + intros c' b. cbn. intros [[<- <-]|[? Hb]]%lookup_insert_Some; [done|]. intros Hb'. by specialize (Hact c' b Hb Hb') as [= <-].
  - split; [done|]. intros c' b Hb Hb'. specialize (Hact c' b Hb Hb') as [= <-]. naive_solver.
Qed.

Lemma hook_inactive X Y t ty w tr :
  calls_ok X Y no_debt w -> w_trans w !! t = Some tr -> t_type tr = ty ->
  wp tolerated (trans_free_hook t ty) (fun _ w' => (calls_ok X Y no_debt w' /\ evolves w w') /\ inactive t w') w.
Proof.
  intros Hok Ht Hty. destruct (decide (ty = TRANS_CC)) as [->|Hne]; [by apply cc_trans_free_inactive|].
  assert (wp tolerated (emit (OutTransFree t)) (fun _ w' => (calls_ok X Y no_debt w' /\ evolves w w') /\ inactive t w') w).
  { split; [split; [by apply (same_calls_ok X Y _ w)|by apply same_calls_evolves]|].
    intros c a Ha Hact. destruct (ok_active _ _ _ _ Hok c a t Ha Hact) as (tr' & Ht' & ? & _). naive_solver. }
  by destruct ty.
Qed.

Definition plus (Y : nat -> Prop) (t : nat) : nat -> Prop := fun u => Y u \/ u = t.

Lemma start_free_ok X Y t w tr :
  calls_ok X Y no_debt w -> w_trans w !! t = Some tr -> t_freeing tr = false ->
  calls_ok X (plus Y t) no_debt
    (w <| w_trans ::= insert t (tr <| t_freeing := true |>) |> <| w_trans_list ::= filter (fun u => u <> t) |>).
Proof.
  intros [O1 O2 O3 O4 O5 O6 O7 O8 O9 O10 O11 O12] Ht Hf. unfold plus. split; cbn; try done.
  - by apply NoDup_filter.
  - intros u. rewrite list_elem_of_filter, O2, lookup_insert_is_Some. destruct (decide (u = t)); naive_solver.
  - intros u tr' [[<- <-]|[? Hu]]%lookup_insert_Some; eauto.
  - intros u tr' [[<- <-]|[? Hu]]%lookup_insert_Some; [naive_solver|]. rewrite (O4 u tr' Hu). naive_solver.
  - intros u tr' [[<- <-]|[? Hu]]%lookup_insert_Some; [|eauto]. by apply (O5 t tr).
  - intros u tr' c [[<- <-]|[? Hu]]%lookup_insert_Some; [|eauto]. by apply (O6 t tr).
  - intros c a ty Ha. rewrite (O9 c a ty Ha). f_equal. unfold trans_count. cbn.
    rewrite (msum_insert _ _ _ _ _ Ht). change (on_conn_of ty c (tr <| t_freeing := true |>)) with (on_conn_of ty c tr). lia.
  - intros c a u Ha Hu. destruct (O11 c a u Ha Hu) as (tr' & H1 & H2 & H3). destruct (decide (t = u)) as [->|].
    + rewrite Ht in H1. simplify_eq. exists (tr' <| t_freeing := true |>). by rewrite lookup_insert_eq.
    + exists tr'. by rewrite lookup_insert_ne.
Qed.

Lemma finish_free_ok X Y t w tr :
  calls_ok X (plus Y t) no_debt w -> w_trans w !! t = Some tr -> ~ Y t -> inactive t w ->
  calls_ok X Y (debt (t_msc_a tr) (t_type tr) 1) (w <| w_trans ::= delete t |>).
Proof.
  intros [O1 O2 O3 O4 O5 O6 O7 O8 O9 O10 O11 O12] Ht HY Hina. unfold plus in *. split; cbn; try done.
  - intros u. rewrite O2, lookup_delete_is_Some. naive_solver.
  - intros u tr' [? Hu]%lookup_delete_Some. eauto.
  - intros u tr' [? Hu]%lookup_delete_Some. rewrite (O4 u tr' Hu). naive_solver.
  - intros u tr' [? Hu]%lookup_delete_Some. eauto.
  - intros u tr' c [? Hu]%lookup_delete_Some. eauto.
  - intros c a ty Ha. rewrite (O9 c a ty Ha). unfold trans_count. cbn. rewrite (msum_delete _ _ _ _ Ht).
    unfold no_debt, on_conn_of, debt. case_decide; lia.
  - intros c a u Ha Hu. destruct (O11 c a u Ha Hu) as (tr' & H1 & H2 & H3). exists tr'. split; [|done].
    apply lookup_delete_Some. split; [|done]. intros <-. by eapply Hina in Ha.
Qed.

(** ** What freeing a transaction leaves of the world *)
Record freed (t : nat) (w w' : cc_world) : Prop := mk_freed {
  freed_gone : w_trans w' !! t = None;
  freed_others : forall u, u <> t -> w_trans w' !! u = w_trans w !! u;
  freed_list : (length (w_trans_list w') < length (w_trans_list w))%nat;
  freed_legs : w_legs w' = w_legs w;
  freed_conns : forall c a, w_conns w !! c = Some a -> exists a', w_conns w' !! c = Some a' /\ conn_calm a a'
}.

Lemma vsub_token_ne ty : trans_vsub_use ty <> USE_MNCC_TX.
Proof. by destruct ty. Qed.

Lemma keeps_trans_put_vsub {Y} v ty : keeps Y anything (trans_put_vsub v (trans_vsub_use ty)).
Proof.
  intros X w Hok _. unfold trans_put_vsub, vlr_subscr_put. apply wp_bind, wp_get_vsub; [done|]. intros s Hs.
  pose proof (ok_vsub_uses _ _ _ _ Hok v s Hs) as Hp.
  destruct (Z.eqb_spec (use_by (sb_uses s) (trans_vsub_use ty)) 0) as [|Hn]; [by apply wp_ret|].
  apply wp_bind, wp_get_vsub; [done|]. intros s' Hs'. rewrite Hs in Hs'. simplify_eq.
  specialize (Hp (trans_vsub_use ty)) as Hp'.
  destruct (Z.leb_spec (use_by (sb_uses s') (trans_vsub_use ty)) 0); [lia|].
  apply wp_mod_vsub; [done|]. intros s Hs'. rewrite Hs in Hs'. injection Hs' as <-. split.
  - apply (mod_vsub_ok _ _ _ w v (fun s => s <| sb_uses ::= use_add (trans_vsub_use ty) (-1) |>)); [done..|].
    apply (uses_pos_add _ _ (sb_uses s')); [done|]. lia.
  - apply (mod_vsub_evolves w v (fun s => s <| sb_uses ::= use_add (trans_vsub_use ty) (-1) |>)); [done|].
    change (use_by (use_add (trans_vsub_use ty) (-1) (sb_uses s')) USE_MNCC_TX = use_by (sb_uses s') USE_MNCC_TX).
    rewrite use_by_add. case_decide as Hd; [by apply vsub_token_ne in Hd|lia].
Qed.
#[export] Hint Resolve keeps_trans_put_vsub : keeps.

Lemma length_filter_lt (l : list nat) t :
  t ∈ l -> (length (filter (fun u => u <> t) l) < length l)%nat.
Proof.
  induction 1 as [x|x l y Hl IH]; rewrite filter_cons.
  - rewrite decide_False by naive_solver. cbn. pose proof (length_filter (fun u => u <> x) l). lia.
  - case_decide; cbn; lia.
Qed.

(** freeing begins *)
Definition begin_free (t : nat) (tr : gsm_trans) (w : cc_world) : cc_world :=
  w <| w_trans ::= insert t (tr <| t_freeing := true |>) |> <| w_trans_list ::= filter (fun u => u <> t) |>.
Lemma begin_free_evolves t tr w : w_trans w !! t = Some tr -> evolves w (begin_free t tr w).
Proof.
  intros Ht. split; cbn; [|apply length_filter|done|intros c a Ha; by exists a|naive_solver].
  intros u tr' [[<- <-]|[? Hu]]%lookup_insert_Some; [by exists tr|by exists tr'].
Qed.

(** the second half of trans_free_unlink *)
Definition unlink_rest (t : nat) (tr : gsm_trans) : M unit :=
  when (t_paging_request tr) (emit (OutPageRemove t) ;; mod_trans t (fun tr => tr <| t_paging_request := false |>)) ;;
  match t_vsub tr with Some v => trans_put_vsub v (trans_vsub_use (t_type tr)) | None => ret tt end.
Lemma keeps_unlink_rest {Y} t tr : keeps Y anything (unlink_rest t tr).
Proof. unfold unlink_rest. keep. Qed.

Lemma calm_unlink_rest t tr : acts (calm t) (unlink_rest t tr).
Proof. unfold unlink_rest, trans_put_vsub, vlr_subscr_put. act. Qed.
Lemma calm_inactive t u w w' : calm t w w' -> inactive u w -> inactive u w'.
Proof.
  intros H Hi c a Ha Hact. destruct (w_conns w !! c) as [a0|] eqn:Ha0; [|by rewrite (calm_no_new _ _ _ H c Ha0) in Ha].
  destruct (calm_conns _ _ _ H c a0 Ha0) as (a' & Ha' & _ & _ & _ & _ & _ & Hor).
  specialize (Hi c a0 Ha0). naive_solver congruence.
Qed.

Lemma delete_trans_evolves t w : evolves w (w <| w_trans ::= delete t |>).
Proof.
  split; cbn; [|done|done|intros c a Ha; by exists a|naive_solver].
  intros u tr [_ Hu]%lookup_delete_Some. by exists tr.
Qed.
Lemma calm_freed X Y t w tr w4 :
  calls_ok X Y no_debt w -> ~ Y t -> w_trans w !! t = Some tr -> calm t (begin_free t tr w) w4 ->
  freed t w (w4 <| w_trans ::= delete t |>).
Proof.
  intros Hok HY Ht C. split.
  - apply lookup_delete_eq.
  - intros u Hu. etransitivity; [by apply lookup_delete_ne|]. etransitivity; [exact (calm_others _ _ _ C u Hu)|].
    by apply lookup_insert_ne.
  - change (length (w_trans_list w4) < length (w_trans_list w))%nat. rewrite (calm_list _ _ _ C). apply length_filter_lt. by apply (ok_listed _ _ _ _ Hok).
  - apply (calm_legs _ _ _ C).
  - apply (calm_conns _ _ _ C).
Qed.

Lemma unlink_spec X Y t w tr :
  calls_ok X Y no_debt w -> w_trans w !! t = Some tr -> t_freeing tr = false ->
  wp tolerated (trans_free_unlink t)
    (fun oc w' => oc = t_msc_a tr /\ calls_ok X Y (debt (t_msc_a tr) (t_type tr) 1) w' /\ evolves w w' /\ freed t w w') w.
Proof.
  intros Hok Ht Hf. unfold trans_free_unlink.
  assert (HY : ~ Y t) by (rewrite <- (ok_freeing _ _ _ _ Hok t tr Ht); congruence).
  pose proof (start_free_ok X Y t w tr Hok Ht Hf) as Hok2. pose proof (begin_free_evolves t tr w Ht) as E2.
  change (w <| w_trans ::= _ |> <| w_trans_list ::= _ |>) with (begin_free t tr w) in Hok2.
  apply wp_bind, wp_mod_trans; [done|]. intros tr0 Ht0. rewrite Ht in Ht0. injection Ht0 as <-. apply wp_bind.
  apply wp_modify. change (w <| w_trans ::= _ |> <| w_trans_list ::= _ |>) with (begin_free t tr w).
  apply wp_bind, wp_get_trans; [done|]. intros tr2 Ht2.
  assert (Htr2 : tr2 = tr <| t_freeing := true |>) by (cbn in Ht2; rewrite lookup_insert_eq in Ht2; congruence).
  apply wp_bind. eapply wp_mono; [apply wp_and; [by apply (hook_inactive X (plus Y t) t _ _ tr2)|apply calm_hook]|].
  intros _ w3 [[[Hok3 E3] Hi3] C3]. apply wp_bind, wp_get_trans; [done|]. intros tr3 Ht3.
  assert (Htr3 : t_type tr3 = t_type tr /\ t_msc_a tr3 = t_msc_a tr).
  { destruct (calm_trans _ _ _ C3 tr2 Ht2) as (tr3' & Ht3' & H). rewrite Ht3 in Ht3'. injection Ht3' as <-.
    rewrite Htr2 in H. cbn in H. intuition. }
  match goal with |- wp _ (bind ?a (fun _ => bind ?b ?k)) _ _ => apply (wp_assoc _ a (fun _ => b) k) end.
  apply wp_bind. eapply wp_mono; [apply wp_and; [by apply (keeps_unlink_rest (Y := plus Y t) t tr3 X)|apply calm_unlink_rest]|].
  intros _ w4 [[Hok4 E4] C4]. apply wp_bind, wp_modify, wp_ret. destruct Htr3 as [Hty Hmsc].
  destruct (calm_trans _ _ _ C4 tr3 Ht3) as (tr4 & Ht4 & Hty4 & Hmsc4 & _).
  split; [done|]. rewrite <- Hty, <- Hmsc, <- Hty4, <- Hmsc4.
  split; [by apply finish_free_ok; [..|by eapply calm_inactive]|].
  split; [by trans (begin_free t tr w); [|trans w3; [|trans w4; [|apply delete_trans_evolves]]]|].
  eapply calm_freed; [done..|]. by trans w3.
Qed.
