(* ===== verification/CallSafe.v ===== *)
(** * Calls: the invariant is kept

    Every function of call control that can reach the state machine of a
    connection keeps [calls_ok], given what the nested events need: [UNUSED]
    needs 2 levels, the end of a call leg 3, an RTP address 4. *)

From S2P Require Import Prelude VlrTypes Codecs Csd Sdp Mncc CallTypes CallBase CallLeg CallAssign CallCc CallSys CallInv.

Definition nobody : nat -> Prop := fun _ => False.

Lemma wp_keeps {A} (m : M A) X Y w :
  keeps Y anything m -> calls_ok X Y no_debt w ->
  wp tolerated m (fun _ w' => calls_ok X Y no_debt w' /\ evolves w w') w.
Proof. intros K Hok. by apply K. Qed.

(** ** Uses of connections *)

Definition add_use (c : nat) (tok : string) (n : Z) (a : msc_a) (w : cc_world) : cc_world :=
  w <| w_conns ::= insert c (a <| a_uses ::= use_add tok n |>) |>.

#[export] Instance trans_usage_token_inj : Inj (=) (=) trans_usage_token.
Proof. intros [] []; done. Qed.
Lemma func_not_trans ty : trans_usage_token ty ∉ func_tokens.
Proof. destruct ty; vm_compute; intros H; repeat (inversion H as [|? ? ? H']; clear H; rename H' into H; subst). Qed.

Lemma debt_ext X Y D D' w : (forall c ty, D c ty = D' c ty) -> calls_ok X Y D w -> calls_ok X Y D' w.
Proof. intros E [O1 O2 O3 O4 O5 O6 O7 O8 O9 O10 O11 O12]. split; try done. intros. rewrite <- E. by apply O9. Qed.

Lemma attached_conn X Y D w t tr c a :
  calls_ok X Y D w -> w_trans w !! t = Some tr -> t_msc_a tr = Some c -> w_conns w !! c = Some a ->
  X c \/ closing (a_state a) = false.
Proof. intros Hok Ht Hc Ha. destruct (ok_attached _ _ _ _ Hok t tr c Ht Hc) as (a' & Ha' & ?). naive_solver. Qed.

Lemma add_use_ok X Y D D' w c tok n a :
  calls_ok X Y D w -> w_conns w !! c = Some a -> 0 <= use_by (a_uses a) tok + n ->
  (forall ty, D' c ty = D c ty + (if decide (tok = trans_usage_token ty) then n else 0)) ->
  (forall ty c', c' <> c -> D' c' ty = D c' ty) ->
  calls_ok X Y D' (add_use c tok n a w).
Proof.
  intros Hok Ha Hn HD HD'.
  apply (mod_conn_ok X Y D X D' w c (fun a => a <| a_uses ::= use_add tok n |>) a); try done.
  - apply uses_pos_add; [by eapply ok_uses|done].
  - intros ty. change (use_by (use_add tok n (a_uses a)) (trans_usage_token ty)
                       = use_by (a_uses a) (trans_usage_token ty) + (D' c ty - D c ty)).
    rewrite use_by_add, HD. lia.
  - intros (t & tr & Ht & Hc). by apply (attached_conn X Y D w t tr c a).
  - intros t Hact. by apply (ok_active _ _ _ _ Hok c a).
  - by left.
Qed.
Lemma add_use_other X Y D w c tok n a :
  calls_ok X Y D w -> w_conns w !! c = Some a -> 0 <= use_by (a_uses a) tok + n ->
  (forall ty, tok <> trans_usage_token ty) -> calls_ok X Y D (add_use c tok n a w).
Proof.
  intros Hok Ha Hn Ht. apply (add_use_ok X Y D D); try done. intros ty. rewrite decide_False by done. lia.
Qed.
Lemma add_use_trans X Y ty w c n n' a :
  calls_ok X Y (debt (Some c) ty n) w -> w_conns w !! c = Some a ->
  0 <= use_by (a_uses a) (trans_usage_token ty) + n' -> n + n' = 0 ->
  calls_ok X Y no_debt (add_use c (trans_usage_token ty) n' a w).
Proof.
  intros Hok Ha Hn Ht. apply (add_use_ok X Y (debt (Some c) ty n)); try done; unfold debt, no_debt.
  - intros ty'. destruct (decide (ty = ty')) as [->|].
    + rewrite !decide_True by done. lia.
    + rewrite !decide_False; [lia| |]; [by intros ?%(inj trans_usage_token)|naive_solver].
  - intros ty' c' Hc. rewrite decide_False; [done|]. naive_solver.
Qed.
Lemma add_use_holds w c tok n a :
  w_conns w !! c = Some a -> tok ∉ func_tokens -> evolves w (add_use c tok n a w).
Proof.
  intros Ha Ht. apply (mod_conn_evolves w c (fun a => a <| a_uses ::= use_add tok n |>) a); [done|].
  intros tok' Ht'. change (use_by (use_add tok n (a_uses a)) tok' = use_by (a_uses a) tok').
  rewrite use_by_add. case_decide; [by subst|lia].
Qed.

(** some function holds the connection *)
Definition held (c : nat) (w : cc_world) : Prop :=
  exists a tok, w_conns w !! c = Some a /\ tok ∈ func_tokens /\ 0 < use_by (a_uses a) tok.
Lemma held_kept c w w' : held c w -> holds_kept w w' -> held c w'.
Proof.
  intros (a & tok & Ha & Ht & Hu) H. destruct (H c a Ha) as (a' & Ha' & E). exists a', tok. rewrite E; auto.
Qed.
Lemma held_total c w a : held c w -> w_conns w !! c = Some a -> uses_pos (a_uses a) -> 0 < use_total (a_uses a).
Proof.
  intros (a' & tok & Ha' & _ & Hu) Ha Hp. rewrite Ha in Ha'. injection Ha' as <-.
  pose proof (use_total_ge (a_uses a) tok Hp). lia.
Qed.

Section use.
Variable dispatch : nat -> msc_a_event -> M Z.

Lemma wp_use c tok n (Q : unit -> cc_world -> Prop) w a :
  w_conns w !! c = Some a -> 0 <= use_by (a_uses a) tok + n ->
  (use_total (use_add tok n (a_uses a)) = 0 -> wp tolerated (dispatch c MSC_A_EV_UNUSED) (fun _ => Q tt) (add_use c tok n a w)) ->
  (use_total (use_add tok n (a_uses a)) <> 0 -> Q tt (add_use c tok n a w)) ->
  wp tolerated (msc_a_use dispatch c tok n) Q w.
Proof.
  intros Ha Hn Hz Hnz. unfold msc_a_use. apply wp_bind, wp_mod_conn; [done|]. intros a' Ha'. rewrite Ha in Ha'.
  injection Ha' as <-. change (w <| w_conns ::= _ |>) with (add_use c tok n a w).
  apply wp_bind, wp_get_conn; [done|]. intros a1 Ha1.
  assert (a1 = a <| a_uses ::= use_add tok n |>) as ->.
  { unfold add_use in Ha1. cbn in Ha1. rewrite lookup_insert_eq in Ha1. congruence. }
  change (a_uses (a <| a_uses ::= use_add tok n |>)) with (use_add tok n (a_uses a)).
  destruct (Z.ltb_spec (use_by (use_add tok n (a_uses a)) tok) 0) as [Hlt|_].
  { rewrite use_by_add, decide_True in Hlt by done. lia. }
  unfold when. destruct (Z.eqb_spec (use_total (use_add tok n (a_uses a))) 0); [|by apply wp_ret, Hnz].
  apply wp_bind. eapply wp_mono; [by apply Hz|]. done.
Qed.

(** taking a use never makes a connection unused *)
Lemma wp_get_pos c tok (Q : unit -> cc_world -> Prop) w a :
  w_conns w !! c = Some a -> uses_pos (a_uses a) -> Q tt (add_use c tok 1 a w) ->
  wp tolerated (msc_a_get dispatch c tok) Q w.
Proof.
  intros Ha Hp HQ. apply wp_use with a; [done|specialize (Hp tok); lia| |done]. intros Hz. exfalso.
  assert (Hp' : uses_pos (use_add tok 1 (a_uses a))) by (apply uses_pos_add; [done|specialize (Hp tok); lia]).
  pose proof (use_total_ge _ tok Hp') as Hge. rewrite use_by_add, decide_True in Hge by done. specialize (Hp tok). lia.
Qed.
Lemma wp_get c tok (Q : unit -> cc_world -> Prop) X Y D w a :
  calls_ok X Y D w -> w_conns w !! c = Some a -> Q tt (add_use c tok 1 a w) -> wp tolerated (msc_a_get dispatch c tok) Q w.
Proof. intros Hok Ha. apply wp_get_pos; [done|]. by eapply ok_uses. Qed.

(** nor does giving one back while another is held *)
Lemma wp_use_held c tok n (Q : unit -> cc_world -> Prop) X Y D w a :
  calls_ok X Y D w -> w_conns w !! c = Some a -> 0 <= use_by (a_uses a) tok + n ->
  tok ∉ func_tokens -> held c w -> Q tt (add_use c tok n a w) -> wp tolerated (msc_a_use dispatch c tok n) Q w.
Proof.
  intros Hok Ha Hn Ht Hh HQ. apply wp_use with a; [done|done| |done]. intros Hz. exfalso.
  pose proof (ok_uses _ _ _ _ Hok c a Ha) as Hp.
  pose proof (held_kept _ _ _ Hh (ev_conns _ _ (add_use_holds w c tok n a Ha Ht))) as Hh'.
  pose proof (held_total c (add_use c tok n a w) (a <| a_uses ::= use_add tok n |>) Hh') as Hpos.
  specialize (Hpos (lookup_insert_eq _ _ _)).
  change (a_uses (a <| a_uses ::= use_add tok n |>)) with (use_add tok n (a_uses a)) in Hpos.
  specialize (Hpos (uses_pos_add _ _ _ Hp Hn)). lia.
Qed.
End use.

(** ** Freeing transactions *)

(** call legs, and the states of connections, stay *)
Definition steady (w w' : cc_world) : Prop :=
  w_legs w' = w_legs w
  /\ forall c a, w_conns w !! c = Some a ->
       exists a', w_conns w' !! c = Some a' /\ a_state a' = a_state a /\ a_call_leg a' = a_call_leg a
                  /\ a_vsub a' = a_vsub a /\ a_ran a' = a_ran a.
#[export] Instance steady_preorder : PreOrder steady.
Proof.
  split; [intros w; split; [done|]; intros c a Ha; by exists a|].
  intros w1 w2 w3 [L1 H1] [L2 H2]. split; [congruence|]. intros c a (a2 & Ha2 & ?)%H1.
  apply H2 in Ha2 as (a3 & Ha3 & ?). exists a3. split; [done|]. intuition congruence.
Qed.
Lemma freed_steady t w w' : freed t w w' -> steady w w'.
Proof.
  intros [_ _ _ HL HC]. split; [done|]. intros c a (a' & Ha' & H)%HC. exists a'. unfold conn_calm in H. intuition.
Qed.
Lemma add_use_steady c tok n a w : w_conns w !! c = Some a -> steady w (add_use c tok n a w).
Proof.
  intros Ha. split; [done|]. intros c' a' Ha'. unfold add_use. cbn. destruct (decide (c = c')) as [->|].
  - rewrite lookup_insert_eq. rewrite Ha in Ha'. injection Ha' as <-. eexists. split; [done|]. done.
  - exists a'. by rewrite lookup_insert_ne.
Qed.

(** after trans_free_unlink, the use of the connection can be given back *)
Lemma debt_payable X Y w c ty a :
  calls_ok X Y (debt (Some c) ty 1) w -> w_conns w !! c = Some a -> 0 <= use_by (a_uses a) (trans_usage_token ty) + -1.
Proof.
  intros Hok Ha. rewrite (ok_balance _ _ _ _ Hok c a ty Ha). unfold debt. rewrite decide_True by done.
  assert (0 <= trans_count ty c w); [|lia]. apply msum_nonneg. intros k x _. unfold on_conn_of. case_decide; lia.
Qed.
Lemma no_conn_debt X Y ty n w : calls_ok X Y (debt None ty n) w -> calls_ok X Y no_debt w.
Proof. apply debt_ext. intros c ty'. unfold debt. rewrite decide_False; [done|]. naive_solver. Qed.
Lemma freed_conn X Y w w1 t tr c :
  calls_ok X Y no_debt w -> w_trans w !! t = Some tr -> t_msc_a tr = Some c -> evolves w w1 -> is_Some (w_conns w1 !! c).
Proof.
  intros Hok Ht Hc E. destruct (ok_attached _ _ _ _ Hok t tr c Ht Hc) as (a & Ha & _).
  destruct (ev_conns _ _ E c a Ha) as (a' & Ha' & _). eauto.
Qed.

Section free.
Variable dispatch : nat -> msc_a_event -> M Z.

(** a transaction of a connection that is held *)
Lemma trans_free_held X Y t w tr c :
  calls_ok X Y no_debt w -> w_trans w !! t = Some tr -> t_freeing tr = false -> t_msc_a tr = Some c -> held c w ->
  wp tolerated (trans_free dispatch t)
    (fun _ w' => calls_ok X Y no_debt w' /\ evolves w w' /\ steady w w'
                 /\ (length (w_trans_list w') < length (w_trans_list w))%nat) w.
Proof.
  intros Hok Ht Hf Hc Hh. unfold trans_free. apply wp_bind, wp_get_trans; [done|]. intros tr' Ht'.
  rewrite Ht in Ht'. injection Ht' as <-. rewrite Hf. apply wp_bind. eapply wp_mono; [by apply unlink_spec|].
  intros oc w1 (-> & Hok1 & E1 & F1). rewrite Hc in *.
  destruct (freed_conn _ _ _ _ _ _ _ Hok Ht Hc E1) as [a Ha].
  pose proof (debt_payable _ _ _ _ _ _ Hok1 Ha) as Hpay.
  apply (wp_use_held dispatch c _ (-1) _ X Y _ w1 a Hok1 Ha); [done|apply func_not_trans| |].
  { eapply held_kept; [done|apply E1]. }
  split_and!; [by apply (add_use_trans X Y _ w1 c 1)| | |exact (freed_list t w w1 F1)].
  - trans w1; [done|]. by apply add_use_holds; [|apply func_not_trans].
  - trans w1; [exact (freed_steady t w w1 F1)|by apply add_use_steady].
Qed.

(** in general it can make its connection unused *)
Hypothesis unused : forall c, keeps nobody anything (dispatch c MSC_A_EV_UNUSED).

Lemma trans_free_shrinks X t w tr :
  calls_ok X nobody no_debt w -> w_trans w !! t = Some tr ->
  wp tolerated (trans_free dispatch t)
    (fun _ w' => calls_ok X nobody no_debt w' /\ evolves w w' /\ (length (w_trans_list w') < length (w_trans_list w))%nat) w.
Proof using unused.
  intros Hok Ht. unfold trans_free. apply wp_bind, wp_get_trans; [done|]. intros tr' Ht'.
  rewrite Ht in Ht'. injection Ht' as <-.
  assert (Hf : t_freeing tr = false).
  { apply not_true_is_false. intros Hf. by apply (ok_freeing _ _ _ _ Hok t tr Ht) in Hf. }
  rewrite Hf. apply wp_bind. eapply wp_mono; [by apply unlink_spec|].
  intros oc w1 (-> & Hok1 & E1 & F1). pose proof (freed_list t w w1 F1) as Hlen.
  destruct (t_msc_a tr) as [c|] eqn:Hc; [|apply wp_ret; split; [by eapply no_conn_debt|done]].
  destruct (freed_conn _ _ _ _ _ _ _ Hok Ht Hc E1) as [a Ha].
  pose proof (debt_payable _ _ _ _ _ _ Hok1 Ha) as Hpay.
  pose proof (add_use_trans X nobody _ w1 c 1 (-1) a Hok1 Ha Hpay eq_refl) as Hok2.
  pose proof (add_use_holds w1 c _ (-1) a Ha (func_not_trans (t_type tr))) as E2.
  apply (wp_use dispatch c _ (-1) _ w1 a Ha); [done| |]; intros _.
  - eapply wp_mono; [by apply (unused c X)|]. intros _ w3 [Hok3 E3]. split; [done|].
    split; [trans w1; [done|by etrans]|]. pose proof (ev_list _ _ E3 : (length (w_trans_list w3) <= length (w_trans_list w1))%nat).
    lia.
  - split; [done|]. split; [by trans w1|done].
Qed.
Lemma keeps_trans_free t : keeps nobody anything (trans_free dispatch t).
Proof using unused.
  intros X w Hok _. destruct (w_trans w !! t) as [tr|] eqn:Ht.
  - eapply wp_mono; [by eapply trans_free_shrinks|]. naive_solver.
  - unfold trans_free, wp, bind, get_trans. by rewrite Ht.
Qed.
End free.

(** ** Holding a connection *)

Lemma func_token_other tok : tok ∈ func_tokens -> forall ty, tok <> trans_usage_token ty.
Proof. intros H ty ->. by apply func_not_trans in H. Qed.
Lemma hold_held c tok a w X Y D :
  calls_ok X Y D w -> w_conns w !! c = Some a -> tok ∈ func_tokens -> held c (add_use c tok 1 a w).
Proof.
  intros Hok Ha Ht. exists (a <| a_uses ::= use_add tok 1 |>), tok. split; [apply lookup_insert_eq|]. split; [done|].
  change (0 < use_by (use_add tok 1 (a_uses a)) tok). rewrite use_by_add, decide_True by done.
  pose proof (ok_uses _ _ _ _ Hok c a Ha tok). lia.
Qed.
Lemma hold_uses c tok a w w2 :
  w_conns w !! c = Some a -> tok ∈ func_tokens -> holds_kept (add_use c tok 1 a w) w2 ->
  exists a2, w_conns w2 !! c = Some a2 /\ use_by (a_uses a2) tok = use_by (a_uses a) tok + 1.
Proof.
  intros Ha Ht H. destruct (H c (a <| a_uses ::= use_add tok 1 |>) (lookup_insert_eq _ _ _)) as (a2 & Ha2 & E).
  exists a2. split; [done|]. rewrite (E tok Ht). etransitivity; [apply use_by_add|]. by rewrite decide_True.
Qed.
Lemma hold_holds c tok a a2 w w2 :
  w_conns w !! c = Some a -> holds_kept (add_use c tok 1 a w) w2 -> w_conns w2 !! c = Some a2 ->
  holds_kept w (add_use c tok (-1) a2 w2).
Proof.
  intros Ha H Ha2 c' a' Ha'. destruct (decide (c' = c)) as [->|Hne].
  - rewrite Ha in Ha'. injection Ha' as <-. exists (a2 <| a_uses ::= use_add tok (-1) |>).
    split; [apply lookup_insert_eq|]. intros tok' Ht'.
    destruct (H c (a <| a_uses ::= use_add tok 1 |>) (lookup_insert_eq _ _ _)) as (a2' & Ha2' & E).
    rewrite Ha2 in Ha2'. injection Ha2' as <-. specialize (E tok' Ht').
    change (use_by (use_add tok (-1) (a_uses a2)) tok' = use_by (a_uses a) tok').
    change (use_by (a_uses a2) tok' = use_by (use_add tok 1 (a_uses a)) tok') in E.
    rewrite use_by_add, E, use_by_add. case_decide; lia.
  - destruct (H c' a') as (a'' & Ha'' & E).
    { unfold add_use. cbn. by rewrite lookup_insert_ne. }
    exists a''. split; [|done]. unfold add_use. cbn. by rewrite lookup_insert_ne.
Qed.
Lemma hold_evolves c tok a a2 w w2 :
  w_conns w !! c = Some a -> evolves (add_use c tok 1 a w) w2 -> w_conns w2 !! c = Some a2 ->
  evolves w (add_use c tok (-1) a2 w2).
Proof. intros Ha [E1 E2 E3 E4 E5] Ha2. split; [exact E1|exact E2|exact E3| |exact E5]. by eapply hold_holds. Qed.

(** what is left of the hold when it is given back, if that cannot matter *)
Section hold.
Variable dispatch : nat -> msc_a_event -> M Z.

Lemma wp_hold_put c tok a w w2 X Y D (Q : unit -> cc_world -> Prop) :
  w_conns w !! c = Some a -> tok ∈ func_tokens -> holds_kept (add_use c tok 1 a w) w2 ->
  calls_ok X Y D w -> calls_ok X Y D w2 ->
  (forall a2, w_conns w2 !! c = Some a2 -> calls_ok X Y D (add_use c tok (-1) a2 w2) ->
     (wp tolerated (dispatch c MSC_A_EV_UNUSED) (fun _ => Q tt) (add_use c tok (-1) a2 w2)) /\ Q tt (add_use c tok (-1) a2 w2)) ->
  wp tolerated (msc_a_put dispatch c tok) Q w2.
Proof.
  intros Ha Ht H Hok Hok2 HQ. destruct (hold_uses _ _ _ _ _ Ha Ht H) as (a2 & Ha2 & Hu).
  pose proof (ok_uses _ _ _ _ Hok c a Ha tok) as Hp.
  assert (Hn : 0 <= use_by (a_uses a2) tok + -1) by lia.
  pose proof (add_use_other X Y D w2 c tok (-1) a2 Hok2 Ha2 Hn (func_token_other tok Ht)) as Hok3.
  destruct (HQ a2 Ha2 Hok3) as [H1 H2]. by apply (wp_use dispatch c tok (-1) _ w2 a2 Ha2 Hn).
Qed.
End hold.

(** ** Closing a connection *)

Lemma trans_find_Some p w t :
  trans_find p w = Some t -> t ∈ w_trans_list w /\ exists tr, w_trans w !! t = Some tr /\ p t tr = true.
Proof.
  intros [Hin Hp]%find_some. split; [by apply list_elem_of_In|]. destruct (w_trans w !! t) as [tr|]; [|done]. eauto.
Qed.
Lemma trans_find_None p w t tr : trans_find p w = None -> t ∈ w_trans_list w -> w_trans w !! t = Some tr -> p t tr = false.
Proof.
  intros Hn Hin Ht. pose proof (find_none _ _ Hn t ltac:(by apply list_elem_of_In)) as H.
  change (match w_trans w !! t with Some tr => p t tr | None => false end = false) in H. by rewrite Ht in H.
Qed.

Definition no_trans (c : nat) (w : cc_world) : Prop := forall t tr, w_trans w !! t = Some tr -> t_msc_a tr <> Some c.

Lemma not_freeing X w t tr : calls_ok X nobody no_debt w -> w_trans w !! t = Some tr -> t_freeing tr = false.
Proof. intros Hok Ht. apply not_true_is_false. intros Hf. by apply (ok_freeing _ _ _ _ Hok t tr Ht) in Hf. Qed.
Lemma listed X w t tr : calls_ok X nobody no_debt w -> w_trans w !! t = Some tr -> t ∈ w_trans_list w.
Proof. intros Hok Ht. apply (ok_listed _ _ _ _ Hok). split; [eauto|intros []]. Qed.

Section close.
Variable dispatch : nat -> msc_a_event -> M Z.

Lemma free_all_held c n : forall X w,
  calls_ok X nobody no_debt w -> held c w -> (length (w_trans_list w) <= n)%nat ->
  wp tolerated (free_all dispatch (trans_has_conn c) n)
    (fun _ w' => calls_ok X nobody no_debt w' /\ evolves w w' /\ steady w w' /\ no_trans c w') w.
Proof.
  induction n as [|n IH]; intros X w Hok Hh Hlen; cbn [free_all];
    apply wp_bind; change (wp tolerated (gets ?f) ?Q w) with (Q (f w) w); cbv beta;
    destruct (trans_has_conn c w) as [t|] eqn:Hfind.
  1,3: apply trans_find_Some in Hfind as [Hin (tr & Ht & Hc)].
  - apply list_elem_of_In in Hin. destruct (w_trans_list w); [done|cbn in Hlen; lia].
  - apply bool_decide_eq_true in Hc. apply wp_bind. eapply wp_mono; [eapply trans_free_held; eauto using not_freeing|].
    intros _ w1 (Hok1 & E1 & S1 & L1). eapply wp_mono; [apply IH; [done| |lia]|].
    { eapply held_kept; [done|apply E1]. }
    intros _ w2 (Hok2 & E2 & S2 & N2). split_and!; [done|by trans w1|by trans w1|done].
  - apply wp_ret. split_and!; [done..|]. intros t tr Ht Hc.
    pose proof (trans_find_None _ _ t tr Hfind (listed X w t tr Hok Ht) Ht) as Hn.
    apply bool_decide_eq_false in Hn. done.
  - apply wp_ret. split_and!; [done..|]. intros t tr Ht Hc.
    pose proof (trans_find_None _ _ t tr Hfind (listed X w t tr Hok Ht) Ht) as Hn.
    apply bool_decide_eq_false in Hn. done.
Qed.

(** states in which nothing happens when the connection is unused *)
Definition quiet_state (s : msc_a_state) : Prop := s = MSC_A_ST_RELEASING \/ s = MSC_A_TERMINATED.
Hypothesis quiet_unused : forall c w a (Q : Z -> cc_world -> Prop),
  w_conns w !! c = Some a -> quiet_state (a_state a) -> (forall z, Q z w) -> wp tolerated (dispatch c MSC_A_EV_UNUSED) Q w.

Lemma trans_conn_closed_spec c X w a :
  calls_ok X nobody no_debt w -> w_conns w !! c = Some a -> quiet_state (a_state a) ->
  wp tolerated (trans_conn_closed dispatch c)
    (fun _ w' => calls_ok X nobody no_debt w' /\ evolves w w' /\ steady w w' /\ no_trans c w') w.
Proof using quiet_unused.
  intros Hok Ha Hq. unfold trans_conn_closed. apply wp_bind.
  assert (Ht : "trans_conn_closed"%string ∈ func_tokens) by (by left).
  apply (wp_get dispatch c _ _ X nobody no_debt w a Hok Ha). set (w1 := add_use c _ 1 a w).
  assert (Hok1 : calls_ok X nobody no_debt w1).
  { apply add_use_other; [done..| |by apply func_token_other]. pose proof (ok_uses _ _ _ _ Hok c a Ha "trans_conn_closed"). lia. }
  apply wp_bind. change (wp tolerated (gets ?f) ?Q w1) with (Q (f w1) w1). cbv beta. apply wp_bind.
  eapply wp_mono; [apply (free_all_held c _ X w1 Hok1); [by apply (hold_held c _ a w X nobody no_debt)|done]|].
  intros _ w2 (Hok2 & E2 & S2 & N2).
  apply (wp_hold_put dispatch c _ a w w2 X nobody no_debt); [done|done|apply E2|done|done|].
  intros a2 Ha2 Hok3.
  assert (Hst : steady w (add_use c "trans_conn_closed" (-1) a2 w2)).
  { trans w1; [by apply add_use_steady|]. trans w2; [done|by apply add_use_steady]. }
  assert (HQ : calls_ok X nobody no_debt (add_use c "trans_conn_closed" (-1) a2 w2)
               /\ evolves w (add_use c "trans_conn_closed" (-1) a2 w2)
               /\ steady w (add_use c "trans_conn_closed" (-1) a2 w2) /\ no_trans c (add_use c "trans_conn_closed" (-1) a2 w2)).
  { split_and!; [done|by eapply hold_evolves|done|exact N2]. }
  split; [|done]. destruct (proj2 Hst c a Ha) as (a3 & Ha3 & Hs3 & _).
  eapply quiet_unused; [done|by rewrite Hs3|done].
Qed.
End close.

(** ** Releasing a connection *)

Lemma steady_conns w w' : w_conns w' = w_conns w -> w_legs w' = w_legs w -> steady w w'.
Proof. intros E1 E2. split; [done|]. intros c a Ha. exists a. by rewrite E1. Qed.
Lemma mod_conn_steady c f w a :
  w_conns w !! c = Some a -> a_state (f a) = a_state a -> a_call_leg (f a) = a_call_leg a ->
  a_vsub (f a) = a_vsub a -> a_ran (f a) = a_ran a -> steady w (w <| w_conns ::= insert c (f a) |>).
Proof.
  intros Ha F1 F2 F3 F4. split; [done|]. intros c' a' Ha'. cbn. destruct (decide (c = c')) as [->|].
  - rewrite Ha in Ha'. injection Ha' as <-. exists (f a). by rewrite lookup_insert_eq.
  - exists a'. by rewrite lookup_insert_ne.
Qed.
#[export] Hint Extern 1 (acts steady (emit _)) => (apply acts_emit; intros; by apply steady_conns) : acts.
#[export] Hint Extern 1 (acts steady (mod_conn ?c ?f)) =>
  (apply acts_mod_conn; intros; by apply (mod_conn_steady c f)) : acts.

(** the states of connections, and what they belong to, stay *)
Definition same_state (w w' : cc_world) : Prop :=
  forall c a, w_conns w !! c = Some a ->
    exists a', w_conns w' !! c = Some a' /\ a_state a' = a_state a /\ a_vsub a' = a_vsub a /\ a_ran a' = a_ran a.
#[export] Instance same_state_preorder : PreOrder same_state.
Proof.
  split; [intros w c a Ha; by exists a|]. intros w1 w2 w3 H1 H2 c a (a2 & Ha2 & ?)%H1.
  apply H2 in Ha2 as (a3 & Ha3 & ?). exists a3. split; [done|]. intuition congruence.
Qed.
Lemma steady_same_state w w' : steady w w' -> same_state w w'.
Proof. intros [_ H] c a (a' & Ha' & ?)%H. exists a'. intuition. Qed.
Lemma same_state_conns w w' : w_conns w' = w_conns w -> same_state w w'.
Proof. intros E c a Ha. exists a. by rewrite E. Qed.
Lemma mod_conn_same_state c f w a :
  w_conns w !! c = Some a -> a_state (f a) = a_state a -> a_vsub (f a) = a_vsub a -> a_ran (f a) = a_ran a ->
  same_state w (w <| w_conns ::= insert c (f a) |>).
Proof.
  intros Ha F1 F2 F3 c' a' Ha'. cbn. destruct (decide (c = c')) as [->|].
  - rewrite Ha in Ha'. injection Ha' as <-. exists (f a). by rewrite lookup_insert_eq.
  - exists a'. by rewrite lookup_insert_ne.
Qed.
#[export] Hint Extern 1 (acts same_state (mod_leg _ _)) =>
  (apply acts_mod_leg; intros; by apply same_state_conns) : acts.
#[export] Hint Extern 1 (acts same_state (modify _)) => (apply acts_modify; intros; by apply same_state_conns) : acts.
#[export] Hint Extern 1 (acts same_state (emit _)) => (apply acts_emit; intros; by apply same_state_conns) : acts.

Lemma closing_mono X c Y D w : calls_ok X Y D w -> calls_ok (plus X c) Y D w.
Proof.
  intros [O1 O2 O3 O4 O5 O6 O7 O8 O9 O10 O11 O12]. split; try done.
  intros t tr c' Ht Hc. destruct (O6 t tr c' Ht Hc) as (a & Ha & Hor). exists a. unfold plus. naive_solver.
Qed.
Lemma closing_done X c Y D w : calls_ok (plus X c) Y D w -> no_trans c w -> calls_ok X Y D w.
Proof.
  intros [O1 O2 O3 O4 O5 O6 O7 O8 O9 O10 O11 O12] Hno. split; try done.
  intros t tr c' Ht Hc. destruct (O6 t tr c' Ht Hc) as (a & Ha & Hor). exists a. unfold plus in Hor.
  specialize (Hno t tr Ht). naive_solver.
Qed.
Definition set_state (c : nat) (s : msc_a_state) (a : msc_a) (w : cc_world) : cc_world :=
  w <| w_conns ::= insert c (a <| a_state := s |>) |>.
Lemma set_state_ok X Y D c s a w :
  calls_ok X Y D w -> w_conns w !! c = Some a -> (closing s = true -> X c \/ no_trans c w) ->
  calls_ok X Y D (set_state c s a w).
Proof.
  intros Hok Ha Hs. apply (mod_conn_ok X Y D X D w c (fun a => a <| a_state := s |>) a); try done.
  - by apply (ok_uses _ _ _ _ Hok c a).
  - intros ty. change (use_by (a_uses (a <| a_state := s |>)) (trans_usage_token ty)) with (use_by (a_uses a) (trans_usage_token ty)). lia.
  - intros (t & tr & Ht & Hc). change (X c \/ closing s = false). destruct (closing s) eqn:E; [|by right].
    destruct (Hs eq_refl) as [|Hno]; [by left|]. by apply Hno in Ht.
  - intros t Hact. by apply (ok_active _ _ _ _ Hok c a).
  - by left.
Qed.
Lemma set_state_evolves c s a w : w_conns w !! c = Some a -> evolves w (set_state c s a w).
Proof. intros Ha. by apply (mod_conn_evolves w c (fun a => a <| a_state := s |>)). Qed.
Lemma wp_set_state c s (Q : unit -> cc_world -> Prop) w a :
  w_conns w !! c = Some a -> Q tt (set_state c s a w) -> wp tolerated (msc_a_set_state c s) Q w.
Proof. intros Ha HQ. apply wp_mod_conn; [done|]. intros a' Ha'. rewrite Ha in Ha'. by injection Ha' as <-. Qed.

Lemma no_trans_count c w ty : no_trans c w -> trans_count ty c w = 0.
Proof.
  intros Hno. apply msum_zero. intros t tr Ht. unfold on_conn_of. rewrite decide_False; [done|].
  intros [_ Hc]. by eapply Hno.
Qed.
Lemma no_trans_evolves c w w' : no_trans c w -> evolves w w' -> no_trans c w'.
Proof. intros Hno E t tr' (tr & Ht & _ & -> & _)%E. by eapply Hno. Qed.

Section release.
Variable dispatch : nat -> msc_a_event -> M Z.
Hypothesis quiet_unused : forall c w a (Q : Z -> cc_world -> Prop),
  w_conns w !! c = Some a -> quiet_state (a_state a) -> (forall z, Q z w) -> wp tolerated (dispatch c MSC_A_EV_UNUSED) Q w.
Hypothesis quiet_term : forall c w a (Q : Z -> cc_world -> Prop),
  w_conns w !! c = Some a -> a_state a = MSC_A_ST_RELEASING ->
  (forall z, Q z (w <| w_conns ::= insert c (a <| a_call_leg := None |>) |>)) ->
  wp tolerated (dispatch c MSC_EV_CALL_LEG_TERM) Q w.

(** a use is given back while the connection is held or quiet *)
Lemma wp_use_calm c tok n (Q : unit -> cc_world -> Prop) X Y D w a :
  calls_ok X Y D w -> w_conns w !! c = Some a -> 0 <= use_by (a_uses a) tok + n ->
  tok ∉ func_tokens -> (held c w \/ quiet_state (a_state a)) -> Q tt (add_use c tok n a w) ->
  wp tolerated (msc_a_use dispatch c tok n) Q w.
Proof using quiet_unused.
  intros Hok Ha Hn Ht [Hh|Hq] HQ; [by eapply wp_use_held|].
  apply wp_use with a; [done|done| |done]. intros _.
  by apply quiet_unused with (a <| a_uses ::= use_add tok n |>); [apply lookup_insert_eq| |].
Qed.

Lemma cancel_uses_spec c uses : forall X w a,
  calls_ok X nobody no_debt w -> no_trans c w -> w_conns w !! c = Some a -> (held c w \/ quiet_state (a_state a)) ->
  Forall (fun tok => tok ∉ func_tokens) uses ->
  wp tolerated (cancel_uses dispatch c uses)
    (fun _ w' => calls_ok X nobody no_debt w' /\ evolves w w' /\ steady w w') w.
Proof using quiet_unused.
  induction uses as [|tok uses IH]; intros X w a Hok Hno Ha Hc Hall; cbn [cancel_uses].
  { apply wp_ret. by split_and!. }
  inversion_clear Hall. apply wp_bind, wp_get_conn; [done|]. intros a' Ha'. rewrite Ha in Ha'. injection Ha' as <-.
  apply wp_bind. destruct (Z.eqb_spec (use_by (a_uses a) tok) 0) as [Hz|Hnz].
  { apply wp_ret. by apply (IH X w a). }
  unfold when. cbn [negb]. apply (wp_use_calm c tok _ _ X nobody no_debt w a Hok Ha); [lia|done|done|].
  assert (E1 : evolves w (add_use c tok (- use_by (a_uses a) tok) a w)) by (by apply add_use_holds).
  eapply wp_mono; [apply (IH X _ (a <| a_uses ::= use_add tok (- use_by (a_uses a) tok) |>))|].
  - apply add_use_other; [done|done|lia|]. intros ty ->. apply Hnz. rewrite (ok_balance _ _ _ _ Hok c a ty Ha).
    by rewrite (no_trans_count c w ty Hno).
  - by eapply no_trans_evolves.
  - apply lookup_insert_eq.
  - destruct Hc as [Hh|]; [left|by right]. eapply held_kept; [done|apply E1].
  - done.
  - intros _ w2 (Hok2 & E2 & S2). split_and!; [done|by etrans|]. etrans; [by apply add_use_steady|done].
Qed.

Lemma release_tokens : Forall (fun tok => tok ∉ func_tokens) release_uses.
Proof.
  repeat constructor; intros H; vm_compute in H;
    repeat (inversion H as [|? ? ? H']; clear H; rename H' into H; subst).
Qed.

(** *** Ending the state machine *)

Lemma msc_a_term_spec X c w a :
  calls_ok (plus X c) nobody no_debt w -> w_conns w !! c = Some a ->
  wp tolerated (msc_a_term dispatch c) (fun _ w' => calls_ok X nobody no_debt w' /\ evolves w w') w.
Proof using quiet_unused.
  intros Hok Ha. unfold msc_a_term, msc_a_fsm_cleanup. apply wp_bind, (wp_set_state _ _ _ _ a Ha).
  set (w1 := set_state c MSC_A_TERMINATED a w).
  assert (Hok1 : calls_ok (plus X c) nobody no_debt w1) by (apply set_state_ok; [done..|by left; right]).
  pose proof (set_state_evolves c MSC_A_TERMINATED a w Ha) as E1. fold w1 in E1.
  apply wp_bind. eapply wp_mono; [by eapply (trans_conn_closed_spec dispatch); [|done|apply lookup_insert_eq|right]|].
  intros _ w2 (Hok2 & E2 & _ & Hno). apply closing_done in Hok2; [|done].
  apply (wp_mono _ _ (fun _ w' => calls_ok X nobody no_debt w' /\ evolves w2 w')).
  - assert (K : keeps nobody anything (a <- get_conn c ;;
      match a_vsub a with
      | Some v => mod_vsub v (fun s => if opt_eqb (sb_conn s) (Some c) then s <| sb_conn := None |> else s)
      | None => ret tt
      end ;; mod_conn c (fun a => a <| a_assignment_pending := false |>))).
    { keep. intros s. by destruct (opt_eqb _ _). }
    by apply K.
  - intros _ w3 [? E3]. split; [done|]. trans w1; [done|]. by trans w2.
Qed.

Lemma msc_a_fsm_released_onenter_spec X c w a :
  calls_ok X nobody no_debt w -> w_conns w !! c = Some a ->
  wp tolerated (msc_a_fsm_released_onenter dispatch c) (fun _ w' => calls_ok X nobody no_debt w' /\ evolves w w') w.
Proof using quiet_unused.
  intros Hok Ha. unfold msc_a_fsm_released_onenter. apply wp_bind, wp_get_conn; [done|]. intros a' Ha'.
  unfold when. case_match; [|by apply wp_ret]. by eapply msc_a_term_spec; [apply closing_mono|].
Qed.
(** *** Releasing the call leg *)

Lemma keeps_leg_releasing Y l : keeps Y anything (call_leg_fsm_releasing_onenter l).
Proof.
  unfold call_leg_fsm_releasing_onenter, rtp_stream_release, rtp_stream_discard, call_leg_try_finish. keep.
Qed.
Lemma leg_releasing_same_state l : acts same_state (call_leg_fsm_releasing_onenter l).
Proof.
  unfold call_leg_fsm_releasing_onenter, rtp_stream_release, rtp_stream_discard, call_leg_try_finish, get_rtp. act.
Qed.
Lemma keeps_detach Y l : keeps Y anything (call_leg_detach_trans l).
Proof. unfold call_leg_detach_trans. keep. Qed.
Lemma detach_same_state l : acts same_state (call_leg_detach_trans l).
Proof. unfold call_leg_detach_trans. act. Qed.

(** a step that keeps the invariant and the states of connections *)
Lemma wp_step {A} (m : M A) X Y w :
  keeps Y anything m -> acts same_state m -> calls_ok X Y no_debt w ->
  wp tolerated m (fun _ w' => calls_ok X Y no_debt w' /\ evolves w w' /\ same_state w w') w.
Proof. intros K S Hok. eapply wp_mono; [apply wp_and; [by apply K|by apply S]|]. naive_solver. Qed.

Definition end_leg : call_leg -> call_leg := fun cl => cl <| l_parent := None |> <| l_state := CALL_LEG_ST_RELEASING |>.
Lemma leg_release_closing X c w a :
  calls_ok X nobody no_debt w -> w_conns w !! c = Some a -> a_state a = MSC_A_ST_RELEASING ->
  wp tolerated (call_leg_release dispatch (a_call_leg a))
    (fun _ w' => calls_ok X nobody no_debt w' /\ evolves w w' /\ same_state w w') w.
Proof using quiet_term.
  intros Hok Ha Hs. unfold call_leg_release. destruct (a_call_leg a) as [l|] eqn:Hl; [|by apply wp_ret; split_and!].
  apply wp_bind, wp_get_leg; [done|]. intros cl Hcl. case_match; [by apply wp_ret; split_and!|].
  destruct (ok_leg _ _ _ _ Hok c a l Ha Hl) as [_ Hpar]. specialize (Hpar cl Hcl).
  apply wp_bind. eapply wp_mono; [apply (wp_step _ X nobody w); [keep|act|done]|]. intros _ w1 (Hok1 & E1 & S1).
  apply wp_bind. eapply wp_mono; [apply (wp_step _ X nobody w1); [apply keeps_detach|apply detach_same_state|done]|].
  intros _ w2 (Hok2 & E2 & S2).
  apply wp_bind. apply (wp_mono _ _ (fun _ w' => calls_ok X nobody no_debt w' /\ evolves w2 w' /\ same_state w2 w')).
  - destruct Hpar as [->| ->]; [|by apply wp_ret; split_and!].
    destruct (S1 c a Ha) as (a1 & Ha1 & Hs1 & _). destruct (S2 c a1 Ha1) as (a2 & Ha2 & Hs2 & _).
    apply wp_bind, wp_get_conn; [done|]. intros a2' Ha2'. rewrite Ha2 in Ha2'. injection Ha2' as <-.
    rewrite bool_decide_eq_false_2 by congruence. cbn [negb when]. apply wp_bind.
    eapply quiet_term; [exact Ha2|congruence|]. intros z. apply wp_ret. split_and!.
    + by apply (tame_conn_ok _ _ _ w2 c (fun a => a <| a_call_leg := None |>)); [tame_tac|..].
    + by apply (mod_conn_evolves w2 c (fun a => a <| a_call_leg := None |>)).
    + by apply (mod_conn_same_state c (fun a => a <| a_call_leg := None |>)).
  - intros _ w3 (Hok3 & E3 & S3).
    apply wp_bind. eapply wp_mono; [apply (wp_step (mod_leg l end_leg) X nobody w3); [unfold end_leg; keep|act|done]|].
    intros _ w4 (Hok4 & E4 & S4).
    eapply wp_mono; [apply (wp_step _ X nobody w4); [apply keeps_leg_releasing|apply leg_releasing_same_state|done]|].
    intros _ w5 (Hok5 & E5 & S5).
    split_and!; [done|by trans w1; [|trans w2; [|trans w3; [|trans w4]]]|by trans w1; [|trans w2; [|trans w3; [|trans w4]]]].
Qed.

(** the parts that only send something *)
Definition leg_prep (c : nat) (a : msc_a) : M unit :=
  match a_vsub a with Some v => emit (OutConnClosed v) | None => ret tt end ;;
  mod_conn c (fun a => a <| a_assignment_pending := false |>).
Lemma leg_prep_keeps Y c a : keeps Y anything (leg_prep c a).
Proof. unfold leg_prep. keep. Qed.
Lemma leg_prep_steady c a : acts steady (leg_prep c a).
Proof. unfold leg_prep. act. Qed.

Lemma released_rest X c w a :
  calls_ok X nobody no_debt w -> no_trans c w -> w_conns w !! c = Some a ->
  wp tolerated (msc_a_set_state c MSC_A_ST_RELEASED ;; msc_a_fsm_released_onenter dispatch c)
    (fun _ w' => calls_ok X nobody no_debt w' /\ evolves w w') w.
Proof using quiet_unused.
  intros Hok Hno Ha. apply wp_bind, (wp_set_state _ _ _ _ a Ha).
  pose proof (set_state_evolves c MSC_A_ST_RELEASED a w Ha) as E1.
  eapply wp_mono; [eapply msc_a_fsm_released_onenter_spec; [apply set_state_ok; [done|exact Ha|by right]|apply lookup_insert_eq]|].
  intros _ w2 [? E2]. split; [done|]. by etrans.
Qed.
Lemma wait_not_special : MSC_A_USE_WAIT_CLEAR_COMPLETE ∉ func_tokens /\ forall ty, MSC_A_USE_WAIT_CLEAR_COMPLETE <> trans_usage_token ty.
Proof.
  split; [|by intros []]. intros H; vm_compute in H;
    repeat (inversion H as [|? ? ? H']; clear H; rename H' into H; subst).
Qed.
Lemma wait_clear_rest X c w a :
  calls_ok X nobody no_debt w -> w_conns w !! c = Some a ->
  wp tolerated (msc_a_get dispatch c MSC_A_USE_WAIT_CLEAR_COMPLETE ;; emit (OutClear c))
    (fun _ w' => calls_ok X nobody no_debt w' /\ evolves w w') w.
Proof.
  intros Hok Ha. destruct wait_not_special as [Hf Hty]. apply wp_bind, (wp_get dispatch c _ _ X nobody no_debt w a Hok Ha).
  pose proof (ok_uses _ _ _ _ Hok c a Ha MSC_A_USE_WAIT_CLEAR_COMPLETE).
  eapply wp_mono; [apply (wp_keeps _ X nobody); [keep|apply add_use_other; [done..|lia|done]]|].
  intros _ w2 [? E2]. split; [done|]. etrans; [by apply add_use_holds|done].
Qed.

Lemma releasing_onenter_spec X c w a :
  calls_ok (plus X c) nobody no_debt w -> w_conns w !! c = Some a -> a_state a = MSC_A_ST_RELEASING ->
  wp tolerated (msc_a_fsm_releasing_onenter dispatch c) (fun _ w' => calls_ok X nobody no_debt w' /\ evolves w w') w.
Proof using quiet_term quiet_unused.
  intros Hok Ha Hs. unfold msc_a_fsm_releasing_onenter. apply wp_bind, wp_get_conn; [done|]. intros a' Ha'.
  rewrite Ha in Ha'. injection Ha' as <-.
  match goal with |- wp _ (bind ?m (fun _ => bind ?b ?k)) _ _ => apply (wp_assoc _ m (fun _ => b) k) end.
  apply wp_bind. eapply wp_mono; [apply wp_and; [exact (wp_keeps (leg_prep c a) (plus X c) nobody w (leg_prep_keeps nobody c a) Hok)|exact (leg_prep_steady c a w)]|].
  intros _ w1 [[Hok1 E1] S1]. destruct (proj2 S1 c a Ha) as (a1 & Ha1 & Hs1 & Hl1 & _). rewrite Hs in Hs1.
  apply wp_bind. rewrite <- Hl1. eapply wp_mono; [by apply (leg_release_closing (plus X c) c w1 a1)|]. intros _ w2 (Hok2 & E2 & S2).
  destruct (S2 c a1 Ha1) as (a2 & Ha2 & Hs2 & _). rewrite Hs1 in Hs2.
  apply wp_bind. eapply wp_mono; [by eapply (trans_conn_closed_spec dispatch); [|done|apply Ha2|left]|].
  intros _ w3 (Hok3 & E3 & S3 & Hno). apply closing_done in Hok3; [|done].
  destruct (proj2 S3 c a2 Ha2) as (a3 & Ha3 & Hs3 & _). rewrite Hs2 in Hs3.
  apply wp_bind. eapply wp_mono; [eapply cancel_uses_spec; [done|done|exact Ha3|by right; left|apply release_tokens]|].
  intros _ w4 (Hok4 & E4 & S4). destruct (proj2 S4 c a3 Ha3) as (a4 & Ha4 & _).
  assert (E : evolves w w4) by (trans w1; [|trans w2; [|trans w3]]; done).
  assert (Hno4 : no_trans c w4) by (by eapply no_trans_evolves).
  destruct (a_ran a).
  4:{ apply wp_bind.
      assert (S : acts steady (match a_vsub a with Some v => emit (OutSgsRelease v) | None => ret tt end)) by act.
      eapply wp_mono; [apply wp_and; [apply (wp_keeps _ X nobody); [keep|done]|exact (S w4)]|].
      intros _ w5 [[Hok5 E5] S5]. destruct (proj2 S5 c a4 Ha4) as (a5 & Ha5 & _).
      eapply wp_mono; [eapply released_rest; [done|by eapply no_trans_evolves|exact Ha5]|].
      intros _ w6 [? E6]. split; [done|]. trans w4; [done|]. by trans w5. }
  all: eapply wp_mono; [by eapply wait_clear_rest|]; intros _ w5 [? E5]; split; [done|by trans w4].
Qed.

Lemma keeps_releasing_start c : keeps nobody anything (msc_a_fsm_releasing_start dispatch c).
Proof using quiet_term quiet_unused.
  intros X w Hok _. unfold msc_a_fsm_releasing_start. apply wp_bind, wp_mod_conn; [done|]. intros a Ha.
  change (w <| w_conns ::= _ |>) with (set_state c MSC_A_ST_RELEASING a w).
  pose proof (set_state_evolves c MSC_A_ST_RELEASING a w Ha) as E1.
  eapply wp_mono; [eapply (releasing_onenter_spec X)|].
  - apply set_state_ok; [by apply closing_mono|done|by left; right].
  - apply lookup_insert_eq.
  - done.
  - intros _ w2 [? E2]. split; [done|by etrans].
Qed.
Lemma keeps_msc_a_term c : keeps nobody anything (msc_a_term dispatch c).
Proof using quiet_unused.
  intros X w Hok _. destruct (w_conns w !! c) as [a|] eqn:Ha.
  - by eapply msc_a_term_spec; [apply closing_mono|].
  - unfold msc_a_term, msc_a_set_state, wp, bind, mod_conn. by rewrite Ha.
Qed.
End release.
