(* ===== verification/CallDispatch.v ===== *)
(** * Calls: the events of a connection

    The state machine of a connection keeps the invariant of calls, and four
    nested events are enough for every event in every state. *)

From S2P Require Import Prelude VlrTypes Codecs Csd Sdp Mncc CallTypes CallBase CallLeg CallAssign CallCc CallSys CallInv CallSafe.

Section dispatch.
Context {SL : SockaddrLib} {CL : CallLib} {AC : AmrCfg} {DR : DataRates}.

(** ** One level: connections that are quiet *)

Lemma dispatch_quiet_unused n c w a (Q : Z -> cc_world -> Prop) :
  w_conns w !! c = Some a -> quiet_state (a_state a) -> (forall z, Q z w) ->
  wp tolerated (msc_a_dispatch (S n) c MSC_A_EV_UNUSED) Q w.
Proof.
  intros Ha Hq HQ. cbn [msc_a_dispatch]. unfold msc_a_dispatch_body. apply wp_bind, wp_get_conn; [done|].
  intros a' Ha'. rewrite Ha in Ha'. injection Ha' as <-. destruct Hq as [-> | ->]; apply HQ.
Qed.
Lemma dispatch_quiet_term n c w a (Q : Z -> cc_world -> Prop) :
  w_conns w !! c = Some a -> a_state a = MSC_A_ST_RELEASING ->
  (forall z, Q z (w <| w_conns ::= insert c (a <| a_call_leg := None |>) |>)) ->
  wp tolerated (msc_a_dispatch (S n) c MSC_EV_CALL_LEG_TERM) Q w.
Proof.
  intros Ha Hs HQ. cbn [msc_a_dispatch]. unfold msc_a_dispatch_body. apply wp_bind, wp_get_conn; [done|].
  intros a' Ha'. rewrite Ha in Ha'. injection Ha' as <-. rewrite Hs. cbn [msc_a_permits negb msc_a_fsm_releasing].
  apply wp_bind, wp_mod_conn; [done|]. intros a' Ha'. rewrite Ha in Ha'. injection Ha' as <-. by apply wp_ret.
Qed.

(** ** Two levels: closing *)

(** the events that do not come from a call leg, or only report that it is up *)
Definition plain_event (ev : msc_a_event) : bool :=
  match ev with MSC_EV_CALL_LEG_TERM | MSC_EV_CALL_LEG_RTP_LOCAL_ADDR_AVAILABLE _ => false | _ => true end.

Lemma keeps_set_accepted c s : closing s = false -> keeps nobody anything (msc_a_set_state c s).
Proof.
  intros Hs X w Hok _. apply wp_mod_conn; [done|]. intros a Ha. split.
  - apply (set_state_ok X nobody no_debt c s a w Hok Ha). congruence.
  - by apply (set_state_evolves c s a w).
Qed.

Lemma keeps_plain n c ev : plain_event ev = true -> keeps nobody anything (msc_a_dispatch (S (S n)) c ev).
Proof.
  intros Hev. pose proof (dispatch_quiet_unused n) as U. pose proof (dispatch_quiet_term n) as T.
  pose proof (keeps_releasing_start _ U T c) as R. pose proof (keeps_msc_a_term _ U c) as E.
  pose proof (keeps_set_accepted c MSC_A_ST_COMMUNICATING eq_refl) as A.
  intros X w Hok _. cbn [msc_a_dispatch]. set (d := msc_a_dispatch (S n)) in *. change (match n with O => _ | S _ => _ end) with d.
  unfold msc_a_dispatch_body. apply wp_bind, wp_get_conn; [done|]. intros a Ha.
  destruct (msc_a_permits (a_state a) ev) eqn:Hp; cbn [negb]; [|by apply wp_ret].
  match goal with |- wp _ (bind ?m _) _ _ => enough (K : keeps nobody anything m) end.
  { apply (wp_keeps (bind _ (fun _ => ret 0)) X nobody w); [|done]. keep. }
  destruct (a_state a), ev; try discriminate; cbn; first [exact R|exact E|exact A|apply keeps_ret].
Qed.

(** ** Filters and RTP streams *)

Lemma tame_unless_freeing f : tame f -> tame (unless_freeing f).
Proof. intros [F1 F2 F5 F3 F4]. split; intros tr; unfold unless_freeing; destruct (t_freeing tr) eqn:E; auto; by rewrite F3. Qed.
Lemma tame_filter_run : tame filter_run.
Proof. split; intros tr; unfold filter_run; repeat case_match; done. Qed.
Lemma keeps_filter_run Y t : keeps Y anything (trans_cc_filter_run t).
Proof. unfold trans_cc_filter_run. keep. apply tame_filter_run. Qed.
Lemma keeps_filter_init Y t : keeps Y anything (trans_cc_filter_init t).
Proof. unfold trans_cc_filter_init. keep. apply tame_unless_freeing. tame_tac. Qed.
Lemma keeps_filter_set_ran Y t r : keeps Y anything (trans_cc_filter_set_ran t r).
Proof. unfold trans_cc_filter_set_ran. keep. apply tame_unless_freeing. tame_tac. Qed.
Lemma keeps_filter_set_bss Y t c : keeps Y anything (trans_cc_filter_set_bss t c).
Proof. unfold trans_cc_filter_set_bss. keep. apply tame_unless_freeing. tame_tac. Qed.
Lemma keeps_filter_set_ms Y t bc : keeps Y anything (trans_cc_filter_set_ms_from_bc t bc).
Proof. unfold trans_cc_filter_set_ms_from_bc. keep; apply tame_unless_freeing; tame_tac. Qed.
Lemma keeps_set_remote_from_bc Y t bc : keeps Y anything (trans_cc_set_remote_from_bc t bc).
Proof. unfold trans_cc_set_remote_from_bc. keep; apply tame_unless_freeing; tame_tac. Qed.
Lemma keeps_do_mgcp_verb Y l d v : keeps Y anything (rtp_stream_do_mgcp_verb l d v).
Proof. unfold rtp_stream_do_mgcp_verb. keep. Qed.
#[local] Hint Resolve keeps_filter_run keeps_filter_init keeps_filter_set_ran keeps_filter_set_bss keeps_filter_set_ms
  keeps_set_remote_from_bc keeps_do_mgcp_verb : keeps.
Lemma keeps_rtp_commit Y l d : keeps Y anything (rtp_stream_commit l d).
Proof. unfold rtp_stream_commit. keep. Qed.
#[local] Hint Resolve keeps_rtp_commit : keeps.
Lemma keeps_rtp_ensure_ci Y l d : keeps Y anything (rtp_stream_ensure_ci l d).
Proof. unfold rtp_stream_ensure_ci. keep. Qed.
#[local] Hint Resolve keeps_rtp_ensure_ci : keeps.
Lemma keeps_ensure_rtp_alloc Y l d i t : keeps Y anything (call_leg_ensure_rtp_alloc l d i t).
Proof. unfold call_leg_ensure_rtp_alloc. keep. Qed.
#[local] Hint Resolve keeps_ensure_rtp_alloc : keeps.
Lemma keeps_ensure_ci Y l d i t ac r : keeps Y anything (call_leg_ensure_ci l d i t ac r).
Proof. unfold call_leg_ensure_ci. keep. Qed.
Lemma keeps_local_ip Y ol d : keeps Y anything (call_leg_local_ip ol d).
Proof. unfold call_leg_local_ip. keep. Qed.
Lemma keeps_conn_rtp Y a d : keeps Y anything (conn_rtp a d).
Proof. unfold conn_rtp. keep. Qed.
Lemma keeps_mncc_recv_rtp Y ot r cmd ad pt pm sdp : keeps Y anything (mncc_recv_rtp ot r cmd ad pt pm sdp).
Proof. unfold mncc_recv_rtp. keep. Qed.
Lemma keeps_in_release Y c : keeps Y anything (msc_a_in_release c).
Proof. unfold msc_a_in_release. keep. Qed.
#[local] Hint Resolve keeps_ensure_ci keeps_local_ip keeps_conn_rtp keeps_mncc_recv_rtp keeps_in_release : keeps.
Lemma keeps_mncc_recv_rtp_err Y ot r cmd : keeps Y anything (mncc_recv_rtp_err ot r cmd).
Proof. unfold mncc_recv_rtp_err. keep. Qed.
Lemma keeps_tch_rtp_create' Y t : keeps Y anything (gsm48_tch_rtp_create t).
Proof. unfold gsm48_tch_rtp_create. keep. Qed.
Lemma keeps_assignment_done Y t : keeps Y anything (cc_on_assignment_done t).
Proof. unfold cc_on_assignment_done. keep. all: apply keeps_tch_rtp_create'. Qed.
End dispatch.
#[export] Hint Resolve keeps_filter_run keeps_filter_init keeps_filter_set_ran keeps_filter_set_bss keeps_filter_set_ms
  keeps_set_remote_from_bc keeps_do_mgcp_verb keeps_rtp_commit keeps_rtp_ensure_ci keeps_ensure_rtp_alloc keeps_ensure_ci
  keeps_local_ip keeps_conn_rtp keeps_mncc_recv_rtp keeps_in_release keeps_mncc_recv_rtp_err keeps_tch_rtp_create'
  keeps_assignment_done : keeps.
