(* ===== verification/CallAssignSafe.v ===== *)
(** * Calls: assignments keep the invariant *)

From S2P Require Import Prelude VlrTypes Codecs Csd Sdp Mncc CallTypes CallBase CallLeg CallAssign CallCc CallSys CallInv CallSafe CallDispatch.

(** ** Sequences, reassociated *)

Lemma bind_bind {A B C} (m : M A) (f : A -> M B) (k : B -> M C) w :
  bind (bind m f) k w = bind m (fun x => bind (f x) k) w.
Proof. unfold bind. by destruct (m w). Qed.
Lemma bind_ext {A B} (m : M A) (f g : A -> M B) w : (forall a w', f a w' = g a w') -> bind m f w = bind m g w.
Proof. intros H. unfold bind. by destruct (m w). Qed.
Lemma wp_pointwise {A} F (m m' : M A) Q w : m w = m' w -> wp F m' Q w -> wp F m Q w.
Proof. unfold wp. by intros ->. Qed.
Ltac reassoc := repeat first [reflexivity | rewrite bind_bind | apply bind_ext; intros ? ?].

(** ** A new call leg *)

Definition fresh_leg (c : nat) (osmux : bool) : call_leg :=
  mk_leg CALL_LEG_ST_ESTABLISHING false (Some c) None None false osmux 0 0 None.
Definition add_leg (c : nat) (osmux : bool) (w : cc_world) : cc_world :=
  w <| w_next_leg ::= S |> <| w_legs ::= insert (w_next_leg w) (fresh_leg c osmux) |>.

Lemma add_leg_ok X Y D c osmux w : calls_ok X Y D w -> calls_ok X Y D (add_leg c osmux w).
Proof.
  intros [O1 O2 O3 O4 O5 O6 O7 O8 O9 O10 O11 O12]. split; cbn; try done.
  intros c' a l Ha Hl. destruct (O12 c' a l Ha Hl) as [Hlt Hp]. split.
  { change (l < S (w_next_leg w))%nat. lia. }
  change (forall cl, insert (w_next_leg w) (fresh_leg c osmux) (w_legs w) !! l = Some cl -> l_parent cl = Some c' \/ l_parent cl = None).
  intros cl [[El _]|[_ Hcl]]%lookup_insert_Some; [rewrite El in Hlt; lia|by apply Hp].
Qed.
Lemma set_leg_ok X Y D c osmux w a :
  calls_ok X Y D w -> w_conns w !! c = Some a ->
  calls_ok X Y D (add_leg c osmux w <| w_conns ::= insert c (a <| a_call_leg := Some (w_next_leg w) |>) |>).
Proof.
  intros Hok Ha. pose proof (add_leg_ok X Y D c osmux w Hok) as [O1 O2 O3 O4 O5 O6 O7 O8 O9 O10 O11 O12]. cbn in *.
  split; cbn; try done.
  - intros t tr c' Ht Hc. destruct (O6 t tr c' Ht Hc) as (a' & Ha' & Hs). destruct (decide (c = c')) as [<-|].
    + rewrite lookup_insert_eq. eexists. split; [done|]. change (w_conns w !! c = Some a') in Ha'.
      rewrite Ha in Ha'. by injection Ha' as <-.
    + rewrite lookup_insert_ne by done. eauto.
  - intros c' a' [[<- <-]|[_ Ha']]%lookup_insert_Some; [by apply (O8 c a)|eauto].
  - intros c' a' ty [[<- <-]|[_ Ha']]%lookup_insert_Some; [by apply (O9 c a)|by apply O9].
  - intros c' a' [[<- <-]|[_ Ha']]%lookup_insert_Some; [by apply (O10 c a)|eauto].
  - intros c' a' t [[<- <-]|[_ Ha']]%lookup_insert_Some; [by apply (O11 c a)|eauto].
  - intros c' a' l [[<- <-]|[_ Ha']]%lookup_insert_Some; [|eauto]. cbn. intros [= <-].
    change ((w_next_leg w < S (w_next_leg w))%nat /\ forall cl, insert (w_next_leg w) (fresh_leg c osmux) (w_legs w) !! w_next_leg w = Some cl ->
            l_parent cl = Some c \/ l_parent cl = None). split; [lia|].
    intros cl Hcl. rewrite lookup_insert_eq in Hcl. injection Hcl as <-. by left.
Qed.

(** the ids of legs and their streams *)
Definition same_legs (w w' : cc_world) : Prop := w_legs w' = w_legs w.
#[export] Instance same_legs_preorder : PreOrder same_legs.
Proof. split; [done|]. intros w1 w2 w3. unfold same_legs. congruence. Qed.
#[export] Hint Extern 1 (acts same_legs (mod_trans _ _)) => (by apply acts_mod_trans) : acts.

Section assign.
Context {SL : SockaddrLib} {CL : CallLib} {AC : AmrCfg} {DR : DataRates}.

Lemma filter_run_same_legs t : acts same_legs (trans_cc_filter_run t).
Proof. unfold trans_cc_filter_run, trans_is_live. act. Qed.

Lemma ensure_call_leg_spec X Y c t w a :
  calls_ok X Y no_debt w -> w_conns w !! c = Some a -> a_active_trans a = Some t ->
  wp tolerated (msc_a_ensure_call_leg c t)
    (fun ol w' => (calls_ok X Y no_debt w' /\ evolves w w')
       /\ exists l, ol = Some l /\ (a_call_leg a = None -> exists cl, w_legs w' !! l = Some cl /\ l_rtp_ran cl = None /\ l_rtp_cn cl = None)) w.
Proof.
  intros Hok Ha Hact. unfold msc_a_ensure_call_leg. apply wp_bind, wp_get_conn; [done|]. intros a' Ha'.
  rewrite Ha in Ha'. injection Ha' as <-. unfold opt_eqb. rewrite Hact. rewrite bool_decide_eq_false_2 by done.
  apply wp_bind, wp_ret, wp_bind, wp_get_conn; [done|]. intros a' Ha'. rewrite Ha in Ha'. injection Ha' as <-.
  rewrite Hact. rewrite bool_decide_eq_true_2 by done. cbn [negb].
  destruct (a_call_leg a) as [l|]; [apply wp_ret; split; [done|]; by exists l|].
  apply wp_bind. change (wp tolerated (gets ?f) ?Q w) with (Q (f w) w). cbv beta.
  apply wp_bind. unfold call_leg_alloc. apply wp_bind.
  change (wp tolerated (gets ?f) ?Q w) with (Q (f w) w). cbv beta. apply wp_bind, wp_modify, wp_ret.
  change (w <| w_next_leg ::= S |> <| w_legs ::= insert (w_next_leg w) (mk_leg _ _ _ _ _ _ ?o _ _ _) |>) with (add_leg c o w).
  apply wp_bind, wp_mod_conn; [done|]. intros a' Ha'.
  change (w_conns w !! c = Some a') in Ha'. rewrite Ha in Ha'. injection Ha' as <-. apply wp_ret. split; [split|].
  - by apply set_leg_ok.
  - split; cbn; [naive_solver|done|done| |naive_solver].
    apply (mod_conn_holds w c (fun a => a <| a_call_leg := Some (w_next_leg w) |>) a Ha). done.
  - eexists. split; [done|]. intros _. eexists. split; [apply lookup_insert_eq|done].
Qed.

Section rec.
Variable dispatch : nat -> msc_a_event -> M Z.

(** msc_a_start_assignment once there is a call leg *)
Definition assign_rtp (c t : nat) (a : msc_a) (l : nat) : M Z :=
  trans_cc_filter_run t ;;
  cn <- call_leg_local_ip (Some l) RTP_TO_CN ;;
  ran <- call_leg_local_ip (Some l) RTP_TO_RAN ;;
  tr <- get_trans t ;;
  let ac := sdp_codecs (t_local tr) in
  match cn with
  | None => call_leg_ensure_ci l RTP_TO_CN (t_call_id tr) (Some t) (Some ac) None ;; ret tt
  | Some _ => ret tt
  end ;;
  match ran, cn with
  | None, _ =>
      call_leg_ensure_ci l RTP_TO_RAN (t_call_id tr) (Some t)
        (Some (match a_force_mgw_codecs a with [] => ac | forced => forced end)) None
  | Some _, Some _ => dispatch c (MSC_EV_CALL_LEG_RTP_LOCAL_ADDR_AVAILABLE RTP_TO_RAN)
  | Some _, None => ret 0
  end.

Lemma local_ip_fresh w l cl d :
  w_legs w !! l = Some cl -> l_rtp d cl = None -> call_leg_local_ip (Some l) d w = Done None w.
Proof. intros Hl Hd. unfold call_leg_local_ip, bind, get_leg. by rewrite Hl, Hd. Qed.
Lemma assign_rtp_fresh X c t a l w cl :
  calls_ok X nobody no_debt w -> w_legs w !! l = Some cl -> l_rtp_ran cl = None -> l_rtp_cn cl = None ->
  wp tolerated (assign_rtp c t a l) (fun _ w' => calls_ok X nobody no_debt w' /\ evolves w w') w.
Proof.
  intros Hok Hl Hr Hc. unfold assign_rtp. apply wp_bind.
  eapply wp_mono; [apply wp_and; [apply (wp_keeps _ X nobody); [keep|done]|apply filter_run_same_legs]|].
  intros _ w1 [[Hok1 E1] S1]. assert (Hl1 : w_legs w1 !! l = Some cl) by (by rewrite S1).
  apply wp_bind. unfold wp at 1. rewrite (local_ip_fresh w1 l cl RTP_TO_CN Hl1 Hc).
  apply wp_bind. unfold wp at 1. rewrite (local_ip_fresh w1 l cl RTP_TO_RAN Hl1 Hr).
  match goal with |- wp _ ?m _ _ => assert (K : keeps nobody anything m) by keep end.
  eapply wp_mono; [by apply K|]. intros _ w2 [? E2]. split; [done|by trans w1].
Qed.

Lemma start_assignment_spec X c t w a tr :
  calls_ok X nobody no_debt w -> w_conns w !! c = Some a -> a_active_trans a = None ->
  w_trans w !! t = Some tr -> t_type tr = TRANS_CC -> t_msc_a tr = Some c ->
  (a_call_leg a = None \/ forall d, keeps nobody anything (dispatch c (MSC_EV_CALL_LEG_RTP_LOCAL_ADDR_AVAILABLE d))) ->
  wp tolerated (msc_a_start_assignment dispatch c t) (fun _ w' => calls_ok X nobody no_debt w' /\ evolves w w') w.
Proof.
  intros Hok Ha Hact Ht Hty Hc Hor. unfold msc_a_start_assignment. apply wp_bind, wp_get_conn; [done|].
  intros a' Ha'. rewrite Ha in Ha'. injection Ha' as <-. rewrite Hact. unfold opt_eqb at 1.
  rewrite bool_decide_eq_true_2 by done. cbn [negb].
  set (f := fun a : msc_a => a <| a_active_trans := Some t |>).
  apply wp_bind, wp_mod_conn; [done|]. intros a' Ha'. rewrite Ha in Ha'. injection Ha' as <-.
  change (fun a : msc_a => a <| a_active_trans := Some t |>) with f. set (w1 := w <| w_conns ::= insert c (f a) |>).
  assert (Hok1 : calls_ok X nobody no_debt w1).
  { apply (mod_conn_ok X nobody no_debt X no_debt w c f a Hok Ha); try done.
    - by apply (ok_uses _ _ _ _ Hok c a).
    - intros ty. change (use_by (a_uses (f a)) (trans_usage_token ty)) with (use_by (a_uses a) (trans_usage_token ty)).
      unfold no_debt. lia.
    - intros _. exact (attached_conn _ _ _ _ _ _ _ _ Hok Ht Hc Ha).
    - intros u. cbn. intros [= <-]. eauto.
    - by left. }
  assert (E1 : evolves w w1) by (by apply (mod_conn_evolves w c f a Ha)).
  apply wp_bind, wp_mod_trans; [done|]. intros tr' Ht'. change (w_trans w !! t = Some tr') in Ht'.
  rewrite Ht in Ht'. injection Ht' as <-.
  set (g := fun tr : gsm_trans => tr <| t_codecs ::= fun f => f <| cf_assignment := no_codec |> |>).
  change (fun tr : gsm_trans => tr <| t_codecs ::= _ |>) with g. set (w2 := w1 <| w_trans ::= insert t (g tr) |>).
  assert (Hok2 : calls_ok X nobody no_debt w2) by (by apply (mod_trans_ok X nobody no_debt w1 t g tr Hok1 Ht)).
  assert (E2 : evolves w1 w2) by (by apply (mod_trans_evolves w1 t g tr Ht)).
  apply wp_bind, wp_get_trans; [done|]. intros tr2 Ht2.
  assert (tr2 = g tr) as -> by (apply (inj Some); rewrite <- Ht2; apply lookup_insert_eq). unfold is_cc at 1, type_eqb. change (t_type (g tr)) with (t_type tr).
  rewrite Hty, bool_decide_eq_true_2 by done. cbn [negb].
  apply wp_bind. eapply wp_mono; [apply (ensure_call_leg_spec X nobody c t w2 (f a) Hok2); [apply lookup_insert_eq|done]|].
  intros ol w3 [[Hok3 E3] (l & -> & Hfresh)].
  apply (wp_mono _ _ (fun _ w' => calls_ok X nobody no_debt w' /\ evolves w3 w')).
  - destruct Hor as [Hn|Hd].
    + destruct (Hfresh Hn) as (cl & Hcl & Hr & Hcn). by eapply (assign_rtp_fresh X c t a l w3).
    + apply (wp_keeps (assign_rtp c t a l) X nobody w3); [|done]. specialize (Hd RTP_TO_RAN). unfold assign_rtp. keep.
  - intros _ w4 [Hok4 E4]. split; [done|]. trans w1; [done|]. trans w2; [done|]. by trans w3.
Qed.

(** the call may be assigned when there is no call leg, or any event is allowed *)
Lemma try_call_assignment_spec X t w tr c :
  calls_ok X nobody no_debt w -> w_trans w !! t = Some tr -> t_type tr = TRANS_CC -> t_msc_a tr = Some c ->
  ((forall a, w_conns w !! c = Some a -> a_call_leg a = None)
   \/ forall d, keeps nobody anything (dispatch c (MSC_EV_CALL_LEG_RTP_LOCAL_ADDR_AVAILABLE d))) ->
  wp tolerated (msc_a_try_call_assignment dispatch t) (fun _ w' => calls_ok X nobody no_debt w' /\ evolves w w') w.
Proof.
  intros Hok Ht Hty Hc Hor. unfold msc_a_try_call_assignment. apply wp_bind, wp_get_trans; [done|]. intros tr' Ht'.
  rewrite Ht in Ht'. injection Ht' as <-. rewrite Hc. apply wp_bind, wp_ret, wp_bind, wp_get_conn; [done|]. intros a Ha.
  unfold is_cc, type_eqb. rewrite Hty, bool_decide_eq_true_2 by done. cbn [negb].
  destruct (a_active_trans a) eqn:Hact; [by apply wp_ret|]. eapply start_assignment_spec; eauto. naive_solver.
Qed.

(** ** Holding a connection while something is done *)

Lemma hold_ok X Y D c tok a w :
  calls_ok X Y D w -> w_conns w !! c = Some a -> tok ∈ func_tokens -> calls_ok X Y D (add_use c tok 1 a w).
Proof.
  intros Hok Ha Ht. apply add_use_other; [done..| |by apply func_token_other].
  pose proof (ok_uses _ _ _ _ Hok c a Ha tok). lia.
Qed.

Hypothesis unused : forall c, keeps nobody anything (dispatch c MSC_A_EV_UNUSED).

Lemma wp_hold {A} c tok (m : M A) X w :
  tok ∈ func_tokens -> calls_ok X nobody no_debt w ->
  (forall a, w_conns w !! c = Some a ->
     wp tolerated m (fun _ w' => calls_ok X nobody no_debt w' /\ evolves (add_use c tok 1 a w) w') (add_use c tok 1 a w)) ->
  wp tolerated (msc_a_get dispatch c tok ;; m ;; msc_a_put dispatch c tok)
    (fun _ w' => calls_ok X nobody no_debt w' /\ evolves w w') w.
Proof using unused.
  intros Ht Hok Hm. apply wp_bind. destruct (w_conns w !! c) as [a|] eqn:Ha.
  2:{ unfold msc_a_get, msc_a_use, wp, bind, mod_conn. by rewrite Ha. }
  apply (wp_get dispatch c _ _ X nobody no_debt w a Hok Ha). apply wp_bind. eapply wp_mono; [by apply Hm|].
  intros _ w2 [Hok2 E2]. apply (wp_hold_put dispatch c _ a w w2 X nobody no_debt); [done|done|apply E2|done|done|].
  intros a2 Ha2 Hok3. assert (E3 : evolves w (add_use c tok (-1) a2 w2)) by (by eapply hold_evolves).
  split; [|done]. eapply wp_mono; [by apply (unused c X)|]. intros _ w4 [? E4]. split; [done|]. by etrans.
Qed.

(** ** The end of a call leg *)

(** what [msc_a_fsm_communicating] does while it holds the connection *)
Definition leg_ended (c : nat) : M unit :=
  a <- get_conn c ;;
  match a_active_trans a with Some t => trans_free dispatch t | None => ret tt end ;;
  released <- msc_a_in_release c ;;
  when (negb released)
    (waiting <- gets (find_waiting_call c) ;;
     match waiting with Some t => msc_a_try_call_assignment dispatch t ;; ret tt | None => ret tt end).

Lemma leg_ended_spec X c w a :
  calls_ok X nobody no_debt w -> held c w -> w_conns w !! c = Some a -> a_call_leg a = None ->
  wp tolerated (leg_ended c) (fun _ w' => calls_ok X nobody no_debt w' /\ evolves w w') w.
Proof.
  intros Hok Hh Ha Hl. unfold leg_ended. apply wp_bind, wp_get_conn; [done|]. intros a' Ha'. rewrite Ha in Ha'.
  injection Ha' as <-. apply wp_bind.
  apply (wp_mono _ _ (fun _ w' => calls_ok X nobody no_debt w' /\ evolves w w' /\ steady w w')).
  { destruct (a_active_trans a) as [t|] eqn:Hact; [|by apply wp_ret; split_and!].
    destruct (ok_active _ _ _ _ Hok c a t Ha Hact) as (tr & Ht & _ & Hc).
    eapply wp_mono; [eapply trans_free_held; eauto using not_freeing|]. naive_solver. }
  intros _ w1 (Hok1 & E1 & S1). destruct (proj2 S1 c a Ha) as (a1 & Ha1 & _ & Hl1 & _). rewrite Hl in Hl1.
  apply wp_bind. unfold msc_a_in_release. apply wp_bind, wp_get_conn; [done|]. intros a' Ha'. rewrite Ha1 in Ha'.
  injection Ha' as <-. apply wp_ret. unfold when. case_match; [|by apply wp_ret].
  apply wp_bind. change (wp tolerated (gets ?f) ?Q w1) with (Q (f w1) w1). cbv beta.
  destruct (find_waiting_call c w1) as [t|] eqn:Hf; [|by apply wp_ret].
  apply trans_find_Some in Hf as [_ (tr & Ht & Hp)]. apply andb_true_iff in Hp as [Hp _].
  apply andb_true_iff in Hp as [Hc%bool_decide_eq_true Hty%bool_decide_eq_true]. apply wp_bind.
  eapply wp_mono; [eapply (try_call_assignment_spec X t w1 tr c); eauto; left; naive_solver|].
  intros _ w2 [? E2]. apply wp_ret. split; [done|by trans w1].
Qed.

Lemma keeps_communicating_term c : keeps nobody anything (msc_a_fsm_communicating dispatch c MSC_EV_CALL_LEG_TERM).
Proof using unused.
  intros X w Hok _. cbn [msc_a_fsm_communicating]. apply wp_bind, wp_mod_conn; [done|]. intros a Ha.
  set (f := fun a : msc_a => a <| a_call_leg := None |>). change (fun a : msc_a => a <| a_call_leg := None |>) with f.
  set (w1 := w <| w_conns ::= insert c (f a) |>).
  assert (Hok1 : calls_ok X nobody no_debt w1) by (apply (tame_conn_ok _ _ _ w c f a); [tame_tac|done..]).
  assert (E1 : evolves w w1) by (by apply (mod_conn_evolves w c f a)).
  assert (Ha1 : w_conns w1 !! c = Some (f a)) by apply lookup_insert_eq.
  assert (Ht : "msc_a_fsm_communicating"%string ∈ func_tokens) by (by right; right; left).
  enough (H : wp tolerated (msc_a_get dispatch c "msc_a_fsm_communicating" ;; leg_ended c ;; msc_a_put dispatch c "msc_a_fsm_communicating")
            (fun _ w' => calls_ok X nobody no_debt w' /\ evolves w w') w1).
  { eapply wp_pointwise; [|exact H]. unfold leg_ended. reassoc. }
  eapply wp_mono; [apply (wp_hold c _ _ X w1 Ht Hok1)|].
  - intros a1 Ha1'. rewrite Ha1 in Ha1'. injection Ha1' as <-.
    eapply (leg_ended_spec X c); [by apply hold_ok|by eapply hold_held|apply lookup_insert_eq|done].
  - intros _ w2 [? E2]. split; [done|by trans w1].
Qed.
End rec.
End assign.
