(* ===== verification/CallLevels.v ===== *)
(** * Calls: four nested events are enough

    The events of a connection that come from its call leg, and with them the
    whole state machine: [keeps_dispatch]. *)

From S2P Require Import Prelude VlrTypes Codecs Csd Sdp Mncc CallTypes CallBase CallLeg CallAssign CallCc CallSys CallInv CallSafe CallDispatch CallAssignSafe.

Section levels.
Context {SL : SockaddrLib} {CL : CallLib} {AC : AmrCfg} {DR : DataRates}.

(** an event that is handled in one state only *)
Lemma keeps_term n c : keeps nobody anything (msc_a_dispatch (S (S (S n))) c MSC_EV_CALL_LEG_TERM).
Proof.
  pose proof (fun c => keeps_plain n c MSC_A_EV_UNUSED eq_refl) as U.
  pose proof (keeps_communicating_term _ U c) as T.
  change (msc_a_dispatch (S (S (S n)))) with (msc_a_dispatch_body (msc_a_dispatch (S (S n)))).
  unfold msc_a_dispatch_body. apply keeps_bind; [keep_stable|keep|]. intros a.
  destruct (a_state a); cbn [msc_a_permits negb msc_a_fsm_releasing]; keep.
Qed.

Section two.
Variable dispatch : nat -> msc_a_event -> M Z.
Hypothesis unused : forall c, keeps nobody anything (dispatch c MSC_A_EV_UNUSED).

Lemma keeps_free t : keeps nobody anything (trans_free dispatch t).
Proof using unused. by apply keeps_trans_free. Qed.
#[local] Hint Resolve keeps_free : keeps.

Lemma keeps_setup_cn_known t : keeps nobody anything (gsm48_cc_rx_setup_cn_local_rtp_port_known dispatch t).
Proof using unused. unfold gsm48_cc_rx_setup_cn_local_rtp_port_known. keep. Qed.
Lemma keeps_mt_port_known t : keeps nobody anything (gsm48_cc_mt_rtp_port_and_codec_known dispatch t).
Proof using unused. unfold gsm48_cc_mt_rtp_port_and_codec_known. keep. Qed.
#[local] Hint Resolve keeps_setup_cn_known keeps_mt_port_known : keeps.
Lemma keeps_cn_port_known t : keeps nobody anything (cc_on_cn_local_rtp_port_known dispatch t).
Proof using unused. unfold cc_on_cn_local_rtp_port_known. keep. Qed.

Section three.
Hypothesis term : forall c, keeps nobody anything (dispatch c MSC_EV_CALL_LEG_TERM).

Lemma keeps_leg_release ol : keeps nobody anything (call_leg_release dispatch ol).
Proof using term.
  pose proof (fun l => keeps_leg_releasing nobody l). pose proof (fun l => keeps_detach nobody l).
  unfold call_leg_release. keep.
Qed.

(** what an aborted assignment does while it holds the connection *)
Definition abort_held (a : msc_a) (ot : option nat) : M unit :=
  match a_call_leg a with Some l => call_leg_detach_trans l | None => ret tt end ;;
  match ot with Some t => trans_free dispatch t | None => ret tt end ;;
  call_leg_release dispatch (a_call_leg a).
Lemma keeps_abort_held a ot : keeps nobody anything (abort_held a ot).
Proof using unused term.
  pose proof (fun l => keeps_detach nobody l). pose proof keeps_leg_release. unfold abort_held. keep.
Qed.
Lemma keeps_abort_assignment c ot : keeps nobody anything (msc_a_abort_assignment dispatch c ot).
Proof using unused term.
  unfold msc_a_abort_assignment. apply keeps_bind; [keep_stable|keep|]. intros a.
  apply keeps_bind; [keep_stable|keep|]. intros _ X w Hok _.
  eapply wp_pointwise; [|apply (wp_hold dispatch unused c "msc_a_abort_assignment" (abort_held a ot) X w)].
  - unfold abort_held. reassoc.
  - by right; left.
  - done.
  - intros b Hb. apply wp_keeps; [apply keeps_abort_held|]. apply hold_ok; [done..|]. by right; left.
Qed.
#[local] Hint Resolve keeps_leg_release keeps_abort_assignment : keeps.
Lemma keeps_tx_assignment_cmd c : keeps nobody anything (msc_a_tx_assignment_cmd dispatch c).
Proof using unused term. unfold msc_a_tx_assignment_cmd. keep. Qed.
Lemma keeps_communicating_addr c d :
  keeps nobody anything (msc_a_fsm_communicating dispatch c (MSC_EV_CALL_LEG_RTP_LOCAL_ADDR_AVAILABLE d)).
Proof using unused term.
  pose proof keeps_tx_assignment_cmd. pose proof keeps_cn_port_known. cbn [msc_a_fsm_communicating]. keep.
Qed.
End three.
End two.

Lemma keeps_addr n c d :
  keeps nobody anything (msc_a_dispatch (S (S (S (S n)))) c (MSC_EV_CALL_LEG_RTP_LOCAL_ADDR_AVAILABLE d)).
Proof.
  pose proof (fun c => keeps_plain (S n) c MSC_A_EV_UNUSED eq_refl) as U.
  pose proof (keeps_communicating_addr _ U (keeps_term n) c d) as T.
  change (msc_a_dispatch (S (S (S (S n))))) with (msc_a_dispatch_body (msc_a_dispatch (S (S (S n))))).
  unfold msc_a_dispatch_body. apply keeps_bind; [keep_stable|keep|]. intros a.
  destruct (a_state a); cbn [msc_a_permits negb]; keep.
Qed.

(** every event, in every state, with four levels *)
Lemma keeps_dispatch n c ev : (4 <= n)%nat -> keeps nobody anything (msc_a_dispatch n c ev).
Proof.
  intros Hn. do 4 (destruct n as [|n]; [lia|]). destruct ev; try by apply keeps_plain.
  - apply keeps_addr.
  - apply keeps_term.
Qed.
End levels.
