(* ===== verification/CallCcSafe.v ===== *)
(** * Calls: the handlers keep the invariant

    With a state machine of connections that keeps [calls_ok] for every event,
    so does every handler of gsm_04_08_cc.c, every timer and every event of a
    call leg or RTP stream. *)

From S2P Require Import Prelude VlrTypes Codecs Csd Sdp Mncc CallTypes CallBase CallLeg CallAssign CallCc CallSys.
From S2P Require Import CallInv CallSafe CallDispatch CallAssignSafe CallLevels.

Section handlers.
Context {SL : SockaddrLib} {CL : CallLib} {AC : AmrCfg} {DR : DataRates}.
Variable dispatch : nat -> msc_a_event -> M Z.
Hypothesis all : forall c ev, keeps nobody anything (dispatch c ev).

Lemma keeps_event c ev : keeps nobody anything (dispatch c ev).
Proof using all. apply all. Qed.
Lemma keeps_free' t : keeps nobody anything (trans_free dispatch t).
Proof using all. apply keeps_trans_free. auto. Qed.
Lemma keeps_abort' c ot : keeps nobody anything (msc_a_abort_assignment dispatch c ot).
Proof using all. apply keeps_abort_assignment; auto. Qed.
Lemma keeps_tx_assignment' c : keeps nobody anything (msc_a_tx_assignment_cmd dispatch c).
Proof using all. apply keeps_tx_assignment_cmd; auto. Qed.
Lemma keeps_leg_release' ol : keeps nobody anything (call_leg_release dispatch ol).
Proof using all. apply keeps_leg_release; auto. Qed.
#[local] Hint Resolve keeps_event keeps_free' keeps_abort' keeps_tx_assignment' keeps_leg_release' : keeps.

(** ** Facts about the transaction of a handler *)

Lemma keeps_get_call {A} t (k : gsm_trans -> M A) :
  (forall tr, t_type tr = TRANS_CC -> is_Some (t_msc_a tr) -> keeps nobody (call_on_conn t) (k tr)) ->
  keeps nobody (call_on_conn t) (bind (get_trans t) k).
Proof.
  intros Hk X w Hok Hw. apply wp_bind, wp_get_trans; [done|]. intros tr Ht. destruct (Hw tr Ht). by apply Hk.
Qed.
Lemma keeps_try_call t : keeps nobody (call_on_conn t) (msc_a_try_call_assignment dispatch t).
Proof using all.
  intros X w Hok Hw. destruct (w_trans w !! t) as [tr|] eqn:Ht.
  - destruct (Hw tr Ht) as [Hty [c Hc]]. eapply try_call_assignment_spec; eauto.
  - unfold msc_a_try_call_assignment, wp, bind, get_trans. by rewrite Ht.
Qed.
Lemma keeps_set_tid t id : keeps nobody (call_on_conn t) (mod_trans t (fun tr => tr <| t_id := id |>)).
Proof.
  intros X w Hok Hw. apply wp_mod_trans; [done|]. intros tr Ht. destruct (Hw tr Ht) as [_ [c Hc]].
  split; [|by apply (mod_trans_evolves w t (fun tr => tr <| t_id := id |>))].
  apply (mod_trans_ok X nobody no_debt w t (fun tr => tr <| t_id := id |>) tr Hok Ht); try done. congruence.
Qed.
#[local] Hint Resolve keeps_try_call keeps_set_tid : keeps.

(** ** Call legs and RTP streams *)

Lemma keeps_mgw_gone l : keeps nobody anything (call_leg_mgw_endpoint_gone l).
Proof. unfold call_leg_mgw_endpoint_gone. keep. Qed.
#[local] Hint Resolve keeps_mgw_gone : keeps.
Lemma keeps_leg_dispatch l ev : keeps nobody anything (call_leg_dispatch dispatch l ev).
Proof using all.
  unfold call_leg_dispatch, call_leg_fsm_releasing, call_leg_try_finish, call_leg_fsm_establishing_established,
    call_leg_fsm_established_onenter, call_leg_dispatch_parent. keep.
Qed.
#[local] Hint Resolve keeps_leg_dispatch : keeps.
Lemma keeps_leg_timer l : keeps nobody anything (call_leg_fsm_timer_cb dispatch l).
Proof using all. unfold call_leg_fsm_timer_cb. keep. Qed.
Lemma keeps_rtp_term l d : keeps nobody anything (rtp_stream_term dispatch l d).
Proof using all. unfold rtp_stream_term, rtp_stream_discard. keep. Qed.
Lemma keeps_check_established l d : keeps nobody anything (check_established dispatch l d).
Proof using all. unfold check_established. keep. Qed.
#[local] Hint Resolve keeps_rtp_term keeps_check_established : keeps.
Lemma keeps_rtp_dispatch l d ev : keeps nobody anything (rtp_stream_dispatch dispatch l d ev).
Proof using all. unfold rtp_stream_dispatch, rtp_stream_crcx_ok, rtp_alive. keep. Qed.
Lemma keeps_local_bridge l1 l2 i1 i2 t1 t2 : keeps nobody anything (call_leg_local_bridge l1 l2 i1 i2 t1 t2).
Proof. unfold call_leg_local_bridge. keep. Qed.

(** ** Assignment results *)

Lemma keeps_assignment_complete c ac : keeps nobody anything (msc_a_up_call_assignment_complete dispatch c ac).
Proof using all. unfold msc_a_up_call_assignment_complete. keep. Qed.
Lemma keeps_assignment_failure c b : keeps nobody anything (msc_a_up_call_assignment_failure dispatch c b).
Proof using all. unfold msc_a_up_call_assignment_failure. keep. Qed.

(** ** Call control *)

Lemma keeps_get_rev_lev t : keeps nobody anything (get_rev_lev t).
Proof. unfold get_rev_lev. keep. Qed.
Lemma keeps_set_bcap t bc : keeps nobody anything (set_trans_bearer_cap t bc).
Proof. unfold set_trans_bearer_cap. keep. Qed.
Lemma keeps_callref_0 t : keeps nobody anything (set_callref_0 t).
Proof. unfold set_callref_0. keep. Qed.
#[local] Hint Resolve keeps_get_rev_lev keeps_set_bcap keeps_callref_0 : keeps.
Lemma keeps_rx_mncc_sdp t sdp bc : keeps nobody anything (rx_mncc_sdp dispatch t sdp bc).
Proof using all. unfold rx_mncc_sdp. keep. Qed.
Lemma keeps_release_unsent t c : keeps nobody anything (release_unsent t c).
Proof. unfold release_unsent. keep. Qed.
#[local] Hint Resolve keeps_rx_mncc_sdp keeps_release_unsent : keeps.
Lemma keeps_rx_setup t rx : keeps nobody (call_on_conn t) (gsm48_cc_rx_setup dispatch t rx).
Proof using all.
  unfold gsm48_cc_rx_setup. keep_step; [keep|]. keep_step; [keep|]. keep_step; [keep|].
  apply keeps_get_call. intros tr Hty [c ->]. cbv zeta. keep.
Qed.
Lemma keeps_set_transaction_id t : keeps nobody (call_on_conn t) (gsm48_cc_tx_setup_set_transaction_id t).
Proof. unfold gsm48_cc_tx_setup_set_transaction_id. keep. Qed.
#[local] Hint Resolve keeps_rx_setup keeps_set_transaction_id : keeps.
Lemma keeps_select_codecs t m : keeps nobody anything (gsm48_cc_tx_setup_select_codecs dispatch t m).
Proof using all. unfold gsm48_cc_tx_setup_select_codecs. keep. Qed.
Lemma keeps_set_bearer_cap t : keeps nobody anything (gsm48_cc_tx_setup_set_bearer_cap t).
Proof. unfold gsm48_cc_tx_setup_set_bearer_cap. keep. Qed.
#[local] Hint Resolve keeps_select_codecs keeps_set_bearer_cap : keeps.
Lemma keeps_tx_setup t m : keeps nobody (call_on_conn t) (gsm48_cc_tx_setup dispatch t m).
Proof using all. unfold gsm48_cc_tx_setup. keep. Qed.
Lemma keeps_rx_call_conf t rx : keeps nobody (call_on_conn t) (gsm48_cc_rx_call_conf dispatch t rx).
Proof using all. unfold gsm48_cc_rx_call_conf. keep. Qed.
Lemma keeps_call_proc t m : keeps nobody (call_on_conn t) (gsm48_cc_tx_call_proc_and_assign dispatch t m).
Proof using all. unfold gsm48_cc_tx_call_proc_and_assign. keep. Qed.
Lemma keeps_rx_alerting t rx : keeps nobody anything (gsm48_cc_rx_alerting dispatch t rx).
Proof using all. unfold gsm48_cc_rx_alerting. keep. Qed.
Lemma keeps_tx_alerting t m : keeps nobody anything (gsm48_cc_tx_alerting dispatch t m).
Proof using all. unfold gsm48_cc_tx_alerting. keep. Qed.
Lemma keeps_tx_connect t m : keeps nobody anything (gsm48_cc_tx_connect dispatch t m).
Proof using all. unfold gsm48_cc_tx_connect. keep. Qed.
Lemma keeps_rx_connect t rx : keeps nobody anything (gsm48_cc_rx_connect t rx).
Proof. unfold gsm48_cc_rx_connect. keep. Qed.
Lemma keeps_note_cause t rx : keeps nobody anything (note_rx_cause t rx).
Proof. unfold note_rx_cause. keep. Qed.
#[local] Hint Resolve keeps_note_cause : keeps.
Lemma keeps_rx_disconnect t rx : keeps nobody anything (gsm48_cc_rx_disconnect t rx).
Proof. unfold gsm48_cc_rx_disconnect. keep. Qed.
Lemma keeps_tx_disconnect t m : keeps nobody anything (gsm48_cc_tx_disconnect t m).
Proof. unfold gsm48_cc_tx_disconnect. keep. Qed.
Lemma keeps_simple_release_compl c tid : keeps nobody anything (gsm48_tx_simple_release_compl c tid).
Proof. unfold gsm48_tx_simple_release_compl. keep. Qed.
#[local] Hint Resolve keeps_tx_disconnect keeps_simple_release_compl : keeps.
Lemma keeps_rx_release t rx : keeps nobody anything (gsm48_cc_rx_release dispatch t rx).
Proof using all. unfold gsm48_cc_rx_release. keep. Qed.
Lemma keeps_rx_release_compl t rx : keeps nobody anything (gsm48_cc_rx_release_compl dispatch t rx).
Proof using all. unfold gsm48_cc_rx_release_compl. keep. Qed.
Lemma keeps_tx_release_compl t m : keeps nobody anything (gsm48_cc_tx_release_compl dispatch t m).
Proof using all. unfold gsm48_cc_tx_release_compl. keep. Qed.
Lemma keeps_mncc_ind t ty f : keeps nobody anything (mncc_ind t ty f).
Proof. unfold mncc_ind. keep. Qed.
Lemma keeps_modify_bcap t m : keeps nobody anything (modify_bearer_cap t m).
Proof. unfold modify_bearer_cap. keep. Qed.
#[local] Hint Resolve keeps_tx_setup keeps_rx_call_conf keeps_call_proc keeps_rx_alerting keeps_tx_alerting keeps_tx_connect
  keeps_rx_connect keeps_rx_disconnect keeps_rx_release keeps_rx_release_compl keeps_tx_release_compl keeps_mncc_ind
  keeps_modify_bcap : keeps.

(** the tables *)
Lemma keeps_downstate t m entry : entry ∈ downstatelist dispatch -> keeps nobody (call_on_conn t) (snd entry t m).
Proof using all.
  unfold downstatelist. intros Hin.
  repeat (apply elem_of_cons in Hin as [->|Hin];
          [cbn [snd]; first [solve [eauto 2 with keeps] | solve [apply keeps_any; eauto 2 with keeps] |
             unfold gsm48_cc_tx_progress, gsm48_cc_tx_connect_ack, gsm48_cc_tx_notify, gsm48_cc_tx_facility,
               gsm48_cc_tx_start_dtmf_ack, gsm48_cc_tx_start_dtmf_rej, gsm48_cc_tx_stop_dtmf_ack, gsm48_cc_tx_hold_ack,
               gsm48_cc_tx_hold_rej, gsm48_cc_tx_retrieve_ack, gsm48_cc_tx_retrieve_rej, gsm48_cc_tx_modify,
               gsm48_cc_tx_modify_complete, gsm48_cc_tx_modify_reject, gsm48_cc_tx_userinfo; solve [keep]]|]).
  by apply not_elem_of_nil in Hin.
Qed.
Lemma keeps_datastate t rx entry : entry ∈ datastatelist dispatch -> keeps nobody (call_on_conn t) (snd entry t rx).
Proof using all.
  unfold datastatelist. intros Hin.
  repeat (apply elem_of_cons in Hin as [->|Hin];
          [cbn [snd]; first [solve [eauto 2 with keeps] | solve [apply keeps_any; eauto 2 with keeps] |
             unfold gsm48_cc_rx_connect_ack, gsm48_cc_rx_facility, gsm48_cc_rx_notify, gsm48_cc_rx_start_dtmf,
               gsm48_cc_rx_stop_dtmf, gsm48_cc_rx_status_enq, gsm48_cc_rx_hold, gsm48_cc_rx_retrieve, gsm48_cc_rx_modify,
               gsm48_cc_rx_modify_complete, gsm48_cc_rx_modify_reject, gsm48_cc_rx_userinfo; solve [keep]]|]).
  by apply not_elem_of_nil in Hin.
Qed.
Lemma keeps_rcv_cc_trans t rx : keeps nobody (fun w => call_on_conn t w /\ of_vsub t w) (rcv_cc_trans dispatch t rx).
Proof using all.
  intros X w Hok [Hc Hv]. unfold rcv_cc_trans. apply wp_bind, wp_get_trans; [done|]. intros tr Ht.
  rewrite bool_decide_eq_true_2 by (by apply Hv). destruct (find _ _) as [[e rout]|] eqn:Hf.
  - apply find_some in Hf as [Hin _]. by apply (keeps_datastate t rx (e, rout)); [apply list_elem_of_In|..].
  - assert (K : keeps nobody anything (when (bool_decide (t_state tr = GSM_CSTATE_NULL)) (trans_free dispatch t) ;; ret 0)) by keep.
    by apply K.
Qed.

(** *** Timers *)
Lemma keeps_timeout_release t a b c : keeps nobody anything (timeout_release t a b c).
Proof. unfold timeout_release. keep. Qed.
Lemma keeps_timeout_disconnect t a : keeps nobody anything (timeout_disconnect t a).
Proof. unfold timeout_disconnect. keep. Qed.
#[local] Hint Resolve keeps_timeout_release keeps_timeout_disconnect : keeps.
Lemma keeps_cc_timeout t : keeps nobody anything (gsm48_cc_timeout dispatch t).
Proof using all. unfold gsm48_cc_timeout. keep. Qed.
Lemma keeps_guard_timeout t : keeps nobody anything (gsm48_cc_guard_timeout dispatch t).
Proof using all. unfold gsm48_cc_guard_timeout. keep. Qed.

(** *** Messages of MNCC *)
Lemma keeps_tch_bridge r0 r1 : keeps nobody anything (tch_bridge r0 r1).
Proof. pose proof keeps_local_bridge. unfold tch_bridge. keep. Qed.
Lemma keeps_disconnect_bridge r0 r1 : keeps nobody anything (disconnect_bridge r0 r1).
Proof. unfold disconnect_bridge. keep. Qed.
Lemma keeps_tch_rtp_connect m : keeps nobody anything (tch_rtp_connect dispatch m).
Proof using all. unfold tch_rtp_connect. keep. Qed.
Lemma find_callref_call r w t :
  trans_find_by_callref TRANS_CC r w = Some t -> exists tr, w_trans w !! t = Some tr /\ t_type tr = TRANS_CC.
Proof.
  intros [_ (tr & Ht & Hp)]%trans_find_Some. apply andb_true_iff in Hp as [_ Hty%bool_decide_eq_true]. eauto.
Qed.
Lemma keeps_tch_rtp_create m : keeps nobody anything (tch_rtp_create dispatch m).
Proof using all.
  intros X w Hok _. unfold tch_rtp_create. apply wp_bind. change (wp tolerated (gets ?f) ?Q w) with (Q (f w) w). cbv beta.
  destruct (trans_find_by_callref _ _ w) as [t|] eqn:Hf; [|apply (wp_keeps _ X nobody w); [keep|done]].
  apply find_callref_call in Hf as (tr & Ht & Hty). apply wp_bind, wp_get_trans; [done|]. intros tr' Ht'.
  rewrite Ht in Ht'. injection Ht' as <-. destruct (t_msc_a tr) as [c|] eqn:Hc.
  - apply keeps_try_call; [done|]. intros tr' Ht'. rewrite Ht in Ht'. injection Ht' as <-. eauto.
  - apply (wp_keeps _ X nobody w); [keep|done].
Qed.

(** a message for a transaction that is a call *)
Definition is_call (t : nat) (w : cc_world) : Prop := forall tr, w_trans w !! t = Some tr -> t_type tr = TRANS_CC.
Lemma is_call_stable t : stable (is_call t).
Proof. intros w w' H E tr' (tr & Ht & -> & _)%E. by apply H. Qed.
Lemma keeps_mncc_tx_trans t m : keeps nobody (is_call t) (mncc_tx_trans dispatch t m).
Proof using all.
  pose proof (is_call_stable t). unfold mncc_tx_trans. keep_step; [keep|]. keep_step; [keep|]. keep_step; [keep|].
  intros X w Hok Hw. apply wp_bind, wp_get_trans; [done|]. intros tr Ht. destruct (t_msc_a tr) as [c|] eqn:Hc.
  - destruct (find _ _) as [[e rout]|] eqn:Hf; [|by apply wp_ret].
    apply find_some in Hf as [Hin%list_elem_of_In _]. apply (keeps_downstate t m (e, rout) Hin); [done|].
    intros tr' Ht'. rewrite Ht in Ht'. injection Ht' as <-. split; [by apply Hw|eauto].
  - apply (wp_keeps _ X nobody w); [keep|done].
Qed.
End handlers.
