(* ===== verification/CallSysSafe.v ===== *)
(** * Calls: every event keeps the invariant

    The events of CallSys, from the first one on: no assertion fails and four
    nested events of a connection are always enough. *)

From S2P Require Import Prelude VlrTypes Codecs Csd Sdp Mncc CallTypes CallBase CallLeg CallAssign CallCc CallSys.
From S2P Require Import CallInv CallSafe CallDispatch CallAssignSafe CallLevels CallCcSafe.

Definition in_order (w : cc_world) : Prop := calls_ok nobody nobody no_debt w.

Lemma init_in_order cw : in_order (init_world cw).
Proof.
  split; cbn; try (intros; by rewrite lookup_empty in * ); try done.
  - constructor.
  - intros t. rewrite lookup_empty. split; [by intros ?%not_elem_of_nil|intros [[? ?] _]; done].
Qed.

(** ** New transactions *)

Definition insert_trans (tr : gsm_trans) (w : cc_world) : cc_world :=
  w <| w_next_trans ::= S |> <| w_trans ::= insert (w_next_trans w) tr |>
    <| w_trans_list ::= fun l => l ++ [w_next_trans w] |>.

Lemma next_unused X Y D w : calls_ok X Y D w -> w_trans w !! w_next_trans w = None.
Proof. intros Hok. apply eq_None_not_Some. intros [tr Ht]. apply (ok_fresh _ _ _ _ Hok) in Ht. lia. Qed.

Lemma insert_trans_ok X D D' w tr :
  calls_ok X nobody D w -> t_freeing tr = false ->
  (t_type tr = TRANS_CC -> t_msc_a tr = None -> t_id tr = TRANS_ID_UNASSIGNED) ->
  (forall c, t_msc_a tr = Some c -> exists a, w_conns w !! c = Some a /\ (X c \/ closing (a_state a) = false)) ->
  (forall c ty, D' c ty = D c ty - on_conn_of ty c tr) ->
  calls_ok X nobody D' (insert_trans tr w).
Proof.
  intros Hok Hf Hid Hc HD. pose proof (next_unused _ _ _ _ Hok) as Hn. destruct Hok as [O1 O2 O3 O4 O5 O6 O7 O8 O9 O10 O11 O12].
  assert (Hnin : w_next_trans w ∉ w_trans_list w) by (intros [[? ?] _]%O2; congruence).
  split; cbn; try done.
  - apply NoDup_app. split_and!; [done| |apply NoDup_singleton]. intros t Ht ->%list_elem_of_singleton. done.
  - intros t. rewrite elem_of_app, list_elem_of_singleton, O2, lookup_insert_is_Some. unfold nobody.
    destruct (decide (w_next_trans w = t)) as [<-|]; naive_solver.
  - change (forall t tr', insert (w_next_trans w) tr (w_trans w) !! t = Some tr' -> (t < S (w_next_trans w))%nat).
    intros t tr' [[<- <-]|[? Ht]]%lookup_insert_Some; [lia|]. apply O3 in Ht. lia.
  - intros t tr' [[<- <-]|[? Ht]]%lookup_insert_Some; [unfold nobody; naive_solver congruence|eauto].
  - intros t tr' [[<- <-]|[? Ht]]%lookup_insert_Some; eauto.
  - intros t tr' c [[<- <-]|[? Ht]]%lookup_insert_Some; eauto.
  - intros c a ty Ha. rewrite (O9 c a ty Ha), HD. unfold trans_count. cbn. rewrite (msum_new _ _ _ _ Hn). lia.
  - intros c a t Ha Ht. destruct (O11 c a t Ha Ht) as (tr' & Ht' & ?). exists tr'. split; [|done].
    rewrite lookup_insert_ne; [done|]. congruence.
Qed.

Definition alloc_vsub (v : nat) (ty : trans_type) (s : cc_vsub) (w : cc_world) : cc_world :=
  w <| w_vsubs ::= insert v (s <| sb_uses ::= use_add (trans_vsub_use ty) 1 |>) |>.
Lemma alloc_vsub_ok X Y D v ty s w : calls_ok X Y D w -> w_vsubs w !! v = Some s -> calls_ok X Y D (alloc_vsub v ty s w).
Proof.
  intros Hok Hs. apply (mod_vsub_ok _ _ _ w v (fun s => s <| sb_uses ::= use_add (trans_vsub_use ty) 1 |>) s Hok Hs).
  pose proof (ok_vsub_uses _ _ _ _ Hok v s Hs) as Hp. apply (uses_pos_add _ _ (sb_uses s) Hp).
  specialize (Hp (trans_vsub_use ty)). lia.
Qed.

(** what trans_alloc does for a subscriber *)
Definition alloc_world (v : nat) (ty : trans_type) (id callref : Z) (s : cc_vsub) (w : cc_world) : cc_world :=
  alloc_vsub v ty s (insert_trans (new_trans (Some v) ty id callref (w_new_call_id w)) w)
    <| w_new_call_id ::= fun n => u32 (n + 1) |>.
Lemma wp_alloc v ty id callref (Q : option nat -> cc_world -> Prop) w :
  (forall s, w_vsubs w !! v = Some s -> Q (Some (w_next_trans w)) (alloc_world v ty id callref s w)) ->
  wp tolerated (trans_alloc (Some v) ty id callref) Q w.
Proof.
  intros HQ. unfold trans_alloc. do 2 (apply wp_bind; change (wp tolerated (gets ?f) ?Q w) with (Q (f w) w); cbv beta).
  apply wp_bind, wp_modify, wp_bind. unfold vlr_subscr_get. apply wp_mod_vsub; [done|]. intros s Hs.
  apply wp_bind, wp_modify, wp_ret. apply (HQ s Hs).
Qed.

#[export] Hint Extern 1 (acts same_state (mod_trans _ _)) =>
  (apply acts_mod_trans; intros; by apply same_state_conns) : acts.

Section sys.
Context {SL : SockaddrLib} {CL : CallLib} {AC : AmrCfg} {DR : DataRates}.
Variable n : nat.
Hypothesis deep : (4 <= n)%nat.
Notation dispatch := (msc_a_dispatch n).

Lemma every c ev : keeps nobody anything (dispatch c ev).
Proof using deep. by apply keeps_dispatch. Qed.
#[local] Hint Resolve every : keeps.

(** ** Messages of the MS *)

(** a connection that is accepted takes another transaction *)
Lemma wp_accept c w a (Q : Z -> cc_world -> Prop) :
  w_conns w !! c = Some a -> conn_accepted (a_state a) = true -> Q 0 (set_state c MSC_A_ST_COMMUNICATING a w) ->
  wp tolerated (dispatch c MSC_A_EV_TRANSACTION_ACCEPTED) Q w.
Proof using deep.
  intros Ha Hacc HQ. destruct n as [|m]; [lia|]. cbn [msc_a_dispatch]. unfold msc_a_dispatch_body.
  apply wp_bind, wp_get_conn; [done|]. intros a' Ha'. rewrite Ha in Ha'. injection Ha' as <-.
  destruct (a_state a) eqn:Hs; try discriminate; cbn [msc_a_permits negb].
  - apply wp_bind. cbn [msc_a_fsm_authenticated]. by apply (wp_set_state c _ _ w a Ha), wp_ret.
  - apply wp_bind. cbn [msc_a_fsm_communicating]. apply wp_ret, wp_ret.
    replace (set_state c MSC_A_ST_COMMUNICATING a w) with w in HQ; [done|].
    unfold set_state. rewrite <- Hs. change (a <| a_state := a_state a |>) with a.
    change (w <| w_conns ::= insert c a |>) with (w <| w_conns := insert c a (w_conns w) |>).
    by rewrite (insert_id (w_conns w) c a Ha).
Qed.

(** a use that is not one of a transaction, given back if there is one *)
Lemma keeps_put_if c tok : tok ∉ func_tokens -> (forall ty, tok <> trans_usage_token ty) ->
  keeps nobody anything (a <- get_conn c ;; when (negb (use_by (a_uses a) tok =? 0)) (msc_a_put dispatch c tok)).
Proof using deep.
  intros Hf Hty X w Hok _. apply wp_bind, wp_get_conn; [done|]. intros a Ha.
  destruct (Z.eqb_spec (use_by (a_uses a) tok) 0) as [|Hz]; [by apply wp_ret|].
  pose proof (ok_uses _ _ _ _ Hok c a Ha tok) as Hp. assert (Hn : 0 <= use_by (a_uses a) tok + -1) by lia.
  pose proof (add_use_other X nobody no_debt w c tok (-1) a Hok Ha Hn Hty) as Hok1.
  pose proof (add_use_holds w c tok (-1) a Ha Hf) as E1.
  cbn [negb when]. unfold msc_a_put. apply (wp_use dispatch c tok (-1) _ w a Ha Hn); intros _; [|split; [exact Hok1|exact E1]].
  eapply wp_mono; [exact (every c MSC_A_EV_UNUSED X _ Hok1 I)|]. intros _ w2 [H2 E2]. split; [exact H2|].
  etrans; [exact E1|exact E2].
Qed.
Lemma cm_service_plain : MSC_A_USE_CM_SERVICE_CC ∉ func_tokens /\ forall ty, MSC_A_USE_CM_SERVICE_CC <> trans_usage_token ty.
Proof.
  split; [|by intros []]. intros H; vm_compute in H;
    repeat (inversion H as [|? ? ? H']; clear H; rename H' into H; subst).
Qed.

(** a transaction of the MS, together with its connection *)
Lemma alloc_attach_ok X v ty id callref dlci w s c a :
  calls_ok X nobody no_debt w -> w_vsubs w !! v = Some s -> w_conns w !! c = Some a -> conn_accepted (a_state a) = true ->
  calls_ok X nobody no_debt
    (insert_trans (new_trans (Some v) ty id callref (w_new_call_id w) <| t_msc_a := Some c |> <| t_dlci := dlci |>)
       (add_use c (trans_usage_token ty) 1 a (alloc_vsub v ty s w))).
Proof.
  intros Hok Hs Ha Hacc. assert (Hok1 : calls_ok X nobody no_debt (alloc_vsub v ty s w)) by (by apply alloc_vsub_ok).
  assert (Hn : 0 <= use_by (a_uses a) (trans_usage_token ty) + 1).
  { pose proof (ok_uses _ _ _ _ Hok c a Ha (trans_usage_token ty)). lia. }
  eapply (insert_trans_ok X (debt (Some c) ty 1)).
  - apply (add_use_ok X nobody no_debt (debt (Some c) ty 1) (alloc_vsub v ty s w) c _ 1 a Hok1 Ha Hn); unfold debt, no_debt.
    + intros ty'. destruct (decide (ty = ty')) as [->|].
      * by rewrite !decide_True.
      * rewrite !decide_False; [done| |]; [by intros ?%(inj trans_usage_token)|naive_solver].
    + intros ty' c' Hc. rewrite decide_False; [done|]. naive_solver.
  - done.
  - done.
  - intros c'. cbn. intros [= <-]. exists (a <| a_uses ::= use_add (trans_usage_token ty) 1 |>).
    split; [apply lookup_insert_eq|]. right. change (negb (conn_accepted (a_state a)) = false). by rewrite Hacc.
  - intros c' ty'. unfold debt, no_debt, on_conn_of. cbn. repeat case_decide; first [lia | naive_solver].
Qed.

(** the part of gsm0408_rcv_cc that makes a transaction *)
Definition rcv_cc_new (c v : nat) (rx : cc_rx) : M Z :=
  callref <- msc_cc_next_outgoing_callref ;;
  ot <- trans_alloc (Some v) TRANS_CC (r_tid rx) callref ;;
  match ot with
  | None => gsm48_tx_simple_release_compl c (r_tid rx) ;;
            msc_a_put dispatch c MSC_A_USE_CM_SERVICE_CC ;; ret (- ENOMEM)
  | Some t =>
      rejected <- dispatch c MSC_A_EV_TRANSACTION_ACCEPTED ;;
      if negb (rejected =? 0) then trans_free dispatch t ;; ret (- EINVAL)
      else
        msc_a_get dispatch c MSC_A_USE_CC ;;
        mod_trans t (fun tr => tr <| t_msc_a := Some c |> <| t_dlci := r_link_id rx |>) ;;
        a <- get_conn c ;;
        when (negb (use_by (a_uses a) MSC_A_USE_CM_SERVICE_CC =? 0))
          (msc_a_put dispatch c MSC_A_USE_CM_SERVICE_CC) ;;
        rcv_cc_trans dispatch t rx
  end.

Lemma set_state_holds c s a w : w_conns w !! c = Some a -> holds_kept w (set_state c s a w).
Proof. intros Ha. by apply (mod_conn_holds w c (fun a => a <| a_state := s |>)). Qed.

Lemma rcv_cc_new_spec X c v rx w a :
  calls_ok X nobody no_debt w -> w_conns w !! c = Some a -> conn_accepted (a_state a) = true ->
  wp tolerated (rcv_cc_new c v rx) (fun _ w' => calls_ok X nobody no_debt w' /\ holds_kept w w') w.
Proof using deep.
  intros Hok Ha Hacc. unfold rcv_cc_new. apply wp_bind.
  assert (K : keeps nobody anything msc_cc_next_outgoing_callref) by (unfold msc_cc_next_outgoing_callref; keep).
  assert (S0 : acts steady msc_cc_next_outgoing_callref).
  { unfold msc_cc_next_outgoing_callref. act. apply acts_modify. intros. by apply steady_conns. }
  eapply wp_mono; [apply wp_and; [by apply (wp_keeps _ X nobody w K)|apply S0]|]. intros callref w0 [[Hok0 E0] S1].
  destruct (proj2 S1 c a Ha) as (a0 & Ha0 & Hs0 & _). rewrite <- Hs0 in Hacc.
  apply wp_bind, wp_alloc. intros s Hs. set (t := w_next_trans w0). set (w1 := alloc_world v TRANS_CC (r_tid rx) callref s w0).
  apply wp_bind, (wp_accept c w1 a0); [done|done|]. cbn [Z.eqb negb].
  set (w2 := set_state c MSC_A_ST_COMMUNICATING a0 w1). set (a2 := a0 <| a_state := MSC_A_ST_COMMUNICATING |>).
  assert (Ha2 : w_conns w2 !! c = Some a2) by apply lookup_insert_eq.
  apply wp_bind, (wp_get_pos dispatch c _ _ w2 a2 Ha2); [exact (ok_uses _ _ _ _ Hok0 c a0 Ha0)|].
  apply wp_bind, wp_mod_trans; [done|]. intros tr Ht.
  set (wb := set_state c MSC_A_ST_COMMUNICATING a0 w0).
  assert (Hokb : calls_ok X nobody no_debt wb) by (by apply set_state_ok).
  pose proof (alloc_attach_ok X v TRANS_CC (r_tid rx) callref (r_link_id rx) wb s c a2 Hokb Hs Ha2 eq_refl) as Hok4.
  assert (Htr : tr = new_trans (Some v) TRANS_CC (r_tid rx) callref (w_new_call_id w0)).
  { change (insert t (new_trans (Some v) TRANS_CC (r_tid rx) callref (w_new_call_id w0)) (w_trans w0) !! t = Some tr) in Ht.
    rewrite lookup_insert_eq in Ht. congruence. }
  set (w4 := add_use c MSC_A_USE_CC 1 a2 w2 <| w_trans ::= _ |>).
  apply (same_calls_ok _ _ _ _ w4) in Hok4.
  2:{ split_and!; [|done..]. subst tr. apply (insert_insert_eq (w_trans w0)). }
  assert (H4 : holds_kept w w4).
  { trans w0; [apply E0|]. trans wb; [by apply set_state_holds|].
    exact (ev_conns _ _ (add_use_holds wb c MSC_A_USE_CC 1 a2 Ha2 (func_not_trans TRANS_CC))). }
  assert (Hcall : call_on_conn t w4).
  { intros tr'. unfold w4. cbn. rewrite lookup_insert_eq. intros [= <-]. subst tr. cbn. eauto. }
  assert (Hof : of_vsub t w4).
  { intros tr'. unfold w4. cbn. rewrite lookup_insert_eq. intros [= <-]. subst tr. cbn. eauto. }
  destruct cm_service_plain as [Hf Hty].
  eapply (wp_pointwise _ _ (bind (bind (get_conn c) (fun a => when _ _)) (fun _ => rcv_cc_trans dispatch t rx))).
  { symmetry. apply bind_bind. }
  eapply wp_mono; [apply (keeps_bind (stable_and _ _ (call_on_conn_stable t) (of_vsub_stable t)) _ _ (keeps_any _ (keeps_put_if c _ Hf Hty))); [|exact Hok4|done]|].
  - intros _. apply keeps_rcv_cc_trans, every.
  - intros _ w5 [? E5]. split; [done|]. trans w4; [done|apply E5].
Qed.

Lemma rcv_cc_spec X c rx w a :
  calls_ok X nobody no_debt w -> w_conns w !! c = Some a -> conn_accepted (a_state a) = true -> 0 <= r_tid rx < 16 ->
  wp tolerated (gsm0408_rcv_cc dispatch c rx) (fun _ w' => calls_ok X nobody no_debt w' /\ holds_kept w w') w.
Proof using deep.
  intros Hok Ha Hacc Hid. unfold gsm0408_rcv_cc. apply wp_bind, wp_get_conn; [done|]. intros a' Ha'.
  rewrite Ha in Ha'. injection Ha' as <-. destruct (ok_vsub _ _ _ _ Hok c a Ha) as [v ->]. apply wp_bind.
  change (wp tolerated (gets ?f) ?Q w) with (Q (f w) w). cbv beta.
  destruct (trans_find_by_id (Some v) TRANS_CC (r_tid rx) w) as [t|] eqn:Hf; [|by apply (rcv_cc_new_spec X c v rx w a)].
  apply trans_find_Some in Hf as [_ (tr & Ht & Hp)]. apply andb_true_iff in Hp as [Hp Htid%Z.eqb_eq].
  apply andb_true_iff in Hp as [Hv%bool_decide_eq_true Hty%bool_decide_eq_true].
  eapply wp_mono; [apply (keeps_rcv_cc_trans dispatch every t rx X w Hok)|].
  - split; intros tr' Ht'; rewrite Ht in Ht'; injection Ht' as <-; [split; [done|]|rewrite Hv; eauto].
    destruct (t_msc_a tr) eqn:Hc; [eauto|]. pose proof (ok_tid _ _ _ _ Hok t tr Ht Hty Hc) as H255.
    unfold TRANS_ID_UNASSIGNED in H255. lia.
  - intros _ w' [? E]. split; [done|apply E].
Qed.

(** a message of the RAN: the connection is held meanwhile *)
Lemma ran_dec_spec X c m w a :
  calls_ok X nobody no_debt w -> w_conns w !! c = Some a ->
  (let w1 := add_use c "msc_a_ran_dec" 1 a w in
   calls_ok X nobody no_debt w1 -> held c w1 -> wp tolerated m (fun _ w' => calls_ok X nobody no_debt w' /\ holds_kept w1 w') w1) ->
  wp tolerated (msc_a_ran_dec n c m) (fun _ w' => calls_ok X nobody no_debt w') w.
Proof using deep.
  intros Hok Ha Hm. unfold msc_a_ran_dec. assert (Ht : "msc_a_ran_dec"%string ∈ func_tokens) by (do 4 right; by left).
  apply wp_bind, (wp_get dispatch c _ _ X nobody no_debt w a Hok Ha), wp_bind.
  eapply wp_mono; [apply Hm; [by apply hold_ok|by eapply hold_held]|]. intros _ w2 [Hok2 H2].
  apply (wp_hold_put dispatch c _ a w w2 X nobody no_debt); [done..|]. intros a2 Ha2 Hok3. split; [|done].
  eapply wp_mono; [by apply (every c MSC_A_EV_UNUSED X)|]. by intros _ w4 [? _].
Qed.

(** ** Calls to a subscriber *)

Lemma rx_sdp_unattached X t sdp bc w tr :
  calls_ok X nobody no_debt w -> w_trans w !! t = Some tr -> t_msc_a tr = None ->
  wp tolerated (rx_mncc_sdp dispatch t sdp bc)
    (fun _ w' => calls_ok X nobody no_debt w' /\ evolves w w' /\ same_state w w') w.
Proof using deep.
  intros Hok Ht Hc. unfold rx_mncc_sdp. apply wp_bind, wp_get_trans; [done|]. intros tr0 Ht0. rewrite Ht in Ht0.
  injection Ht0 as <-. rewrite Hc. apply wp_bind, wp_ret.
  apply wp_bind. eapply wp_mono; [apply (wp_step _ X nobody w); [keep|act|done]|]. intros _ w1 (Hok1 & E1 & S1).
  apply wp_bind, wp_get_trans; [done|]. intros tr1 Ht1.
  apply wp_bind. eapply wp_mono; [apply (wp_step _ X nobody w1); [keep|unfold trans_cc_set_remote_from_bc; act|done]|].
  intros _ w2 (Hok2 & E2 & S2). apply wp_bind.
  eapply wp_mono; [apply (wp_step _ X nobody w2); [keep|unfold trans_cc_filter_run, trans_is_live; act|done]|].
  intros _ w3 (Hok3 & E3 & S3). apply wp_bind, wp_get_trans; [done|]. intros tr3 Ht3.
  assert (E : evolves w w3) by (trans w1; [done|by trans w2]).
  assert (SS : same_state w w3) by (trans w1; [done|by trans w2]).
  assert (Hc3 : t_msc_a tr3 = None).
  { destruct (ev_trans _ _ E t tr3 Ht3) as (tr' & Ht' & _ & -> & _). naive_solver congruence. }
  rewrite Hc3. apply wp_bind, wp_ret. cbv zeta.
  repeat match goal with |- wp _ (if ?b then _ else _) _ _ => destruct b | |- wp _ (match ?x with _ => _ end) _ _ => destruct x end;
    try (by apply wp_ret; split_and!); by apply wp_bind, wp_deref.
Qed.

(** a transaction gets its connection *)
Lemma attach_ok X Y D D' w t f tr c a :
  calls_ok X Y D w -> w_trans w !! t = Some tr -> t_msc_a tr = None ->
  w_conns w !! c = Some a -> conn_accepted (a_state a) = true ->
  t_type (f tr) = t_type tr -> t_freeing (f tr) = t_freeing tr -> t_msc_a (f tr) = Some c ->
  (forall c' ty, D' c' ty = D c' ty - debt (Some c) (t_type tr) 1 c' ty) ->
  calls_ok X Y D' (w <| w_trans ::= insert t (f tr) |>).
Proof.
  intros [O1 O2 O3 O4 O5 O6 O7 O8 O9 O10 O11 O12] Ht Hc Ha Hacc F1 F2 F3 HD. split; cbn; try done.
  - intros u. rewrite O2, lookup_insert_is_Some. destruct (decide (t = u)) as [->|]; [|naive_solver].
    rewrite Ht. naive_solver.
  - intros u tr' [[<- <-]|[? Hu]]%lookup_insert_Some; eauto.
  - intros u tr' [[<- <-]|[? Hu]]%lookup_insert_Some; [|eauto]. rewrite F2. eauto.
  - intros u tr' [[<- <-]|[? Hu]]%lookup_insert_Some; [congruence|eauto].
  - intros u tr' c' [[<- <-]|[? Hu]]%lookup_insert_Some; [|eauto]. rewrite F3. intros [= <-]. exists a. split; [done|].
    right. unfold closing. by rewrite Hacc.
  - intros c' b ty Hb. rewrite (O9 c' b ty Hb), HD. unfold trans_count. cbn. rewrite (msum_insert _ _ _ _ _ Ht).
    unfold on_conn_of, debt. rewrite F1, F3, Hc. repeat case_decide; naive_solver lia.
  - intros c' b u Hb Hu. destruct (O11 c' b u Hb Hu) as (tr' & H1 & H2 & H3). exists tr'. split; [|done].
    rewrite lookup_insert_ne; [done|]. naive_solver congruence.
Qed.

Lemma put_tx_spec X v w s (Q : unit -> cc_world -> Prop) :
  calls_ok X nobody no_debt w -> w_vsubs w !! v = Some s -> 0 < use_by (sb_uses s) USE_MNCC_TX ->
  (forall w', calls_ok X nobody no_debt w' -> w_trans w' = w_trans w -> Q tt w') ->
  wp tolerated (vlr_subscr_put v USE_MNCC_TX) Q w.
Proof.
  intros Hok Hs Hu HQ. unfold vlr_subscr_put. apply wp_bind, wp_get_vsub; [done|]. intros s' Hs'. rewrite Hs in Hs'.
  injection Hs' as <-. destruct (Z.leb_spec (use_by (sb_uses s) USE_MNCC_TX) 0); [lia|].
  apply wp_mod_vsub; [done|]. intros s' Hs'. rewrite Hs in Hs'. injection Hs' as <-. apply HQ; [|done].
  apply (mod_vsub_ok _ _ _ w v (fun s => s <| sb_uses ::= use_add USE_MNCC_TX (-1) |>) s Hok Hs).
  apply (uses_pos_add _ _ (sb_uses s)); [by apply (ok_vsub_uses _ _ _ _ Hok v s)|]. lia.
Qed.

Definition outcome_ok (X : nat -> Prop) (r : Z + nat) (w : cc_world) : Prop :=
  calls_ok X nobody no_debt w /\ forall t, r = inr t -> is_call t w.

(** the second half of mncc_new_call: a transaction for the call *)
Definition new_call_trans (data : gsm_mncc) (v : nat) (oc : option nat) : M (Z + nat) :=
  ot <- trans_alloc (Some v) TRANS_CC TRANS_ID_UNASSIGNED (m_callref data) ;;
  match ot with
  | None => vlr_subscr_put v USE_MNCC_TX ;;
            mncc_release_ind None (m_callref data) GSM48_CAUSE_LOC_PRN_S_LU GSM48_CC_CAUSE_RESOURCE_UNAVAIL ;;
            ret (inl (- ENOMEM))
  | Some t =>
      rx_mncc_sdp dispatch t (m_sdp data) (mncc_bcap data) ;;
      match oc with
      | None =>
          emit (OutMnccRx t (m_msg_type data)) ;;
          mod_trans t (fun tr => tr <| t_msg := data |>) ;;
          emit (OutCdrSetup t data) ;;
          emit (OutPage v t) ;;
          failed <- ask ;;
          (if failed =? 0 then mod_trans t (fun tr => tr <| t_paging_request := true |>)
           else trans_free dispatch t) ;;
          vlr_subscr_put v USE_MNCC_TX ;;
          ret (inl 0)
      | Some c =>
          mod_trans t (fun tr => tr <| t_msc_a := Some c |> <| t_dlci := 0 |>) ;;
          msc_a_get dispatch c MSC_A_USE_CC ;;
          vlr_subscr_put v USE_MNCC_TX ;;
          ret (inr t)
      end
  end.

Lemma new_call_trans_spec X data v oc w s :
  calls_ok X nobody no_debt w -> w_vsubs w !! v = Some s -> 0 < use_by (sb_uses s) USE_MNCC_TX ->
  (forall c, oc = Some c -> exists a, w_conns w !! c = Some a /\ conn_accepted (a_state a) = true) ->
  wp tolerated (new_call_trans data v oc) (outcome_ok X) w.
Proof using deep.
  intros Hok Hs Hu Hacc. unfold new_call_trans. apply wp_bind, wp_alloc. intros s0 Hs0. rewrite Hs in Hs0.
  injection Hs0 as <-. set (t := w_next_trans w). set (w1 := alloc_world v TRANS_CC TRANS_ID_UNASSIGNED (m_callref data) s w).
  set (tr := new_trans (Some v) TRANS_CC TRANS_ID_UNASSIGNED (m_callref data) (w_new_call_id w)).
  assert (Ht : w_trans w1 !! t = Some tr) by apply lookup_insert_eq.
  assert (Hok1 : calls_ok X nobody no_debt w1).
  { apply (same_calls_ok X nobody no_debt (alloc_vsub v TRANS_CC s (insert_trans tr w))); [done|].
    apply alloc_vsub_ok; [|done]. apply (insert_trans_ok X no_debt); try done. intros c ty. unfold on_conn_of. cbn.
    rewrite decide_False; [done|]. naive_solver. }
  assert (Hs1 : exists s1, w_vsubs w1 !! v = Some s1 /\ 0 < use_by (sb_uses s1) USE_MNCC_TX).
  { eexists. split; [apply lookup_insert_eq|]. change (0 < use_by (use_add (trans_vsub_use TRANS_CC) 1 (sb_uses s)) USE_MNCC_TX).
    rewrite use_by_add, decide_False; [lia|]. apply vsub_token_ne. }
  destruct Hs1 as (s1 & Hs1 & Hu1).
  apply wp_bind. eapply wp_mono; [by apply (rx_sdp_unattached X t _ _ w1 tr)|]. intros _ w2 (Hok2 & E2 & S2).
  destruct (ev_vsubs _ _ E2 v s1 Hs1) as (s2 & Hs2 & Hu2). rewrite <- Hu2 in Hu1.
  destruct oc as [c|].
  - destruct (Hacc c eq_refl) as (a & Ha & Hst). destruct (S2 c a Ha) as (a2 & Ha2 & Hst2 & _). rewrite <- Hst2 in Hst.
    apply wp_bind, wp_mod_trans; [done|]. intros tr2 Ht2.
    destruct (ev_trans _ _ E2 t tr2 Ht2) as (tr1 & Ht1 & Hty & Hc & _). rewrite Ht in Ht1. injection Ht1 as <-.
    set (f := fun tr : gsm_trans => tr <| t_msc_a := Some c |> <| t_dlci := 0 |>).
    assert (Hok3 : calls_ok X nobody (debt (Some c) TRANS_CC (-1)) (w2 <| w_trans ::= insert t (f tr2) |>)).
    { eapply (attach_ok X nobody no_debt _ w2 t f tr2 c a2); try done. intros c' ty. rewrite Hty. unfold debt, no_debt, tr. cbn.
      case_decide; done. }
    apply wp_bind, (wp_get dispatch c _ _ X nobody _ _ a2 Hok3 Ha2).
    pose proof (ok_uses _ _ _ _ Hok2 c a2 Ha2 MSC_A_USE_CC) as Hp.
    assert (Hok4 : calls_ok X nobody no_debt (add_use c MSC_A_USE_CC 1 a2 (w2 <| w_trans ::= insert t (f tr2) |>))).
    { apply (add_use_trans X nobody TRANS_CC _ c (-1) 1 a2 Hok3 Ha2); [|done]. cbn [trans_usage_token]. lia. }
    apply wp_bind, (put_tx_spec X v _ s2 _ Hok4 Hs2); [done|]. intros w5 Hok5 Hw5. apply wp_ret. split; [done|].
    intros t' [= <-] tr'. rewrite Hw5. cbn. rewrite lookup_insert_eq. by intros [= <-].
  - match goal with |- wp _ (bind ?m1 (fun _ => bind ?m2 (fun _ => bind ?m3 (fun _ => bind ?m4 (fun _ => bind ask ?k))))) _ _ =>
      eapply (wp_pointwise _ _ (bind (bind m1 (fun _ => bind m2 (fun _ => bind m3 (fun _ => m4)))) (fun _ => bind ask k))) end.
    { reassoc. }
    apply wp_bind. eapply wp_mono; [apply (wp_keeps _ X nobody w2); [keep|done]|]. intros _ w3 [Hok3 E3].
    apply wp_bind. eapply wp_mono; [apply (wp_keeps _ X nobody w3); [keep|done]|]. intros failed w4 [Hok4 E4].
    apply wp_bind. pose proof (fun t => keeps_free' dispatch every t).
    eapply wp_mono; [apply (wp_keeps _ X nobody w4); [keep|done]|]. intros _ w5 [Hok5 E5].
    assert (E : evolves w2 w5) by (trans w3; [done|by trans w4]).
    destruct (ev_vsubs _ _ E v s2 Hs2) as (s5 & Hs5 & Hu5). rewrite <- Hu5 in Hu1.
    apply wp_bind, (put_tx_spec X v w5 s5 _ Hok5 Hs5 Hu1). intros w6 Hok6 _. apply wp_ret. by split.
Qed.

Lemma keeps_reject r cause :
  keeps nobody anything (rc <- mncc_release_ind None r GSM48_CAUSE_LOC_PRN_S_LU cause ;; ret (inl (B := nat) rc)).
Proof. keep. Qed.
Lemma wp_reject X r cause w :
  calls_ok X nobody no_debt w ->
  wp tolerated (rc <- mncc_release_ind None r GSM48_CAUSE_LOC_PRN_S_LU cause ;; ret (inl rc)) (outcome_ok X) w.
Proof.
  intros Hok. apply wp_bind. eapply wp_mono; [apply (wp_keeps _ X nobody w); [keep|done]|].
  intros rc w' [? _]. by apply wp_ret.
Qed.

(** the connection that msc_a_for_vsub finds is accepted *)
Lemma for_vsub_accepted v w :
  wp tolerated (msc_a_for_vsub v)
    (fun oc w' => w' = w /\ forall c, oc = Some c -> exists a, w_conns w !! c = Some a /\ conn_accepted (a_state a) = true) w.
Proof.
  unfold msc_a_for_vsub. apply wp_bind, wp_get_vsub; [done|]. intros s Hs. destruct (sb_conn s) as [c|]; [|by apply wp_ret].
  apply wp_bind, wp_get_conn; [done|]. intros a Ha. apply wp_ret. split; [done|]. intros c' Hc.
  destruct (a_state a) eqn:Hst; try discriminate; injection Hc as <-; exists a; by rewrite Hst.
Qed.

Definition busy_with_call (oc : option nat) : M bool :=
  match oc with
  | Some c => a <- get_conn c ;;
              existing <- gets (trans_find_by_type (a_vsub a) TRANS_CC) ;;
              match existing with
              | Some e => tr <- get_trans e ;; ret (negb (bool_decide (t_state tr = GSM_CSTATE_NULL)))
              | None => ret false
              end
  | None => ret false
  end.
Lemma busy_reads oc w : wp tolerated (busy_with_call oc) (fun _ w' => w' = w) w.
Proof.
  unfold busy_with_call. destruct oc as [c|]; [|by apply wp_ret]. apply wp_bind, wp_get_conn; [done|]. intros a Ha.
  apply wp_bind. change (wp tolerated (gets ?f) ?Q w) with (Q (f w) w). cbv beta. case_match; [|by apply wp_ret].
  apply wp_bind, wp_get_trans; [done|]. intros tr Ht. by apply wp_ret.
Qed.

Lemma mncc_new_call_spec X data w : calls_ok X nobody no_debt w -> wp tolerated (mncc_new_call dispatch data) (outcome_ok X) w.
Proof using deep.
  intros Hok. unfold mncc_new_call. case_match; [by apply wp_reject|]. case_match; [by apply wp_reject|].
  apply wp_bind. change (wp tolerated (gets ?f) ?Q w) with (Q (f w) w). cbv beta.
  destruct (vlr_subscr_find _ w) as [v|]; [|by apply wp_reject].
  apply wp_bind, wp_mod_vsub; [done|]. intros s Hs.
  set (f := fun s : cc_vsub => s <| sb_uses ::= use_add USE_MNCC_TX 1 |>). change (fun s : cc_vsub => s <| sb_uses ::= _ |>) with f.
  set (w1 := w <| w_vsubs ::= insert v (f s) |>). pose proof (ok_vsub_uses _ _ _ _ Hok v s Hs) as Hp.
  assert (Hok1 : calls_ok X nobody no_debt w1).
  { apply (mod_vsub_ok _ _ _ w v f s Hok Hs). apply (uses_pos_add _ _ (sb_uses s) Hp). specialize (Hp USE_MNCC_TX). lia. }
  assert (Hs1 : w_vsubs w1 !! v = Some (f s)) by apply lookup_insert_eq.
  assert (Hu1 : 0 < use_by (sb_uses (f s)) USE_MNCC_TX).
  { change (0 < use_by (use_add USE_MNCC_TX 1 (sb_uses s)) USE_MNCC_TX). rewrite use_by_add, decide_True by done.
    specialize (Hp USE_MNCC_TX). lia. }
  apply wp_bind, wp_get_vsub; [done|]. intros s' Hs'. change (w_vsubs w1 !! v = Some s') in Hs'. rewrite Hs1 in Hs'. injection Hs' as <-. case_match.
  { apply wp_bind, (put_tx_spec X v w1 (f s) _ Hok1 Hs1 Hu1). intros w2 Hok2 _. by apply wp_reject. }
  apply wp_bind. eapply wp_mono; [apply for_vsub_accepted|]. intros oc w' [-> Hacc].
  apply wp_bind. change (wp tolerated (gets ?f) ?Q w1) with (Q (f w1) w1). cbv beta.
  apply wp_bind. eapply wp_mono; [apply (busy_reads oc w1)|]. intros busy w' ->.
  case_match; [by apply wp_reject|]. by apply (new_call_trans_spec X data v oc w1 (f s)).
Qed.

Lemma mncc_tx_spec X m w :
  calls_ok X nobody no_debt w -> wp tolerated (mncc_tx_to_gsm_cc dispatch m) (fun _ w' => calls_ok X nobody no_debt w') w.
Proof using deep.
  intros Hok. assert (K : forall A (m : M A), keeps nobody anything m -> wp tolerated m (fun _ w' => calls_ok X nobody no_debt w') w).
  { intros A m' Hm. eapply wp_mono; [by apply (wp_keeps m' X nobody w)|]. naive_solver. }
  assert (T : forall t data w1, calls_ok X nobody no_debt w1 -> is_call t w1 ->
            wp tolerated (mncc_tx_trans dispatch t data) (fun _ w' => calls_ok X nobody no_debt w') w1).
  { intros t data w1 Hok1 Hc. eapply wp_mono; [by apply (keeps_mncc_tx_trans dispatch every t data X w1)|]. naive_solver. }
  unfold mncc_tx_to_gsm_cc. destruct m as [data|c0 c1|rtp].
  - case_match; [by apply wp_ret|]. apply wp_bind. change (wp tolerated (gets ?f) ?Q w) with (Q (f w) w). cbv beta.
    destruct (trans_find_by_callref _ _ w) as [t|] eqn:Hf.
    + apply T; [done|]. apply find_callref_call in Hf as (tr & Ht & Hty). intros tr' Ht'. congruence.
    + apply wp_bind. eapply wp_mono; [by apply mncc_new_call_spec|]. intros [rc|t] w1 [Hok1 Hc]; [by apply wp_ret|].
      by apply T; [|apply Hc].
  - apply K. pose proof keeps_tch_bridge. pose proof keeps_disconnect_bridge. keep.
  - apply K. pose proof (keeps_tch_rtp_create dispatch every). pose proof (keeps_tch_rtp_connect dispatch every). keep.
Qed.

(** ** Paging *)

Lemma paging_cb_spec X t oc w :
  calls_ok X nobody no_debt w -> is_call t w ->
  (forall c, oc = Some c -> exists a, w_conns w !! c = Some a /\ conn_accepted (a_state a) = true) ->
  wp tolerated (cc_paging_cb dispatch t oc) (fun _ w' => calls_ok X nobody no_debt w') w.
Proof using deep.
  intros Hok Hcall Hacc. pose proof (keeps_free' dispatch every) as HF.
  assert (K : forall (m : M unit) w, keeps nobody anything m -> calls_ok X nobody no_debt w ->
            wp tolerated m (fun _ w' => calls_ok X nobody no_debt w') w).
  { intros m' w' Hm Hok'. eapply wp_mono; [by apply (wp_keeps m' X nobody w')|]. naive_solver. }
  unfold cc_paging_cb. apply wp_bind, wp_get_trans; [done|]. intros tr Ht. specialize (Hcall tr Ht).
  destruct (t_msc_a tr) eqn:Hc; [by apply wp_ret|]. destruct oc as [c|]; [|by apply K; [keep|]].
  destruct (Hacc c eq_refl) as (a & Ha & Hst). apply wp_bind, (wp_get dispatch c _ _ X nobody _ w a Hok Ha).
  set (w1 := add_use c MSC_A_USE_CC 1 a w). set (a1 := a <| a_uses ::= use_add MSC_A_USE_CC 1 |>).
  pose proof (ok_uses _ _ _ _ Hok c a Ha MSC_A_USE_CC) as Hp.
  assert (Hok1 : calls_ok X nobody (debt (Some c) TRANS_CC 1) w1).
  { apply (add_use_ok X nobody no_debt _ w c _ 1 a Hok Ha); [lia|..]; unfold debt, no_debt.
    - intros ty. destruct (decide (TRANS_CC = ty)) as [<-|].
      + by rewrite !decide_True.
      + rewrite !decide_False; [done| |naive_solver]. by intros ?%(inj trans_usage_token TRANS_CC ty).
    - intros ty c' Hne. rewrite decide_False; [done|]. naive_solver. }
  apply wp_bind, wp_mod_trans; [done|]. intros tr' Ht'. change (w_trans w !! t = Some tr') in Ht'. rewrite Ht in Ht'.
  injection Ht' as <-. set (f := fun tr : gsm_trans => tr <| t_msc_a := Some c |> <| t_paging_request := false |>).
  set (w2 := w1 <| w_trans ::= _ |>).
  assert (Hok2 : calls_ok X nobody no_debt w2).
  { apply (attach_ok X nobody (debt (Some c) TRANS_CC 1) no_debt w1 t f tr c a1 Hok1 Ht Hc); try done.
    - apply lookup_insert_eq.
    - intros c' ty. rewrite Hcall. unfold debt, no_debt. case_decide; lia. }
  assert (Hcall2 : call_on_conn t w2).
  { intros tr'. unfold w2. cbn. rewrite lookup_insert_eq. intros [= <-]. cbn. eauto. }
  match goal with |- wp _ ?m _ _ => enough (KK : keeps nobody (call_on_conn t) m) end.
  { eapply wp_mono; [by apply KK|]. naive_solver. }
  pose proof (fun t m => keeps_tx_setup dispatch every t m). keep.
Qed.

(** ** The end of a connection *)

Lemma closing_no_trans w c a :
  in_order w -> w_conns w !! c = Some a -> closing (a_state a) = true -> no_trans c w.
Proof.
  intros Hok Ha Hcl t tr Ht Hc. destruct (attached_conn _ _ _ _ _ _ _ _ Hok Ht Hc Ha) as [[]|]. congruence.
Qed.
Lemma no_trans_add_use c c' tok m a w : no_trans c w -> no_trans c (add_use c' tok m a w).
Proof. done. Qed.

Lemma quiet_unused' c w a (Q : Z -> cc_world -> Prop) :
  w_conns w !! c = Some a -> quiet_state (a_state a) -> (forall z, Q z w) -> wp tolerated (dispatch c MSC_A_EV_UNUSED) Q w.
Proof using deep. destruct n as [|m]; [lia|]. apply dispatch_quiet_unused. Qed.

(** the wait for the answer to a Clear Command ends *)
Lemma cleared_spec c w a :
  in_order w -> w_conns w !! c = Some a -> a_state a = MSC_A_ST_RELEASING ->
  let z := use_by (a_uses a) MSC_A_USE_WAIT_CLEAR_COMPLETE in
  wp tolerated (when (negb (z =? 0)) (msc_a_use dispatch c MSC_A_USE_WAIT_CLEAR_COMPLETE (- z)))
    (fun _ w' => in_order w' /\ evolves w w' /\ no_trans c w' /\ exists a', w_conns w' !! c = Some a' /\ a_state a' = MSC_A_ST_RELEASING) w.
Proof using deep.
  intros Hok Ha Hs z. assert (Hno : no_trans c w) by (eapply closing_no_trans; eauto; by rewrite Hs).
  destruct wait_not_special as [Hf Hty]. destruct (Z.eqb_spec z 0); cbn [negb when]; [apply wp_ret; split_and!; [done|reflexivity|done|by eauto]|].
  apply (wp_use_calm dispatch quiet_unused' c _ _ _ nobody nobody no_debt w a Hok Ha); [unfold z; lia|done|by right; left|].
  split_and!; [by apply add_use_other; [..|unfold z; lia|]|by apply add_use_holds|done|].
  eexists. split; [apply lookup_insert_eq|done].
Qed.

Lemma clear_complete_spec c w a :
  in_order w -> w_conns w !! c = Some a ->
  wp tolerated (msc_a_clear_complete n c) (fun _ w' => in_order w' /\ holds_kept w w') w.
Proof using deep.
  intros Hok Ha. unfold msc_a_clear_complete. apply wp_bind, wp_get_conn; [done|]. intros a' Ha'. rewrite Ha in Ha'.
  injection Ha' as <-.
  assert (R : wp tolerated (msc_a_fsm_releasing_start dispatch c) (fun _ w' => in_order w' /\ holds_kept w w') w).
  { assert (HT : forall c w a (Q : Z -> cc_world -> Prop), w_conns w !! c = Some a -> a_state a = MSC_A_ST_RELEASING ->
              (forall z, Q z (w <| w_conns ::= insert c (a <| a_call_leg := None |>) |>)) ->
              wp tolerated (dispatch c MSC_EV_CALL_LEG_TERM) Q w).
    { destruct n as [|m]; [lia|]. apply dispatch_quiet_term. }
    eapply wp_mono; [by apply (keeps_releasing_start dispatch quiet_unused' HT c nobody)|].
    intros _ w' [? E]. split; [done|apply E]. }
  destruct (a_state a) eqn:Hs; try done; try by apply wp_ret.
  cbv zeta. apply wp_bind. eapply wp_mono; [by apply cleared_spec|]. intros _ w1 (Hok1 & E1 & Hno & a1 & Ha1 & _).
  eapply wp_mono; [by apply (released_rest dispatch quiet_unused' nobody c w1 a1)|]. intros _ w2 [? E2].
  split; [done|]. trans w1; [apply E1|apply E2].
Qed.

Lemma conn_timer_spec c w a :
  in_order w -> w_conns w !! c = Some a ->
  wp tolerated (msc_a_fsm_timer_cb dispatch c) (fun _ w' => in_order w') w.
Proof using deep.
  intros Hok Ha. unfold msc_a_fsm_timer_cb. apply wp_bind, wp_get_conn; [done|]. intros a' Ha'. rewrite Ha in Ha'.
  injection Ha' as <-.
  assert (CL' : wp tolerated (dispatch c MSC_A_EV_CN_CLOSE ;; ret tt) (fun _ w' => in_order w') w).
  { apply wp_bind. eapply wp_mono; [by apply (every c MSC_A_EV_CN_CLOSE nobody)|]. intros z w' [? _]. by apply wp_ret. }
  destruct (a_state a) eqn:Hs; try exact CL'.
  - cbv zeta. apply wp_bind. eapply wp_mono; [by apply cleared_spec|]. intros _ w1 (Hok1 & E1 & Hno & a1 & Ha1 & Hs1).
    apply wp_bind, wp_get_conn; [done|]. intros a2 Ha2. unfold when. case_match; [|by apply wp_ret].
    eapply wp_mono; [by apply (released_rest dispatch quiet_unused' nobody c w1 a1)|]. naive_solver.
  - assert (Ht : "msc_a_fsm_timer_cb"%string ∈ func_tokens) by (do 3 right; by left).
    assert (Hno : no_trans c w) by (eapply closing_no_trans; eauto; by rewrite Hs).
    apply wp_bind, (wp_get dispatch c _ _ nobody nobody no_debt w a Hok Ha). set (w1 := add_use c _ 1 a w).
    assert (Hok1 : in_order w1) by (by apply hold_ok). apply wp_bind. unfold msc_a_cancel_release_uses.
    eapply wp_mono; [eapply (cancel_uses_spec dispatch quiet_unused' c _ nobody w1); [done|done|apply lookup_insert_eq|left|apply release_tokens]|].
    { by eapply hold_held. }
    intros _ w2 (Hok2 & E2 & _). apply wp_bind, wp_get_conn; [done|]. intros a2 _.
    assert (P : forall Q : cc_world -> Prop, (forall w', in_order w' -> Q w') ->
              wp tolerated (msc_a_put dispatch c "msc_a_fsm_timer_cb") (fun _ => Q) w2).
    { intros Q HQ. apply (wp_hold_put dispatch c _ a w w2 nobody nobody no_debt); [done|done|apply E2|done|done|].
      intros a3 Ha3 Hok3. split; [|by apply HQ].
      eapply wp_mono; [by apply (every c MSC_A_EV_UNUSED nobody)|]. intros _ w' [? _]. by apply HQ. }
    case_match; [|by apply P]. apply wp_bind. apply P. intros w' Hok'.
    eapply wp_mono; [by apply (keeps_msc_a_term dispatch quiet_unused' c nobody)|]. naive_solver.
Qed.

(** ** What the rest of the program does *)

Lemma new_conn_ok w c a :
  in_order w -> w_conns w !! c = None -> a_active_trans a = None -> a_call_leg a = None -> is_Some (a_vsub a) ->
  uses_pos (a_uses a) -> (forall ty, use_by (a_uses a) (trans_usage_token ty) = 0) ->
  in_order (w <| w_conns ::= insert c a |>).
Proof.
  intros Hok Hn Hact Hl Hv Hp Hz. assert (Hno : no_trans c w).
  { intros t tr Ht Hc. destruct (ok_attached _ _ _ _ Hok t tr c Ht Hc) as (a' & Ha' & _). congruence. }
  destruct Hok as [O1 O2 O3 O4 O5 O6 O7 O8 O9 O10 O11 O12]. split; cbn; try done.
  - intros t tr c' Ht Hc. destruct (O6 t tr c' Ht Hc) as (a' & Ha' & Hs). exists a'. split; [|done].
    rewrite lookup_insert_ne; [done|]. congruence.
  - intros c' a' [[<- <-]|[_ Ha']]%lookup_insert_Some; eauto.
  - intros c' a' ty [[<- <-]|[_ Ha']]%lookup_insert_Some; [|by apply O9].
    rewrite Hz. change (trans_count ty c (w <| w_conns ::= _ |>)) with (trans_count ty c w).
    by rewrite (no_trans_count c w ty Hno).
  - intros c' a' [[<- <-]|[_ Ha']]%lookup_insert_Some; eauto.
  - intros c' a' t [[<- <-]|[_ Ha']]%lookup_insert_Some; [congruence|eauto].
  - intros c' a' l [[<- <-]|[_ Ha']]%lookup_insert_Some; [congruence|eauto].
Qed.

Lemma other_trans_spec v c ty id callref w a :
  in_order w -> w_conns w !! c = Some a -> conn_accepted (a_state a) = true ->
  wp tolerated (run n (EvOtherTrans v c ty id callref)) (fun _ w' => in_order w') w.
Proof.
  intros Hok Ha Hacc. cbn [run]. apply wp_bind, wp_alloc. intros s Hs. set (t := w_next_trans w).
  apply wp_bind, (wp_get_pos _ c _ _ (alloc_world v ty id callref s w) a Ha); [exact (ok_uses _ _ _ _ Hok c a Ha)|].
  apply wp_mod_trans; [done|]. intros tr Ht.
  assert (Htr : tr = new_trans (Some v) ty id callref (w_new_call_id w)).
  { change (insert t (new_trans (Some v) ty id callref (w_new_call_id w)) (w_trans w) !! t = Some tr) in Ht.
    rewrite lookup_insert_eq in Ht. congruence. }
  pose proof (alloc_attach_ok nobody v ty id callref 0 w s c a Hok Hs Ha Hacc) as Hok4.
  eapply same_calls_ok; [|exact Hok4]. split_and!; [|done..]. subst tr. apply (insert_insert_eq (w_trans w)).
Qed.

Lemma free_vsub_spec find k : forall w,
  (forall w t, find w = Some t -> is_Some (w_trans w !! t)) -> in_order w -> (length (w_trans_list w) <= k)%nat ->
  wp tolerated (free_all dispatch find k) (fun _ w' => in_order w') w.
Proof using deep.
  induction k as [|k IH]; intros w Hfind Hok Hlen; cbn [free_all];
    apply wp_bind; change (wp tolerated (gets ?f) ?Q w) with (Q (f w) w); cbv beta;
    destruct (find w) as [t|] eqn:Hf; try (by apply wp_ret); destruct (Hfind w t Hf) as [tr Ht].
  - pose proof (listed nobody w t tr Hok Ht) as Hin. destruct (w_trans_list w); [by apply not_elem_of_nil in Hin|cbn in Hlen; lia].
  - apply wp_bind. eapply wp_mono; [apply (trans_free_shrinks dispatch (fun c => every c _) nobody t w tr Hok Ht)|].
    intros _ w1 (Hok1 & _ & L1). apply IH; [done|done|lia].
Qed.

Lemma on_conn_true w c p : on_conn w c p = true -> exists a, w_conns w !! c = Some a /\ p a = true.
Proof. unfold on_conn. destruct (w_conns w !! c); [eauto|done]. Qed.
Lemma on_trans_true w t p : on_trans w t p = true -> exists tr, w_trans w !! t = Some tr /\ p tr = true.
Proof. unfold on_trans. destruct (w_trans w !! t); [eauto|done]. Qed.
Lemma other_token tok : tok ∉ call_tokens -> forall ty, tok <> trans_usage_token ty.
Proof. intros H ty ->. apply H. unfold call_tokens. destruct ty; apply elem_of_app; right; cbn; set_solver. Qed.
Lemma call_token_zero a ty :
  forallb (fun tok => use_by (a_uses a) tok =? 0) call_tokens = true -> use_by (a_uses a) (trans_usage_token ty) = 0.
Proof.
  intros H. rewrite forallb_forall in H. apply Z.eqb_eq, H, list_elem_of_In. unfold call_tokens.
  destruct ty; apply elem_of_app; right; cbn; set_solver.
Qed.
Lemma keeps_in_order {A} (m : M A) w : keeps nobody anything m -> in_order w -> wp tolerated m (fun _ => in_order) w.
Proof. intros K Hok. eapply wp_mono; [by apply (wp_keeps m nobody nobody w)|]. by intros _ w' [? _]. Qed.
Lemma keeps_ran_dec c m w a :
  keeps nobody anything m -> in_order w -> w_conns w !! c = Some a -> wp tolerated (msc_a_ran_dec n c m) (fun _ => in_order) w.
Proof using deep.
  intros K Hok Ha. eapply ran_dec_spec; [done..|]. intros w1 Hok1 _. eapply wp_mono; [by apply (wp_keeps m nobody nobody w1)|].
  intros _ w' [? E]. split; [done|apply E].
Qed.
Lemma uses_pos_map m : map_Forall (fun _ x => 0 <= x) m -> uses_pos m.
Proof. intros H tok. unfold use_by. destruct (m !! tok) eqn:E; [by apply (H tok)|done]. Qed.


(** the events that are about calls and what they use *)
Definition call_event (ev : cc_event) : bool :=
  match ev with
  | EvDtap _ _ | EvPagingOk _ _ | EvPagingExpired _ | EvClearComplete _ | EvConnTimer _
  | EvConn _ _ _ | EvUse _ _ | EvUnuse _ _ | EvOtherTrans _ _ _ _ _ | EvVsub _ _ | EvFreeVsub _ | EvMncc _ => false
  | _ => true
  end.
Lemma call_event_in_order ev w :
  call_event ev = true -> in_order w -> enabled ev w = true -> wp tolerated (run n ev) (fun _ => in_order) w.
Proof using deep.
  intros Hc Hok Hen. pose proof (keeps_free' dispatch every) as HF.
  destruct ev; try discriminate; cbn [run enabled] in *;
    try (apply on_conn_true in Hen as (a & Ha & _));
    try (eapply keeps_ran_dec; [|done|exact Ha]); try (apply keeps_in_order; [|done]).
  - pose proof (keeps_cc_timeout dispatch every t). keep.
  - pose proof (keeps_guard_timeout dispatch every t). keep.
  - apply (keeps_rtp_dispatch dispatch every).
  - apply (keeps_rtp_term dispatch every).
  - apply (keeps_leg_dispatch dispatch every).
  - apply (keeps_leg_timer dispatch every).
  - apply (keeps_assignment_complete dispatch every).
  - apply (keeps_assignment_failure dispatch every).
  - pose proof (keeps_assignment_failure dispatch every c false). keep.
  - keep.
  - keep.
  - apply HF.
  - keep.
Qed.

Lemma use_event_in_order c tok k w a :
  in_order w -> w_conns w !! c = Some a -> tok ∉ call_tokens -> 0 <= use_by (a_uses a) tok + k ->
  wp tolerated (msc_a_use dispatch c tok k) (fun _ => in_order) w.
Proof using deep.
  intros Hok Ha Ht Hk. pose proof (add_use_other nobody nobody no_debt w c tok k a Hok Ha Hk (other_token tok Ht)) as Hok1.
  apply (wp_use dispatch c tok k _ w a Ha Hk); intros _; [|done]. by apply keeps_in_order; [apply every|].
Qed.

Lemma conn_event_in_order v c a w :
  in_order w -> enabled (EvConn v c a) w = true -> wp tolerated (run n (EvConn v c a)) (fun _ => in_order) w.
Proof.
  intros Hok Hen. cbn [run enabled] in *. repeat (apply andb_true_iff in Hen as [Hen ?]). rename H into Hpos.
  apply wp_bind, wp_modify. apply keeps_in_order; [by apply keeps_mod_vsub|].
  repeat match goal with H : _ = true |- _ => first [apply bool_decide_eq_true in H | apply negb_true_iff in H] end.
  apply new_conn_ok; try done.
  - by apply uses_pos_map.
  - intros ty. by apply call_token_zero.
Qed.

Lemma run_in_order ev w : in_order w -> enabled ev w = true -> wp tolerated (run n ev) (fun _ => in_order) w.
Proof using deep.
  intros Hok Hen. destruct (call_event ev) eqn:Hc; [by apply call_event_in_order|].
  destruct ev as [c rx|m|t|t|t c|t|l d ev|l d|l|l|c ac|c|c|c|c|c|c|v c a|c tok|c tok|v c ty id r|t|v s|v|l];
    try discriminate; cbn [run].
  - cbn [enabled] in Hen. apply andb_true_iff in Hen as [Hen H2%Z.ltb_lt]. apply andb_true_iff in Hen as [Hen H1%Z.leb_le].
    apply on_conn_true in Hen as (a & Ha & Hacc). eapply ran_dec_spec; [done..|]. intros w1 Hok1 _. apply wp_bind.
    eapply wp_mono; [eapply rcv_cc_spec; [done|apply lookup_insert_eq|done|lia]|]. done.
  - apply wp_bind. eapply wp_mono; [by apply mncc_tx_spec|]. done.
  - apply on_trans_true in Hen as (tr & Ht & Hp). apply andb_true_iff in Hp as [Hp Hcn].
    apply andb_true_iff in Hp as [_ Hty%bool_decide_eq_true]. apply on_conn_true in Hcn as (a & Ha & Hp').
    apply andb_true_iff in Hp' as [Hacc _]. apply paging_cb_spec; [done|intros tr' ?; congruence|]. intros c' [= <-]. eauto.
  - apply on_trans_true in Hen as (tr & Ht & Hp). apply andb_true_iff in Hp as [_ Hty%bool_decide_eq_true].
    apply paging_cb_spec; [done|intros tr' ?; congruence|done].
  - apply on_conn_true in Hen as (a & Ha & _). eapply ran_dec_spec; [done..|]. intros w1 Hok1 _.
    by eapply clear_complete_spec; [|apply lookup_insert_eq].
  - apply on_conn_true in Hen as (a & Ha & _). by eapply conn_timer_spec.
  - by apply conn_event_in_order.
  - cbn [enabled] in Hen. apply andb_true_iff in Hen as [Hen Ht%negb_true_iff%bool_decide_eq_false].
    apply on_conn_true in Hen as (a & Ha & _). eapply use_event_in_order; [done..|].
    pose proof (ok_uses _ _ _ _ Hok c a Ha tok). lia.
  - cbn [enabled] in Hen. apply andb_true_iff in Hen as [Hen Ht%negb_true_iff%bool_decide_eq_false].
    apply on_conn_true in Hen as (a & Ha & Hp). apply andb_true_iff in Hp as [Hp%Z.ltb_lt _].
    eapply use_event_in_order; [done..|]. lia.
  - cbn [enabled] in Hen. apply andb_true_iff in Hen as [Hen _]. apply andb_true_iff in Hen as [_ Hen].
    apply on_conn_true in Hen as (a & Ha & Hacc). by eapply other_trans_spec.
  - apply wp_modify. cbn [enabled] in Hen.
    assert (Hp : uses_pos (sb_uses s)).
    { destruct (w_vsubs w !! v) as [s0|] eqn:Hs; apply andb_true_iff in Hen as [->%bool_decide_eq_true _].
      - by apply (ok_vsub_uses _ _ _ _ Hok v s0).
      - intros tok. unfold use_by. by rewrite lookup_empty. }
    destruct Hok as [O1 O2 O3 O4 O5 O6 O7 O8 O9 O10 O11 O12]. split; cbn; try done.
    intros v' s' [[<- <-]|[_ Hs']]%lookup_insert_Some; eauto.
  - unfold trans_free_for_vsub. apply wp_bind. change (wp tolerated (gets ?f) ?Q w) with (Q (f w) w). cbv beta.
    apply free_vsub_spec; [|done|done]. intros w' t [_ (tr & Ht & _)]%trans_find_Some. eauto.
Qed.

Lemma reachable_in_order w0 w : in_order w0 -> reachable n w0 w -> in_order w.
Proof using deep.
  intros H0. induction 1 as [|w ev w' _ IH Hstep]; [done|]. unfold step in Hstep.
  destruct (enabled ev w) eqn:Hen; [|by injection Hstep as <-].
  pose proof (run_in_order ev w IH Hen) as H. unfold wp in H. by rewrite Hstep in H.
Qed.
End sys.
