(* ===== verification/CallSample.v ===== *)
(** * A sample call

    Concrete instances of what call control uses of libraries, and the events
    of a call from an MS that is assigned a channel, as inputs on which the
    theorems about calls are applied. *)

From S2P Require Import Prelude VlrTypes Codecs Csd Sdp Mncc CallTypes CallBase CallLeg CallAssign CallCc CallSys.

Definition sample_sockaddr : SockaddrLib :=
  {| osmo_ip_str_type _ := AF_INET; osmo_sockaddr_str_from_str ip port := mk_sockaddr AF_INET ip port |}.
Definition sample_amr : AmrCfg :=
  {| SPEECH_CODEC_LIST_SIZE := 14; GSM0808_SC_CFG_DEFAULT_FR_AMR := 0xff; GSM0808_SC_CFG_DEFAULT_HR_AMR := 0x1f;
     GSM0808_SC_CFG_DEFAULT_FR_AMR_WB := 1; GSM0808_SC_CFG_DEFAULT_OHR_AMR_WB := 1 |}.
Definition sample_rates : DataRates :=
  {| GSM0808_DATA_RATE_TRANSP_600 := 1; GSM0808_DATA_RATE_TRANSP_1k2 := 2; GSM0808_DATA_RATE_TRANSP_2k4 := 3;
     GSM0808_DATA_RATE_TRANSP_4k8 := 4; GSM0808_DATA_RATE_TRANSP_9k6 := 5; GSM0808_DATA_RATE_NON_TRANSP_6k0 := 6;
     GSM0808_DATA_RATE_NON_TRANSP_12k0 := 7; GSM0808_DATA_RATE_NON_TRANSP_ALLOWED_6k0 := 8;
     GSM0808_DATA_RATE_NON_TRANSP_ALLOWED_12k0 := 16 |}.
Definition sample_lib : CallLib :=
  {| osmo_sockaddr_str_is_nonzero a := str_nonempty (sa_ip a) && negb (sa_port a =? 0);
     osmo_sockaddr_str_eq a b := String.eqb (sa_ip a) (sa_ip b) && (sa_port a =? sa_port b);
     osmo_sockaddr_str_to_sockaddr a := Some [sa_port a]; osmo_sockaddr_str_from_sockaddr l := None;
     MGCP_MAX_CODECS := 10; osmo_enc_gcr _ := None; osmo_dec_gcr _ := None |}.

Definition sample_subscriber : cc_vsub := mk_cc_vsub "262420000000001" "4901" true 1 None ∅.
Definition sample_conn : msc_a :=
  mk_msc_a MSC_A_ST_AUTHENTICATED OSMO_RAT_GERAN_A (Some 1%nat) {[MSC_A_USE_CM_SERVICE_CC := 1]} None None false None []
    false [] 1.
(** SETUP with full rate speech *)
Definition sample_setup : cc_rx :=
  mk_cc_rx MT_SETUP 8 0 (Some (mk_bcap 0 0 0 3 [2; 0] no_bcap_data)) None None (Some (mk_number 0 0 0 0 "4902")) None None None
    None false false None None None None false.
Definition sample_callref : Z := 0x80000001.
Definition sample_mncc (type : mncc_msg) : gsm_mncc := empty_mncc <| m_msg_type := type |> <| m_callref := sample_callref |>.

Definition mo_setup : list cc_event :=
  [EvVsub 1 sample_subscriber; EvConn 1 1 sample_conn; EvDtap 1 sample_setup].
Definition mo_assigned : list cc_event :=
  mo_setup
  ++ [EvRtp 0 RTP_TO_CN (RTP_STREAM_EV_CRCX_OK (Some (mk_crcx "10.0.0.1" 4000 false 0)));
      EvRtp 0 RTP_TO_RAN (RTP_STREAM_EV_CRCX_OK (Some (mk_crcx "10.0.0.1" 4002 false 0)));
      EvMncc (MnccSignal (sample_mncc MNCC_CALL_PROC_REQ));
      EvAssignComplete 1 (mk_ac (Some (mk_speech_codec true false GSM0808_SCT_FR2 0)) false 0
                            (mk_sockaddr AF_INET "1.2.3.4" 5) None)].
(** the remote side offers a codec other than the one assigned *)
Definition pcma_sdp : string :=
  sdp_text (SL := sample_sockaddr) (Some (no_sdp <| sdp_codecs := [mk_codec 8 "PCMA" 8000 ""] |> <| sdp_rtp := mk_sockaddr AF_INET "1.1.1.1" 7 |>)).
Definition pcma_alert : cc_event := EvMncc (MnccSignal (sample_mncc MNCC_ALERT_REQ <| m_sdp := pcma_sdp |>)).

(** run from the start; the world that is left, if nothing crashes *)
Definition sample_run (n : nat) (evs : list cc_event) : res unit :=
  run_all (SL := sample_sockaddr) (CL := sample_lib) (AC := sample_amr) (DR := sample_rates) n evs (init_world false).
Definition sample_world (evs : list cc_event) : cc_world :=
  match sample_run 4 evs with Done _ w => w | Crash _ => init_world false end.
Definition sample_reachable : cc_world -> Prop :=
  reachable (SL := sample_sockaddr) (CL := sample_lib) (AC := sample_amr) (DR := sample_rates) 4 (init_world false).

Lemma run_all_reachable `{SL : SockaddrLib} `{CL : CallLib} `{AC : AmrCfg} `{DR : DataRates} n w0 evs : forall w w',
  reachable n w0 w -> run_all n evs w = Done tt w' -> reachable n w0 w'.
Proof.
  induction evs as [|ev evs IH]; intros w w' Hr; cbn [run_all]; unfold ret, bind.
  - by intros [= <-].
  - destruct (step n ev w) as [[] w1|] eqn:Hs; [|done]. apply IH. by eapply reach_step.
Qed.
Lemma sample_world_reachable evs : is_Some (match sample_run 4 evs with Done _ _ => Some tt | _ => None end) ->
  sample_reachable (sample_world evs).
Proof.
  intros H. unfold sample_world. destruct (sample_run 4 evs) as [[] w|] eqn:Hr; [|by destruct H].
  eapply run_all_reachable; [apply reach_init|exact Hr].
Qed.
Lemma mo_assigned_reachable : sample_reachable (sample_world mo_assigned).
Proof. apply sample_world_reachable. vm_compute. eauto. Qed.
