(* ===== verification/CallProps.v ===== *)
(** * Calls: what holds in every reachable state *)

From S2P Require Import Prelude VlrTypes Codecs Csd Sdp Mncc CallTypes CallBase CallLeg CallAssign CallCc CallSys.
From S2P Require Import CallInv CallSafe CallDispatch CallAssignSafe CallLevels CallCcSafe CallSysSafe CallSample.

(** ** Transaction identifiers *)

(** the transactions that keep identifier [j] from being assigned *)
Definition uses_id (v : option nat) (ty : trans_type) (j : Z) (w : cc_world) (t : nat) : bool :=
  match w_trans w !! t with Some tr => uses_tid v ty tr && (t_id tr =? j) | None => false end.

Lemma testbit_one i j : 0 <= j -> Z.testbit (Z.shiftl 1 i) j = (i =? j).
Proof.
  intros Hj. rewrite Z.shiftl_spec by done. destruct (Z.eqb_spec i j) as [->|Hne]; [by rewrite Z.sub_diag|].
  destruct (Z.lt_ge_cases (j - i) 0); [by apply Z.testbit_neg_r|]. apply Z.bits_above_log2; [done|]. change (Z.log2 1) with 0. lia.
Qed.
Lemma used_tid_bits v ty w l mask j :
  0 <= j ->
  Z.testbit (fold_left (fun mask t => match w_trans w !! t with
                                      | Some tr => if uses_tid v ty tr then Z.lor mask (Z.shiftl 1 (t_id tr)) else mask
                                      | None => mask
                                      end) l mask) j
  = Z.testbit mask j || existsb (uses_id v ty j w) l.
Proof.
  intros Hj. revert mask. induction l as [|t l IH]; intros mask; cbn [fold_left existsb]; [by rewrite orb_false_r|].
  rewrite IH. unfold uses_id at 2. destruct (w_trans w !! t) as [tr|]; [|done]. destruct (uses_tid v ty tr); [|done].
  rewrite Z.lor_spec, testbit_one by done. cbn [andb]. by rewrite orb_assoc.
Qed.
Lemma highest_used_le mask h : (highest_used mask h <= h)%nat.
Proof. induction h as [|h IH]; cbn [highest_used]; [done|]. case_match; lia. Qed.

Lemma free_tid_spec mask h n : forall i,
  match free_tid mask h i n with
  | Some j => 0 <= j < 7 /\ Z.testbit mask j = false
  | None => forall k, i <= k < i + Z.of_nat n -> Z.testbit mask ((h + k) mod 7) = true
  end.
Proof.
  induction n as [|n IH]; intros i; cbn [free_tid]; [intros; lia|].
  destruct (Z.testbit mask ((h + i) mod 7)) eqn:E; [|split; [apply Z.mod_pos_bound; lia|done]].
  specialize (IH (i + 1)). destruct (free_tid mask h (i + 1) n); [done|]. intros k Hk.
  destruct (Z.eq_dec k i) as [->|]; [done|]. apply IH. lia.
Qed.

(** C15: An identifier is assigned to a new transaction whenever one of the
    seven of the network is free, and it is one that no transaction of the
    subscriber and the protocol has. *)
Theorem trans_assign_trans_id_correct v ty w :
  match trans_assign_trans_id v ty w with
  | Some j => 0 <= j < 7 /\ forall t, t ∈ w_trans_list w -> uses_id v ty j w t = false
  | None => forall j, 0 <= j < 7 -> exists t, t ∈ w_trans_list w /\ uses_id v ty j w t = true
  end.
Proof.
  unfold trans_assign_trans_id. set (mask := used_tid_bitmask v ty w). set (h := Z.of_nat (highest_used mask 6)).
  assert (Hb : forall j, 0 <= j -> Z.testbit mask j = existsb (uses_id v ty j w) (w_trans_list w)).
  { intros j Hj. unfold mask, used_tid_bitmask. by rewrite used_tid_bits, Z.bits_0. }
  pose proof (free_tid_spec mask h 7 0) as H. destruct (free_tid mask h 0 7) as [j|].
  - destruct H as [Hj Hf]. split; [done|]. intros t Ht. rewrite Hb in Hf by lia. apply not_true_is_false. intros Hu.
    apply (f_equal negb) in Hf. cbn in Hf. apply negb_true_iff in Hf. rewrite (proj2 (existsb_exists _ _)) in Hf; [done|].
    exists t. split; [by apply list_elem_of_In|done].
  - intros j Hj. assert (Hh : 0 <= h <= 6) by (pose proof (highest_used_le mask 6); lia).
    assert (E : exists k, 0 <= k < 7 /\ (h + k) mod 7 = j).
    { exists ((j - h) mod 7). split; [apply Z.mod_pos_bound; lia|]. rewrite Z.add_mod_idemp_r by lia.
      replace (h + (j - h)) with j by lia. by apply Z.mod_small. }
    destruct E as (k & Hk & <-). specialize (H k ltac:(lia)). rewrite Hb in H by (apply Z.mod_pos_bound; lia).
    apply existsb_exists in H as (t & Ht & Hu). exists t. split; [by apply list_elem_of_In|done].
Qed.

Section props.
Context {SL : SockaddrLib} {CL : CallLib} {AC : AmrCfg} {DR : DataRates}.

Lemma step_tolerated n cw w ev f :
  (4 <= n)%nat -> reachable n (init_world cw) w -> step n ev w = Crash f -> tolerated f.
Proof.
  intros Hn Hr Hs. pose proof (reachable_in_order n Hn _ _ (init_in_order cw) Hr) as Hok. unfold step in Hs.
  destruct (enabled ev w) eqn:Hen; [|done]. pose proof (run_in_order n Hn ev w Hok Hen) as H. unfold wp in H.
  by rewrite Hs in H.
Qed.

(** C9: Whatever has happened before, whatever happens next, the handling of
    one event never nests more than four events of connections: freeing a
    transaction, releasing a call leg and closing a connection call each
    other, but the recursion ends. *)
Theorem call_events_end n cw w ev :
  (4 <= n)%nat -> reachable n (init_world cw) w -> step n ev w <> Crash TooDeep.
Proof. intros Hn Hr Hs. by destruct (step_tolerated n cw w ev TooDeep Hn Hr Hs). Qed.

(** C3: Whatever has happened before, the next event fails no assertion: no use
    of a connection or of a subscriber is given back that is not there (that a
    use is never given back is not excluded), a channel is assigned only for a
    call and while the connection has no active call, the SETUP of an MS is
    handled only for a transaction with a connection, and a message of an MS for
    a call only for a transaction with a subscriber. *)
Theorem call_assertions_hold n cw w ev :
  (4 <= n)%nat -> reachable n (init_world cw) w -> step n ev w <> Crash AssertFailed.
Proof. intros Hn Hr Hs. by destruct (step_tolerated n cw w ev AssertFailed Hn Hr Hs). Qed.

(** the transactions of a type on a connection *)
Definition on_this (ty : trans_type) (c : nat) (w : cc_world) (t : nat) : bool :=
  match w_trans w !! t with Some tr => bool_decide (t_type tr = ty /\ t_msc_a tr = Some c) | None => false end.
Definition trans_on (ty : trans_type) (c : nat) (w : cc_world) : list nat := List.filter (on_this ty c w) (w_trans_list w).

Lemma trans_count_list ty c (m : gmap nat gsm_trans) (l : list nat) :
  NoDup l -> (forall t, t ∈ l <-> is_Some (m !! t)) ->
  msum (on_conn_of ty c) m
  = Z.of_nat (length (List.filter (fun t => match m !! t with
                                            | Some tr => bool_decide (t_type tr = ty /\ t_msc_a tr = Some c)
                                            | None => false
                                            end) l)).
Proof.
  revert m. induction l as [|k l IH]; intros m Hnd Hl.
  - assert (m = ∅) as -> by (apply map_empty; intros t; apply eq_None_not_Some; rewrite <- Hl; apply not_elem_of_nil). done.
  - apply NoDup_cons in Hnd as [Hk Hnd]. destruct (proj1 (Hl k)) as [x Hx]; [by left|].
    pose proof (msum_delete (on_conn_of ty c) m k x Hx) as Hd. rewrite (IH (delete k m) Hnd) in Hd.
    + assert (E : forall t, In t l -> delete k m !! t = m !! t).
      { intros t Ht%list_elem_of_In. apply lookup_delete_ne. congruence. }
      rewrite (List.filter_ext_in _ (fun t => match m !! t with
                                        | Some tr => bool_decide (t_type tr = ty /\ t_msc_a tr = Some c)
                                        | None => false end)) in Hd by (intros t Ht; by rewrite E).
      cbn [List.filter]. rewrite Hx.
      assert (Ex : on_conn_of ty c x = if bool_decide (t_type x = ty /\ t_msc_a x = Some c) then 1 else 0).
      { unfold on_conn_of. case_bool_decide; [by rewrite decide_True|by rewrite decide_False]. }
      rewrite Ex in Hd. destruct (bool_decide _); cbn [length]; lia.
    + intros t. rewrite lookup_delete_is_Some, <- Hl. set_solver.
Qed.

(** C4: In every reachable state, the uses of a connection under the token of
    a kind of transaction are as many as there are transactions of that kind
    on it; a connection that is closing has none, and its active call, if
    any, is one of its calls. *)
Theorem conn_uses_are_its_transactions n cw w c a ty :
  (4 <= n)%nat -> reachable n (init_world cw) w -> w_conns w !! c = Some a ->
  use_by (a_uses a) (trans_usage_token ty) = Z.of_nat (length (trans_on ty c w))
  /\ (conn_accepted (a_state a) = false -> trans_on ty c w = [])
  /\ (forall t, a_active_trans a = Some t -> t ∈ trans_on TRANS_CC c w).
Proof.
  intros Hn Hr Ha. pose proof (reachable_in_order n Hn _ _ (init_in_order cw) Hr) as Hok.
  assert (Hl : forall t, t ∈ w_trans_list w <-> is_Some (w_trans w !! t)).
  { intros t. rewrite (ok_listed _ _ _ _ Hok). unfold nobody. tauto. }
  assert (Hcnt : trans_count ty c w = Z.of_nat (length (trans_on ty c w))).
  { apply trans_count_list; [apply Hok|done]. }
  split_and!.
  - rewrite (ok_balance _ _ _ _ Hok c a ty Ha), Hcnt. unfold no_debt. lia.
  - intros Hcl. assert (Hno : no_trans c w) by (eapply closing_no_trans; eauto; unfold closing; by rewrite Hcl).
    rewrite (no_trans_count c w ty Hno) in Hcnt. apply nil_length_inv. lia.
  - intros t Hact. destruct (ok_active _ _ _ _ Hok c a t Ha Hact) as (tr & Ht & Hty & Hc).
    apply list_elem_of_In, filter_In. split; [apply list_elem_of_In, Hl; eauto|]. unfold on_this. rewrite Ht.
    by rewrite bool_decide_eq_true_2.
Qed.
End props.

Lemma call_events_end_witness :
  sample_reachable (sample_world mo_assigned)
  /\ step (SL := sample_sockaddr) (CL := sample_lib) (AC := sample_amr) (DR := sample_rates) 4 (EvClearRequest 1)
       (sample_world mo_assigned) <> Crash TooDeep.
Proof.
  split; [apply mo_assigned_reachable|].
  apply (call_events_end (SL := sample_sockaddr) (CL := sample_lib) (AC := sample_amr) (DR := sample_rates) 4 false);
    [lia|apply mo_assigned_reachable].
Defined.

Lemma call_assertions_hold_witness :
  sample_reachable (sample_world mo_assigned)
  /\ step (SL := sample_sockaddr) (CL := sample_lib) (AC := sample_amr) (DR := sample_rates) 4 (EvClearRequest 1)
       (sample_world mo_assigned) <> Crash AssertFailed.
Proof.
  split; [apply mo_assigned_reachable|].
  apply (call_assertions_hold (SL := sample_sockaddr) (CL := sample_lib) (AC := sample_amr) (DR := sample_rates) 4 false);
    [lia|apply mo_assigned_reachable].
Defined.

Lemma conn_uses_are_its_transactions_witness :
  match w_conns (sample_world mo_assigned) !! 1%nat with
  | Some a => use_by (a_uses a) MSC_A_USE_CC = Z.of_nat (length (trans_on TRANS_CC 1 (sample_world mo_assigned)))
              /\ use_by (a_uses a) MSC_A_USE_CC = 1
  | None => False
  end.
Proof.
  destruct (w_conns (sample_world mo_assigned) !! 1%nat) as [a|] eqn:Ha.
  - split; [|vm_compute in Ha; injection Ha as <-; by vm_compute].
    apply (conn_uses_are_its_transactions (SL := sample_sockaddr) (CL := sample_lib) (AC := sample_amr) (DR := sample_rates)
             4 false (sample_world mo_assigned) 1 a TRANS_CC); [lia|apply mo_assigned_reachable|exact Ha].
  - vm_compute in Ha. discriminate.
Defined.

(** the alerting of the remote side with a codec other than the one assigned
    aborts the assignment of the sample call, which frees the transaction; the
    handler goes on with it *)
Example alert_uses_freed_transaction : sample_run 4 (mo_assigned ++ [pcma_alert]) = Crash UseAfterFree.
Proof. by vm_compute. Qed.
