(* ===== verification/CMonad.v ===== *)
(** * C code as state transformers

    A monad for code that reads and changes a state, logs to it and can fail
    in the ways C code fails, generic in the state and in the failures; loops
    over lists; and its weakest preconditions. *)

From S2P Require Import Prelude.

Section monad.
Context {E W : Type}.

Inductive sres (A : Type) : Type :=
| Ok (a : A) (w : W)
| Fault (f : E).

Definition SM (A : Type) : Type := W -> sres A.
Definition sret {A : Type} (a : A) : SM A := fun w => Ok A a w.
Definition sbind {A B : Type} (m : SM A) (k : A -> SM B) : SM B :=
  fun w => match m w with Ok _ a w' => k a w' | Fault _ f => Fault B f end.
Definition sfault {A : Type} (f : E) : SM A := fun _ => Fault A f.
Definition sgets {A : Type} (f : W -> A) : SM A := fun w => Ok A (f w) w.
Definition smod (f : W -> W) : SM unit := fun w => Ok unit tt (f w).
Definition swhen (b : bool) (m : SM unit) : SM unit := if b then m else sret tt.
(** an object that must be there *)
Definition sneed {A : Type} (f : E) (o : W -> option A) : SM A :=
  fun w => match o w with Some a => Ok A a w | None => Fault A f end.
Definition sopt {A : Type} (o : option A) (m : A -> SM unit) : SM unit :=
  match o with Some a => m a | None => sret tt end.

(** llist_for_each_entry_safe, on the entries that are there when it starts *)
Fixpoint sfor {A : Type} (l : list A) (body : A -> SM unit) : SM unit :=
  match l with
  | [] => sret tt
  | a :: l => sbind (body a) (fun _ => sfor l body)
  end.

(** ** Weakest preconditions: the code ends with [Q], or with a fault of [F] *)

Definition swp {A : Type} (F : E -> Prop) (m : SM A) (Q : A -> W -> Prop) (w : W) : Prop :=
  match m w with Ok _ a w' => Q a w' | Fault _ f => F f end.

Context (F : E -> Prop).

Lemma swp_ret {A} (a : A) (Q : A -> W -> Prop) w : Q a w -> swp F (sret a) Q w.
Proof. done. Qed.
Lemma swp_bind {A B} (m : SM A) (k : A -> SM B) (Q : B -> W -> Prop) w :
  swp F m (fun a => swp F (k a) Q) w -> swp F (sbind m k) Q w.
Proof. unfold swp, sbind. by destruct (m w). Qed.
Lemma swp_mono {A} (m : SM A) (P Q : A -> W -> Prop) w :
  swp F m P w -> (forall a w', P a w' -> Q a w') -> swp F m Q w.
Proof. unfold swp. destruct (m w); eauto. Qed.
Lemma swp_fault {A} f (Q : A -> W -> Prop) w : F f -> swp F (sfault f) Q w.
Proof. done. Qed.
Lemma swp_gets {A} (f : W -> A) (Q : A -> W -> Prop) w : Q (f w) w -> swp F (sgets f) Q w.
Proof. done. Qed.
Lemma swp_mod f (Q : unit -> W -> Prop) w : Q tt (f w) -> swp F (smod f) Q w.
Proof. done. Qed.
Lemma swp_need {A} f (o : W -> option A) (Q : A -> W -> Prop) w :
  (o w = None -> F f) -> (forall a, o w = Some a -> Q a w) -> swp F (sneed f o) Q w.
Proof. unfold swp, sneed. destruct (o w); eauto. Qed.
Lemma swp_when b m (Q : unit -> W -> Prop) w :
  (b = true -> swp F m Q w) -> (b = false -> Q tt w) -> swp F (swhen b m) Q w.
Proof. destruct b; cbn; eauto. Qed.
Lemma swp_opt {A} (o : option A) m (Q : unit -> W -> Prop) w :
  (forall a, o = Some a -> swp F (m a) Q w) -> (o = None -> Q tt w) -> swp F (sopt o m) Q w.
Proof. destruct o; cbn; eauto. Qed.
Lemma swp_for {A} (I : list A -> W -> Prop) (body : A -> SM unit) (l : list A) : forall w,
  I l w -> (forall a l w, I (a :: l) w -> swp F (body a) (fun _ => I l) w) -> swp F (sfor l body) (fun _ => I []) w.
Proof.
  induction l as [|a l IH]; intros w HI Hb; cbn [sfor]; [done|]. apply swp_bind.
  eapply swp_mono; [by apply Hb|]. intros ? w' H. by apply IH.
Qed.
End monad.
Arguments sres : clear implicits.
Arguments SM : clear implicits.
Arguments Ok {E W A} _ _.
Arguments Fault {E W A} _.

Notation "'let*' x ':=' m 'in' k" := (sbind m (fun x => k))
  (at level 200, x name, m at level 100, k at level 200, right associativity) : msc_scope.
Notation "m ;;; k" := (sbind m (fun _ => k)) (at level 199, right associativity) : msc_scope.
