(* ===== verification/VgcsTypes.v ===== *)
(** * Voice group calls: data

    The Group Call Register (asci_gcr.c), the structures of a group call
    (msc_vgcs.h, the group call part of struct gsm_trans), the messages of
    3GPP TS 44.068 as octets, and the state in which the four state machines
    of msc_vgcs.c run. *)

From S2P Require Import Prelude CLib Codecs Sdp CallTypes CMonad.

(** ** The Group Call Register *)

#[projections(primitive)]
Record gcr_bss : Type := mk_gcr_bss { gb_pc : Z; gb_cells : list Z }.
#[projections(primitive)]
Record gcr : Type := mk_gcr_entry {
  gr_type : trans_type; gr_group_id : string; gr_timeout : Z; gr_mute_talker : bool; gr_bss_list : list gcr_bss
}.

Definition GCR_DEFAULT_TIMEOUT : Z := 60.
Definition gcr_add_cell (cell_id : Z) (b : gcr_bss) : gcr_bss := b <| gb_cells ::= fun l => l ++ [cell_id] |>.
Definition gcr_find_cell (b : gcr_bss) (cell_id : Z) : bool := existsb (Z.eqb cell_id) (gb_cells b).
(** the first entry for which [p] holds is taken out *)
Fixpoint remove_first {A : Type} (p : A -> bool) (l : list A) : list A :=
  match l with
  | [] => []
  | a :: l => if p a then l else a :: remove_first p l
  end.
Definition gcr_rm_cell (cell_id : Z) (b : gcr_bss) : gcr_bss := b <| gb_cells ::= remove_first (Z.eqb cell_id) |>.
Definition gcr_add_bss (pc : Z) (g : gcr) : gcr := g <| gr_bss_list ::= fun l => l ++ [mk_gcr_bss pc []] |>.
Definition gcr_find_bss (g : gcr) (pc : Z) : option gcr_bss := find (fun b => gb_pc b =? pc) (gr_bss_list g).
Definition gcr_rm_bss (pc : Z) (g : gcr) : gcr := g <| gr_bss_list ::= remove_first (fun b => gb_pc b =? pc) |>.
Definition gcr_create (type : trans_type) (group_id : string) (l : list gcr) : list gcr :=
  l ++ [mk_gcr_entry type (strlcpy 9 group_id) GCR_DEFAULT_TIMEOUT true []].
Definition gcr_by_group_id (l : list gcr) (type : trans_type) (group_id : string) : option gcr :=
  find (fun g => bool_decide (gr_type g = type) && String.eqb (gr_group_id g) group_id) l.

(** the digits of the group ID are the last digits of the call reference *)
Definition gcr_matches (type : trans_type) (callref : Z) (g : gcr) : bool :=
  bool_decide (gr_type g = type)
  && (atoi (gr_group_id g) =? callref mod 10 ^ Z.of_nat (String.length (gr_group_id g))).
Definition gcr_by_callref (l : list gcr) (type : trans_type) (callref : Z) : option gcr :=
  fst (fold_left (fun '(best, len) g =>
                    let n := String.length (gr_group_id g) in
                    if gcr_matches type callref g && (len <? n)%nat then (Some g, n) else (best, len))
         l (None, 0%nat)).

(** ** Messages of TS 44.068 *)

Inductive gsm44068_mt : Type :=
| MSGT_IMMEDIATE_SETUP | MSGT_SETUP | MSGT_CONNECT | MSGT_TERMINATION | MSGT_TERMINATION_REQUEST
| MSGT_TERMINATION_REJECT | MSGT_STATUS | MSGT_SET_PARAMETER | MSGT_IMMEDIATE_SETUP_2 | MSGT_OTHER (code : Z).
Inductive gsm44068_cause : Type :=
| CAUSE_NETWORK_FAILURE | CAUSE_NORMAL_CALL_CLEARING | CAUSE_BUSY | CAUSE_REQUESTED_SERVICE_NOT_SUB
| CAUSE_USER_NOT_ORIGINATOR.
Inductive gsm44068_iei : Type := IEI_USER_USER | IEI_TALKER_PRIORITY | IEI_CALL_STATE | IEI_STATE_ATTRIBUTES.

(** the identity that a mobile identity element holds *)
Inductive vg_mi : Type := MiImsi (imsi : string) | MiTmsi (tmsi : Z) | MiOther.

(** libosmogsm and libosmo-mgcp-client *)
Class VgcsLib : Type := {
  gsm44068_cause_code : gsm44068_cause -> Z;
  IEI_SMS_INDICATIONS : Z;
  gsm44068_tlv_parse : list Z -> option (gsm44068_iei -> option (list Z));
  osmo_mobile_identity_decode : list Z -> option vg_mi;
  osmo_mobile_identity_decode_from_l3 : list Z -> option vg_mi;
  MGCP_CONN_RECV_ONLY : Z; MGCP_CONN_SEND_ONLY : Z; MGCP_CONN_CONFECHO : Z
}.

(** protocol discriminator with transaction identifier, type, elements *)
#[projections(primitive)]
Record gcc_msg : Type := mk_gcc_msg { gm_proto_discr : Z; gm_type : gsm44068_mt; gm_data : list Z }.

Definition be32 (v : Z) : list Z :=
  [Z.land (Z.shiftr v 24) 255; Z.land (Z.shiftr v 16) 255; Z.land (Z.shiftr v 8) 255; Z.land v 255].
Definition osmo_load32be (ie : list Z) : Z :=
  match ie with
  | a :: b :: c :: d :: _ => Z.lor (Z.shiftl a 24) (Z.lor (Z.shiftl b 16) (Z.lor (Z.shiftl c 8) d))
  | _ => 0
  end.
Definition octet (n : nat) (ie : list Z) : Z := nth n ie 0.

Definition _add_cause_ie (cause : Z) (diag : list Z) : list Z :=
  match diag with
  | [] => [1; cause]
  | _ => [u8 (1 + Z.of_nat (length diag)); Z.lor cause 0x80] ++ diag
  end.
Definition _add_callref_ie (callref : Z) (prio : option Z) : list Z :=
  let ie := u32 (Z.shiftl callref 5) in
  be32 (match prio with Some p => Z.lor ie (Z.lor 0x10 (Z.shiftl p 1)) | None => ie end).

(** the call reference, its priority if there is one, and what follows *)
Definition _rx_callref (ie : list Z) : option (Z * option Z * list Z) :=
  if Nat.ltb (length ie) 4 then None
  else let o := octet 3 ie in
       Some (Z.shiftr (osmo_load32be ie) 5,
             if Z.land o 0x10 =? 0 then None else Some (Z.land (Z.shiftr o 1) 7), drop 4 ie).

Section messages.
Context {VL : VgcsLib}.

Definition gsm44068_connect (pdisc callref : Z) (prio : option Z) (oi talker_prio : Z) (sms : option (Z * Z)) : gcc_msg :=
  mk_gcc_msg (u8 pdisc) MSGT_CONNECT
    (_add_callref_ie callref prio ++ [u8 (Z.lor (Z.shiftl talker_prio 4) oi)]
     ++ match sms with
        | Some (dc, gp) => [u8 (Z.lor IEI_SMS_INDICATIONS (Z.lor (Z.shiftl dc 1) gp))]
        | None => []
        end).
Definition gsm44068_set_parameter (pdisc da ua comm oi : Z) : gcc_msg :=
  mk_gcc_msg (u8 pdisc) MSGT_SET_PARAMETER
    [u8 (Z.lor (Z.shiftl da 3) (Z.lor (Z.shiftl ua 2) (Z.lor (Z.shiftl comm 1) oi)))].
Definition gsm44068_termination (pdisc : Z) (type : gsm44068_mt) (cause : gsm44068_cause) : gcc_msg :=
  mk_gcc_msg (u8 pdisc) type (_add_cause_ie (gsm44068_cause_code cause) []).

(** what the parsers leave in the variables of their caller; [None]: an error *)
#[projections(primitive)]
Record gcc_parsed : Type := mk_gcc_parsed {
  gp_callref : Z; gp_prio : option Z; gp_talker_prio : option Z; gp_user_user : list Z
}.

(** twelve decimal digits, the last one first *)
Fixpoint otid_digits (n : nat) (otid : Z) : list Z :=
  match n with
  | O => []
  | S n => (otid mod 10 + 48) :: otid_digits n (otid / 10)
  end.

(** from the mobile identity on *)
Definition rx_mobile_identity (setup2 : bool) (ie : list Z) : option (vg_mi * list Z) :=
  if setup2 then
    if Nat.ltb (length ie) 4 then None else Some (MiTmsi (osmo_load32be ie), drop 4 ie)
  else
    if Nat.ltb (length ie) 2 then None
    else let n := Z.to_nat (octet 0 ie) in
         if Nat.ltb (length ie) (S n) then None
         else match osmo_mobile_identity_decode (take n (drop 1 ie)) with
              | Some mi => Some (mi, drop (S n) ie)
              | None => None
              end.
Definition gsm44068_rx_immediate_setup (setup2 : bool) (data : list Z) : option gcc_parsed :=
  match data with
  | [] => None
  | o :: ie =>
      if Nat.ltb (length ie) 4 then None
      else if Nat.ltb (length ie) (S (Z.to_nat (octet 0 ie))) then None
      else if negb (octet 0 ie =? 3) then None
      else match rx_mobile_identity setup2 (drop 4 ie) with
           | None => None
           | Some (_, ie) =>
               match _rx_callref ie with
               | None => None
               | Some (callref, prio, ie) =>
                   if setup2 then
                     if Nat.ltb (length ie) 5 then None
                     else Some (mk_gcc_parsed callref prio (Some (Z.land o 7))
                                  (otid_digits 12 (Z.lor (osmo_load32be (drop 1 ie)) (Z.shiftl (octet 0 ie) 32))))
                   else Some (mk_gcc_parsed callref prio (Some (Z.land o 7)) [])
               end
           end
  end.

Definition talker_priority (tp : gsm44068_iei -> option (list Z)) : option Z :=
  match tp IEI_TALKER_PRIORITY with Some (v :: _) => Some (Z.land v 7) | _ => None end.
Definition gsm44068_rx_setup (data : list Z) : option gcc_parsed :=
  match _rx_callref data with
  | None => None
  | Some (callref, prio, ie) =>
      match gsm44068_tlv_parse ie with
      | None => None
      | Some tp =>
          let uu := match tp IEI_USER_USER with
                    | Some v => if Nat.leb 1 (length v) && Nat.leb (length v) 13 then take (length v - 1) v else []
                    | None => []
                    end in
          Some (mk_gcc_parsed callref prio (talker_priority tp) uu)
      end
  end.
(** the cause; the rest only goes to the log *)
Definition gsm44068_rx_status (data : list Z) : option Z :=
  if Nat.ltb (length data) 2 || (octet 0 data <? Z.of_nat (length data) - 2) then None
  else if Nat.ltb (length data) (S (Z.to_nat (octet 0 data))) then None
  else if octet 0 data <? 1 then None
  else match gsm44068_tlv_parse (drop (S (Z.to_nat (octet 0 data))) data) with
       | None => None
       | Some _ => Some (Z.land (octet 1 data) 0x7f)
       end.
Definition gsm44068_rx_termination_req (data : list Z) : option gcc_parsed :=
  match _rx_callref data with
  | None => None
  | Some (callref, prio, ie) =>
      match gsm44068_tlv_parse ie with
      | None => None
      | Some tp => Some (mk_gcc_parsed callref prio (talker_priority tp) [])
      end
  end.
End messages.

(** ** The structures of a group call *)

Inductive vgcs_gcc_fsm_state : Type :=
| VGCS_GCC_ST_N0_NULL | VGCS_GCC_ST_N1_CALL_INITIATED | VGCS_GCC_ST_N2_CALL_ACTIVE | VGCS_GCC_ST_N3_CALL_EST_PROC.
Inductive vgcs_gcc_fsm_event : Type :=
| VGCS_GCC_EV_NET_SETUP | VGCS_GCC_EV_NET_TERM | VGCS_GCC_EV_USER_SETUP | VGCS_GCC_EV_USER_TERM
| VGCS_GCC_EV_BSS_ESTABLISHED | VGCS_GCC_EV_BSS_ASSIGN_CPL | VGCS_GCC_EV_BSS_ASSIGN_FAIL
| VGCS_GCC_EV_BSS_RELEASED | VGCS_GCC_EV_TIMEOUT.
Inductive vgcs_bss_fsm_state : Type :=
| VGCS_BSS_ST_NULL | VGCS_BSS_ST_SETUP | VGCS_BSS_ST_ASSIGNMENT | VGCS_BSS_ST_ACTIVE | VGCS_BSS_ST_RELEASE.
Inductive vgcs_cell_fsm_state : Type :=
| VGCS_CELL_ST_NULL | VGCS_CELL_ST_ASSIGNMENT | VGCS_CELL_ST_ACTIVE | VGCS_CELL_ST_RELEASE.
#[export] Instance vgcs_gcc_fsm_state_eq_dec : EqDecision vgcs_gcc_fsm_state.
Proof. solve_decision. Defined.
#[export] Instance vgcs_gcc_fsm_event_eq_dec : EqDecision vgcs_gcc_fsm_event.
Proof. solve_decision. Defined.
#[export] Instance vgcs_bss_fsm_state_eq_dec : EqDecision vgcs_bss_fsm_state.
Proof. solve_decision. Defined.
#[export] Instance vgcs_cell_fsm_state_eq_dec : EqDecision vgcs_cell_fsm_state.
Proof. solve_decision. Defined.

(** a transaction with its group call part; [v_fi]: [None] when the state
    machine has been terminated *)
#[projections(primitive)]
Record vgcs_trans : Type := mk_vgcs_trans {
  v_type : trans_type; v_id : Z; v_vsub : option nat; v_msc_a : option nat; v_callref : Z; v_call_id : Z;
  v_fi : option vgcs_gcc_fsm_state; v_bss_list : list nat;
  v_inactivity_to : Z; v_timer_inactivity : bool; v_mute_talker : bool;
  v_uplink_busy : bool; v_uplink_bss : option nat; v_uplink_cell : option nat; v_uplink_originator : bool
}.
#[projections(primitive)]
Record vgcs_bss : Type := mk_vgcs_bss {
  b_state : vgcs_bss_fsm_state; b_cell_list : list nat; b_trans : option nat; b_conn : option nat;
  b_type : trans_type; b_callref : Z; b_pc : Z
}.
(** a pointer to an RTP stream *)
Inductive rtp_ptr : Type := RtpNull | Rtp (s : rtp_stream) | RtpFreed.
#[projections(primitive)]
Record vgcs_bss_cell : Type := mk_vgcs_bss_cell {
  c_state : vgcs_cell_fsm_state; c_bss : option nat; c_mgw : option nat; c_cell_id : Z; c_conn : option nat;
  c_type : trans_type; c_callref : Z; c_call_id : Z; c_pc : Z; c_assigned : bool; c_rtps : rtp_ptr
}.
#[projections(primitive)]
Record vgcs_mgw_ep : Type := mk_vgcs_mgw_ep { m_cell_list : list nat }.

(** struct ran_conn of a group call: the peer and the two pointers of [vgcs] *)
#[projections(primitive)]
Record ran_conn : Type := mk_ran_conn { rc_peer : Z; rc_bss : option nat; rc_cell : option nat }.

(** the connection of a calling subscriber: subscriber, cell, peer of its RAN
    connection, uses for a CM Service Request *)
#[projections(primitive)]
Record vg_caller : Type := mk_vg_caller {
  k_vsub : option nat; k_cell : Z; k_peer : option Z; k_cm_gcc : Z; k_cm_bcc : Z
}.
#[projections(primitive)]
Record vg_vsub : Type := mk_vg_vsub { vs_imsi : string; vs_tmsi : Z }.

(** ** What leaves *)

Inductive vg_cause : Type := GSM0808_CAUSE_CALL_CONTROL | GSM0808_CAUSE_PROTOCOL_ERROR.
(** the group call reference as BSSMAP has it *)
#[projections(primitive)]
Record gsm0808_callref : Type := mk_callref { cr_sf : bool; cr_hi : Z; cr_lo : Z }.
Inductive vg_ran_msg : Type :=
| RAN_MSG_VGCS_VBS_SETUP (cr : gsm0808_callref)
| RAN_MSG_VGCS_VBS_ASSIGN_REQ (cr : gsm0808_callref) (cell_id call_id : Z) (rtp : sockaddr_str)
| RAN_MSG_UPLINK_SEIZED_CMD | RAN_MSG_UPLINK_RELEASE_CMD | RAN_MSG_UPLINK_REJECT_CMD
| RAN_MSG_UPLINK_REQUEST_ACK | RAN_MSG_CLEAR_COMMAND (cause : vg_cause) | RAN_MSG_DTAP (m : gcc_msg).

Inductive vg_out : Type :=
| VgRan (conn : nat) (m : vg_ran_msg) (initial : bool)
| VgToCaller (k : nat) (m : gcc_msg)
| VgAssignCaller (k : nat) (cr : gsm0808_callref)
| VgConnGet (k : nat) (type : trans_type)
| VgConnPut (k : nat) (type : trans_type)
| VgCmServicePut (k : nat) (type : trans_type)
| VgConnClose (conn : nat)
| VgMgcp (cell : nat) (verb : mgcp_verb) (mode : Z) (remote : sockaddr_str)
| VgMgwDrop (m : nat) (client_put : bool).

(** what can go wrong: an object that is gone is used, which is found through
    the lists and back pointers of the four state machines ([BadTrans] to
    [BadMgw]), through the pointer of a call to the cell of the talker
    ([FreedUplinkCell]) or through the pointers of a RAN connection to a BSS or
    a cell ([FreedOfConn]); a RAN connection, an RTP stream or the connection of
    a caller that is gone; a null pointer; the head of a list taken for an
    entry; an assertion; too many nested events *)
Inductive vg_fault : Type :=
| BadTrans | BadBss | BadCell | BadMgw | FreedUplinkCell | FreedOfConn | BadConn | BadRtp | BadCaller | NullPtr | ListHead | Assertion | TooNested.

#[projections(primitive)]
Record vg_world : Type := mk_vg_world {
  vw_trans : gmap nat vgcs_trans; vw_list : list nat; vw_next : nat; vw_new_call_id : Z;
  vw_bss : gmap nat vgcs_bss; vw_cells : gmap nat vgcs_bss_cell; vw_mgw : gmap nat vgcs_mgw_ep;
  vw_conns : gmap nat ran_conn; vw_callers : gmap nat vg_caller; vw_vsubs : gmap nat vg_vsub;
  vw_gcr : list gcr; vw_peers : list Z;
  vw_answers : list Z;      (* the results of the calls that can fail, as in CallTypes *)
  vw_out : list vg_out
}.

Definition VM (A : Type) : Type := SM vg_fault vg_world A.

Definition get_vt (t : nat) : VM vgcs_trans := sneed BadTrans (fun w => vw_trans w !! t).
Definition get_bss (b : nat) : VM vgcs_bss := sneed BadBss (fun w => vw_bss w !! b).
Definition get_cell (c : nat) : VM vgcs_bss_cell := sneed BadCell (fun w => vw_cells w !! c).
Definition get_mgw (m : nat) : VM vgcs_mgw_ep := sneed BadMgw (fun w => vw_mgw w !! m).
Definition get_rc (n : nat) : VM ran_conn := sneed BadConn (fun w => vw_conns w !! n).
Definition get_caller (k : nat) : VM vg_caller := sneed BadCaller (fun w => vw_callers w !! k).
Definition mod_vt (t : nat) (f : vgcs_trans -> vgcs_trans) : VM unit :=
  let* v := get_vt t in smod (fun w => w <| vw_trans ::= insert t (f v) |>).
Definition mod_bss (b : nat) (f : vgcs_bss -> vgcs_bss) : VM unit :=
  let* x := get_bss b in smod (fun w => w <| vw_bss ::= insert b (f x) |>).
Definition mod_cell (c : nat) (f : vgcs_bss_cell -> vgcs_bss_cell) : VM unit :=
  let* x := get_cell c in smod (fun w => w <| vw_cells ::= insert c (f x) |>).
Definition mod_mgw (m : nat) (f : vgcs_mgw_ep -> vgcs_mgw_ep) : VM unit :=
  let* x := get_mgw m in smod (fun w => w <| vw_mgw ::= insert m (f x) |>).
Definition mod_rc (n : nat) (f : ran_conn -> ran_conn) : VM unit :=
  let* x := get_rc n in smod (fun w => w <| vw_conns ::= insert n (f x) |>).
Definition vg_emit (o : vg_out) : VM unit := smod (fun w => w <| vw_out ::= fun l => l ++ [o] |>).
Definition vg_ask : VM Z :=
  fun w => match vw_answers w with
           | [] => Ok 0 w
           | z :: l => Ok z (w <| vw_answers := l |>)
           end.
