(* ===== verification/Vgcs.v ===== *)
(** * Voice group calls: the state machines (msc_vgcs.c)

    Call control (GCC/BCC), BSS control, cell resources and the endpoint at
    the media gateway are four state machines that send each other events:
    [dispatch] is osmo_fsm_inst_dispatch of any of them, tied at the end.  An
    event that the mask of the state does not have is ignored, and so is a
    change to a state that the mask does not permit. *)

From S2P Require Import Prelude VlrTypes Codecs Sdp CallTypes CallBase CallLeg CMonad VgcsTypes.

Inductive vgcs_bss_fsm_event : Type :=
| VGCS_BSS_EV_SETUP | VGCS_BSS_EV_SETUP_ACK | VGCS_BSS_EV_SETUP_REFUSE | VGCS_BSS_EV_ACTIVE_OR_FAIL
| VGCS_BSS_EV_UL_REQUEST | VGCS_BSS_EV_UL_REQUEST_CNF (l3 : list Z) (ci : option Z) | VGCS_BSS_EV_UL_APP_DATA
| VGCS_BSS_EV_BSS_DTAP (m : gcc_msg) | VGCS_BSS_EV_UL_RELEASE | VGCS_BSS_EV_CLEAR | VGCS_BSS_EV_CLOSE
| VGCS_BSS_EV_RELEASED.
(** what VGCS/VBS ASSIGNMENT RESULT has *)
#[projections(primitive)]
Record vgcs_assign_res : Type := mk_assign_res {
  ar_aoip : option (list Z); ar_codec : option gsm0808_speech_codec_type; ar_call_id : option Z
}.
Inductive vgcs_cell_fsm_event : Type :=
| VGCS_CELL_EV_RTP_STREAM_GONE | VGCS_CELL_EV_RTP_STREAM_ADDR_AVAILABLE | VGCS_CELL_EV_RTP_STREAM_ESTABLISHED
| VGCS_CELL_EV_ASSIGN | VGCS_CELL_EV_ASSIGN_RES (r : vgcs_assign_res) | VGCS_CELL_EV_ASSIGN_FAIL
| VGCS_CELL_EV_CLEAR | VGCS_CELL_EV_CLOSE | VGCS_CELL_EV_RELEASED.
Inductive vgcs_mgw_ep_fsm_event : Type := VGCS_MGW_EP_EV_FREE | VGCS_MGW_EP_EV_CLEAR.

Inductive vg_ev : Type :=
| ToGcc (t : nat) (ev : vgcs_gcc_fsm_event)
| ToBss (b : nat) (ev : vgcs_bss_fsm_event)
| ToCell (c : nat) (ev : vgcs_cell_fsm_event)
| ToMgw (m : nat) (ev : vgcs_mgw_ep_fsm_event).

Section vgcs.
Context {SL : SockaddrLib} {CL : CallLib} {AC : AmrCfg} {VL : VgcsLib}.
Variable dispatch : vg_ev -> VM unit.

(** ** Sending *)

Definition ran_encode_and_send (conn : nat) (m : vg_ran_msg) (initial : bool) : VM unit :=
  get_rc conn ;;; vg_emit (VgRan conn m initial).
Definition vg_deref {A : Type} (o : option A) : VM A :=
  match o with Some a => sret a | None => sfault NullPtr end.
Definition tx_dtap_to_talker (b : nat) (m : gcc_msg) : VM unit :=
  let* x := get_bss b in let* n := vg_deref (b_conn x) in ran_encode_and_send n (RAN_MSG_DTAP m) false.

(** to the calling subscriber, depending on the link it is on *)
Definition tx_to_caller (k b : option nat) (m : gcc_msg) : VM unit :=
  match k, b with
  | Some k, _ => vg_emit (VgToCaller k m)
  | None, Some b => tx_dtap_to_talker b m
  | None, None => sret tt
  end.
Definition vg_callref (type : trans_type) (callref : Z) : gsm0808_callref :=
  mk_callref (bool_decide (type = TRANS_GCC)) (Z.land (Z.shiftr callref 3) 0xffffff) (Z.land callref 7).
(** pdisc | (transaction_id << 4) *)
Definition vg_pdisc (v : vgcs_trans) : Z :=
  Z.lor (if bool_decide (v_type v = TRANS_GCC) then 0 else 1) (Z.shiftl (v_id v) 4).

(** ** Call control: helpers *)

Definition gcc_connect (t : nat) : VM unit :=
  let* v := get_vt t in
  tx_to_caller (v_msc_a v) (v_uplink_bss v) (gsm44068_connect (vg_pdisc v) (v_callref v) None 1 0 None).

Definition release_msc_a (t : nat) : VM unit :=
  let* v := get_vt t in
  sopt (v_msc_a v) (fun k => mod_vt t (fun v => v <| v_msc_a := None |>) ;;; vg_emit (VgConnPut k (v_type v))).

Definition stop_inactivity_timer (t : nat) : VM unit := mod_vt t (fun v => v <| v_timer_inactivity := false |>).
Definition start_inactivity_timer (t : nat) : VM unit :=
  let* v := get_vt t in
  swhen (negb (v_inactivity_to v =? 0)) (mod_vt t (fun v => v <| v_timer_inactivity := true |>)).

(** bss_clear and trans_free, of which the rest follows *)
Definition gsm44068_bcc_gcc_trans_free (t : nat) : VM unit :=
  mod_vt t (fun v => v <| v_fi := None |>) ;;;
  let* v := get_vt t in
  sfor (v_bss_list v) (fun b => dispatch (ToBss b VGCS_BSS_EV_CLEAR)) ;;;
  stop_inactivity_timer t.

(** trans_free of transaction.c for a group call: out of the list, the hook,
    the memory, the use of the connection *)
Definition vg_trans_free (t : nat) : VM unit :=
  smod (fun w => w <| vw_list ::= filter (fun u => u <> t) |>) ;;;
  gsm44068_bcc_gcc_trans_free t ;;;
  let* v := get_vt t in
  smod (fun w => w <| vw_trans ::= delete t |>) ;;;
  sopt (v_msc_a v) (fun k => vg_emit (VgConnPut k (v_type v))).

Definition gcc_terminate_and_destroy (t : nat) (cause : gsm44068_cause) : VM unit :=
  let* v := get_vt t in
  tx_to_caller (v_msc_a v) (v_uplink_bss v) (gsm44068_termination (vg_pdisc v) MSGT_TERMINATION cause) ;;;
  mod_vt t (fun v => v <| v_callref := 0 |>) ;;;
  vg_trans_free t.
Definition gcc_termination_reject (t : nat) (cause : gsm44068_cause) : VM unit :=
  let* v := get_vt t in
  tx_to_caller (v_msc_a v) (v_uplink_bss v) (gsm44068_termination (vg_pdisc v) MSGT_TERMINATION_REJECT cause).

Definition set_parameter (t : nat) : VM unit :=
  let* v := get_vt t in
  tx_to_caller (v_msc_a v) (v_uplink_bss v)
    (gsm44068_set_parameter (vg_pdisc v) (if v_mute_talker v then 0 else 1) 1 1 (if v_uplink_originator v then 1 else 0)).

(** [None]: the cell cannot be told from the element *)
Definition set_uplink_cell (ob : option nat) (cell_id : option Z) : VM unit :=
  match cell_id with
  | None => sret tt
  | Some id =>
      let* b := vg_deref ob in
      let* x := get_bss b in
      let* t := vg_deref (b_trans x) in
      mod_vt t (fun v => v <| v_uplink_cell := None |>) ;;;
      let* cells := sgets vw_cells in
      sopt (find (fun c => match cells !! c with Some e => c_cell_id e =? id | None => false end) (b_cell_list x))
        (fun c => mod_vt t (fun v => v <| v_uplink_cell := Some c |>))
  end.

(** ** The RTP stream of a cell (rtp_stream.c) *)

Definition get_rtps (c : nat) : VM rtp_stream :=
  let* x := get_cell c in
  match c_rtps x with Rtp s => sret s | RtpNull => sfault NullPtr | RtpFreed => sfault BadRtp end.
Definition mod_rtps (c : nat) (f : rtp_stream -> rtp_stream) : VM unit :=
  let* s := get_rtps c in mod_cell c (fun x => x <| c_rtps := Rtp (f s) |>).

(** one codec at most: the map of payload types has room *)
Definition cell_mgcp_verb (c : nat) (verb : mgcp_verb) : VM Z :=
  let* s := get_rtps c in
  if negb (s_ci s) then sret (- EINVAL)
  else
    let remote := osmo_sockaddr_str_is_nonzero (s_remote s) in
    mod_rtps c (fun s => s <| s_codecs_sent ::= orb (s_codecs_known s) |>) ;;;
    if remote && str_empty (sa_ip (s_remote s)) then sret (-28)
    else
      mod_rtps c (fun s => s <| s_remote_sent ::= orb remote |> <| s_mode_sent := true |>) ;;;
      vg_emit (VgMgcp c verb (s_mode s) (if remote then s_remote s else no_addr)) ;;;
      sret 0.
Definition cell_rtp_commit (c : nat) : VM Z :=
  let* s := get_rtps c in
  if negb (osmo_sockaddr_str_is_nonzero (s_remote s)) then sret (-1)
  else if negb (s_codecs_known s) then sret (-1)
  else if s_remote_sent s && s_codecs_sent s && s_mode_sent s then sret 0
  else if negb (s_ci s) then sret (-1)
  else cell_mgcp_verb c MGCP_VERB_MDCX.
Definition cell_rtp_ensure_ci (c : nat) : VM Z :=
  let* s := get_rtps c in
  if s_ci s then cell_rtp_commit c
  else
    mod_rtps c (fun s => s <| s_state := RTP_STREAM_ST_ESTABLISHING |>) ;;;
    let* failed := vg_ask in
    if negb (failed =? 0) then sret (- ENODEV)
    else mod_rtps c (fun s => s <| s_ci := true |>) ;;; cell_mgcp_verb c MGCP_VERB_CRCX.

(** the stream ends: its connection is deleted, the memory is gone, and the
    cell gets an event *)
Definition cell_rtp_release (c : nat) : VM unit :=
  let* s := get_rtps c in
  swhen (s_ci s) (vg_emit (VgMgcp c MGCP_VERB_DLCX (s_mode s) no_addr)) ;;;
  mod_cell c (fun x => x <| c_rtps := RtpFreed |>) ;;;
  dispatch (ToCell c VGCS_CELL_EV_RTP_STREAM_GONE).

Definition cell_check_established (c : nat) : VM unit :=
  let* s := get_rtps c in
  swhen (negb (bool_decide (s_state s = RTP_STREAM_ST_ESTABLISHED))
         && osmo_sockaddr_str_is_nonzero (s_local s) && osmo_sockaddr_str_is_nonzero (s_remote s)
         && s_remote_sent s && s_codecs_known s)
    (mod_rtps c (fun s => s <| s_state := RTP_STREAM_ST_ESTABLISHED |>) ;;;
     dispatch (ToCell c VGCS_CELL_EV_RTP_STREAM_ESTABLISHED)).

(** is the stream still there after the cell has been told something? *)
Definition cell_rtp_alive (c : nat) : VM bool :=
  sgets (fun w => match vw_cells w !! c with
                  | Some x => match c_rtps x with Rtp _ => true | _ => false end
                  | None => false
                  end).
Definition cell_rtp_crcx_ok (c : nat) (info : crcx_info) : VM unit :=
  mod_rtps c (fun s => s <| s_local := osmo_sockaddr_str_from_str (ci_addr info) (ci_port info) |>) ;;;
  if ci_osmux info then cell_rtp_release c
  else
    dispatch (ToCell c VGCS_CELL_EV_RTP_STREAM_ADDR_AVAILABLE) ;;;
    let* alive := cell_rtp_alive c in
    swhen alive
      (cell_check_established c ;;;
       let* s := get_rtps c in
       swhen ((negb (s_remote_sent s) || negb (s_codecs_sent s) || negb (s_mode_sent s))
              && osmo_sockaddr_str_is_nonzero (s_remote s) && s_codecs_known s)
         (cell_mgcp_verb c MGCP_VERB_MDCX ;;; sret tt)).
Definition cell_rtp_dispatch (c : nat) (ev : rtp_stream_event) : VM unit :=
  let* s := get_rtps c in
  match s_state s with
  | RTP_STREAM_ST_ESTABLISHING =>
      match ev with
      | RTP_STREAM_EV_CRCX_OK info =>
          if negb (s_ci s) then sret tt
          else match info with Some info => cell_rtp_crcx_ok c info | None => sret tt end
      | RTP_STREAM_EV_MDCX_OK => cell_check_established c
      | RTP_STREAM_EV_CRCX_FAIL | RTP_STREAM_EV_MDCX_FAIL => cell_rtp_release c
      end
  | _ => sret tt
  end.

(** ** The conference *)

Definition cell_set_mode (c : nat) (mode : Z) : VM unit :=
  mod_rtps c (rtp_stream_set_mode mode) ;;; cell_rtp_commit c ;;; sret tt.
Definition set_mgw_conference (t : nat) : VM unit :=
  let* v := get_vt t in
  sfor (v_bss_list v) (fun b =>
    let* x := get_bss b in
    sfor (b_cell_list x) (fun c =>
      let* e := get_cell c in
      match c_rtps e with
      | RtpNull => sret tt
      | RtpFreed => sfault BadRtp
      | Rtp s => swhen (negb (s_mode s =? MGCP_CONN_SEND_ONLY)) (cell_set_mode c MGCP_CONN_SEND_ONLY)
      end)) ;;;
  sopt (v_uplink_cell v) (fun c =>
    let* e := sneed FreedUplinkCell (fun w => vw_cells w !! c) in
    match c_rtps e with
    | RtpNull => sret tt
    | RtpFreed => sfault BadRtp
    | Rtp _ => cell_set_mode c MGCP_CONN_CONFECHO
    end).

(** ** Call control: establishing *)

(** a cell: state machine and connection, in the lists of its BSS and of the
    endpoint *)
Definition cell_alloc (t m b : nat) (pc cell_id : Z) : VM unit :=
  let* v := get_vt t in
  let* no_conn := vg_ask in
  if negb (no_conn =? 0) then sret tt
  else
    let* c := sgets vw_next in
    smod (fun w => w <| vw_next := S (S c) |> <| vw_conns ::= insert (S c) (mk_ran_conn pc None (Some c)) |>
                     <| vw_cells ::= insert c (mk_vgcs_bss_cell VGCS_CELL_ST_NULL (Some b) (Some m) cell_id (Some (S c))
                                                 (v_type v) (v_callref v) (v_call_id v) pc false RtpNull) |>
                     <| vw_bss ::= alter (fun x => x <| b_cell_list ::= fun l => l ++ [c] |>) b |>
                     <| vw_mgw ::= alter (fun x => x <| m_cell_list ::= fun l => l ++ [c] |>) m |>).

(** a BSS with its connection; [None]: no connection *)
Definition bss_alloc (t : nat) (pc : Z) : VM (option nat) :=
  let* v := get_vt t in
  let* no_conn := vg_ask in
  if negb (no_conn =? 0) then sret None
  else
    let* b := sgets vw_next in
    smod (fun w => w <| vw_next := S (S b) |> <| vw_conns ::= insert (S b) (mk_ran_conn pc (Some b) None) |>
                     <| vw_bss ::= insert b (mk_vgcs_bss VGCS_BSS_ST_NULL [] (Some t) (Some (S b)) (v_type v) (v_callref v) pc) |>) ;;;
    sret (Some b).

(** the loop over the BSS list of the register; a BSS without cells is freed
    and ends the loop *)
Fixpoint establish_bss_loop (t m : nat) (l : list gcr_bss) : VM unit :=
  match l with
  | [] => sret tt
  | e :: l =>
      let* peers := sgets vw_peers in
      if negb (existsb (Z.eqb (gb_pc e)) peers) then establish_bss_loop t m l
      else
        let* ob := bss_alloc t (gb_pc e) in
        match ob with
        | None => establish_bss_loop t m l
        | Some b =>
            sfor (gb_cells e) (fun id => cell_alloc t m b (gb_pc e) id) ;;;
            let* x := get_bss b in
            match b_cell_list x with
            | [] => smod (fun w => w <| vw_bss ::= delete b |>)
            | _ =>
                mod_vt t (fun v => v <| v_bss_list ::= fun l => l ++ [b] |>) ;;;
                dispatch (ToBss b VGCS_BSS_EV_SETUP) ;;;
                establish_bss_loop t m l
            end
        end
  end.
Definition gcc_establish_bss (t : nat) : VM Z :=
  let* v := get_vt t in
  let* gcrs := sgets vw_gcr in
  match gcr_by_callref gcrs (v_type v) (v_callref v) with
  | None => sret (- EINVAL)
  | Some g =>
      let* no_client := vg_ask in
      if negb (no_client =? 0) then sret (- EINVAL)
      else
        let* m := sgets vw_next in
        smod (fun w => w <| vw_next := S m |> <| vw_mgw ::= insert m (mk_vgcs_mgw_ep []) |>) ;;;
        let* no_ep := vg_ask in
        if negb (no_ep =? 0) then smod (fun w => w <| vw_mgw ::= delete m |>) ;;; sret (- EINVAL)
        else
          establish_bss_loop t m (gr_bss_list g) ;;;
          let* v := get_vt t in
          match v_bss_list v with
          | [] => dispatch (ToMgw m VGCS_MGW_EP_EV_CLEAR) ;;; sret (- EINVAL)
          | _ => sret 0
          end
  end.

(** the BSS of the peer over which the subscriber calls *)
Fixpoint bss_of_peer (peer : Z) (l : list nat) : VM (option nat) :=
  match l with
  | [] => sret None
  | b :: l =>
      let* x := get_bss b in
      let* n := vg_deref (b_conn x) in
      let* rc := get_rc n in
      if rc_peer rc =? peer then sret (Some b) else bss_of_peer peer l
  end.
Definition gcc_assign (t : nat) : VM Z :=
  let* v := get_vt t in
  match v_msc_a v with
  | None => sret 0
  | Some k =>
      let* a := get_caller k in
      match k_peer a with
      | None => sret (- EINVAL)
      | Some peer =>
          let* ob := bss_of_peer peer (v_bss_list v) in
          match ob with
          | None => sret (- EINVAL)
          | Some b =>
              let* failed := vg_ask in
              if negb (failed =? 0) then sret (- EIO)
              else
                vg_emit (VgAssignCaller k (vg_callref (v_type v) (v_callref v))) ;;;
                mod_vt t (fun v => v <| v_uplink_bss := Some b |>) ;;;
                sret 0
          end
      end
  end.

Definition _assign_complete (t : nat) (send_connect : bool) : VM unit :=
  let* v := get_vt t in
  match v_msc_a v with
  | None => sfault Assertion
  | Some k =>
      mod_vt t (fun v => v <| v_fi := Some VGCS_GCC_ST_N2_CALL_ACTIVE |>) ;;;
      let* a := get_caller k in
      release_msc_a t ;;;
      swhen send_connect (gcc_connect t) ;;;
      set_parameter t ;;;
      let* v := get_vt t in
      swhen (negb (v_uplink_busy v)) (start_inactivity_timer t) ;;;
      set_uplink_cell (v_uplink_bss v) (Some (k_cell a)) ;;;
      set_mgw_conference t
  end.

Definition gcc_establish_or_destroy (t : nat) : VM unit :=
  let* rc := gcc_establish_bss t in
  swhen (rc <? 0) (gcc_terminate_and_destroy t CAUSE_NETWORK_FAILURE).
Definition vgcs_gcc_fsm_n0_null (t : nat) (ev : vgcs_gcc_fsm_event) : VM unit :=
  match ev with
  | VGCS_GCC_EV_NET_SETUP => gcc_establish_or_destroy t
  | VGCS_GCC_EV_NET_TERM => gcc_terminate_and_destroy t CAUSE_NORMAL_CALL_CLEARING
  | VGCS_GCC_EV_USER_SETUP =>
      mod_vt t (fun v => v <| v_fi := Some VGCS_GCC_ST_N1_CALL_INITIATED |>) ;;;
      gcc_establish_or_destroy t
  | VGCS_GCC_EV_BSS_ESTABLISHED =>
      mod_vt t (fun v => v <| v_fi := Some VGCS_GCC_ST_N2_CALL_ACTIVE |>) ;;;
      let* v := get_vt t in
      swhen (negb (v_uplink_busy v)) (start_inactivity_timer t)
  | VGCS_GCC_EV_BSS_RELEASED => gcc_terminate_and_destroy t CAUSE_NETWORK_FAILURE
  | _ => sfault Assertion
  end.
Definition gcc_assign_or_destroy (t : nat) : VM unit :=
  let* rc := gcc_assign t in
  swhen (rc <? 0) (gcc_terminate_and_destroy t CAUSE_NETWORK_FAILURE).
Definition vgcs_gcc_fsm_n1_call_initiated (t : nat) (ev : vgcs_gcc_fsm_event) : VM unit :=
  match ev with
  | VGCS_GCC_EV_NET_TERM | VGCS_GCC_EV_USER_TERM => gcc_terminate_and_destroy t CAUSE_NORMAL_CALL_CLEARING
  | VGCS_GCC_EV_BSS_ESTABLISHED => gcc_assign_or_destroy t
  | VGCS_GCC_EV_BSS_ASSIGN_CPL => _assign_complete t true
  | VGCS_GCC_EV_BSS_ASSIGN_FAIL | VGCS_GCC_EV_BSS_RELEASED => gcc_terminate_and_destroy t CAUSE_NETWORK_FAILURE
  | _ => sfault Assertion
  end.
Definition vgcs_gcc_fsm_n2_call_active (t : nat) (ev : vgcs_gcc_fsm_event) : VM unit :=
  match ev with
  | VGCS_GCC_EV_NET_TERM | VGCS_GCC_EV_TIMEOUT => gcc_terminate_and_destroy t CAUSE_NORMAL_CALL_CLEARING
  | VGCS_GCC_EV_USER_TERM =>
      let* v := get_vt t in
      if negb (v_uplink_originator v) then gcc_termination_reject t CAUSE_USER_NOT_ORIGINATOR
      else gcc_terminate_and_destroy t CAUSE_NORMAL_CALL_CLEARING
  | VGCS_GCC_EV_BSS_RELEASED => gcc_terminate_and_destroy t CAUSE_NETWORK_FAILURE
  | _ => sfault Assertion
  end.
Definition vgcs_gcc_fsm_n3_call_est_proc (t : nat) (ev : vgcs_gcc_fsm_event) : VM unit :=
  match ev with
  | VGCS_GCC_EV_NET_TERM | VGCS_GCC_EV_USER_TERM => gcc_terminate_and_destroy t CAUSE_NORMAL_CALL_CLEARING
  | VGCS_GCC_EV_BSS_ESTABLISHED => gcc_assign_or_destroy t
  | VGCS_GCC_EV_BSS_ASSIGN_CPL => _assign_complete t false
  | VGCS_GCC_EV_BSS_ASSIGN_FAIL | VGCS_GCC_EV_BSS_RELEASED => gcc_terminate_and_destroy t CAUSE_NETWORK_FAILURE
  | _ => sfault Assertion
  end.

(** the events in the masks of vgcs_gcc_fsm_states *)
Definition gcc_permits (s : vgcs_gcc_fsm_state) (ev : vgcs_gcc_fsm_event) : bool :=
  match s, ev with
  | VGCS_GCC_ST_N0_NULL, (VGCS_GCC_EV_NET_SETUP | VGCS_GCC_EV_NET_TERM | VGCS_GCC_EV_USER_SETUP
                          | VGCS_GCC_EV_BSS_ESTABLISHED | VGCS_GCC_EV_BSS_RELEASED) => true
  | (VGCS_GCC_ST_N1_CALL_INITIATED | VGCS_GCC_ST_N3_CALL_EST_PROC),
    (VGCS_GCC_EV_NET_TERM | VGCS_GCC_EV_USER_TERM | VGCS_GCC_EV_BSS_ESTABLISHED | VGCS_GCC_EV_BSS_ASSIGN_CPL
     | VGCS_GCC_EV_BSS_ASSIGN_FAIL | VGCS_GCC_EV_BSS_RELEASED) => true
  | VGCS_GCC_ST_N2_CALL_ACTIVE, (VGCS_GCC_EV_NET_TERM | VGCS_GCC_EV_USER_TERM | VGCS_GCC_EV_BSS_RELEASED
                                 | VGCS_GCC_EV_TIMEOUT) => true
  | _, _ => false
  end.
Definition gcc_dispatch (t : nat) (ev : vgcs_gcc_fsm_event) : VM unit :=
  let* v := get_vt t in
  sopt (v_fi v) (fun s =>
    swhen (gcc_permits s ev)
      match s with
      | VGCS_GCC_ST_N0_NULL => vgcs_gcc_fsm_n0_null t ev
      | VGCS_GCC_ST_N1_CALL_INITIATED => vgcs_gcc_fsm_n1_call_initiated t ev
      | VGCS_GCC_ST_N2_CALL_ACTIVE => vgcs_gcc_fsm_n2_call_active t ev
      | VGCS_GCC_ST_N3_CALL_EST_PROC => vgcs_gcc_fsm_n3_call_est_proc t ev
      end).

(** ** Messages of the calling subscriber *)

Definition vg_find (p : vgcs_trans -> bool) (w : vg_world) : option nat :=
  find (fun t => match vw_trans w !! t with Some v => p v | None => false end) (vw_list w).
Definition vg_find_by_type (vsub : option nat) (type : trans_type) : vg_world -> option nat :=
  vg_find (fun v => opt_eqb (v_vsub v) vsub && bool_decide (v_type v = type)).
Definition vg_find_by_id (vsub : option nat) (type : trans_type) (id : Z) : vg_world -> option nat :=
  vg_find (fun v => opt_eqb (v_vsub v) vsub && bool_decide (v_type v = type) && (v_id v =? id)).
Definition vg_find_by_callref (type : trans_type) (callref : Z) : vg_world -> option nat :=
  vg_find (fun v => (v_callref v =? callref) && bool_decide (v_type v = type)).

Definition trans_alloc_vgcs (vsub : option nat) (type : trans_type) (id callref : Z) (g : gcr) (uplink_busy : bool) : VM nat :=
  let* t := sgets vw_next in
  let* call_id := sgets vw_new_call_id in
  smod (fun w => w <| vw_next := S t |> <| vw_new_call_id := u32 (call_id + 1) |> <| vw_list ::= fun l => l ++ [t] |>
                   <| vw_trans ::= insert t (mk_vgcs_trans type id vsub None callref call_id (Some VGCS_GCC_ST_N0_NULL) []
                                               (gr_timeout g) false (gr_mute_talker g) uplink_busy None None true) |>) ;;;
  sret t.

Definition is_setup (type : gsm44068_mt) : bool :=
  match type with MSGT_IMMEDIATE_SETUP | MSGT_SETUP | MSGT_IMMEDIATE_SETUP_2 => true | _ => false end.
Definition msg_pdisc (type : trans_type) (id : Z) : Z :=
  Z.lor (if bool_decide (type = TRANS_GCC) then 0 else 1) (Z.shiftl id 4).

(** the use for the CM Service Request is given back, if there is one *)
Definition put_cm_service (k : nat) (a : vg_caller) (type : trans_type) : VM unit :=
  if bool_decide (type = TRANS_GCC)
  then swhen (negb (k_cm_gcc a =? 0)) (smod (fun w => w <| vw_callers ::= insert k (a <| k_cm_gcc := k_cm_gcc a - 1 |>) |>) ;;; vg_emit (VgCmServicePut k type))
  else swhen (negb (k_cm_bcc a =? 0)) (smod (fun w => w <| vw_callers ::= insert k (a <| k_cm_bcc := k_cm_bcc a - 1 |>) |>) ;;; vg_emit (VgCmServicePut k type)).

(** [None]: no transaction, an answer may have been sent *)
Definition trans_create_bcc_gcc (ok : option nat) (type : trans_type) (id : Z) (mt : gsm44068_mt) (callref : Z) : VM (option nat) :=
  match ok with
  | None => sret None
  | Some k =>
      let* a := get_caller k in
      match k_vsub a with
      | None => sret None
      | Some vs =>
          let reject cause := vg_emit (VgToCaller k (gsm44068_termination (msg_pdisc type id) MSGT_TERMINATION cause)) ;;; sret None in
          put_cm_service k a type ;;;
          if negb (is_setup mt) then sret None
          else
            let* found := sgets (vg_find_by_callref type callref) in
            match found with
            | Some _ => reject CAUSE_BUSY
            | None =>
                let* gcrs := sgets vw_gcr in
                match gcr_by_callref gcrs type callref with
                | None => reject CAUSE_REQUESTED_SERVICE_NOT_SUB
                | Some g =>
                    let* t := trans_alloc_vgcs (Some vs) type id callref g true in
                    let* refused := vg_ask in
                    if negb (refused =? 0) then gcc_terminate_and_destroy t CAUSE_NETWORK_FAILURE ;;; sret None
                    else
                      vg_emit (VgConnGet k type) ;;;
                      mod_vt t (fun v => v <| v_msc_a := Some k |>) ;;;
                      sret (Some t)
                end
            end
      end
  end.

(** the call reference of the message, 0 where it has none; [None]: an error *)
Definition parse_bcc_gcc (m : gcc_msg) : option Z :=
  match gm_type m with
  | MSGT_SETUP => gp_callref <$> gsm44068_rx_setup (gm_data m)
  | MSGT_IMMEDIATE_SETUP => gp_callref <$> gsm44068_rx_immediate_setup false (gm_data m)
  | MSGT_IMMEDIATE_SETUP_2 => gp_callref <$> gsm44068_rx_immediate_setup true (gm_data m)
  | MSGT_STATUS => (fun _ => 0) <$> gsm44068_rx_status (gm_data m)
  | MSGT_TERMINATION_REQUEST => gp_callref <$> gsm44068_rx_termination_req (gm_data m)
  | _ => None
  end.
(** gsm48_hdr_trans_id_flip_ti, gsm48_hdr_pdisc *)
Definition msg_tid (m : gcc_msg) : Z := Z.lxor (Z.land (Z.shiftr (gm_proto_discr m) 4) 15) 8.
Definition msg_type (m : gcc_msg) : trans_type := if Z.land (gm_proto_discr m) 15 =? 0 then TRANS_GCC else TRANS_BCC.

Definition handle_bcc_gcc (t : nat) (m : gcc_msg) (callref : Z) : VM unit :=
  if is_setup (gm_type m) then dispatch (ToGcc t VGCS_GCC_EV_USER_SETUP)
  else match gm_type m with
       | MSGT_TERMINATION_REQUEST =>
           let* v := get_vt t in
           swhen (callref =? v_callref v) (dispatch (ToGcc t VGCS_GCC_EV_USER_TERM))
       | _ => sret tt
       end.
Definition gsm44068_rcv_bcc_gcc (k t : option nat) (m : gcc_msg) : VM unit :=
  match parse_bcc_gcc m with
  | None => sret tt
  | Some callref =>
      let* ot := match t, k with
                 | Some t, _ => sret (Some t)
                 | None, Some k => let* a := get_caller k in sgets (vg_find_by_id (k_vsub a) (msg_type m) (msg_tid m))
                 | None, None => sret None
                 end in
      match ot with
      | None =>
          let* ot := trans_create_bcc_gcc k (msg_type m) (msg_tid m) (gm_type m) callref in
          sopt ot (fun t => handle_bcc_gcc t m callref)
      | Some t =>
          if is_setup (gm_type m) then
            tx_to_caller k None (gsm44068_termination (msg_pdisc (msg_type m) (msg_tid m)) MSGT_TERMINATION CAUSE_NETWORK_FAILURE)
          else handle_bcc_gcc t m callref
      end
  end.

(** ** Control of a BSS *)

Definition update_uplink_state (b : nat) (uplink_busy : bool) : VM unit :=
  let* x := get_bss b in
  let* n := vg_deref (b_conn x) in
  ran_encode_and_send n (if uplink_busy then RAN_MSG_UPLINK_SEIZED_CMD else RAN_MSG_UPLINK_RELEASE_CMD) false.

(** UPLINK RELEASE before the assignment: after the loop, [bss] is not an
    entry of the list, but its head *)
Definition gsm44068_rcv_rr (k : nat) : VM unit :=
  let* a := get_caller k in
  let* g := sgets (vg_find_by_type (k_vsub a) TRANS_GCC) in
  let* b := sgets (vg_find_by_type (k_vsub a) TRANS_BCC) in
  sopt (match g with Some t => Some t | None => b end) (fun t =>
    mod_vt t (fun v => v <| v_uplink_bss := None |> <| v_uplink_cell := None |> <| v_uplink_busy := false |>) ;;;
    let* v := get_vt t in
    sfor (v_bss_list v) (fun b => update_uplink_state b (v_uplink_busy v)) ;;;
    sfault ListHead).

(** out of the list of the transaction, which forgets the talker *)
Definition bss_detach_trans (b : nat) : VM unit :=
  let* x := get_bss b in
  sopt (b_trans x) (fun t =>
    let* v := get_vt t in
    let v := if opt_eqb (v_uplink_bss v) (Some b) then v <| v_uplink_bss := None |> <| v_uplink_cell := None |> else v in
    smod (fun w => w <| vw_trans ::= insert t (v <| v_bss_list ::= filter (fun u => u <> b) |>) |>
                     <| vw_bss ::= insert b (x <| b_trans := None |>) |>)).
Definition bss_detach_cells (b : nat) : VM unit :=
  let* x := get_bss b in
  smod (fun w => w <| vw_cells ::= fmap (fun e => if opt_eqb (c_bss e) (Some b) then e <| c_bss := None |> else e) |>
                   <| vw_bss ::= insert b (x <| b_cell_list := [] |>) |>).

(** to RELEASE, except from NULL *)
Definition bss_set_release (b : nat) : VM unit :=
  mod_bss b (fun x => if bool_decide (b_state x = VGCS_BSS_ST_NULL) then x else x <| b_state := VGCS_BSS_ST_RELEASE |>).

Definition bss_clear (b : nat) (cause : vg_cause) (notify_trans : bool) : VM unit :=
  let* x := get_bss b in
  bss_detach_trans b ;;;
  bss_set_release b ;;;
  sopt (b_conn x) (fun n => ran_encode_and_send n (RAN_MSG_CLEAR_COMMAND cause) false) ;;;
  sfor (b_cell_list x) (fun c => dispatch (ToCell c VGCS_CELL_EV_CLEAR)) ;;;
  bss_detach_cells b ;;;
  swhen notify_trans
    (sopt (b_trans x) (fun t =>
       let* v := get_vt t in
       match v_bss_list v with [] => dispatch (ToGcc t VGCS_GCC_EV_BSS_RELEASED) | _ => sret tt end)).

Definition ran_conn_close (n : nat) : VM unit :=
  get_rc n ;;; vg_emit (VgConnClose n) ;;; smod (fun w => w <| vw_conns ::= delete n |>).

Definition bss_destroy (b : nat) : VM unit :=
  bss_detach_trans b ;;;
  let* x := get_bss b in
  sopt (b_conn x) (fun n => ran_conn_close n ;;; mod_bss b (fun x => x <| b_conn := None |>)) ;;;
  bss_detach_cells b ;;;
  smod (fun w => w <| vw_bss ::= delete b |>).

(** is the talker the originator? *)
Definition talker_identity (v : vgcs_trans) (l3 : list Z) : VM bool :=
  let* vsubs := sgets vw_vsubs in
  sret match osmo_mobile_identity_decode_from_l3 l3, (match v_vsub v with Some n => vsubs !! n | None => None end) with
       | Some (MiImsi imsi), Some s => String.eqb imsi (vs_imsi s)
       | Some (MiTmsi tmsi), Some s => tmsi =? vs_tmsi s
       | _, _ => false
       end.

Definition bss_closed (b : nat) : VM unit :=
  let* x := get_bss b in
  sopt (b_conn x) (fun n => mod_rc n (fun r => r <| rc_bss := None |>) ;;; mod_bss b (fun x => x <| b_conn := None |>)) ;;;
  bss_clear b GSM0808_CAUSE_PROTOCOL_ERROR true.

Definition vgcs_bss_fsm_null (b : nat) (ev : vgcs_bss_fsm_event) : VM unit :=
  match ev with
  | VGCS_BSS_EV_SETUP =>
      mod_bss b (fun x => x <| b_state := VGCS_BSS_ST_SETUP |>) ;;;
      let* x := get_bss b in
      let* t := vg_deref (b_trans x) in
      let* v := get_vt t in
      let* n := vg_deref (b_conn x) in
      ran_encode_and_send n (RAN_MSG_VGCS_VBS_SETUP (vg_callref (v_type v) (b_callref x))) true
  | VGCS_BSS_EV_CLEAR => bss_clear b GSM0808_CAUSE_CALL_CONTROL false
  | _ => sfault Assertion
  end.

Definition vgcs_bss_fsm_setup (b : nat) (ev : vgcs_bss_fsm_event) : VM unit :=
  match ev with
  | VGCS_BSS_EV_SETUP_ACK =>
      let* x := get_bss b in
      sopt (b_trans x) (fun t => let* v := get_vt t in update_uplink_state b (v_uplink_busy v)) ;;;
      mod_bss b (fun x => x <| b_state := VGCS_BSS_ST_ASSIGNMENT |>) ;;;
      sfor (b_cell_list x) (fun c => dispatch (ToCell c VGCS_CELL_EV_ASSIGN)) ;;;
      let* x := get_bss b in
      match b_cell_list x with [] => bss_clear b GSM0808_CAUSE_PROTOCOL_ERROR true | _ => sret tt end
  | VGCS_BSS_EV_SETUP_REFUSE => bss_clear b GSM0808_CAUSE_PROTOCOL_ERROR true
  | VGCS_BSS_EV_CLEAR => bss_clear b GSM0808_CAUSE_CALL_CONTROL false
  | VGCS_BSS_EV_CLOSE => bss_closed b
  | _ => sfault Assertion
  end.

Definition vgcs_bss_fsm_assignment (b : nat) (ev : vgcs_bss_fsm_event) : VM unit :=
  match ev with
  | VGCS_BSS_EV_ACTIVE_OR_FAIL =>
      let* x := get_bss b in
      match b_cell_list x with
      | [] => bss_clear b GSM0808_CAUSE_PROTOCOL_ERROR true
      | l =>
          let* cells := sgets vw_cells in
          swhen (forallb (fun c => match cells !! c with Some e => c_assigned e | None => true end) l)
            (mod_bss b (fun x => x <| b_state := VGCS_BSS_ST_ACTIVE |>) ;;;
             sopt (b_trans x) (fun t => dispatch (ToGcc t VGCS_GCC_EV_BSS_ESTABLISHED)))
      end
  | VGCS_BSS_EV_CLEAR => bss_clear b GSM0808_CAUSE_CALL_CONTROL false
  | VGCS_BSS_EV_CLOSE => bss_closed b
  | _ => sfault Assertion
  end.

(** a listener wants to talk: the command that blocks the other BSSs is sent
    once for each of them, to this one *)
Definition bss_uplink_request (b t : nat) (v : vgcs_trans) (n : nat) : VM unit :=
  if v_uplink_busy v then ran_encode_and_send n RAN_MSG_UPLINK_REJECT_CMD false
  else
    ran_encode_and_send n RAN_MSG_UPLINK_REQUEST_ACK false ;;;
    mod_vt t (fun v => v <| v_uplink_bss := Some b |> <| v_uplink_busy := true |> <| v_uplink_originator := false |>) ;;;
    sfor (v_bss_list v) (fun other => swhen (negb (Nat.eqb other b)) (update_uplink_state b true)) ;;;
    stop_inactivity_timer t.
Definition bss_uplink_request_cnf (b t : nat) (l3 : list Z) (ci : option Z) : VM unit :=
  let* v := get_vt t in
  swhen (v_uplink_busy v && opt_eqb (v_uplink_bss v) (Some b))
    (let* originator := talker_identity v l3 in
     swhen originator (mod_vt t (fun v => v <| v_uplink_originator := true |>)) ;;;
     set_parameter t ;;;
     set_uplink_cell (Some b) ci ;;;
     set_mgw_conference t).
Definition bss_uplink_release (b t : nat) : VM unit :=
  let* v := get_vt t in
  if bool_decide (v_type v = TRANS_BCC) then gcc_terminate_and_destroy t CAUSE_NORMAL_CALL_CLEARING
  else swhen (v_uplink_busy v && opt_eqb (v_uplink_bss v) (Some b))
         (mod_vt t (fun v => v <| v_uplink_bss := None |> <| v_uplink_cell := None |> <| v_uplink_busy := false |>) ;;;
          sfor (v_bss_list v) (fun other => swhen (negb (Nat.eqb other b)) (update_uplink_state b false)) ;;;
          set_mgw_conference t ;;;
          start_inactivity_timer t).

Definition vgcs_bss_fsm_active (b : nat) (ev : vgcs_bss_fsm_event) : VM unit :=
  let* x := get_bss b in
  match ev with
  | VGCS_BSS_EV_UL_REQUEST =>
      sopt (b_trans x) (fun t => let* v := get_vt t in let* n := vg_deref (b_conn x) in bss_uplink_request b t v n)
  | VGCS_BSS_EV_UL_REQUEST_CNF l3 ci => sopt (b_trans x) (fun t => bss_uplink_request_cnf b t l3 ci)
  | VGCS_BSS_EV_UL_APP_DATA => sret tt
  | VGCS_BSS_EV_BSS_DTAP m =>
      sopt (b_trans x) (fun t =>
        let* v := get_vt t in
        swhen (v_uplink_busy v && opt_eqb (v_uplink_bss v) (Some b)) (gsm44068_rcv_bcc_gcc None (Some t) m))
  | VGCS_BSS_EV_UL_RELEASE => sopt (b_trans x) (fun t => bss_uplink_release b t)
  | VGCS_BSS_EV_CLEAR => bss_clear b GSM0808_CAUSE_CALL_CONTROL false
  | VGCS_BSS_EV_CLOSE => bss_closed b
  | _ => sfault Assertion
  end.

Definition vgcs_bss_fsm_release (b : nat) (ev : vgcs_bss_fsm_event) : VM unit :=
  match ev with
  | VGCS_BSS_EV_CLOSE | VGCS_BSS_EV_RELEASED => bss_destroy b
  | _ => sfault Assertion
  end.

(** the masks of vgcs_bss_fsm_states *)
Definition bss_permits (s : vgcs_bss_fsm_state) (ev : vgcs_bss_fsm_event) : bool :=
  match s, ev with
  | VGCS_BSS_ST_NULL, (VGCS_BSS_EV_SETUP | VGCS_BSS_EV_CLEAR) => true
  | VGCS_BSS_ST_SETUP, (VGCS_BSS_EV_SETUP_ACK | VGCS_BSS_EV_SETUP_REFUSE | VGCS_BSS_EV_CLEAR | VGCS_BSS_EV_CLOSE) => true
  | VGCS_BSS_ST_ASSIGNMENT, (VGCS_BSS_EV_ACTIVE_OR_FAIL | VGCS_BSS_EV_CLEAR | VGCS_BSS_EV_CLOSE) => true
  | VGCS_BSS_ST_ACTIVE, (VGCS_BSS_EV_UL_REQUEST | VGCS_BSS_EV_UL_REQUEST_CNF _ _ | VGCS_BSS_EV_UL_APP_DATA
                         | VGCS_BSS_EV_BSS_DTAP _ | VGCS_BSS_EV_UL_RELEASE | VGCS_BSS_EV_CLEAR | VGCS_BSS_EV_CLOSE) => true
  | VGCS_BSS_ST_RELEASE, (VGCS_BSS_EV_CLEAR | VGCS_BSS_EV_RELEASED) => true
  | _, _ => false
  end.
Definition bss_dispatch (b : nat) (ev : vgcs_bss_fsm_event) : VM unit :=
  let* x := get_bss b in
  swhen (bss_permits (b_state x) ev)
    match b_state x with
    | VGCS_BSS_ST_NULL => vgcs_bss_fsm_null b ev
    | VGCS_BSS_ST_SETUP => vgcs_bss_fsm_setup b ev
    | VGCS_BSS_ST_ASSIGNMENT => vgcs_bss_fsm_assignment b ev
    | VGCS_BSS_ST_ACTIVE => vgcs_bss_fsm_active b ev
    | VGCS_BSS_ST_RELEASE => vgcs_bss_fsm_release b ev
    end.

(** ** Resources of a cell *)

(** out of the list of the BSS; the transaction forgets the talking cell *)
Definition cell_detach_bss (c : nat) : VM unit :=
  let* e := get_cell c in
  sopt (c_bss e) (fun b =>
    let* x := get_bss b in
    sopt (b_trans x) (fun t =>
      mod_vt t (fun v => if opt_eqb (v_uplink_cell v) (Some c) then v <| v_uplink_cell := None |> else v)) ;;;
    smod (fun w => w <| vw_bss ::= insert b (x <| b_cell_list ::= filter (fun u => u <> c) |>) |>
                     <| vw_cells ::= insert c (e <| c_bss := None |>) |>)).
Definition cell_detach_mgw (c : nat) : VM unit :=
  let* e := get_cell c in
  sopt (c_mgw e) (fun m =>
    let* x := get_mgw m in
    smod (fun w => w <| vw_mgw ::= insert m (x <| m_cell_list ::= filter (fun u => u <> c) |>) |>
                     <| vw_cells ::= insert c (e <| c_mgw := None |>) |>) ;;;
    let* x := get_mgw m in
    match m_cell_list x with [] => dispatch (ToMgw m VGCS_MGW_EP_EV_CLEAR) | _ => sret tt end).

Definition cell_close_conn (c : nat) : VM unit :=
  let* e := get_cell c in
  sopt (c_conn e) (fun n => ran_conn_close n ;;; mod_cell c (fun e => e <| c_conn := None |>)).
Definition cell_destroy (c : nat) : VM unit :=
  cell_close_conn c ;;;
  cell_detach_bss c ;;;
  cell_detach_mgw c ;;;
  smod (fun w => w <| vw_cells ::= delete c |>).

Definition rtps_set (e : vgcs_bss_cell) : bool := match c_rtps e with RtpNull => false | _ => true end.
(** to RELEASE, except from NULL *)
Definition cell_set_release (c : nat) : VM unit :=
  mod_cell c (fun e => if bool_decide (c_state e = VGCS_CELL_ST_NULL) then e else e <| c_state := VGCS_CELL_ST_RELEASE |>).
Definition cell_clear (c : nat) (cause : vg_cause) : VM unit :=
  cell_detach_bss c ;;;
  cell_set_release c ;;;
  let* e := get_cell c in
  if negb (bool_decide (is_Some (c_conn e))) && negb (rtps_set e) then cell_destroy c
  else
    sopt (c_conn e) (fun n => ran_encode_and_send n (RAN_MSG_CLEAR_COMMAND cause) false) ;;;
    swhen (rtps_set e) (cell_rtp_release c).

Definition cell_set_codec (type : gsm0808_speech_codec_type) (c : nat) : VM bool :=
  match codec_mapping_by_gsm0808_speech_codec_type type with
  | Some cm => mod_rtps c (rtp_stream_set_one_codec (cm_sdp cm)) ;;; sret true
  | None => sret false
  end.

Definition vgcs_cell_fsm_null (c : nat) (ev : vgcs_cell_fsm_event) : VM unit :=
  match ev with
  | VGCS_CELL_EV_ASSIGN =>
      let* e := get_cell c in
      mod_cell c (fun e => e <| c_rtps := Rtp (rtp_stream_alloc RTP_TO_RAN (c_call_id e) None) |>) ;;;
      let* known := cell_set_codec GSM0808_SCT_FR1 c in
      if negb known then cell_clear c GSM0808_CAUSE_PROTOCOL_ERROR
      else
        mod_rtps c (rtp_stream_set_mode MGCP_CONN_RECV_ONLY) ;;;
        let* has_trans := match c_bss e with
                          | Some b => let* x := get_bss b in sret (bool_decide (is_Some (b_trans x)))
                          | None => sret false
                          end in
        if negb has_trans || negb (bool_decide (is_Some (c_mgw e))) then cell_clear c GSM0808_CAUSE_PROTOCOL_ERROR
        else
          let* rc := cell_rtp_ensure_ci c in
          if rc <? 0 then cell_clear c GSM0808_CAUSE_PROTOCOL_ERROR
          else mod_cell c (fun e => e <| c_state := VGCS_CELL_ST_ASSIGNMENT |>)
  | VGCS_CELL_EV_CLEAR => cell_clear c GSM0808_CAUSE_CALL_CONTROL
  | _ => sfault Assertion
  end.

(** channel_fail *)
Definition cell_channel_fail (c : nat) : VM unit :=
  let* e := get_cell c in
  cell_clear c GSM0808_CAUSE_PROTOCOL_ERROR ;;;
  sopt (c_bss e) (fun b => dispatch (ToBss b VGCS_BSS_EV_ACTIVE_OR_FAIL)).
(** the pointer to the cell stays in the connection: it is that to a BSS that
    is reset *)
Definition cell_closed (c : nat) : VM unit :=
  let* e := get_cell c in
  sopt (c_conn e) (fun n => mod_rc n (fun r => r <| rc_bss := None |>) ;;; mod_cell c (fun e => e <| c_conn := None |>)) ;;;
  cell_clear c GSM0808_CAUSE_PROTOCOL_ERROR.

Definition cell_assign_res (c : nat) (r : vgcs_assign_res) : VM unit :=
  mod_cell c (fun e => e <| c_assigned := true |>) ;;;
  match ar_aoip r, ar_codec r, ar_call_id r with
  | None, None, None => cell_channel_fail c
  | aoip, codec, _ => (* what is missing is zero: no address, GSM0808_SCT_FR1 *)
      match osmo_sockaddr_str_from_sockaddr (default [] aoip) with
      | None => cell_channel_fail c
      | Some ss =>
          mod_rtps c (rtp_stream_set_remote_addr ss) ;;;
          let* known := cell_set_codec (default GSM0808_SCT_FR1 codec) c in
          if negb known then cell_channel_fail c
          else
            mod_rtps c (rtp_stream_set_mode MGCP_CONN_SEND_ONLY) ;;;
            let* rc := cell_rtp_commit c in
            if rc <? 0 then cell_channel_fail c
            else
              mod_cell c (fun e => e <| c_state := VGCS_CELL_ST_ACTIVE |>) ;;;
              let* e := get_cell c in
              sopt (c_bss e) (fun b => dispatch (ToBss b VGCS_BSS_EV_ACTIVE_OR_FAIL))
      end
  end.

Definition vgcs_cell_fsm_assignment (c : nat) (ev : vgcs_cell_fsm_event) : VM unit :=
  match ev with
  | VGCS_CELL_EV_RTP_STREAM_GONE =>
      mod_cell c (fun e => e <| c_rtps := RtpNull |>) ;;; cell_channel_fail c
  | VGCS_CELL_EV_RTP_STREAM_ADDR_AVAILABLE =>
      let* s := get_rtps c in
      if negb (osmo_sockaddr_str_is_nonzero (s_local s)) then cell_channel_fail c
      else
        let* e := get_cell c in
        let* n := vg_deref (c_conn e) in
        ran_encode_and_send n (RAN_MSG_VGCS_VBS_ASSIGN_REQ (vg_callref (c_type e) (c_callref e)) (c_cell_id e) (c_call_id e)
                                 (s_local s)) true
  | VGCS_CELL_EV_RTP_STREAM_ESTABLISHED => sret tt
  | VGCS_CELL_EV_ASSIGN_RES r => cell_assign_res c r
  | VGCS_CELL_EV_ASSIGN_FAIL => cell_channel_fail c
  | VGCS_CELL_EV_CLEAR => cell_clear c GSM0808_CAUSE_CALL_CONTROL
  | VGCS_CELL_EV_CLOSE => cell_closed c
  | _ => sfault Assertion
  end.
Definition vgcs_cell_fsm_active (c : nat) (ev : vgcs_cell_fsm_event) : VM unit :=
  match ev with
  | VGCS_CELL_EV_RTP_STREAM_GONE =>
      mod_cell c (fun e => e <| c_rtps := RtpNull |>) ;;; cell_clear c GSM0808_CAUSE_PROTOCOL_ERROR
  | VGCS_CELL_EV_RTP_STREAM_ESTABLISHED => sret tt
  | VGCS_CELL_EV_CLEAR => cell_clear c GSM0808_CAUSE_CALL_CONTROL
  | VGCS_CELL_EV_CLOSE => cell_closed c
  | _ => sfault Assertion
  end.
Definition vgcs_cell_fsm_release (c : nat) (ev : vgcs_cell_fsm_event) : VM unit :=
  match ev with
  | VGCS_CELL_EV_RTP_STREAM_GONE =>
      mod_cell c (fun e => e <| c_rtps := RtpNull |>) ;;;
      let* e := get_cell c in
      if bool_decide (is_Some (c_conn e)) then sret tt else cell_destroy c
  | VGCS_CELL_EV_CLEAR | VGCS_CELL_EV_RELEASED =>
      let* e := get_cell c in
      if rtps_set e then cell_close_conn c else cell_destroy c
  | _ => sfault Assertion
  end.

(** the masks of vgcs_cell_fsm_states *)
Definition cell_permits (s : vgcs_cell_fsm_state) (ev : vgcs_cell_fsm_event) : bool :=
  match s, ev with
  | VGCS_CELL_ST_NULL, (VGCS_CELL_EV_ASSIGN | VGCS_CELL_EV_CLEAR) => true
  | VGCS_CELL_ST_ASSIGNMENT, (VGCS_CELL_EV_RTP_STREAM_GONE | VGCS_CELL_EV_RTP_STREAM_ADDR_AVAILABLE
                              | VGCS_CELL_EV_RTP_STREAM_ESTABLISHED | VGCS_CELL_EV_ASSIGN_RES _ | VGCS_CELL_EV_ASSIGN_FAIL
                              | VGCS_CELL_EV_CLEAR | VGCS_CELL_EV_CLOSE) => true
  | VGCS_CELL_ST_ACTIVE, (VGCS_CELL_EV_RTP_STREAM_GONE | VGCS_CELL_EV_RTP_STREAM_ESTABLISHED | VGCS_CELL_EV_CLEAR
                          | VGCS_CELL_EV_CLOSE) => true
  | VGCS_CELL_ST_RELEASE, (VGCS_CELL_EV_RTP_STREAM_GONE | VGCS_CELL_EV_CLEAR | VGCS_CELL_EV_RELEASED) => true
  | _, _ => false
  end.
Definition cell_dispatch (c : nat) (ev : vgcs_cell_fsm_event) : VM unit :=
  let* e := get_cell c in
  swhen (cell_permits (c_state e) ev)
    match c_state e with
    | VGCS_CELL_ST_NULL => vgcs_cell_fsm_null c ev
    | VGCS_CELL_ST_ASSIGNMENT => vgcs_cell_fsm_assignment c ev
    | VGCS_CELL_ST_ACTIVE => vgcs_cell_fsm_active c ev
    | VGCS_CELL_ST_RELEASE => vgcs_cell_fsm_release c ev
    end.

(** ** The endpoint at the media gateway *)

Definition vgcs_mgw_ep_fsm_active (m : nat) (ev : vgcs_mgw_ep_fsm_event) : VM unit :=
  let* x := get_mgw m in
  match ev with
  | VGCS_MGW_EP_EV_FREE =>
      sfor (m_cell_list x) (fun c =>
        let* e := get_cell c in
        match c_rtps e with
        | RtpNull => sret tt
        | RtpFreed => sfault BadRtp
        | Rtp _ => mod_rtps c (fun s => s <| s_ci := false |>)
        end) ;;;
      smod (fun w => w <| vw_cells ::= fmap (fun e => if opt_eqb (c_mgw e) (Some m) then e <| c_mgw := None |> else e) |>
                       <| vw_mgw ::= delete m |>) ;;;
      vg_emit (VgMgwDrop m true)
  | VGCS_MGW_EP_EV_CLEAR =>
      match m_cell_list x with
      | [] => smod (fun w => w <| vw_mgw ::= delete m |>) ;;; vg_emit (VgMgwDrop m false)
      | _ => sret tt
      end
  end.
End vgcs.

(** ** All of them *)

(** [n] events may be nested *)
Fixpoint vg_dispatch {SL : SockaddrLib} {CL : CallLib} {AC : AmrCfg} {VL : VgcsLib} (n : nat) (ev : vg_ev) : VM unit :=
  match n with
  | O => sfault TooNested
  | S n =>
      match ev with
      | ToGcc t ev => gcc_dispatch (vg_dispatch n) t ev
      | ToBss b ev => bss_dispatch (vg_dispatch n) b ev
      | ToCell c ev => cell_dispatch (vg_dispatch n) c ev
      | ToMgw m ev => vgcs_mgw_ep_fsm_active m ev
      end
  end.

Section events.
Context {SL : SockaddrLib} {CL : CallLib} {AC : AmrCfg} {VL : VgcsLib} (n : nat).
Notation dispatch := (vg_dispatch n).

(** messages of the RAN on a connection of a group call; the position of the
    talker: the cell identity, if it is one that is understood *)
Inductive vg_ran_up : Type :=
| UpSetupAck | UpSetupRefuse | UpUplinkRequest | UpUplinkRequestCnf (l3 : list Z) (ci : option Z) | UpAppData
| UpDtap (m : gcc_msg) | UpUplinkReleaseInd | UpClearRequest | UpClearComplete
| UpAssignRes (r : vgcs_assign_res) | UpAssignFail | UpQueuingInd | UpAssignStatus.

Definition msc_a_rx_vgcs_bss_decoded (b : nat) (m : vg_ran_up) : VM unit :=
  let* x := sneed FreedOfConn (fun w => vw_bss w !! b) in
  let with_trans ev := swhen (bool_decide (is_Some (b_trans x))) (dispatch (ToBss b ev)) in
  match m with
  | UpSetupAck => with_trans VGCS_BSS_EV_SETUP_ACK
  | UpSetupRefuse => with_trans VGCS_BSS_EV_SETUP_REFUSE
  | UpUplinkRequest => with_trans VGCS_BSS_EV_UL_REQUEST
  | UpUplinkRequestCnf l3 ci => with_trans (VGCS_BSS_EV_UL_REQUEST_CNF l3 ci)
  | UpAppData => with_trans VGCS_BSS_EV_UL_APP_DATA
  | UpDtap m => with_trans (VGCS_BSS_EV_BSS_DTAP m)
  | UpUplinkReleaseInd => with_trans VGCS_BSS_EV_UL_RELEASE
  | UpClearRequest => dispatch (ToBss b VGCS_BSS_EV_CLOSE)
  | UpClearComplete => dispatch (ToBss b VGCS_BSS_EV_RELEASED)
  | _ => sret tt
  end.
Definition msc_a_rx_vgcs_cell_decoded (c : nat) (m : vg_ran_up) : VM unit :=
  sneed FreedOfConn (fun w => vw_cells w !! c) ;;;
  match m with
  | UpAssignRes r => dispatch (ToCell c (VGCS_CELL_EV_ASSIGN_RES r))
  | UpAssignFail => dispatch (ToCell c VGCS_CELL_EV_ASSIGN_FAIL)
  | UpClearRequest => dispatch (ToCell c VGCS_CELL_EV_CLOSE)
  | UpClearComplete => dispatch (ToCell c VGCS_CELL_EV_RELEASED)
  | _ => sret tt
  end.
(** RAN_PEER_EV_MSG_UP_CO *)
Definition ran_peer_msg_up (conn : nat) (m : vg_ran_up) : VM unit :=
  let* rc := get_rc conn in
  match rc_bss rc, rc_cell rc with
  | Some b, _ => msc_a_rx_vgcs_bss_decoded b m
  | None, Some c => msc_a_rx_vgcs_cell_decoded c m
  | None, None => sret tt
  end.
(** after a RESET of the peer; the last connection comes first *)
Definition ran_peer_discard_all_conns (pc : Z) : VM unit :=
  let* conns := sgets (fun w => List.filter (fun n => match vw_conns w !! n with Some rc => rc_peer rc =? pc | None => false end)
                                  (rev (seq 0 (vw_next w)))) in
  sfor conns (fun conn =>
    let* rc := get_rc conn in
    match rc_bss rc, rc_cell rc with
    | Some b, _ => sneed FreedOfConn (fun w => vw_bss w !! b) ;;; dispatch (ToBss b VGCS_BSS_EV_RELEASED)
    | None, Some c => sneed FreedOfConn (fun w => vw_cells w !! c) ;;; dispatch (ToCell c VGCS_CELL_EV_RELEASED)
    | None, None => smod (fun w => w <| vw_conns ::= delete conn |>)
    end).
(** the SCCP connection is gone *)
Definition ran_peer_disconnect (conn : nat) : VM unit := smod (fun w => w <| vw_conns ::= delete conn |>).

(** the call reference of a call from the VTY: the digits of the group *)
Definition vgcs_vty_initiate (g : gcr) : VM unit :=
  let callref := u32 (CLib.atoi (gr_group_id g)) in
  let* found := sgets (vg_find_by_callref (gr_type g) callref) in
  match found with
  | Some _ => sret tt
  | None =>
      let* t := trans_alloc_vgcs None (gr_type g) 0 callref g false in
      dispatch (ToGcc t VGCS_GCC_EV_NET_SETUP)
  end.
Definition vgcs_vty_terminate (g : gcr) : VM unit :=
  let* found := sgets (vg_find_by_callref (gr_type g) (u32 (CLib.atoi (gr_group_id g)))) in
  sopt found (fun t => dispatch (ToGcc t VGCS_GCC_EV_NET_TERM)).

(** the answer to the assignment of the calling subscriber *)
Definition vgcs_caller_assigned (k : nat) (complete : bool) : VM unit :=
  let* a := get_caller k in
  let* g := sgets (vg_find_by_type (k_vsub a) TRANS_GCC) in
  let* b := sgets (vg_find_by_type (k_vsub a) TRANS_BCC) in
  sopt (match g with Some t => Some t | None => b end) (fun t =>
    dispatch (ToGcc t (if complete then VGCS_GCC_EV_BSS_ASSIGN_CPL else VGCS_GCC_EV_BSS_ASSIGN_FAIL))).

(** trans_conn_closed *)
Definition vg_conn_closed (k : nat) : VM unit :=
  let* l := sgets vw_list in
  sfor l (fun t =>
    let* v := get_vt t in
    swhen (opt_eqb (v_msc_a v) (Some k)) (vg_trans_free dispatch t)).

Inductive vg_event : Type :=
| EvRanUp (conn : nat) (m : vg_ran_up) | EvPeerReset (pc : Z) | EvDisconnected (conn : nat)
| EvCellRtp (c : nat) (ev : rtp_stream_event) | EvMgwGone (m : nat)
| EvCaller (k : nat) (m : gcc_msg) | EvCallerRr (k : nat) | EvCallerAssigned (k : nat) (complete : bool)
| EvCallerClosed (k : nat) | EvInactive (t : nat) | EvVtyInitiate (i : nat) | EvVtyTerminate (i : nat)
| EvNewCaller (k : nat) (a : vg_caller) | EvGcr (l : list gcr) | EvPeers (l : list Z) | EvAnswers (l : list Z).

(** when an event can happen: a timer that runs, a stream or a connection that
    exists, an entry of the register *)
Definition vg_enabled (ev : vg_event) (w : vg_world) : bool :=
  match ev with
  | EvRanUp conn _ => bool_decide (is_Some (vw_conns w !! conn))
  | EvCellRtp c _ => match vw_cells w !! c with Some e => match c_rtps e with Rtp _ => true | _ => false end | None => false end
  | EvMgwGone m => bool_decide (is_Some (vw_mgw w !! m))
  | EvCaller k _ | EvCallerRr k | EvCallerAssigned k _ | EvCallerClosed k => bool_decide (is_Some (vw_callers w !! k))
  | EvInactive t => match vw_trans w !! t with Some v => v_timer_inactivity v | None => false end
  | EvNewCaller k a => bool_decide (vw_callers w !! k = None) && bool_decide (is_Some (k_vsub a))
  | EvGcr l => forallb (fun g => Nat.leb (String.length (gr_group_id g)) 8 && bool_decide (gr_type g = TRANS_GCC \/ gr_type g = TRANS_BCC)) l
  | _ => true
  end.
Definition vg_run (ev : vg_event) : VM unit :=
  match ev with
  | EvRanUp conn m => ran_peer_msg_up conn m
  | EvPeerReset pc => ran_peer_discard_all_conns pc
  | EvDisconnected conn => ran_peer_disconnect conn
  | EvCellRtp c ev => cell_rtp_dispatch dispatch c ev
  | EvMgwGone m => dispatch (ToMgw m VGCS_MGW_EP_EV_FREE)
  | EvCaller k m => gsm44068_rcv_bcc_gcc dispatch (Some k) None m
  | EvCallerRr k => gsm44068_rcv_rr k
  | EvCallerAssigned k complete => vgcs_caller_assigned k complete
  | EvCallerClosed k => vg_conn_closed k ;;; smod (fun w => w <| vw_callers ::= delete k |>)
  | EvInactive t => mod_vt t (fun v => v <| v_timer_inactivity := false |>) ;;; dispatch (ToGcc t VGCS_GCC_EV_TIMEOUT)
  | EvVtyInitiate i => let* l := sgets vw_gcr in sopt (l !! i) vgcs_vty_initiate
  | EvVtyTerminate i => let* l := sgets vw_gcr in sopt (l !! i) vgcs_vty_terminate
  | EvNewCaller k a => smod (fun w => w <| vw_callers ::= insert k a |>)
  | EvGcr l => smod (fun w => w <| vw_gcr := l |>)
  | EvPeers l => smod (fun w => w <| vw_peers := l |>)
  | EvAnswers l => smod (fun w => w <| vw_answers := l |>)
  end.
Definition vg_step (ev : vg_event) (w : vg_world) : sres vg_fault vg_world unit :=
  if vg_enabled ev w then vg_run ev w else Ok tt w.
Inductive vg_reachable (w0 : vg_world) : vg_world -> Prop :=
| vg_reach_init : vg_reachable w0 w0
| vg_reach_step w ev w' : vg_reachable w0 w -> vg_step ev w = Ok tt w' -> vg_reachable w0 w'.
Fixpoint vg_run_all (evs : list vg_event) : VM unit :=
  match evs with
  | [] => sret tt
  | ev :: evs => (fun w => vg_step ev w) ;;; vg_run_all evs
  end.
End events.

Definition vg_init (vsubs : gmap nat vg_vsub) : vg_world :=
  mk_vg_world ∅ [] 0 1 ∅ ∅ ∅ ∅ ∅ vsubs [] [] [] [].
