(* ===== verification/VgcsSample.v ===== *)
(** * A sample group call

    Concrete instances of what group calls use of libraries, and the events of
    a call to a group of two BSSs with a cell each, as inputs on which the
    theorems about group calls are applied. *)

From S2P Require Import Prelude VlrTypes Codecs Sdp CallTypes CallLeg CallSample CMonad VgcsTypes Vgcs.

Definition vg_sample_lib : VgcsLib :=
  {| gsm44068_cause_code c := match c with
                              | CAUSE_NETWORK_FAILURE => 3 | CAUSE_BUSY => 5 | CAUSE_NORMAL_CALL_CLEARING => 16
                              | CAUSE_REQUESTED_SERVICE_NOT_SUB => 50 | CAUSE_USER_NOT_ORIGINATOR => 113
                              end;
     IEI_SMS_INDICATIONS := 0xa0;
     gsm44068_tlv_parse l := match l with [] => Some (fun _ => None) | _ => None end;
     osmo_mobile_identity_decode l := Some MiOther;
     osmo_mobile_identity_decode_from_l3 l := match l with [] => None | t :: _ => Some (MiTmsi t) end;
     MGCP_CONN_RECV_ONLY := 1; MGCP_CONN_SEND_ONLY := 2; MGCP_CONN_CONFECHO := 11 |}.
Definition vg_call_lib : CallLib :=
  {| osmo_sockaddr_str_is_nonzero a := str_nonempty (sa_ip a) && negb (sa_port a =? 0);
     osmo_sockaddr_str_eq a b := String.eqb (sa_ip a) (sa_ip b) && (sa_port a =? sa_port b);
     osmo_sockaddr_str_to_sockaddr a := Some [sa_port a];
     osmo_sockaddr_str_from_sockaddr l := match l with [] => None | p :: _ => Some (mk_sockaddr AF_INET "10.0.0.9" p) end;
     MGCP_MAX_CODECS := 10; osmo_enc_gcr _ := None; osmo_dec_gcr _ := None |}.

(** group 100 in the cells 1 of BSS 5 and 2 of BSS 6 *)
Definition vg_sample_gcr : gcr := mk_gcr_entry TRANS_GCC "100" 60 true [mk_gcr_bss 5 [1]; mk_gcr_bss 6 [2]].
Definition vg_sample_setup : gcc_msg := mk_gcc_msg 0 MSGT_SETUP (_add_callref_ie 100 None).
Definition vg_configured : list vg_event :=
  [EvGcr [vg_sample_gcr]; EvPeers [5; 6]; EvNewCaller 1 (mk_vg_caller (Some 1%nat) 1 (Some 5) 1 0)].
(** the SETUP: transaction 0, endpoint 1, BSS 2 with connection 3, cell 4 with
    connection 5, BSS 6 with connection 7, cell 8 with connection 9 *)
Definition vg_set_up : list vg_event := vg_configured ++ [EvCaller 1 vg_sample_setup].
Definition vg_crcx_ok : rtp_stream_event := RTP_STREAM_EV_CRCX_OK (Some (mk_crcx "10.0.0.1" 4000 false 0)).
Definition vg_assign_res : vg_ran_up := UpAssignRes (mk_assign_res (Some [4001]) (Some GSM0808_SCT_FR1) (Some 1)).
Definition vg_established : list vg_event :=
  vg_set_up ++ [EvRanUp 3 UpSetupAck; EvRanUp 7 UpSetupAck; EvCellRtp 4 vg_crcx_ok; EvCellRtp 8 vg_crcx_ok;
                EvRanUp 5 vg_assign_res; EvRanUp 9 vg_assign_res].
Definition vg_active : list vg_event := vg_established ++ [EvCallerAssigned 1 true].

(** a call to three BSSs: the caller's leaves the uplink before its assignment
    is complete, the second gets it; when the third is established, the call goes
    back to the caller's BSS, but keeps the cell of the second, which then goes *)
Definition vg_three_gcr : gcr := mk_gcr_entry TRANS_GCC "100" 60 true [mk_gcr_bss 5 [1]; mk_gcr_bss 6 [2]; mk_gcr_bss 7 [3]].
Definition vg_talker_lost : list vg_event :=
  [EvGcr [vg_three_gcr]; EvPeers [5; 6; 7]; EvNewCaller 1 (mk_vg_caller (Some 1%nat) 1 (Some 5) 1 0); EvCaller 1 vg_sample_setup;
   EvRanUp 3 UpSetupAck; EvRanUp 7 UpSetupAck; EvRanUp 11 UpSetupAck;
   EvCellRtp 4 vg_crcx_ok; EvCellRtp 8 vg_crcx_ok; EvCellRtp 12 vg_crcx_ok; EvRanUp 5 vg_assign_res; EvRanUp 9 vg_assign_res;
   EvRanUp 3 UpUplinkReleaseInd; EvRanUp 7 UpUplinkRequest; EvRanUp 7 (UpUplinkRequestCnf [] (Some 2)); EvRanUp 13 vg_assign_res;
   EvRanUp 7 UpClearRequest; EvRanUp 9 UpClearComplete].

Definition vg_sample_run (n : nat) (evs : list vg_event) : sres vg_fault vg_world unit :=
  vg_run_all (SL := sample_sockaddr) (CL := vg_call_lib) (AC := sample_amr) (VL := vg_sample_lib) n evs
    (vg_init {[1%nat := mk_vg_vsub "262420000000001" 0x1234]}).
Definition vg_sample_world (evs : list vg_event) : vg_world :=
  match vg_sample_run 7 evs with Ok _ w => w | Fault _ => vg_init ∅ end.
