(* ===== verification/VgcsInv.v ===== *)
(** * Voice group calls: the links between the state machines

    [shape] is what ties transactions, BSSs, cells and endpoints together:
    lists, back pointers and states.  [vg_ok] says that lists and back
    pointers agree.  Most code does not change the shape at all; the few
    operations that do keep [vg_ok]. *)

From S2P Require Import Prelude VlrTypes Codecs Sdp CallTypes CallBase CallLeg CMonad VgcsTypes Vgcs.

(** ** The shape of a world *)

#[projections(primitive)]
Record trans_shape : Type := mk_ts {
  ts_bss : list nat; ts_msc_a : option nat; ts_fi : option vgcs_gcc_fsm_state; ts_uplink : option nat
}.
#[projections(primitive)]
Record bss_shape : Type := mk_bs { bs_state : vgcs_bss_fsm_state; bs_trans : option nat; bs_cells : list nat }.
#[projections(primitive)]
Record cell_shape : Type := mk_cs { cs_state : vgcs_cell_fsm_state; cs_bss : option nat; cs_mgw : option nat }.
#[projections(primitive)]
Record vg_shape : Type := mk_shape {
  h_trans : gmap nat trans_shape; h_bss : gmap nat bss_shape; h_cells : gmap nat cell_shape; h_mgw : gmap nat (list nat);
  h_list : list nat; h_next : nat
}.
Definition shape_t (v : vgcs_trans) : trans_shape := mk_ts (v_bss_list v) (v_msc_a v) (v_fi v) (v_uplink_bss v).
Definition shape_b (x : vgcs_bss) : bss_shape := mk_bs (b_state x) (b_trans x) (b_cell_list x).
Definition shape_c (e : vgcs_bss_cell) : cell_shape := mk_cs (c_state e) (c_bss e) (c_mgw e).
Definition shape (w : vg_world) : vg_shape :=
  mk_shape (shape_t <$> vw_trans w) (shape_b <$> vw_bss w) (shape_c <$> vw_cells w) (m_cell_list <$> vw_mgw w)
    (vw_list w) (vw_next w).

(** ** The invariant

    [new]: a BSS under construction, which is not in the list yet *)
Record vg_ok (new : option nat) (h : vg_shape) : Prop := {
  ok_bss_nodup : forall t v, h_trans h !! t = Some v -> NoDup (ts_bss v);
  ok_bss_of_trans : forall t v b, h_trans h !! t = Some v -> b ∈ ts_bss v ->
    exists x, h_bss h !! b = Some x /\ bs_trans x = Some t;
  ok_trans_of_bss : forall b x t, h_bss h !! b = Some x -> bs_trans x = Some t ->
    exists v, h_trans h !! t = Some v /\ (b ∈ ts_bss v \/ new = Some b);
  ok_released : forall b x, h_bss h !! b = Some x -> bs_state x = VGCS_BSS_ST_RELEASE -> bs_trans x = None;
  ok_cell_of_bss : forall b x c, h_bss h !! b = Some x -> c ∈ bs_cells x ->
    exists e, h_cells h !! c = Some e /\ cs_bss e = Some b;
  ok_bss_of_cell : forall c e b, h_cells h !! c = Some e -> cs_bss e = Some b ->
    exists x, h_bss h !! b = Some x /\ c ∈ bs_cells x;
  ok_cells_nodup : forall b x, h_bss h !! b = Some x -> NoDup (bs_cells x);
  ok_cell_of_mgw : forall m l c, h_mgw h !! m = Some l -> c ∈ l ->
    exists e, h_cells h !! c = Some e /\ cs_mgw e = Some m;
  ok_mgw_of_cell : forall c e m, h_cells h !! c = Some e -> cs_mgw e = Some m ->
    exists l, h_mgw h !! m = Some l /\ c ∈ l;
  ok_mgw_nodup : forall m l, h_mgw h !! m = Some l -> NoDup l;
  ok_fresh : forall i, (h_next h <= i)%nat ->
    h_trans h !! i = None /\ h_bss h !! i = None /\ h_cells h !! i = None /\ h_mgw h !! i = None;
  ok_caller : forall t v, h_trans h !! t = Some v ->
    ts_fi v = Some VGCS_GCC_ST_N1_CALL_INITIATED \/ ts_fi v = Some VGCS_GCC_ST_N3_CALL_EST_PROC -> is_Some (ts_msc_a v);
  ok_uplink : forall t v b, h_trans h !! t = Some v -> ts_uplink v = Some b -> b ∈ ts_bss v;
  ok_list : NoDup (h_list h) /\ forall t, t ∈ h_list h -> is_Some (h_trans h !! t)
}.

(** what must not happen *)
Definition vg_tolerated (f : vg_fault) : Prop :=
  match f with BadTrans | BadBss | BadCell | BadMgw | Assertion | TooNested => False | _ => True end.

Lemma shape_trans w t : h_trans (shape w) !! t = shape_t <$> vw_trans w !! t.
Proof. apply lookup_fmap. Qed.
Lemma shape_bss w b : h_bss (shape w) !! b = shape_b <$> vw_bss w !! b.
Proof. apply lookup_fmap. Qed.
Lemma shape_cells w c : h_cells (shape w) !! c = shape_c <$> vw_cells w !! c.
Proof. apply lookup_fmap. Qed.
Lemma shape_mgw w m : h_mgw (shape w) !! m = m_cell_list <$> vw_mgw w !! m.
Proof. apply lookup_fmap. Qed.

Notation vwp := (swp vg_tolerated).
(** *** Access *)

Lemma vwp_get_vt t (Q : vgcs_trans -> vg_world -> Prop) w :
  is_Some (h_trans (shape w) !! t) -> (forall v, vw_trans w !! t = Some v -> Q v w) -> vwp (get_vt t) Q w.
Proof. rewrite shape_trans, fmap_is_Some. intros [v H] HQ. apply swp_need; [congruence|done]. Qed.
Lemma vwp_get_bss b (Q : vgcs_bss -> vg_world -> Prop) w :
  is_Some (h_bss (shape w) !! b) -> (forall x, vw_bss w !! b = Some x -> Q x w) -> vwp (get_bss b) Q w.
Proof. rewrite shape_bss, fmap_is_Some. intros [v H] HQ. apply swp_need; [congruence|done]. Qed.
Lemma vwp_get_cell c (Q : vgcs_bss_cell -> vg_world -> Prop) w :
  is_Some (h_cells (shape w) !! c) -> (forall e, vw_cells w !! c = Some e -> Q e w) -> vwp (get_cell c) Q w.
Proof. rewrite shape_cells, fmap_is_Some. intros [v H] HQ. apply swp_need; [congruence|done]. Qed.
Lemma vwp_get_mgw m (Q : vgcs_mgw_ep -> vg_world -> Prop) w :
  is_Some (h_mgw (shape w) !! m) -> (forall e, vw_mgw w !! m = Some e -> Q e w) -> vwp (get_mgw m) Q w.
Proof. rewrite shape_mgw, fmap_is_Some. intros [v H] HQ. apply swp_need; [congruence|done]. Qed.
Lemma vwp_get_rc n (Q : ran_conn -> vg_world -> Prop) w :
  (forall r, vw_conns w !! n = Some r -> Q r w) -> vwp (get_rc n) Q w.
Proof. intros HQ. by apply swp_need. Qed.
Lemma vwp_get_caller k (Q : vg_caller -> vg_world -> Prop) w :
  (forall r, vw_callers w !! k = Some r -> Q r w) -> vwp (get_caller k) Q w.
Proof. intros HQ. by apply swp_need. Qed.
Lemma vwp_deref {A} (o : option A) (Q : A -> vg_world -> Prop) w : (forall a, o = Some a -> Q a w) -> vwp (vg_deref o) Q w.
Proof. intros HQ. destruct o; [by apply HQ|by apply swp_fault]. Qed.
Lemma vwp_ask (Q : Z -> vg_world -> Prop) w :
  (forall z w', shape w' = shape w -> Q z w') -> vwp vg_ask Q w.
Proof. intros HQ. unfold vg_ask, swp. destruct (vw_answers w); by apply HQ. Qed.

(** *** Updates *)

Lemma vwp_mod_vt t f (Q : unit -> vg_world -> Prop) w :
  is_Some (h_trans (shape w) !! t) ->
  (forall v w', vw_trans w !! t = Some v -> shape w' = shape w <| h_trans ::= insert t (shape_t (f v)) |> -> Q tt w') ->
  vwp (mod_vt t f) Q w.
Proof.
  intros Ht HQ. apply swp_bind, vwp_get_vt; [done|]. intros v Hv. apply swp_mod. eapply HQ; [done|].
  unfold shape. cbn. by rewrite fmap_insert.
Qed.
Lemma vwp_mod_bss b f (Q : unit -> vg_world -> Prop) w :
  is_Some (h_bss (shape w) !! b) ->
  (forall x w', vw_bss w !! b = Some x -> shape w' = shape w <| h_bss ::= insert b (shape_b (f x)) |> -> Q tt w') ->
  vwp (mod_bss b f) Q w.
Proof.
  intros Ht HQ. apply swp_bind, vwp_get_bss; [done|]. intros v Hv. apply swp_mod. eapply HQ; [done|].
  unfold shape. cbn. by rewrite fmap_insert.
Qed.
Lemma vwp_mod_cell c f (Q : unit -> vg_world -> Prop) w :
  is_Some (h_cells (shape w) !! c) ->
  (forall e w', vw_cells w !! c = Some e -> shape w' = shape w <| h_cells ::= insert c (shape_c (f e)) |> -> Q tt w') ->
  vwp (mod_cell c f) Q w.
Proof.
  intros Ht HQ. apply swp_bind, vwp_get_cell; [done|]. intros v Hv. apply swp_mod. eapply HQ; [done|].
  unfold shape. cbn. by rewrite fmap_insert.
Qed.

(** ** Code that leaves the shape as it is *)

Definition still {A : Type} (h : vg_shape) (m : VM A) : Prop :=
  forall w, shape w = h -> vwp m (fun _ w' => shape w' = h) w.

Lemma still_ret {A} h (a : A) : still h (sret a).
Proof. by intros w. Qed.
Lemma still_fault {A} h f : vg_tolerated f -> still (A := A) h (sfault f).
Proof. intros Hf w _. by apply swp_fault. Qed.
Lemma still_emit h o : still h (vg_emit o).
Proof. by intros w <-. Qed.
Lemma still_mod h f : (forall w, shape (f w) = shape w) -> still h (smod f).
Proof. intros Hf w <-. apply swp_mod, Hf. Qed.
Lemma still_bind {A B} h (m : VM A) (k : A -> VM B) : still h m -> (forall a, still h (k a)) -> still h (sbind m k).
Proof. intros Hm Hk w Hw. apply swp_bind. eapply swp_mono; [by apply Hm|]. intros a w' Hw'. by apply Hk. Qed.
Lemma still_gets {A B} h (f : vg_world -> A) (k : A -> VM B) : (forall a, still h (k a)) -> still h (sbind (sgets f) k).
Proof. intros Hk w Hw. apply swp_bind, swp_gets. by apply Hk. Qed.
Lemma still_when h b m : (b = true -> still h m) -> still h (swhen b m).
Proof. intros Hm w Hw. by apply swp_when; [intros Hb; apply Hm|]. Qed.
Lemma still_opt {A} h (o : option A) m : (forall a, o = Some a -> still h (m a)) -> still h (sopt o m).
Proof. intros Hm w Hw. by apply swp_opt; [intros a Ha; apply Hm|]. Qed.
Lemma still_for {A} h (l : list A) (body : A -> VM unit) : (forall a, a ∈ l -> still h (body a)) -> still h (sfor l body).
Proof.
  induction l as [|a l IH]; intros Hb; cbn [sfor]; [apply still_ret|].
  apply still_bind; [apply Hb; by left|]. intros _. apply IH. intros b Hin. apply Hb. by right.
Qed.
Lemma still_ask {B} h (k : Z -> VM B) : (forall z, still h (k z)) -> still h (sbind vg_ask k).
Proof. intros Hk w <-. apply swp_bind, vwp_ask. intros z w' Hw'. by apply Hk. Qed.
Lemma still_get_rc {B} h n (k : ran_conn -> VM B) : (forall r, still h (k r)) -> still h (sbind (get_rc n) k).
Proof. intros Hk w Hw. apply swp_bind, vwp_get_rc. intros. by apply Hk. Qed.
Lemma still_get_caller {B} h n (k : vg_caller -> VM B) : (forall r, still h (k r)) -> still h (sbind (get_caller n) k).
Proof. intros Hk w Hw. apply swp_bind, vwp_get_caller. intros. by apply Hk. Qed.
Lemma still_deref {A B} h (o : option A) (k : A -> VM B) : (forall a, o = Some a -> still h (k a)) -> still h (sbind (vg_deref o) k).
Proof. intros Hk w Hw. apply swp_bind, vwp_deref. intros. by apply Hk. Qed.
Lemma still_need {A B} h f (o : vg_world -> option A) (k : A -> VM B) :
  vg_tolerated f -> (forall a, still h (k a)) -> still h (sbind (sneed f o) k).
Proof. intros Hf Hk w Hw. apply swp_bind, swp_need; [done|]. intros. by apply Hk. Qed.
Lemma still_get_vt {B} h t (k : vgcs_trans -> VM B) :
  is_Some (h_trans h !! t) -> (forall v, h_trans h !! t = Some (shape_t v) -> still h (k v)) -> still h (sbind (get_vt t) k).
Proof.
  intros Ht Hk w Hw. apply swp_bind, vwp_get_vt; [by rewrite Hw|]. intros v Hv. apply Hk; [|done].
  by rewrite <- Hw, shape_trans, Hv.
Qed.
Lemma still_get_bss {B} h b (k : vgcs_bss -> VM B) :
  is_Some (h_bss h !! b) -> (forall v, h_bss h !! b = Some (shape_b v) -> still h (k v)) -> still h (sbind (get_bss b) k).
Proof.
  intros Ht Hk w Hw. apply swp_bind, vwp_get_bss; [by rewrite Hw|]. intros v Hv. apply Hk; [|done].
  by rewrite <- Hw, shape_bss, Hv.
Qed.
Lemma still_get_cell {B} h c (k : vgcs_bss_cell -> VM B) :
  is_Some (h_cells h !! c) -> (forall v, h_cells h !! c = Some (shape_c v) -> still h (k v)) -> still h (sbind (get_cell c) k).
Proof.
  intros Ht Hk w Hw. apply swp_bind, vwp_get_cell; [by rewrite Hw|]. intros v Hv. apply Hk; [|done].
  by rewrite <- Hw, shape_cells, Hv.
Qed.
Lemma still_mod_vt h t f : is_Some (h_trans h !! t) -> (forall v, shape_t (f v) = shape_t v) -> still h (mod_vt t f).
Proof.
  intros Ht Hf w <-. apply vwp_mod_vt; [done|]. intros v w' Hv ->. rewrite Hf.
  change (shape w <| h_trans := insert t (shape_t v) (h_trans (shape w)) |> = shape w).
  by rewrite insert_id by (by rewrite shape_trans, Hv).
Qed.
Lemma still_mod_bss h b f : is_Some (h_bss h !! b) -> (forall v, shape_b (f v) = shape_b v) -> still h (mod_bss b f).
Proof.
  intros Ht Hf w <-. apply vwp_mod_bss; [done|]. intros v w' Hv ->. rewrite Hf.
  change (shape w <| h_bss := insert b (shape_b v) (h_bss (shape w)) |> = shape w).
  by rewrite insert_id by (by rewrite shape_bss, Hv).
Qed.
Lemma still_mod_cell h c f : is_Some (h_cells h !! c) -> (forall v, shape_c (f v) = shape_c v) -> still h (mod_cell c f).
Proof.
  intros Ht Hf w <-. apply vwp_mod_cell; [done|]. intros v w' Hv ->. rewrite Hf.
  change (shape w <| h_cells := insert c (shape_c v) (h_cells (shape w)) |> = shape w).
  by rewrite insert_id by (by rewrite shape_cells, Hv).
Qed.
Lemma still_mod_rc h n f : still h (mod_rc n f).
Proof. intros w <-. apply swp_bind, vwp_get_rc. intros. by apply swp_mod. Qed.

Create HintDb still.
#[export] Hint Resolve still_ret still_emit still_mod_rc : still.

(** one step; what is left are the objects that must be there *)
Ltac still_step :=
  lazymatch goal with
  | |- still _ (sret _) => apply still_ret
  | |- still _ (sfault _) => apply still_fault; exact I
  | |- still _ (vg_emit _) => apply still_emit
  | |- still _ (smod _) => apply still_mod; reflexivity
  | |- still _ (mod_rc _ _) => apply still_mod_rc
  | |- still _ (mod_vt _ _) => apply still_mod_vt; [|intros ?; reflexivity]
  | |- still _ (mod_bss _ _) => apply still_mod_bss; [|intros ?; reflexivity]
  | |- still _ (mod_cell _ _) => apply still_mod_cell; [|intros ?; reflexivity]
  | |- still _ (sbind (get_vt _) _) => apply still_get_vt; [|intros ? ?]
  | |- still _ (sbind (get_bss _) _) => apply still_get_bss; [|intros ? ?]
  | |- still _ (sbind (get_cell _) _) => apply still_get_cell; [|intros ? ?]
  | |- still _ (sbind (get_rc _) _) => apply still_get_rc; intros ?
  | |- still _ (sbind (get_caller _) _) => apply still_get_caller; intros ?
  | |- still _ (sbind (vg_deref _) _) => apply still_deref; intros ? ?
  | |- still _ (sbind (sneed FreedUplinkCell _) _) => apply still_need; [exact I|intros ?]
  | |- still _ (sbind (sgets _) _) => apply still_gets; intros ?
  | |- still _ (sbind vg_ask _) => apply still_ask; intros ?
  | |- still _ (sbind _ _) => apply still_bind; [|intros ?]
  | |- still _ (swhen _ _) => apply still_when; intros ?
  | |- still _ (sopt _ _) => apply still_opt; intros ? ?
  | |- still _ (sfor _ _) => apply still_for; intros ? ?
  | |- still _ (if _ then _ else _) => case_match
  | |- still _ (match _ with _ => _ end) => case_match
  end.
Ltac still_tac := repeat first [progress eauto 3 with still | still_step].
