(* ===== verification/VgcsStill.v ===== *)
(** * Voice group calls: code that does not touch the links

    Sending messages, the uplink, the RTP streams and the conference: none of
    them changes the shape. *)

From S2P Require Import Prelude VlrTypes Codecs Sdp CallTypes CallBase CallLeg CMonad VgcsTypes Vgcs VgcsInv.

Section still.
Context {SL : SockaddrLib} {CL : CallLib} {AC : AmrCfg} {VL : VgcsLib}.

Lemma bss_live new h t v b : vg_ok new h -> h_trans h !! t = Some v -> b ∈ ts_bss v -> is_Some (h_bss h !! b).
Proof. intros Hok Ht Hb. destruct (ok_bss_of_trans _ _ Hok t v b Ht Hb) as (x & -> & _). eauto. Qed.
Lemma uplink_live new h t v b :
  vg_ok new h -> h_trans h !! t = Some (shape_t v) -> v_uplink_bss v = Some b -> is_Some (h_bss h !! b).
Proof. intros Hok Ht Hb. eapply bss_live; [done..|]. by apply (ok_uplink _ _ Hok t (shape_t v) b Ht). Qed.
Lemma cell_live new h b x c : vg_ok new h -> h_bss h !! b = Some x -> c ∈ bs_cells x -> is_Some (h_cells h !! c).
Proof. intros Hok Hb Hc. destruct (ok_cell_of_bss _ _ Hok b x c Hb Hc) as (e & -> & _). eauto. Qed.

Lemma still_send h n m i : still h (ran_encode_and_send n m i).
Proof. unfold ran_encode_and_send. still_tac. Qed.
Hint Resolve still_send : still.
Lemma still_dtap h b m : is_Some (h_bss h !! b) -> still h (tx_dtap_to_talker b m).
Proof. intros. unfold tx_dtap_to_talker. still_tac. Qed.
Lemma still_tx h k ob m : (forall b, ob = Some b -> is_Some (h_bss h !! b)) -> still h (tx_to_caller k ob m).
Proof. intros H. unfold tx_to_caller. destruct k; [still_tac|]. destruct ob; [apply still_dtap; eauto|still_tac]. Qed.
Lemma still_uplink_state h b busy : is_Some (h_bss h !! b) -> still h (update_uplink_state b busy).
Proof. intros. unfold update_uplink_state. still_tac. Qed.
Lemma still_start_timer h t : is_Some (h_trans h !! t) -> still h (start_inactivity_timer t).
Proof. intros. unfold start_inactivity_timer. still_tac. Qed.
Lemma still_stop_timer h t : is_Some (h_trans h !! t) -> still h (stop_inactivity_timer t).
Proof. intros. unfold stop_inactivity_timer. still_tac. Qed.

Section with_ok.
Context (new : option nat) (h : vg_shape) (Hok : vg_ok new h).

Lemma still_connect t : is_Some (h_trans h !! t) -> still h (gcc_connect t).
Proof using Hok. intros. unfold gcc_connect. still_step; [done|]. apply still_tx. intros b. by eapply uplink_live. Qed.
Lemma still_set_parameter t : is_Some (h_trans h !! t) -> still h (set_parameter t).
Proof using Hok. intros. unfold set_parameter. still_step; [done|]. apply still_tx. intros b. by eapply uplink_live. Qed.
Lemma still_reject t cause : is_Some (h_trans h !! t) -> still h (gcc_termination_reject t cause).
Proof using Hok. intros. unfold gcc_termination_reject. still_step; [done|]. apply still_tx. intros b. by eapply uplink_live. Qed.

Lemma still_uplink_cell ob id : (forall b, ob = Some b -> is_Some (h_bss h !! b)) -> still h (set_uplink_cell ob id).
Proof using Hok.
  intros H. unfold set_uplink_cell. destruct id; [|still_tac]. still_step. still_step; [auto|]. still_step.
  match goal with Hb : h_bss h !! _ = Some (shape_b ?v), Ht : b_trans ?v = Some ?t |- _ =>
    destruct (ok_trans_of_bss _ _ Hok _ (shape_b v) t Hb Ht) as (x & Hx & _) end.
  still_tac.
Qed.

(** *** The stream of a cell *)

Lemma still_get_rtps {B} c (k : rtp_stream -> VM B) :
  is_Some (h_cells h !! c) -> (forall s, still h (k s)) -> still h (sbind (get_rtps c) k).
Proof using. intros Hc Hk. apply still_bind; [|done]. unfold get_rtps. still_tac. Qed.
Lemma still_mod_rtps c f : is_Some (h_cells h !! c) -> still h (mod_rtps c f).
Proof using. intros Hc. unfold mod_rtps. apply still_get_rtps; [done|]. intros s. still_tac. Qed.
Lemma still_verb c verb : is_Some (h_cells h !! c) -> still h (cell_mgcp_verb c verb).
Proof using.
  intros Hc. unfold cell_mgcp_verb. apply still_get_rtps; [done|]. intros s. pose proof (still_mod_rtps c). still_tac.
Qed.
Lemma still_commit c : is_Some (h_cells h !! c) -> still h (cell_rtp_commit c).
Proof using. intros Hc. unfold cell_rtp_commit. apply still_get_rtps; [done|]. intros s. pose proof (still_verb c). still_tac. Qed.
Lemma still_ensure_ci c : is_Some (h_cells h !! c) -> still h (cell_rtp_ensure_ci c).
Proof using.
  intros Hc. unfold cell_rtp_ensure_ci. apply still_get_rtps; [done|]. intros s.
  pose proof (still_verb c). pose proof (still_commit c). pose proof (still_mod_rtps c). still_tac.
Qed.
Lemma still_set_codec type c : is_Some (h_cells h !! c) -> still h (cell_set_codec type c).
Proof using. intros Hc. unfold cell_set_codec. pose proof (still_mod_rtps c). still_tac. Qed.
Lemma still_set_mode c mode : is_Some (h_cells h !! c) -> still h (cell_set_mode c mode).
Proof using. intros Hc. unfold cell_set_mode. pose proof (still_mod_rtps c). pose proof (still_commit c). still_tac. Qed.

Lemma still_conference t : is_Some (h_trans h !! t) -> still h (set_mgw_conference t).
Proof using Hok.
  intros Ht. unfold set_mgw_conference. still_step; [done|]. still_step.
  - still_step. match goal with Hb : _ ∈ v_bss_list ?v, Ht' : h_trans h !! t = _ |- _ =>
      pose proof (bss_live new h t (shape_t v) _ Hok Ht' Hb) end.
    still_step; [done|]. still_step.
    match goal with Hb : h_bss h !! _ = Some (shape_b ?x), Hc : _ ∈ b_cell_list ?x |- _ =>
      pose proof (cell_live new h _ (shape_b x) _ Hok Hb Hc) end.
    still_step; [done|]. pose proof (still_set_mode a0). still_tac.
  - still_step. intros w Hw. apply swp_bind, swp_need; [done|]. intros e He.
    assert (Hc : is_Some (h_cells h !! a0)) by (rewrite <- Hw, shape_cells, He; eauto).
    destruct (c_rtps e); [by apply swp_ret|by apply still_set_mode|by apply swp_fault].
Qed.
End with_ok.

Lemma still_bss_of_peer new h peer l :
  vg_ok new h -> (forall b, b ∈ l -> is_Some (h_bss h !! b)) ->
  forall w, shape w = h -> vwp (bss_of_peer peer l) (fun ob w' => shape w' = h /\ forall b, ob = Some b -> b ∈ l) w.
Proof.
  intros Hok. induction l as [|b l IH]; intros Hl w Hw; cbn [bss_of_peer]; [by apply swp_ret|].
  apply swp_bind, vwp_get_bss; [rewrite Hw; apply Hl; by left|]. intros x Hx. apply swp_bind, vwp_deref. intros n Hn.
  apply swp_bind, vwp_get_rc. intros r Hr. destruct (rc_peer r =? peer).
  - apply swp_ret. split; [done|]. intros ? [= <-]. by left.
  - eapply swp_mono; [apply IH; [|done]|].
    + intros b' ?. apply Hl. by right.
    + intros ob w' [? H]. split; [done|]. intros b' Hb'. right. by apply H.
Qed.
End still.
