(* ===== verification/VgcsLinks.v ===== *)
(** * Voice group calls: the operations on the links keep them in order *)

From S2P Require Import Prelude VlrTypes Codecs Sdp CallTypes CallBase CallLeg CMonad VgcsTypes Vgcs VgcsInv VgcsStill.

(** ** On shapes *)

Ltac lookups :=
  repeat match goal with
  | H : <[_:=_]> _ !! _ = Some _ |- _ => apply lookup_insert_Some in H as [[? ?]|[? ?]]; subst
  | H : delete _ _ !! _ = Some _ |- _ => apply lookup_delete_Some in H as [? ?]
  end.

Ltac break_ok H :=
  destruct H as [ok_bss_nodup0 ok_bss_of_trans0 ok_trans_of_bss0 ok_released0 ok_cell_of_bss0 ok_bss_of_cell0 ok_cells_nodup0
                 ok_cell_of_mgw0 ok_mgw_of_cell0 ok_mgw_nodup0 ok_fresh0 ok_caller0 ok_uplink0 ok_list0].

(** a cell changes state *)
Lemma ok_cell_state new h c e s :
  vg_ok new h -> h_cells h !! c = Some e -> vg_ok new (h <| h_cells ::= insert c (e <| cs_state := s |>) |>).
Proof.
  intros Hok He. break_ok Hok. split; cbn; try done.
  - intros b x c' Hb Hc. destruct (ok_cell_of_bss0 b x c' Hb Hc) as (e' & He' & Hbs).
    destruct (decide (c = c')) as [<-|]; [rewrite lookup_insert_eq; eexists; split; [done|]; cbn; congruence|].
    rewrite lookup_insert_ne by done. eauto.
  - intros c' e' b H Hb. lookups; eauto.
  - intros m l c' Hm Hc. destruct (ok_cell_of_mgw0 m l c' Hm Hc) as (e' & He' & Hbs).
    destruct (decide (c = c')) as [<-|]; [rewrite lookup_insert_eq; eexists; split; [done|]; cbn; congruence|].
    rewrite lookup_insert_ne by done. eauto.
  - intros c' e' m H Hm. lookups; eauto.
  - intros i Hi. destruct (ok_fresh0 i Hi) as (? & ? & ? & ?). split_and!; try done. rewrite lookup_insert_ne; [done|congruence].
Qed.

(** a cell leaves its BSS *)
Lemma ok_cell_leaves_bss new h c e b x :
  vg_ok new h -> h_cells h !! c = Some e -> cs_bss e = Some b -> h_bss h !! b = Some x ->
  vg_ok new (h <| h_bss ::= insert b (x <| bs_cells ::= filter (fun u => u <> c) |>) |>
               <| h_cells ::= insert c (e <| cs_bss := None |>) |>).
Proof.
  intros Hok He Hb Hx. break_ok Hok. split; cbn; try done.
  - intros t v b' Hv Hb'. destruct (ok_bss_of_trans0 t v b' Hv Hb') as (x' & Hx' & ?).
    destruct (decide (b = b')) as [<-|]; [rewrite lookup_insert_eq; eexists; split; [done|]; cbn; congruence|].
    rewrite lookup_insert_ne by done. eauto.
  - intros b' x' t H Ht. lookups; cbn in *; eauto.
  - intros b' x' H Ht. lookups; cbn in *; eauto.
  - intros b' x' c' H Hc. destruct (decide (c = c')) as [<-|Hne].
    + lookups; cbn in *; [by apply list_elem_of_filter in Hc as []|].
      destruct (ok_cell_of_bss0 b' x' c H0 Hc) as (? & ? & ?). congruence.
    + rewrite lookup_insert_ne by done. lookups; cbn in *; eauto. apply list_elem_of_filter in Hc as [_ Hc]. eauto.
  - intros c' e' b' H Hb'. lookups; cbn in *; [done|]. destruct (ok_bss_of_cell0 c' e' b') as (x' & Hx' & ?); [done..|].
    destruct (decide (b = b')) as [<-|]; [|rewrite lookup_insert_ne by done; eauto].
    rewrite lookup_insert_eq. eexists. split; [done|]. cbn. apply list_elem_of_filter. split; [done|congruence].
  - intros b' x' H. lookups; cbn; eauto. apply NoDup_filter. eauto.
  - intros m l c' Hm Hc. destruct (ok_cell_of_mgw0 m l c' Hm Hc) as (e' & He' & Hbs).
    destruct (decide (c = c')) as [<-|]; [rewrite lookup_insert_eq; eexists; split; [done|]; cbn; congruence|].
    rewrite lookup_insert_ne by done. eauto.
  - intros c' e' m H Hm. lookups; cbn in *; eauto.
  - intros i Hi. destruct (ok_fresh0 i Hi) as (? & ? & ? & ?).
    split_and!; try done; rewrite lookup_insert_ne; try done; congruence.
Qed.

(** a cell leaves its endpoint *)
Lemma ok_cell_leaves_mgw new h c e m l :
  vg_ok new h -> h_cells h !! c = Some e -> cs_mgw e = Some m -> h_mgw h !! m = Some l ->
  vg_ok new (h <| h_mgw ::= insert m (filter (fun u => u <> c) l) |> <| h_cells ::= insert c (e <| cs_mgw := None |>) |>).
Proof.
  intros Hok He Hm Hl. break_ok Hok. split; cbn; try done.
  - intros b x c' Hb Hc. destruct (ok_cell_of_bss0 b x c' Hb Hc) as (e' & He' & Hbs).
    destruct (decide (c = c')) as [<-|]; [rewrite lookup_insert_eq; eexists; split; [done|]; cbn; congruence|].
    rewrite lookup_insert_ne by done. eauto.
  - intros c' e' b H Hb. lookups; cbn in *; eauto.
  - intros m' l' c' H Hc. destruct (decide (c = c')) as [<-|Hne].
    + lookups; cbn in *; [by apply list_elem_of_filter in Hc as []|].
      destruct (ok_cell_of_mgw0 m' l' c H0 Hc) as (? & ? & ?). congruence.
    + rewrite lookup_insert_ne by done. lookups; cbn in *; eauto. apply list_elem_of_filter in Hc as [_ Hc]. eauto.
  - intros c' e' m' H Hm'. lookups; cbn in *; [done|]. destruct (ok_mgw_of_cell0 c' e' m') as (l' & Hl' & ?); [done..|].
    destruct (decide (m = m')) as [<-|]; [|rewrite lookup_insert_ne by done; eauto].
    rewrite lookup_insert_eq. eexists. split; [done|]. apply list_elem_of_filter. split; [done|congruence].
  - intros m' l' H. lookups; [apply NoDup_filter|]; eauto.
  - intros i Hi. destruct (ok_fresh0 i Hi) as (? & ? & ? & ?).
    split_and!; try done; rewrite lookup_insert_ne; try done; congruence.
Qed.

(** a cell without links goes *)
Lemma ok_cell_deleted new h c e :
  vg_ok new h -> h_cells h !! c = Some e -> cs_bss e = None -> cs_mgw e = None -> vg_ok new (h <| h_cells ::= delete c |>).
Proof.
  intros Hok He Hb Hm. break_ok Hok. split; cbn; try done.
  - intros b x c' Hx Hc. destruct (ok_cell_of_bss0 b x c' Hx Hc) as (e' & He' & ?).
    rewrite lookup_delete_ne by congruence. eauto.
  - intros c' e' b H ?. lookups. eauto.
  - intros m l c' Hl Hc. destruct (ok_cell_of_mgw0 m l c' Hl Hc) as (e' & He' & ?).
    rewrite lookup_delete_ne by congruence. eauto.
  - intros c' e' m H ?. lookups. eauto.
  - intros i Hi. destruct (ok_fresh0 i Hi) as (? & ? & ? & ?). split_and!; try done. by apply lookup_delete_None; right.
Qed.

(** an endpoint without cells goes *)
Lemma ok_mgw_deleted new h m : vg_ok new h -> h_mgw h !! m = Some [] -> vg_ok new (h <| h_mgw ::= delete m |>).
Proof.
  intros Hok Hm. break_ok Hok. split; cbn; try done.
  - intros m' l c H Hc. lookups. eauto.
  - intros c e m' He Hm'. destruct (ok_mgw_of_cell0 c e m' He Hm') as (l & Hl & Hc).
    rewrite lookup_delete_ne; [eauto|]. intros <-. rewrite Hm in Hl. injection Hl as <-. by apply not_elem_of_nil in Hc.
  - intros m' l H. lookups. eauto.
  - intros i Hi. destruct (ok_fresh0 i Hi) as (? & ? & ? & ?). split_and!; try done. by apply lookup_delete_None; right.
Qed.

(** a BSS changes state *)
Lemma ok_bss_state new h b x s :
  vg_ok new h -> h_bss h !! b = Some x -> (s = VGCS_BSS_ST_RELEASE -> bs_trans x = None) ->
  vg_ok new (h <| h_bss ::= insert b (x <| bs_state := s |>) |>).
Proof.
  intros Hok Hx Hs. break_ok Hok. split; cbn; try done.
  - intros t v b' Hv Hb'. destruct (ok_bss_of_trans0 t v b' Hv Hb') as (x' & Hx' & ?).
    destruct (decide (b = b')) as [<-|]; [rewrite lookup_insert_eq; eexists; split; [done|]; cbn; congruence|].
    rewrite lookup_insert_ne by done. eauto.
  - intros b' x' t H Ht. lookups; cbn in *; eauto.
  - intros b' x' H Ht. lookups; cbn in *; eauto.
  - intros b' x' c H Hc. lookups; cbn in *; eauto.
  - intros c e b' He Hb. destruct (ok_bss_of_cell0 c e b' He Hb) as (x' & Hx' & Hc).
    destruct (decide (b = b')) as [<-|]; [rewrite lookup_insert_eq; eexists; split; [done|]; cbn; congruence|].
    rewrite lookup_insert_ne by done. eauto.
  - intros b' x' H. lookups; cbn; eauto.
  - intros i Hi. destruct (ok_fresh0 i Hi) as (? & ? & ? & ?). split_and!; try done. rewrite lookup_insert_ne; [done|congruence].
Qed.

(** a BSS leaves its transaction, which forgets it as the talker's *)
Lemma ok_bss_leaves h b x t v v' :
  vg_ok None h -> h_bss h !! b = Some x -> bs_trans x = Some t -> h_trans h !! t = Some v ->
  ts_bss v' = filter (fun u => u <> b) (ts_bss v) -> ts_msc_a v' = ts_msc_a v -> ts_fi v' = ts_fi v ->
  (ts_uplink v' = None \/ ts_uplink v' = ts_uplink v /\ ts_uplink v <> Some b) ->
  vg_ok None (h <| h_trans ::= insert t v' |> <| h_bss ::= insert b (x <| bs_trans := None |>) |>).
Proof.
  intros Hok Hx Hxt Hv E1 E2 E3 Hu. break_ok Hok. split; cbn; try done.
  - intros t' v0 H. lookups; eauto. rewrite E1. apply NoDup_filter. eauto.
  - intros t' v0 b' H Hb'. assert (b' <> b) as Hne.
    { intros ->. lookups; [rewrite E1 in Hb'; by apply list_elem_of_filter in Hb' as []|].
      destruct (ok_bss_of_trans0 t' v0 b) as (? & ? & ?); [done..|]. congruence. }
    rewrite lookup_insert_ne by done. lookups; eauto.
    rewrite E1 in Hb'. apply list_elem_of_filter in Hb' as [_ ?]. eauto.
  - intros b' x' t' H Ht'. lookups; cbn in *; [done|].
    destruct (ok_trans_of_bss0 b' x' t') as (v0 & Hv0 & Hin); [done..|].
    destruct (decide (t = t')) as [<-|]; [|rewrite lookup_insert_ne by done; eauto].
    rewrite lookup_insert_eq. eexists. split; [done|]. left. rewrite E1. destruct Hin as [Hin|]; [|done].
    apply list_elem_of_filter. split; [done|congruence].
  - intros b' x' H Ht'. lookups; cbn in *; eauto.
  - intros b' x' c H Hc. lookups; cbn in *; eauto.
  - intros c e b' He Hb. destruct (ok_bss_of_cell0 c e b' He Hb) as (x' & Hx' & Hc).
    destruct (decide (b = b')) as [<-|]; [rewrite lookup_insert_eq; eexists; split; [done|]; cbn; congruence|].
    rewrite lookup_insert_ne by done. eauto.
  - intros b' x' H. lookups; cbn; eauto.
  - intros i Hi. destruct (ok_fresh0 i Hi) as (? & ? & ? & ?). split_and!; try done; rewrite lookup_insert_ne; try done; congruence.
  - intros t' v0 H Hfi. lookups; [|eauto]. rewrite E2. apply (ok_caller0 _ v Hv). by rewrite <- E3.
  - intros t' v0 b' H Hb'. lookups; [|eauto]. rewrite E1. destruct Hu as [Hu|[Hu Hne]]; [congruence|].
    apply list_elem_of_filter. rewrite Hu in Hb'. split; [congruence|eauto].
  - destruct ok_list0 as [? HL]. split; [done|]. intros t' Ht'. destruct (decide (t = t')) as [<-|]; [rewrite lookup_insert_eq; eauto|].
    rewrite lookup_insert_ne by done. eauto.
Qed.

(** the cells of a BSS forget it *)
Lemma ok_cells_leave_bss new h b x :
  vg_ok new h -> h_bss h !! b = Some x ->
  vg_ok new (h <| h_cells ::= fmap (fun e => if opt_eqb (cs_bss e) (Some b) then e <| cs_bss := None |> else e) |>
               <| h_bss ::= insert b (x <| bs_cells := [] |>) |>).
Proof.
  intros Hok Hx. break_ok Hok. split; cbn; try done.
  - intros t v b' Hv Hb'. destruct (ok_bss_of_trans0 t v b' Hv Hb') as (x' & Hx' & ?).
    destruct (decide (b = b')) as [<-|]; [rewrite lookup_insert_eq; eexists; split; [done|]; cbn; congruence|].
    rewrite lookup_insert_ne by done. eauto.
  - intros b' x' t H Ht. lookups; cbn in *; eauto.
  - intros b' x' H Ht. lookups; cbn in *; eauto.
  - intros b' x' c H Hc. lookups; cbn in *; [by apply not_elem_of_nil in Hc|].
    destruct (ok_cell_of_bss0 b' x' c) as (e & He & Hb); [done..|]. exists e. split; [|done].
    apply lookup_fmap_Some. exists e. split; [|exact He]. unfold opt_eqb. rewrite bool_decide_eq_false_2; congruence.
  - intros c e b' H Hb. apply lookup_fmap_Some in H as (e0 & <- & He). unfold opt_eqb in Hb. case_bool_decide; [done|].
    destruct (ok_bss_of_cell0 c e0 b' He Hb) as (x' & Hx' & Hc).
    rewrite lookup_insert_ne by congruence. eauto.
  - intros b' x' H. lookups; cbn; [constructor|eauto].
  - intros m l c Hl Hc. destruct (ok_cell_of_mgw0 m l c Hl Hc) as (e & He & Hm).
    eexists. split; [apply lookup_fmap_Some; eexists; split; [done|exact He]|]. by destruct (opt_eqb _ _).
  - intros c e m H Hm. apply lookup_fmap_Some in H as (e0 & <- & He). apply (ok_mgw_of_cell0 c e0 m He). by destruct (opt_eqb _ _).
  - intros i Hi. destruct (ok_fresh0 i Hi) as (? & ? & H & ?). split_and!; try done; [rewrite lookup_insert_ne; [done|congruence]|].
    rewrite lookup_fmap. by apply fmap_None.
Qed.

(** the cells of an endpoint forget it, and it goes *)
Lemma ok_cells_leave_mgw new h m :
  vg_ok new h ->
  vg_ok new (h <| h_cells ::= fmap (fun e => if opt_eqb (cs_mgw e) (Some m) then e <| cs_mgw := None |> else e) |>
               <| h_mgw ::= delete m |>).
Proof.
  intros Hok. break_ok Hok. split; cbn; try done.
  - intros b x c Hx Hc. destruct (ok_cell_of_bss0 b x c Hx Hc) as (e & He & Hb).
    eexists. split; [apply lookup_fmap_Some; eexists; split; [done|exact He]|]. by destruct (opt_eqb _ _).
  - intros c e b H Hb. apply lookup_fmap_Some in H as (e0 & <- & He). apply (ok_bss_of_cell0 c e0 b He). by destruct (opt_eqb _ _).
  - intros m' l c H Hc. lookups. destruct (ok_cell_of_mgw0 m' l c) as (e & He & Hm); [done..|]. exists e. split; [|done].
    apply lookup_fmap_Some. exists e. split; [|exact He]. unfold opt_eqb. rewrite bool_decide_eq_false_2; congruence.
  - intros c e m' H Hm'. apply lookup_fmap_Some in H as (e0 & <- & He). unfold opt_eqb in Hm'. case_bool_decide; [done|].
    destruct (ok_mgw_of_cell0 c e0 m' He Hm') as (l & Hl & Hc). rewrite lookup_delete_ne by congruence. eauto.
  - intros m' l H. lookups. eauto.
  - intros i Hi. destruct (ok_fresh0 i Hi) as (? & ? & H & H'). split_and!; try done; [rewrite lookup_fmap; by apply fmap_None|].
    by apply lookup_delete_None; right.
Qed.

(** a BSS without links goes *)
Lemma ok_bss_deleted new h b x :
  vg_ok new h -> (new = None \/ new = Some b) -> h_bss h !! b = Some x -> bs_cells x = [] ->
  (forall t v, h_trans h !! t = Some v -> b ∉ ts_bss v) -> vg_ok None (h <| h_bss ::= delete b |>).
Proof.
  intros Hok Hnew Hx Hc Hno. break_ok Hok. split; cbn; try done.
  - intros t v b' Hv Hb'. destruct (ok_bss_of_trans0 t v b' Hv Hb') as (x' & Hx' & ?). exists x'. split; [|done].
    rewrite lookup_delete_ne; [done|]. intros <-. by apply (Hno t v Hv).
  - intros b' x' t H Ht. lookups. destruct (ok_trans_of_bss0 b' x' t) as (v & Hv & [Hin|Hin]); [done..|eauto|].
    destruct Hnew; congruence.
  - intros b' x' H Ht. lookups. eauto.
  - intros b' x' c H Hc'. lookups. eauto.
  - intros c e b' He Hb. destruct (ok_bss_of_cell0 c e b' He Hb) as (x' & Hx' & Hin). exists x'. split; [|done].
    rewrite lookup_delete_ne; [done|]. intros <-. rewrite Hx in Hx'. injection Hx' as <-. rewrite Hc in Hin.
    by apply not_elem_of_nil in Hin.
  - intros b' x' H. lookups. eauto.
  - intros i Hi. destruct (ok_fresh0 i Hi) as (? & ? & ? & ?). split_and!; try done. by apply lookup_delete_None; right.
Qed.

(** a transaction changes otherwise *)
Lemma ok_trans_changed new h t v v' :
  vg_ok new h -> h_trans h !! t = Some v -> ts_bss v' = ts_bss v -> (forall b, ts_uplink v' = Some b -> b ∈ ts_bss v) ->
  (ts_fi v' = Some VGCS_GCC_ST_N1_CALL_INITIATED \/ ts_fi v' = Some VGCS_GCC_ST_N3_CALL_EST_PROC -> is_Some (ts_msc_a v')) ->
  vg_ok new (h <| h_trans ::= insert t v' |>).
Proof.
  intros Hok Hv E1 Hu Hfi. break_ok Hok. split; cbn; try done.
  - intros t' v0 H. lookups; eauto. rewrite E1. eauto.
  - intros t' v0 b H Hb. lookups; eauto. rewrite E1 in Hb. eauto.
  - intros b x t' Hx Ht'. destruct (ok_trans_of_bss0 b x t' Hx Ht') as (v0 & Hv0 & Hin).
    destruct (decide (t = t')) as [<-|]; [|rewrite lookup_insert_ne by done; eauto].
    rewrite lookup_insert_eq. eexists. split; [done|]. rewrite E1. congruence.
  - intros i Hi. destruct (ok_fresh0 i Hi) as (? & ? & ? & ?). split_and!; try done. rewrite lookup_insert_ne; [done|congruence].
  - intros t' v0 H. lookups; eauto.
  - intros t' v0 b H Hb. lookups; eauto. rewrite E1. eauto.
  - destruct ok_list0 as [? HL]. split; [done|]. intros t' Ht'. destruct (decide (t = t')) as [<-|]; [rewrite lookup_insert_eq; eauto|].
    rewrite lookup_insert_ne by done. eauto.
Qed.

(** a transaction without BSSs goes; it has left the list before *)
Lemma ok_trans_deleted h t v :
  vg_ok None h -> h_trans h !! t = Some v -> ts_bss v = [] -> t ∉ h_list h -> vg_ok None (h <| h_trans ::= delete t |>).
Proof.
  intros Hok Hv Hnil Hl. break_ok Hok. split; cbn; try done.
  - intros t' v0 H. lookups. eauto.
  - intros t' v0 b H Hb. lookups. eauto.
  - intros b x t' Hx Ht'. destruct (ok_trans_of_bss0 b x t' Hx Ht') as (v0 & Hv0 & Hin). exists v0. split; [|done].
    rewrite lookup_delete_ne; [done|]. intros <-. destruct Hin as [Hin|]; [|done]. rewrite Hv in Hv0. injection Hv0 as <-.
    rewrite Hnil in Hin. by apply not_elem_of_nil in Hin.
  - intros i Hi. destruct (ok_fresh0 i Hi) as (? & ? & ? & ?). split_and!; try done. by apply lookup_delete_None; right.
  - intros t' v0 H. lookups. eauto.
  - intros t' v0 b H Hb. lookups. eauto.
  - destruct ok_list0 as [? HL]. split; [done|]. intros t' Ht'. rewrite lookup_delete_ne; [eauto|]. by intros <-.
Qed.
Lemma ok_unlisted new h t : vg_ok new h -> vg_ok new (h <| h_list ::= filter (fun u => u <> t) |>).
Proof.
  intros Hok. break_ok Hok. split; try done. cbn. destruct ok_list0 as [? HL]. split; [by apply NoDup_filter|].
  intros t' [_ ?]%list_elem_of_filter. eauto.
Qed.

(** *** Creation *)

Lemma ok_mgw_new h m : vg_ok None h -> m = h_next h -> vg_ok None (h <| h_mgw ::= insert m [] |> <| h_next := S m |>).
Proof.
  intros Hok ->. pose proof (ok_fresh _ _ Hok (h_next h) ltac:(lia)) as (F1 & F2 & F3 & F4). break_ok Hok. split; cbn; try done.
  - intros m' l c H Hc. lookups; [by apply not_elem_of_nil in Hc|eauto].
  - intros c e m' He Hm. destruct (ok_mgw_of_cell0 c e m' He Hm) as (l & Hl & Hc). rewrite lookup_insert_ne by congruence. eauto.
  - intros m' l H. lookups; [constructor|eauto].
  - intros i Hi. destruct (ok_fresh0 i ltac:(lia)) as (? & ? & ? & ?). split_and!; try done. rewrite lookup_insert_ne by lia. done.
Qed.
Lemma ok_bss_new h t v b :
  vg_ok None h -> b = h_next h -> h_trans h !! t = Some v ->
  vg_ok (Some b) (h <| h_bss ::= insert b (mk_bs VGCS_BSS_ST_NULL (Some t) []) |> <| h_next := S (S b) |>).
Proof.
  intros Hok -> Hv. pose proof (ok_fresh _ _ Hok (h_next h) ltac:(lia)) as (F1 & F2 & F3 & F4). break_ok Hok. split; cbn; try done.
  - intros t' v' b' Hv' Hb'. destruct (ok_bss_of_trans0 t' v' b' Hv' Hb') as (x & Hx & ?). rewrite lookup_insert_ne by congruence. eauto.
  - intros b' x t' H Ht. lookups; cbn in *; [injection Ht as <-; eauto|]. destruct (ok_trans_of_bss0 b' x t') as (? & ? & [|]); [done|done|eauto|done].
  - intros b' x H Ht. lookups; cbn in *; [done|eauto].
  - intros b' x c H Hc. lookups; cbn in *; [by apply not_elem_of_nil in Hc|eauto].
  - intros c e b' He Hb. destruct (ok_bss_of_cell0 c e b' He Hb) as (x & Hx & Hc). rewrite lookup_insert_ne by congruence. eauto.
  - intros b' x H. lookups; cbn; [constructor|eauto].
  - intros i Hi. destruct (ok_fresh0 i ltac:(lia)) as (? & ? & ? & ?). split_and!; try done. rewrite lookup_insert_ne by lia. done.
Qed.
Lemma ok_cell_new new h b x m l c :
  vg_ok new h -> c = h_next h -> h_bss h !! b = Some x -> h_mgw h !! m = Some l ->
  vg_ok new (h <| h_cells ::= insert c (mk_cs VGCS_CELL_ST_NULL (Some b) (Some m)) |>
               <| h_bss ::= insert b (x <| bs_cells ::= fun l => l ++ [c] |>) |>
               <| h_mgw ::= insert m (l ++ [c]) |> <| h_next := S (S c) |>).
Proof.
  intros Hok -> Hx Hl. pose proof (ok_fresh _ _ Hok (h_next h) ltac:(lia)) as (F1 & F2 & F3 & F4). break_ok Hok. split; cbn; try done.
  - intros t v b' Hv Hb'. destruct (ok_bss_of_trans0 t v b' Hv Hb') as (x' & Hx' & ?).
    destruct (decide (b = b')) as [<-|]; [rewrite lookup_insert_eq; eexists; split; [done|]; cbn; congruence|].
    rewrite lookup_insert_ne by done. eauto.
  - intros b' x' t H Ht. lookups; cbn in *; eauto.
  - intros b' x' H Ht. lookups; cbn in *; eauto.
  - intros b' x' c H Hc. destruct (decide (c = h_next h)) as [->|].
    + rewrite lookup_insert_eq. eexists. split; [done|]. cbn. lookups; [done|].
      destruct (ok_cell_of_bss0 b' x' (h_next h)) as (? & ? & ?); [done..|]. congruence.
    + rewrite lookup_insert_ne by done. lookups; cbn in *; eauto. apply elem_of_app in Hc as [Hc|Hc]; [eauto|].
      by apply list_elem_of_singleton in Hc.
  - intros c e b' H Hb. lookups; cbn in *.
    + injection Hb as <-. rewrite lookup_insert_eq. eexists. split; [done|]. cbn. apply elem_of_app. right. by left.
    + destruct (ok_bss_of_cell0 c e b') as (x' & Hx' & Hc); [done..|].
      destruct (decide (b = b')) as [<-|]; [|rewrite lookup_insert_ne by done; eauto].
      rewrite lookup_insert_eq. eexists. split; [done|]. cbn. apply elem_of_app. left. congruence.
  - intros b' x' H. lookups; cbn; [|eauto]. apply NoDup_app. split_and!; [eauto| |apply NoDup_singleton].
    intros c Hc ->%list_elem_of_singleton. destruct (ok_cell_of_bss0 b' x (h_next h) Hx Hc) as (? & ? & _). congruence.
  - intros m' l' c H Hc. destruct (decide (c = h_next h)) as [->|].
    + rewrite lookup_insert_eq. eexists. split; [done|]. cbn. lookups; [done|].
      destruct (ok_cell_of_mgw0 m' l' (h_next h)) as (? & ? & ?); [done..|]. congruence.
    + rewrite lookup_insert_ne by done. lookups; cbn in *; eauto. apply elem_of_app in Hc as [Hc|Hc]; [eauto|].
      by apply list_elem_of_singleton in Hc.
  - intros c e m' H Hm. lookups; cbn in *.
    + injection Hm as <-. rewrite lookup_insert_eq. eexists. split; [done|]. apply elem_of_app. right. by left.
    + destruct (ok_mgw_of_cell0 c e m') as (l' & Hl' & Hc); [done..|].
      destruct (decide (m = m')) as [<-|]; [|rewrite lookup_insert_ne by done; eauto].
      rewrite lookup_insert_eq. eexists. split; [done|]. apply elem_of_app. left. congruence.
  - intros m' l' H. lookups; [|eauto]. apply NoDup_app. split_and!; [eauto| |apply NoDup_singleton].
    intros c Hc ->%list_elem_of_singleton. destruct (ok_cell_of_mgw0 m' l (h_next h) Hl Hc) as (? & ? & _). congruence.
  - intros i Hi. destruct (ok_fresh0 i ltac:(lia)) as (? & ? & ? & ?).
    split_and!; try done; rewrite lookup_insert_ne; try done; try lia; congruence.
Qed.

(** a BSS that is complete enters the list *)
Lemma ok_bss_listed h b x t v :
  vg_ok (Some b) h -> h_bss h !! b = Some x -> bs_trans x = Some t -> h_trans h !! t = Some v -> b ∉ ts_bss v ->
  vg_ok None (h <| h_trans ::= insert t (v <| ts_bss ::= fun l => l ++ [b] |>) |>).
Proof.
  intros Hok Hx Ht Hv Hno. break_ok Hok. split; cbn; try done.
  - intros t' v' H. lookups; cbn; [|eauto]. apply NoDup_app. split_and!; [eauto| |apply NoDup_singleton].
    by intros b' Hb' ->%list_elem_of_singleton.
  - intros t' v' b' H Hb'. lookups; cbn in *; [|eauto]. apply elem_of_app in Hb' as [Hb'| ->%list_elem_of_singleton]; eauto.
  - intros b' x' t' Hx' Ht'. destruct (ok_trans_of_bss0 b' x' t' Hx' Ht') as (v' & Hv' & Hin).
    destruct (decide (t = t')) as [<-|Hne].
    + rewrite lookup_insert_eq. eexists. split; [done|]. left. cbn. apply elem_of_app. rewrite Hv in Hv'. injection Hv' as <-.
      destruct Hin as [|[= ->]]; [by left|right; by left].
    + rewrite lookup_insert_ne by done. exists v'. split; [done|]. left. destruct Hin as [|[= ->]]; [done|congruence].
  - intros i Hi. destruct (ok_fresh0 i Hi) as (? & ? & ? & ?). split_and!; try done. rewrite lookup_insert_ne; [done|congruence].
  - intros t' v' H. lookups; cbn; eauto.
  - intros t' v' b' H Hb'. lookups; cbn in *; [|eauto]. apply elem_of_app. left. eauto.
  - destruct ok_list0 as [? HL]. split; [done|]. intros t' Ht'. destruct (decide (t = t')) as [<-|]; [rewrite lookup_insert_eq; eauto|].
    rewrite lookup_insert_ne by done. eauto.
Qed.
Lemma ok_trans_new h t msc :
  vg_ok None h -> t = h_next h ->
  vg_ok None (h <| h_trans ::= insert t (mk_ts [] msc (Some VGCS_GCC_ST_N0_NULL) None) |> <| h_list ::= fun l => l ++ [t] |>
                <| h_next := S t |>).
Proof.
  intros Hok ->. pose proof (ok_fresh _ _ Hok (h_next h) ltac:(lia)) as (F1 & F2 & F3 & F4). break_ok Hok. split; cbn; try done.
  - intros t' v' H. lookups; cbn; [constructor|eauto].
  - intros t' v' b' H Hb'. lookups; cbn in *; [by apply not_elem_of_nil in Hb'|eauto].
  - intros b x t' Hx Ht'. destruct (ok_trans_of_bss0 b x t' Hx Ht') as (v' & Hv' & Hin). rewrite lookup_insert_ne by congruence. eauto.
  - intros i Hi. destruct (ok_fresh0 i ltac:(lia)) as (? & ? & ? & ?). split_and!; try done. rewrite lookup_insert_ne by lia. done.
  - intros t' v' H Hfi. lookups; cbn in *; [by destruct Hfi|eauto].
  - intros t' v' b' H Hb'. lookups; cbn in *; [done|eauto].
  - destruct ok_list0 as [? HL]. split.
    + apply NoDup_app. split_and!; [done| |apply NoDup_singleton]. intros t Ht ->%list_elem_of_singleton.
      destruct (HL _ Ht). congruence.
    + intros t [Ht| ->%list_elem_of_singleton]%elem_of_app; [|rewrite lookup_insert_eq; eauto].
      rewrite lookup_insert_ne; [eauto|]. intros <-. destruct (HL _ Ht). congruence.
Qed.
