(* ===== verification/VgcsCellSafe.v ===== *)
(** * Voice group calls: cells and BSSs keep the links in order

    Ending a cell, clearing a BSS and ending a transaction, each for a
    [dispatch] that serves the events that it needs. *)

From S2P Require Import Prelude VlrTypes Codecs Sdp CallTypes CallBase CallLeg CMonad VgcsTypes Vgcs VgcsInv VgcsStill VgcsLinks.

(** what happens to a cell only changes the cell and its places in lists *)
Record cell_moved (c : nat) (h h' : vg_shape) : Prop := {
  cm_trans : h_trans h' = h_trans h;
  cm_list : h_list h' = h_list h;
  cm_bss : forall b x, h_bss h !! b = Some x ->
    exists x', h_bss h' !! b = Some x' /\ bs_state x' = bs_state x /\ bs_trans x' = bs_trans x;
  cm_cells : forall c', c' <> c -> h_cells h' !! c' = h_cells h !! c'
}.
#[export] Instance cell_moved_preorder c : PreOrder (cell_moved c).
Proof.
  split.
  - intros h. split; try done. intros b x H. eauto.
  - intros h1 h2 h3 [A1 A2 A3 A4] [B1 B2 B3 B4]. split; try congruence.
    + intros b x H. destruct (A3 b x H) as (x' & Hx' & ? & ?). destruct (B3 b x' Hx') as (x'' & ? & ? & ?).
      exists x''. split_and!; congruence.
    + intros c' Hc. rewrite B4, A4; done.
Qed.

(** what happens to a BSS that is cleared *)
Record bss_moved (b : nat) (h h' : vg_shape) : Prop := {
  bm_trans : forall t v, h_trans h !! t = Some v ->
    exists v', h_trans h' !! t = Some v' /\ (forall u, u ∈ ts_bss v' -> u ∈ ts_bss v) /\ ts_msc_a v' = ts_msc_a v /\ ts_fi v' = ts_fi v;
  bm_list : h_list h' = h_list h;
  bm_bss : forall b' x, b' <> b -> h_bss h !! b' = Some x ->
    exists x', h_bss h' !! b' = Some x' /\ bs_state x' = bs_state x /\ bs_trans x' = bs_trans x;
  bm_self : is_Some (h_bss h !! b) -> is_Some (h_bss h' !! b)
}.
#[export] Instance bss_moved_preorder b : PreOrder (bss_moved b).
Proof.
  split.
  - intros h. split; try done; eauto.
  - intros h1 h2 h3 [A1 A2 A3 A4] [B1 B2 B3 B4]. split; try congruence; eauto.
    + intros t v H. destruct (A1 t v H) as (v' & Hv' & ? & ? & ?). destruct (B1 t v' Hv') as (v'' & ? & ? & ? & ?).
      exists v''. split_and!; eauto; congruence.
    + intros b' x Hne H. destruct (A3 b' x Hne H) as (x' & Hx' & ? & ?). destruct (B3 b' x' Hne Hx') as (x'' & ? & ? & ?).
      exists x''. split_and!; congruence.
Qed.
Lemma cell_moved_bss c b h h' : cell_moved c h h' -> bss_moved b h h'.
Proof.
  intros [A1 A2 A3 A4]. split; eauto.
  - intros t v H. exists v. rewrite A1. eauto.
  - intros [x Hx]. destruct (A3 b x Hx) as (? & ? & _). eauto.
Qed.

Section safe.
Context {SL : SockaddrLib} {CL : CallLib} {AC : AmrCfg} {VL : VgcsLib}.
Variable dispatch : vg_ev -> VM unit.

Lemma vwp_still {A} (m : VM A) (Q : A -> vg_world -> Prop) w :
  still (shape w) m -> (forall a w', shape w' = shape w -> Q a w') -> vwp m Q w.
Proof. intros Hm HQ. eapply swp_mono; [by apply Hm|]. cbv beta. eauto. Qed.

(** ** Cells *)

Lemma cell_detach_bss_spec c w e :
  vg_ok None (shape w) -> h_cells (shape w) !! c = Some e ->
  vwp (cell_detach_bss c) (fun _ w' => vg_ok None (shape w') /\ cell_moved c (shape w) (shape w') /\
    h_cells (shape w') !! c = Some (e <| cs_bss := None |>)) w.
Proof.
  intros Hok He. unfold cell_detach_bss. apply swp_bind, vwp_get_cell; [eauto|]. intros x Hx.
  rewrite shape_cells, Hx in He. injection He as <-.
  destruct (c_bss x) as [b|] eqn:Hb; cbn [sopt];
    [|apply swp_ret; split_and!; [done|done|]; rewrite shape_cells, Hx; unfold shape_c; cbn; by rewrite Hb].
  destruct (ok_bss_of_cell _ _ Hok c (shape_c x) b) as (y & Hy & Hc); [by rewrite shape_cells, Hx|done|].
  apply swp_bind, vwp_get_bss; [eauto|]. intros y' Hy'. rewrite shape_bss, Hy' in Hy. injection Hy as <-. apply swp_bind.
  apply vwp_still.
  { still_step. apply still_mod_vt; [|by intros v; destruct (opt_eqb _ _)].
    destruct (ok_trans_of_bss _ _ Hok b (shape_b y') a) as (v & -> & _); [by rewrite shape_bss, Hy'|done|eauto]. }
  intros _ w1 Hw1. apply swp_mod.
  set (h := shape w) in *.
  assert (E : shape (w1 <| vw_bss ::= insert b (y' <| b_cell_list ::= filter (fun u => u <> c) |>) |>
                       <| vw_cells ::= insert c (x <| c_bss := None |>) |>)
          = h <| h_bss ::= insert b (shape_b y' <| bs_cells ::= filter (fun u => u <> c) |>) |>
              <| h_cells ::= insert c (shape_c x <| cs_bss := None |>) |>).
  { rewrite <- Hw1. unfold shape. cbn. by rewrite !fmap_insert. }
  assert (Hx' : h_cells h !! c = Some (shape_c x)) by (unfold h; by rewrite shape_cells, Hx).
  assert (Hyy : h_bss h !! b = Some (shape_b y')) by (unfold h; by rewrite shape_bss, Hy').
  clearbody h. rewrite E. split_and!.
  - by apply ok_cell_leaves_bss.
  - split; cbn; try done.
    + intros b' z Hz. destruct (decide (b = b')) as [<-|]; [|rewrite lookup_insert_ne by done; eauto].
      rewrite lookup_insert_eq. eexists. split; [done|]. cbn. rewrite Hyy in Hz. by injection Hz as <-.
    + intros c' Hne. by rewrite lookup_insert_ne.
  - apply lookup_insert_eq.
Qed.

(** an endpoint without cells is told so *)
Definition mgw_serves : Prop := forall m w, vg_ok None (shape w) -> is_Some (h_mgw (shape w) !! m) ->
  vwp (dispatch (ToMgw m VGCS_MGW_EP_EV_CLEAR))
    (fun _ w' => vg_ok None (shape w') /\ shape w' = shape w <| h_mgw := h_mgw (shape w') |>) w.

Lemma cell_detach_mgw_spec c w e :
  mgw_serves -> vg_ok None (shape w) -> h_cells (shape w) !! c = Some e ->
  vwp (cell_detach_mgw dispatch c) (fun _ w' => vg_ok None (shape w') /\ cell_moved c (shape w) (shape w') /\
    h_cells (shape w') !! c = Some (e <| cs_mgw := None |>)) w.
Proof.
  intros HM Hok He. unfold cell_detach_mgw. apply swp_bind, vwp_get_cell; [eauto|]. intros x Hx.
  rewrite shape_cells, Hx in He. injection He as <-.
  destruct (c_mgw x) as [m|] eqn:Hm; cbn [sopt];
    [|apply swp_ret; split_and!; [done|done|]; rewrite shape_cells, Hx; unfold shape_c; cbn; by rewrite Hm].
  destruct (ok_mgw_of_cell _ _ Hok c (shape_c x) m) as (l & Hl & Hc); [by rewrite shape_cells, Hx|done|].
  apply swp_bind, vwp_get_mgw; [eauto|]. intros y Hy. rewrite shape_mgw, Hy in Hl. injection Hl as <-.
  apply swp_bind, swp_mod. set (h := shape w) in *. set (w1 := w <| vw_mgw ::= _ |> <| vw_cells ::= _ |>).
  assert (E : shape w1 = h <| h_mgw ::= insert m (filter (fun u => u <> c) (m_cell_list y)) |>
                           <| h_cells ::= insert c (shape_c x <| cs_mgw := None |>) |>).
  { unfold h, w1, shape. cbn. by rewrite !fmap_insert. }
  assert (Hx' : h_cells h !! c = Some (shape_c x)) by (unfold h; by rewrite shape_cells, Hx).
  assert (Hyy : h_mgw h !! m = Some (m_cell_list y)) by (unfold h; by rewrite shape_mgw, Hy).
  assert (Hok1 : vg_ok None (shape w1)) by (rewrite E; by apply ok_cell_leaves_mgw).
  assert (M1 : cell_moved c h (shape w1)).
  { rewrite E. split; cbn; try done; [eauto|]. intros c' Hne. by rewrite lookup_insert_ne. }
  assert (Hc1 : h_cells (shape w1) !! c = Some (shape_c x <| cs_mgw := None |>)) by (rewrite E; apply lookup_insert_eq).
  assert (Hm1 : is_Some (h_mgw (shape w1) !! m)) by (rewrite E; cbn; rewrite lookup_insert_eq; eauto).
  apply swp_bind, vwp_get_mgw; [done|]. intros y1 _. destruct (m_cell_list y1); [|by apply swp_ret].
  eapply swp_mono; [by apply HM|]. cbv beta. intros _ w2 [Hok2 E2]. split_and!; [done| |rewrite E2; exact Hc1].
  etrans; [exact M1|]. rewrite E2. split; cbn; try done. eauto.
Qed.

Lemma still_close_conn h c : is_Some (h_cells h !! c) -> still h (cell_close_conn c).
Proof. intros Hc. unfold cell_close_conn, ran_conn_close. still_tac. Qed.

Lemma cell_destroy_spec c w :
  mgw_serves -> vg_ok None (shape w) -> is_Some (h_cells (shape w) !! c) ->
  vwp (cell_destroy dispatch c) (fun _ w' => vg_ok None (shape w') /\ cell_moved c (shape w) (shape w')) w.
Proof.
  intros HM Hok Hc. unfold cell_destroy. apply swp_bind, vwp_still; [by apply still_close_conn|]. intros _ w1 E1.
  rewrite <- E1 in *. destruct Hc as [e He]. apply swp_bind.
  eapply swp_mono; [by apply cell_detach_bss_spec|]. cbv beta. intros _ w2 (Hok2 & M2 & He2). apply swp_bind.
  eapply swp_mono; [by apply cell_detach_mgw_spec|]. cbv beta. intros _ w3 (Hok3 & M3 & He3). apply swp_mod.
  assert (E : shape (w3 <| vw_cells ::= delete c |>) = shape w3 <| h_cells ::= delete c |>) by (unfold shape; cbn; by rewrite fmap_delete).
  rewrite E. split; [by eapply ok_cell_deleted|]. etrans; [exact M2|]. etrans; [exact M3|].
  split; cbn; try done; [eauto|]. intros c' Hne. by apply lookup_delete_ne.
Qed.

(** the stream of a cell that is released, or has no mask for it, ends *)
Definition gone_serves : Prop := forall c e w, vg_ok None (shape w) -> h_cells (shape w) !! c = Some e ->
  cs_state e = VGCS_CELL_ST_NULL \/ cs_state e = VGCS_CELL_ST_RELEASE ->
  vwp (dispatch (ToCell c VGCS_CELL_EV_RTP_STREAM_GONE))
    (fun _ w' => vg_ok None (shape w') /\ cell_moved c (shape w) (shape w')) w.

Lemma cell_rtp_release_spec c e w :
  gone_serves -> vg_ok None (shape w) -> h_cells (shape w) !! c = Some e ->
  cs_state e = VGCS_CELL_ST_NULL \/ cs_state e = VGCS_CELL_ST_RELEASE ->
  vwp (cell_rtp_release dispatch c) (fun _ w' => vg_ok None (shape w') /\ cell_moved c (shape w) (shape w')) w.
Proof.
  intros HG Hok He Hs. unfold cell_rtp_release. assert (Hc : is_Some (h_cells (shape w) !! c)) by eauto.
  apply swp_bind, vwp_still; [unfold get_rtps; still_tac|]. intros s w1 E1. rewrite <- E1 in *.
  apply swp_bind, vwp_still; [still_tac|]. intros _ w2 E2. rewrite <- E2 in *.
  apply swp_bind, vwp_still; [still_tac|]. intros _ w3 E3. rewrite <- E3 in *. by eapply HG.
Qed.

Lemma vwp_cell_set_release c e w (Q : unit -> vg_world -> Prop) :
  vg_ok None (shape w) -> h_cells (shape w) !! c = Some e ->
  (forall w' s, s = VGCS_CELL_ST_NULL \/ s = VGCS_CELL_ST_RELEASE -> vg_ok None (shape w') -> cell_moved c (shape w) (shape w') ->
     h_cells (shape w') !! c = Some (e <| cs_state := s |>) -> Q tt w') ->
  vwp (cell_set_release c) Q w.
Proof.
  intros Hok He HQ. apply vwp_mod_cell; [eauto|]. intros x w' Hx E.
  rewrite shape_cells, Hx in He. injection He as <-.
  set (s := if bool_decide (c_state x = VGCS_CELL_ST_NULL) then VGCS_CELL_ST_NULL else VGCS_CELL_ST_RELEASE).
  assert (Es : shape_c (if bool_decide (c_state x = VGCS_CELL_ST_NULL) then x else x <| c_state := VGCS_CELL_ST_RELEASE |>)
               = shape_c x <| cs_state := s |>).
  { unfold s. case_bool_decide as Hn; [|done]. unfold shape_c. cbn. by rewrite Hn. }
  rewrite Es in E. apply (HQ w' s).
  - unfold s. case_match; auto.
  - rewrite E. apply (ok_cell_state _ _ c (shape_c x)); [done|]. by rewrite shape_cells, Hx.
  - rewrite E. split; cbn; try done; [eauto|]. intros c' Hne. by rewrite lookup_insert_ne.
  - rewrite E. apply lookup_insert_eq.
Qed.

Lemma cell_clear_spec c cause w :
  mgw_serves -> gone_serves -> vg_ok None (shape w) -> is_Some (h_cells (shape w) !! c) ->
  vwp (cell_clear dispatch c cause) (fun _ w' => vg_ok None (shape w') /\ cell_moved c (shape w) (shape w')) w.
Proof.
  intros HM HG Hok [e He]. unfold cell_clear. apply swp_bind.
  eapply swp_mono; [by apply cell_detach_bss_spec|]. cbv beta. intros _ w1 (Hok1 & M1 & He1). apply swp_bind.
  eapply vwp_cell_set_release; [done..|]. intros w2 s Hs Hok2 M2 He2. 
  match goal with |- vwp ?m _ _ =>
    enough (G : vwp m (fun _ w' => vg_ok None (shape w') /\ cell_moved c (shape w2) (shape w')) w2) end.
  { eapply swp_mono; [exact G|]. cbv beta. intros _ w' [? ?]. split; [done|]. etrans; [exact M1|]. by etrans. }
  clear He He1 Hok Hok1 M1 M2 w w1.
  apply swp_bind, vwp_get_cell; [eauto|]. intros x Hx. case_match.
  { eapply swp_mono; [apply cell_destroy_spec; [done..|eauto]|]. naive_solver. }
  apply swp_bind, vwp_still; [still_step; apply still_send|]. intros _ w3 E3. rewrite <- E3 in *.
  apply swp_when; [|intros _; by split]. intros _. eapply cell_rtp_release_spec; done.
Qed.
End safe.
