(* ===== verification/VgcsBssSafe.v ===== *)
(** * Voice group calls: BSSs and transactions keep the links in order *)

From S2P Require Import Prelude VlrTypes Codecs Sdp CallTypes CallBase CallLeg CMonad VgcsTypes Vgcs VgcsInv VgcsStill VgcsLinks.
From S2P Require Import VgcsCellSafe.

Lemma alter_insert_eq {A} (f : A -> A) (m : gmap nat A) i x : m !! i = Some x -> alter f i m = <[i := f x]> m.
Proof.
  intros H. apply map_eq. intros j. destruct (decide (i = j)) as [<-|].
  - by rewrite lookup_alter_eq, lookup_insert_eq, H.
  - by rewrite lookup_alter_ne, lookup_insert_ne.
Qed.

Lemma cells_forget_bss b (m : gmap nat vgcs_bss_cell) :
  shape_c <$> ((fun e => if opt_eqb (c_bss e) (Some b) then e <| c_bss := None |> else e) <$> m)
  = (fun e => if opt_eqb (cs_bss e) (Some b) then e <| cs_bss := None |> else e) <$> (shape_c <$> m).
Proof.
  rewrite <- !map_fmap_compose. apply map_fmap_ext. intros i e _. unfold compose, shape_c. cbn. by destruct (opt_eqb _ _).
Qed.
Lemma cells_forget_mgw b (m : gmap nat vgcs_bss_cell) :
  shape_c <$> ((fun e => if opt_eqb (c_mgw e) (Some b) then e <| c_mgw := None |> else e) <$> m)
  = (fun e => if opt_eqb (cs_mgw e) (Some b) then e <| cs_mgw := None |> else e) <$> (shape_c <$> m).
Proof.
  rewrite <- !map_fmap_compose. apply map_fmap_ext. intros i e _. unfold compose, shape_c. cbn. by destruct (opt_eqb _ _).
Qed.

Section safe.
Context {SL : SockaddrLib} {CL : CallLib} {AC : AmrCfg} {VL : VgcsLib}.
Variable dispatch : vg_ev -> VM unit.

(** ** BSSs *)

Lemma bss_detach_trans_spec b w x :
  vg_ok None (shape w) -> h_bss (shape w) !! b = Some x ->
  vwp (bss_detach_trans b) (fun _ w' => vg_ok None (shape w') /\ bss_moved b (shape w) (shape w') /\
    h_bss (shape w') !! b = Some (x <| bs_trans := None |>) /\ h_cells (shape w') = h_cells (shape w)) w.
Proof.
  intros Hok Hx. unfold bss_detach_trans. apply swp_bind, vwp_get_bss; [eauto|]. intros y Hy.
  rewrite shape_bss, Hy in Hx. injection Hx as <-.
  destruct (b_trans y) as [t|] eqn:Ht; cbn [sopt];
    [|apply swp_ret; split_and!; [done|done| |done]; rewrite shape_bss, Hy; unfold shape_b; cbn; by rewrite Ht].
  destruct (ok_trans_of_bss _ _ Hok b (shape_b y) t) as (v & Hv & _); [by rewrite shape_bss, Hy|done|].
  apply swp_bind, vwp_get_vt; [eauto|]. intros v0 Hv0. rewrite shape_trans, Hv0 in Hv. injection Hv as <-.
  cbv zeta. apply swp_mod.
  set (v1 := if opt_eqb (v_uplink_bss v0) (Some b) then v0 <| v_uplink_bss := None |> <| v_uplink_cell := None |> else v0).
  set (v2 := v1 <| v_bss_list ::= filter (fun u => u <> b) |>). set (h := shape w) in *.
  set (w1 := w <| vw_trans ::= insert t v2 |> <| vw_bss ::= insert b (y <| b_trans := None |>) |>).
  assert (E : shape w1 = h <| h_trans ::= insert t (shape_t v2) |> <| h_bss ::= insert b (shape_b y <| bs_trans := None |>) |>).
  { unfold h, w1, shape. cbn. by rewrite !fmap_insert. }
  assert (Hvv : h_trans h !! t = Some (shape_t v0)) by (unfold h; by rewrite shape_trans, Hv0).
  assert (Hyy : h_bss h !! b = Some (shape_b y)) by (unfold h; by rewrite shape_bss, Hy).
  assert (F : ts_bss (shape_t v2) = filter (fun u => u <> b) (ts_bss (shape_t v0)) /\ ts_msc_a (shape_t v2) = ts_msc_a (shape_t v0)
              /\ ts_fi (shape_t v2) = ts_fi (shape_t v0)
              /\ (ts_uplink (shape_t v2) = None \/ ts_uplink (shape_t v2) = ts_uplink (shape_t v0) /\ ts_uplink (shape_t v0) <> Some b)).
  { unfold v2, v1, opt_eqb. case_bool_decide as Hu; split_and!; try done; [by left|by right]. }
  destruct F as (F1 & F2 & F3 & F4). change (vg_ok None (shape w1) /\ bss_moved b h (shape w1) /\
    h_bss (shape w1) !! b = Some (shape_b y <| bs_trans := None |>) /\ h_cells (shape w1) = h_cells h).
  generalize dependent (shape w1). clearbody h. intros h1 ->. split_and!.
  - by apply (ok_bss_leaves h b (shape_b y) t (shape_t v0)).
  - split; cbn; try done.
    + intros t' u Hu. destruct (decide (t = t')) as [<-|]; [|rewrite lookup_insert_ne by done; eauto 10].
      rewrite lookup_insert_eq. eexists. split; [done|]. rewrite Hvv in Hu. injection Hu as <-. rewrite F1, F2, F3.
      split_and!; [|done..]. by intros ? [_ ?]%list_elem_of_filter.
    + intros b' z Hne Hz. rewrite lookup_insert_ne by done. eauto.
    + intros _. rewrite lookup_insert_eq. eauto.
  - apply lookup_insert_eq.
  - done.
Qed.

Lemma bss_detach_cells_spec b w x :
  vg_ok None (shape w) -> h_bss (shape w) !! b = Some x ->
  vwp (bss_detach_cells b) (fun _ w' => vg_ok None (shape w') /\ bss_moved b (shape w) (shape w') /\
    h_bss (shape w') !! b = Some (x <| bs_cells := [] |>)) w.
Proof.
  intros Hok Hx. unfold bss_detach_cells. apply swp_bind, vwp_get_bss; [eauto|]. intros y Hy.
  rewrite shape_bss, Hy in Hx. injection Hx as <-. apply swp_mod. set (h := shape w) in *.
  set (w1 := w <| vw_cells ::= _ |> <| vw_bss ::= _ |>).
  assert (E : shape w1 = h <| h_cells ::= fmap (fun e => if opt_eqb (cs_bss e) (Some b) then e <| cs_bss := None |> else e) |>
                           <| h_bss ::= insert b (shape_b y <| bs_cells := [] |>) |>).
  { exact (f_equal2 (fun cells bss => mk_shape (h_trans h) bss cells (h_mgw h) (h_list h) (h_next h))
             (cells_forget_bss b (vw_cells w)) (fmap_insert shape_b (vw_bss w) b (y <| b_cell_list := [] |>))). }
  assert (Hyy : h_bss h !! b = Some (shape_b y)) by (unfold h; by rewrite shape_bss, Hy).
  generalize dependent (shape w1). clearbody h. intros h1 ->. split_and!.
  - by apply ok_cells_leave_bss.
  - split; cbn; try done.
    + intros t v Hv. eauto 10.
    + intros b' z Hne Hz. rewrite lookup_insert_ne by done. eauto.
    + intros _. rewrite lookup_insert_eq. eauto.
  - apply lookup_insert_eq.
Qed.

Lemma vwp_bss_set_release b x w (Q : unit -> vg_world -> Prop) :
  vg_ok None (shape w) -> h_bss (shape w) !! b = Some x -> bs_trans x = None ->
  (forall w' s, vg_ok None (shape w') -> bss_moved b (shape w) (shape w') -> h_cells (shape w') = h_cells (shape w) ->
     h_bss (shape w') !! b = Some (x <| bs_state := s |>) -> Q tt w') ->
  vwp (bss_set_release b) Q w.
Proof.
  intros Hok Hx Ht HQ. apply vwp_mod_bss; [eauto|]. intros y w' Hy E. rewrite shape_bss, Hy in Hx. injection Hx as <-.
  set (s := if bool_decide (b_state y = VGCS_BSS_ST_NULL) then b_state y else VGCS_BSS_ST_RELEASE).
  assert (Es : shape_b (if bool_decide (b_state y = VGCS_BSS_ST_NULL) then y else y <| b_state := VGCS_BSS_ST_RELEASE |>)
               = shape_b y <| bs_state := s |>) by (unfold s; by case_bool_decide).
  assert (Hyy : h_bss (shape w) !! b = Some (shape_b y)) by (by rewrite shape_bss, Hy).
  rewrite Es in E. apply (HQ w' s); rewrite E.
  - by apply (ok_bss_state _ _ b (shape_b y)).
  - split; cbn; try done; [eauto 10| |].
    + intros b' z Hne Hz. rewrite lookup_insert_ne by done. eauto.
    + intros _. rewrite lookup_insert_eq. eauto.
  - done.
  - apply lookup_insert_eq.
Qed.

(** a cell is told to clear its channel or to ask for one *)
Definition cell_serves : Prop := forall c ev w, ev = VGCS_CELL_EV_CLEAR \/ ev = VGCS_CELL_EV_ASSIGN ->
  vg_ok None (shape w) -> is_Some (h_cells (shape w) !! c) ->
  vwp (dispatch (ToCell c ev)) (fun _ w' => vg_ok None (shape w') /\ cell_moved c (shape w) (shape w')) w.
(** a transaction gets an event *)
Definition gcc_serves : Prop := forall t ev v w, vg_ok None (shape w) -> h_trans (shape w) !! t = Some v ->
  (ev = VGCS_GCC_EV_USER_SETUP -> is_Some (ts_msc_a v)) ->
  vwp (dispatch (ToGcc t ev)) (fun _ w' => vg_ok None (shape w')) w.

(** all cells of a BSS get an event *)
Lemma cells_loop b ev l : forall w,
  cell_serves -> ev = VGCS_CELL_EV_CLEAR \/ ev = VGCS_CELL_EV_ASSIGN ->
  vg_ok None (shape w) -> NoDup l -> (forall c, c ∈ l -> is_Some (h_cells (shape w) !! c)) ->
  vwp (sfor l (fun c => dispatch (ToCell c ev)))
    (fun _ w' => vg_ok None (shape w') /\ bss_moved b (shape w) (shape w') /\
       forall x, h_bss (shape w) !! b = Some x -> exists x', h_bss (shape w') !! b = Some x' /\ bs_trans x' = bs_trans x) w.
Proof.
  induction l as [|c l IH]; intros w HC Hev Hok Hnd Hl; cbn [sfor]; [apply swp_ret; split_and!; [done|done|by eauto]|].
  apply NoDup_cons in Hnd as [Hc Hnd]. apply swp_bind.
  eapply swp_mono; [apply HC; [done|done|apply Hl; by left]|]. cbv beta. intros _ w1 [Hok1 M1].
  eapply swp_mono; [apply IH; [done|done|done|done|]|].
  - intros c' Hc'. rewrite (cm_cells _ _ _ M1) by congruence. apply Hl. by right.
  - cbv beta. intros _ w2 (Hok2 & M2 & X2). split_and!; [done|etrans; [by eapply cell_moved_bss|done]|].
    intros x Hx. destruct (cm_bss _ _ _ M1 b x Hx) as (x1 & Hx1 & _ & E1). destruct (X2 x1 Hx1) as (x2 & ? & ?).
    exists x2. split; congruence.
Qed.

(** up to the notification of the transaction *)
Lemma bss_clear_spec b cause notify w x :
  cell_serves -> (notify = true -> gcc_serves) -> vg_ok None (shape w) -> h_bss (shape w) !! b = Some x ->
  vwp (bss_clear dispatch b cause notify) (fun _ w' => vg_ok None (shape w') /\
    (notify = false -> bss_moved b (shape w) (shape w') /\ exists x', h_bss (shape w') !! b = Some x' /\ bs_trans x' = None)) w.
Proof.
  intros HC HN Hok Hx. unfold bss_clear. apply swp_bind, vwp_get_bss; [eauto|]. intros y Hy.
  rewrite shape_bss, Hy in Hx. injection Hx as <-.
  assert (Hyy : h_bss (shape w) !! b = Some (shape_b y)) by (by rewrite shape_bss, Hy).
  apply swp_bind. eapply swp_mono; [by apply bss_detach_trans_spec|]. cbv beta. intros _ w1 (Hok1 & M1 & X1 & C1).
  apply swp_bind. eapply vwp_bss_set_release; [done|exact X1|done|]. intros w2 s Hok2 M2 C2 X2.
  apply swp_bind, vwp_still; [still_step; apply still_send|]. intros _ w3 E3. rewrite <- E3 in *.
  apply swp_bind. eapply swp_mono; [apply (cells_loop b); [done|by left|done|exact (ok_cells_nodup _ _ Hok b _ Hyy)|]|].
  { intros c Hc. rewrite C2, C1. by eapply (cell_live None (shape w) b (shape_b y)). }
  cbv beta. intros _ w4 (Hok4 & M4 & X4). destruct (X4 _ X2) as (x4 & Hx4 & Ht4). apply swp_bind.
  eapply swp_mono; [by apply bss_detach_cells_spec|]. cbv beta. intros _ w5 (Hok5 & M5 & X5).
  assert (M : bss_moved b (shape w) (shape w5)) by (do 3 (etrans; [eassumption|]); done).
  apply swp_when; [|intros _; split; [done|intros _; split; [done|eexists; split; [exact X5|exact Ht4]]]].
  intros ->. assert (K : forall w', vg_ok None (shape w') -> vg_ok None (shape w') /\ (true = false -> bss_moved b (shape w) (shape w') /\ exists x', h_bss (shape w') !! b = Some x' /\ bs_trans x' = None)) by done.
  apply swp_opt; [|auto]. intros t Ht. destruct (ok_trans_of_bss _ _ Hok b (shape_b y) t Hyy Ht) as (v & Hv & _).
  destruct (bm_trans _ _ _ M t v Hv) as (v5 & Hv5 & _). apply swp_bind, vwp_get_vt; [eauto|]. intros z Hz.
  destruct (v_bss_list z); [|by apply swp_ret, K]. eapply swp_mono; [by apply (HN eq_refl t _ v5)|]. cbv beta. auto.
Qed.

Lemma bss_destroy_spec b w :
  vg_ok None (shape w) -> is_Some (h_bss (shape w) !! b) -> vwp (bss_destroy b) (fun _ w' => vg_ok None (shape w')) w.
Proof.
  intros Hok [x Hx]. unfold bss_destroy. apply swp_bind.
  eapply swp_mono; [by apply bss_detach_trans_spec|]. cbv beta. intros _ w1 (Hok1 & _ & X1 & _).
  apply swp_bind, vwp_get_bss; [eauto|]. intros y Hy.
  apply swp_bind, vwp_still; [unfold ran_conn_close; still_tac|]. intros _ w2 E2. rewrite <- E2 in *.
  apply swp_bind. eapply swp_mono; [by apply bss_detach_cells_spec|]. cbv beta. intros _ w3 (Hok3 & M3 & X3). apply swp_mod.
  assert (E : shape (w3 <| vw_bss ::= delete b |>) = shape w3 <| h_bss ::= delete b |>) by (unfold shape; cbn; by rewrite fmap_delete).
  rewrite E. eapply ok_bss_deleted; [done|by left|exact X3|done|].
  intros t v Hv Hin. destruct (ok_bss_of_trans _ _ Hok3 t v b Hv Hin) as (z & Hz & Hzt).
  rewrite X3 in Hz. injection Hz as <-. done.
Qed.

(** ** Transactions *)

Definition bss_serves : Prop := forall b w x, vg_ok None (shape w) -> h_bss (shape w) !! b = Some x ->
  bs_state x <> VGCS_BSS_ST_RELEASE ->
  vwp (dispatch (ToBss b VGCS_BSS_EV_CLEAR)) (fun _ w' => vg_ok None (shape w') /\ bss_moved b (shape w) (shape w') /\
    exists x', h_bss (shape w') !! b = Some x' /\ bs_trans x' = None) w.

(** the other transactions are still there when one is freed *)
Record trans_moved (t : nat) (h h' : vg_shape) : Prop := {
  tm_trans : forall t' v, t' <> t -> h_trans h !! t' = Some v -> exists v', h_trans h' !! t' = Some v' /\ ts_msc_a v' = ts_msc_a v;
  tm_list : h_list h' = filter (fun u => u <> t) (h_list h)
}.

(** all BSSs of a transaction are cleared *)
Lemma bss_loop t l : forall w v,
  bss_serves -> vg_ok None (shape w) -> h_trans (shape w) !! t = Some v -> NoDup l -> (forall b, b ∈ l <-> b ∈ ts_bss v) ->
  vwp (sfor l (fun b => dispatch (ToBss b VGCS_BSS_EV_CLEAR)))
    (fun _ w' => vg_ok None (shape w') /\ h_list (shape w') = h_list (shape w) /\
       (forall t' v, h_trans (shape w) !! t' = Some v -> exists v', h_trans (shape w') !! t' = Some v' /\ ts_msc_a v' = ts_msc_a v) /\
       exists v', h_trans (shape w') !! t = Some v' /\ ts_bss v' = []) w.
Proof.
  induction l as [|b l IH]; intros w v HB Hok Hv Hnd Hl; cbn [sfor].
  - apply swp_ret. split_and!; [done|done|eauto|]. exists v. split; [done|]. apply elem_of_nil_inv. intros u Hu.
    by apply Hl, not_elem_of_nil in Hu.
  - apply NoDup_cons in Hnd as [Hb Hnd]. destruct (ok_bss_of_trans _ _ Hok t v b Hv) as (x & Hx & Hxt); [apply Hl; by left|].
    apply swp_bind. eapply swp_mono; [apply (HB b w x Hok Hx)|].
    { intros Hs. rewrite (ok_released _ _ Hok b x Hx Hs) in Hxt. done. }
    cbv beta. intros _ w1 (Hok1 & M1 & x1 & Hx1 & Hx1t). destruct (bm_trans _ _ _ M1 t v Hv) as (v1 & Hv1 & Hsub & _ & _).
    eapply swp_mono; [apply (IH w1 v1 HB Hok1 Hv1 Hnd)|].
    + intros u. split; intros Hu.
      * destruct (ok_bss_of_trans _ _ Hok t v u Hv) as (y & Hy & Hyt); [apply Hl; by right|].
        destruct (bm_bss _ _ _ M1 u y) as (y1 & Hy1 & _ & Hy1t); [congruence|done|]. rewrite Hyt in Hy1t.
        destruct (ok_trans_of_bss _ _ Hok1 u y1 t Hy1 Hy1t) as (v1' & Hv1' & [Hin|]); [|done]. congruence.
      * destruct (decide (u = b)) as [->|Hne].
        -- destruct (ok_bss_of_trans _ _ Hok1 t v1 b Hv1 Hu) as (y & Hy & Hyt). congruence.
        -- apply Hsub, Hl, elem_of_cons in Hu as [|]; done.
    + cbv beta. intros _ w2 (Hok2 & L2 & T2 & V2). split_and!; [done| |intros t' u Hu|done].
      * rewrite L2. apply M1.
      * destruct (bm_trans _ _ _ M1 t' u Hu) as (u1 & Hu1 & _ & E1 & _). destruct (T2 t' u1 Hu1) as (u2 & ? & ?).
        exists u2. split; congruence.
Qed.

Lemma trans_free_spec t w v :
  bss_serves -> vg_ok None (shape w) -> h_trans (shape w) !! t = Some v ->
  vwp (vg_trans_free dispatch t) (fun _ w' => vg_ok None (shape w') /\ trans_moved t (shape w) (shape w')) w.
Proof.
  intros HB Hok Hv. unfold vg_trans_free, gsm44068_bcc_gcc_trans_free. apply swp_bind, swp_mod.
  set (w1 := w <| vw_list ::= _ |>). assert (Hok1 : vg_ok None (shape w1)) by exact (ok_unlisted None (shape w) t Hok).
  assert (Hv1 : h_trans (shape w1) !! t = Some v) by exact Hv. apply swp_bind, swp_bind.
  apply vwp_mod_vt; [eauto|]. intros z w2 Hz E2.
  assert (v = shape_t z) as -> by (apply (inj Some); by rewrite <- Hv1, shape_trans, Hz).
  assert (Hok2 : vg_ok None (shape w2)).
  { rewrite E2. apply (ok_trans_changed _ _ t (shape_t z)); [done|done|done| |].
    - intros b Hb. by apply (ok_uplink _ _ Hok1 t (shape_t z) b Hv1).
    - by intros [|]. }
  assert (Hv2 : h_trans (shape w2) !! t = Some (shape_t (z <| v_fi := None |>))) by (rewrite E2; apply lookup_insert_eq).
  apply swp_bind, vwp_get_vt; [eauto|]. intros z2 Hz2.
  assert (Ez : shape_t z2 = shape_t (z <| v_fi := None |>)) by (apply (inj Some); by rewrite <- Hv2, shape_trans, Hz2).
  assert (El : v_bss_list z2 = v_bss_list z) by exact (f_equal ts_bss Ez).
  apply swp_bind. eapply swp_mono; [apply (bss_loop t (v_bss_list z2) w2 _ HB Hok2 Hv2)|].
  { rewrite El. by apply (ok_bss_nodup _ _ Hok1 t (shape_t z)). } { intros b. by rewrite El. }
  cbv beta. intros _ w3 (Hok3 & L3 & T3 & v3 & Hv3 & Hnil).
  apply vwp_still; [apply still_stop_timer; eauto|]. intros _ w4 E4. rewrite <- E4 in *.
  apply swp_bind, vwp_get_vt; [eauto|]. intros z4 Hz4. apply swp_bind, swp_mod.
  assert (E5 : shape (w4 <| vw_trans ::= delete t |>) = shape w4 <| h_trans ::= delete t |>) by (unfold shape; cbn; by rewrite fmap_delete).
  assert (HL : h_list (shape w4) = filter (fun u => u <> t) (h_list (shape w))) by (rewrite L3, E2; done).
  apply vwp_still; [still_tac|]. intros _ w6 ->. rewrite E5. split.
  - eapply ok_trans_deleted; [done|exact Hv3|done|]. rewrite HL. by intros []%list_elem_of_filter.
  - split; [|exact HL]. intros t' u Hne Hu. cbn. rewrite lookup_delete_ne by done. apply T3. rewrite E2. cbn.
    by rewrite lookup_insert_ne.
Qed.

Lemma terminate_spec t cause w v :
  bss_serves -> vg_ok None (shape w) -> h_trans (shape w) !! t = Some v ->
  vwp (gcc_terminate_and_destroy dispatch t cause) (fun _ w' => vg_ok None (shape w')) w.
Proof.
  intros HB Hok Hv. unfold gcc_terminate_and_destroy. apply swp_bind, vwp_get_vt; [eauto|]. intros z Hz.
  apply swp_bind, vwp_still.
  { apply still_tx. intros b Hb. eapply uplink_live; [done| |done]. by rewrite shape_trans, Hz. }
  intros _ w1 E1. rewrite <- E1 in *. apply swp_bind, vwp_still; [still_tac; eauto|]. intros _ w2 E2. rewrite <- E2 in *.
  eapply swp_mono; [by eapply trans_free_spec|]. cbv beta. naive_solver.
Qed.
End safe.
