(* ===== verification/VgcsGccSafe.v ===== *)
(** * Voice group calls: call control keeps the links in order *)

From S2P Require Import Prelude VlrTypes Codecs Sdp CallTypes CallBase CallLeg CMonad VgcsTypes Vgcs VgcsInv VgcsStill VgcsLinks.
From S2P Require Import VgcsCellSafe VgcsBssSafe.

Section safe.
Context {SL : SockaddrLib} {CL : CallLib} {AC : AmrCfg} {VL : VgcsLib}.
Variable dispatch : vg_ev -> VM unit.

(** ** Establishing *)

(** a new BSS is told to set up its call *)
Definition setup_serves : Prop := forall b w x, vg_ok None (shape w) -> h_bss (shape w) !! b = Some x ->
  bs_state x = VGCS_BSS_ST_NULL -> is_Some (bs_trans x) ->
  vwp (dispatch (ToBss b VGCS_BSS_EV_SETUP))
    (fun _ w' => shape w' = shape w <| h_bss ::= insert b (x <| bs_state := VGCS_BSS_ST_SETUP |>) |>) w.

Lemma bss_alloc_spec t pc w v (Q : option nat -> vg_world -> Prop) :
  vg_ok None (shape w) -> h_trans (shape w) !! t = Some v ->
  (forall w', shape w' = shape w -> Q None w') ->
  (forall w' b, b = h_next (shape w) ->
     shape w' = shape w <| h_bss ::= insert b (mk_bs VGCS_BSS_ST_NULL (Some t) []) |> <| h_next := S (S b) |> -> Q (Some b) w') ->
  vwp (bss_alloc t pc) Q w.
Proof.
  intros Hok Hv HN HS. unfold bss_alloc. apply swp_bind, vwp_get_vt; [eauto|]. intros z Hz.
  apply swp_bind, vwp_ask. intros a w1 E1. case_match; [by apply swp_ret, HN|].
  apply swp_bind, swp_gets. apply swp_bind, swp_mod. apply swp_ret, HS.
  - by rewrite <- E1.
  - rewrite <- E1. unfold shape. cbn. by rewrite fmap_insert.
Qed.

(** a BSS under construction *)
Definition building (t m b : nat) (h0 h : vg_shape) : Prop :=
  vg_ok (Some b) h /\ h_trans h = h_trans h0 /\ h_list h = h_list h0 /\ is_Some (h_mgw h !! m) /\
  exists l, h_bss h !! b = Some (mk_bs VGCS_BSS_ST_NULL (Some t) l).

Lemma cell_alloc_spec t m b pc id h0 w :
  is_Some (h_trans h0 !! t) -> building t m b h0 (shape w) ->
  vwp (cell_alloc t m b pc id) (fun _ w' => building t m b h0 (shape w')) w.
Proof.
  intros Ht (Hok & ET & EL & [lm Hm] & l & Hb). unfold cell_alloc. apply swp_bind, vwp_get_vt; [by rewrite ET|]. intros z Hz.
  apply swp_bind, vwp_ask. intros a w1 E1. rewrite <- E1 in *. case_match; [apply swp_ret; split_and!; eauto|].
  apply swp_bind, swp_gets, swp_mod.
  set (c := vw_next w1). set (w2 := w1 <| vw_next := _ |> <| vw_conns ::= _ |> <| vw_cells ::= _ |> <| vw_bss ::= _ |> <| vw_mgw ::= _ |>).
  assert (E2 : shape w2 = shape w1 <| h_cells ::= insert c (mk_cs VGCS_CELL_ST_NULL (Some b) (Some m)) |>
               <| h_bss ::= insert b (mk_bs VGCS_BSS_ST_NULL (Some t) (l ++ [c])) |>
               <| h_mgw ::= insert m (lm ++ [c]) |> <| h_next := S (S c) |>).
  { rewrite shape_bss in Hb. apply fmap_Some in Hb as (x & Hx & Ex). rewrite shape_mgw in Hm. apply fmap_Some in Hm as (y & Hy & Ey).
    assert (EB : shape_b <$> alter (fun x => x <| b_cell_list ::= fun l => l ++ [c] |>) b (vw_bss w1)
                 = insert b (mk_bs VGCS_BSS_ST_NULL (Some t) (l ++ [c])) (shape_b <$> vw_bss w1)).
    { rewrite (alter_insert_eq _ _ b x Hx), fmap_insert. f_equal.
      exact (f_equal (fun s => s <| bs_cells ::= fun l => l ++ [c] |>) (eq_sym Ex)). }
    assert (EM : m_cell_list <$> alter (fun x => x <| m_cell_list ::= fun l => l ++ [c] |>) m (vw_mgw w1)
                 = insert m (lm ++ [c]) (m_cell_list <$> vw_mgw w1)).
    { rewrite (alter_insert_eq _ _ m y Hy), fmap_insert, Ey. done. }
    exact (f_equal3 (fun cells bss mgw => mk_shape (h_trans (shape w1)) bss cells mgw (vw_list w1) (S (S c)))
             (fmap_insert shape_c (vw_cells w1) c _) EB EM). }
  pose proof (ok_cell_new (Some b) (shape w1) b (mk_bs VGCS_BSS_ST_NULL (Some t) l) m lm c Hok eq_refl Hb Hm) as Hok2.
  rewrite E2. split_and!; [exact Hok2|done|done|cbn; rewrite lookup_insert_eq; eauto|].
  exists (l ++ [c]). apply lookup_insert_eq.
Qed.

(** the transactions are still there, the one that is established has more
    BSSs *)
Record grown (t m : nat) (h h' : vg_shape) : Prop := {
  gr_ok : vg_ok None h';
  gr_mgw : is_Some (h_mgw h' !! m);
  gr_trans : forall t' v, h_trans h !! t' = Some v -> exists v', h_trans h' !! t' = Some v' /\ ts_msc_a v' = ts_msc_a v
}.
Lemma grown_trans t m h1 h2 h3 : grown t m h1 h2 -> grown t m h2 h3 -> grown t m h1 h3.
Proof.
  intros [A1 A2 A3] [B1 B2 B3]. split; try done. intros t' v Hv. destruct (A3 t' v Hv) as (v' & Hv' & ?).
  destruct (B3 t' v' Hv') as (v'' & ? & ?). exists v''. split; congruence.
Qed.

(** a BSS that is complete: listed and told to start *)
Lemma bss_complete t m b h0 w :
  setup_serves -> vg_ok None h0 -> h_bss h0 !! b = None -> is_Some (h_trans h0 !! t) -> building t m b h0 (shape w) ->
  vwp (mod_vt t (fun v => v <| v_bss_list ::= fun l => l ++ [b] |>) ;;; dispatch (ToBss b VGCS_BSS_EV_SETUP))
    (fun _ w' => grown t m h0 (shape w')) w.
Proof.
  intros HS Hok0 Hfresh [v0 Hv0] (Hok & ET & EL & Hm & l & Hb). apply swp_bind, vwp_mod_vt; [rewrite ET; eauto|].
  intros z w1 Hz E1.
  assert (Hv : h_trans (shape w) !! t = Some (shape_t z)) by (by rewrite shape_trans, Hz).
  assert (Hno : b ∉ ts_bss (shape_t z)).
  { intros Hin. rewrite ET in Hv. destruct (ok_bss_of_trans _ _ Hok0 t _ b Hv Hin) as (? & ? & _). congruence. }
  assert (Hok1 : vg_ok None (shape w1)) by (rewrite E1; by apply (ok_bss_listed (shape w) b (mk_bs VGCS_BSS_ST_NULL (Some t) l) t (shape_t z))).
  assert (Hb1 : h_bss (shape w1) !! b = Some (mk_bs VGCS_BSS_ST_NULL (Some t) l)) by (rewrite E1; exact Hb).
  eapply swp_mono; [apply (HS b w1 _ Hok1 Hb1); [done|by eexists]|]. cbv beta. intros _ w2 E2. rewrite E2. split.
  - by apply (ok_bss_state _ _ b _ VGCS_BSS_ST_SETUP Hok1 Hb1).
  - rewrite E1. done.
  - intros t' v Hv'. rewrite <- ET in Hv'. rewrite E1. cbn. destruct (decide (t = t')) as [<-|].
    + rewrite lookup_insert_eq. eexists. split; [done|]. rewrite Hv in Hv'. by injection Hv' as <-.
    + rewrite lookup_insert_ne by done. exists v. split; [|done]. exact Hv'.
Qed.

Lemma establish_loop_spec t m l : forall w v,
  setup_serves -> vg_ok None (shape w) -> h_trans (shape w) !! t = Some v -> is_Some (h_mgw (shape w) !! m) ->
  vwp (establish_bss_loop dispatch t m l) (fun _ w' => grown t m (shape w) (shape w')) w.
Proof.
  induction l as [|e l IH]; intros w v HS Hok Hv Hm; cbn [establish_bss_loop].
  { apply swp_ret. split; [done|done|eauto]. }
  apply swp_bind, swp_gets. case_match; [by eapply IH|].
  apply swp_bind. eapply bss_alloc_spec; [done..| |].
  { intros w1 E1. rewrite <- E1 in *. by eapply IH. }
  intros w1 b Eb E1. destruct (ok_fresh _ _ Hok b ltac:(lia)) as (_ & Hfresh & _ & _). apply swp_bind.
  assert (B1 : building t m b (shape w) (shape w1)).
  { rewrite E1. split_and!; [by eapply ok_bss_new|done|done|done|]. exists []. apply lookup_insert_eq. }
  eapply swp_mono; [apply (swp_for vg_tolerated (fun _ w' => building t m b (shape w) (shape w'))); [exact B1|]|].
  { intros id l' w' HB. apply cell_alloc_spec; [eauto|done]. }
  cbv beta. intros _ w2 B2. pose proof B2 as (Hok2 & ET & EL & Hm2 & lb & Hb2).
  apply swp_bind, vwp_get_bss; [eauto|]. intros x Hx. destruct (b_cell_list x) as [|c0 cs] eqn:Hcs.
  - apply swp_mod. assert (E3 : shape (w2 <| vw_bss ::= delete b |>) = shape w2 <| h_bss ::= delete b |>) by (unfold shape; cbn; by rewrite fmap_delete).
    rewrite E3. split; [|done|rewrite <- ET; cbn; eauto].
    eapply ok_bss_deleted; [done|by right|by rewrite shape_bss, Hx|done|].
    intros t' u Hu Hin. rewrite ET in Hu. destruct (ok_bss_of_trans _ _ Hok t' u b Hu Hin) as (? & ? & _). congruence.
  - pose proof (bss_complete t m b (shape w) w2 HS Hok Hfresh ltac:(eauto) B2) as HC. apply swp_bind.
    unfold swp in HC at 1. unfold swp at 1. unfold sbind in HC.
    destruct (mod_vt t _ w2) as [[] w3|f]; [|exact HC]. apply swp_bind. eapply swp_mono; [exact HC|].
    cbv beta. intros _ w4 G4. destruct (gr_trans _ _ _ _ G4 t v Hv) as (v4 & Hv4 & _).
    eapply swp_mono; [by eapply (IH w4 v4 HS (gr_ok _ _ _ _ G4) Hv4), (gr_mgw _ _ _ _ G4)|].
    cbv beta. intros _ w5 G5. by eapply grown_trans.
Qed.

Lemma gcc_establish_spec t w v :
  mgw_serves dispatch -> setup_serves -> vg_ok None (shape w) -> h_trans (shape w) !! t = Some v ->
  vwp (gcc_establish_bss dispatch t) (fun _ w' => vg_ok None (shape w') /\ is_Some (h_trans (shape w') !! t)) w.
Proof.
  intros HM HS Hok Hv. unfold gcc_establish_bss. apply swp_bind, vwp_get_vt; [eauto|]. intros z Hz.
  apply swp_bind, swp_gets. case_match; [|apply swp_ret; eauto]. apply swp_bind, vwp_ask. intros a w1 E1. rewrite <- E1 in *.
  case_match; [apply swp_ret; eauto|]. apply swp_bind, swp_gets. apply swp_bind, swp_mod. set (m := vw_next w1).
  set (w2 := w1 <| vw_next := _ |> <| vw_mgw ::= _ |>).
  assert (E2 : shape w2 = shape w1 <| h_mgw ::= insert m [] |> <| h_next := S m |>) by (unfold w2, shape; cbn; by rewrite fmap_insert).
  assert (Hok2 : vg_ok None (shape w2)) by (rewrite E2; by apply ok_mgw_new).
  assert (Hm2 : h_mgw (shape w2) !! m = Some []) by (rewrite E2; apply lookup_insert_eq).
  assert (Hv2 : h_trans (shape w2) !! t = Some v) by (rewrite E2; exact Hv).
  apply swp_bind, vwp_ask. intros a' w3 E3. rewrite <- E3 in *. case_match.
  { apply swp_bind, swp_mod, swp_ret.
    assert (E4 : shape (w3 <| vw_mgw ::= delete m |>) = shape w3 <| h_mgw ::= delete m |>) by (unfold shape; cbn; by rewrite fmap_delete).
    change (vg_ok None (shape (w3 <| vw_mgw ::= delete m |>)) /\ is_Some (h_trans (shape w3) !! t)).
    split; [|eauto]. refine (eq_ind_r (vg_ok None) _ E4). by apply ok_mgw_deleted. }
  apply swp_bind. eapply swp_mono; [eapply establish_loop_spec; [done|done|exact Hv2|eauto]|]. cbv beta. intros _ w4 G4.
  destruct (gr_trans _ _ _ _ G4 t v Hv2) as (v4 & Hv4 & _). apply swp_bind, vwp_get_vt; [eauto|]. intros z4 Hz4.
  destruct (v_bss_list z4); [|apply swp_ret; split; [apply G4|eauto]].
  apply swp_bind. eapply swp_mono; [apply HM; apply G4|]. cbv beta. intros _ w5 [Hok5 E5]. apply swp_ret.
  split; [done|]. rewrite E5. cbn. eauto.
Qed.

(** ** Assignment of the calling subscriber *)

Lemma gcc_assign_spec t w v :
  vg_ok None (shape w) -> h_trans (shape w) !! t = Some v ->
  vwp (gcc_assign t) (fun _ w' => vg_ok None (shape w') /\ is_Some (h_trans (shape w') !! t)) w.
Proof.
  intros Hok Hv. unfold gcc_assign. apply swp_bind, vwp_get_vt; [eauto|]. intros z Hz.
  assert (v = shape_t z) as -> by (apply (inj Some); by rewrite <- Hv, shape_trans, Hz).
  destruct (v_msc_a z) as [k|]; [|apply swp_ret; eauto]. apply swp_bind, vwp_get_caller. intros a Ha.
  destruct (k_peer a) as [peer|]; [|apply swp_ret; eauto]. apply swp_bind.
  eapply swp_mono; [apply (still_bss_of_peer None (shape w) peer (v_bss_list z) Hok); [|done]|].
  { intros b Hb. by eapply bss_live. }
  cbv beta. intros ob w1 [E1 Hin]. rewrite <- E1 in *. destruct ob as [b|]; [|apply swp_ret; eauto].
  apply swp_bind, vwp_ask. intros f w2 E2. rewrite <- E2 in *. case_match; [apply swp_ret; eauto|].
  apply swp_bind, swp_mod. set (w3 := w2 <| vw_out ::= _ |>). change (shape w2) with (shape w3) in *.
  apply swp_bind, vwp_mod_vt; [eauto|]. intros z' w4 Hz' E4. apply swp_ret.
  assert (Ez : shape_t z' = shape_t z) by (apply (inj Some); by rewrite <- Hv, shape_trans, Hz').
  assert (El : v_bss_list z' = v_bss_list z) by exact (f_equal ts_bss Ez).
  rewrite E4. split; [|cbn; rewrite lookup_insert_eq; eauto].
  apply (ok_trans_changed _ _ t (shape_t z)); [done|done|done| |].
  - intros b' [= <-]. by apply Hin.
  - intros Hfi. assert (Hm : v_msc_a z' = v_msc_a z) by exact (f_equal ts_msc_a Ez).
    change (is_Some (v_msc_a z')). rewrite Hm. apply (ok_caller _ _ Hok t (shape_t z) Hv).
    assert (Hf : v_fi z' = v_fi z) by exact (f_equal ts_fi Ez). change (v_fi z' = Some VGCS_GCC_ST_N1_CALL_INITIATED \/ v_fi z' = Some VGCS_GCC_ST_N3_CALL_EST_PROC) in Hfi.
    by rewrite Hf in Hfi.
Qed.

(** the transaction in [N2], whatever else it has *)
Lemma ok_trans_n2 h t v v' :
  vg_ok None h -> h_trans h !! t = Some v -> ts_bss v' = ts_bss v -> ts_uplink v' = ts_uplink v ->
  ts_fi v' = Some VGCS_GCC_ST_N2_CALL_ACTIVE -> vg_ok None (h <| h_trans ::= insert t v' |>).
Proof.
  intros Hok Hv E1 E2 E3. apply (ok_trans_changed _ _ t v); [done..| |].
  - intros b. rewrite E2. by apply (ok_uplink _ _ Hok t).
  - rewrite E3. by intros [|].
Qed.

Lemma assign_complete_spec t connect w v :
  vg_ok None (shape w) -> h_trans (shape w) !! t = Some v -> is_Some (ts_msc_a v) ->
  vwp (_assign_complete t connect) (fun _ w' => vg_ok None (shape w')) w.
Proof.
  intros Hok Hv Hmsc. unfold _assign_complete. apply swp_bind, vwp_get_vt; [eauto|]. intros z Hz.
  assert (v = shape_t z) as -> by (apply (inj Some); by rewrite <- Hv, shape_trans, Hz).
  destruct Hmsc as [k Hk]. change (v_msc_a z = Some k) in Hk. rewrite Hk.
  apply swp_bind, vwp_mod_vt; [eauto|]. intros z1 w1 Hz1 E1.
  assert (Ez : shape_t z1 = shape_t z) by (apply (inj Some); by rewrite <- Hv, shape_trans, Hz1).
  assert (Hok1 : vg_ok None (shape w1)).
  { rewrite E1. apply (ok_trans_n2 _ t (shape_t z) _ Hok Hv); [exact (f_equal ts_bss Ez)|exact (f_equal ts_uplink Ez)|done]. }
  assert (Hv1 : h_trans (shape w1) !! t = Some (shape_t (z1 <| v_fi := Some VGCS_GCC_ST_N2_CALL_ACTIVE |>))) by (rewrite E1; apply lookup_insert_eq).
  clear E1 Hok Hv Hz Hz1. apply swp_bind, vwp_get_caller. intros a _. apply swp_bind. unfold release_msc_a.
  apply swp_bind, vwp_get_vt; [eauto|]. intros z2 Hz2.
  assert (Ez2 : shape_t z2 = shape_t (z1 <| v_fi := Some VGCS_GCC_ST_N2_CALL_ACTIVE |>)) by (apply (inj Some); by rewrite <- Hv1, shape_trans, Hz2).
  assert (K : forall w', vg_ok None (shape w') -> is_Some (h_trans (shape w') !! t) ->
    vwp (swhen connect (gcc_connect t) ;;; set_parameter t ;;; let* v0 := get_vt t in
         swhen (negb (v_uplink_busy v0)) (start_inactivity_timer t) ;;; set_uplink_cell (v_uplink_bss v0) (Some (k_cell a)) ;;;
         set_mgw_conference t) (fun _ w'' => vg_ok None (shape w'')) w').
  { intros w' Hok' Ht'. apply vwp_still; [|by intros _ w'' ->].
    pose proof (still_connect None _ Hok' t Ht'). pose proof (still_set_parameter None _ Hok' t Ht').
    pose proof (still_start_timer _ t Ht'). pose proof (still_conference None _ Hok' t Ht').
    do 2 (still_step; [still_tac|]). still_step; [done|]. still_step; [still_tac|]. still_step; [|done].
    apply (still_uplink_cell None); [done|]. intros b Hb. by eapply uplink_live. }
  apply swp_opt; [|intros _; apply K; eauto]. intros k2 Hk2. apply swp_bind, vwp_mod_vt; [eauto|]. intros z3 w3 Hz3 E3.
  assert (Ez3 : shape_t z3 = shape_t (z1 <| v_fi := Some VGCS_GCC_ST_N2_CALL_ACTIVE |>)) by (apply (inj Some); by rewrite <- Hv1, shape_trans, Hz3).
  apply swp_mod. set (w4 := w3 <| vw_out ::= _ |>). change (shape w3) with (shape w4) in E3. apply K.
  - rewrite E3. apply (ok_trans_n2 _ t _ _ Hok1 Hv1); [exact (f_equal ts_bss Ez3)|exact (f_equal ts_uplink Ez3)|exact (f_equal ts_fi Ez3)].
  - rewrite E3. cbn. rewrite lookup_insert_eq. eauto.
Qed.

(** ** The events of call control *)

Lemma gcc_dispatch_spec t ev v w :
  mgw_serves dispatch -> setup_serves -> bss_serves dispatch -> vg_ok None (shape w) -> h_trans (shape w) !! t = Some v ->
  (ev = VGCS_GCC_EV_USER_SETUP -> is_Some (ts_msc_a v)) ->
  vwp (gcc_dispatch dispatch t ev) (fun _ w' => vg_ok None (shape w')) w.
Proof.
  intros HM HS HB Hok Hv Hev. unfold gcc_dispatch. apply swp_bind, vwp_get_vt; [eauto|]. intros z Hz.
  assert (v = shape_t z) as -> by (apply (inj Some); by rewrite <- Hv, shape_trans, Hz).
  assert (TD : forall cause w', vg_ok None (shape w') -> is_Some (h_trans (shape w') !! t) ->
    vwp (gcc_terminate_and_destroy dispatch t cause) (fun _ w'' => vg_ok None (shape w'')) w').
  { intros cause w' Hok' [v' Hv']. by eapply terminate_spec. }
  assert (ED : forall w' v', vg_ok None (shape w') -> h_trans (shape w') !! t = Some v' ->
    vwp (gcc_establish_or_destroy dispatch t) (fun _ w'' => vg_ok None (shape w'')) w').
  { intros w' v' Hok' Hv'. apply swp_bind. eapply swp_mono; [by eapply gcc_establish_spec|]. cbv beta. intros rc w1 [? ?].
    apply swp_when; [|done]. intros _. by apply TD. }
  assert (AD : vwp (gcc_assign_or_destroy dispatch t) (fun _ w'' => vg_ok None (shape w'')) w).
  { apply swp_bind. eapply swp_mono; [by eapply gcc_assign_spec|]. cbv beta. intros rc w1 [? ?].
    apply swp_when; [|done]. intros _. by apply TD. }
  assert (TW : forall cause, vwp (gcc_terminate_and_destroy dispatch t cause) (fun _ w'' => vg_ok None (shape w'')) w) by (intros; apply TD; eauto).
  apply swp_opt; [|done]. intros s Hs. apply swp_when; [|done]. intros Hp.
  assert (AC' : forall connect, s = VGCS_GCC_ST_N1_CALL_INITIATED \/ s = VGCS_GCC_ST_N3_CALL_EST_PROC ->
    vwp (_assign_complete t connect) (fun _ w'' => vg_ok None (shape w'')) w).
  { intros connect Hst. eapply assign_complete_spec; [done|exact Hv|]. apply (ok_caller _ _ Hok t _ Hv).
    change (v_fi z = Some VGCS_GCC_ST_N1_CALL_INITIATED \/ v_fi z = Some VGCS_GCC_ST_N3_CALL_EST_PROC). rewrite Hs.
    destruct Hst as [->| ->]; auto. }
  destruct s, ev; try discriminate Hp; cbn [vgcs_gcc_fsm_n0_null vgcs_gcc_fsm_n1_call_initiated vgcs_gcc_fsm_n2_call_active vgcs_gcc_fsm_n3_call_est_proc];
    try exact (TW _); try exact AD; try (apply AC'; auto; fail).
  - by eapply ED.
  - apply swp_bind, vwp_mod_vt; [eauto|]. intros z1 w1 Hz1 E1.
    assert (Ez : shape_t z1 = shape_t z) by (apply (inj Some); by rewrite <- Hv, shape_trans, Hz1).
    eapply ED; [|rewrite E1; apply lookup_insert_eq]. rewrite E1. apply (ok_trans_changed _ _ t (shape_t z)); [done|done|exact (f_equal ts_bss Ez)| |].
    + intros b Hb. apply (ok_uplink _ _ Hok t _ b Hv). rewrite <- Hb. symmetry. exact (f_equal ts_uplink Ez).
    + intros _. change (is_Some (v_msc_a z1)). rewrite (f_equal ts_msc_a Ez : v_msc_a z1 = v_msc_a z). by apply Hev.
  - apply swp_bind, vwp_mod_vt; [eauto|]. intros z1 w1 Hz1 E1.
    assert (Ez : shape_t z1 = shape_t z) by (apply (inj Some); by rewrite <- Hv, shape_trans, Hz1).
    assert (Hok1 : vg_ok None (shape w1)).
    { rewrite E1. apply (ok_trans_n2 _ t _ _ Hok Hv); [exact (f_equal ts_bss Ez)|exact (f_equal ts_uplink Ez)|done]. }
    assert (Ht1 : is_Some (h_trans (shape w1) !! t)) by (rewrite E1; cbn; rewrite lookup_insert_eq; eauto).
    pose proof (still_start_timer _ t Ht1). apply vwp_still; [still_tac|]. by intros _ w2 ->.
  - apply swp_bind, vwp_get_vt; [eauto|]. intros z1 Hz1. case_match; [|exact (TW _)].
    apply vwp_still; [apply (still_reject None); eauto|]. by intros _ w2 ->.
Qed.
End safe.
