(* ===== verification/VgcsSafe.v ===== *)
(** * Voice group calls: seven nested events are enough, and every event keeps
      the links in order *)

From S2P Require Import Prelude VlrTypes Codecs Sdp CallTypes CallBase CallLeg CMonad VgcsTypes Vgcs VgcsInv VgcsStill VgcsLinks.
From S2P Require Import VgcsCellSafe VgcsBssSafe VgcsGccSafe.

Section safe.
Context {SL : SockaddrLib} {CL : CallLib} {AC : AmrCfg} {VL : VgcsLib}.

(** ** One level: what a state machine serves, given what the others serve *)

Section level.
Variable dispatch : vg_ev -> VM unit.
Definition bss_takes : Prop := forall b ev w, ev <> VGCS_BSS_EV_CLEAR -> vg_ok None (shape w) -> is_Some (h_bss (shape w) !! b) ->
  vwp (dispatch (ToBss b ev)) (fun _ w' => vg_ok None (shape w')) w.
Definition cell_takes : Prop := forall c ev w, vg_ok None (shape w) -> is_Some (h_cells (shape w) !! c) ->
  vwp (dispatch (ToCell c ev)) (fun _ w' => vg_ok None (shape w')) w.

Lemma mgw_clear_spec m w :
  vg_ok None (shape w) -> is_Some (h_mgw (shape w) !! m) ->
  vwp (vgcs_mgw_ep_fsm_active m VGCS_MGW_EP_EV_CLEAR)
    (fun _ w' => vg_ok None (shape w') /\ shape w' = shape w <| h_mgw := h_mgw (shape w') |>) w.
Proof.
  intros Hok Hm. unfold vgcs_mgw_ep_fsm_active. apply swp_bind, vwp_get_mgw; [done|]. intros x Hx.
  destruct (m_cell_list x) eqn:Hl; [|by apply swp_ret]. apply swp_bind, swp_mod, swp_mod.
  split; [|done]. refine (eq_ind_r (vg_ok None) _ (_ : _ = shape w <| h_mgw ::= delete m |>)).
  - apply ok_mgw_deleted; [done|]. by rewrite shape_mgw, Hx, <- Hl.
  - unfold shape. cbn. by rewrite fmap_delete.
Qed.
Lemma mgw_free_spec m w :
  vg_ok None (shape w) -> is_Some (h_mgw (shape w) !! m) ->
  vwp (vgcs_mgw_ep_fsm_active m VGCS_MGW_EP_EV_FREE) (fun _ w' => vg_ok None (shape w')) w.
Proof.
  intros Hok Hm. unfold vgcs_mgw_ep_fsm_active. apply swp_bind, vwp_get_mgw; [done|]. intros x Hx.
  apply swp_bind, vwp_still.
  { apply still_for. intros c Hc. destruct (ok_cell_of_mgw _ _ Hok m (m_cell_list x) c) as (e & He & _); [by rewrite shape_mgw, Hx|done|].
    still_step; [eauto|]. case_match; [still_tac|apply still_mod_rtps; eauto|still_tac]. }
  intros _ w1 E1. rewrite <- E1 in *. apply swp_bind, swp_mod, swp_mod.
  refine (eq_ind_r (vg_ok None) (ok_cells_leave_mgw None (shape w1) m Hok) (_ : _ = _)).
  exact (f_equal2 (fun cells mgw => mk_shape (h_trans (shape w1)) (h_bss (shape w1)) cells mgw (vw_list w1) (vw_next w1))
           (cells_forget_mgw m (vw_cells w1)) (fmap_delete m_cell_list (vw_mgw w1) m)).
Qed.

(** *** Cells *)

Lemma gone_spec c e w :
  mgw_serves dispatch -> vg_ok None (shape w) -> h_cells (shape w) !! c = Some e ->
  cs_state e = VGCS_CELL_ST_NULL \/ cs_state e = VGCS_CELL_ST_RELEASE ->
  vwp (cell_dispatch dispatch c VGCS_CELL_EV_RTP_STREAM_GONE)
    (fun _ w' => vg_ok None (shape w') /\ cell_moved c (shape w) (shape w')) w.
Proof.
  intros HM Hok He Hs. unfold cell_dispatch. assert (Hc : is_Some (h_cells (shape w) !! c)) by eauto.
  apply swp_bind, vwp_get_cell; [done|]. intros x Hx. rewrite shape_cells, Hx in He. injection He as <-.
  change (c_state x = VGCS_CELL_ST_NULL \/ c_state x = VGCS_CELL_ST_RELEASE) in Hs.
  destruct Hs as [-> | ->]; cbn [cell_permits swhen vgcs_cell_fsm_release]; [by apply swp_ret|].
  apply swp_bind, vwp_still; [still_tac|]. intros _ w1 E1. rewrite <- E1 in *.
  apply swp_bind, vwp_get_cell; [done|]. intros x1 Hx1. case_match; [by apply swp_ret|]. by apply cell_destroy_spec.
Qed.

Lemma cell_assign_spec c w :
  mgw_serves dispatch -> gone_serves dispatch -> vg_ok None (shape w) -> is_Some (h_cells (shape w) !! c) ->
  vwp (vgcs_cell_fsm_null dispatch c VGCS_CELL_EV_ASSIGN)
    (fun _ w' => vg_ok None (shape w') /\ cell_moved c (shape w) (shape w')) w.
Proof.
  intros HM HG Hok Hc. assert (CC : forall w', shape w' = shape w ->
    vwp (cell_clear dispatch c GSM0808_CAUSE_PROTOCOL_ERROR) (fun _ w'' => vg_ok None (shape w'') /\ cell_moved c (shape w) (shape w'')) w').
  { intros w' E. rewrite <- E in *. by apply cell_clear_spec. }
  cbn [vgcs_cell_fsm_null]. apply swp_bind, vwp_get_cell; [done|]. intros x Hx.
  apply swp_bind, vwp_still; [still_tac|]. intros _ w1 E1.
  apply swp_bind, vwp_still; [apply still_set_codec; by rewrite E1|]. intros known w2 E2. rewrite E1 in E2. case_match; [by apply CC|].
  apply swp_bind, vwp_still; [apply still_mod_rtps; by rewrite E2|]. intros _ w3 E3. rewrite E2 in E3. apply swp_bind.
  eapply swp_mono with (P := fun _ w' => shape w' = shape w).
  { destruct (c_bss x) as [b|] eqn:Hb; [|by apply swp_ret].
    destruct (ok_bss_of_cell _ _ Hok c (shape_c x) b) as (y & Hy & _); [by rewrite shape_cells, Hx|done|].
    apply swp_bind, vwp_get_bss; [rewrite E3; eauto|]. intros. by apply swp_ret. }
  intros has w4 E4. case_match; [by apply CC|].
  apply swp_bind, vwp_still; [apply still_ensure_ci; by rewrite E4|]. intros rc w5 E5. rewrite E4 in E5. case_match; [by apply CC|].
  apply vwp_mod_cell; [by rewrite E5|]. intros x6 w6 Hx6 E6. rewrite E5 in E6.
  assert (Hx6' : h_cells (shape w) !! c = Some (shape_c x6)) by (by rewrite <- E5, shape_cells, Hx6).
  rewrite E6. split; [by apply (ok_cell_state None (shape w) c (shape_c x6))|].
  split; cbn; try done; [eauto|]. intros c' Hne. by rewrite lookup_insert_ne.
Qed.

Lemma cell_serves_spec c ev w :
  mgw_serves dispatch -> gone_serves dispatch -> ev = VGCS_CELL_EV_CLEAR \/ ev = VGCS_CELL_EV_ASSIGN ->
  vg_ok None (shape w) -> is_Some (h_cells (shape w) !! c) ->
  vwp (cell_dispatch dispatch c ev) (fun _ w' => vg_ok None (shape w') /\ cell_moved c (shape w) (shape w')) w.
Proof.
  intros HM HG Hev Hok Hc. unfold cell_dispatch. apply swp_bind, vwp_get_cell; [done|]. intros x Hx.
  destruct Hev as [-> | ->]; destruct (c_state x); cbn [cell_permits swhen]; try (by apply swp_ret);
    try (by apply cell_clear_spec).
  - cbn [vgcs_cell_fsm_release]. apply swp_bind, vwp_get_cell; [done|]. intros y Hy. case_match; [|by apply cell_destroy_spec].
    apply vwp_still; [by apply still_close_conn|]. by intros _ w1 ->.
  - by apply cell_assign_spec.
Qed.

Lemma channel_fail_spec c w :
  mgw_serves dispatch -> gone_serves dispatch -> bss_takes -> vg_ok None (shape w) -> is_Some (h_cells (shape w) !! c) ->
  vwp (cell_channel_fail dispatch c) (fun _ w' => vg_ok None (shape w')) w.
Proof.
  intros HM HG HB Hok Hc. unfold cell_channel_fail. apply swp_bind, vwp_get_cell; [done|]. intros x Hx.
  apply swp_bind. eapply swp_mono; [by apply cell_clear_spec|]. cbv beta. intros _ w1 [Hok1 M1].
  apply swp_opt; [|done]. intros b Hb.
  destruct (ok_bss_of_cell _ _ Hok c (shape_c x) b) as (y & Hy & _); [by rewrite shape_cells, Hx|done|].
  destruct (cm_bss _ _ _ M1 b y Hy) as (y1 & Hy1 & _). apply HB; [done|done|eauto].
Qed.

Lemma cell_closed_spec c w :
  mgw_serves dispatch -> gone_serves dispatch -> vg_ok None (shape w) -> is_Some (h_cells (shape w) !! c) ->
  vwp (cell_closed dispatch c) (fun _ w' => vg_ok None (shape w')) w.
Proof.
  intros HM HG Hok Hc. unfold cell_closed. apply swp_bind, vwp_get_cell; [done|]. intros x Hx.
  apply swp_bind, vwp_still; [still_tac|]. intros _ w1 E1. rewrite <- E1 in *.
  eapply swp_mono; [by apply cell_clear_spec|]. cbv beta. naive_solver.
Qed.

Lemma assign_res_spec c r w :
  mgw_serves dispatch -> gone_serves dispatch -> bss_takes -> vg_ok None (shape w) -> is_Some (h_cells (shape w) !! c) ->
  vwp (cell_assign_res dispatch c r) (fun _ w' => vg_ok None (shape w')) w.
Proof.
  intros HM HG HB Hok Hc. assert (CF : forall w', shape w' = shape w ->
    vwp (cell_channel_fail dispatch c) (fun _ w'' => vg_ok None (shape w'')) w').
  { intros w' E. rewrite <- E in *. by apply channel_fail_spec. }
  unfold cell_assign_res. apply swp_bind, vwp_still; [still_tac|]. intros _ w1 E1.
  match goal with |- vwp (match _ with _ => _ end) _ _ => idtac end.
  assert (G : forall aoip codec, vwp
    (match osmo_sockaddr_str_from_sockaddr (default [] aoip) with
     | None => cell_channel_fail dispatch c
     | Some ss =>
         mod_rtps c (rtp_stream_set_remote_addr ss) ;;;
         let* known := cell_set_codec (default GSM0808_SCT_FR1 codec) c in
         if negb known then cell_channel_fail dispatch c
         else mod_rtps c (rtp_stream_set_mode MGCP_CONN_SEND_ONLY) ;;;
              let* rc := cell_rtp_commit c in
              if rc <? 0 then cell_channel_fail dispatch c
              else mod_cell c (fun e => e <| c_state := VGCS_CELL_ST_ACTIVE |>) ;;;
                   let* e := get_cell c in
                   sopt (c_bss e) (fun b => dispatch (ToBss b VGCS_BSS_EV_ACTIVE_OR_FAIL))
     end) (fun _ w' => vg_ok None (shape w')) w1).
  { intros aoip codec. case_match; [|by apply CF].
    apply swp_bind, vwp_still; [apply still_mod_rtps; by rewrite E1|]. intros _ w2 E2. rewrite E1 in E2.
    apply swp_bind, vwp_still; [apply still_set_codec; by rewrite E2|]. intros known w3 E3. rewrite E2 in E3. case_match; [by apply CF|].
    apply swp_bind, vwp_still; [apply still_mod_rtps; by rewrite E3|]. intros _ w4 E4. rewrite E3 in E4.
    apply swp_bind, vwp_still; [apply still_commit; by rewrite E4|]. intros rc w5 E5. rewrite E4 in E5. case_match; [by apply CF|].
    apply swp_bind, vwp_mod_cell; [by rewrite E5|]. intros x6 w6 Hx6 E6. rewrite E5 in E6.
    assert (Hx6' : h_cells (shape w) !! c = Some (shape_c x6)) by (by rewrite <- E5, shape_cells, Hx6).
    assert (Hok6 : vg_ok None (shape w6)) by (rewrite E6; by apply (ok_cell_state None (shape w) c (shape_c x6))).
    apply swp_bind, vwp_get_cell; [rewrite E6; cbn; rewrite lookup_insert_eq; eauto|]. intros x7 Hx7.
    apply swp_opt; [|done]. intros b Hb. apply HB; [done|done|].
    destruct (ok_bss_of_cell _ _ Hok6 c (shape_c x7) b) as (y & Hy & _); [by rewrite shape_cells, Hx7|done|eauto]. }
  destruct (ar_aoip r), (ar_codec r), (ar_call_id r); try apply G. by apply CF.
Qed.

Lemma cell_takes_spec c ev w :
  mgw_serves dispatch -> gone_serves dispatch -> bss_takes -> vg_ok None (shape w) -> is_Some (h_cells (shape w) !! c) ->
  vwp (cell_dispatch dispatch c ev) (fun _ w' => vg_ok None (shape w')) w.
Proof.
  intros HM HG HB Hok Hc.
  assert (CS : forall ev', ev' = VGCS_CELL_EV_CLEAR \/ ev' = VGCS_CELL_EV_ASSIGN -> vwp (cell_dispatch dispatch c ev') (fun _ w' => vg_ok None (shape w')) w).
  { intros ev' Hev. eapply swp_mono; [by apply cell_serves_spec|]. cbv beta. naive_solver. }
  assert (CC : forall cause w', shape w' = shape w -> vwp (cell_clear dispatch c cause) (fun _ w'' => vg_ok None (shape w'')) w').
  { intros cause w' E. rewrite <- E in *. eapply swp_mono; [by apply cell_clear_spec|]. cbv beta. naive_solver. }
  assert (CD : vwp (cell_destroy dispatch c) (fun _ w' => vg_ok None (shape w')) w).
  { eapply swp_mono; [by apply cell_destroy_spec|]. cbv beta. naive_solver. }
  destruct ev; try (by apply CS; auto); unfold cell_dispatch; apply swp_bind, vwp_get_cell; try done; intros x Hx;
    destruct (c_state x) eqn:Hst; cbn [cell_permits swhen vgcs_cell_fsm_assignment vgcs_cell_fsm_active vgcs_cell_fsm_release];
    try (by apply swp_ret); try (by apply channel_fail_spec); try (by apply cell_closed_spec); try (by apply assign_res_spec).
  - apply swp_bind, vwp_still; [still_tac|]. intros _ w1 E1. rewrite <- E1 in *. by apply channel_fail_spec.
  - apply swp_bind, vwp_still; [still_tac|]. intros _ w1 E1. by apply CC.
  - eapply swp_mono with (P := fun _ w' => vg_ok None (shape w') /\ cell_moved c (shape w) (shape w')); [|naive_solver].
    pose proof (gone_spec c (shape_c x) w HM Hok ltac:(by rewrite shape_cells, Hx) ltac:(by right)) as G.
    unfold cell_dispatch, swp, sbind, get_cell, sneed in G. rewrite Hx, Hst in G. exact G.
  - apply swp_bind, vwp_still; [unfold get_rtps; still_tac|]. intros s w1 E1. rewrite <- E1 in *.
    case_match; [by apply channel_fail_spec|]. apply vwp_still; [still_step; [done|]; still_step; apply still_send|]. by intros _ w2 ->.
  - apply swp_bind, vwp_get_cell; [done|]. intros y Hy. case_match; [|done].
    apply vwp_still; [by apply still_close_conn|]. by intros _ w1 ->.
Qed.

(** *** BSSs *)

Lemma setup_spec b w x :
  vg_ok None (shape w) -> h_bss (shape w) !! b = Some x -> bs_state x = VGCS_BSS_ST_NULL -> is_Some (bs_trans x) ->
  vwp (bss_dispatch dispatch b VGCS_BSS_EV_SETUP)
    (fun _ w' => shape w' = shape w <| h_bss ::= insert b (x <| bs_state := VGCS_BSS_ST_SETUP |>) |>) w.
Proof.
  intros Hok Hx Hs [t Ht]. unfold bss_dispatch. apply swp_bind, vwp_get_bss; [eauto|]. intros y Hy.
  rewrite shape_bss, Hy in Hx. injection Hx as <-. change (b_state y = VGCS_BSS_ST_NULL) in Hs. rewrite Hs.
  assert (Hyy : h_bss (shape w) !! b = Some (shape_b y)) by (by rewrite shape_bss, Hy).
  destruct (ok_trans_of_bss _ _ Hok b _ t Hyy Ht) as (v & Hv & _). cbn [bss_permits swhen vgcs_bss_fsm_null].
  apply swp_bind, vwp_mod_bss; [eauto|]. intros y1 w1 Hy1 E1. rewrite Hy in Hy1. injection Hy1 as <-.
  assert (Hb1 : h_bss (shape w1) !! b = Some (shape_b (y <| b_state := VGCS_BSS_ST_SETUP |>))) by (rewrite E1; apply lookup_insert_eq).
  apply vwp_still; [|intros _ w2 ->; exact E1]. still_step; [eauto|]. still_step. still_step.
  { rewrite E1. cbn. assert (Et : b_trans v0 = Some t).
    { rewrite Hb1 in H. apply (inj Some) in H. exact (eq_trans (f_equal bs_trans (eq_sym H)) Ht). }
    rewrite Et in H0. injection H0 as <-. eauto. }
  still_step. apply still_send.
Qed.

Lemma bss_clear_serves b w x :
  cell_serves dispatch -> vg_ok None (shape w) -> h_bss (shape w) !! b = Some x -> bs_state x <> VGCS_BSS_ST_RELEASE ->
  vwp (bss_dispatch dispatch b VGCS_BSS_EV_CLEAR) (fun _ w' => vg_ok None (shape w') /\ bss_moved b (shape w) (shape w') /\
    exists x', h_bss (shape w') !! b = Some x' /\ bs_trans x' = None) w.
Proof.
  intros HC Hok Hx Hs. assert (BC : vwp (bss_clear dispatch b GSM0808_CAUSE_CALL_CONTROL false)
    (fun _ w' => vg_ok None (shape w') /\ bss_moved b (shape w) (shape w') /\ exists x', h_bss (shape w') !! b = Some x' /\ bs_trans x' = None) w).
  { eapply swp_mono; [by apply (bss_clear_spec dispatch b _ false w x)|]. cbv beta. intros _ w' [? H]. destruct (H eq_refl). eauto. }
  unfold bss_dispatch. apply swp_bind, vwp_get_bss; [eauto|]. intros y Hy.
  rewrite shape_bss, Hy in Hx. injection Hx as <-. change (b_state y <> VGCS_BSS_ST_RELEASE) in Hs.
  destruct (b_state y); cbn [bss_permits swhen vgcs_bss_fsm_null vgcs_bss_fsm_setup vgcs_bss_fsm_assignment]; try done.
  unfold vgcs_bss_fsm_active. apply swp_bind, vwp_get_bss; [rewrite shape_bss, Hy; eauto|]. done.
Qed.

Lemma bss_closed_spec b w :
  cell_serves dispatch -> gcc_serves dispatch -> vg_ok None (shape w) -> is_Some (h_bss (shape w) !! b) ->
  vwp (bss_closed dispatch b) (fun _ w' => vg_ok None (shape w')) w.
Proof.
  intros HC HG Hok Hb. unfold bss_closed. apply swp_bind, vwp_get_bss; [done|]. intros y Hy.
  apply swp_bind, vwp_still; [still_tac|]. intros _ w1 E1. rewrite <- E1 in *. destruct Hb as [x Hx].
  eapply swp_mono; [by apply (bss_clear_spec dispatch b _ true w1 x)|]. cbv beta. naive_solver.
Qed.

Lemma handle_spec t m callref v w :
  gcc_serves dispatch -> vg_ok None (shape w) -> h_trans (shape w) !! t = Some v ->
  (is_setup (gm_type m) = true -> is_Some (ts_msc_a v)) ->
  vwp (handle_bcc_gcc dispatch t m callref) (fun _ w' => vg_ok None (shape w')) w.
Proof.
  intros HG Hok Hv Hs. unfold handle_bcc_gcc. case_match; [eapply HG; eauto|].
  case_match; try (by apply swp_ret). apply swp_bind, vwp_get_vt; [eauto|]. intros z Hz.
  apply swp_when; [|done]. intros _. by eapply HG.
Qed.

Lemma bss_active_spec b ev w :
  cell_serves dispatch -> gcc_serves dispatch -> bss_serves dispatch -> ev <> VGCS_BSS_EV_CLEAR ->
  bss_permits VGCS_BSS_ST_ACTIVE ev = true ->
  vg_ok None (shape w) -> is_Some (h_bss (shape w) !! b) ->
  vwp (vgcs_bss_fsm_active dispatch b ev) (fun _ w' => vg_ok None (shape w')) w.
Proof.
  intros HC HG HB Hev Hp Hok Hb. unfold vgcs_bss_fsm_active. apply swp_bind, vwp_get_bss; [done|]. intros x Hx.
  assert (Hxx : h_bss (shape w) !! b = Some (shape_b x)) by (by rewrite shape_bss, Hx).
  assert (T : forall t, b_trans x = Some t -> is_Some (h_trans (shape w) !! t)).
  { intros t Ht. destruct (ok_trans_of_bss _ _ Hok b _ t Hxx Ht) as (v & -> & _). eauto. }
  destruct ev; try discriminate Hp; try (by apply swp_ret); try done; try (by apply bss_closed_spec);
    (apply swp_opt; [|done]); intros t Ht; specialize (T t Ht).
  - apply swp_bind, vwp_get_vt; [done|]. intros v Hv. apply swp_bind, vwp_deref. intros n _. unfold bss_uplink_request.
    case_match; [apply vwp_still; [apply still_send|]; by intros _ w1 ->|].
    apply swp_bind, vwp_still; [apply still_send|]. intros _ w1 E1. rewrite <- E1 in *.
    apply swp_bind, vwp_mod_vt; [done|]. intros z w2 Hz E2.
    assert (Hzz : h_trans (shape w1) !! t = Some (shape_t z)) by (by rewrite shape_trans, Hz).
    assert (Hok2 : vg_ok None (shape w2)).
    { rewrite E2. apply (ok_trans_changed _ _ t (shape_t z)); [done|done|done| |].
      - intros b' [= <-]. destruct (ok_trans_of_bss _ _ Hok b _ t Hxx Ht) as (v' & Hv' & [Hin|]); [|done].
        rewrite Hzz in Hv'. by injection Hv' as <-.
      - intros Hfi. by apply (ok_caller _ _ Hok t (shape_t z) Hzz). }
    assert (Ht2 : is_Some (h_trans (shape w2) !! t)) by (rewrite E2; cbn; rewrite lookup_insert_eq; eauto).
    assert (Hb2 : is_Some (h_bss (shape w2) !! b)) by (rewrite E2; cbn; exact Hb).
    apply vwp_still; [|by intros _ w3 ->]. pose proof (still_uplink_state _ b true Hb2). pose proof (still_stop_timer _ t Ht2). still_tac.
  - apply vwp_still; [|by intros _ w1 ->]. unfold bss_uplink_request_cnf, talker_identity.
    pose proof (still_set_parameter None _ Hok t T). pose proof (still_conference None _ Hok t T).
    pose proof (still_uplink_cell None _ Hok (Some b) ci). still_step; [done|]. still_step.
    still_step; [still_tac|]. still_step; [still_tac|]. still_step; [done|]. still_step; [|done].
    apply H1. by intros b' [= <-].
  - apply swp_bind, vwp_get_vt; [done|]. intros v Hv. apply swp_when; [|done]. intros _.
    unfold gsm44068_rcv_bcc_gcc. case_match; [|by apply swp_ret]. apply swp_bind, swp_ret. case_match eqn:Hset.
    + apply vwp_still; [by apply still_tx|]. by intros _ w1 ->.
    + destruct T as [v' Hv']. eapply handle_spec; [done|done|exact Hv'|]. by rewrite Hset.
  - unfold bss_uplink_release. apply swp_bind, vwp_get_vt; [done|]. intros v Hv. case_match.
    { destruct T as [v' Hv']. by eapply terminate_spec. }
    apply swp_when; [|done]. intros _. apply swp_bind, vwp_mod_vt; [done|]. intros z w2 Hz E2.
    assert (Hzz : h_trans (shape w) !! t = Some (shape_t z)) by (by rewrite shape_trans, Hz).
    assert (Hok2 : vg_ok None (shape w2)).
    { rewrite E2. apply (ok_trans_changed _ _ t (shape_t z)); [done|done|done|done|].
      intros Hfi. by apply (ok_caller _ _ Hok t (shape_t z) Hzz). }
    assert (Ht2 : is_Some (h_trans (shape w2) !! t)) by (rewrite E2; cbn; rewrite lookup_insert_eq; eauto).
    assert (Hb2 : is_Some (h_bss (shape w2) !! b)) by (rewrite E2; cbn; exact Hb).
    apply vwp_still; [|by intros _ w3 ->]. pose proof (still_uplink_state _ b false Hb2). pose proof (still_start_timer _ t Ht2).
    pose proof (still_conference None _ Hok2 t Ht2). still_tac.
Qed.

Lemma bss_takes_spec b ev w :
  cell_serves dispatch -> gcc_serves dispatch -> bss_serves dispatch -> ev <> VGCS_BSS_EV_CLEAR ->
  vg_ok None (shape w) -> is_Some (h_bss (shape w) !! b) ->
  vwp (bss_dispatch dispatch b ev) (fun _ w' => vg_ok None (shape w')) w.
Proof.
  intros HC HG HB Hev Hok Hb. unfold bss_dispatch. apply swp_bind, vwp_get_bss; [done|]. intros x Hx.
  assert (Hxx : h_bss (shape w) !! b = Some (shape_b x)) by (by rewrite shape_bss, Hx).
  assert (BC : forall w' cause, vg_ok None (shape w') -> is_Some (h_bss (shape w') !! b) ->
    vwp (bss_clear dispatch b cause true) (fun _ w'' => vg_ok None (shape w'')) w').
  { intros w' cause Hok' [x' Hx']. eapply swp_mono; [by apply (bss_clear_spec dispatch b _ true w' x')|]. cbv beta. naive_solver. }
  apply swp_when; [|done]. intros Hp.
  destruct (b_state x) eqn:Hst; [..|destruct ev; try discriminate Hp; try done; by apply bss_destroy_spec].
  - destruct ev; try discriminate Hp; try done. destruct (b_trans x) as [t|] eqn:Ht.
    + pose proof (setup_spec b w (shape_b x) Hok Hxx Hst ltac:(by eexists)) as HS.
      unfold bss_dispatch, swp, sbind at 1, get_bss, sneed in HS. rewrite Hx, Hst in HS. cbn [swhen bss_permits] in HS.
      unfold swp. destruct (vgcs_bss_fsm_null dispatch b VGCS_BSS_EV_SETUP w); [|done]. rewrite HS.
      by apply (ok_bss_state None (shape w) b (shape_b x) VGCS_BSS_ST_SETUP).
    + cbn [vgcs_bss_fsm_null]. apply swp_bind, vwp_mod_bss; [done|]. intros y w1 Hy E1. rewrite Hx in Hy. injection Hy as <-.
      assert (Hok1 : vg_ok None (shape w1)) by (rewrite E1; by apply (ok_bss_state None (shape w) b (shape_b x) VGCS_BSS_ST_SETUP)).
      assert (Hb1 : h_bss (shape w1) !! b = Some (shape_b (x <| b_state := VGCS_BSS_ST_SETUP |>))) by (rewrite E1; apply lookup_insert_eq).
      apply swp_bind, vwp_get_bss; [eauto|]. intros y Hy. rewrite shape_bss, Hy in Hb1. apply (inj Some) in Hb1.
      rewrite (eq_trans (f_equal bs_trans Hb1 : b_trans y = b_trans x) Ht). by apply swp_bind, swp_fault.
  - destruct ev; try discriminate Hp; try done; cbn [vgcs_bss_fsm_setup]; try (by apply BC); try (by apply bss_closed_spec).
    apply swp_bind, vwp_get_bss; [done|]. intros x' Hx'. rewrite Hx in Hx'. injection Hx' as <-.
    apply swp_bind, vwp_still.
    { still_step. still_step; [|by apply still_uplink_state]. by destruct (ok_trans_of_bss _ _ Hok b _ a Hxx ltac:(done)) as (v & -> & _); eauto. }
    intros _ w1 E1. rewrite <- E1 in *. apply swp_bind, vwp_mod_bss; [done|]. intros y w2 Hy E2.
    assert (Hyy : h_bss (shape w1) !! b = Some (shape_b y)) by (by rewrite shape_bss, Hy).
    assert (Hok2 : vg_ok None (shape w2)) by (rewrite E2; by apply (ok_bss_state None (shape w1) b (shape_b y) VGCS_BSS_ST_ASSIGNMENT)).
    apply swp_bind. eapply swp_mono; [apply (cells_loop dispatch b); [done|by right|done|exact (ok_cells_nodup _ _ Hok b _ Hxx)|]|].
    { intros c Hc. rewrite E2. cbn. by eapply (cell_live None (shape w1) b (shape_b x)). }
    cbv beta. intros _ w3 (Hok3 & _ & X3).
    destruct (X3 (shape_b (y <| b_state := VGCS_BSS_ST_ASSIGNMENT |>))) as (x3 & Hx3 & _); [rewrite E2; apply lookup_insert_eq|].
    apply swp_bind, vwp_get_bss; [eauto|]. intros y3 Hy3. case_match; [apply BC; eauto|by apply swp_ret].
  - destruct ev; try discriminate Hp; try done; cbn [vgcs_bss_fsm_assignment]; try (by apply bss_closed_spec).
    apply swp_bind, vwp_get_bss; [done|]. intros x' Hx'. rewrite Hx in Hx'. injection Hx' as <-.
    case_match; [by apply BC|]. apply swp_bind, swp_gets. apply swp_when; [|done]. intros _.
    apply swp_bind, vwp_mod_bss; [done|]. intros y w2 Hy E2.
    assert (Hyy : h_bss (shape w) !! b = Some (shape_b y)) by (by rewrite shape_bss, Hy).
    assert (Hok2 : vg_ok None (shape w2)) by (rewrite E2; by apply (ok_bss_state None (shape w) b (shape_b y) VGCS_BSS_ST_ACTIVE)).
    apply swp_opt; [|done]. intros t Ht. destruct (ok_trans_of_bss _ _ Hok b _ t Hxx Ht) as (v & Hv & _).
    eapply HG; [done|rewrite E2; exact Hv|done].
  - by apply bss_active_spec.
Qed.
End level.

(** ** The levels *)

Lemma mgw_level n : (1 <= n)%nat -> mgw_serves (vg_dispatch n).
Proof. destruct n; [lia|]. intros _ m w. apply mgw_clear_spec. Qed.
Lemma gone_level n : (2 <= n)%nat -> gone_serves (vg_dispatch n).
Proof. destruct n; [lia|]. intros ? c e w ? ? ?. apply (gone_spec _ c e); try done. apply mgw_level. lia. Qed.
Lemma cell_level n : (3 <= n)%nat -> cell_serves (vg_dispatch n).
Proof. destruct n; [lia|]. intros ? c ev w ? ? ?. apply cell_serves_spec; try done; [apply mgw_level|apply gone_level]; lia. Qed.
Lemma bss_level n : (4 <= n)%nat -> bss_serves (vg_dispatch n).
Proof. destruct n; [lia|]. intros ? b w x ? ? ?. eapply bss_clear_serves; try done. apply cell_level. lia. Qed.
Lemma setup_level n : (1 <= n)%nat -> setup_serves (vg_dispatch n).
Proof. destruct n; [lia|]. intros ? b w x. apply setup_spec. Qed.
Lemma gcc_level n : (5 <= n)%nat -> gcc_serves (vg_dispatch n).
Proof.
  destruct n; [lia|]. intros ? t ev v w ? ? ?. eapply gcc_dispatch_spec; try done; [apply mgw_level|apply setup_level|apply bss_level]; lia.
Qed.
Lemma bss_any_level n : (6 <= n)%nat -> bss_takes (vg_dispatch n).
Proof.
  destruct n; [lia|]. intros ? b ev w ? ? ?. apply bss_takes_spec; try done; [apply cell_level|apply gcc_level|apply bss_level]; lia.
Qed.
Lemma cell_any_level n : (7 <= n)%nat -> cell_takes (vg_dispatch n).
Proof.
  destruct n; [lia|]. intros ? c ev w ? ?. apply cell_takes_spec; try done; [apply mgw_level|apply gone_level|apply bss_any_level]; lia.
Qed.
End safe.
