(* ===== verification/VgcsEvents.v ===== *)
(** * Voice group calls: the events from outside keep the links in order *)

From S2P Require Import Prelude VlrTypes Codecs Sdp CallTypes CallBase CallLeg CMonad VgcsTypes Vgcs VgcsInv VgcsStill VgcsLinks.
From S2P Require Import VgcsCellSafe VgcsBssSafe VgcsGccSafe VgcsSafe.

Section events.
Context {SL : SockaddrLib} {CL : CallLib} {AC : AmrCfg} {VL : VgcsLib} (n : nat) (Hn : (7 <= n)%nat).
Notation dispatch := (vg_dispatch n).
Notation ok_after := (fun (_ : unit) (w' : vg_world) => vg_ok None (shape w')).

Lemma d_bss : bss_takes dispatch. Proof. apply bss_any_level. lia. Qed.
Lemma d_cell : cell_takes dispatch. Proof. by apply cell_any_level. Qed.
Lemma d_gcc : gcc_serves dispatch. Proof. apply gcc_level. lia. Qed.
Lemma d_clear : bss_serves dispatch. Proof. apply bss_level. lia. Qed.

Lemma vg_find_live p w t : vg_ok None (shape w) -> vg_find p w = Some t -> is_Some (h_trans (shape w) !! t).
Proof.
  intros Hok H. unfold vg_find in H. apply find_some in H as [H _]. apply (ok_list _ _ Hok).
  by apply list_elem_of_In.
Qed.

(** ** The streams of the cells *)

Lemma established_spec c w :
  is_Some (h_cells (shape w) !! c) -> vwp (dispatch (ToCell c VGCS_CELL_EV_RTP_STREAM_ESTABLISHED)) (fun _ w' => shape w' = shape w) w.
Proof.
  intros Hc. destruct n as [|k]; [lia|]. cbn [vg_dispatch]. unfold cell_dispatch. apply swp_bind, vwp_get_cell; [done|]. intros x Hx.
  by destruct (c_state x); cbn [cell_permits swhen]; apply swp_ret.
Qed.
Lemma check_established_spec c w :
  is_Some (h_cells (shape w) !! c) -> vwp (cell_check_established dispatch c) (fun _ w' => shape w' = shape w) w.
Proof.
  intros Hc. unfold cell_check_established. apply swp_bind, vwp_still; [unfold get_rtps; still_tac|]. intros s w1 E1.
  rewrite <- E1 in *. apply swp_when; [|done]. intros _.
  apply swp_bind, vwp_still; [by apply still_mod_rtps|]. intros _ w2 E2. rewrite <- E2 in *. by apply established_spec.
Qed.
Lemma rtp_release_spec c w :
  vg_ok None (shape w) -> is_Some (h_cells (shape w) !! c) -> vwp (cell_rtp_release dispatch c) ok_after w.
Proof.
  intros Hok Hc. unfold cell_rtp_release. apply swp_bind, vwp_still; [unfold get_rtps; still_tac|]. intros s w1 E1. rewrite <- E1 in *.
  apply swp_bind, vwp_still; [still_tac|]. intros _ w2 E2. rewrite <- E2 in *.
  apply swp_bind, vwp_still; [still_tac|]. intros _ w3 E3. rewrite <- E3 in *. by apply d_cell.
Qed.
Lemma crcx_ok_spec c info w :
  vg_ok None (shape w) -> is_Some (h_cells (shape w) !! c) -> vwp (cell_rtp_crcx_ok dispatch c info) ok_after w.
Proof.
  intros Hok Hc. unfold cell_rtp_crcx_ok. apply swp_bind, vwp_still; [by apply still_mod_rtps|]. intros _ w1 E1. rewrite <- E1 in *.
  case_match; [by apply rtp_release_spec|]. apply swp_bind. eapply swp_mono; [by apply d_cell|]. cbv beta. intros _ w2 Hok2.
  apply swp_bind, swp_gets. apply swp_when; [|done]. intros Ha.
  assert (Hc2 : is_Some (h_cells (shape w2) !! c)) by (rewrite shape_cells; destruct (vw_cells w2 !! c); [eauto|done]).
  apply swp_bind. eapply swp_mono; [by apply check_established_spec|]. cbv beta. intros _ w3 E3. rewrite <- E3 in *.
  apply vwp_still; [|by intros _ w4 ->]. apply still_bind; [unfold get_rtps; still_tac|]. intros s.
  still_step. still_step; [by apply still_verb|still_tac].
Qed.
Lemma cell_rtp_spec c ev w :
  vg_ok None (shape w) -> is_Some (h_cells (shape w) !! c) -> vwp (cell_rtp_dispatch dispatch c ev) ok_after w.
Proof.
  intros Hok Hc. unfold cell_rtp_dispatch. apply swp_bind, vwp_still; [unfold get_rtps; still_tac|]. intros s w1 E1. rewrite <- E1 in *.
  destruct (s_state s); try (by apply swp_ret). destruct ev; try (by apply rtp_release_spec).
  - case_match; [by apply swp_ret|]. case_match; [by apply crcx_ok_spec|by apply swp_ret].
  - eapply swp_mono; [by apply check_established_spec|]. cbv beta. by intros _ w2 ->.
Qed.

(** ** The RAN *)

Lemma tell_bss b ev w : ev <> VGCS_BSS_EV_CLEAR -> vg_ok None (shape w) -> is_Some (vw_bss w !! b) -> vwp (dispatch (ToBss b ev)) ok_after w.
Proof. intros ? ? Hb. apply d_bss; try done. rewrite shape_bss. by apply fmap_is_Some. Qed.
Lemma tell_cell c ev w : vg_ok None (shape w) -> is_Some (vw_cells w !! c) -> vwp (dispatch (ToCell c ev)) ok_after w.
Proof. intros ? Hb. apply d_cell; try done. rewrite shape_cells. by apply fmap_is_Some. Qed.

Lemma msg_up_spec conn m w : vg_ok None (shape w) -> vwp (ran_peer_msg_up n conn m) ok_after w.
Proof.
  intros Hok. unfold ran_peer_msg_up. apply swp_bind, vwp_get_rc. intros rc _. destruct (rc_bss rc) as [b|].
  - unfold msc_a_rx_vgcs_bss_decoded. apply swp_bind, swp_need; [done|]. intros x Hx.
    destruct m; try (by apply swp_ret); try (apply swp_when; [|done]; intros _); apply tell_bss; eauto; done.
  - destruct (rc_cell rc) as [c|]; [|by apply swp_ret]. unfold msc_a_rx_vgcs_cell_decoded. apply swp_bind, swp_need; [done|]. intros x Hx.
    destruct m; try (by apply swp_ret); apply tell_cell; eauto.
Qed.
Lemma discard_spec pc w : vg_ok None (shape w) -> vwp (ran_peer_discard_all_conns n pc) ok_after w.
Proof.
  intros Hok. unfold ran_peer_discard_all_conns. apply swp_bind, swp_gets.
  eapply swp_mono; [apply (swp_for vg_tolerated (fun _ w' => vg_ok None (shape w')))|]; [done| |done].
  clear w Hok. intros conn _ w Hok. apply swp_bind, vwp_get_rc. intros rc _. destruct (rc_bss rc) as [b|].
  - apply swp_bind, swp_need; [done|]. intros x Hx. apply tell_bss; eauto; done.
  - destruct (rc_cell rc) as [c|]; [|by apply swp_mod]. apply swp_bind, swp_need; [done|]. intros x Hx. apply tell_cell; eauto.
Qed.

(** ** Transactions *)

Lemma vwp_alloc vs type id callref g busy (Q : nat -> vg_world -> Prop) w :
  vg_ok None (shape w) ->
  (forall t w' x, vg_ok None (shape w') -> h_trans (shape w') !! t = Some x ->
     ts_fi x = Some VGCS_GCC_ST_N0_NULL -> ts_uplink x = None -> ts_bss x = [] -> Q t w') ->
  vwp (trans_alloc_vgcs vs type id callref g busy) Q w.
Proof.
  intros Hok HQ. unfold trans_alloc_vgcs. apply swp_bind, swp_gets, swp_bind, swp_gets, swp_bind, swp_mod, swp_ret.
  pose proof (ok_trans_new (shape w) (vw_next w) None Hok eq_refl) as Hnew.
  eapply (HQ _ _ (mk_ts [] None (Some VGCS_GCC_ST_N0_NULL) None)); [|cbn; rewrite fmap_insert; apply lookup_insert_eq|done..].
  unfold shape. cbn. rewrite fmap_insert. exact Hnew.
Qed.

Lemma create_spec k type id mt callref w :
  vg_ok None (shape w) ->
  vwp (trans_create_bcc_gcc dispatch (Some k) type id mt callref)
    (fun ot w' => vg_ok None (shape w') /\ forall t, ot = Some t -> exists v, h_trans (shape w') !! t = Some v /\ is_Some (ts_msc_a v)) w.
Proof.
  intros Hok. cbn [trans_create_bcc_gcc]. apply swp_bind, vwp_get_caller. intros a _.
  destruct (k_vsub a) as [vs|]; [|by apply swp_ret]. apply swp_bind, vwp_still; [unfold put_cm_service; still_tac|].
  intros _ w1 E1. rewrite <- E1 in *. case_match; [by apply swp_ret|].
  apply swp_bind, swp_gets. case_match; [by apply swp_bind, swp_mod, swp_ret|].
  apply swp_bind, swp_gets. case_match; [|by apply swp_bind, swp_mod, swp_ret].
  apply swp_bind, vwp_alloc; [done|]. intros t w2 x Hok2 Hx Hfi Hup Hbs. apply swp_bind, vwp_still; [unfold vg_ask|].
  { intros w' Hw'. by apply (vwp_ask (fun _ w'' => shape w'' = _)); intros ? ? ->. }
  intros z w3 E3. rewrite <- E3 in *. case_match.
  - apply swp_bind. eapply swp_mono; [by eapply (terminate_spec _ t _ w3 x d_clear)|]. cbv beta. intros _ w4 Hok4. by apply swp_ret.
  - apply swp_bind, swp_mod, swp_bind. apply vwp_mod_vt; [cbn; eauto|]. intros v w4 Hv E4. apply swp_ret.
    assert (Hvx : x = shape_t v).
    { apply (inj Some). rewrite <- Hx. exact (eq_trans (shape_trans w3 t) (f_equal (fmap shape_t) Hv)). }
    split.
    + rewrite E4. apply (ok_trans_changed None (shape w3) t x); [done|done| | |].
      * by subst x.
      * intros b Hb. subst x. discriminate (eq_trans (eq_sym Hup) Hb).
      * intros Hf. by eexists.
    + intros t' [= <-]. eexists. split; [rewrite E4; apply lookup_insert_eq|]. by eexists.
Qed.

Lemma rcv_spec k m w : vg_ok None (shape w) -> vwp (gsm44068_rcv_bcc_gcc dispatch (Some k) None m) ok_after w.
Proof.
  intros Hok. unfold gsm44068_rcv_bcc_gcc. case_match; [|by apply swp_ret].
  apply swp_bind, swp_bind, vwp_get_caller. intros a _. apply swp_gets. case_match eqn:Hf.
  - destruct (vg_find_live _ _ _ Hok Hf) as [v Hv]. case_match eqn:Hset.
    + apply vwp_still; [by apply still_tx|]. by intros _ w1 ->.
    + eapply handle_spec; [apply d_gcc|done|done|]. by rewrite Hset.
  - apply swp_bind. eapply swp_mono; [by apply create_spec|]. cbv beta. intros ot w1 [Hok1 H1].
    apply swp_opt; [|done]. intros t ->. destruct (H1 t eq_refl) as (v & Hv & Ha). by eapply handle_spec; [apply d_gcc|..].
Qed.

Lemma rr_spec k w : vg_ok None (shape w) -> vwp (gsm44068_rcv_rr k) ok_after w.
Proof.
  intros Hok. unfold gsm44068_rcv_rr. apply swp_bind, vwp_get_caller. intros a _. apply swp_bind, swp_gets, swp_bind, swp_gets.
  apply swp_opt; [|done]. intros t Ht.
  assert (Hl : is_Some (h_trans (shape w) !! t)) by (case_match; eapply vg_find_live; naive_solver).
  apply swp_bind, vwp_mod_vt; [done|]. intros z w1 Hz E1.
  assert (Hzz : h_trans (shape w) !! t = Some (shape_t z)) by (by rewrite shape_trans, Hz).
  assert (Hok1 : vg_ok None (shape w1)).
  { rewrite E1. apply (ok_trans_changed None (shape w) t (shape_t z)); [done|done|done|done|]. exact (ok_caller _ _ Hok t _ Hzz). }
  apply swp_bind, vwp_get_vt; [rewrite E1; cbn; rewrite lookup_insert_eq; eauto|]. intros v Hv.
  apply swp_bind, vwp_still; [|intros _ w2 _; by apply swp_fault]. apply still_for. intros b Hb. apply still_uplink_state.
  eapply (bss_live None (shape w1) t (shape_t v)); [done|by rewrite shape_trans, Hv|done].
Qed.

Lemma conn_closed_spec k w : vg_ok None (shape w) -> vwp (vg_conn_closed n k) ok_after w.
Proof.
  intros Hok. unfold vg_conn_closed. apply swp_bind, swp_gets.
  eapply swp_mono; [apply (swp_for vg_tolerated (fun l w' => vg_ok None (shape w') /\ NoDup l /\
    forall t, t ∈ l -> is_Some (h_trans (shape w') !! t)))|cbv beta; naive_solver].
  { split; [done|]. exact (ok_list _ _ Hok). }
  clear w Hok. intros t l w (Hok & [Hnin Hnd]%NoDup_cons & Hl). destruct (Hl t) as [v Hv]; [by left|].
  apply swp_bind, vwp_get_vt; [eauto|]. intros z Hz. apply swp_when.
  - intros _. eapply swp_mono; [eapply (trans_free_spec _ t w v d_clear); done|]. cbv beta. intros _ w1 [Hok1 M]. split_and!; [done..|].
    intros t' Ht'. destruct (Hl t') as [v' Hv']; [by right|]. destruct (tm_trans _ _ _ M t' v') as (v1 & -> & _); [by intros ->|done|eauto].
  - intros _. split_and!; [done..|]. intros t' Ht'. apply Hl. by right.
Qed.

(** ** All events *)

Lemma gcc_live t ev w :
  vg_ok None (shape w) -> is_Some (h_trans (shape w) !! t) -> ev <> VGCS_GCC_EV_USER_SETUP -> vwp (dispatch (ToGcc t ev)) ok_after w.
Proof. intros Hok [v Hv] Hev. by eapply d_gcc. Qed.

Lemma vg_run_spec ev w : vg_ok None (shape w) -> vg_enabled ev w = true -> vwp (vg_run n ev) ok_after w.
Proof.
  intros Hok Hen. destruct ev; cbn [vg_run]; try (by apply swp_mod).
  - by apply msg_up_spec.
  - by apply discard_spec.
  - apply cell_rtp_spec; [done|]. rewrite shape_cells. cbn in Hen. destruct (vw_cells w !! c); [eauto|done].
  - destruct n as [|n']; [lia|]. apply mgw_free_spec; [done|]. rewrite shape_mgw. apply fmap_is_Some. by apply bool_decide_eq_true in Hen.
  - by apply rcv_spec.
  - by apply rr_spec.
  - unfold vgcs_caller_assigned. apply swp_bind, vwp_get_caller. intros a _. apply swp_bind, swp_gets, swp_bind, swp_gets.
    apply swp_opt; [|done]. intros t Ht. apply gcc_live; [done| |by destruct complete]. case_match; eapply vg_find_live; naive_solver.
  - apply swp_bind. eapply swp_mono; [by apply conn_closed_spec|]. cbv beta. intros _ w1 Hok1. by apply swp_mod.
  - assert (Ht : is_Some (h_trans (shape w) !! t)) by (rewrite shape_trans; cbn in Hen; destruct (vw_trans w !! t); [eauto|done]).
    apply swp_bind, vwp_still; [still_tac|]. intros _ w1 E1. rewrite <- E1 in *. by apply gcc_live.
  - apply swp_bind, swp_gets. apply swp_opt; [|done]. intros g _. unfold vgcs_vty_initiate. apply swp_bind, swp_gets.
    case_match; [by apply swp_ret|]. apply swp_bind, vwp_alloc; [done|]. intros t w1 x Hok1 Hx _ _ _. apply gcc_live; eauto; done.
  - apply swp_bind, swp_gets. apply swp_opt; [|done]. intros g _. unfold vgcs_vty_terminate. apply swp_bind, swp_gets.
    apply swp_opt; [|done]. intros t Ht. apply gcc_live; [done|by eapply vg_find_live|done].
Qed.

Lemma vg_init_ok vsubs : vg_ok None (shape (vg_init vsubs)).
Proof.
  unfold shape, vg_init. cbn. rewrite !fmap_empty. split; cbn; intros; rewrite ?lookup_empty in *; try done.
  split; [constructor|]. by intros t ?%not_elem_of_nil.
Qed.
Lemma vg_reachable_ok vsubs w : vg_reachable n (vg_init vsubs) w -> vg_ok None (shape w).
Proof.
  induction 1 as [|w ev w' _ IH Hs]; [apply vg_init_ok|]. unfold vg_step in Hs. destruct (vg_enabled ev w) eqn:Hen; [|by injection Hs as <-].
  pose proof (vg_run_spec ev w IH Hen) as S. unfold swp in S. by rewrite Hs in S.
Qed.
End events.
