(* ===== verification/VgcsProps.v ===== *)
(** * Voice group calls: what is proved *)

From S2P Require Import Prelude VlrTypes Codecs Sdp CallTypes CallBase CallLeg CallSample CMonad VgcsTypes Vgcs VgcsSample.
From S2P Require Import VgcsInv VgcsStill VgcsLinks VgcsCellSafe VgcsBssSafe VgcsGccSafe VgcsSafe VgcsEvents.

(** ** The group call register *)

(** what has been chosen among the entries seen so far *)
Definition gcr_chosen (type : trans_type) (callref : Z) (l : list gcr) (r : option gcr * nat) : Prop :=
  match r with
  | (None, n) => n = 0%nat /\ forall g, g ∈ l -> gcr_matches type callref g = true -> String.length (gr_group_id g) = 0%nat
  | (Some g, n) => n = String.length (gr_group_id g) /\ (0 < n)%nat /\ gcr_matches type callref g = true /\
      exists l1 l2, l = l1 ++ g :: l2 /\
        (forall g', g' ∈ l1 -> gcr_matches type callref g' = true -> (String.length (gr_group_id g') < n)%nat) /\
        (forall g', g' ∈ l2 -> gcr_matches type callref g' = true -> (String.length (gr_group_id g') <= n)%nat)
  end.
Lemma gcr_chosen_step type callref l r g :
  gcr_chosen type callref l r ->
  gcr_chosen type callref (l ++ [g])
    (let '(best, len) := r in
     let n := String.length (gr_group_id g) in
     if gcr_matches type callref g && (len <? n)%nat then (Some g, n) else (best, len)).
Proof.
  destruct r as [[b|] len]; cbn.
  - intros (-> & Hpos & Hm & l1 & l2 & -> & H1 & H2). case_match eqn:Hc.
    + apply andb_prop in Hc as [Hg Hlt%Nat.ltb_lt]. split_and!; [done|lia|done|]. exists (l1 ++ b :: l2), []. split_and!; [done| |].
      * intros g' [Hin|[->|Hin]%elem_of_cons]%elem_of_app Hg'; [specialize (H1 g' Hin Hg')| |specialize (H2 g' Hin Hg')]; lia.
      * by intros g' ?%not_elem_of_nil.
    + split_and!; [done..|]. exists l1, (l2 ++ [g]). split_and!; [by rewrite <- app_assoc|done|].
      intros g' [Hin| ->%list_elem_of_singleton]%elem_of_app Hg'; [by apply H2|]. rewrite Hg' in Hc. cbn in Hc. apply Nat.ltb_ge in Hc. done.
  - intros [-> H]. case_match eqn:Hc.
    + apply andb_prop in Hc as [Hg Hlt%Nat.ltb_lt]. split_and!; [done|lia|done|]. exists l, []. split_and!; [done| |].
      * intros g' Hin Hg'. rewrite (H g' Hin Hg'). done.
      * by intros g' ?%not_elem_of_nil.
    + split; [done|]. intros g' [Hin| ->%list_elem_of_singleton]%elem_of_app Hg'; [by apply H|]. rewrite Hg' in Hc.
      cbn [andb] in Hc. apply Nat.ltb_ge in Hc. lia.
Qed.
Lemma gcr_chosen_fold type callref l2 : forall l1 r, gcr_chosen type callref l1 r ->
  gcr_chosen type callref (l1 ++ l2)
    (fold_left (fun '(best, len) g =>
                  let n := String.length (gr_group_id g) in
                  if gcr_matches type callref g && (len <? n)%nat then (Some g, n) else (best, len)) l2 r).
Proof.
  induction l2 as [|g l2 IH]; intros l1 r Hr; cbn [fold_left]; [by rewrite app_nil_r|].
  replace (l1 ++ g :: l2) with ((l1 ++ [g]) ++ l2) by (by rewrite <- app_assoc).
  apply IH. apply (gcr_chosen_step type callref l1 r g) in Hr. by destruct r.
Qed.

(** C21: for a call reference the register gives the entry of that kind of call
    with the longest group ID whose digits are the last digits of the call
    reference, the first of them if there are several; and none only when
    no entry with a group ID matches. *)
Theorem gcr_by_callref_most_specific l type callref :
  match gcr_by_callref l type callref with
  | Some g =>
      gcr_matches type callref g = true /\ (0 < String.length (gr_group_id g))%nat /\
      exists l1 l2, l = l1 ++ g :: l2 /\
        (forall g', g' ∈ l1 -> gcr_matches type callref g' = true -> (String.length (gr_group_id g') < String.length (gr_group_id g))%nat) /\
        (forall g', g' ∈ l2 -> gcr_matches type callref g' = true -> (String.length (gr_group_id g') <= String.length (gr_group_id g))%nat)
  | None => forall g, g ∈ l -> gcr_matches type callref g = true -> String.length (gr_group_id g) = 0%nat
  end.
Proof.
  unfold gcr_by_callref. assert (H0 : gcr_chosen type callref [] (None, 0%nat)) by (split; [done|]; by intros g ?%not_elem_of_nil).
  pose proof (gcr_chosen_fold type callref l [] _ H0) as H. rewrite app_nil_l in H.
  destruct (fold_left _ l _) as [[g|] n]; cbn in *; [|by destruct H]. destruct H as (-> & ? & ? & ?). done.
Qed.

(** ** The call reference element *)

Lemma lor_low a b k : 0 <= k -> 0 <= b < 2 ^ k -> Z.lor (Z.shiftl a k) b = a * 2 ^ k + b.
Proof.
  intros Hk Hb. rewrite <- Z.shiftl_mul_pow2 by done. rewrite <- Z.lxor_lor, <- Z.add_nocarry_lxor; [done|..];
    apply Z.bits_inj'; intros i Hi; rewrite Z.land_spec, Z.bits_0, Z.shiftl_spec by done;
    (destruct (Z.ltb_spec i k); [by rewrite Z.testbit_neg_r by lia|]);
    apply andb_false_intro2, (proj1 (Z.bounded_iff_bits_nonneg k b Hk (proj1 Hb)) (proj2 Hb)); lia.
Qed.
Lemma load_be32 z rest : 0 <= z < 2 ^ 32 -> osmo_load32be (be32 z ++ rest) = z.
Proof.
  intros Hz. cbn [be32 osmo_load32be app]. rewrite !(Z.land_ones _ 8 : forall H, Z.land _ 255 = _), !Z.shiftr_div_pow2 by lia.
  pose proof (Z.mod_pos_bound z (2 ^ 8) eq_refl). pose proof (Z.mod_pos_bound (z / 2 ^ 8) (2 ^ 8) eq_refl).
  pose proof (Z.mod_pos_bound (z / 2 ^ 16) (2 ^ 8) eq_refl).
  rewrite (lor_low _ _ 8) by lia. rewrite (lor_low _ _ 16) by lia. rewrite (lor_low _ _ 24) by lia.
  Z.div_mod_to_equations. lia.
Qed.
Definition prio_bits (prio : option Z) : Z := match prio with Some p => 16 + 2 * p | None => 0 end.
Lemma below_eight (P : Z -> Prop) : P 0 -> P 1 -> P 2 -> P 3 -> P 4 -> P 5 -> P 6 -> P 7 -> forall p, 0 <= p < 8 -> P p.
Proof. intros. assert (p = 0 \/ p = 1 \/ p = 2 \/ p = 3 \/ p = 4 \/ p = 5 \/ p = 6 \/ p = 7) as C by lia. naive_solver. Qed.
Lemma add_callref_value callref prio :
  0 <= callref < 2 ^ 27 -> (forall p, prio = Some p -> 0 <= p < 8) ->
  _add_callref_ie callref prio = be32 (callref * 32 + prio_bits prio).
Proof.
  intros Hc Hp. unfold _add_callref_ie, u32. rewrite Z.mod_small by (rewrite Z.shiftl_mul_pow2 by lia; lia).
  destruct prio as [p|]; cbn [prio_bits]; [|rewrite Z.shiftl_mul_pow2 by lia; f_equal; lia]. specialize (Hp p eq_refl).
  assert (Z.lor 16 (Z.shiftl p 1) = 16 + 2 * p) as -> by (revert p Hp; by apply below_eight). by rewrite lor_low by lia.
Qed.
Lemma prio_of_octet c prio :
  0 <= c < 8 -> (forall p, prio = Some p -> 0 <= p < 8) ->
  (let o := 32 * c + prio_bits prio in if Z.land o 16 =? 0 then None else Some (Z.land (Z.shiftr o 1) 7)) = prio.
Proof.
  intros Hc Hp. destruct prio as [p|]; [specialize (Hp p eq_refl); revert p Hp; apply below_eight|clear Hp]; cbn [prio_bits];
    revert c Hc; by apply below_eight.
Qed.

(** C28: a call reference of 27 bits, and its priority if there is one, read back
    from the element that is written, and what follows the element is left. *)
Theorem callref_roundtrip callref prio rest :
  0 <= callref < 2 ^ 27 -> (forall p, prio = Some p -> 0 <= p < 8) ->
  _rx_callref (_add_callref_ie callref prio ++ rest) = Some (callref, prio, rest).
Proof.
  intros Hc Hp. rewrite add_callref_value by done. set (z := callref * 32 + prio_bits prio).
  assert (Hb : 0 <= prio_bits prio < 32) by (destruct prio; cbn; [specialize (Hp _ eq_refl)|]; lia).
  unfold _rx_callref. rewrite load_be32 by (unfold z; lia). cbn [be32 app length Nat.ltb Nat.leb drop octet nth].
  rewrite Z.shiftr_div_pow2 by lia. repeat f_equal.
  - unfold z. change (2 ^ 5) with 32. rewrite Z.div_add_l, (Z.div_small (prio_bits prio)) by lia. lia.
  - etrans; [|apply (prio_of_octet (callref mod 8) prio); [by apply Z.mod_pos_bound|done]]. cbv zeta.
    assert (Z.land z 255 = 32 * (callref mod 8) + prio_bits prio) as ->; [|done].
    change 255 with (Z.ones 8). rewrite Z.land_ones by lia. unfold z. Z.div_mod_to_equations. lia.
Qed.
Lemma callref_roundtrip_witness :
  _rx_callref (_add_callref_ie 12345 (Some 5) ++ [0x2b]) = Some (12345, Some 5, [0x2b]).
Proof. apply (callref_roundtrip 12345 (Some 5) [0x2b]); [lia|]. intros p [= <-]. lia. Defined.

(** ** The uplink *)

(** more has been sent *)
Definition vg_sent (o : list vg_out) (w : vg_world) : vg_world := w <| vw_out := vw_out w ++ o |>.
Lemma vg_sent_nil w : vg_sent [] w = w.
Proof. unfold vg_sent. by rewrite app_nil_r. Qed.
Lemma vg_sent_app o1 o2 w : vg_sent o2 (vg_sent o1 w) = vg_sent (o1 ++ o2) w.
Proof. unfold vg_sent. by rewrite app_assoc. Qed.

Section uplink.
Context {SL : SockaddrLib} {CL : CallLib} {AC : AmrCfg} {VL : VgcsLib}.

Lemma send_ran n m i w : is_Some (vw_conns w !! n) -> ran_encode_and_send n m i w = Ok tt (vg_sent [VgRan n m i] w).
Proof. intros [rc Hrc]. unfold ran_encode_and_send, sbind, get_rc, sneed. by rewrite Hrc. Qed.
Lemma uplink_state_sent b busy x n w :
  vw_bss w !! b = Some x -> b_conn x = Some n -> is_Some (vw_conns w !! n) ->
  update_uplink_state b busy w =
  Ok tt (vg_sent [VgRan n (if busy then RAN_MSG_UPLINK_SEIZED_CMD else RAN_MSG_UPLINK_RELEASE_CMD) false] w).
Proof.
  intros Hx Hn Hrc. unfold update_uplink_state, sbind, get_bss, sneed. rewrite Hx. unfold vg_deref. rewrite Hn. by apply send_ran.
Qed.

(** [update_uplink_state] of [b] for every other BSS *)
Lemma uplink_states b busy x n : forall l w,
  vw_bss w !! b = Some x -> b_conn x = Some n -> is_Some (vw_conns w !! n) ->
  sfor l (fun other => swhen (negb (Nat.eqb other b)) (update_uplink_state b busy)) w =
  Ok tt (vg_sent (replicate (length (filter (fun u => u <> b) l))
                    (VgRan n (if busy then RAN_MSG_UPLINK_SEIZED_CMD else RAN_MSG_UPLINK_RELEASE_CMD) false)) w).
Proof.
  induction l as [|u l IH]; intros w Hx Hn Hrc; [exact (f_equal (Ok tt) (eq_sym (vg_sent_nil w)))|].
  cbn [sfor]. unfold sbind at 1. destruct (Nat.eqb_spec u b) as [->|Hne]; cbn [negb swhen].
  - rewrite filter_cons_False by (intros H; by apply H). unfold sret. by apply IH.
  - rewrite filter_cons_True by done. rewrite (uplink_state_sent b busy x n w) by done. cbn [length replicate].
    rewrite IH, vg_sent_app by done. done.
Qed.

Lemma mod_vt_ok t f v w : vw_trans w !! t = Some v -> mod_vt t f w = Ok tt (w <| vw_trans ::= insert t (f v) |>).
Proof. intros Hv. unfold mod_vt, sbind, get_vt, sneed. by rewrite Hv. Qed.

Lemma trans_twice w t v1 v2 o1 o2 :
  w <| vw_out := o1 |> <| vw_trans ::= insert t v1 |> <| vw_out := o2 |> <| vw_trans ::= insert t v2 |>
  = w <| vw_trans ::= insert t v2 |> <| vw_out := o2 |>.
Proof.
  change (w <| vw_trans := insert t v2 (insert t v1 (vw_trans w)) |> <| vw_out := o2 |>
          = w <| vw_trans := insert t v2 (vw_trans w) |> <| vw_out := o2 |>). by rewrite insert_insert_eq.
Qed.

(** C20: a request for the uplink by a BSS that takes part in a call is rejected
    while the uplink is busy, and nothing changes; when it is free, it is
    granted to that BSS, the inactivity timer stops, and an Uplink Seized
    is sent for every other BSS of the call -- each of them to the BSS that has
    got the uplink, not to the others. *)
Theorem uplink_request_outcome k b t n x v w :
  vw_bss w !! b = Some x -> b_state x = VGCS_BSS_ST_ACTIVE -> b_trans x = Some t -> vw_trans w !! t = Some v ->
  b_conn x = Some n -> is_Some (vw_conns w !! n) ->
  vg_dispatch (S k) (ToBss b VGCS_BSS_EV_UL_REQUEST) w =
  if v_uplink_busy v then Ok tt (vg_sent [VgRan n RAN_MSG_UPLINK_REJECT_CMD false] w)
  else Ok tt (vg_sent (VgRan n RAN_MSG_UPLINK_REQUEST_ACK false ::
                       replicate (length (filter (fun u => u <> b) (v_bss_list v))) (VgRan n RAN_MSG_UPLINK_SEIZED_CMD false))
                (w <| vw_trans ::= insert t (v <| v_uplink_bss := Some b |> <| v_uplink_busy := true |>
                                               <| v_uplink_originator := false |> <| v_timer_inactivity := false |>) |>)).
Proof.
  intros Hx Hs Ht Hv Hn Hrc. cbn [vg_dispatch]. unfold bss_dispatch, sbind at 1, get_bss, sneed. rewrite Hx, Hs. cbn [bss_permits swhen].
  unfold vgcs_bss_fsm_active, sbind at 1, get_bss, sneed. rewrite Hx, Ht. cbn [sopt].
  unfold sbind at 1, get_vt, sneed. rewrite Hv. unfold sbind at 1, vg_deref. rewrite Hn. unfold sret, bss_uplink_request.
  destruct (v_uplink_busy v); [by apply send_ran|]. unfold sbind at 1. rewrite send_ran by done.
  unfold sbind at 1. rewrite (mod_vt_ok t _ v) by done. unfold sbind at 1. rewrite (uplink_states b true x n) by done.
  unfold stop_inactivity_timer. erewrite mod_vt_ok by apply lookup_insert_eq. unfold vg_sent. cbn.
  rewrite <- app_assoc. exact (f_equal (Ok tt) (trans_twice w t _ _ _ _)).
Qed.
End uplink.

(** ** The sample call *)

#[local] Existing Instances sample_sockaddr vg_call_lib sample_amr vg_sample_lib.
Lemma vg_run_all_reachable n w0 evs : forall w w', vg_reachable n w0 w -> vg_run_all n evs w = Ok tt w' -> vg_reachable n w0 w'.
Proof.
  induction evs as [|ev evs IH]; intros w w' Hw Hr; [by injection Hr as <-|]. cbn in Hr. unfold sbind in Hr.
  destruct (vg_step n ev w) as [[] w1|] eqn:Hs; [|done]. eapply IH; [|exact Hr]. by eapply vg_reach_step.
Qed.
Definition vg_sample_init : vg_world := vg_init {[1%nat := mk_vg_vsub "262420000000001" 0x1234]}.
Lemma vg_sample_reachable evs :
  match vg_sample_run 7 evs with Ok _ _ => true | Fault _ => false end = true -> vg_reachable 7 vg_sample_init (vg_sample_world evs).
Proof.
  unfold vg_sample_world, vg_sample_run. intros H. fold vg_sample_init in *.
  destruct (vg_run_all 7 evs vg_sample_init) as [[] w|] eqn:Hr; [|done]. eapply vg_run_all_reachable; [apply vg_reach_init|exact Hr].
Qed.
(** the caller has left the uplink *)
Definition vg_uplink_free : list vg_event := vg_active ++ [EvRanUp 3 UpUplinkReleaseInd].

Lemma uplink_request_outcome_witness :
  exists w', vg_dispatch 7 (ToBss 6 VGCS_BSS_EV_UL_REQUEST) (vg_sample_world vg_uplink_free) = Ok tt w' /\
    vw_out w' = vw_out (vg_sample_world vg_uplink_free) ++ [VgRan 7 RAN_MSG_UPLINK_REQUEST_ACK false; VgRan 7 RAN_MSG_UPLINK_SEIZED_CMD false].
Proof.
  eexists. split; [eapply eq_trans; [eapply (uplink_request_outcome 6 6 0 7)|]|]; try (vm_compute; reflexivity). vm_compute. eauto.
Defined.

(** ** The four state machines together *)

Section together.
Context {SL : SockaddrLib} {CL : CallLib} {AC : AmrCfg} {VL : VgcsLib}.

(** C5: after any sequence of messages from BSSs and callers, answers of the
    media gateway, timeouts, resets and commands, no event for the state
    machines of calls, BSSs, cells and endpoints fails an assertion or nests
    events more than seven deep, and none finds a call, a BSS, a cell or an
    endpoint freed when it follows the lists of calls, of the BSSs of a call and
    of the cells of a BSS and of an endpoint, the pointers from BSSs to calls and
    from cells to BSSs and endpoints, and the pointer of a call to the BSS of the
    talker. The pointers that lie outside of these are not covered: that of a
    call to the cell of the talker, those of RAN connections to BSSs and cells,
    and those to connections and streams. *)
Theorem group_assertions_hold n vsubs w ev f :
  (7 <= n)%nat -> vg_reachable n (vg_init vsubs) w ->
  f ∈ [Assertion; TooNested; BadTrans; BadBss; BadCell; BadMgw] -> vg_step n ev w <> Fault f.
Proof.
  intros Hn Hr Hf Hs. apply (vg_reachable_ok n Hn) in Hr. unfold vg_step in Hs. destruct (vg_enabled ev w) eqn:Hen; [|done].
  pose proof (vg_run_spec n Hn ev w Hr Hen) as H. unfold swp in H. rewrite Hs in H. set_solver.
Qed.

(** C6: in every reachable state the lists and the pointers agree: a BSS is in the
    list of a call exactly when it points to the call, a cell in the list of a BSS
    and in that of an endpoint exactly when it points to them, none of these lists
    has an entry twice, the BSS with the uplink is one of the call, and a BSS
    that is being released belongs to no call. *)
Theorem group_links_in_order n vsubs w :
  (7 <= n)%nat -> vg_reachable n (vg_init vsubs) w ->
  (forall t v b, vw_trans w !! t = Some v -> b ∈ v_bss_list v <-> exists x, vw_bss w !! b = Some x /\ b_trans x = Some t) /\
  (forall b x c, vw_bss w !! b = Some x -> c ∈ b_cell_list x <-> exists e, vw_cells w !! c = Some e /\ c_bss e = Some b) /\
  (forall m y c, vw_mgw w !! m = Some y -> c ∈ m_cell_list y <-> exists e, vw_cells w !! c = Some e /\ c_mgw e = Some m) /\
  (forall m y, vw_mgw w !! m = Some y -> NoDup (m_cell_list y)) /\
  (forall t v, vw_trans w !! t = Some v -> NoDup (v_bss_list v) /\ forall b, v_uplink_bss v = Some b -> b ∈ v_bss_list v) /\
  (forall b x, vw_bss w !! b = Some x -> NoDup (b_cell_list x) /\ (b_state x = VGCS_BSS_ST_RELEASE -> b_trans x = None)).
Proof.
  intros Hn Hr. apply (vg_reachable_ok n Hn) in Hr as Hok. clear Hr.
  assert (T : forall t v, vw_trans w !! t = Some v -> h_trans (shape w) !! t = Some (shape_t v)) by (intros ? ? H; by rewrite shape_trans, H).
  assert (B : forall b x, vw_bss w !! b = Some x -> h_bss (shape w) !! b = Some (shape_b x)) by (intros ? ? H; by rewrite shape_bss, H).
  assert (C : forall c e, vw_cells w !! c = Some e -> h_cells (shape w) !! c = Some (shape_c e)) by (intros ? ? H; by rewrite shape_cells, H).
  assert (M : forall m y, vw_mgw w !! m = Some y -> h_mgw (shape w) !! m = Some (m_cell_list y)) by (intros ? ? H; by rewrite shape_mgw, H).
  split_and!.
  - intros t v b Hv. split.
    + intros Hb. destruct (ok_bss_of_trans _ _ Hok t _ b (T _ _ Hv) Hb) as (x & Hx & Hxt).
      rewrite shape_bss in Hx. apply fmap_Some in Hx as (y & Hy & ->). eauto.
    + intros (x & Hx & Hxt). destruct (ok_trans_of_bss _ _ Hok b _ t (B _ _ Hx) Hxt) as (v' & Hv' & [Hin|]); [|done].
      rewrite (T _ _ Hv) in Hv'. by injection Hv' as <-.
  - intros b x c Hx. split.
    + intros Hc. destruct (ok_cell_of_bss _ _ Hok b _ c (B _ _ Hx) Hc) as (e & He & Heb).
      rewrite shape_cells in He. apply fmap_Some in He as (y & Hy & ->). eauto.
    + intros (e & He & Heb). destruct (ok_bss_of_cell _ _ Hok c _ b (C _ _ He) Heb) as (x' & Hx' & Hin).
      rewrite (B _ _ Hx) in Hx'. by injection Hx' as <-.
  - intros m y c Hy. split.
    + intros Hc. destruct (ok_cell_of_mgw _ _ Hok m _ c (M _ _ Hy) Hc) as (e & He & Hem).
      rewrite shape_cells in He. apply fmap_Some in He as (z & Hz & ->). eauto.
    + intros (e & He & Hem). destruct (ok_mgw_of_cell _ _ Hok c _ m (C _ _ He) Hem) as (l & Hl & Hin).
      rewrite (M _ _ Hy) in Hl. by injection Hl as <-.
  - intros m y Hy. exact (ok_mgw_nodup _ _ Hok m _ (M _ _ Hy)).
  - intros t v Hv. split; [exact (ok_bss_nodup _ _ Hok t _ (T _ _ Hv))|]. intros b. exact (ok_uplink _ _ Hok t _ b (T _ _ Hv)).
  - intros b x Hx. split; [exact (ok_cells_nodup _ _ Hok b _ (B _ _ Hx))|exact (ok_released _ _ Hok b _ (B _ _ Hx))].
Qed.
End together.

Lemma group_links_in_order_witness :
  exists x, vw_bss (vg_sample_world vg_active) !! 6%nat = Some x /\ b_trans x = Some 0%nat.
Proof.
  assert (Hr : vg_reachable 7 vg_sample_init (vg_sample_world vg_active)) by (apply vg_sample_reachable; vm_compute; reflexivity).
  assert (Hb : (v_bss_list <$> vw_trans (vg_sample_world vg_active) !! 0%nat) = Some [2; 6]%nat) by (vm_compute; reflexivity).
  revert Hr Hb. generalize (vg_sample_world vg_active). intros w Hr (v & Hv & Hl)%fmap_Some.
  apply (proj1 (group_links_in_order 7 _ w ltac:(lia) Hr) 0%nat v 6%nat Hv).
  refine (eq_ind _ (fun l => 6%nat ∈ l) _ _ Hl). right. left.
Defined.

(** the cell of the talker's BSS is cleared while the call is active *)
Lemma group_assertions_hold_witness :
  (exists w', vg_step 7 (EvRanUp 5 UpClearRequest) (vg_sample_world vg_active) = Ok tt w') /\
  vg_step 7 (EvRanUp 5 UpClearRequest) (vg_sample_world vg_active) <> Fault BadCell.
Proof.
  split; [eexists; vm_compute; reflexivity|].
  apply (group_assertions_hold 7 {[1%nat := mk_vg_vsub "262420000000001" 0x1234]} (vg_sample_world vg_active)); [lia| |set_solver].
  apply (vg_sample_reachable vg_active). vm_compute. reflexivity.
Defined.

(** the pointers that the theorem does not cover do dangle: that of the call to
    the cell of the talker, and that of a connection to a cell *)
Example uplink_cell_dangles :
  vg_sample_run 7 (vg_talker_lost ++ [EvRanUp 3 (UpUplinkRequestCnf [] None)]) = Fault FreedUplinkCell.
Proof. vm_compute. reflexivity. Qed.
Example cell_of_conn_dangles :
  vg_sample_run 7 (vg_active ++ [EvRanUp 5 UpClearRequest; EvRanUp 5 UpClearRequest]) = Fault FreedOfConn.
Proof. vm_compute. reflexivity. Qed.
